(* ===== verification/_CoqProject ===== *)
-Q . S2P
Prelude.v
Errors.v
TaskModel.v
DependencyGraph.v
PipelineModel.v
Json.v
ActionModel.v
PolicyModel.v
ConnectorModel.v
Dates.v
Arranged.v
Text.v
Members.v
PackSchema.v
PackManifest.v
PackCanonical.v
PackLaws.v
SchemaLaws.v
ContributionLaws.v
ManifestLaws.v
PackDigest.v
StrictJson.v
StrictJsonLaws.v
StrictJsonRoundtrip.v
PackVerify.v
PackSafety.v
FilesystemPath.v
FilesystemPolicy.v
FilesystemLaws.v
FilesystemPermission.v
UnifiedDiff.v
FilesystemConnector.v
AgentModel.v
RoutingModel.v
CostModel.v
BudgetModel.v
BudgetLaws.v
BudgetSafety.v
Store.v
RunStore.v
ActionStore.v
TaskServices.v
RunHistory.v
OutboxModel.v
PipelineStore.v
RunServices.v
PipelineServices.v
RunRecovery.v
ActionServices.v
ActionInvocation.v
ActionSafety.v
ActionHistory.v
RunExecution.v
TaskInvariants.v
TaskRefinement.v
TaskHistory.v
TaskGuards.v
PipelineCommands.v
PipelineHistory.v
GatewayModel.v
GatewaySafety.v
RecoverySteps.v
RecoverySafety.v
