(* ===== verification/Prelude.v ===== *)
(** A verification of the execution core of AI Office, a local-first host that
    plans work as tasks, runs agents on them through enforced pipelines, meters
    the models they call and controls the actions they take.  Source paths are
    relative to [src/packages/] unless they start with [migrations/].

    * The program and its model

    The host keeps one SQLite database per project.  Services of
    [application/src] read aggregates of [domain/src] from the repositories of
    [storage-sqlite/src], change them, and write them back inside transactions;
    the triggers and keys of [migrations/project] guard the tables.  Each part
    is modelled as the code has it: aggregates as records with methods that
    read and write them and may throw in the middle ([action] below);
    repositories as statements over finite maps, with the triggers they meet;
    services as commands over the world (database, clock, generated
    identifiers), composed statement by statement in the order of the code.

    - [Prelude], [Errors]: results, actions, JavaScript text, numbers and
      sorting, and the error classes with their messages and names.
    - [TaskModel], [DependencyGraph], [Store], [TaskServices]: tasks, their
      prerequisites, their tables, and the services of
      [application/src/commands] that change them.
    - [PipelineModel], [PipelineStore], [PipelineServices]: the pipeline run
      aggregate, its compare-and-swap storage, and the services that start and
      move runs, authorize operations, orchestrate stages and recover suspended
      ones.
    - [AgentModel], [RoutingModel], [RunStore], [OutboxModel], [RunServices],
      [RunExecution]: roles, agent runs with leases and fences, the model a run
      freezes, scheduling, admission, the job outbox, and the execution of a
      run with the rest of the host going on at each of its waits.
    - [Dates], [Arranged], [RunRecovery]: the live runs in the memory of a host,
      the report on a run and its hash, cancellation, and the recovery of a run
      whose host stopped.
    - [CostModel], [BudgetModel], [GatewayModel]: prices, budgets with
      reservations and cost events, and the metered model gateway.
    - [Json], [ActionModel], [PolicyModel], [ConnectorModel], [ActionStore],
      [ActionServices], [ActionInvocation]: canonical JSON, controlled actions
      with their simulations, approvals and executions, grants and the policy
      engine, connectors and their registry, the tables of all these, and the
       services that request, decide, invoke and execute actions.
    - [FilesystemPath], [FilesystemPolicy], [UnifiedDiff],
      [FilesystemConnector]: the built-in filesystem connector: paths, the
      constraints grants put on it, its arguments, descriptor, plans and
      invocation, with the sandbox that touches files as a parameter.
    - [PackSchema], [PackManifest], [PackCanonical], [StrictJson]: the manifests
      of domain packs in [domain-pack-contracts/src]: the readers of data
      schemas and of every kind of contribution, the checks between them, the
      canonical text and digest, and the strict JSON reader of published bytes.
      [Text] and [Members] hold the strings and object members they share.

    * What is proved

    - Tasks ([TaskGuards], [TaskInvariants], [TaskRefinement], [TaskHistory]):
      the exact condition of every lifecycle operation; the services refine a
      small set of abstract changes, from which follow, over every history of
      requests, that prerequisites stay acyclic, that completed work had its
      prerequisites completed or attested, and that the audit trail replays the
      statuses.
    - Pipelines ([PipelineModel], [PipelineStore], [PipelineCommands],
      [PipelineHistory]): the aggregate's calls refine an abstract step
      relation and keep runs well-formed; a save swaps versions; stored runs are
      runs the aggregate reaches; one run is active per task; a run that ended
      ended its task; authorization is exactly what the current stage grants.
    - Agent runs ([RunHistory], [RunServices], [RunExecution]): over every
      interleaving of the repository's calls a run only advances, is admitted
      once, and is worked on under one lease; stale copies write nothing;
      scheduling writes all or nothing; an execution always returns and reports
      the status that is stored.
    - Recovery ([RecoverySteps], [RecoverySafety]): a recovery applies exactly the
      plan that was approved, whose hash binds the facts it states; it never
      guesses at an effect, and ends the run for good; a cancellation answers
      truly, and leaves no run of a task waiting; a run whose stage has been left
      cannot be recovered.
    - Money ([BudgetLaws], [BudgetSafety], [GatewaySafety]): budgets are not
      overspent in any history; the gateway settles every reservation it made,
      against an interface ([CostRepositoryLaws]) the adapter is proved to meet.
    - Controlled actions ([PolicyModel], [ConnectorModel], [ActionSafety],
      [ActionHistory]): the policy allows exactly what grants cover; an accepted
      registry allows outright only reads; over every interleaving of the
      services, to any depth, a mutation is asked for at most once and only
      under an approval bound to its payload and its simulation; requests follow
      the aggregate's transitions; what an execution reports is what is stored.
    - Files ([FilesystemPath], [FilesystemPolicy], [FilesystemConnector]):
      accepted paths stay inside the root, arguments read back as themselves,
      and the constraints a sandbox receives are exactly those of the grants.
    - Domain packs ([PackLaws], [SchemaLaws], [ContributionLaws],
      [ManifestLaws], [PackDigest], [StrictJsonLaws], [StrictJsonRoundtrip],
      [PackVerify], [PackSafety]): every parser meets one interface, [Parses]:
      it returns well-formed values, and reads the JSON of a well-formed value
      as that value.  From it: validation is stable, references resolve, agents
      stay within their roles and policies fit their workflows; the digest pins
      the content up to the order of entries; the strict reader always answers,
      reads back what was written, and a published manifest verifies.

    Histories are sequences of service calls from a fresh database; where the
    code waits outside a transaction, the other calls of the host run: a
    parameter ([meanwhile], [elsewhere], the interference of [RunExecution])
    that is itself required to be a history, and nothing more.  Proofs about
    them go by rely and guarantee: a reflexive and transitive relation between
    worlds that every statement is shown to keep.

    * Conventions, bounds and fuel

    A date is the number of its milliseconds, [None] an invalid date; a number
    is a finite one with its JavaScript operations, or a special value; a string
    is its code units below 256, a text of others being outside the model.  The
    search for a dependency cycle uses fuel, [search_fuel] of [DependencyGraph],
    and the strict JSON reader [fuel_for] of [StrictJson], twice the length of
    the text and one; both are shown to be enough; every other recursion is
    structural.  Integers that the
    code bounds ([Number.isSafeInteger], SQLite's 64 bits) carry these checks.

    Parameters, each standing for code outside [src]: the clock and the
    generator of identifiers ([Store.Environment]; that identifiers never repeat
    is [EnvironmentLaws]), the printing of numbers ([ShowNumber] with its laws,
    discharged by a decimal printer), the reading of numerals and of string
    literals ([ReadNumber], [ReadLiteral], with laws discharged by concrete
    readers), the UTF-8 decoder, SHA-256, the collation of the host, model
    providers, workers and their worktrees, and what a connector does outside
    the process.  The resolved configuration of domain packs is a parameter too,
    although its code is here: it is not modelled.

    CHECK constraints that only repeat what the code validates before it writes
    are left out, and so are the triggers on deletion, since nothing deletes
    these rows.  JSON columns hold the value of the text they store.  Budgets do
    not change within a cost history.

    * Not modelled

    Storage in PostgreSQL and SurrealDB, the dashboard, the CLI, the daemon and
    its protocol, model providers, the job queue, service management, project
    portability, memory and knowledge, the resolution of installed domain packs,
    the filesystem sandbox, office manifests beyond their data, governance services, planning and operational
    views.  Most of these are input and output, views, or data; the manifest
    lists each with its reason. *)
From stdpp Require Export base list strings pretty numbers sorting gmap.
From Stdlib Require Export Lia.

(** * Results and effects

    A function that may throw is a value of [result E A]; a method of a
    class with a mutable [props] field is an [action E S A]: it reads and
    writes the state and may throw in the middle, after it has already
    written, so "a refused call changes nothing" is a statement to prove and
    not a convention. *)

Declare Scope ts_scope.
Delimit Scope ts_scope with ts.
Open Scope ts_scope.

Inductive result (E A : Type) : Type :=
| Ok (a : A)
| Throw (e : E).
Arguments Ok {E A} a.
Arguments Throw {E A} e.

#[global] Instance result_ret {E} : MRet (result E) := λ A, Ok.
#[global] Instance result_bind {E} : MBind (result E) := λ A B f m,
  match m with Ok a => f a | Throw e => Throw e end.
#[global] Instance result_fmap {E} : FMap (result E) := λ A B f m,
  match m with Ok a => Ok (f a) | Throw e => Throw e end.
#[global] Instance result_throw {E} : MThrow E (result E) := λ A, Throw.
#[global] Instance result_eq_dec `{EqDecision E, EqDecision A} : EqDecision (result E A).
Proof. solve_decision. Defined.

Definition is_ok {E A} (r : result E A) : bool :=
  match r with Ok _ => true | Throw _ => false end.

(** [if (b) throw e;] *)
Definition throw_if {E} (b : bool) (e : E) : result E unit :=
  if b then Throw e else Ok tt.

(** [values.map(f)] where [f] may throw: the first failure wins. *)
Fixpoint map_result {E A B} (f : A → result E B) (l : list A) : result E (list B) :=
  match l with
  | [] => Ok []
  | x :: l => y ← f x; ys ← map_result f l; Ok (y :: ys)
  end.

Definition action (E S A : Type) : Type := S → result E A * S.

#[global] Instance action_ret {E S} : MRet (action E S) := λ A a s, (Ok a, s).
#[global] Instance action_bind {E S} : MBind (action E S) := λ A B f m s,
  match m s with
  | (Ok a, s') => f a s'
  | (Throw e, s') => (Throw e, s')
  end.
#[global] Instance action_throw {E S} : MThrow E (action E S) := λ A e s, (Throw e, s).

Definition get {E S} : action E S S := λ s, (Ok s, s).
Definition put {E S} (s : S) : action E S unit := λ _, (Ok tt, s).
Definition modify {E S} (f : S → S) : action E S unit := λ s, (Ok tt, f s).
Definition lift {E S A} (r : result E A) : action E S A := λ s, (r, s).
Definition refuse_if {E S} (b : bool) (e : E) : action E S unit := lift (throw_if b e).

(** Runs a callback inside a storage transaction: a throw rolls the state
    back to what it was when the transaction opened. *)
Definition transaction {E S A} (m : action E S A) : action E S A := λ s,
  match m s with
  | (Ok a, s') => (Ok a, s')
  | (Throw e, _) => (Throw e, s)
  end.

(** A failed call leaves the state as it found it. *)
Definition atomic {E S A} (m : action E S A) : Prop :=
  ∀ s e s', m s = (Throw e, s') → s' = s.

(** A call that only reads. *)
Definition readonly {E S A} (m : action E S A) : Prop :=
  ∀ s, (m s).2 = s.

(** * JavaScript values the source relies on *)

(** A number as the source's integer checks see it: an integer, [-0], a
    finite number that is no integer, an infinity or [NaN].  A number that is
    no integer is its floor and the binary digits of its fraction up to the
    last one, which is 1. *)
Inductive number :=
| NInt (z : Z)
| NNegZero
| NFrac (floor : Z) (digits : list bool)
| NInf (negative : bool)
| NNaN.

#[global] Instance number_eq_dec : EqDecision number.
Proof. solve_decision. Defined.

(** [Number.isInteger], [Number.isFinite], [Number.isSafeInteger] *)
Definition is_integer (n : number) : bool :=
  match n with NInt _ | NNegZero => true | _ => false end.

Definition is_finite (n : number) : bool :=
  match n with NInt _ | NNegZero | NFrac _ _ => true | _ => false end.

Definition max_safe_integer : Z := 9007199254740991.

Definition is_safe_integer (n : number) : bool :=
  match n with
  | NInt z => (- max_safe_integer <=? z)%Z && (z <=? max_safe_integer)%Z
  | NNegZero => true
  | _ => false
  end.

(** [n < z] and [n > z] against an integer constant. *)
Definition num_lt (n : number) (z : Z) : bool :=
  match n with
  | NInt m => (m <? z)%Z
  | NNegZero => (0 <? z)%Z
  | NFrac f _ => (f <? z)%Z
  | NInf neg => neg
  | NNaN => false
  end.

Definition num_gt (n : number) (z : Z) : bool :=
  match n with
  | NInt m => (z <? m)%Z
  | NNegZero => (z <? 0)%Z
  | NFrac f _ => (z <=? f)%Z
  | NInf neg => negb neg
  | NNaN => false
  end.

(** [0.a1 < 0.b1] for two fractions without their last digit. *)
Fixpoint digits_ltb (a b : list bool) : bool :=
  match a, b with
  | [], [] => false
  | [], d :: _ => d
  | d :: _, [] => negb d
  | x :: a', y :: b' => if bool_decide (x = y) then digits_ltb a' b' else y
  end.

(** A finite number as its floor and its fraction, if it has one. *)
Definition num_parts (n : number) : Z * option (list bool) :=
  match n with NInt z => (z, None) | NFrac f d => (f, Some d) | _ => (0%Z, None) end.

(** [n < m] *)
Definition number_ltb (n m : number) : bool :=
  match n, m with
  | NNaN, _ | _, NNaN => false
  | NInf negative, NInf negative' => negative && negb negative'
  | NInf negative, _ => negative
  | _, NInf negative => negb negative
  | _, _ =>
      let (f, d) := num_parts n in
      let (g, e) := num_parts m in
      (f <? g)%Z ||
      ((f =? g)%Z && match d, e with
                     | _, None => false
                     | None, Some _ => true
                     | Some d, Some e => digits_ltb d e
                     end)
  end.

(** A [Date] is its [getTime()]: milliseconds, or [None] for an Invalid Date,
    whose [NaN] makes every comparison false. *)
Abbreviation date := (option Z).

Definition valid_date (d : date) : bool :=
  match d with Some _ => true | None => false end.

Definition date_ltb (a b : date) : bool :=
  match a, b with Some x, Some y => (x <? y)%Z | _, _ => false end.

Definition date_leb (a b : date) : bool :=
  match a, b with Some x, Some y => (x <=? y)%Z | _, _ => false end.

(** ** Strings

    A string is a sequence of UTF-16 code units below 256, one per [ascii]. *)

(** White space that [String.prototype.trim] removes, below U+0100. *)
Definition is_js_space (c : Ascii.ascii) : bool :=
  let n := Ascii.nat_of_ascii c in
  (9 <=? n) && (n <=? 13) || (n =? 32) || (n =? 160).

Fixpoint drop_spaces (l : list Ascii.ascii) : list Ascii.ascii :=
  match l with
  | c :: l' => if is_js_space c then drop_spaces l' else l
  | [] => []
  end.

Definition trim (s : string) : string :=
  String.string_of_list_ascii
    (reverse (drop_spaces (reverse (drop_spaces (String.list_ascii_of_string s))))).

(** [new TextEncoder().encode(s).byteLength]: UTF-8 takes two bytes above U+007F. *)
Fixpoint utf8_length (s : string) : Z :=
  match s with
  | EmptyString => 0
  | String c s' => (if (Ascii.nat_of_ascii c <? 128)%nat then 1 else 2) + utf8_length s'
  end%Z.

(** [s.startsWith(p)], [s.endsWith(p)], [l.join(sep)], [l.includes(x)] *)
Definition starts_with (s p : string) : bool := String.prefix p s.

Definition ends_with (s p : string) : bool :=
  (String.length p <=? String.length s)%nat &&
  bool_decide (String.substring (String.length s - String.length p) (String.length p) s = p).

Definition join (sep : string) (l : list string) : string := String.concat sep l.

Definition includes `{EqDecision A} (x : A) (l : list A) : bool := bool_decide (x ∈ l).

(** [String(z)] for an integer, as template literals print counts. *)
Definition show_Z (z : Z) : string := pretty z.

(** Every character satisfies [p]. *)
Fixpoint string_all (p : Ascii.ascii → bool) (s : string) : bool :=
  match s with
  | EmptyString => true
  | String c s' => p c && string_all p s'
  end.

Definition in_range (lo hi : nat) (c : Ascii.ascii) : bool :=
  (lo <=? Ascii.nat_of_ascii c) && (Ascii.nat_of_ascii c <=? hi).
Definition is_lower : Ascii.ascii → bool := in_range 97 122.
Definition is_upper : Ascii.ascii → bool := in_range 65 90.
Definition is_digit : Ascii.ascii → bool := in_range 48 57.
Definition one_of (chars : string) (c : Ascii.ascii) : bool :=
  includes c (String.list_ascii_of_string chars).

(** [/^first rest{0,extra}$/]: one character of [first], then at most [extra]
    characters of [rest]. *)
Definition matches_head_tail (first rest : Ascii.ascii → bool) (extra : nat) (s : string) : bool :=
  match s with
  | EmptyString => false
  | String c s' => first c && string_all rest s' && (String.length s' <=? extra)
  end.

(** [/^[0-9a-f]{64}$/] *)
Definition is_sha256_hex (s : string) : bool :=
  (String.length s =? 64) && string_all (λ c, is_digit c || in_range 97 102 c) s.

(** ** Sorting and maps *)

(** [compareText]/the default code-unit order of [Array.prototype.sort]. *)
Definition compare_text (a b : string) : Z :=
  match String.compare a b with Lt => -1 | Eq => 0 | Gt => 1 end.

(** [c1 || c2] on comparator results. *)
Definition or_else (c1 c2 : Z) : Z := if (c1 =? 0)%Z then c2 else c1.

(** [l.sort(cmp)]: stable, by insertion. *)
Fixpoint insert_by {A} (cmp : A → A → Z) (x : A) (l : list A) : list A :=
  match l with
  | [] => [x]
  | y :: l' => if (cmp x y <=? 0)%Z then x :: y :: l' else y :: insert_by cmp x l'
  end.

Definition sort_by {A} (cmp : A → A → Z) (l : list A) : list A :=
  foldr (insert_by cmp) [] l.

(** [new Map(pairs)]: a later pair overwrites an earlier one. *)
Definition map_of_pairs `{Countable K} {V} (l : list (K * V)) : gmap K V :=
  foldl (λ m p, <[p.1 := p.2]> m) ∅ l.

(** The [Map<K, V[]>] that collects the values of each key in order. *)
Definition index `{Countable K} {V} (l : list (K * V)) : gmap K (list V) :=
  foldl (λ m p, <[p.1 := default [] (m !! p.1) ++ [p.2]]> m) ∅ l.

(** [[...new Set(l)]]: the first occurrence of each element. *)
Fixpoint unique_from `{EqDecision A} (seen l : list A) : list A :=
  match l with
  | [] => []
  | x :: l' =>
      if includes x seen then unique_from seen l' else x :: unique_from (x :: seen) l'
  end.

Definition unique `{EqDecision A} (l : list A) : list A := unique_from [] l.

(** [[...new Set(values)].sort(compareText)] *)
Definition sorted_unique (l : list string) : list string :=
  sort_by compare_text (unique l).

(** * Lemmas on effects *)

Create HintDb ts.

Section result_lemmas.
  Context {E : Type}.

Lemma bind_Ok {A B} (m : result E A) (f : A → result E B) b :
  m ≫= f = Ok b ↔ ∃ a, m = Ok a ∧ f a = Ok b.
Proof. destruct m; simpl; naive_solver. Qed.

Lemma bind_Throw {A B} (m : result E A) (f : A → result E B) e :
  m ≫= f = Throw e ↔ m = Throw e ∨ ∃ a, m = Ok a ∧ f a = Throw e.
Proof. destruct m; simpl; naive_solver. Qed.

Lemma throw_if_Ok b (e : E) u : throw_if b e = Ok u ↔ b = false.
Proof. destruct b, u; naive_solver. Qed.

Lemma throw_if_Throw b (e e' : E) : throw_if b e = Throw e' ↔ b = true ∧ e = e'.
Proof. destruct b; naive_solver. Qed.

Lemma throw_if_bind_Ok {A} b (e : E) (k : result E A) a :
  (throw_if b e;; k) = Ok a ↔ b = false ∧ k = Ok a.
Proof. destruct b; simpl; naive_solver. Qed.

Lemma throw_if_bind_Throw {A} b (e e' : E) (k : result E A) :
  (throw_if b e;; k) = Throw e' ↔ b = true ∧ e = e' ∨ b = false ∧ k = Throw e'.
Proof. destruct b; simpl; naive_solver. Qed.

Lemma is_ok_spec {A} (r : result E A) : is_ok r = true ↔ ∃ a, r = Ok a.
Proof. destruct r; naive_solver. Qed.

Lemma map_result_Ok {A B} (f : A → result E B) l l' :
  map_result f l = Ok l' ↔ Forall2 (λ x y, f x = Ok y) l l'.
Proof.
  revert l'; induction l as [|x l IH]; intros l'; simpl.
  - split; [intros [= <-]; constructor | by inversion 1].
  - rewrite bind_Ok. setoid_rewrite bind_Ok. split.
    + intros (y & Hy & ys & Hys & [= <-]). constructor; [done|]. by apply IH.
    + inversion 1; subst. eexists; split; [done|]. eexists; split; [by apply IH|done].
Qed.

Lemma map_result_throws {A B} (f : A → result E B) l e :
  map_result f l = Throw e → ∃ x, x ∈ l ∧ f x = Throw e.
Proof.
  induction l as [|x l IH]; simpl; [done|]. rewrite bind_Throw.
  intros [?|(y & _ & Hl)]; [set_solver|].
  apply bind_Throw in Hl as [Hl|(? & _ & [=])]. destruct (IH Hl) as (z & ? & ?). set_solver.
Qed.

Lemma map_result_total {A B} (f : A → result E B) (g : A → B) l :
  (∀ x, x ∈ l → f x = Ok (g x)) → map_result f l = Ok (g <$> l).
Proof.
  intros Hf. apply map_result_Ok, Forall2_fmap_r, Forall_Forall2_diag, Forall_forall, Hf.
Qed.

End result_lemmas.

Section action_lemmas.
  Context {E S : Type}.

Lemma action_bind_Ok {A B} (m : action E S A) (k : A → action E S B) s b s' :
  (m ≫= k) s = (Ok b, s') ↔ ∃ a s1, m s = (Ok a, s1) ∧ k a s1 = (Ok b, s').
Proof. unfold mbind, action_bind. destruct (m s) as [[a|e] s1]; naive_solver. Qed.

Lemma action_bind_Throw {A B} (m : action E S A) (k : A → action E S B) s e s' :
  (m ≫= k) s = (Throw e, s') ↔
  m s = (Throw e, s') ∨ ∃ a s1, m s = (Ok a, s1) ∧ k a s1 = (Throw e, s').
Proof. unfold mbind, action_bind. destruct (m s) as [[a|e'] s1]; naive_solver. Qed.

Lemma refuse_if_bind_Ok {A} b (e : E) (k : action E S A) s a s' :
  (refuse_if b e;; k) s = (Ok a, s') ↔ b = false ∧ k s = (Ok a, s').
Proof. unfold mbind, action_bind, refuse_if, lift. destruct b; simpl; naive_solver. Qed.

Lemma lift_bind_Ok {A B} (r : result E A) (k : A → action E S B) s b s' :
  (lift r ≫= k) s = (Ok b, s') ↔ ∃ a, r = Ok a ∧ k a s = (Ok b, s').
Proof. unfold mbind, action_bind, lift. destruct r as [a|e]; naive_solver. Qed.

Lemma refuse_if_Ok b (e : E) (s : S) u s' : refuse_if b e s = (Ok u, s') ↔ b = false ∧ s' = s.
Proof. unfold refuse_if, lift. destruct b, u; simpl; naive_solver. Qed.

Lemma get_bind {A} (k : S → action E S A) s : (get ≫= k) s = k s s.
Proof. done. Qed.

Lemma readonly_ret {A} (a : A) : readonly (mret a : action E S A).
Proof. done. Qed.

Lemma readonly_get : readonly (get : action E S S).
Proof. done. Qed.

Lemma readonly_lift {A} (r : result E A) : readonly (lift r : action E S A).
Proof. done. Qed.

Lemma readonly_refuse_if b (e : E) : readonly (refuse_if b e : action E S unit).
Proof. done. Qed.

Lemma readonly_throw {A} (e : E) : readonly (mthrow e : action E S A).
Proof. done. Qed.

Lemma readonly_bind {A B} (m : action E S A) (k : A → action E S B) :
  readonly m → (∀ a, readonly (k a)) → readonly (m ≫= k).
Proof.
  intros Hm Hk s. unfold mbind, action_bind.
  specialize (Hm s). destruct (m s) as [[a|e] s1]; simpl in *; subst; [apply Hk|done].
Qed.

Lemma atomic_readonly {A} (m : action E S A) : readonly m → atomic m.
Proof. intros Hm s e s' H. specialize (Hm s). by rewrite H in Hm. Qed.

Lemma atomic_put (s : S) : atomic (put s : action E S unit).
Proof. by intros s0 e s' [=]. Qed.

Lemma atomic_modify (f : S → S) : atomic (modify f : action E S unit).
Proof. by intros s0 e s' [=]. Qed.

Lemma atomic_transaction {A} (m : action E S A) : atomic (transaction m).
Proof. intros s e s'. unfold transaction. destruct (m s) as [[]?]; naive_solver. Qed.

(** Everything read or checked before the one step that writes keeps a
    method atomic. *)
Lemma atomic_bind {A B} (m : action E S A) (k : A → action E S B) :
  readonly m → (∀ a, atomic (k a)) → atomic (m ≫= k).
Proof.
  intros Hm Hk s e s' [H|(a & s1 & H & H')]%action_bind_Throw.
  - by eapply atomic_readonly.
  - specialize (Hm s). rewrite H in Hm. simpl in Hm. subst s1. by eapply Hk.
Qed.

Lemma transaction_Ok {A} (m : action E S A) s a s' :
  transaction m s = (Ok a, s') ↔ m s = (Ok a, s').
Proof. unfold transaction. destruct (m s) as [[]?]; naive_solver. Qed.

Lemma transaction_Throw {A} (m : action E S A) s e s' :
  transaction m s = (Throw e, s') ↔ s' = s ∧ ∃ s1, m s = (Throw e, s1).
Proof. unfold transaction. destruct (m s) as [[]?]; naive_solver. Qed.

End action_lemmas.

#[export] Hint Resolve readonly_ret readonly_get readonly_lift readonly_refuse_if
  readonly_throw readonly_bind atomic_put atomic_modify atomic_transaction : ts.
#[export] Hint Resolve atomic_bind | 5 : ts.
#[export] Hint Resolve atomic_readonly | 10 : ts.

(** Destructs what a hypothesis says of guarded code: which binds succeeded,
    which guards did not fire. *)
Ltac result_step :=
  match goal with
  | H : Ok _ = Ok _ |- _ => injection H as H
  | H : Throw _ = Throw _ |- _ => injection H as H
  | H : Throw _ = Ok _ |- _ => discriminate H
  | H : Ok _ = Throw _ |- _ => discriminate H
  | H : mret _ = Ok _ |- _ => injection H as H
  | H : (_, _) = (_, _) |- _ => injection H as H
  | H : mret _ _ = (_, _) |- _ => injection H as H
  | H : put _ _ = (_, _) |- _ => injection H as H
  | H : modify _ _ = (_, _) |- _ => injection H as H
  | H : get _ = (_, _) |- _ => injection H as H
  | H : lift _ _ = (_, _) |- _ => injection H as H
  | H : refuse_if _ _ _ = (_, _) |- _ => injection H as H
  | H : mthrow _ _ = (_, _) |- _ => injection H as H
  | H : throw_if _ _ = Ok _ |- _ => apply throw_if_Ok in H
  | H : @mbind (result _) _ _ _ _ _ = Ok _ |- _ => apply bind_Ok in H as (? & ? & H)
  | H : @mbind (action _ _) _ _ _ _ _ _ = (Ok _, _) |- _ =>
      apply action_bind_Ok in H as (? & ? & ? & H)
  | H : transaction _ _ = (Ok _, _) |- _ => apply transaction_Ok in H
  end; subst.

Ltac inv_ok := repeat result_step.

(** * Lemmas on sorting *)

Class Comparator {A} (cmp : A → A → Z) : Prop := {
  cmp_total x y : (0 < cmp x y → cmp y x <= 0)%Z;
  cmp_trans x y z : (cmp x y <= 0 → cmp y z <= 0 → cmp x z <= 0)%Z
}.

Section sort_lemmas.
  Context {A : Type} (cmp : A → A → Z).

Definition cmp_le (x y : A) : Prop := (cmp x y <= 0)%Z.

Lemma insert_by_perm x l : insert_by cmp x l ≡ₚ x :: l.
Proof.
  induction l as [|y l IH]; simpl; [done|]. case_match; [done|].
  rewrite IH. apply Permutation_swap.
Qed.

Lemma sort_by_perm l : sort_by cmp l ≡ₚ l.
Proof. induction l as [|x l IH]; simpl; [done|]. by rewrite insert_by_perm, IH. Qed.

Lemma sort_by_elem_of x l : x ∈ sort_by cmp l ↔ x ∈ l.
Proof. by rewrite sort_by_perm. Qed.

Lemma sort_by_length l : length (sort_by cmp l) = length l.
Proof. by rewrite sort_by_perm. Qed.

Context `{!Comparator cmp}.

#[local] Instance cmp_le_trans : Transitive cmp_le.
Proof. intros x y z. apply cmp_trans. Qed.

Lemma insert_by_sorted x l :
  StronglySorted cmp_le l → StronglySorted cmp_le (insert_by cmp x l).
Proof.
  induction l as [|y l IH]; simpl; [repeat constructor|]. intros Hs.
  destruct (Z.leb_spec (cmp x y) 0) as [Hxy|Hxy].
  - constructor; [done|]. apply StronglySorted_cons in Hs as [Hy _].
    constructor; [done|]. eapply Forall_impl; [done|]. intros z Hz. by etrans.
  - apply StronglySorted_cons in Hs as [Hy Hs]. constructor; [by apply IH|].
    rewrite insert_by_perm. constructor; [|done]. by apply cmp_total.
Qed.

Lemma sort_by_sorted l : StronglySorted cmp_le (sort_by cmp l).
Proof. induction l; simpl; [constructor|]. by apply insert_by_sorted. Qed.

(** Where the comparator separates the elements, the result of a sort does
    not depend on the order of its input. *)
Lemma sort_by_perm_eq l1 l2 :
  l1 ≡ₚ l2 →
  (∀ x y, x ∈ l1 → y ∈ l1 → cmp_le x y → cmp_le y x → x = y) →
  sort_by cmp l1 = sort_by cmp l2.
Proof.
  intros Hp Hinj. apply (StronglySorted_unique_strong cmp_le).
  - intros x y. rewrite !sort_by_elem_of, <-Hp. apply Hinj.
  - apply sort_by_sorted.
  - apply sort_by_sorted.
  - by rewrite !sort_by_perm.
Qed.

(** Sorting a sorted list changes nothing. *)
Lemma sort_by_id l : StronglySorted cmp_le l → sort_by cmp l = l.
Proof.
  induction l as [|x l IH]; simpl; [done|]. intros [Hx Hs]%StronglySorted_cons.
  rewrite IH by done. destruct l as [|y l]; simpl; [done|].
  apply Forall_cons in Hx as [Hxy _]. unfold cmp_le in Hxy.
  by destruct (Z.leb_spec (cmp x y) 0); [|lia].
Qed.

Lemma sort_by_idemp l : sort_by cmp (sort_by cmp l) = sort_by cmp l.
Proof. apply sort_by_id, sort_by_sorted. Qed.

End sort_lemmas.

(** Sorting commutes with a map the comparators agree on. *)
Lemma insert_by_fmap {A B} (cA : A → A → Z) (cB : B → B → Z) (f : A → B) x l :
  (∀ x y, cB (f x) (f y) = cA x y) → insert_by cB (f x) (f <$> l) = f <$> insert_by cA x l.
Proof.
  intros Hf. induction l as [|y l IH]; [done|]. rewrite fmap_cons. simpl. rewrite Hf.
  case_match; [done|]. rewrite fmap_cons. by f_equal.
Qed.

Lemma sort_by_fmap {A B} (cA : A → A → Z) (cB : B → B → Z) (f : A → B) l :
  (∀ x y, cB (f x) (f y) = cA x y) → sort_by cB (f <$> l) = f <$> sort_by cA l.
Proof.
  intros Hf. unfold sort_by. induction l as [|x l IH]; [done|].
  rewrite fmap_cons. simpl. rewrite IH. by apply insert_by_fmap.
Qed.

Lemma compare_text_le a b : (compare_text a b <= 0)%Z ↔ String.le a b.
Proof.
  unfold compare_text, String.le, String.leb.
  destruct (String.compare a b); simpl; split; (lia || done).
Qed.

#[export] Instance compare_text_comparator : Comparator compare_text.
Proof.
  split.
  - intros x y H. apply compare_text_le.
    destruct (total String.le x y) as [Hle|Hle]; [|done].
    apply compare_text_le in Hle. lia.
  - intros x y z. rewrite !compare_text_le. by intros; etrans.
Qed.

Lemma compare_text_antisym a b :
  (compare_text a b <= 0)%Z → (compare_text b a <= 0)%Z → a = b.
Proof. rewrite !compare_text_le. apply anti_symm, _. Qed.

Lemma compare_text_eq0 a b : compare_text a b = 0%Z ↔ a = b.
Proof.
  split.
  - unfold compare_text. destruct (String.compare a b) eqn:H; [|done|done].
    intros _. by apply String.compare_eq_iff.
  - intros ->. unfold compare_text. pose proof (String.compare_antisym b b) as H.
    by destruct (String.compare b b).
Qed.

Lemma sort_text_perm l1 l2 :
  l1 ≡ₚ l2 → sort_by compare_text l1 = sort_by compare_text l2.
Proof. intros. apply sort_by_perm_eq; eauto using compare_text_antisym with typeclass_instances. Qed.

(** * Lemmas on collections *)

Lemma includes_spec `{EqDecision A} (x : A) l : includes x l = true ↔ x ∈ l.
Proof. apply bool_decide_eq_true. Qed.

Lemma includes_false `{EqDecision A} (x : A) l : includes x l = false ↔ x ∉ l.
Proof. apply bool_decide_eq_false. Qed.

Lemma unique_from_elem_of `{EqDecision A} (x : A) seen l :
  x ∈ unique_from seen l ↔ x ∈ l ∧ x ∉ seen.
Proof.
  revert seen; induction l as [|y l IH]; intros seen; simpl; [set_solver|].
  destruct (includes y seen) eqn:Hy.
  - apply includes_spec in Hy. rewrite IH. set_solver.
  - apply includes_false in Hy. rewrite !elem_of_cons, IH.
    destruct (decide (x = y)); set_solver.
Qed.

Lemma unique_elem_of `{EqDecision A} (x : A) l : x ∈ unique l ↔ x ∈ l.
Proof. unfold unique. rewrite unique_from_elem_of. set_solver. Qed.

Lemma unique_from_NoDup `{EqDecision A} (seen l : list A) : NoDup (unique_from seen l).
Proof.
  revert seen; induction l as [|y l IH]; intros seen; simpl; [constructor|].
  case_match; [done|]. constructor; [|done]. rewrite unique_from_elem_of. set_solver.
Qed.

Lemma unique_NoDup `{EqDecision A} (l : list A) : NoDup (unique l).
Proof. apply unique_from_NoDup. Qed.

Lemma unique_perm `{EqDecision A} (l1 l2 : list A) :
  (∀ x, x ∈ l1 ↔ x ∈ l2) → unique l1 ≡ₚ unique l2.
Proof.
  intros H. apply NoDup_Permutation; [apply unique_NoDup..|].
  intros x. by rewrite !unique_elem_of.
Qed.

Lemma sorted_unique_elem_of x l : x ∈ sorted_unique l ↔ x ∈ l.
Proof. unfold sorted_unique. by rewrite sort_by_elem_of, unique_elem_of. Qed.

Lemma sorted_unique_ext l1 l2 :
  (∀ x, x ∈ l1 ↔ x ∈ l2) → sorted_unique l1 = sorted_unique l2.
Proof. intros H. apply sort_text_perm, unique_perm, H. Qed.

Lemma map_of_pairs_fold `{Countable K} {V} (l : list (K * V)) (m : gmap K V) k :
  foldl (λ m p, <[p.1 := p.2]> m) m l !! k =
  match (list_to_map (reverse l) : gmap K V) !! k with Some v => Some v | None => m !! k end.
Proof.
  induction l as [|[k' v'] l IH] using rev_ind; [done|].
  - rewrite foldl_snoc, reverse_snoc; simpl.
    destruct (decide (k' = k)) as [->|]; simplify_map_eq; [done|]. apply IH.
Qed.

Lemma map_of_pairs_to_map `{Countable K} {V} (l : list (K * V)) :
  map_of_pairs l = list_to_map (reverse l).
Proof.
  apply map_eq; intros k. unfold map_of_pairs. rewrite map_of_pairs_fold, lookup_empty.
  by destruct (_ !! k).
Qed.

Lemma map_of_pairs_lookup `{Countable K} {V} (l : list (K * V)) k v :
  NoDup l.*1 → map_of_pairs l !! k = Some v ↔ (k, v) ∈ l.
Proof.
  intros Hnd. rewrite map_of_pairs_to_map, <-elem_of_list_to_map, elem_of_reverse; [done|].
  by rewrite fmap_reverse, reverse_Permutation.
Qed.

Lemma map_of_pairs_dom `{Countable K} {V} (l : list (K * V)) k :
  is_Some (map_of_pairs l !! k) ↔ k ∈ l.*1.
Proof.
  rewrite map_of_pairs_to_map, <-elem_of_dom, dom_list_to_map_L, elem_of_list_to_set.
  by rewrite fmap_reverse, elem_of_reverse.
Qed.

Lemma map_of_pairs_Some `{Countable K} {V} (l : list (K * V)) k v :
  map_of_pairs l !! k = Some v → (k, v) ∈ l.
Proof.
  rewrite map_of_pairs_to_map. intros Hl%elem_of_list_to_map_2. by apply elem_of_reverse.
Qed.

Lemma map_of_pairs_perm `{Countable K} {V} (l1 l2 : list (K * V)) :
  NoDup l1.*1 → l1 ≡ₚ l2 → map_of_pairs l1 = map_of_pairs l2.
Proof.
  intros Hnd Hp. rewrite !map_of_pairs_to_map. apply list_to_map_proper.
  - by rewrite fmap_reverse, reverse_Permutation.
  - by rewrite !reverse_Permutation.
Qed.

Lemma NoDup_keys_inj {K A} (l : list (K * A)) x y :
  NoDup l.*1 → x ∈ l → y ∈ l → x.1 = y.1 → x = y.
Proof.
  induction l as [|z l IH]; simpl; [by intros _ ?%not_elem_of_nil|].
  intros [Hz Hnd]%NoDup_cons [->|Hx]%elem_of_cons [->|Hy]%elem_of_cons Hk; auto.
  - destruct Hz. rewrite Hk. apply list_elem_of_fmap. eauto.
  - destruct Hz. rewrite <-Hk. apply list_elem_of_fmap. eauto.
Qed.

(** Two lists of pairs with the same pairs and the same order of unique keys. *)
Lemma NoDup_fmap_filter {A B} (f : A → B) (P : A → Prop) `{∀ x, Decision (P x)} (l : list A) :
  NoDup (f <$> l) → NoDup (f <$> filter P l).
Proof.
  induction l as [|x l IH]; [done|]. rewrite fmap_cons, NoDup_cons, filter_cons. intros [Hx Hl].
  case_decide; [|by apply IH]. rewrite fmap_cons, NoDup_cons. split; [|by apply IH].
  intros (y & Hy & Hin)%list_elem_of_fmap. apply Hx. rewrite Hy.
  apply list_elem_of_fmap_2. by apply list_elem_of_filter in Hin as [_ ?].
Qed.

Lemma keys_determine {K A} (l l' : list (K * A)) :
  NoDup l.*1 → l ≡ₚ l' → l.*1 = l'.*1 → l = l'.
Proof.
  intros Hnd Hp Hk. apply list_eq_same_length with (length l); [by rewrite <-Hp|done|].
  intros i x y _ Hx Hy.
  assert (y ∈ l) by (rewrite Hp; by eapply list_elem_of_lookup_2).
  apply (NoDup_keys_inj l); [done|by eapply list_elem_of_lookup_2|done|].
  apply (f_equal (.!! i)) in Hk. rewrite !list_lookup_fmap, Hx, Hy in Hk. by injection Hk.
Qed.

Lemma filter_bool_partition {A} (p : A → bool) (l : list A) :
  filter (λ x, p x = true) l ++ filter (λ x, p x = false) l ≡ₚ l.
Proof.
  induction l as [|x l IH]; [done|]. rewrite !filter_cons.
  destruct (p x); simpl; [by rewrite IH|]. by rewrite <-Permutation_middle, IH.
Qed.

Lemma tc_mono {A} (R1 R2 : relation A) x y :
  (∀ a b, R1 a b → R2 a b) → tc R1 x y → tc R2 x y.
Proof. intros H. induction 1; [by apply tc_once, H|by eapply tc_l; [apply H|]]. Qed.

Lemma index_fold `{Countable K} {V} (l : list (K * V)) (m : gmap K (list V)) k :
  default [] (foldl (λ m p, <[p.1 := default [] (m !! p.1) ++ [p.2]]> m) m l !! k) =
  default [] (m !! k) ++ (filter (λ p, p.1 = k) l).*2.
Proof.
  induction l as [|[k' v'] l IH] using rev_ind; simpl.
  - by rewrite app_nil_r.
  - rewrite foldl_snoc, filter_app, fmap_app; simpl.
    destruct (decide (k' = k)) as [->|Hne].
    + rewrite lookup_insert_eq; simpl. rewrite IH, filter_cons_True by done.
      by rewrite app_assoc.
    + rewrite lookup_insert_ne, IH, filter_cons_False by done. simpl. by rewrite app_nil_r.
Qed.

Lemma index_lookup `{Countable K} {V} (l : list (K * V)) k :
  default [] (index l !! k) = (filter (λ p, p.1 = k) l).*2.
Proof. unfold index. by rewrite index_fold, lookup_empty. Qed.

Lemma index_elem_of `{Countable K} {V} (l : list (K * V)) k v :
  v ∈ default [] (index l !! k) ↔ (k, v) ∈ l.
Proof.
  rewrite index_lookup, list_elem_of_fmap. split.
  - intros ([k' v'] & -> & [<- Hin]%list_elem_of_filter). done.
  - intros. exists (k, v). by rewrite list_elem_of_filter.
Qed.

(** * Lemmas on strings *)

Lemma drop_spaces_idemp l : drop_spaces (drop_spaces l) = drop_spaces l.
Proof.
  induction l as [|c l IH]; simpl; [done|].
  destruct (is_js_space c) eqn:Hc; [done|]. simpl. by rewrite Hc.
Qed.

Lemma drop_spaces_split l : ∃ p, l = p ++ drop_spaces l.
Proof.
  induction l as [|c l [p Hp]]; simpl; [by exists []|].
  destruct (is_js_space c); [exists (c :: p); simpl; by f_equal|by exists []].
Qed.

Lemma drop_spaces_head c l l' : drop_spaces l = c :: l' → is_js_space c = false.
Proof.
  induction l as [|d l IH]; simpl; [done|].
  destruct (is_js_space d) eqn:Hd; [done|]. congruence.
Qed.

Lemma drop_spaces_length l : length (drop_spaces l) ≤ length l.
Proof. induction l as [|c l IH]; simpl; [lia|]. case_match; simpl; lia. Qed.

(** Dropping from one end keeps the other end free of white space. *)
Lemma drop_spaces_reverse l :
  drop_spaces l = l → drop_spaces (reverse (drop_spaces (reverse l))) =
  reverse (drop_spaces (reverse l)).
Proof.
  intros Hl. destruct (drop_spaces_split (reverse l)) as [p Hp].
  set (m := drop_spaces (reverse l)) in *.
  assert (l = reverse m ++ reverse p) as Hl'.
  { rewrite <-(reverse_involutive l), Hp at 1. by rewrite reverse_app. }
  destruct (reverse m) as [|c q] eqn:Hm; [done|]. simpl.
  assert (is_js_space c = false) as Hc; [|by rewrite Hc].
  rewrite Hl' in Hl. simpl in Hl.
  destruct (is_js_space c) eqn:Hc; [|done]. exfalso.
  pose proof (drop_spaces_length (q ++ reverse p)) as Hlen.
  rewrite Hl in Hlen. simpl in Hlen. lia.
Qed.

Lemma trim_idemp s : trim (trim s) = trim s.
Proof.
  unfold trim. rewrite String.list_ascii_of_string_of_list_ascii. f_equal.
  rewrite (drop_spaces_reverse (drop_spaces (String.list_ascii_of_string s)))
    by apply drop_spaces_idemp.
  by rewrite reverse_involutive, drop_spaces_idemp.
Qed.

Lemma string_of_list_ascii_length l :
  String.length (String.string_of_list_ascii l) = length l.
Proof. induction l; simpl; congruence. Qed.

Lemma list_ascii_of_string_length s :
  length (String.list_ascii_of_string s) = String.length s.
Proof. induction s; simpl; congruence. Qed.

Lemma trim_length s : String.length (trim s) ≤ String.length s.
Proof.
  unfold trim. rewrite string_of_list_ascii_length, length_reverse.
  etrans; [apply drop_spaces_length|]. rewrite length_reverse.
  etrans; [apply drop_spaces_length|]. by rewrite list_ascii_of_string_length.
Qed.
