(* ===== verification/Errors.v ===== *)
(** The error classes of the domain and application layers, as one sum type,
    and the monads of the library instantiated at it.  Models
    [packages/domain/src/errors.ts], [packages/domain/src/capability/errors.ts],
    the error classes the modelled application commands throw
    ([packages/application/src/errors.ts], [governance-errors.ts],
    [cost-errors.ts], [pipeline-errors.ts], [capability-errors.ts] and the
    commands' own), those of the connector SDK and the filesystem connector, and
    the failures of the SQLite driver: a constraint or a trigger of the schema. *)
From S2P Require Import Prelude.

(** One constructor per class; the arguments are the class's readonly fields,
    or its message where the class has none.  [TaskDependencyError] and
    [TaskPrerequisiteIncompleteError] are subclasses of
    [DomainValidationError], see [is_domain_validation_error].  [definite] of
    [ConnectorMutationExecutionError] is the certainty [definite_no_mutation];
    [ForeignError] is any other [Error], by its name and message, and
    [ThrownValue] a thrown value that is no [Error]. *)
Inductive error :=
| DomainValidationError (message : string)
| InvalidTaskTransitionError (from to : string) (allowed : list string)
| InvalidTaskCorrectionError (from to detail : string)
| TaskDependencyError (message : string)
| TaskPrerequisiteIncompleteError (taskId : string) (blockedBy : list (string * string))
    (completion : bool)
| TaskNotRunnableError
| PipelineTransitionError (message : string)
| CapabilityValidationError (message : string)
| InvalidCapabilityConstraintsError (message : string)
| CanonicalSerializationError (path message : string)
| InvalidActionTransitionError (from to : string)
| InvalidActionTimestampError
| InvalidModelUsageError (field : string)
| RangeError (message : string)
| TypeError (message : string)
| ProjectNotFoundError (id : string)
| TaskNotFoundError (id : string)
| TransactionAlreadyActiveError
| SqliteError (message : string)
| RequirementNotFoundError (id : string)
| TaskCompletionApprovalError
| AgentNotFoundError (id : string)
| TaskLockActiveError (id : string)
| TaskLockExpiredError (runId : string)
| ModelRoutingError (code message : string)
| AgentRunPersistenceConflictError (runId : string)
| GovernanceCrossProjectReferenceError (reference : string)
| GovernanceSubjectNotFoundError (type id : string)
| ReviewNotFoundError (id : string)
| ReviewAlreadyFinalizedError (id : string)
| RequirementNotEditableError (id status : string)
| DuplicateRequirementKeyError (key : string)
| PricingNotFoundError (provider model : string)
| PricingCurrencyMismatchError
| BudgetNotFoundError
| BudgetExceededError
| AtomicReservationUnavailableError
| ReservationExpiredError (id : string)
| DuplicateProviderUsageError (provider id : string)
| MonetaryOverflowError
| OfficeManifestNotFoundError (projectId : string)
| OfficePipelineNotFoundError (projectId taskKind : string)
| PipelineRunNotFoundError (id : string)
| ActivePipelineRunExistsError (taskId : string)
| PipelineDefinitionNotEnforcedError (id : string)
| PipelineDefinitionAmbiguousError (id : string)
| PipelineRoleUnavailableError (id : string) (roles : list string)
| PackPipelineUnsupportedError (id reason : string)
| ConcurrentPipelineTransitionError (id : string)
| PipelineActorUnauthorizedError (operation : string)
| PipelineStageOrchestrationError (message : string)
| UnsupportedConnectorProviderError (provider : string)
| UnsupportedConnectorResourceTypeError (provider resourceType : string)
| ConnectorRegistryError (message : string)
| UnsupportedConnectorError (provider : string)
| UnsupportedConnectorOperationError (provider operation : string)
| ConnectorExecutionUnavailableError (provider : string)
| ConnectorMutationExecutionError (code : string) (definite : bool) (message : string)
| ResourceNotFoundError (id : string)
| ResourceDisabledError (id : string)
| CapabilityGrantNotFoundError (id : string)
| CapabilityGrantRevokedError (id : string)
| CapabilityPrincipalNotFoundError (type id : string)
| ActionRequestNotFoundError (id : string)
| CapabilityProjectMismatchError
| ConcurrentActionTransitionError (id from to : string)
| ActionSimulationConflictError (id : string)
| InvalidConnectorInvocationStateError (message : string)
| StaleActionAuthorizationError
| ActionApprovalNotFoundError (id : string)
| ActionApprovalConflictError (id : string)
| InvalidActionApprovalStateError (message : string)
| ActionExecutionConflictError (id : string)
| InvalidActionExecutionStateError (message : string)
| StaleActionSimulationError
| AgentRunProvenanceError (message : string)
| InvalidRelativePathError
| PathOutsideRootError
| InvalidFilesystemConstraintsError (message : string)
| FilesystemBinaryFileError
| DomainPackManifestError (code path message : string)
| UnsupportedFilesystemPlatformError
| FilesystemSymlinkDeniedError
| SensitiveFilesystemPathError
| FilesystemEntryNotFoundError
| FilesystemNotDirectoryError
| FilesystemDiffTooLargeError
| FilesystemOperationAbortedError
| ForeignError (name message : string)
| ThrownValue.

#[global] Instance error_eq_dec : EqDecision error.
Proof. solve_decision. Defined.

(** [error instanceof DomainValidationError] *)
Definition is_domain_validation_error (e : error) : bool :=
  match e with
  | DomainValidationError _ | TaskDependencyError _ | TaskPrerequisiteIncompleteError _ _ _
  | TaskNotRunnableError | InvalidModelUsageError _ => true
  | _ => false
  end.

(** [error.message] of [InvalidTaskTransitionError]. *)
Definition transition_error_message (from to : string) (allowed : list string) : string :=
  match allowed with
  | [] => "Cannot transition task from " +:+ from +:+ " to " +:+ to +:+ ": " +:+ from
          +:+ " is terminal"
  | _ => "Cannot transition task from " +:+ from +:+ " to " +:+ to +:+ ". Allowed from "
         +:+ from +:+ ": " +:+ join ", " allowed
  end.

(** [error.message] of [InvalidTaskCorrectionError]. *)
Definition correction_error_message (from to detail : string) : string :=
  "Cannot record " +:+ to +:+ " for a task that is " +:+ from +:+ ": " +:+ detail.

(** [error.message] of [TaskPrerequisiteIncompleteError]. *)
Definition prerequisite_error_message
    (taskId : string) (blockedBy : list (string * string)) (completion : bool) : string :=
  "Task " +:+ taskId +:+ " has incomplete prerequisites: " +:+ join ", " blockedBy.*1
  +:+ (if completion then " (completion requires every prerequisite to be completed)" else "").

Definition usage_error_message (field : string) : string :=
  if bool_decide (field = "cachedInputTokens") then
    "usage.cachedInputTokens must not exceed usage.inputTokens"
  else if bool_decide (field = "reasoningTokens") then
    "usage.reasoningTokens must not exceed usage.outputTokens"
  else "usage." +:+ field +:+ " must be a non-negative safe integer".

(** [error.message] of each class. *)
Definition error_message (e : error) : string :=
  match e with
  | DomainValidationError m | TaskDependencyError m | PipelineTransitionError m
  | CapabilityValidationError m | InvalidCapabilityConstraintsError m | RangeError m | TypeError m
  | SqliteError m | ModelRoutingError _ m | PipelineStageOrchestrationError m => m
  | InvalidTaskTransitionError from to allowed => transition_error_message from to allowed
  | InvalidTaskCorrectionError from to detail => correction_error_message from to detail
  | TaskPrerequisiteIncompleteError taskId blockedBy completion =>
      prerequisite_error_message taskId blockedBy completion
  | TaskNotRunnableError => "Task is blocked or terminal; no agent work may be admitted"
  | CanonicalSerializationError path m => "Cannot canonicalize " +:+ path +:+ ": " +:+ m
  | InvalidActionTransitionError from to =>
      "Cannot transition action request from " +:+ from +:+ " to " +:+ to
  | InvalidActionTimestampError => "Action request transition time must be valid and monotonic"
  | InvalidModelUsageError field => usage_error_message field
  | ProjectNotFoundError id => "Project " +:+ id +:+ " not found"
  | TaskNotFoundError id => "Task " +:+ id +:+ " not found"
  | TransactionAlreadyActiveError => "A transaction is already active on this connection"
  | RequirementNotFoundError id => "Requirement " +:+ id +:+ " not found"
  | TaskCompletionApprovalError =>
      "Completion record approval does not match the current plan; re-run " +:+
      "task:record-completion without --approve and approve the new plan hash"
  | AgentNotFoundError id => "Agent " +:+ id +:+ " not found"
  | TaskLockActiveError id => "Task " +:+ id +:+ " is already locked by another run"
  | TaskLockExpiredError id => "Task lock owned by run " +:+ id +:+ " has expired"
  | AgentRunPersistenceConflictError id =>
      "Agent run " +:+ id +:+ " changed concurrently or has an invalid transition"
  | GovernanceCrossProjectReferenceError reference =>
      reference +:+ " must belong to the same project"
  | GovernanceSubjectNotFoundError type id =>
      "Governance subject " +:+ type +:+ ":" +:+ id +:+ " was not found in this project"
  | ReviewNotFoundError id => "Review " +:+ id +:+ " was not found"
  | ReviewAlreadyFinalizedError id => "Review " +:+ id +:+ " is already finalized"
  | RequirementNotEditableError id status =>
      "Requirement " +:+ id +:+ " is " +:+ status +:+
      "; only a proposed requirement can be updated"
  | DuplicateRequirementKeyError key =>
      "Requirement key " +:+ key +:+ " already exists in this project"
  | PricingNotFoundError provider model =>
      "No active pricing for " +:+ provider +:+ "/" +:+ model
  | PricingCurrencyMismatchError => "Fallback pricing candidates must use the same currency"
  | BudgetNotFoundError => "No matching budget was found"
  | BudgetExceededError => "The configured budget does not cover this reservation"
  | AtomicReservationUnavailableError => "Atomic multi-budget reservation is unavailable"
  | ReservationExpiredError id => "Budget reservation " +:+ id +:+ " has expired"
  | DuplicateProviderUsageError provider id =>
      "Usage for " +:+ provider +:+ " request " +:+ id +:+ " was already recorded"
  | MonetaryOverflowError => "Monetary value exceeds SQLite safe integer range"
  | OfficeManifestNotFoundError id => "No office manifest is configured for project " +:+ id
  | OfficePipelineNotFoundError id kind =>
      "No default " +:+ kind +:+ " pipeline is configured for project " +:+ id
  | PipelineRunNotFoundError id => "Pipeline run " +:+ id +:+ " not found"
  | ActivePipelineRunExistsError id =>
      "Task " +:+ id +:+ " already has an active pipeline run"
  | PipelineDefinitionNotEnforcedError id =>
      "Pipeline " +:+ id +:+ " is guidance-only and cannot create an enforced run"
  | PipelineDefinitionAmbiguousError id =>
      "Pipeline " +:+ id +:+ " is both a manifest pipeline and a pack workflow; " +:+
      "pass --source manifest or --source pack"
  | PipelineRoleUnavailableError id roles =>
      "Pack workflow " +:+ id +:+ " needs Runtime roles that do not exist: " +:+ join ", " roles
  | PackPipelineUnsupportedError id reason =>
      "Pack workflow " +:+ id +:+ " cannot start a run: " +:+ reason
  | ConcurrentPipelineTransitionError id => "Pipeline run " +:+ id +:+ " changed concurrently"
  | PipelineActorUnauthorizedError operation =>
      "Pipeline " +:+ operation +:+ " is not authorized for this actor type"
  | UnsupportedConnectorProviderError p | UnsupportedConnectorError p =>
      "Unsupported connector provider: " +:+ p
  | UnsupportedConnectorResourceTypeError p t =>
      "Resource type " +:+ t +:+ " is not supported by connector " +:+ p
  | UnsupportedConnectorOperationError p o =>
      "Unsupported operation for connector " +:+ p +:+ ": " +:+ o
  | ConnectorExecutionUnavailableError p => "Connector has no executable boundary: " +:+ p
  | ConnectorRegistryError m | ConnectorMutationExecutionError _ _ m
  | InvalidConnectorInvocationStateError m | InvalidActionApprovalStateError m
  | InvalidActionExecutionStateError m | AgentRunProvenanceError m
  | InvalidFilesystemConstraintsError m | ForeignError _ m => m
  | ResourceNotFoundError id => "Resource not found: " +:+ id
  | ResourceDisabledError id => "Resource is already disabled: " +:+ id
  | CapabilityGrantNotFoundError id => "Capability grant not found: " +:+ id
  | CapabilityGrantRevokedError id => "Capability grant is already revoked: " +:+ id
  | CapabilityPrincipalNotFoundError type id =>
      "Capability principal not found in project: " +:+ type +:+ ":" +:+ id
  | ActionRequestNotFoundError id => "Action request not found: " +:+ id
  | CapabilityProjectMismatchError => "Capability reference belongs to a different project"
  | ConcurrentActionTransitionError id from to =>
      "Action request " +:+ id +:+ " no longer has expected status " +:+ from +:+
      "; cannot transition to " +:+ to
  | ActionSimulationConflictError id => "Action request already has a simulation: " +:+ id
  | StaleActionAuthorizationError => "Action authorization is no longer current"
  | ActionApprovalNotFoundError id => "Action approval not found for action: " +:+ id
  | ActionApprovalConflictError id => "Action request already has an approval record: " +:+ id
  | ActionExecutionConflictError id => "Action request already has an execution attempt: " +:+ id
  | StaleActionSimulationError => "Action simulation is no longer valid"
  | InvalidRelativePathError => "Invalid relative filesystem path"
  | PathOutsideRootError => "Filesystem path is outside the registered root"
  | FilesystemBinaryFileError => "Filesystem content is not valid UTF-8 text"
  | DomainPackManifestError _ path message => path +:+ ": " +:+ message
  | UnsupportedFilesystemPlatformError => "Filesystem connector is not supported on this platform"
  | FilesystemSymlinkDeniedError => "Symbolic links are not permitted by the filesystem sandbox"
  | SensitiveFilesystemPathError => "Filesystem path is unavailable"
  | FilesystemEntryNotFoundError => "Filesystem entry is unavailable"
  | FilesystemNotDirectoryError => "Filesystem entry is not a directory"
  | FilesystemDiffTooLargeError => "Filesystem simulation diff exceeds the permitted byte limit"
  | FilesystemOperationAbortedError => "Filesystem operation was aborted"
  | ThrownValue => ""
  end.

(** [error instanceof Error ? error.name : "UnknownError"] *)
Definition error_name (e : error) : string :=
  match e with
  | DomainValidationError _ => "DomainValidationError"
  | InvalidTaskTransitionError _ _ _ => "InvalidTaskTransitionError"
  | InvalidTaskCorrectionError _ _ _ => "InvalidTaskCorrectionError"
  | TaskDependencyError _ => "TaskDependencyError"
  | TaskPrerequisiteIncompleteError _ _ _ => "TaskPrerequisiteIncompleteError"
  | TaskNotRunnableError => "DomainValidationError"
  | PipelineTransitionError _ => "PipelineTransitionError"
  | CapabilityValidationError _ => "CapabilityValidationError"
  | InvalidCapabilityConstraintsError _ => "InvalidCapabilityConstraintsError"
  | CanonicalSerializationError _ _ => "CanonicalSerializationError"
  | InvalidActionTransitionError _ _ => "InvalidActionTransitionError"
  | InvalidActionTimestampError => "InvalidActionTimestampError"
  | InvalidModelUsageError _ => "InvalidModelUsageError"
  | RangeError _ => "RangeError"
  | TypeError _ => "TypeError"
  | ProjectNotFoundError _ => "ProjectNotFoundError"
  | TaskNotFoundError _ => "TaskNotFoundError"
  | TransactionAlreadyActiveError => "TransactionAlreadyActiveError"
  | SqliteError _ => "SQLiteError"
  | RequirementNotFoundError _ => "RequirementNotFoundError"
  | TaskCompletionApprovalError => "TaskCompletionApprovalError"
  | AgentNotFoundError _ => "AgentNotFoundError"
  | TaskLockActiveError _ => "TaskLockActiveError"
  | TaskLockExpiredError _ => "TaskLockExpiredError"
  | ModelRoutingError _ _ => "ModelRoutingError"
  | AgentRunPersistenceConflictError _ => "AgentRunPersistenceConflictError"
  | GovernanceCrossProjectReferenceError _ => "GovernanceCrossProjectReferenceError"
  | GovernanceSubjectNotFoundError _ _ => "GovernanceSubjectNotFoundError"
  | ReviewNotFoundError _ => "ReviewNotFoundError"
  | ReviewAlreadyFinalizedError _ => "ReviewAlreadyFinalizedError"
  | RequirementNotEditableError _ _ => "RequirementNotEditableError"
  | DuplicateRequirementKeyError _ => "DuplicateRequirementKeyError"
  | PricingNotFoundError _ _ => "PricingNotFoundError"
  | PricingCurrencyMismatchError => "PricingCurrencyMismatchError"
  | BudgetNotFoundError => "BudgetNotFoundError"
  | BudgetExceededError => "BudgetExceededError"
  | AtomicReservationUnavailableError => "AtomicReservationUnavailableError"
  | ReservationExpiredError _ => "ReservationExpiredError"
  | DuplicateProviderUsageError _ _ => "DuplicateProviderUsageError"
  | MonetaryOverflowError => "MonetaryOverflowError"
  | OfficeManifestNotFoundError _ => "OfficeManifestNotFoundError"
  | OfficePipelineNotFoundError _ _ => "OfficePipelineNotFoundError"
  | PipelineRunNotFoundError _ => "PipelineRunNotFoundError"
  | ActivePipelineRunExistsError _ => "ActivePipelineRunExistsError"
  | PipelineDefinitionNotEnforcedError _ => "PipelineDefinitionNotEnforcedError"
  | PipelineDefinitionAmbiguousError _ => "PipelineDefinitionAmbiguousError"
  | PipelineRoleUnavailableError _ _ => "PipelineRoleUnavailableError"
  | PackPipelineUnsupportedError _ _ => "PackPipelineUnsupportedError"
  | ConcurrentPipelineTransitionError _ => "ConcurrentPipelineTransitionError"
  | PipelineActorUnauthorizedError _ => "PipelineActorUnauthorizedError"
  | PipelineStageOrchestrationError _ => "PipelineStageOrchestrationError"
  | UnsupportedConnectorProviderError _ => "UnsupportedConnectorProviderError"
  | UnsupportedConnectorResourceTypeError _ _ => "UnsupportedConnectorResourceTypeError"
  | ConnectorRegistryError _ => "ConnectorRegistryError"
  | UnsupportedConnectorError _ => "UnsupportedConnectorError"
  | UnsupportedConnectorOperationError _ _ => "UnsupportedConnectorOperationError"
  | ConnectorExecutionUnavailableError _ => "ConnectorExecutionUnavailableError"
  | ConnectorMutationExecutionError _ _ _ => "ConnectorMutationExecutionError"
  | ResourceNotFoundError _ => "ResourceNotFoundError"
  | ResourceDisabledError _ => "ResourceDisabledError"
  | CapabilityGrantNotFoundError _ => "CapabilityGrantNotFoundError"
  | CapabilityGrantRevokedError _ => "CapabilityGrantRevokedError"
  | CapabilityPrincipalNotFoundError _ _ => "CapabilityPrincipalNotFoundError"
  | ActionRequestNotFoundError _ => "ActionRequestNotFoundError"
  | CapabilityProjectMismatchError => "CapabilityProjectMismatchError"
  | ConcurrentActionTransitionError _ _ _ => "ConcurrentActionTransitionError"
  | ActionSimulationConflictError _ => "ActionSimulationConflictError"
  | InvalidConnectorInvocationStateError _ => "InvalidConnectorInvocationStateError"
  | StaleActionAuthorizationError => "StaleActionAuthorizationError"
  | ActionApprovalNotFoundError _ => "ActionApprovalNotFoundError"
  | ActionApprovalConflictError _ => "ActionApprovalConflictError"
  | InvalidActionApprovalStateError _ => "InvalidActionApprovalStateError"
  | ActionExecutionConflictError _ => "ActionExecutionConflictError"
  | InvalidActionExecutionStateError _ => "InvalidActionExecutionStateError"
  | StaleActionSimulationError => "StaleActionSimulationError"
  | AgentRunProvenanceError _ => "AgentRunProvenanceError"
  | InvalidRelativePathError => "InvalidRelativePathError"
  | PathOutsideRootError => "PathOutsideRootError"
  | InvalidFilesystemConstraintsError _ => "InvalidFilesystemConstraintsError"
  | FilesystemBinaryFileError => "FilesystemBinaryFileError"
  | DomainPackManifestError _ _ _ => "DomainPackManifestError"
  | UnsupportedFilesystemPlatformError => "UnsupportedFilesystemPlatformError"
  | FilesystemSymlinkDeniedError => "FilesystemSymlinkDeniedError"
  | SensitiveFilesystemPathError => "SensitiveFilesystemPathError"
  | FilesystemEntryNotFoundError => "FilesystemEntryNotFoundError"
  | FilesystemNotDirectoryError => "FilesystemNotDirectoryError"
  | FilesystemDiffTooLargeError => "FilesystemDiffTooLargeError"
  | FilesystemOperationAbortedError => "FilesystemOperationAbortedError"
  | ForeignError name _ => name
  | ThrownValue => "UnknownError"
  end.

(** What a function, and a method over a state [S], of the source returns. *)
Abbreviation outcome A := (result error A).
Abbreviation method S A := (action error S A).

(** [const v = value.trim(); if (v === "") throw ...; return v;], the
    [required] helper of the pipeline and governance modules. *)
Definition required (value name : string) : outcome string :=
  let normalized := trim value in
  throw_if (bool_decide (normalized = "")) (DomainValidationError (name +:+ " cannot be empty"));;
  Ok normalized.

Lemma required_Ok value name v :
  required value name = Ok v ↔ v = trim value ∧ trim value ≠ "".
Proof.
  unfold required. case_bool_decide as H; simpl; [rewrite H|]; naive_solver.
Qed.

(** A canonical identifier: already trimmed and not empty. *)
Definition canonical (s : string) : bool :=
  bool_decide (trim s = s) && negb (bool_decide (s = "")).

Lemma canonical_spec s : canonical s = true ↔ trim s = s ∧ s ≠ "".
Proof.
  unfold canonical. rewrite andb_true_iff, negb_true_iff, bool_decide_eq_true.
  by rewrite bool_decide_eq_false.
Qed.

Lemma required_canonical s name : canonical s = true → required s name = Ok s.
Proof. intros [Ht Hs]%canonical_spec. apply required_Ok. by rewrite Ht. Qed.

Lemma required_result_canonical s name v : required s name = Ok v → canonical v = true.
Proof. intros [-> Hv]%required_Ok. apply canonical_spec. by rewrite trim_idemp. Qed.
