(* ===== verification/TaskModel.v ===== *)
(** The task lifecycle: status vocabulary and transition table, the priority
    and rationale rules, and the [Task] aggregate, whose methods are actions
    over its props.  Models [packages/domain/src/task/task.ts] and
    [packages/domain/src/agent/run-eligibility.ts]. *)
From S2P Require Import Prelude Errors.

Module Task.

(** * Data *)

Inductive TaskStatus :=
| pending | assigned | running | blocked | waiting_review | completed | failed | cancelled.

#[global] Instance TaskStatus_eq_dec : EqDecision TaskStatus.
Proof. solve_decision. Defined.

Definition status_name (s : TaskStatus) : string :=
  match s with
  | pending => "pending" | assigned => "assigned" | running => "running"
  | blocked => "blocked" | waiting_review => "waiting_review"
  | completed => "completed" | failed => "failed" | cancelled => "cancelled"
  end.

Definition taskTransitions (from : TaskStatus) : list TaskStatus :=
  match from with
  | pending => [running; blocked; cancelled]
  | assigned => [running; blocked; cancelled]
  | running => [waiting_review; completed; blocked; failed; cancelled]
  | blocked => [pending; failed; cancelled]
  | waiting_review => [completed; blocked; failed; cancelled]
  | completed => []
  | failed => []
  | cancelled => []
  end.

Definition terminalTaskStatuses : list TaskStatus := [completed; failed; cancelled].

Definition isTerminalTaskStatus (status : TaskStatus) : bool :=
  includes status terminalTaskStatuses.

Definition allowedTaskTransitions (from : TaskStatus) : list TaskStatus :=
  taskTransitions from.

Definition isTaskTransitionAllowed (from to : TaskStatus) : bool :=
  includes to (taskTransitions from).

Definition isHistoricalCompletionApplicable (from : TaskStatus) : bool :=
  negb (isTerminalTaskStatus from) && negb (isTaskTransitionAllowed from completed).

Definition historicalCompletionRefusal (from : TaskStatus) : option string :=
  if isTerminalTaskStatus from then
    Some (status_name from +:+ " is terminal and terminal state is never rewritten")
  else if isTaskTransitionAllowed from completed then
    Some (status_name from
      +:+ " can reach completed through the ordinary lifecycle, so use task:complete")
  else None.

(** [isTaskRunnable] of [run-eligibility.ts]: agent work may be admitted. *)
Definition isTaskRunnable (status : TaskStatus) : bool :=
  match status with
  | pending | assigned | running | waiting_review => true
  | _ => false
  end.

Definition maximumTaskReasonLength : nat := 2000.

Definition normalizeTaskReason (value label : string) : outcome string :=
  let reason := trim value in
  throw_if (String.length reason =? 0)
    (DomainValidationError ("Task " +:+ label +:+ " cannot be empty"));;
  throw_if (maximumTaskReasonLength <? String.length reason)
    (DomainValidationError ("Task " +:+ label +:+ " cannot exceed "
      +:+ show_Z (Z.of_nat maximumTaskReasonLength) +:+ " characters"));;
  Ok reason.

Definition minTaskPriority : Z := -2147483648.
Definition maxTaskPriority : Z := 2147483647.
Definition defaultTaskPriority : number := NInt 0.

Definition priority_error : error :=
  DomainValidationError ("Task priority must be an integer between "
    +:+ show_Z minTaskPriority +:+ " and " +:+ show_Z maxTaskPriority).

(** [priority === 0 ? 0 : priority]: [-0 === 0] holds, so [-0] becomes [0]. *)
Definition validateTaskPriority (priority : number) : outcome number :=
  throw_if (negb (is_integer priority)
            || num_lt priority minTaskPriority
            || num_gt priority maxTaskPriority) priority_error;;
  Ok (match priority with NNegZero => NInt 0 | _ => priority end).

Record TaskProps := {
  id : string;
  projectId : string;
  title : string;
  description : option string;
  status : TaskStatus;
  priority : number;
  createdAt : date;
  updatedAt : date
}.

#[global] Instance TaskProps_eq_dec : EqDecision TaskProps.
Proof. solve_decision. Defined.

(** * Operations *)

(** The input of [Task.create]. *)
Record create_input := {
  in_id : string;
  in_projectId : string;
  in_title : string;
  in_description : option string;
  in_priority : option number;
  in_now : date
}.

Definition create (input : create_input) : outcome TaskProps :=
  let title := trim (in_title input) in
  throw_if (String.length title =? 0) (DomainValidationError "Task title cannot be empty");;
  priority ← validateTaskPriority (default defaultTaskPriority (in_priority input));
  Ok {| id := in_id input; projectId := in_projectId input; title := title;
        description := in_description input; status := pending; priority := priority;
        createdAt := in_now input; updatedAt := in_now input |}.

(** [Task.restore] keeps the props as they are. *)
Definition restore (props : TaskProps) : TaskProps := props.

(** [{ ...this.props, status, updatedAt: now }] *)
Definition with_status (p : TaskProps) (to : TaskStatus) (now : date) : TaskProps :=
  {| id := id p; projectId := projectId p; title := title p; description := description p;
     status := to; priority := priority p; createdAt := createdAt p; updatedAt := now |}.

Definition updateDescription (text : string) (now : date) : method TaskProps unit :=
  modify (λ p, {| id := id p; projectId := projectId p; title := title p;
                  description := Some text; status := status p;
                  priority := priority p; createdAt := createdAt p; updatedAt := now |}).

Definition updatePriority (value : number) (now : date) : method TaskProps unit :=
  p ← get;
  v ← lift (validateTaskPriority value);
  put {| id := id p; projectId := projectId p; title := title p;
         description := description p; status := status p;
         priority := v; createdAt := createdAt p; updatedAt := now |}.

Definition transition (to : TaskStatus) (now : date) : method TaskProps unit :=
  p ← get;
  refuse_if (negb (isTaskTransitionAllowed (status p) to))
    (InvalidTaskTransitionError (status_name (status p)) (status_name to)
       (status_name <$> allowedTaskTransitions (status p)));;
  put (with_status p to now).

Definition start : date → method TaskProps unit := transition running.
Definition submitForReview : date → method TaskProps unit := transition waiting_review.
Definition complete : date → method TaskProps unit := transition completed.
Definition block : date → method TaskProps unit := transition blocked.
Definition unblock : date → method TaskProps unit := transition pending.
Definition fail : date → method TaskProps unit := transition failed.
Definition cancel : date → method TaskProps unit := transition cancelled.

Definition recordHistoricalCompletion (now : date) : method TaskProps unit :=
  p ← get;
  match historicalCompletionRefusal (status p) with
  | Some refusal =>
      mthrow (InvalidTaskCorrectionError (status_name (status p)) "completed" refusal)
  | None => put (with_status p completed now)
  end.

(** The copied dates are equal dates. *)
Definition snapshot (p : TaskProps) : TaskProps := p.

(** Every mutator of the aggregate, as a value. *)
Inductive call :=
| CUpdateDescription (text : string)
| CUpdatePriority (value : number)
| CStart | CSubmitForReview | CComplete | CBlock | CUnblock | CFail | CCancel
| CRecordHistoricalCompletion.

Definition run_call (c : call) : date → method TaskProps unit :=
  match c with
  | CUpdateDescription d => updateDescription d
  | CUpdatePriority v => updatePriority v
  | CStart => start | CSubmitForReview => submitForReview | CComplete => complete
  | CBlock => block | CUnblock => unblock | CFail => fail | CCancel => cancel
  | CRecordHistoricalCompletion => recordHistoricalCompletion
  end.

(** One successful call, and the tasks a sequence of them reaches. *)
Inductive step : TaskProps → TaskProps → Prop :=
| step_call c now p p' : run_call c now p = (Ok tt, p') → step p p'.

Inductive reachable : TaskProps → Prop :=
| reachable_create input p : create input = Ok p → reachable p
| reachable_step p p' : reachable p → step p p' → reachable p'.

(** A sequence of calls, each of which must succeed. *)
Fixpoint run_calls (l : list (call * date)) : method TaskProps unit :=
  match l with
  | [] => mret tt
  | (c, now) :: l' => run_call c now;; run_calls l'
  end.

(** What holds of every task the aggregate itself made. *)
Record well_formed (p : TaskProps) : Prop := {
  wf_title : canonical (title p) = true;
  wf_priority : ∃ z, priority p = NInt z ∧ (minTaskPriority <= z <= maxTaskPriority)%Z;
  wf_not_assigned : status p ≠ assigned
}.

(** * Lemmas *)

Lemma terminal_spec s : isTerminalTaskStatus s = true ↔ taskTransitions s = [].
Proof. destruct s; vm_compute; split; done. Qed.

Lemma terminal_no_transition s to :
  isTerminalTaskStatus s = true → isTaskTransitionAllowed s to = false.
Proof. destruct s, to; vm_compute; done. Qed.

Lemma validateTaskPriority_Ok v v' :
  validateTaskPriority v = Ok v' ↔
  ∃ z, v' = NInt z ∧ (minTaskPriority <= z <= maxTaskPriority)%Z ∧
       (v = NInt z ∨ v = NNegZero ∧ z = 0%Z).
Proof.
  unfold validateTaskPriority. rewrite bind_Ok. split.
  - intros (u & H%throw_if_Ok & [= <-]).
    destruct v as [z| | | |]; simpl in *; try discriminate; [|exists 0%Z; by split_and!; [| | |right]].
    apply orb_false_iff in H as [H1%Z.ltb_ge H2%Z.ltb_ge]. exists z. naive_solver.
  - intros (z & -> & Hz & Hv). exists tt.
    destruct Hv as [->|[-> ->]]; split; try done; simpl.
    destruct (Z.ltb_spec z minTaskPriority), (Z.ltb_spec maxTaskPriority z); simpl; (done || lia).
Qed.

Lemma transition_Ok to now p p' :
  transition to now p = (Ok tt, p') ↔
  isTaskTransitionAllowed (status p) to = true ∧ p' = with_status p to now.
Proof.
  unfold transition. rewrite get_bind, refuse_if_bind_Ok, negb_false_iff.
  unfold put. naive_solver.
Qed.

Lemma transition_atomic to now : atomic (transition to now).
Proof. unfold transition. eauto with ts. Qed.

Lemma updatePriority_atomic v now : atomic (updatePriority v now).
Proof. unfold updatePriority. eauto with ts. Qed.

Lemma recordHistoricalCompletion_atomic now : atomic (recordHistoricalCompletion now).
Proof.
  unfold recordHistoricalCompletion. apply atomic_bind; [apply readonly_get|].
  intros p. case_match; eauto with ts.
Qed.

#[local] Hint Resolve transition_atomic updatePriority_atomic
  recordHistoricalCompletion_atomic : ts.

Lemma updatePriority_Ok v now p p' :
  updatePriority v now p = (Ok tt, p') ↔
  ∃ v', validateTaskPriority v = Ok v' ∧
  p' = {| id := id p; projectId := projectId p; title := title p;
          description := description p; status := status p; priority := v';
          createdAt := createdAt p; updatedAt := now |}.
Proof.
  unfold updatePriority. rewrite action_bind_Ok. split.
  - intros (? & ? & ? & H). inv_ok. eauto.
  - intros (v' & Hv & ->). eexists _, _; split; [done|]. apply action_bind_Ok.
    unfold lift. rewrite Hv. by eexists _, _.
Qed.

Lemma recordHistoricalCompletion_Ok now p p' :
  recordHistoricalCompletion now p = (Ok tt, p') ↔
  isHistoricalCompletionApplicable (status p) = true ∧ p' = with_status p completed now.
Proof.
  unfold recordHistoricalCompletion, mbind, action_bind, get.
  unfold historicalCompletionRefusal, isHistoricalCompletionApplicable.
  destruct (isTerminalTaskStatus _), (isTaskTransitionAllowed _ _); simpl;
    unfold mthrow, action_throw, put; naive_solver.
Qed.

Lemma create_Ok input p :
  create input = Ok p ↔
  canonical (trim (in_title input)) = true ∧
  ∃ v, validateTaskPriority (default defaultTaskPriority (in_priority input)) = Ok v ∧
  p = {| id := in_id input; projectId := in_projectId input; title := trim (in_title input);
         description := in_description input; status := pending; priority := v;
         createdAt := in_now input; updatedAt := in_now input |}.
Proof.
  unfold create. rewrite throw_if_bind_Ok, bind_Ok, canonical_spec, trim_idemp.
  assert ((String.length (trim (in_title input)) =? 0) = false ↔ trim (in_title input) ≠ "") as ->.
  { rewrite Nat.eqb_neq. by destruct (trim _). }
  naive_solver.
Qed.

(** A call changes the status only to a status the table, or the correction
    rule, allows from the old one. *)
Lemma step_status p p' :
  step p p' →
  status p' = status p ∨ isTaskTransitionAllowed (status p) (status p') = true ∨
  isHistoricalCompletionApplicable (status p) = true ∧ status p' = completed.
Proof.
  intros [c now ? ? H]; destruct c; simpl in H; unfold updateDescription in H;
    try (apply transition_Ok in H as [? ->]; by auto).
  - inv_ok. by left.
  - apply updatePriority_Ok in H as (? & ? & ->). by left.
  - apply recordHistoricalCompletion_Ok in H as [? ->]. by auto.
Qed.

Lemma step_title p p' :
  step p p' → id p' = id p ∧ projectId p' = projectId p ∧ title p' = title p ∧
              createdAt p' = createdAt p.
Proof.
  intros [c now ? ? H]; destruct c; simpl in H; unfold updateDescription in H;
    try (apply transition_Ok in H as [? ->]; done).
  - by inv_ok.
  - by apply updatePriority_Ok in H as (? & ? & ->).
  - by apply recordHistoricalCompletion_Ok in H as [? ->].
Qed.

Lemma step_priority p p' :
  step p p' →
  priority p' = priority p ∨ ∃ v, validateTaskPriority v = Ok (priority p').
Proof.
  intros [c now ? ? H]; destruct c; simpl in H; unfold updateDescription in H;
    try (apply transition_Ok in H as [? ->]; by left).
  - inv_ok. by left.
  - apply updatePriority_Ok in H as (? & ? & ->). eauto.
  - apply recordHistoricalCompletion_Ok in H as [? ->]. by left.
Qed.

Lemma create_well_formed input p : create input = Ok p → well_formed p.
Proof.
  intros (Ht & v & (z & -> & Hz & _)%validateTaskPriority_Ok & ->)%create_Ok.
  split; simpl; eauto.
Qed.

Lemma step_well_formed p p' : well_formed p → step p p' → well_formed p'.
Proof.
  intros [Ht Hp Ha] Hs. split.
  - apply step_title in Hs as (_ & _ & -> & _). done.
  - destruct (step_priority _ _ Hs) as [->|(v & Hv)]; [done|].
    apply validateTaskPriority_Ok in Hv as (z & -> & ? & _). eauto.
  - destruct (step_status _ _ Hs) as [->|[H|[_ ->]]]; [done| |done].
    intros Hs'. rewrite Hs' in H. by destruct (status p).
Qed.

(** * Properties *)

(** Every task reachable from [Task.create] through any calls of the
    aggregate keeps a trimmed, non-empty title and an integer priority inside
    the signed 32-bit range, and is never [assigned]. *)
Theorem reachable_well_formed p : reachable p → well_formed p.
Proof.
  induction 1; [by eapply create_well_formed|by eapply step_well_formed].
Qed.

Definition sample_input : create_input :=
  {| in_id := "t1"; in_projectId := "p1"; in_title := " Ship it "; in_description := None;
     in_priority := Some NNegZero; in_now := Some 5%Z |}.

Definition sample_task : TaskProps :=
  {| id := "t1"; projectId := "p1"; title := "Ship it"; description := None;
     status := pending; priority := NInt 0; createdAt := Some 5%Z; updatedAt := Some 5%Z |}.

Lemma reachable_well_formed_witness : reachable sample_task ∧ well_formed sample_task.
Proof.
  split; [|apply reachable_well_formed];
    by apply (reachable_create sample_input); vm_compute.
Defined.

(** Terminal states are irreversible: no sequence of calls of the
    aggregate, corrections included, changes the status of a completed, failed
    or cancelled task, although its description and priority may change. *)
Theorem terminal_status_final p p' :
  isTerminalTaskStatus (status p) = true → rtc step p p' → status p' = status p.
Proof.
  intros Ht Hs. revert Ht. induction Hs as [|p p1 p2 H1 _ IH]; intros Ht; [done|].
  assert (status p1 = status p) as Heq.
  { destruct (step_status _ _ H1) as [|[H|[H _]]]; [done|..].
    - by rewrite terminal_no_transition in H.
    - unfold isHistoricalCompletionApplicable in H. by rewrite Ht in H. }
  rewrite IH, Heq; congruence.
Qed.

Lemma terminal_status_final_witness :
  let p := with_status sample_task cancelled (Some 6%Z) in
  ∃ p', isTerminalTaskStatus (status p) = true ∧ p' ≠ p ∧ status p' = status p.
Proof.
  eexists. split; [by vm_compute|]. split; [|].
  2: { apply terminal_status_final; [by vm_compute|].
       apply rtc_once, (step_call (CUpdateDescription "late note") (Some 7%Z)).
       by vm_compute. }
  by vm_compute.
Defined.

(** Completing a task has exactly one route: from a non-terminal status
    either [complete] or [recordHistoricalCompletion] succeeds, never both,
    and both end in [completed] with the same props; from a terminal status
    both refuse and leave the task as it was. *)
Theorem one_completion_route p now :
  if isTerminalTaskStatus (status p) then
    (∃ e, complete now p = (Throw e, p)) ∧
    (∃ e, recordHistoricalCompletion now p = (Throw e, p))
  else
    (complete now p = (Ok tt, with_status p completed now) ∧
     ∃ e, recordHistoricalCompletion now p = (Throw e, p)) ∨
    ((∃ e, complete now p = (Throw e, p)) ∧
     recordHistoricalCompletion now p = (Ok tt, with_status p completed now)).
Proof. destruct p as [? ? ? ? [] ? ? ?]; vm_compute; eauto 10. Qed.

(** Every task that is not terminal can still be finished by the ordinary
    lifecycle: at most three calls, none of them a correction, complete it. *)
Theorem ordinary_lifecycle_completes p now :
  isTerminalTaskStatus (status p) = false →
  ∃ calls, length calls ≤ 3 ∧ Forall (λ c, c.1 ≠ CRecordHistoricalCompletion) calls ∧
    run_calls calls p = (Ok tt, with_status p completed now).
Proof.
  intros Ht. destruct p as [? ? ? ? [] ? ? ?]; try done.
  - exists [(CStart, now); (CComplete, now)]. split_and!; [simpl; lia|by repeat constructor|done].
  - exists [(CStart, now); (CComplete, now)]. split_and!; [simpl; lia|by repeat constructor|done].
  - exists [(CComplete, now)]. split_and!; [simpl; lia|by repeat constructor|done].
  - exists [(CUnblock, now); (CStart, now); (CComplete, now)].
    split_and!; [simpl; lia|by repeat constructor|done].
  - exists [(CComplete, now)]. split_and!; [simpl; lia|by repeat constructor|done].
Qed.

Lemma ordinary_lifecycle_completes_witness :
  isTerminalTaskStatus (status sample_task) = false ∧
  ∃ calls, length calls ≤ 3 ∧ Forall (λ c, c.1 ≠ CRecordHistoricalCompletion) calls ∧
    run_calls calls sample_task = (Ok tt, with_status sample_task completed (Some 9%Z)).
Proof.
  split; [by vm_compute|].
  apply (ordinary_lifecycle_completes sample_task (Some 9%Z)). by vm_compute.
Defined.

(** A task can be recorded as [failed] although its work never began:
    [block] and then [fail] succeed on a pending task, which no [start] ever
    touched. *)
Theorem failed_without_start p now :
  status p = pending →
  run_calls [(CBlock, now); (CFail, now)] p = (Ok tt, with_status p failed now).
Proof. destruct p; simpl; intros ->. by vm_compute. Qed.

Lemma failed_without_start_witness :
  status sample_task = pending ∧
  run_calls [(CBlock, Some 6%Z); (CFail, Some 6%Z)] sample_task =
    (Ok tt, with_status sample_task failed (Some 6%Z)).
Proof. split; [done|]. by apply failed_without_start. Defined.

End Task.
