(* ===== verification/DependencyGraph.v ===== *)
(** Task prerequisites: which of them still block a task, and the search that
    refuses a dependency closing a cycle.  Models
    [packages/domain/src/task/task-dependency.ts]. *)
From S2P Require Import Prelude Errors TaskModel.

Module Dependency.

(** * Data *)

Record BlockingPrerequisite := { blockerId : string; blockerStatus : Task.TaskStatus }.

(** [PrerequisiteRequirement] *)
Inductive requirement := at_start | at_completion.

Record edge := { taskId : string; dependsOnTaskId : string }.

#[global] Instance BlockingPrerequisite_eq_dec : EqDecision BlockingPrerequisite.
Proof. solve_decision. Defined.
#[global] Instance requirement_eq_dec : EqDecision requirement.
Proof. solve_decision. Defined.
#[global] Instance edge_eq_dec : EqDecision edge.
Proof. solve_decision. Defined.

(** * Operations *)

(** [satisfied] in [blockingPrerequisites]. *)
Definition satisfied (r : requirement) (status : Task.TaskStatus) : bool :=
  match status, r with
  | Task.completed, _ => true
  | Task.waiting_review, at_start => true
  | _, _ => false
  end.

Definition blockingPrerequisites (dependsOnTaskIds : list string)
    (statuses : gmap string Task.TaskStatus) (r : requirement)
    : outcome (list BlockingPrerequisite) :=
  found ← map_result (λ id,
    match statuses !! id with
    | None => Throw (TaskDependencyError ("Prerequisite task " +:+ id +:+ " does not exist"))
    | Some status =>
        Ok (if satisfied r status then []
            else [{| blockerId := id; blockerStatus := status |}])
    end) dependsOnTaskIds;
  Ok (concat found).

(** The [outgoing] map: from a prerequisite to the tasks that depend on it. *)
Definition outgoing (edges : list edge) : gmap string (list string) :=
  index ((λ e, (dependsOnTaskId e, taskId e)) <$> edges).

(** The [while (queue.length > 0)] loop: [Some true] when the target is
    reached, [Some false] when the queue runs empty, [None] out of fuel. *)
Fixpoint search (fuel : nat) (target : string) (next : gmap string (list string))
    (visited : gset string) (queue : list string) : option bool :=
  match fuel with
  | 0 => None
  | S fuel =>
      match queue with
      | [] => Some false
      | current :: queue =>
          if bool_decide (current = target) then Some true
          else if bool_decide (current ∈ visited) then search fuel target next visited queue
          else search fuel target next ({[current]} ∪ visited)
                 (queue ++ default [] (next !! current))
      end
  end.

(** Every edge enters the queue at most once, so this many rounds suffice
    ([search_terminates]). *)
Definition search_fuel (edges : list edge) : nat := length edges + 2.

Definition assertAcyclicDependency (task dependsOn : string) (edges : list edge)
    : outcome unit :=
  throw_if (bool_decide (task = dependsOn))
    (TaskDependencyError "A task cannot depend on itself");;
  throw_if (bool_decide (search (search_fuel edges) dependsOn (outgoing edges) ∅ [task]
                         ≠ Some false))
    (TaskDependencyError "Task dependency would create a cycle").

(** * The graph *)

(** [a] depends directly on [b]. *)
Definition depends (edges : list edge) (a b : string) : Prop :=
  {| taskId := a; dependsOnTaskId := b |} ∈ edges.

Definition acyclic (edges : list edge) : Prop := ∀ a, ¬ tc (depends edges) a a.

(** * Lemmas *)

Lemma satisfied_completion s : satisfied at_completion s = true ↔ s = Task.completed.
Proof. by destruct s. Qed.

Lemma blockingPrerequisites_Ok deps statuses r l :
  blockingPrerequisites deps statuses r = Ok l →
  (∀ id, id ∈ deps → is_Some (statuses !! id)) ∧
  (∀ b, b ∈ l ↔ blockerId b ∈ deps ∧ statuses !! blockerId b = Some (blockerStatus b) ∧
                satisfied r (blockerStatus b) = false).
Proof.
  unfold blockingPrerequisites. intros (found & Hf%map_result_Ok & [= <-])%bind_Ok.
  induction Hf as [|id bs deps found Hid Hf [IH1 IH2]]; simpl.
  - split; [by intros ? ?%elem_of_nil|]. intros b. split; [by intros ?%elem_of_nil|].
    by intros (?%elem_of_nil & _).
  - destruct (statuses !! id) as [s|] eqn:Hs; [|done]. injection Hid as <-. split.
    { intros id'. rewrite elem_of_cons. intros [->|]; eauto. }
    intros [bid bs]. rewrite elem_of_app, IH2; simpl. destruct (satisfied r s) eqn:Hr.
    + rewrite elem_of_cons. split; [set_solver|].
      intros ([->|] & ? & ?); [congruence|]. by right.
    + rewrite list_elem_of_singleton, elem_of_cons. split.
      * intros [[= -> ->]|(?&?&?)]; naive_solver.
      * intros ([->|] & ? & ?); [left|right; done]. congruence.
Qed.

Lemma blockingPrerequisites_total deps statuses r :
  (∀ id, id ∈ deps → is_Some (statuses !! id)) →
  ∃ l, blockingPrerequisites deps statuses r = Ok l.
Proof.
  intros H. unfold blockingPrerequisites.
  rewrite (map_result_total _ (λ id, match statuses !! id with
    | Some s => if satisfied r s then [] else [{| blockerId := id; blockerStatus := s |}]
    | None => [] end)); [by eexists|].
  intros id Hid. destruct (H id Hid) as [s ->]. done.
Qed.

Lemma outgoing_elem_of edges a b : a ∈ default [] (outgoing edges !! b) ↔ depends edges a b.
Proof.
  unfold outgoing. rewrite index_elem_of, list_elem_of_fmap. unfold depends. split.
  - intros ([t d] & Heq & H). simpl in Heq. by injection Heq as -> ->.
  - intros H. by exists {| taskId := a; dependsOnTaskId := b |}.
Qed.

(** Edges whose prerequisite the search has not expanded yet. *)
Definition unexpanded (visited : gset string) (edges : list edge) : list edge :=
  filter (λ e, dependsOnTaskId e ∉ visited) edges.

Lemma unexpanded_visit current visited edges :
  current ∉ visited →
  length (unexpanded visited edges) =
  length (unexpanded ({[current]} ∪ visited) edges) +
  length (default [] (outgoing edges !! current)).
Proof.
  intros Hc. unfold outgoing. rewrite index_lookup, length_fmap. unfold unexpanded.
  induction edges as [|[t d] edges IH]; [done|]. rewrite fmap_cons, !filter_cons; simpl.
  destruct (decide (d = current)) as [->|Hd].
  - rewrite decide_True by done. rewrite decide_False by set_solver. simpl. lia.
  - destruct (decide (d ∉ visited)).
    + rewrite decide_True by set_solver. simpl. lia.
    + rewrite decide_False by set_solver. done.
Qed.

(** The loop terminates: the queue plus the edges not yet expanded shrinks by
    one in every round. *)
Lemma search_terminates fuel target edges visited queue :
  length queue + length (unexpanded visited edges) < fuel →
  is_Some (search fuel target (outgoing edges) visited queue).
Proof.
  revert visited queue; induction fuel as [|fuel IH]; intros visited queue Hf; [lia|]. simpl.
  destruct queue as [|current queue]; [by eexists|]. simpl in Hf.
  case_bool_decide; [by eexists|]. case_bool_decide as Hv.
  - apply IH. lia.
  - apply IH. rewrite length_app. pose proof (unexpanded_visit _ _ edges Hv). lia.
Qed.

(** What is reached is reachable against the dependency edges. *)
Lemma search_sound fuel target edges visited queue :
  search fuel target (outgoing edges) visited queue = Some true →
  ∃ a, a ∈ queue ∧ rtc (depends edges) target a.
Proof.
  revert visited queue; induction fuel as [|fuel IH]; intros visited queue; [done|]. simpl.
  destruct queue as [|current queue]; [done|].
  case_bool_decide; subst; [intros _; exists target; split; [by left|apply rtc_refl]|].
  case_bool_decide; intros Hs; apply IH in Hs as (a & Ha & Hr).
  - exists a. split; [by right|done].
  - apply elem_of_app in Ha as [|Ha%outgoing_elem_of]; [exists a; split; [by right|done]|].
    exists current. split; [by left|]. by eapply rtc_r.
Qed.

(** A search that runs dry has visited everything reachable. *)
Lemma search_complete fuel target edges visited queue :
  search fuel target (outgoing edges) visited queue = Some false →
  target ∉ visited →
  (∀ v a, v ∈ visited → depends edges a v → a ∈ visited ∨ a ∈ queue) →
  ∃ (seen : gset string), target ∉ seen ∧ visited ⊆ seen ∧ (∀ a, a ∈ queue → a ∈ seen) ∧
    (∀ v a, v ∈ seen → depends edges a v → a ∈ seen).
Proof.
  revert visited queue; induction fuel as [|fuel IH]; intros visited queue; [done|]. simpl.
  destruct queue as [|current queue].
  { intros _ Ht Hc. exists visited. split_and!; try done; [set_solver|].
    intros v a Hv Ha. destruct (Hc v a Hv Ha); set_solver. }
  case_bool_decide as Hct; [done|]. case_bool_decide as Hv; intros Hs Ht Hc.
  - destruct (IH _ _ Hs Ht) as (seen & ? & Hsub & Hq & ?); [set_solver|].
    exists seen. split_and!; try done. intros a [->|]%elem_of_cons; [by apply Hsub|by apply Hq].
  - destruct (IH _ _ Hs) as (seen & ? & Hsub & Hq & ?); [set_solver| |].
    + intros v a [->%elem_of_singleton|Hv']%elem_of_union Ha.
      * right. apply elem_of_app. right. by apply outgoing_elem_of.
      * destruct (Hc v a Hv' Ha) as [|[->|]%elem_of_cons]; set_solver.
    + exists seen. split_and!; try done; set_solver.
Qed.

Lemma closed_rtc edges (seen : gset string) a b :
  (∀ v a, v ∈ seen → depends edges a v → a ∈ seen) →
  rtc (depends edges) a b → b ∈ seen → a ∈ seen.
Proof. intros Hc Hr. induction Hr; eauto. Qed.

Lemma search_spec task dependsOn edges :
  search (search_fuel edges) dependsOn (outgoing edges) ∅ [task] =
  Some (bool_decide (search (search_fuel edges) dependsOn (outgoing edges) ∅ [task] ≠ Some false))
  ∧ (search (search_fuel edges) dependsOn (outgoing edges) ∅ [task] ≠ Some false ↔
     rtc (depends edges) dependsOn task).
Proof.
  assert (length (unexpanded ∅ edges) ≤ length edges) as Hu by apply length_filter.
  destruct (search_terminates (search_fuel edges) dependsOn edges ∅ [task]) as [r Hr].
  { unfold search_fuel. simpl. lia. }
  rewrite Hr. destruct r; (split; [by vm_compute|]).
  - split; [intros _|done]. apply search_sound in Hr as (a & ->%list_elem_of_singleton & ?). done.
  - split; [done|]. intros Hrtc _.
    apply search_complete in Hr as (seen & Ht & _ & Hq & Hc); [|set_solver..].
    apply Ht. eapply closed_rtc; [done..|]. apply Hq. by left.
Qed.

Lemma assertAcyclicDependency_Ok task dependsOn edges :
  assertAcyclicDependency task dependsOn edges = Ok tt ↔
  ¬ rtc (depends edges) dependsOn task.
Proof.
  unfold assertAcyclicDependency. rewrite throw_if_bind_Ok, throw_if_Ok.
  rewrite !bool_decide_eq_false. destruct (search_spec task dependsOn edges) as [_ ->].
  split; [tauto|]. intros Hn. split; [|done]. intros ->. apply Hn, rtc_refl.
Qed.

Lemma depends_cons t d edges a b :
  depends ({| taskId := t; dependsOnTaskId := d |} :: edges) a b ↔
  a = t ∧ b = d ∨ depends edges a b.
Proof. unfold depends. rewrite elem_of_cons. naive_solver. Qed.

(** A path that may use the new edge either avoids it or passes through it. *)
Lemma tc_depends_cons t d edges a b :
  tc (depends ({| taskId := t; dependsOnTaskId := d |} :: edges)) a b →
  tc (depends edges) a b ∨ rtc (depends edges) a t ∧ rtc (depends edges) d b.
Proof.
  induction 1 as [a b H|a b c H _ IH]; apply depends_cons in H as [[-> ->]|H].
  - right. split; apply rtc_refl.
  - left. by apply tc_once.
  - destruct IH as [IH|[_ IH]]; right; (split; [apply rtc_refl|]); [by apply tc_rtc|done].
  - destruct IH as [IH|[IH1 IH2]]; [left; by eapply tc_l|right].
    split; [by eapply rtc_l|done].
Qed.

Lemma acyclic_cons t d edges :
  acyclic edges →
  acyclic ({| taskId := t; dependsOnTaskId := d |} :: edges) ↔ ¬ rtc (depends edges) d t.
Proof.
  intros Hac. split.
  - intros Hac' Hr. apply (Hac' t). eapply tc_rtc_r.
    + apply tc_once, depends_cons. by left.
    + eapply rtc_subrel; [|done]. intros x y Hxy. apply depends_cons. by right.
  - intros Hn a [Htc|[H1 H2]]%tc_depends_cons; [by eapply Hac|]. apply Hn. by etrans.
Qed.

(** Dropping edges keeps the graph acyclic. *)
Lemma acyclic_subset edges edges' :
  (∀ e, e ∈ edges' → e ∈ edges) → acyclic edges → acyclic edges'.
Proof.
  intros Hsub Hac a Ht. apply (Hac a). eapply tc_mono; [|done].
  intros x y. apply Hsub.
Qed.

(** * Properties *)

(** [assertAcyclicDependency] is an exact test: the queue search ends
    within one round per edge, and on an acyclic graph the call is accepted if
    and only if the graph with the new dependency is still acyclic. *)
Theorem assertAcyclicDependency_exact task dependsOn edges :
  acyclic edges →
  is_Some (search (search_fuel edges) dependsOn (outgoing edges) ∅ [task]) ∧
  (assertAcyclicDependency task dependsOn edges = Ok tt ↔
   acyclic ({| taskId := task; dependsOnTaskId := dependsOn |} :: edges)).
Proof.
  intros Hac. split.
  - destruct (search_spec task dependsOn edges) as [-> _]. by eexists.
  - by rewrite assertAcyclicDependency_Ok, acyclic_cons.
Qed.

Lemma acyclic_nil : acyclic [].
Proof. intros a H. by inversion H as [? ? Hd%elem_of_nil|? ? ? Hd%elem_of_nil]. Qed.

Definition sample_edges : list edge := [{| taskId := "b"; dependsOnTaskId := "a" |}].

Lemma assertAcyclicDependency_exact_witness :
  acyclic sample_edges ∧
  assertAcyclicDependency "c" "b" sample_edges = Ok tt ∧
  acyclic ({| taskId := "c"; dependsOnTaskId := "b" |} :: sample_edges) ∧
  assertAcyclicDependency "a" "b" sample_edges =
    Throw (TaskDependencyError "Task dependency would create a cycle").
Proof.
  assert (acyclic sample_edges) as Hs.
  { apply acyclic_cons; [apply acyclic_nil|]. intros Hr.
    by apply assertAcyclicDependency_Ok in Hr. }
  split_and!; [done|by vm_compute| |by vm_compute].
  apply (assertAcyclicDependency_exact "c" "b" sample_edges Hs). by vm_compute.
Defined.

(** [blockingPrerequisites] fails exactly when a named prerequisite has no
    recorded status, and otherwise lists exactly the prerequisites that do not
    admit the work: for a start neither completed nor in review, for a
    completion not completed. *)
Theorem blockingPrerequisites_exact deps statuses r :
  (is_ok (blockingPrerequisites deps statuses r) = true ↔
   ∀ id, id ∈ deps → is_Some (statuses !! id)) ∧
  ∀ l, blockingPrerequisites deps statuses r = Ok l → ∀ b,
    b ∈ l ↔ blockerId b ∈ deps ∧ statuses !! blockerId b = Some (blockerStatus b) ∧
      blockerStatus b ≠ Task.completed ∧
      (r = at_start → blockerStatus b ≠ Task.waiting_review).
Proof.
  split.
  - rewrite is_ok_spec. split; [|apply blockingPrerequisites_total].
    by intros (l & [? _]%blockingPrerequisites_Ok).
  - intros l [_ Hl]%blockingPrerequisites_Ok b. rewrite Hl.
    destruct r, (blockerStatus b); naive_solver.
Qed.

End Dependency.
