(* ===== verification/PipelineModel.v ===== *)
(** The pipeline run: the frozen definition of an enforced pipeline, its stage
    runs, and the aggregate that assigns, completes, approves, rejects,
    overrides and cancels them.  Models
    [packages/domain/src/pipeline/pipeline-run.ts] and the office manifest of
    [packages/domain/src/office/office-manifest.ts] that a run is started from. *)
From S2P Require Import Prelude Errors.

Module PipelineRun.

(** * Data *)

Record OfficePipelineStage := {
  st_id : string;
  st_name : string;
  st_roleId : string;
  st_objective : string;
  st_checks : list string;
  st_requiresApproval : bool;
  st_requiresIndependentApproval : option bool;
  st_capabilities : option (list string);
  st_requiresDifferentAgentFrom : option (list string)
}.

Inductive enforcement := guidance | enforced.

Record OfficePipeline := {
  pl_id : string;
  pl_name : string;
  pl_description : string;
  pl_defaultFor : list string;
  pl_enforcement : option enforcement;
  pl_stages : list OfficePipelineStage
}.

Record OfficeManifestProvenance := { mp_host : string; mp_skill : string; mp_skillVersion : string }.

Record OfficeProjectModel := {
  pm_mission : string;
  pm_goals : list string;
  pm_constraints : list string;
  pm_preferences : list string;
  pm_permissionPreferences : list string
}.

Record VirtualOfficeRole := {
  vr_id : string;
  vr_title : string;
  vr_purpose : string;
  vr_responsibilities : list string
}.

Record VirtualOfficeModel := { vo_name : string; vo_roles : list VirtualOfficeRole }.

Record OfficeManifest := {
  om_schemaVersion : Z;
  om_provenance : OfficeManifestProvenance;
  om_project : OfficeProjectModel;
  om_office : VirtualOfficeModel;
  om_pipelines : list OfficePipeline
}.

Record OfficeManifestRevision := {
  rv_id : string;
  rv_projectId : string;
  rv_revision : Z;
  rv_manifest : OfficeManifest;
  rv_appliedAt : date
}.

Inductive PipelineRunStatus := run_active | run_completed | run_cancelled.

Inductive PipelineStageRunStatus :=
| stage_pending | stage_active | stage_awaiting_approval | stage_completed | stage_cancelled.

Inductive approval := approved | rejected.

#[global] Instance enforcement_eq_dec : EqDecision enforcement.
Proof. solve_decision. Defined.
#[global] Instance PipelineRunStatus_eq_dec : EqDecision PipelineRunStatus.
Proof. solve_decision. Defined.
#[global] Instance PipelineStageRunStatus_eq_dec : EqDecision PipelineStageRunStatus.
Proof. solve_decision. Defined.
#[global] Instance approval_eq_dec : EqDecision approval.
Proof. solve_decision. Defined.

Definition stage_status_name (s : PipelineStageRunStatus) : string :=
  match s with
  | stage_pending => "pending" | stage_active => "active"
  | stage_awaiting_approval => "awaiting_approval"
  | stage_completed => "completed" | stage_cancelled => "cancelled"
  end.

Record PackIdentity := { pack_id : string; pack_version : string; pack_manifestDigest : string }.

Record ConfigurationPin := {
  configurationDigest : string;
  coreContractVersion : Z;
  bindingRevision : Z;
  definitionRevision : Z;
  selectedPacks : list PackIdentity;
  resolvedPacks : list PackIdentity
}.

Record StageRun := {
  sr_id : string;
  sr_stageId : string;
  sr_stageIndex : nat;
  sr_roleId : string;
  sr_status : PipelineStageRunStatus;
  sr_assignedAgentId : option string;
  sr_assignedAt : option date;
  sr_completedAt : option date;
  sr_approvedBy : option string;
  sr_approvalDecision : option approval;
  sr_approvalRationale : option string;
  sr_approvedAt : option date
}.

Record Run := {
  id : string;
  projectId : string;
  taskId : string;
  manifestRevisionId : string;
  manifestRevision : Z;
  definition : OfficePipeline;
  status : PipelineRunStatus;
  currentStageIndex : nat;
  stages : list StageRun;
  startedBy : string;
  version : Z;
  createdAt : date;
  updatedAt : date;
  completedAt : option date;
  cancelledAt : option date;
  configurationPin : option ConfigurationPin
}.

Record OverrideRecord := {
  ov_id : string;
  ov_projectId : string;
  ov_pipelineRunId : string;
  ov_stageRunId : string;
  ov_actorId : string;
  ov_reason : string;
  ov_previousRule : string;
  ov_resultingAuthorization : string;
  ov_createdAt : date
}.

(** ** Object spreads: [{ ...stage, ... }] and [{ ...this.props, ... }] *)

Definition with_stage_status (s : StageRun) (v : PipelineStageRunStatus) : StageRun :=
  {| sr_id := sr_id s; sr_stageId := sr_stageId s; sr_stageIndex := sr_stageIndex s;
     sr_roleId := sr_roleId s; sr_status := v; sr_assignedAgentId := sr_assignedAgentId s;
     sr_assignedAt := sr_assignedAt s; sr_completedAt := sr_completedAt s;
     sr_approvedBy := sr_approvedBy s; sr_approvalDecision := sr_approvalDecision s;
     sr_approvalRationale := sr_approvalRationale s; sr_approvedAt := sr_approvedAt s |}.

Definition with_assignment (s : StageRun) (agent : string) (now : date) : StageRun :=
  {| sr_id := sr_id s; sr_stageId := sr_stageId s; sr_stageIndex := sr_stageIndex s;
     sr_roleId := sr_roleId s; sr_status := sr_status s; sr_assignedAgentId := Some agent;
     sr_assignedAt := Some now; sr_completedAt := sr_completedAt s;
     sr_approvedBy := sr_approvedBy s; sr_approvalDecision := sr_approvalDecision s;
     sr_approvalRationale := sr_approvalRationale s; sr_approvedAt := sr_approvedAt s |}.

Definition with_completion (s : StageRun) (now : date) : StageRun :=
  {| sr_id := sr_id s; sr_stageId := sr_stageId s; sr_stageIndex := sr_stageIndex s;
     sr_roleId := sr_roleId s; sr_status := stage_completed;
     sr_assignedAgentId := sr_assignedAgentId s; sr_assignedAt := sr_assignedAt s;
     sr_completedAt := Some now;
     sr_approvedBy := sr_approvedBy s; sr_approvalDecision := sr_approvalDecision s;
     sr_approvalRationale := sr_approvalRationale s; sr_approvedAt := sr_approvedAt s |}.

Definition with_decision (s : StageRun) (v : PipelineStageRunStatus) (actor : string)
    (decision : approval) (rationale : option string) (now : date) : StageRun :=
  {| sr_id := sr_id s; sr_stageId := sr_stageId s; sr_stageIndex := sr_stageIndex s;
     sr_roleId := sr_roleId s; sr_status := v; sr_assignedAgentId := sr_assignedAgentId s;
     sr_assignedAt := sr_assignedAt s; sr_completedAt := sr_completedAt s;
     sr_approvedBy := Some actor; sr_approvalDecision := Some decision;
     sr_approvalRationale :=
       match rationale with None => sr_approvalRationale s | Some r => Some r end;
     sr_approvedAt := Some now |}.

Definition with_stages (p : Run) (l : list StageRun) : Run :=
  {| id := id p; projectId := projectId p; taskId := taskId p;
     manifestRevisionId := manifestRevisionId p; manifestRevision := manifestRevision p;
     definition := definition p; status := status p; currentStageIndex := currentStageIndex p;
     stages := l; startedBy := startedBy p; version := version p; createdAt := createdAt p;
     updatedAt := updatedAt p; completedAt := completedAt p; cancelledAt := cancelledAt p;
     configurationPin := configurationPin p |}.

(** [{ ...this.props, status, currentStageIndex, version: version + 1,
    updatedAt: now, ... }] *)
Definition advanced (p : Run) (st : PipelineRunStatus) (cur : nat) (now : date)
    (done cancel : option date) : Run :=
  {| id := id p; projectId := projectId p; taskId := taskId p;
     manifestRevisionId := manifestRevisionId p; manifestRevision := manifestRevision p;
     definition := definition p; status := st; currentStageIndex := cur;
     stages := stages p; startedBy := startedBy p; version := (version p + 1)%Z;
     createdAt := createdAt p; updatedAt := now; completedAt := done; cancelledAt := cancel;
     configurationPin := configurationPin p |}.

(** * Operations *)

(** Reading a property of [array[index]!] when the index is out of range. *)
Definition undefined_read : error := TypeError "undefined is not an object".

Definition requiredConfigurationPin (v : ConfigurationPin) : outcome ConfigurationPin :=
  digest ← required (configurationDigest v) "Configuration digest";
  Ok {| configurationDigest := digest; coreContractVersion := coreContractVersion v;
        bindingRevision := bindingRevision v; definitionRevision := definitionRevision v;
        selectedPacks := selectedPacks v; resolvedPacks := resolvedPacks v |}.

Record create_input := {
  in_id : string;
  in_projectId : string;
  in_taskId : string;
  in_manifestRevisionId : string;
  in_manifestRevision : Z;
  in_definition : OfficePipeline;
  in_startedBy : string;
  in_stageRunIds : list string;
  in_configurationPin : option ConfigurationPin;
  in_now : date
}.

(** The stage run at [index]; [stageRunIds[index]!] is in range once the two
    lengths agree. *)
Definition new_stage (stageRunIds : list string) (e : nat * OfficePipelineStage)
    : outcome StageRun :=
  runId ← required (default "" (stageRunIds !! e.1)) "Stage-run ID";
  Ok {| sr_id := runId; sr_stageId := st_id e.2; sr_stageIndex := e.1;
        sr_roleId := st_roleId e.2;
        sr_status := if e.1 =? 0 then stage_active else stage_pending;
        sr_assignedAgentId := None; sr_assignedAt := None; sr_completedAt := None;
        sr_approvedBy := None; sr_approvalDecision := None; sr_approvalRationale := None;
        sr_approvedAt := None |}.

Definition create (input : create_input) : outcome Run :=
  let def := in_definition input in
  throw_if (bool_decide (pl_enforcement def ≠ Some enforced))
    (DomainValidationError "Only an enforced pipeline can be started");;
  throw_if (length (pl_stages def) =? 0)
    (DomainValidationError "An enforced pipeline must contain a stage");;
  throw_if (negb (length (in_stageRunIds input) =? length (pl_stages def)))
    (DomainValidationError "Every pipeline stage requires a stage-run ID");;
  stages ← map_result (new_stage (in_stageRunIds input)) (imap pair (pl_stages def));
  rid ← required (in_id input) "Pipeline-run ID";
  pid ← required (in_projectId input) "Project ID";
  tid ← required (in_taskId input) "Task ID";
  mid ← required (in_manifestRevisionId input) "Manifest revision ID";
  actor ← required (in_startedBy input) "Pipeline actor";
  pin ← match in_configurationPin input with
        | None => Ok None
        | Some v => v' ← requiredConfigurationPin v; Ok (Some v')
        end;
  Ok {| id := rid; projectId := pid; taskId := tid; manifestRevisionId := mid;
        manifestRevision := in_manifestRevision input; definition := def;
        status := run_active; currentStageIndex := 0; stages := stages; startedBy := actor;
        version := 1; createdAt := in_now input; updatedAt := in_now input;
        completedAt := None; cancelledAt := None; configurationPin := pin |}.

(** [PipelineRun.restore] and [snapshot] copy dates, arrays and the pin. *)
Definition restore (props : Run) : Run := props.
Definition snapshot (props : Run) : Run := props.

Definition currentStage : method Run (option StageRun) :=
  p ← get;
  if bool_decide (status p ≠ run_active) then mret None
  else match stages p !! currentStageIndex p with
       | Some s => mret (Some s)
       | None => mthrow undefined_read
       end.

Definition requireCurrent (st : PipelineStageRunStatus) : method Run StageRun :=
  stage ← currentStage;
  match stage with
  | Some s =>
      if bool_decide (sr_status s = st) then mret s
      else mthrow (PipelineTransitionError ("Current stage must be " +:+ stage_status_name st))
  | None => mthrow (PipelineTransitionError ("Current stage must be " +:+ stage_status_name st))
  end.

(** [this.props.definition.stages[index]!], whose properties are read next. *)
Definition stageDefinition (index : nat) : method Run OfficePipelineStage :=
  p ← get;
  match pl_stages (definition p) !! index with
  | Some d => mret d
  | None => mthrow undefined_read
  end.

Definition replaceStage (index : nat) (value : StageRun) : method Run unit :=
  modify (λ p, with_stages p
    (imap (λ candidate stage, if candidate =? index then value else stage) (stages p))).

Definition changed (now : date) : method Run unit :=
  modify (λ p, advanced p (status p) (currentStageIndex p) now (completedAt p) (cancelledAt p)).

Definition finishCurrent (now : date) : method Run unit :=
  stage ← currentStage;
  match stage with
  | None => mthrow (PipelineTransitionError "Pipeline is not active")
  | Some s =>
      replaceStage (sr_stageIndex s) (with_completion s now);;
      p ← get;
      let nextIndex := S (sr_stageIndex s) in
      if length (stages p) <=? nextIndex then
        put (advanced p run_completed (currentStageIndex p) now (Some now) (cancelledAt p))
      else
        match stages p !! nextIndex with
        | None => mthrow undefined_read
        | Some next =>
            replaceStage nextIndex (with_stage_status next stage_active);;
            modify (λ p, advanced p (status p) nextIndex now (completedAt p) (cancelledAt p))
        end
  end.

(** [this.props.stages.find((value) => value.stageId === stageId)] *)
Definition find_stage (l : list StageRun) (stageId : string) : option StageRun :=
  List.find (λ s, bool_decide (sr_stageId s = stageId)) l.

(** The loop of [assign] over [requiresDifferentAgentFrom]. *)
Fixpoint check_separation (l : list StageRun) (agentId stageId : string)
    (predecessors : list string) : outcome unit :=
  match predecessors with
  | [] => Ok tt
  | predecessorId :: rest =>
      throw_if (bool_decide ((find_stage l predecessorId ≫= sr_assignedAgentId) = Some agentId))
        (PipelineTransitionError ("Agent separation is required between " +:+ predecessorId
           +:+ " and " +:+ stageId));;
      check_separation l agentId stageId rest
  end.

Definition assign (agentId agentRoleId : string) (now : date) : method Run unit :=
  stage ← requireCurrent stage_active;
  refuse_if (bool_decide (sr_assignedAgentId stage ≠ None))
    (PipelineTransitionError "The active stage is already assigned");;
  refuse_if (bool_decide (agentRoleId ≠ sr_roleId stage))
    (PipelineTransitionError ("Stage " +:+ sr_stageId stage +:+ " requires role "
      +:+ sr_roleId stage));;
  def ← stageDefinition (sr_stageIndex stage);
  p ← get;
  lift (check_separation (stages p) agentId (sr_stageId stage)
          (default [] (st_requiresDifferentAgentFrom def)));;
  agent ← lift (required agentId "Agent ID");
  replaceStage (sr_stageIndex stage) (with_assignment stage agent now);;
  changed now.

Definition completeStage (agentId : string) (now : date) : method Run unit :=
  stage ← requireCurrent stage_active;
  refuse_if (bool_decide (sr_assignedAgentId stage = None))
    (PipelineTransitionError "The active stage has no assigned agent");;
  refuse_if (bool_decide (sr_assignedAgentId stage ≠ Some agentId))
    (PipelineTransitionError "Only the assigned agent can complete the stage");;
  def ← stageDefinition (sr_stageIndex stage);
  if st_requiresApproval def then
    replaceStage (sr_stageIndex stage) (with_stage_status stage stage_awaiting_approval);;
    changed now
  else finishCurrent now.

(** [definition.requiresIndependentApproval === true &&
    stage.assignedAgentId === actor] *)
Definition self_approval (def : OfficePipelineStage) (stage : StageRun) (actor : string) : bool :=
  bool_decide (st_requiresIndependentApproval def = Some true) &&
  bool_decide (sr_assignedAgentId stage = Some actor).

Definition approveStage (actorId : string) (rationale : option string) (now : date)
    : method Run unit :=
  stage ← requireCurrent stage_awaiting_approval;
  actor ← lift (required actorId "Approval actor");
  def ← stageDefinition (sr_stageIndex stage);
  refuse_if (self_approval def stage actor)
    (PipelineTransitionError "An assigned agent cannot approve its own stage");;
  text ← lift (match rationale with
               | None => Ok None
               | Some r => r' ← required r "Approval rationale"; Ok (Some r')
               end);
  replaceStage (sr_stageIndex stage)
    (with_decision stage (sr_status stage) actor approved text now);;
  finishCurrent now.

(** [rejectStage] and [cancel] close the run and cancel the stages [still]
    open in it. *)
Definition close_run (still : PipelineStageRunStatus → bool) (now : date) : method Run unit :=
  modify (λ p,
    advanced (with_stages p
      ((λ s, if still (sr_status s) then with_stage_status s stage_cancelled else s) <$> stages p))
      run_cancelled (currentStageIndex p) now (completedAt p) (Some now)).

Definition is_pending (s : PipelineStageRunStatus) : bool := bool_decide (s = stage_pending).
Definition is_open (s : PipelineStageRunStatus) : bool :=
  match s with stage_pending | stage_active | stage_awaiting_approval => true | _ => false end.

Definition rejectStage (actorId rationale : string) (now : date) : method Run unit :=
  stage ← requireCurrent stage_awaiting_approval;
  actor ← lift (required actorId "Approval actor");
  def ← stageDefinition (sr_stageIndex stage);
  refuse_if (self_approval def stage actor)
    (PipelineTransitionError "An assigned agent cannot reject its own stage");;
  text ← lift (required rationale "Rejection rationale");
  replaceStage (sr_stageIndex stage)
    (with_decision stage stage_cancelled actor rejected (Some text) now);;
  close_run is_pending now.

Definition overrideCurrent (oid actorId reason : string) (now : date)
    : method Run OverrideRecord :=
  stage ← currentStage;
  match stage with
  | None => mthrow (PipelineTransitionError "Pipeline is not active")
  | Some s =>
      let previousRule :=
        if bool_decide (sr_status s = stage_awaiting_approval) then "pipeline_approval_required"
        else if bool_decide (sr_assignedAgentId s = None) then "pipeline_agent_not_assigned"
        else "pipeline_stage_incomplete" in
      p ← get;
      oid ← lift (required oid "Override ID");
      actor ← lift (required actorId "Override actor");
      text ← lift (required reason "Override reason");
      finishCurrent now;;
      mret {| ov_id := oid; ov_projectId := projectId p; ov_pipelineRunId := id p;
              ov_stageRunId := sr_id s; ov_actorId := actor; ov_reason := text;
              ov_previousRule := previousRule;
              ov_resultingAuthorization := "stage_completed"; ov_createdAt := now |}
  end.

Definition cancel (actorId : string) (now : date) : method Run unit :=
  lift (required actorId "Cancellation actor");;
  p ← get;
  refuse_if (bool_decide (status p ≠ run_active))
    (PipelineTransitionError "Only an active pipeline can be cancelled");;
  close_run is_open now.

(** Every mutator of the aggregate, as a value. *)
Inductive call :=
| CAssign (agentId agentRoleId : string)
| CCompleteStage (agentId : string)
| CApproveStage (actorId : string) (rationale : option string)
| CRejectStage (actorId rationale : string)
| COverride (oid actorId reason : string)
| CCancel (actorId : string).

Definition run_call (c : call) (now : date) : method Run unit :=
  match c with
  | CAssign a r => assign a r now
  | CCompleteStage a => completeStage a now
  | CApproveStage a r => approveStage a r now
  | CRejectStage a r => rejectStage a r now
  | COverride o a r => overrideCurrent o a r now;; mret tt
  | CCancel a => cancel a now
  end.

(** A sequence of calls, each of which must succeed. *)
Fixpoint run_calls (l : list (call * date)) : method Run unit :=
  match l with
  | [] => mret tt
  | (c, now) :: l' => run_call c now;; run_calls l'
  end.

Definition step (ok : call → Prop) (p p' : Run) : Prop :=
  ∃ c now, ok c ∧ run_call c now p = (Ok tt, p').

(** The runs a created pipeline reaches through calls satisfying [ok]. *)
Inductive reachable (ok : call → Prop) : Run → Prop :=
| reachable_create input p : create input = Ok p → reachable ok p
| reachable_step p p' : reachable ok p → step ok p p' → reachable ok p'.

(** ** Well-formed runs *)

(** What a stage run promises about its stage definition: identity, nothing
    decided before the decision, an agent behind every review request, and no
    agent that decided over its own independently approved stage. *)
Record stage_inv (d : OfficePipelineStage) (s : StageRun) : Prop := {
  si_stageId : sr_stageId s = st_id d;
  si_roleId : sr_roleId s = st_roleId d;
  si_pending : sr_status s = stage_pending → sr_assignedAgentId s = None;
  si_awaiting : sr_status s = stage_awaiting_approval →
    sr_assignedAgentId s ≠ None ∧ st_requiresApproval d = true;
  si_undecided : is_open (sr_status s) = true →
    sr_approvedBy s = None ∧ sr_approvalDecision s = None;
  si_independent : ∀ actor, sr_approvedBy s = Some actor → self_approval d s actor = false
}.

(** Which status the stage at [i] has in a run of status [st] whose current
    stage is [cur]. *)
Definition position_ok (st : PipelineRunStatus) (cur i : nat) (v : PipelineStageRunStatus) : Prop :=
  match st with
  | run_active =>
      (i < cur → v = stage_completed) ∧
      (i = cur → v = stage_active ∨ v = stage_awaiting_approval) ∧
      (cur < i → v = stage_pending)
  | run_completed => v = stage_completed
  | run_cancelled => (i < cur → v = stage_completed) ∧ (cur ≤ i → v = stage_cancelled)
  end.

Record wf (p : Run) : Prop := {
  wf_enforced : pl_enforcement (definition p) = Some enforced;
  wf_length : length (stages p) = length (pl_stages (definition p));
  wf_index : currentStageIndex p < length (stages p);
  wf_stage : ∀ i s, stages p !! i = Some s →
    sr_stageIndex s = i ∧ position_ok (status p) (currentStageIndex p) i (sr_status s) ∧
    ∃ d, pl_stages (definition p) !! i = Some d ∧ stage_inv d s
}.

(** The run holds [s], defined by [d], as its current stage. *)
Record at_current (p : Run) (s : StageRun) (d : OfficePipelineStage) : Prop := {
  ac_active : status p = run_active;
  ac_stage : stages p !! currentStageIndex p = Some s;
  ac_def : pl_stages (definition p) !! currentStageIndex p = Some d;
  ac_index : sr_stageIndex s = currentStageIndex p
}.

(** The three ways a call changes a run: it updates the current stage, it
    finishes it and moves on, or it closes the run. *)
Definition touched (p : Run) (s : StageRun) (now : date) : Run :=
  advanced (with_stages p (<[currentStageIndex p := s]> (stages p)))
    (status p) (currentStageIndex p) now (completedAt p) (cancelledAt p).

Definition finished (p : Run) (s : StageRun) (now : date) : Run :=
  let cur := currentStageIndex p in
  let l := <[cur := s]> (stages p) in
  match l !! S cur with
  | None => advanced (with_stages p l) run_completed cur now (Some now) (cancelledAt p)
  | Some next =>
      advanced (with_stages p (<[S cur := with_stage_status next stage_active]> l))
        (status p) (S cur) now (completedAt p) (cancelledAt p)
  end.

Definition closed (p : Run) (l : list StageRun) (still : PipelineStageRunStatus → bool)
    (now : date) : Run :=
  advanced (with_stages p
    ((λ s, if still (sr_status s) then with_stage_status s stage_cancelled else s) <$> l))
    run_cancelled (currentStageIndex p) now (completedAt p) (Some now).

(** ** The specification of the calls

    Which call takes a well-formed run to which run, stated with the guards of
    the promise and not with the steps of the code. *)
Inductive transition (p : Run) (now : date) : call → Run → Prop :=
| T_assign s d agentId :
    at_current p s d → sr_status s = stage_active → sr_assignedAgentId s = None →
    (∀ pid, pid ∈ default [] (st_requiresDifferentAgentFrom d) →
       (find_stage (stages p) pid ≫= sr_assignedAgentId) ≠ Some agentId) →
    trim agentId ≠ "" →
    transition p now (CAssign agentId (sr_roleId s))
      (touched p (with_assignment s (trim agentId) now) now)
| T_review s d agentId :
    at_current p s d → sr_status s = stage_active → sr_assignedAgentId s = Some agentId →
    st_requiresApproval d = true →
    transition p now (CCompleteStage agentId)
      (touched p (with_stage_status s stage_awaiting_approval) now)
| T_finish s d agentId :
    at_current p s d → sr_status s = stage_active → sr_assignedAgentId s = Some agentId →
    st_requiresApproval d = false →
    transition p now (CCompleteStage agentId) (finished p (with_completion s now) now)
| T_approve s d actorId rationale :
    at_current p s d → sr_status s = stage_awaiting_approval → trim actorId ≠ "" →
    self_approval d s (trim actorId) = false →
    (∀ r, rationale = Some r → trim r ≠ "") →
    transition p now (CApproveStage actorId rationale)
      (finished p (with_completion
        (with_decision s stage_awaiting_approval (trim actorId) approved (trim <$> rationale) now)
        now) now)
| T_reject s d actorId rationale :
    at_current p s d → sr_status s = stage_awaiting_approval → trim actorId ≠ "" →
    self_approval d s (trim actorId) = false → trim rationale ≠ "" →
    transition p now (CRejectStage actorId rationale)
      (closed p (<[currentStageIndex p :=
         with_decision s stage_cancelled (trim actorId) rejected (Some (trim rationale)) now]>
           (stages p)) is_pending now)
| T_override s d oid actorId reason :
    at_current p s d → trim oid ≠ "" → trim actorId ≠ "" → trim reason ≠ "" →
    transition p now (COverride oid actorId reason) (finished p (with_completion s now) now)
| T_cancel actorId :
    status p = run_active → trim actorId ≠ "" →
    transition p now (CCancel actorId) (closed p (stages p) is_open now).

(** * Lemmas *)

Lemma replaceStage_spec i s p :
  replaceStage i s p = (Ok tt, with_stages p (<[i := s]> (stages p))).
Proof.
  unfold replaceStage, modify. do 3 f_equal. apply list_eq; intros j.
  rewrite list_lookup_imap. destruct (decide (i = j)) as [->|Hij].
  - destruct (stages p !! j) eqn:Hj; simpl.
    + rewrite Nat.eqb_refl, list_lookup_insert_eq; [done|]. by eapply lookup_lt_Some.
    + symmetry. apply lookup_ge_None. rewrite length_insert. by apply lookup_ge_None.
  - rewrite list_lookup_insert_ne by done. destruct (stages p !! j); simpl; [|done].
    by destruct (Nat.eqb_spec j i); [subst|].
Qed.

Lemma wf_at_current p :
  wf p → status p = run_active →
  ∃ s d, at_current p s d ∧ stage_inv d s ∧
    (sr_status s = stage_active ∨ sr_status s = stage_awaiting_approval).
Proof.
  intros Hwf Ha. destruct (lookup_lt_is_Some_2 _ _ (wf_index _ Hwf)) as [s Hs].
  destruct (wf_stage _ Hwf _ _ Hs) as (Hi & Hp & d & Hd & Hinv).
  rewrite Ha in Hp. exists s, d. split; [by constructor|]. naive_solver.
Qed.

Lemma currentStage_at p s d : at_current p s d → currentStage p = (Ok (Some s), p).
Proof.
  intros [Ha Hs _ _]. unfold currentStage. rewrite get_bind, bool_decide_eq_false_2 by auto.
  by rewrite Hs.
Qed.

Lemma currentStage_inactive p : status p ≠ run_active → currentStage p = (Ok None, p).
Proof. intros Ha. unfold currentStage. by rewrite get_bind, bool_decide_eq_true_2. Qed.

(** [requireCurrent] passes only on the current stage of an active run. *)
Lemma requireCurrent_wf st p (k : StageRun → method Run unit) r p' :
  wf p → (requireCurrent st ≫= k) p = (r, p') →
  (∃ s d, at_current p s d ∧ stage_inv d s ∧ sr_status s = st ∧ k s p = (r, p')) ∨
  (r = Throw (PipelineTransitionError ("Current stage must be " +:+ stage_status_name st)) ∧
   p' = p).
Proof.
  intros Hwf. unfold requireCurrent. destruct (decide (status p = run_active)) as [Ha|Ha].
  - destruct (wf_at_current p Hwf Ha) as (s & d & Hat & Hinv & _).
    unfold mbind, action_bind. rewrite (currentStage_at _ _ _ Hat).
    case_bool_decide; unfold mret, action_ret, mthrow, action_throw.
    + left. eauto 10.
    + intros [= <- <-]. by right.
  - unfold mbind, action_bind. rewrite (currentStage_inactive _ Ha).
    unfold mthrow, action_throw. intros [= <- <-]. by right.
Qed.

Lemma stageDefinition_at p s d {B} (k : OfficePipelineStage → method Run B) :
  at_current p s d → (stageDefinition (sr_stageIndex s) ≫= k) p = k d p.
Proof.
  intros [_ _ Hd Hi]. unfold stageDefinition, mbind, action_bind, get.
  by rewrite Hi, Hd.
Qed.

Lemma at_current_with_stages p s s' d :
  at_current p s d → sr_stageIndex s' = currentStageIndex p →
  at_current (with_stages p (<[currentStageIndex p := s']> (stages p))) s' d.
Proof.
  intros [Ha Hs Hd Hi] Hi'. constructor; simpl; try done.
  apply list_lookup_insert_eq. by eapply lookup_lt_Some.
Qed.

(** [finishCurrent] cannot fail on the current stage of an active run. *)
Lemma finishCurrent_at p s d now :
  at_current p s d → finishCurrent now p = (Ok tt, finished p (with_completion s now) now).
Proof.
  intros Hat. unfold finishCurrent. unfold mbind at 1, action_bind at 1.
  rewrite (currentStage_at _ _ _ Hat). destruct Hat as [Ha Hs Hd Hi]. rewrite Hi.
  unfold mbind at 1, action_bind at 1. rewrite replaceStage_spec, get_bind.
  unfold finished; simpl. set (l := <[_ := _]> (stages p)).
  destruct (Nat.leb_spec (length l) (S (currentStageIndex p))) as [Hl|Hl].
  - rewrite (proj2 (lookup_ge_None l _) Hl). done.
  - destruct (lookup_lt_is_Some_2 _ _ Hl) as [next Hnext]. rewrite Hnext.
    unfold mbind, action_bind. rewrite replaceStage_spec. done.
Qed.

Lemma finished_insert p s s' now :
  finished (with_stages p (<[currentStageIndex p := s]> (stages p))) s' now =
  finished p s' now.
Proof. unfold finished; simpl. by rewrite list_insert_insert_eq. Qed.

Lemma check_separation_Ok l agentId stageId preds :
  check_separation l agentId stageId preds = Ok tt ↔
  ∀ pid, pid ∈ preds → (find_stage l pid ≫= sr_assignedAgentId) ≠ Some agentId.
Proof.
  induction preds as [|pid preds IH]; simpl; [set_solver|].
  rewrite throw_if_bind_Ok, bool_decide_eq_false, IH. setoid_rewrite elem_of_cons.
  naive_solver.
Qed.

(** *** One call, either way

    [decided m p R] says that [m] run on [p] either succeeds with a result that
    [R] describes, or throws, leaves [p] alone, and [R] describes nothing. *)
Definition decided {A} (m : method Run A) (p : Run) (R : Run → Prop) : Prop :=
  (∃ a p', m p = (Ok a, p') ∧ R p' ∧ ∀ p'', R p'' → p'' = p') ∨
  (∃ e, m p = (Throw e, p) ∧ ∀ p', ¬ R p').

Lemma decided_refuse {A} b e (k : method Run A) p R :
  (b = true → ∀ p', ¬ R p') → (b = false → decided k p R) →
  decided (refuse_if b e;; k) p R.
Proof. destruct b; intros Ht Hf; [right; exists e; split; [done|by apply Ht]|by apply Hf]. Qed.

Lemma decided_required {A} v name (k : string → method Run A) p R :
  (trim v = "" → ∀ p', ¬ R p') → (trim v ≠ "" → decided (k (trim v)) p R) →
  decided (lift (required v name) ≫= k) p R.
Proof.
  intros Ht Hf. destruct (required v name) as [x|e] eqn:Hr.
  - apply required_Ok in Hr as [-> Hv]. by apply Hf.
  - right. exists e. split; [done|]. apply Ht. unfold required in Hr.
    by case_bool_decide.
Qed.

Lemma decided_requireCurrent {A} st p (k : StageRun → method Run A) R :
  wf p →
  (∀ s d, at_current p s d → sr_status s = st → decided (k s) p R) →
  (∀ p', R p' → ∃ s d, at_current p s d ∧ sr_status s = st) →
  decided (requireCurrent st ≫= k) p R.
Proof.
  intros Hwf Hk HR. unfold requireCurrent.
  destruct (decide (status p = run_active)) as [Ha|Ha].
  - destruct (wf_at_current p Hwf Ha) as (s & d & Hat & _).
    unfold decided, mbind, action_bind. rewrite (currentStage_at _ _ _ Hat).
    case_bool_decide as Hs; [by apply (Hk s d)|]. right. eexists. split; [done|].
    intros p' (s' & d' & Hat' & Hs')%HR. apply Hs. rewrite <-Hs'. f_equal.
    destruct Hat, Hat'. congruence.
  - right. unfold mbind, action_bind. rewrite (currentStage_inactive _ Ha).
    eexists. split; [done|]. intros p' (s' & d' & [Ha' _ _ _] & _)%HR. done.
Qed.

Lemma decided_stageDefinition {A} s d p (k : OfficePipelineStage → method Run A) R :
  at_current p s d → decided (k d) p R →
  decided (stageDefinition (sr_stageIndex s) ≫= k) p R.
Proof. intros Hat. unfold decided. by rewrite (stageDefinition_at _ _ _ _ Hat). Qed.

Lemma decided_get {A} p (k : Run → method Run A) R :
  decided (k p) p R → decided (get ≫= k) p R.
Proof. done. Qed.

Lemma decided_bind_assoc {A B C} (m : method Run B) (f : B → method Run C)
    (k : C → method Run A) p R :
  decided (m ≫= λ b, f b ≫= k) p R → decided ((m ≫= f) ≫= k) p R.
Proof. unfold decided, mbind, action_bind. by destruct (m p) as [[]]. Qed.

Lemma decided_bind_eq {A B} (m : method Run B) (k : B → method Run A) b p R :
  m p = (Ok b, p) → decided (k b) p R → decided (m ≫= k) p R.
Proof. intros Hm. unfold decided, mbind, action_bind. by rewrite Hm. Qed.

Lemma decided_lift {A B} (r : outcome B) p (k : B → method Run A) R :
  (∀ b, r = Ok b → decided (k b) p R) → (∀ e, r = Throw e → ∀ p', ¬ R p') →
  decided (lift r ≫= k) p R.
Proof. destruct r as [b|e]; intros Hk He; [by apply (Hk b)|right; naive_solver]. Qed.

(** A final block that only writes. *)
Lemma decided_done {A} (m : method Run A) p p' a (R : Run → Prop) :
  m p = (Ok a, p') → R p' → (∀ p'', R p'' → p'' = p') → decided m p R.
Proof. left; eauto. Qed.

Lemma at_current_inj p s d s' d' : at_current p s d → at_current p s' d' → s = s' ∧ d = d'.
Proof. intros [] []. split; congruence. Qed.

Lemma touched_spec p s s' d now :
  at_current p s d → (replaceStage (sr_stageIndex s) s';; changed now) p =
  (Ok tt, touched p s' now).
Proof.
  intros [_ _ _ ->]. unfold mbind, action_bind. by rewrite replaceStage_spec.
Qed.

(** Inverts a transition and identifies its current stage with the one in
    scope. *)
Ltac inv_transition :=
  let H := fresh in
  intros ? H; inversion H; subst; clear H;
  repeat match goal with
  | Ha : at_current ?p ?s ?d, Hb : at_current ?p ?s' ?d' |- _ =>
      lazymatch goal with
      | _ : s = s' |- _ => fail
      | _ => destruct (at_current_inj _ _ _ _ _ Ha Hb); subst; clear Hb
      end
  end.

Lemma assign_decided p agentId roleId now :
  wf p → decided (assign agentId roleId now) p (transition p now (CAssign agentId roleId)).
Proof.
  intros Hwf. apply decided_requireCurrent; [done| |inv_transition; eauto].
  intros s d Hat Hs. apply decided_refuse; intros Hb;
    [apply bool_decide_eq_true in Hb; by inv_transition|apply bool_decide_eq_false in Hb].
  apply decided_refuse; intros Hr;
    [apply bool_decide_eq_true in Hr; by inv_transition|apply bool_decide_eq_false in Hr].
  apply (decided_stageDefinition s d), decided_get, decided_lift; [done| |].
  - intros [] Hc. rewrite check_separation_Ok in Hc. apply decided_required; intros Ha; [by inv_transition|].
    apply dec_stable in Hb, Hr. subst roleId.
    eapply decided_done; [by eapply touched_spec|by econstructor|by inv_transition].
  - intros e Hc. inv_transition.
    by rewrite (proj2 (check_separation_Ok _ _ _ _)) in Hc.
Qed.

Lemma completeStage_decided p agentId now :
  wf p → decided (completeStage agentId now) p (transition p now (CCompleteStage agentId)).
Proof.
  intros Hwf. apply decided_requireCurrent; [done| |inv_transition; eauto].
  intros s d Hat Hs. apply decided_refuse; intros Hb;
    [apply bool_decide_eq_true in Hb; inv_transition; congruence|clear Hb].
  apply decided_refuse; intros Hr;
    [apply bool_decide_eq_true in Hr; by inv_transition|apply bool_decide_eq_false in Hr].
  apply dec_stable in Hr. apply (decided_stageDefinition s d); [done|].
  destruct (st_requiresApproval d) eqn:Hd.
  - eapply decided_done; [by eapply touched_spec|by econstructor|inv_transition; congruence].
  - eapply decided_done; [by eapply finishCurrent_at|by econstructor|inv_transition; congruence].
Qed.

Lemma approveStage_decided p actorId rationale now :
  wf p →
  decided (approveStage actorId rationale now) p (transition p now (CApproveStage actorId rationale)).
Proof.
  intros Hwf. apply decided_requireCurrent; [done| |inv_transition; eauto].
  intros s d Hat Hs. apply decided_required; intros Ha; [by inv_transition|].
  apply (decided_stageDefinition s d); [done|].
  apply decided_refuse; intros Hi; [inv_transition; congruence|].
  apply decided_lift.
  - intros text Ht.
    assert (text = trim <$> rationale ∧ ∀ r, rationale = Some r → trim r ≠ "") as [-> Hr].
    { destruct rationale as [r|]; [|by inv_ok].
      apply bind_Ok in Ht as (? & [-> ?]%required_Ok & [= <-]). naive_solver. }
    rewrite Hs. eapply decided_done; [|by econstructor|by inv_transition].
    unfold mbind, action_bind. rewrite replaceStage_spec. destruct Hat as [? ? ? Hsi] eqn:Hat'.
    rewrite Hsi. erewrite finishCurrent_at by (eapply at_current_with_stages; done).
    by rewrite finished_insert.
  - intros e He. inv_transition. destruct rationale as [r|]; [|done].
    apply bind_Throw in He as [He|(? & _ & [=])]. unfold required in He.
    case_bool_decide; [|done]. naive_solver.
Qed.

Lemma rejectStage_decided p actorId rationale now :
  wf p →
  decided (rejectStage actorId rationale now) p (transition p now (CRejectStage actorId rationale)).
Proof.
  intros Hwf. apply decided_requireCurrent; [done| |inv_transition; eauto].
  intros s d Hat Hs. apply decided_required; intros Ha; [by inv_transition|].
  apply (decided_stageDefinition s d); [done|].
  apply decided_refuse; intros Hi; [inv_transition; congruence|].
  apply decided_required; intros Ht; [by inv_transition|].
  eapply decided_done; [|by econstructor|by inv_transition].
  unfold mbind, action_bind. rewrite replaceStage_spec. by destruct Hat as [_ _ _ ->].
Qed.

Lemma overrideCurrent_decided p oid actorId reason now :
  wf p →
  decided (overrideCurrent oid actorId reason now;; mret tt) p
    (transition p now (COverride oid actorId reason)).
Proof.
  intros Hwf. unfold overrideCurrent. destruct (decide (status p = run_active)) as [Ha|Ha].
  - destruct (wf_at_current p Hwf Ha) as (s & d & Hat & _).
    apply decided_bind_assoc, (decided_bind_eq _ _ (Some s)); [by eapply currentStage_at|].
    apply decided_bind_assoc, decided_get.
    apply decided_bind_assoc, decided_required; intros Ho; [by inv_transition|].
    apply decided_bind_assoc, decided_required; intros Hac; [by inv_transition|].
    apply decided_bind_assoc, decided_required; intros Hr; [by inv_transition|].
    apply decided_bind_assoc.
    eapply decided_done; [|by econstructor|by inv_transition].
    unfold mbind, action_bind. by rewrite (finishCurrent_at _ _ _ _ Hat).
  - right. unfold mbind, action_bind. rewrite currentStage_inactive by done.
    eexists. split; [done|]. intros ? Ht. inversion Ht as [| | | | |s d ? ? ? [Ha' _ _ _]|]; by subst.
Qed.

Lemma cancel_decided p actorId now :
  decided (cancel actorId now) p (transition p now (CCancel actorId)).
Proof.
  apply decided_required; intros Hac; [by inv_transition|].
  apply decided_get, decided_refuse; intros Ha;
    [apply bool_decide_eq_true in Ha; by inv_transition|apply bool_decide_eq_false in Ha].
  apply dec_stable in Ha. by eapply decided_done; [done|by constructor|inv_transition].
Qed.

(** The code of every call implements its specification. *)
Lemma run_call_decided p c now :
  wf p → decided (run_call c now) p (transition p now c).
Proof.
  destruct c; simpl; eauto using assign_decided, completeStage_decided, approveStage_decided,
    rejectStage_decided, overrideCurrent_decided, cancel_decided.
Qed.

Lemma run_call_transition p c now a p' :
  wf p → run_call c now p = (Ok a, p') → transition p now c p'.
Proof.
  intros Hwf Hr. destruct (run_call_decided p c now Hwf) as [(b & p1 & H1 & Ht & _)|(e & He & _)].
  - congruence.
  - congruence.
Qed.

(** *** Well-formed runs *)

Lemma create_wf input p : create input = Ok p → wf p.
Proof.
  unfold create. rewrite !throw_if_bind_Ok. intros (He & Hn & Hl & H).
  apply bool_decide_eq_false, dec_stable in He.
  apply Nat.eqb_neq in Hn. apply negb_false_iff, Nat.eqb_eq in Hl.
  apply bind_Ok in H as (l & Hst%map_result_Ok & H). inv_ok.
  pose proof (Forall2_length _ _ _ Hst) as Hlen. rewrite length_imap in Hlen.
  split; simpl; [done|done|lia|].
  intros i s Hs.
  destruct (Forall2_lookup_r _ _ _ _ _ Hst Hs) as ([j d] & Hd & Hnew).
  rewrite list_lookup_imap in Hd. apply fmap_Some in Hd as (d' & Hd & [= -> ->]).
  unfold new_stage in Hnew. inv_ok. simpl in *. split; [done|split].
  - split_and!; intros; [lia|subst; by left|]. destruct (Nat.eqb_spec i 0); [lia|done].
  - exists d'. split; [done|]. by constructor; simpl; destruct (i =? 0).
Qed.

Lemma is_open_active : is_open stage_active = true.
Proof. done. Qed.

Lemma touched_wf p s d s' now :
  wf p → at_current p s d → sr_stageIndex s' = currentStageIndex p →
  sr_status s' = stage_active ∨ sr_status s' = stage_awaiting_approval → stage_inv d s' →
  wf (touched p s' now).
Proof.
  intros [He Hl Hc Hst] [Ha Hs Hd Hi] Hi' Hv Hinv.
  split; simpl; rewrite ?length_insert; try done.
  intros i x. rewrite list_lookup_insert_Some. intros [(<- & <- & _)|[Hne Hx]].
  - rewrite Ha. split; [done|]. split; [|by exists d]. by split_and!; intros; [lia| |lia].
  - rewrite Ha. specialize (Hst i x Hx). by rewrite Ha in Hst.
Qed.

Lemma finished_wf p s d s' now :
  wf p → at_current p s d → sr_stageIndex s' = currentStageIndex p →
  sr_status s' = stage_completed → stage_inv d s' → wf (finished p s' now).
Proof.
  intros [He Hl Hc Hst] [Ha Hs Hd Hi] Hi' Hv Hinv. unfold finished.
  destruct (<[_ := _]> (stages p) !! S (currentStageIndex p)) as [next|] eqn:Hn.
  - rewrite list_lookup_insert_ne in Hn by lia.
    pose proof (lookup_lt_Some _ _ _ Hn) as Hlt.
    split; simpl; rewrite ?length_insert; try done.
    intros i x. rewrite Ha, list_lookup_insert_Some.
    intros [(<- & <- & _)|[Hne Hx]].
    + destruct (Hst _ _ Hn) as (Hni & Hp & d' & Hd' & Hinv'). rewrite Ha in Hp.
      split; [done|]. split; [split_and!; simpl; intros; auto; lia|].
      exists d'. split; [done|].
      assert (sr_status next = stage_pending) as Hpend by (apply Hp; lia).
      destruct Hinv' as [? ? ? ? Hu Hind]. rewrite Hpend in Hu. by constructor; simpl; auto.
    + rewrite list_lookup_insert_Some in Hx. destruct Hx as [(<- & <- & _)|[Hne' Hx]].
      * split; [done|]. split; [split_and!; intros; [done|lia|lia]|by exists d].
      * destruct (Hst i x Hx) as (? & Hp & ?). rewrite Ha in Hp. simpl in *.
        split; [done|]. split; [|done]. split_and!; intros; apply Hp; lia.
  - rewrite list_lookup_insert_ne in Hn by lia. apply lookup_ge_None in Hn.
    split; simpl; rewrite ?length_insert; try done.
    intros i x. rewrite list_lookup_insert_Some. intros [(<- & <- & _)|[Hne Hx]].
    + split; [done|]. split; [done|by exists d].
    + destruct (Hst i x Hx) as (? & Hp & ?). rewrite Ha in Hp.
      split; [done|]. split; [|done]. apply Hp. apply lookup_lt_Some in Hx. lia.
Qed.

Lemma closed_wf p l still now :
  wf p → status p = run_active → length l = length (stages p) →
  (∀ i x, l !! i = Some x → ∃ d, pl_stages (definition p) !! i = Some d ∧ stage_inv d x ∧
     sr_stageIndex x = i ∧
     (i < currentStageIndex p → sr_status x = stage_completed) ∧
     (currentStageIndex p ≤ i → still (sr_status x) = true ∨ sr_status x = stage_cancelled)) →
  still stage_completed = false →
  wf (closed p l still now).
Proof.
  intros [He Hl Hc Hst] Ha Hlen Hx Hstill.
  split; simpl; rewrite ?length_fmap, ?Hlen; try done.
  intros i y (x & -> & Hix)%list_lookup_fmap_Some. destruct (Hx i x Hix) as (d & Hd & Hinv & Hi & Hlt & Hge).
  assert (stage_inv d (with_stage_status x stage_cancelled)) as Hinv'.
  { destruct Hinv. by constructor; simpl. }
  split; [by case_match|]. split.
  - split; intros Hi'.
    + rewrite (Hlt Hi'), Hstill. by apply Hlt.
    + destruct (Hge Hi') as [Hv|Hv]; rewrite Hv; [reflexivity|case_match; [reflexivity|exact Hv]].
  - exists d. split; [done|]. case_match; assumption.
Qed.

Lemma stage_inv_at p s d : wf p → at_current p s d → stage_inv d s.
Proof.
  intros Hwf [_ Hs Hd _]. destruct (wf_stage _ Hwf _ _ Hs) as (_ & _ & d' & ? & ?). congruence.
Qed.

(** The updates of the current stage keep what it promises. *)
Lemma stage_inv_assignment d s a now :
  sr_status s = stage_active → stage_inv d s → stage_inv d (with_assignment s a now).
Proof.
  intros Hs [? ? ? ? Hu ?]. rewrite Hs in Hu. destruct Hu as [Hu ?]; [done|].
  constructor; simpl; try done; rewrite ?Hs, ?Hu; done.
Qed.

Lemma stage_inv_review d s a :
  sr_status s = stage_active → sr_assignedAgentId s = Some a → st_requiresApproval d = true →
  stage_inv d s → stage_inv d (with_stage_status s stage_awaiting_approval).
Proof.
  intros Hs Ha Hd [? ? ? ? Hu ?]. rewrite Hs in Hu. destruct Hu; [done|].
  constructor; simpl; try done; rewrite ?Ha; auto.
Qed.

Lemma stage_inv_completion d s now : stage_inv d s → stage_inv d (with_completion s now).
Proof. intros []. by constructor; simpl. Qed.

Lemma stage_inv_decision d s v actor dec text now :
  is_open v = false → self_approval d s actor = false →
  stage_inv d s → stage_inv d (with_decision s v actor dec text now).
Proof.
  intros Hv Hself []. constructor; simpl; try done; try (intros ->; done).
  - congruence.
  - by intros ? [= <-].
Qed.

Lemma stage_inv_decided_completion d s v actor dec text now :
  self_approval d s actor = false → stage_inv d s →
  stage_inv d (with_completion (with_decision s v actor dec text now) now).
Proof.
  intros Hself Hinv.
  change (stage_inv d (with_completion (with_decision s stage_completed actor dec text now) now)).
  by apply stage_inv_completion, stage_inv_decision.
Qed.

(** The stages of an active run, as [cancel] and [rejectStage] see them. *)
Lemma wf_active_stage p i x :
  wf p → status p = run_active → stages p !! i = Some x →
  ∃ d, pl_stages (definition p) !! i = Some d ∧ stage_inv d x ∧ sr_stageIndex x = i ∧
    (i < currentStageIndex p → sr_status x = stage_completed) ∧
    (currentStageIndex p ≤ i → is_open (sr_status x) = true) ∧
    (currentStageIndex p < i → sr_status x = stage_pending).
Proof.
  intros Hwf Ha Hx. destruct (wf_stage _ Hwf _ _ Hx) as (Hi & Hp & d & Hd & Hinv).
  rewrite Ha in Hp. destruct Hp as (Hlt & Heq & Hgt).
  exists d. split_and!; auto. intros Hle. destruct (decide (i = currentStageIndex p)) as [Hic|].
  - by destruct (Heq Hic) as [->| ->].
  - rewrite Hgt; [done|lia].
Qed.

(** A call keeps a run well-formed. *)
Lemma transition_wf p c now p' : wf p → transition p now c p' → wf p'.
Proof.
  intros Hwf Ht.
  inversion Ht as [s d a Hat Hs|s d a Hat Hs|s d a Hat|s d a r Hat
    |s d a r Hat|s d o a r Hat|a Ha]; subst; try pose proof (stage_inv_at _ _ _ Hwf Hat);
    try (pose proof (ac_index _ _ _ Hat) as Hi).
  - eapply touched_wf; simpl; eauto using stage_inv_assignment.
  - eapply touched_wf; simpl; eauto using stage_inv_review.
  - eapply finished_wf; simpl; eauto using stage_inv_completion.
  - eapply finished_wf; simpl; eauto using stage_inv_decided_completion.
  - apply closed_wf; [done|by eapply ac_active|by rewrite length_insert| |done].
    intros i x. rewrite list_lookup_insert_Some. intros [(<- & <- & _)|[Hne Hx]].
    + exists d. split_and!; simpl; [by eapply ac_def|by apply stage_inv_decision|done|lia|by right].
    + destruct (wf_active_stage p i x Hwf (ac_active _ _ _ Hat) Hx) as (d' & ? & ? & ? & ? & _ & Hgt).
      exists d'. split_and!; auto. intros. rewrite Hgt; [by left|lia].
  - eapply finished_wf; simpl; eauto using stage_inv_completion.
  - apply closed_wf; auto. intros i x Hx.
    destruct (wf_active_stage p i x Hwf Ha Hx) as (d' & ? & ? & ? & ? & ? & _). eauto 10.
Qed.

Lemma step_wf ok p p' : wf p → step ok p p' → wf p'.
Proof. intros Hwf (c & now & _ & H). eauto using run_call_transition, transition_wf. Qed.

(** *** What a call does to one stage *)

Inductive stage_update (p : Run) (now : date) : call → nat → StageRun → StageRun → Prop :=
| U_same c i x : stage_update p now c i x x
| U_activate c x :
    stage_update p now c (S (currentStageIndex p)) x (with_stage_status x stage_active)
| U_cancel c i x : stage_update p now c i x (with_stage_status x stage_cancelled)
| U_assign agentId roleId x d :
    pl_stages (definition p) !! currentStageIndex p = Some d →
    (∀ pid, pid ∈ default [] (st_requiresDifferentAgentFrom d) →
       (find_stage (stages p) pid ≫= sr_assignedAgentId) ≠ Some agentId) →
    stage_update p now (CAssign agentId roleId) (currentStageIndex p) x
      (with_assignment x (trim agentId) now)
| U_review agentId x :
    stage_update p now (CCompleteStage agentId) (currentStageIndex p) x
      (with_stage_status x stage_awaiting_approval)
| U_complete agentId x d :
    pl_stages (definition p) !! currentStageIndex p = Some d →
    sr_assignedAgentId x = Some agentId → st_requiresApproval d = false →
    stage_update p now (CCompleteStage agentId) (currentStageIndex p) x (with_completion x now)
| U_approve actorId rationale text x :
    sr_status x = stage_awaiting_approval →
    stage_update p now (CApproveStage actorId rationale) (currentStageIndex p) x
      (with_completion
        (with_decision x stage_awaiting_approval (trim actorId) approved text now) now)
| U_reject actorId rationale text x :
    stage_update p now (CRejectStage actorId rationale) (currentStageIndex p) x
      (with_decision x stage_cancelled (trim actorId) rejected text now)
| U_override oid actorId reason x :
    stage_update p now (COverride oid actorId reason) (currentStageIndex p) x
      (with_completion x now).

#[local] Hint Constructors stage_update : core.

Lemma touched_lookup p s' now i y :
  stages (touched p s' now) !! i = Some y →
  (i = currentStageIndex p ∧ y = s') ∨ stages p !! i = Some y.
Proof. simpl. rewrite list_lookup_insert_Some. naive_solver. Qed.

Lemma finished_lookup p s' now i y :
  stages (finished p s' now) !! i = Some y →
  (i = currentStageIndex p ∧ y = s') ∨
  ∃ x, stages p !! i = Some x ∧
    (y = x ∨ (i = S (currentStageIndex p) ∧ y = with_stage_status x stage_active)).
Proof.
  unfold finished. destruct (_ !! S (currentStageIndex p)) as [next|] eqn:Hn; simpl.
  - rewrite list_lookup_insert_Some. intros [(<- & <- & _)|[Hne Hy]].
    + rewrite list_lookup_insert_ne in Hn by lia. right. eauto.
    + rewrite list_lookup_insert_Some in Hy. naive_solver.
  - rewrite list_lookup_insert_Some. naive_solver.
Qed.

Lemma closed_lookup p l still now i y :
  stages (closed p l still now) !! i = Some y →
  ∃ x, l !! i = Some x ∧ (y = x ∨ (still (sr_status x) = true ∧ y = with_stage_status x stage_cancelled)).
Proof.
  simpl. intros (x & -> & Hx)%list_lookup_fmap_Some. exists x. split; [done|].
  destruct (still _); auto.
Qed.

Lemma transition_lookup p now c p' i y :
  transition p now c p' → stages p' !! i = Some y →
  ∃ x, stages p !! i = Some x ∧ stage_update p now c i x y.
Proof.
  intros Ht Hy.
  inversion Ht as [s d a Hat Hs|s d a Hat Hs|s d a Hat|s d a r Hat
    |s d a r Hat|s d o a r Hat|a Ha]; subst;
    try (destruct Hat as [_ Hst Hd _]);
    try (apply touched_lookup in Hy as [[-> ->]|Hy]);
    try (apply finished_lookup in Hy as [[-> ->]|(x & Hx & [->|[-> ->]])]); eauto.
  - apply closed_lookup in Hy as (x & Hx & Hy).
    rewrite list_lookup_insert_Some in Hx. destruct Hx as [(<- & <- & _)|[_ Hx]].
    + exists s. split; [done|]. destruct Hy as [->|[Hp _]]; [eauto|done].
    + destruct Hy as [->|[_ ->]]; eauto.
  - apply closed_lookup in Hy as (x & Hx & [->|[_ ->]]); eauto.
Qed.

(** Calls only act on active runs; they count themselves, stamp the run and
    never change what the run is about. *)
Lemma transition_frame p now c p' :
  transition p now c p' →
  status p = run_active ∧ version p' = (version p + 1)%Z ∧ updatedAt p' = now ∧
  length (stages p') = length (stages p) ∧
  (currentStageIndex p ≤ currentStageIndex p') ∧
  (id p', projectId p', taskId p', manifestRevisionId p', manifestRevision p', definition p',
   startedBy p', createdAt p', configurationPin p') =
  (id p, projectId p, taskId p, manifestRevisionId p, manifestRevision p, definition p,
   startedBy p, createdAt p, configurationPin p).
Proof.
  inversion 1 as [s d a Hat|s d a Hat|s d a Hat|s d a r Hat|s d a r Hat|s d o a r Hat|a Ha];
    subst; try (pose proof (ac_active _ _ _ Hat)); unfold touched, closed, finished;
    try case_match; simpl; rewrite ?length_fmap, ?length_insert; auto 10.
Qed.

Lemma transition_stageIds p now c p' :
  transition p now c p' → sr_stageId <$> stages p' = sr_stageId <$> stages p.
Proof.
  intros Ht. destruct (transition_frame _ _ _ _ Ht) as (_ & _ & _ & Hl & _).
  apply list_eq_same_length with (length (stages p)); rewrite ?length_fmap; auto.
  intros i x y _ (y' & -> & Hy)%list_lookup_fmap_Some (x' & -> & Hx)%list_lookup_fmap_Some.
  destruct (transition_lookup _ _ _ _ _ _ Ht Hy) as (x'' & Hx'' & Hu).
  simplify_eq. by destruct Hu.
Qed.

Lemma find_stage_index l l' pid s :
  sr_stageId <$> l = sr_stageId <$> l' → find_stage l pid = Some s →
  ∃ i, l !! i = Some s ∧ find_stage l' pid = l' !! i.
Proof.
  revert l'. induction l as [|x l IH]; intros [|x' l'] Hl; try done.
  injection Hl as Hx Hl. unfold find_stage; simpl. rewrite <-Hx.
  case_bool_decide as Hp.
  - intros [= <-]. by exists 0.
  - intros Hf. destruct (IH _ Hl Hf) as (i & ? & ?). by exists (S i).
Qed.

(** *** Reachable runs *)

Lemma reachable_wf ok p : reachable ok p → wf p.
Proof. induction 1; [by eapply create_wf|by eapply step_wf]. Qed.

(** Rule induction with the specification of the last call in hand. *)
Lemma reachable_transition_ind ok (P : Run → Prop) :
  (∀ input p, create input = Ok p → P p) →
  (∀ p c now p', wf p → ok c → transition p now c p' → P p → P p') →
  ∀ p, reachable ok p → P p.
Proof.
  intros H0 Hs p Hr. induction Hr as [|p p' Hr IH (c & now & Hok & Hc)]; [by eapply H0|].
  pose proof (reachable_wf _ _ Hr). eapply Hs; eauto using run_call_transition.
Qed.

Lemma create_unassigned input p i s :
  create input = Ok p → stages p !! i = Some s →
  sr_assignedAgentId s = None ∧ sr_status s ≠ stage_completed.
Proof.
  unfold create. rewrite !throw_if_bind_Ok. intros (_ & _ & _ & H).
  apply bind_Ok in H as (l & Hst%map_result_Ok & H). inv_ok. simpl. intros Hs.
  destruct (Forall2_lookup_r _ _ _ _ _ Hst Hs) as ([j d] & _ & Hnew).
  unfold new_stage in Hnew. inv_ok. simpl. by destruct (j =? 0).
Qed.

(** The promise of [requiresDifferentAgentFrom], for predecessors in earlier
    stages. *)
Definition separated (p : Run) : Prop :=
  ∀ i s d pid s' agent,
    stages p !! i = Some s → pl_stages (definition p) !! i = Some d →
    pid ∈ default [] (st_requiresDifferentAgentFrom d) →
    find_stage (stages p) pid = Some s' → sr_stageIndex s' < i →
    sr_assignedAgentId s = Some agent → sr_assignedAgentId s' ≠ Some agent.

(** Assignments name agents by their canonical identifier. *)
Definition canonical_agents (c : call) : Prop :=
  match c with CAssign agentId _ => canonical agentId = true | _ => True end.

(** Only an assignment changes the agent of a stage, the current one. *)
Lemma stage_update_agent p now c i x y :
  stage_update p now c i x y → canonical_agents c →
  sr_stageIndex y = sr_stageIndex x ∧
  (sr_assignedAgentId y = sr_assignedAgentId x ∨
   i = currentStageIndex p ∧
   ∃ agentId roleId d, c = CAssign agentId roleId ∧ sr_assignedAgentId y = Some agentId ∧
     pl_stages (definition p) !! i = Some d ∧
     ∀ pid, pid ∈ default [] (st_requiresDifferentAgentFrom d) →
       (find_stage (stages p) pid ≫= sr_assignedAgentId) ≠ Some agentId).
Proof.
  destruct 1; simpl; auto. intros [Ht _]%canonical_spec. split; [done|]. right.
  split; [done|]. eexists _, _, d. rewrite Ht. eauto.
Qed.

Lemma separated_transition p c now p' :
  wf p → canonical_agents c → transition p now c p' → separated p → separated p'.
Proof.
  intros Hwf Hc Ht Hsep i y d pid y' agent Hy Hd Hpid Hf Hlt Ha Ha'.
  destruct (transition_frame _ _ _ _ Ht) as (Hact & _ & _ & _ & _ & [= _ _ _ _ _ Hdef _ _ _]).
  rewrite Hdef in Hd.
  destruct (find_stage_index _ (stages p) _ _ (transition_stageIds _ _ _ _ Ht) Hf)
    as (j & Hy' & Hfp).
  destruct (transition_lookup _ _ _ _ _ _ Ht Hy) as (x & Hx & Hu).
  destruct (transition_lookup _ _ _ _ _ _ Ht Hy') as (x' & Hx' & Hu').
  destruct (stage_update_agent _ _ _ _ _ _ Hu Hc) as [Hix Hup].
  destruct (stage_update_agent _ _ _ _ _ _ Hu' Hc) as [Hix' Hup'].
  rewrite Hx' in Hfp.
  assert (sr_stageIndex x' = j) as Hj by (by destruct (wf_stage _ Hwf _ _ Hx')).
  rewrite Hix', Hj in Hlt.
  destruct Hup as [Hup|(Hi & a & r & d' & -> & Hup & Hd' & Hchk)];
    destruct Hup' as [Hup'|(Hj' & a' & r' & d'' & Heq' & Hup' & _)].
  - rewrite Hup in Ha. rewrite Hup' in Ha'. refine (Hsep i x d pid x' agent Hx Hd Hpid Hfp _ Ha Ha'). lia.
  - rewrite Hup in Ha. destruct (wf_active_stage p i x Hwf Hact Hx) as (d0 & _ & Hinv & _ & _ & _ & Hp).
    rewrite (si_pending _ _ Hinv) in Ha; [done|]. apply Hp. lia.
  - simplify_eq. apply (Hchk pid Hpid). rewrite Hfp. simpl. congruence.
  - lia.
Qed.

(** *** Progress *)

Definition stage_progress (s : StageRun) : nat :=
  match sr_status s, sr_assignedAgentId s with
  | stage_awaiting_approval, _ => 2
  | stage_active, Some _ => 1
  | _, _ => 0
  end.

(** How many calls a run can still accept: at most an assignment, a
    completion and a decision per remaining stage. *)
Definition remaining (p : Run) : nat :=
  match status p with
  | run_active =>
      3 * (length (stages p) - currentStageIndex p)
      - match stages p !! currentStageIndex p with Some s => stage_progress s | None => 0 end
  | _ => 0
  end.

Lemma stage_progress_le s : stage_progress s ≤ 2.
Proof. unfold stage_progress. repeat case_match; lia. Qed.

Lemma remaining_finished p s s' d now :
  wf p → at_current p s d → remaining (finished p s' now) < remaining p.
Proof.
  intros Hwf [Ha Hs _ _]. pose proof (stage_progress_le s). pose proof (wf_index _ Hwf).
  unfold remaining at 2. rewrite Ha, Hs. unfold finished.
  case_match; unfold remaining; simpl; [|lia]. rewrite Ha, !length_insert.
  case_match; lia.
Qed.

Lemma remaining_touched p s s' d now :
  wf p → at_current p s d → stage_progress s < stage_progress s' →
  remaining (touched p s' now) < remaining p.
Proof.
  intros Hwf [Ha Hs _ _] Hp. pose proof (stage_progress_le s'). pose proof (wf_index _ Hwf).
  unfold remaining; simpl. rewrite Ha, Hs, length_insert, list_lookup_insert_eq by done. lia.
Qed.

Lemma remaining_active p : wf p → status p = run_active → 0 < remaining p.
Proof.
  intros Hwf Ha. destruct (wf_at_current p Hwf Ha) as (s & d & [_ Hs _ _] & _).
  pose proof (stage_progress_le s). pose proof (wf_index _ Hwf).
  unfold remaining. rewrite Ha, Hs. lia.
Qed.

Lemma remaining_transition p c now p' :
  wf p → transition p now c p' → remaining p' < remaining p.
Proof.
  intros Hwf. inversion 1 as [s d a Hat Hs Hn|s d a Hat Hs Hn|s d a Hat|s d a r Hat
    |s d a r Hat|s d o a r Hat|a Ha]; subst;
    eauto using remaining_finished, remaining_active, ac_active.
  - eapply remaining_touched; eauto. unfold stage_progress; simpl. rewrite Hs, Hn. lia.
  - eapply remaining_touched; eauto. unfold stage_progress; simpl. rewrite Hs, Hn. lia.
Qed.

(** *** Runs without overrides *)

Definition no_override (c : call) : Prop :=
  match c with COverride _ _ _ => False | _ => True end.

(** A completed stage went through its gates. *)
Definition gated (p : Run) : Prop :=
  ∀ i s d, stages p !! i = Some s → pl_stages (definition p) !! i = Some d →
    sr_status s = stage_completed →
    sr_assignedAgentId s ≠ None ∧
    (st_requiresApproval d = true →
     ∃ actor, sr_approvedBy s = Some actor ∧ sr_approvalDecision s = Some approved ∧
       (st_requiresIndependentApproval d = Some true → sr_assignedAgentId s ≠ Some actor)).

Lemma self_approval_false d s actor :
  self_approval d s actor = false → st_requiresIndependentApproval d = Some true →
  sr_assignedAgentId s ≠ Some actor.
Proof. unfold self_approval. repeat case_bool_decide; naive_solver. Qed.

Lemma gated_transition p c now p' :
  wf p → no_override c → transition p now c p' → gated p → gated p'.
Proof.
  intros Hwf Hc Ht Hg i y d Hy Hd Hs.
  pose proof (transition_wf _ _ _ _ Hwf Ht) as Hwf'.
  destruct (wf_stage _ Hwf' _ _ Hy) as (_ & _ & d0 & Hd0 & Hinv').
  destruct (transition_frame _ _ _ _ Ht) as (_ & _ & _ & _ & _ & [= _ _ _ _ _ Hdef _ _ _]).
  rewrite Hdef in Hd, Hd0. simplify_eq.
  destruct (transition_lookup _ _ _ _ _ _ Ht Hy) as (x & Hx & Hu).
  destruct Hu; simpl in *; try done.
  - eapply Hg; eauto.
  - destruct (transition_frame _ _ _ _ Ht) as (Hact & _).
    destruct (wf_active_stage p _ x Hwf Hact Hx) as (_ & _ & _ & _ & _ & Ho & _).
    rewrite Hs in Ho. by specialize (Ho (le_n _)).
  - simplify_eq. split; congruence.
  - destruct (wf_stage _ Hwf _ _ Hx) as (_ & _ & d1 & Hd1 & Hinv). simplify_eq.
    destruct (si_awaiting _ _ Hinv) as [Ha _]; [done|]. split; [done|]. intros _.
    eexists. split_and!; [done..|]. apply self_approval_false.
    by apply (si_independent _ _ Hinv').
Qed.

(** * Properties *)

(** C24: every call of the aggregate implements its specification on a
    well-formed run: it succeeds exactly when [transition] allows the call,
    with exactly the run [transition] names, and a call that throws leaves the
    run unchanged, although the code writes the current stage before
    [finishCurrent] and [rejectStage] write the rest. *)
Theorem run_call_refines p c now :
  wf p →
  (∀ p', run_call c now p = (Ok tt, p') ↔ transition p now c p') ∧
  (∀ e p', run_call c now p = (Throw e, p') → p' = p).
Proof.
  intros Hwf. destruct (run_call_decided p c now Hwf)
    as [([] & p1 & H1 & Ht & Hu)|(e & He & Hn)]; split; intros.
  - split; [congruence|]. intros Ht'. by rewrite (Hu _ Ht').
  - congruence.
  - split; [congruence|]. intros Ht'. by destruct (Hn p').
  - congruence.
Qed.

(** C39: the run invariant: whatever calls succeed on a created run, the stage
    runs stay aligned with the frozen definition, the stages before the
    current one are completed and those after it pending while the run is
    active, every stage of a completed run is completed, a stage awaiting
    approval has an agent and a definition that asks for approval, and no
    independently approved stage carries a decision of its own agent. *)
Theorem reachable_runs_well_formed ok p : reachable ok p → wf p.
Proof. apply reachable_wf. Qed.

(** Separation of duties: as long as assignments name agents by their
    canonical (trimmed) identifier, no stage is ever assigned to the agent of
    an earlier stage that its definition requires a different agent from. *)
Theorem agents_separated p : reachable canonical_agents p → separated p.
Proof.
  revert p. apply reachable_transition_ind.
  - intros input p Hc i s d pid s' a Hs _ _ _ _ Ha.
    destruct (create_unassigned _ _ _ _ Hc Hs) as [Hn _]. congruence.
  - intros p c now p' Hwf Hc Ht. by apply separated_transition with c now.
Qed.

(** Approval gates: in a run reached without overrides every completed
    stage had an assigned agent and, where its definition requires approval,
    an approving decision, whose actor is not the stage's agent if the
    approval must be independent. *)
Theorem completed_stages_gated p : reachable no_override p → gated p.
Proof.
  revert p. apply reachable_transition_ind.
  - intros input p Hc i s d Hs _ Hv. by destruct (create_unassigned _ _ _ _ Hc Hs).
  - intros p c now p' Hwf Hc Ht. by apply gated_transition with c now.
Qed.

(** A run terminates: from a well-formed run no more calls succeed in
    sequence than [remaining], at most three per stage that is left, and each
    of them increments the version by one. *)
Theorem run_calls_bounded l p p' :
  wf p → run_calls l p = (Ok tt, p') →
  length l ≤ remaining p ∧ remaining p ≤ 3 * length (stages p) ∧
  version p' = (version p + Z.of_nat (length l))%Z.
Proof.
  intros Hwf Hr. assert (remaining p ≤ 3 * length (stages p)) as Hb.
  { unfold remaining. destruct (status p); lia. }
  cut (length l ≤ remaining p ∧ version p' = (version p + Z.of_nat (length l))%Z);
    [naive_solver|]. clear Hb. revert p Hwf Hr.
  induction l as [|[c now] l IH]; intros p Hwf Hr; simpl in *.
  - unfold mret, action_ret in Hr. simplify_eq. lia.
  - apply action_bind_Ok in Hr as ([] & p1 & H1 & H2).
    apply run_call_transition in H1 as Ht; [|done].
    pose proof (remaining_transition _ _ _ _ Hwf Ht).
    destruct (transition_frame _ _ _ _ Ht) as (_ & Hv & _).
    destruct (IH p1) as [? ->]; [by eapply transition_wf|done|]. lia.
Qed.

(** A completed or cancelled run is final: every call is refused and
    changes nothing. *)
Theorem finished_run_final p c now :
  wf p → status p ≠ run_active → ∃ e, run_call c now p = (Throw e, p).
Proof.
  intros Hwf Hs. destruct (run_call_decided p c now Hwf) as [(a & p1 & _ & Ht & _)|(e & He & _)].
  - by destruct (transition_frame _ _ _ _ Ht).
  - eauto.
Qed.

(** ** Samples and witnesses *)

Definition sample_stage (sid : string) (separate : list string) : OfficePipelineStage :=
  {| st_id := sid; st_name := sid; st_roleId := "dev"; st_objective := "work"; st_checks := [];
     st_requiresApproval := true; st_requiresIndependentApproval := Some true;
     st_capabilities := None; st_requiresDifferentAgentFrom := Some separate |}.

Definition sample_pipeline : OfficePipeline :=
  {| pl_id := "p"; pl_name := "P"; pl_description := ""; pl_defaultFor := [];
     pl_enforcement := Some enforced;
     pl_stages := [sample_stage "build" []; sample_stage "review" ["build"]] |}.

Definition sample_input : create_input :=
  {| in_id := "r1"; in_projectId := "p1"; in_taskId := "t1"; in_manifestRevisionId := "m1";
     in_manifestRevision := 1; in_definition := sample_pipeline; in_startedBy := "owner";
     in_stageRunIds := ["s1"; "s2"]; in_configurationPin := None; in_now := Some 1%Z |}.

(** The run [calls] lead to from the sample, if all succeed. *)
Definition sample_run (calls : list (call * date)) : option Run :=
  match create sample_input with
  | Ok p => match run_calls calls p with (Ok _, p') => Some p' | _ => None end
  | Throw _ => None
  end.

Lemma run_calls_reachable ok l p p' :
  reachable ok p → Forall (λ c, ok c.1) l → run_calls l p = (Ok tt, p') → reachable ok p'.
Proof.
  intros Hp Hl. revert p Hp. induction Hl as [|[c now] l Hc _ IH]; intros p Hp Hr; simpl in *.
  - unfold mret, action_ret in Hr. by simplify_eq.
  - apply action_bind_Ok in Hr as ([] & p1 & H1 & H2). eapply IH; [|done].
    eapply reachable_step; [done|]. by exists c, now.
Qed.

Lemma sample_run_reachable ok calls p :
  Forall (λ c, ok c.1) calls → sample_run calls = Some p → reachable ok p.
Proof.
  unfold sample_run. destruct (create sample_input) as [p0|] eqn:Hc; [|done].
  destruct (run_calls calls p0) as [[[]|] p1] eqn:Hr; [|done]. intros Hok [= <-].
  eapply run_calls_reachable; [by econstructor|done|done].
Qed.

Definition sample_calls : list (call * date) :=
  [(CAssign "a" "dev", Some 2%Z); (CCompleteStage "a", Some 3%Z);
   (CApproveStage "b" None, Some 4%Z); (CAssign "b" "dev", Some 5%Z);
   (CCompleteStage "b", Some 6%Z); (CApproveStage " c " (Some " fine "), Some 7%Z)].

Lemma sample_calls_ok (ok : call → Prop) :
  (∀ c, canonical_agents c → no_override c → ok c) → Forall (λ c, ok c.1) sample_calls.
Proof. intros H. repeat constructor; by apply H. Qed.

Definition sample_final : Run := default
  {| id := ""; projectId := ""; taskId := ""; manifestRevisionId := ""; manifestRevision := 0;
     definition := sample_pipeline; status := run_cancelled; currentStageIndex := 0;
     stages := []; startedBy := ""; version := 0; createdAt := None; updatedAt := None;
     completedAt := None; cancelledAt := None; configurationPin := None |}
  (sample_run sample_calls).

Lemma sample_final_reachable (ok : call → Prop) :
  (∀ c, canonical_agents c → no_override c → ok c) → reachable ok sample_final.
Proof.
  intros H. apply (sample_run_reachable ok sample_calls); [by apply sample_calls_ok|].
  by vm_compute.
Qed.

Lemma run_call_refines_witness :
  wf sample_final ∧
  (∀ p', run_call (CCancel "x") None sample_final = (Ok tt, p') ↔
         transition sample_final None (CCancel "x") p') ∧
  (∀ e p', run_call (CCancel "x") None sample_final = (Throw e, p') → p' = sample_final).
Proof.
  assert (wf sample_final) as Hwf by by eapply reachable_wf, (sample_final_reachable (λ _, True)).
  split; [exact Hwf|exact (run_call_refines sample_final (CCancel "x") None Hwf)].
Defined.

Lemma reachable_runs_well_formed_witness :
  reachable (λ _, True) sample_final ∧ wf sample_final ∧ status sample_final = run_completed.
Proof.
  assert (reachable (λ _, True) sample_final) as Hr by by apply sample_final_reachable.
  split; [exact Hr|]. split; [exact (reachable_runs_well_formed _ _ Hr)|by vm_compute].
Defined.

Lemma agents_separated_witness :
  reachable canonical_agents sample_final ∧ separated sample_final ∧
  (sr_assignedAgentId <$> stages sample_final) = [Some "a"; Some "b"].
Proof.
  assert (reachable canonical_agents sample_final) as Hr by by apply sample_final_reachable.
  split; [exact Hr|]. split; [exact (agents_separated _ Hr)|by vm_compute].
Defined.

Lemma completed_stages_gated_witness :
  reachable no_override sample_final ∧ gated sample_final ∧
  (sr_approvedBy <$> stages sample_final) = [Some "b"; Some "c"].
Proof.
  assert (reachable no_override sample_final) as Hr by by apply sample_final_reachable.
  split; [exact Hr|]. split; [exact (completed_stages_gated _ Hr)|by vm_compute].
Defined.

Lemma run_calls_bounded_witness :
  ∃ p p', create sample_input = Ok p ∧ wf p ∧ run_calls sample_calls p = (Ok tt, p') ∧
    length sample_calls ≤ remaining p ∧ remaining p ≤ 3 * length (stages p) ∧
    version p' = (version p + 6)%Z.
Proof.
  destruct (create sample_input) as [p|e] eqn:Hc; [|by vm_compute in Hc].
  assert (wf p) as Hwf by by eapply create_wf.
  destruct (run_calls sample_calls p) as [[[]|e] p'] eqn:Hr.
  - exists p, p'. split; [done|]. split; [done|]. split; [done|].
    exact (run_calls_bounded sample_calls p p' Hwf Hr).
  - exfalso. vm_compute in Hc. injection Hc as <-. by vm_compute in Hr.
Defined.

Lemma finished_run_final_witness :
  wf sample_final ∧ status sample_final ≠ run_active ∧
  ∃ e, run_call (COverride "o" "x" "late") None sample_final = (Throw e, sample_final).
Proof.
  assert (wf sample_final) as Hwf by by eapply reachable_wf, (sample_final_reachable (λ _, True)).
  assert (status sample_final ≠ run_active) as Hs by by vm_compute.
  split; [exact Hwf|]. split; [exact Hs|]. exact (finished_run_final _ _ _ Hwf Hs).
Defined.

(** The agent of an assignment is compared before it is trimmed and stored
    after, so an identifier with surrounding white space takes a stage from
    which its own earlier stage separates it. *)
Theorem padded_agent_bypasses_separation :
  ∃ p, sample_run
         [(CAssign "a" "dev", Some 2%Z); (CCompleteStage "a", Some 3%Z);
          (CApproveStage "b" None, Some 4%Z); (CAssign "a " "dev", Some 5%Z)] = Some p ∧
    reachable (λ _, True) p ∧ ¬ separated p ∧
    (sr_assignedAgentId <$> stages p) = [Some "a"; Some "a"].
Proof.
  destruct (sample_run _) as [p|] eqn:Hp; [|by vm_compute in Hp]. exists p.
  split; [done|]. split; [eapply sample_run_reachable; [|exact Hp]; by repeat constructor|].
  vm_compute in Hp. injection Hp as <-. split; [|done]. intros Hsep.
  by eapply (Hsep 1 _ _ "build" _ "a"); [done|done|by left|done|simpl; lia|done|].
Qed.

End PipelineRun.
