(* ===== verification/Json.v ===== *)
(** JavaScript values as the capability code receives them and the canonical
    JSON it turns them into.  Models
    [packages/domain/src/capability/canonical-json.ts] and
    [packages/domain/src/capability/sensitive-fields.ts]; the printing of a
    number is a parameter, given by the class [ShowNumber]. *)
From S2P Require Import Prelude Errors.
#[local] Set Warnings "-register-all".

Module Canonical.

#[local] Arguments String.append : simpl nomatch.

(** * Data *)

(** An element of an array: a hole, an accessor or non-enumerable element, or
    a plain value. *)
Inductive slot (A : Type) := hole | guarded | plain (a : A).
Arguments hole {A}.
Arguments guarded {A}.
Arguments plain {A} a.

(** A value of type [unknown].  An array or object carries its identity, by
    which [normalize] recognises an ancestor: a cyclic value is given by an
    unfolding that goes round each of its cycles, and what lies below a
    repeated identity is never read.  [symbols] says whether the object has
    own symbol keys, [extra] lists the own names of an array besides its
    elements and [length], and [plainProto] says whether the prototype is
    [Object.prototype] or [null].  The properties are in own-key order; one
    that is [guarded] is an accessor or not enumerable. *)
Inductive js :=
| JNull
| JUndefined
| JBool (b : bool)
| JNum (n : number)
| JStr (s : string)
| JTypeof (kind : string)
| JArr (id : nat) (symbols : bool) (extra : list string) (items : list (slot js))
| JObj (id : nat) (plainProto symbols : bool) (props : list (string * slot js)).

(** [CanonicalJsonValue], the members of an object in own-key order. *)
Inductive cjson :=
| CNull
| CBool (b : bool)
| CNum (n : number)
| CStr (s : string)
| CArr (items : list cjson)
| CObj (members : list (string * cjson)).

(** Induction over the values inside arrays and objects. *)
Section cjson_ind.
  Context (P : cjson → Prop).
  Context (Hnull : P CNull) (Hbool : ∀ b, P (CBool b)) (Hnum : ∀ n, P (CNum n))
    (Hstr : ∀ s, P (CStr s)) (Harr : ∀ l, Forall P l → P (CArr l))
    (Hobj : ∀ l, Forall (λ m, P m.2) l → P (CObj l)).

Fixpoint cjson_nested_ind (v : cjson) : P v :=
  match v with
  | CNull => Hnull
  | CBool b => Hbool b
  | CNum n => Hnum n
  | CStr s => Hstr s
  | CArr l => Harr l
      ((fix go l : Forall P l :=
          match l with
          | [] => @List.Forall_nil _ _
          | v :: l => @List.Forall_cons _ _ v l (cjson_nested_ind v) (go l)
          end) l)
  | CObj l => Hobj l
      ((fix go l : Forall (λ m, P m.2) l :=
          match l with
          | [] => @List.Forall_nil _ _
          | m :: l => @List.Forall_cons _ _ m l (cjson_nested_ind m.2) (go l)
          end) l)
  end.

End cjson_ind.

(** * Operations *)

Definition forbiddenObjectKeys : list string := ["__proto__"; "constructor"; "prototype"].

(** The number a string of decimal digits denotes. *)
Definition digits_value (s : string) : Z :=
  foldl (λ z c, 10 * z + Z.of_nat (Ascii.nat_of_ascii c - 48))%Z 0%Z
    (String.list_ascii_of_string s).

(** The regular expression for zero or digits without a leading zero. *)
Definition is_decimal (s : string) : bool :=
  match s with
  | EmptyString => false
  | String c s' => if Ascii.nat_of_ascii c =? 48 then bool_decide (s' = "") else is_digit c && string_all is_digit s'
  end.

(** The ECMAScript array indices: canonical decimals below 4294967295. *)
Definition is_array_index (s : string) : bool :=
  is_decimal s && (digits_value s <? 4294967295)%Z.

Definition compare_key {A} (x y : string * A) : Z := compare_text x.1 y.1.
Definition compare_index {A} (x y : string * A) : Z := (digits_value x.1 - digits_value y.1)%Z.

(** The own-key order of an object to which [l] was added in order: array
    indices ascending, then the other keys as they were added. *)
Definition own_order {A} (l : list (string * A)) : list (string * A) :=
  sort_by compare_index (filter (λ p, is_array_index p.1 = true) l) ++
  filter (λ p, is_array_index p.1 = false) l.

Definition cyclic_error (path : string) : error :=
  CanonicalSerializationError path "cyclic references are forbidden".

Definition element_path (path : string) (index : nat) : string :=
  path +:+ "[" +:+ show_Z (Z.of_nat index) +:+ "]".

Definition member_path (path key : string) : string := path +:+ "." +:+ key.

(** The loop over the own names of an array. *)
Fixpoint check_array_names (path : string) (length : nat) (names : list string) : outcome unit :=
  match names with
  | [] => Ok tt
  | key :: rest =>
      throw_if (negb (is_decimal key) || (Z.of_nat length <=? digits_value key)%Z)
        (CanonicalSerializationError (member_path path key)
           "additional array properties are forbidden");;
      check_array_names path length rest
  end.

(** The loop over the sorted own names of an object, each with what
    [normalize] returns for its value. *)
Fixpoint collect_members (path : string) (l : list (string * slot (outcome cjson)))
    : outcome (list (string * cjson)) :=
  match l with
  | [] => Ok []
  | (key, descriptor) :: rest =>
      match descriptor with
      | plain r =>
          throw_if (includes key forbiddenObjectKeys)
            (CanonicalSerializationError (member_path path key)
               "prototype-sensitive keys are forbidden");;
          v ← r;
          vs ← collect_members path rest;
          Ok ((key, v) :: vs)
      | _ => Throw (CanonicalSerializationError (member_path path key)
               "accessor and non-enumerable properties are forbidden")
      end
  end.

Definition slot_map {A B} (f : A → B) (s : slot A) : slot B :=
  match s with hole => hole | guarded => guarded | plain a => plain (f a) end.

(** The loop over the elements of an array; [f] normalizes a value at a path. *)
Definition normalize_elements (f : js → string → outcome cjson) (path : string) :=
  fix elements (index : nat) (l : list (slot js)) : outcome (list cjson) :=
    match l with
    | [] => Ok []
    | hole :: _ => Throw (CanonicalSerializationError (element_path path index)
                            "sparse arrays are forbidden")
    | guarded :: _ => Throw (CanonicalSerializationError (element_path path index)
                               "array accessors are forbidden")
    | plain v :: rest =>
        v' ← f v (element_path path index);
        vs ← elements (S index) rest;
        Ok (v' :: vs)
    end.

Fixpoint normalize (value : js) (path : string) (ancestors : list nat) : outcome cjson :=
  match value with
  | JNull => Ok CNull
  | JStr s => Ok (CStr s)
  | JBool b => Ok (CBool b)
  | JNum n =>
      throw_if (negb (is_finite n))
        (CanonicalSerializationError path "non-finite numbers are forbidden");;
      Ok (CNum (if decide (n = NNegZero) then NInt 0 else n))
  | JUndefined => Throw (CanonicalSerializationError path "undefined is forbidden")
  | JTypeof kind =>
      Throw (CanonicalSerializationError path (kind +:+ " values are forbidden"))
  | JArr id symbols extra items =>
      throw_if (includes id ancestors) (cyclic_error path);;
      throw_if symbols (CanonicalSerializationError path "symbol array properties are forbidden");;
      check_array_names path (length items) extra;;
      normalized ←
        normalize_elements (λ v p, normalize v p (id :: ancestors)) path 0 items;
      Ok (CArr normalized)
  | JObj id plainProto symbols props =>
      throw_if (includes id ancestors) (cyclic_error path);;
      throw_if (negb plainProto)
        (CanonicalSerializationError path "only plain objects are supported");;
      throw_if symbols (CanonicalSerializationError path "symbol keys are forbidden");;
      normalized ← collect_members path (sort_by compare_key
        (map (λ p, (p.1, slot_map (λ v, normalize v (member_path path p.1) (id :: ancestors)) p.2))
           props));
      Ok (CObj (own_order normalized))
  end.

Definition normalizeCanonicalJson (value : js) : outcome cjson := normalize value "$" [].

(** ** [JSON.stringify] *)

(** [Number::toString], which the development does not define. *)
Class ShowNumber := show_number : number → string.

Definition dquote : Ascii.ascii := Ascii.ascii_of_nat 34.
Definition backslash : Ascii.ascii := Ascii.ascii_of_nat 92.

Definition hex_digit (n : nat) : Ascii.ascii :=
  Ascii.ascii_of_nat (if n <? 10 then 48 + n else 87 + n).

(** [QuoteJSONString] on one code unit. *)
Definition escape_char (c : Ascii.ascii) : string :=
  match Ascii.nat_of_ascii c with
  | 8 => String backslash "b"
  | 9 => String backslash "t"
  | 10 => String backslash "n"
  | 12 => String backslash "f"
  | 13 => String backslash "r"
  | 34 => String backslash (String dquote "")
  | 92 => String backslash (String backslash "")
  | n => if n <? 32
         then String backslash (String (Ascii.ascii_of_nat 117) (String (Ascii.ascii_of_nat 48) (String (Ascii.ascii_of_nat 48)
                (String (hex_digit (n / 16)) (String (hex_digit (n mod 16)) "")))))
         else String c ""
  end.

Fixpoint escape (s : string) : string :=
  match s with EmptyString => "" | String c s' => escape_char c +:+ escape s' end.

Definition quote (s : string) : string := String dquote (escape s +:+ String dquote "").

Section stringify.
  Context `{ShowNumber}.

Fixpoint stringify (v : cjson) : string :=
  match v with
  | CNull => "null"
  | CBool b => if b then "true" else "false"
  | CNum n => show_number n
  | CStr s => quote s
  | CArr items => "[" +:+ join "," (map stringify items) +:+ "]"
  | CObj members =>
      "{" +:+ join "," (map (λ p, quote p.1 +:+ ":" +:+ stringify p.2) members) +:+ "}"
  end.

Definition canonicalStringify (value : js) : outcome string :=
  v ← normalizeCanonicalJson value; Ok (stringify v).

End stringify.

(** ** Sensitive field names *)

Definition sensitiveFieldNames : list string :=
  ["apikey"; "authorization"; "credential"; "credentialref"; "credentials"; "password";
   "secret"; "token"].

(** [toLowerCase] on a code unit below U+0100. *)
Definition lower (c : Ascii.ascii) : Ascii.ascii :=
  let n := Ascii.nat_of_ascii c in
  if is_upper c || ((192 <=? n) && (n <=? 222) && negb (n =? 215))
  then Ascii.ascii_of_nat (n + 32) else c.

Fixpoint normalizeSensitiveFieldKey (key : string) : string :=
  match key with
  | EmptyString => ""
  | String c rest =>
      let c' := lower c in
      if is_lower c' || is_digit c' then String c' (normalizeSensitiveFieldKey rest)
      else normalizeSensitiveFieldKey rest
  end.

Definition isSensitiveFieldKey (key : string) : bool :=
  includes (normalizeSensitiveFieldKey key) sensitiveFieldNames.

(** The loops of [assertNoSensitiveFields]. *)
Definition check_elements (f : cjson → string → outcome unit) (path : string) :=
  fix elements (index : nat) (l : list cjson) : outcome unit :=
    match l with
    | [] => Ok tt
    | v :: rest => f v (element_path path index);; elements (S index) rest
    end.

Definition check_entries (f : cjson → string → outcome unit) (path : string) :=
  fix entries (l : list (string * cjson)) : outcome unit :=
    match l with
    | [] => Ok tt
    | (key, v) :: rest =>
        throw_if (isSensitiveFieldKey key)
          (CapabilityValidationError (path +:+ " cannot contain sensitive field " +:+ key));;
        f v (member_path path key);;
        entries rest
    end.

(** On a JSON value, whose arrays have no holes and whose properties are all
    enumerable data. *)
Fixpoint assertNoSensitiveFields (value : cjson) (path : string) : outcome unit :=
  match value with
  | CArr items => check_elements assertNoSensitiveFields path 0 items
  | CObj members => check_entries assertNoSensitiveFields path members
  | _ => Ok tt
  end.

(** Some object in the value has a key that satisfies [p]. *)
Fixpoint has_key (p : string → bool) (value : cjson) : bool :=
  match value with
  | CArr items => existsb (has_key p) items
  | CObj members => existsb (λ m, p m.1 || has_key p m.2) members
  | _ => false
  end.

(** ** Canonical values *)

Definition canonical_number (n : number) : bool :=
  is_finite n && negb (bool_decide (n = NNegZero)).

(** Every number is a canonical one. *)
Fixpoint plain_numbers (value : cjson) : bool :=
  match value with
  | CNum n => canonical_number n
  | CArr items => forallb plain_numbers items
  | CObj members => forallb (λ m, plain_numbers m.2) members
  | _ => true
  end.

(** What [normalizeCanonicalJson] promises of its result. *)
Fixpoint canonical_json (value : cjson) : bool :=
  match value with
  | CNum n => canonical_number n
  | CArr items => forallb canonical_json items
  | CObj members =>
      bool_decide (NoDup members.*1) &&
      bool_decide ((own_order (sort_by compare_key members)).*1 = members.*1) &&
      forallb (λ m, negb (includes m.1 forbiddenObjectKeys) && canonical_json m.2) members
  | _ => true
  end.

(** The same value as an ordinary JavaScript value: one identity per depth. *)
Fixpoint embed (depth : nat) (value : cjson) : js :=
  match value with
  | CNull => JNull
  | CBool b => JBool b
  | CNum n => JNum n
  | CStr s => JStr s
  | CArr items => JArr depth false [] (map (λ v, plain (embed (S depth) v)) items)
  | CObj members =>
      JObj depth true false (map (λ m, (m.1, plain (embed (S depth) m.2))) members)
  end.

(** * Lemmas *)

#[export] Instance compare_key_comparator {A} : Comparator (@compare_key A).
Proof.
  split; unfold compare_key.
  - intros x y. apply (cmp_total (cmp := compare_text)).
  - intros x y z. apply (cmp_trans (cmp := compare_text)).
Qed.

#[export] Instance compare_index_comparator {A} : Comparator (@compare_index A).
Proof. split; unfold compare_index; lia. Qed.

Lemma sort_key_perm {A} (l l' : list (string * A)) :
  NoDup l.*1 → l ≡ₚ l' → sort_by compare_key l = sort_by compare_key l'.
Proof.
  intros Hnd Hp. apply sort_by_perm_eq; [apply _|done|].
  intros x y Hx Hy H1 H2. apply (NoDup_keys_inj l); [done..|].
  by apply compare_text_antisym.
Qed.

Lemma own_order_perm {A} (l : list (string * A)) : own_order l ≡ₚ l.
Proof.
  unfold own_order. rewrite sort_by_perm. apply (filter_bool_partition (λ p, is_array_index p.1)).
Qed.

(** *** Normalization *)

(** Induction over the values inside arrays and objects. *)
Section js_ind.
  Context (P : js → Prop).

Definition slot_holds (s : slot js) : Prop :=
  match s with plain v => P v | _ => True end.

  Context (Hnull : P JNull) (Hundef : P JUndefined) (Hbool : ∀ b, P (JBool b))
    (Hnum : ∀ n, P (JNum n)) (Hstr : ∀ s, P (JStr s)) (Htype : ∀ k, P (JTypeof k))
    (Harr : ∀ id sym extra l, Forall slot_holds l → P (JArr id sym extra l))
    (Hobj : ∀ id pl sym l, Forall (λ m, slot_holds m.2) l → P (JObj id pl sym l)).

Fixpoint js_nested_ind (v : js) : P v :=
  let slot_ind (s : slot js) : slot_holds s :=
    match s with plain v => js_nested_ind v | hole => I | guarded => I end in
  match v with
  | JNull => Hnull
  | JUndefined => Hundef
  | JBool b => Hbool b
  | JNum n => Hnum n
  | JStr s => Hstr s
  | JTypeof k => Htype k
  | JArr id sym extra l => Harr id sym extra l
      ((fix go l : Forall slot_holds l :=
          match l with
          | [] => @List.Forall_nil _ _
          | s :: l => @List.Forall_cons _ _ s l (slot_ind s) (go l)
          end) l)
  | JObj id pl sym l => Hobj id pl sym l
      ((fix go l : Forall (λ m, slot_holds m.2) l :=
          match l with
          | [] => @List.Forall_nil _ _
          | m :: l => @List.Forall_cons _ _ m l (slot_ind m.2) (go l)
          end) l)
  end.

End js_ind.

Lemma normalize_elements_Forall f path i l vs (Q : cjson → Prop) :
  normalize_elements f path i l = Ok vs →
  Forall (slot_holds (λ v, ∀ p c, f v p = Ok c → Q c)) l → Forall Q vs.
Proof.
  revert i vs. induction l as [|x l IH]; intros i vs; simpl.
  - intros [= <-] _. constructor.
  - destruct x as [| |v]; [done..|]. intros H [Hv Hl]%Forall_cons. inv_ok.
    constructor; eauto.
Qed.

Lemma normalize_elements_total f path i (g : cjson → js) l :
  Forall (λ v, ∀ p, f (g v) p = Ok v) l →
  normalize_elements f path i (map (λ v, plain (g v)) l) = Ok l.
Proof.
  intros Hl. revert i. induction Hl as [|v l Hv _ IH]; intros i; simpl; [done|].
  by rewrite Hv, IH.
Qed.

Lemma collect_members_Ok path l vs :
  collect_members path l = Ok vs →
  Forall2 (λ x y, x.1 = y.1 ∧ x.2 = plain (Ok y.2) ∧ y.1 ∉ forbiddenObjectKeys) l vs.
Proof.
  revert vs. induction l as [|[k d] l IH]; intros vs; simpl; [intros [= <-]; constructor|].
  destruct d as [| |r]; [done..|]. rewrite throw_if_bind_Ok. intros [Hk%includes_false H].
  inv_ok. constructor; [done|]. by apply IH.
Qed.

Lemma collect_members_total path l :
  Forall (λ m, m.1 ∉ forbiddenObjectKeys) l →
  collect_members path (prod_map id (λ v, plain (Ok v)) <$> l) = Ok l.
Proof.
  induction 1 as [|[k v] l Hk _ IH]; [done|]. rewrite fmap_cons. simpl in *.
  rewrite (proj2 (includes_false k _) Hk); simpl. by rewrite IH.
Qed.

(** Every object reachable in the value has unique property names, as objects do. *)
Fixpoint unique_names (value : js) : bool :=
  match value with
  | JArr _ _ _ items =>
      forallb (λ x, match x with plain v => unique_names v | _ => true end) items
  | JObj _ _ _ props =>
      bool_decide (NoDup props.*1) &&
      forallb (λ m, match m.2 with plain v => unique_names v | _ => true end) props
  | _ => true
  end.

Lemma Forall_forallb {A} (p : A → bool) l : forallb p l = true ↔ Forall (λ x, p x = true) l.
Proof. rewrite List.forallb_forall, List.Forall_forall. done. Qed.

Lemma own_order_canonical (l : list (string * cjson)) :
  NoDup l.*1 → StronglySorted (cmp_le compare_key) l →
  own_order (sort_by compare_key (own_order l)) = own_order l.
Proof.
  intros Hnd Hs. f_equal. rewrite <-(sort_key_perm l) by (done || by rewrite own_order_perm).
  by apply sort_by_id.
Qed.

Lemma sorted_same_keys {A B} (l : list (string * A)) (l' : list (string * B)) :
  Forall2 (λ x y, x.1 = y.1) l l' →
  StronglySorted (cmp_le compare_key) l → StronglySorted (cmp_le compare_key) l'.
Proof.
  induction 1 as [|x y l l' Hxy Hl IH]; intros Hs; [constructor|].
  apply StronglySorted_cons in Hs as [Hx Hs]. constructor; [by apply IH|].
  clear -Hxy Hl Hx. revert Hx. induction Hl as [|z w l l' Hzw _ IH]; intros Hx; [constructor|].
  apply Forall_cons in Hx as [Hz Hx]. constructor; [|by apply IH].
  unfold cmp_le, compare_key in *. congruence.
Qed.

(** The members of a normalized object, before they are put in own-key order. *)
Lemma collect_sorted_Ok path (l : list (string * slot (outcome cjson))) vs :
  NoDup l.*1 → collect_members path (sort_by compare_key l) = Ok vs →
  NoDup vs.*1 ∧ StronglySorted (cmp_le compare_key) vs ∧
  ∀ m, m ∈ vs → (m.1, plain (Ok m.2)) ∈ l ∧ m.1 ∉ forbiddenObjectKeys.
Proof.
  intros Hnd Hc%collect_members_Ok.
  assert (Forall2 (λ x y, x.1 = y.1) (sort_by compare_key l) vs) as Hk
    by (eapply Forall2_impl; [exact Hc|naive_solver]).
  split; [|split].
  - replace (vs.*1) with ((sort_by compare_key l).*1); [by rewrite sort_by_perm|].
    clear -Hk. by induction Hk; simpl; [|f_equal].
  - eapply sorted_same_keys; [exact Hk|]. apply sort_by_sorted, _.
  - intros m Hm. apply list_elem_of_lookup in Hm as [i Hm].
    destruct (Forall2_lookup_r _ _ _ _ _ Hc Hm) as ([k d] & Hd & Hkd & Hr & Hf).
    simpl in *. subst. split; [|done].
    apply (sort_by_elem_of compare_key). by eapply list_elem_of_lookup_2.
Qed.

Lemma normalize_canonical v :
  ∀ path anc c, unique_names v = true → normalize v path anc = Ok c → canonical_json c = true.
Proof.
  induction v as [| |b|n|s|k|id sym extra l IH|id pl sym l IH] using js_nested_ind;
    intros path anc c Hu Hc; simpl in *; rewrite ?throw_if_bind_Ok in Hc; inv_ok; try done.
  - destruct Hc as [Hn%negb_false_iff [= <-]]. case_decide; simpl; [done|].
    unfold canonical_number. by rewrite Hn, bool_decide_eq_false_2.
  - destruct Hc as (_ & _ & H). inv_ok. simpl. apply Forall_forallb.
    eapply normalize_elements_Forall; [done|]. apply Forall_forallb in Hu.
    eapply Forall_impl; [apply Forall_and; split; [exact IH|exact Hu]|].
    intros [| |w] [Hw Huw]; simpl in *; eauto.
  - apply andb_true_iff in Hu as [Hnd%bool_decide_eq_true Hu%Forall_forallb].
    destruct Hc as (_ & _ & _ & H). apply bind_Ok in H as (vs & H & [= <-]).
    apply collect_sorted_Ok in H as (Hnd' & Hs & Hin); [|by rewrite <-list_fmap_compose].
    simpl. rewrite !andb_true_iff, !bool_decide_eq_true, Forall_forallb.
    split; [split; [by rewrite own_order_perm|by rewrite own_order_canonical]|].
    apply Forall_forall. intros m Hm. rewrite own_order_perm in Hm.
    destruct (Hin m Hm) as [Hl Hf]. destruct m as [k0 v0]; simpl in *.
    apply andb_true_iff; split; [by apply negb_true_iff, includes_false|].
    apply list_elem_of_fmap in Hl as ([k d] & [= -> Hd] & Hl).
    rewrite Forall_forall in IH, Hu. specialize (IH _ Hl). specialize (Hu _ Hl).
    destruct d as [| |w]; try done. simpl in *. injection Hd as Hd. eauto.
Qed.

(** *** Normalizing a canonical value again *)

Lemma normalize_embed c :
  ∀ depth path anc, canonical_json c = true → (∀ a, a ∈ anc → a < depth) →
    normalize (embed depth c) path anc = Ok c.
Proof.
  induction c as [|b|n|s|l IH|l IH] using cjson_nested_ind; intros depth path anc Hc Ha;
    simpl in *; try done.
  - apply andb_true_iff in Hc as [-> Hn%negb_true_iff%bool_decide_eq_false]. simpl.
    by rewrite decide_False.
  - assert (includes depth anc = false) as -> by (apply includes_false; intros ?%Ha; lia).
    simpl. rewrite normalize_elements_total; [done|]. apply Forall_forallb in Hc.
    eapply Forall_impl; [apply Forall_and; split; [exact IH|exact Hc]|].
    intros v [Hv Hcv] p. apply Hv; [done|]. intros a [->|?%Ha]%elem_of_cons; lia.
  - assert (includes depth anc = false) as -> by (apply includes_false; intros ?%Ha; lia).
    rewrite !andb_true_iff, !bool_decide_eq_true in Hc.
    destruct Hc as [[Hnd Hk] Hm%Forall_forallb]. simpl.
    assert (map (λ p, (p.1, slot_map
      (λ v, normalize v (member_path path p.1) (depth :: anc)) p.2))
      (map (λ m, (m.1, plain (embed (S depth) m.2))) l) =
      prod_map id (λ v, plain (Ok v)) <$> l) as ->.
    { rewrite List.map_map. apply List.map_ext_Forall.
      eapply Forall_impl; [apply Forall_and; split; [exact IH|exact Hm]|].
      intros [k v] [Hv [_ Hcv]%andb_true_iff]; simpl in *. rewrite Hv; [done|done|].
      intros a [->|?%Ha]%elem_of_cons; lia. }
    rewrite (sort_by_fmap compare_key compare_key) by done.
    rewrite collect_members_total; simpl.
    + do 2 f_equal. symmetry. apply keys_determine; [done| |done].
      by rewrite own_order_perm, sort_by_perm.
    + apply Forall_forall. intros m Hin. rewrite sort_by_elem_of in Hin.
      rewrite Forall_forall in Hm. specialize (Hm _ Hin).
      apply andb_true_iff in Hm as [Hm%negb_true_iff _]. by apply includes_false in Hm.
Qed.

(** *** Reordered properties *)

(** [w] is [v] with the properties of one of its objects in another order. *)
Inductive reordered : js → js → Prop :=
| reordered_here id pl sym ps ps' :
    NoDup ps.*1 → ps ≡ₚ ps' → reordered (JObj id pl sym ps) (JObj id pl sym ps')
| reordered_element id sym extra l1 v w l2 :
    reordered v w →
    reordered (JArr id sym extra (l1 ++ plain v :: l2)) (JArr id sym extra (l1 ++ plain w :: l2))
| reordered_property id pl sym l1 k v w l2 :
    reordered v w →
    reordered (JObj id pl sym (l1 ++ (k, plain v) :: l2))
              (JObj id pl sym (l1 ++ (k, plain w) :: l2)).

Lemma normalize_elements_ext f path i l1 v w l2 :
  (∀ p, f v p = f w p) →
  normalize_elements f path i (l1 ++ plain v :: l2) =
  normalize_elements f path i (l1 ++ plain w :: l2).
Proof.
  intros H. revert i. induction l1 as [|[| |x] l1 IH]; intros i; simpl; try done.
  - by rewrite H.
  - by rewrite IH.
Qed.

Lemma normalize_reordered v w :
  reordered v w → ∀ path anc, normalize v path anc = normalize w path anc.
Proof.
  induction 1 as [id pl sym ps ps' Hnd Hp|id sym extra l1 v w l2 _ IH|id pl sym l1 k v w l2 _ IH];
    intros path anc; simpl.
  - rewrite (sort_key_perm _ (map (λ p, (p.1, slot_map
      (λ v, normalize v (member_path path p.1) (id :: anc)) p.2)) ps')); [done| |].
    + by rewrite <-list_fmap_compose.
    + by apply fmap_Permutation.
  - rewrite !length_app; simpl.
    by rewrite (normalize_elements_ext _ _ _ _ v w) by done.
  - rewrite !map_app; simpl. by rewrite IH.
Qed.

(** *** The printed form determines the value *)

(** Every number prints as a non-empty string of number characters, and
    different canonical numbers print differently. *)
Definition number_chars : string := "0123456789+-.e".

Class ShowNumberLaws `{ShowNumber} : Prop := {
  show_number_chars n : string_all (one_of number_chars) (show_number n) = true;
  show_number_nonempty n : show_number n ≠ "";
  show_number_inj n m :
    canonical_number n = true → canonical_number m = true →
    show_number n = show_number m → n = m
}.

Definition delimiters : string := ",]}".

(** What follows a value in a JSON text: nothing, or a delimiter. *)
Definition closing (r : string) : Prop :=
  match r with EmptyString => True | String c _ => one_of delimiters c = true end.

Lemma string_app_assoc (a b c : string) : (a +:+ b) +:+ c = a +:+ (b +:+ c).
Proof. induction a as [|x a IH]; [done|]. apply (f_equal (String x) IH). Qed.

Lemma delimiter_not_number c : one_of delimiters c = true → one_of number_chars c = false.
Proof. by destruct c as [[] [] [] [] [] [] [] []]. Qed.

Lemma number_chars_inj a b r1 r2 :
  string_all (one_of number_chars) a = true → string_all (one_of number_chars) b = true →
  closing r1 → closing r2 → a +:+ r1 = b +:+ r2 → a = b ∧ r1 = r2.
Proof.
  revert b. induction a as [|c a IH]; intros [|d b]; simpl; intros Ha Hb H1 H2 Heq.
  - done.
  - subst r1. simpl in H1. apply delimiter_not_number in H1. by rewrite H1 in Hb.
  - subst r2. simpl in H2. apply delimiter_not_number in H2. by rewrite H2 in Ha.
  - injection Heq as -> Heq. apply andb_true_iff in Ha as [_ Ha], Hb as [_ Hb].
    by destruct (IH b Ha Hb H1 H2 Heq) as [-> ->].
Qed.

Definition hex_value (c : Ascii.ascii) : nat :=
  let n := Ascii.nat_of_ascii c in if n <? 58 then n - 48 else n - 87.

(** Reads back one escaped code unit. *)
Definition unescape_char (s : string) : option (Ascii.ascii * string) :=
  match s with
  | EmptyString => None
  | String c s' =>
      if Ascii.eqb c dquote then None
      else if Ascii.eqb c backslash then
        match s' with
        | String d r =>
            match Ascii.nat_of_ascii d with
            | 98 => Some (Ascii.ascii_of_nat 8, r)
            | 116 => Some (Ascii.ascii_of_nat 9, r)
            | 110 => Some (Ascii.ascii_of_nat 10, r)
            | 102 => Some (Ascii.ascii_of_nat 12, r)
            | 114 => Some (Ascii.ascii_of_nat 13, r)
            | 117 => match r with
                     | String _ (String _ (String h (String l r'))) =>
                         Some (Ascii.ascii_of_nat (16 * hex_value h + hex_value l), r')
                     | _ => None
                     end
            | _ => Some (d, r)
            end
        | EmptyString => None
        end
      else Some (c, s')
  end.

Lemma unescape_escape c r : unescape_char (escape_char c +:+ r) = Some (c, r).
Proof. by destruct c as [[] [] [] [] [] [] [] []]. Qed.

Lemma escape_inj s1 s2 r1 r2 :
  escape s1 +:+ String dquote r1 = escape s2 +:+ String dquote r2 → s1 = s2 ∧ r1 = r2.
Proof.
  revert s2. induction s1 as [|c s1 IH]; intros [|d s2]; simpl; rewrite ?string_app_assoc;
    intros Heq; try (apply (f_equal unescape_char) in Heq; by rewrite unescape_escape in Heq).
  - by injection Heq.
  - apply (f_equal unescape_char) in Heq. rewrite !unescape_escape in Heq.
    injection Heq as -> Heq. by destruct (IH _ Heq) as [-> ->].
Qed.

Lemma quote_inj s1 s2 r1 r2 : quote s1 +:+ r1 = quote s2 +:+ r2 → s1 = s2 ∧ r1 = r2.
Proof.
  unfold quote; simpl. rewrite !string_app_assoc. intros [= Heq]. by apply escape_inj.
Qed.

(** A comma-separated sequence of uniquely readable items is uniquely readable. *)
Section join_inj.
  Context {A : Type} (e : A → string) (close : Ascii.ascii).
  Context (Hclose : one_of delimiters close = true) (Hcomma : close ≠ Ascii.ascii_of_nat 44).

Definition rest_of (l : list A) (r : string) : string :=
  match l with [] => String close r | _ => "," +:+ join "," (map e l) +:+ String close r end.

Lemma join_cons x l r :
  join "," (map e (x :: l)) +:+ String close r = e x +:+ rest_of l r.
Proof. destruct l; [done|]. simpl. by rewrite !string_app_assoc. Qed.

Lemma rest_of_closing l r : closing (rest_of l r).
Proof. by destruct l. Qed.

Lemma join_inj (l1 l2 : list A) r1 r2 :
  (∀ x y s1 s2, x ∈ l1 → y ∈ l2 → closing s1 → closing s2 →
     e x +:+ s1 = e y +:+ s2 → x = y ∧ s1 = s2) →
  (∀ x, x ∈ l1 ∨ x ∈ l2 → ¬ closing (e x)) →
  join "," (map e l1) +:+ String close r1 = join "," (map e l2) +:+ String close r2 →
  l1 = l2 ∧ r1 = r2.
Proof.
  revert l2. induction l1 as [|x l1 IH]; intros l2 Hinj Hne Heq.
  - destruct l2 as [|y l2]; [by injection Heq as ->|]. exfalso.
    rewrite join_cons in Heq. destruct (Hne y); [set_solver|].
    destruct (e y); [done|]. simpl in *. by injection Heq as <- _.
  - destruct l2 as [|y l2].
    { exfalso. rewrite join_cons in Heq. destruct (Hne x); [set_solver|].
      destruct (e x); [done|]. simpl in *. by injection Heq as -> _. }
    rewrite !join_cons in Heq.
    destruct (Hinj x y _ _ (list_elem_of_here _ _) (list_elem_of_here _ _)
      (rest_of_closing l1 r1) (rest_of_closing l2 r2) Heq) as [-> Hrest].
    cut (l1 = l2 ∧ r1 = r2); [by intros [-> ->]|].
    destruct l1 as [|x' l1], l2 as [|y' l2]; simpl in Hrest.
    + by injection Hrest.
    + by injection Hrest.
    + by injection Hrest.
    + injection Hrest as Hrest. apply IH; [|set_solver|exact Hrest].
      intros. eapply Hinj; eauto; by apply list_elem_of_further.
Qed.

End join_inj.

Section printed.
  Context `{ShowNumberLaws}.

(** What kind of value a printed text starts, read off its first character. *)
Definition kind (v : cjson) : nat :=
  match v with
  | CNull => 0 | CBool true => 1 | CBool false => 2 | CNum _ => 3 | CStr _ => 4
  | CArr _ => 5 | CObj _ => 6
  end.

Definition kind_of_char (c : Ascii.ascii) : nat :=
  match Ascii.nat_of_ascii c with
  | 110 => 0 | 116 => 1 | 102 => 2 | 34 => 4 | 91 => 5 | 123 => 6
  | _ => if one_of number_chars c then 3 else 7
  end.

Lemma number_kind c : one_of number_chars c = true → kind_of_char c = 3.
Proof. by destruct c as [[] [] [] [] [] [] [] []]. Qed.

Lemma stringify_head v r : ∃ c t, stringify v +:+ r = String c t ∧ kind_of_char c = kind v.
Proof.
  destruct v as [|[]|n|s|l|l]; simpl; try by eexists _, _.
  pose proof (show_number_chars n) as Hc. pose proof (show_number_nonempty n) as Hn.
  destruct (show_number n) as [|c s]; [done|]. simpl in *.
  apply andb_true_iff in Hc as [Hc _]. eauto using number_kind.
Qed.

Lemma delimiter_kind c : one_of delimiters c = true → kind_of_char c = 7.
Proof. by destruct c as [[] [] [] [] [] [] [] []]. Qed.

Lemma stringify_not_closing v : ¬ closing (stringify v).
Proof.
  destruct (stringify_head v "") as (c & t & Heq & Hk).
  destruct (stringify v) as [|d u]; [done|]. simpl. intros Hd%delimiter_kind.
  injection Heq as -> _. rewrite Hk in Hd. by destruct v as [|[]| | | |].
Qed.

Lemma stringify_kind v w r1 r2 : stringify v +:+ r1 = stringify w +:+ r2 → kind v = kind w.
Proof.
  intros Heq. destruct (stringify_head v r1) as (c & t & H1 & <-).
  destruct (stringify_head w r2) as (d & u & H2 & <-). congruence.
Qed.

Lemma canonical_items l : canonical_json (CArr l) = true → Forall (λ v, canonical_json v = true) l.
Proof. simpl. by rewrite Forall_forallb. Qed.

Lemma canonical_members l :
  canonical_json (CObj l) = true → Forall (λ m, canonical_json m.2 = true) l.
Proof.
  simpl. rewrite !andb_true_iff, Forall_forallb. intros [_ Hl].
  eapply Forall_impl; [exact Hl|]. intros m. by rewrite andb_true_iff; intros [_ ?].
Qed.

Lemma canonical_plain v : canonical_json v = true → plain_numbers v = true.
Proof.
  induction v as [|b|n|s|l IH|l IH] using cjson_nested_ind; try done; intros Hv; simpl.
  - apply canonical_items in Hv. apply Forall_forallb. rewrite Forall_forall in IH, Hv. apply Forall_forall. auto.
  - apply canonical_members in Hv. apply Forall_forallb. rewrite Forall_forall in IH, Hv. apply Forall_forall. auto.
Qed.

(** The text of a member determines its key and, inductively, its value. *)
Lemma member_inj (x y : string * cjson) s1 s2 :
  (∀ r1 r2, closing r1 → closing r2 → stringify x.2 +:+ r1 = stringify y.2 +:+ r2 →
     x.2 = y.2 ∧ r1 = r2) →
  closing s1 → closing s2 →
  (quote x.1 +:+ ":" +:+ stringify x.2) +:+ s1 = (quote y.1 +:+ ":" +:+ stringify y.2) +:+ s2 →
  x = y ∧ s1 = s2.
Proof.
  destruct x as [k v], y as [k' v']; cbn [fst snd].
  intros IH H1 H2. rewrite !string_app_assoc. intros [-> Heq]%quote_inj.
  injection Heq as Heq. by destruct (IH s1 s2 H1 H2 Heq) as [-> ->].
Qed.

Lemma stringify_plain_inj v w r1 r2 :
  plain_numbers v = true → plain_numbers w = true → closing r1 → closing r2 →
  stringify v +:+ r1 = stringify w +:+ r2 → v = w ∧ r1 = r2.
Proof.
  revert w r1 r2. induction v as [|b|n|s|l IH|l IH] using cjson_nested_ind;
    intros w r1 r2 Hv Hw H1 H2 Heq; pose proof (stringify_kind _ _ _ _ Heq) as Hk.
  - destruct w as [|[]| | | |]; try done. by injection Heq.
  - destruct b, w as [|[]| | | |]; try done; simpl in Heq; by injection Heq.
  - destruct w as [|[]| m| | |]; try done.
    apply number_chars_inj in Heq as [Hs ->]; try done; try apply show_number_chars.
    by rewrite (show_number_inj n m Hv Hw Hs).
  - destruct w as [|[]| |s'| |]; try done. by apply quote_inj in Heq as [-> ->].
  - destruct w as [|[]| | |l'|]; try done. simpl in Heq. injection Heq as Heq.
    rewrite !string_app_assoc in Heq.
    simpl in Hv, Hw. rewrite Forall_forallb, Forall_forall in Hv, Hw. rewrite Forall_forall in IH.
    apply (join_inj stringify) in Heq as [-> ->]; try done.
    + intros x y s1 s2 Hx Hy. apply IH; auto.
    + intros x _. apply stringify_not_closing.
  - destruct w as [|[]| | | |l']; try done. simpl in Heq. injection Heq as Heq.
    rewrite !string_app_assoc in Heq.
    simpl in Hv, Hw. rewrite Forall_forallb, Forall_forall in Hv, Hw. rewrite Forall_forall in IH.
    apply (join_inj (λ p, quote p.1 +:+ ":" +:+ stringify p.2)) in Heq as [-> ->]; try done.
    + intros x y s1 s2 Hx Hy Hs1 Hs2. apply member_inj; auto.
Qed.

Lemma stringify_inj v w r1 r2 :
  canonical_json v = true → canonical_json w = true → closing r1 → closing r2 →
  stringify v +:+ r1 = stringify w +:+ r2 → v = w ∧ r1 = r2.
Proof. intros Hv Hw. by apply stringify_plain_inj; apply canonical_plain. Qed.

End printed.

(** *** Sensitive names *)

Lemma check_elements_Ok f path i l u :
  check_elements f path i l = Ok u ↔
  ∀ j v, l !! j = Some v → f v (element_path path (i + j)) = Ok tt.
Proof.
  destruct u. revert i. induction l as [|v l IH]; intros i; simpl; [done|].
  rewrite bind_Ok. split.
  - intros ([] & Hv & Hl) [|j] w; simpl.
    + intros [= <-]. by rewrite Nat.add_0_r.
    + rewrite <-Nat.add_succ_comm. by apply IH.
  - intros H. exists tt. split; [by rewrite <-(Nat.add_0_r i); apply (H 0)|].
    apply IH. intros j w Hw. rewrite Nat.add_succ_comm. by apply (H (S j)).
Qed.

Lemma check_entries_Ok f path l u :
  check_entries f path l = Ok u ↔
  ∀ m, m ∈ l → isSensitiveFieldKey m.1 = false ∧ f m.2 (member_path path m.1) = Ok tt.
Proof.
  destruct u. induction l as [|[k v] l IH]; simpl; [set_solver|].
  rewrite throw_if_bind_Ok, bind_Ok. setoid_rewrite elem_of_cons. split.
  - intros (Hk & [] & Hv & Hl) m [->|Hm]; [done|by apply IH].
  - intros H. destruct (H (k, v)) as [? ?]; [by left|]. split; [done|]. exists tt.
    split; [done|]. apply IH. auto.
Qed.

Lemma existsb_false {A} (p : A → bool) l : existsb p l = false ↔ ∀ x, x ∈ l → p x = false.
Proof.
  induction l as [|x l IH]; simpl; [set_solver|].
  rewrite orb_false_iff, IH. setoid_rewrite elem_of_cons. naive_solver.
Qed.

Lemma assertNoSensitiveFields_Ok v path :
  assertNoSensitiveFields v path = Ok tt ↔ has_key isSensitiveFieldKey v = false.
Proof.
  revert path. induction v as [|b|n|s|l IH|l IH] using cjson_nested_ind; intros path;
    simpl; try done; rewrite existsb_false; rewrite Forall_forall in IH.
  - rewrite check_elements_Ok. split.
    + intros H v Hv. apply list_elem_of_lookup in Hv as Hj. destruct Hj as [j Hj].
      by eapply (IH v Hv), H.
    + intros H j v Hv. apply list_elem_of_lookup_2 in Hv. apply IH; auto.
  - rewrite check_entries_Ok. setoid_rewrite orb_false_iff. split.
    + intros H m Hm. destruct (H m Hm) as [? Hv]. split; [done|]. by apply IH in Hv.
    + intros H m Hm. destruct (H m Hm) as [? Hv]. split; [done|]. by apply IH.
Qed.

(** *** Which values are accepted *)

(** What the code's refusals leave: no [undefined], function, symbol or
    bigint, finite numbers, dense plain arrays, plain objects with enumerable
    data properties under harmless keys, and no value below itself. *)
Fixpoint acceptable (ancestors : list nat) (value : js) : bool :=
  match value with
  | JNull | JBool _ | JStr _ => true
  | JUndefined | JTypeof _ => false
  | JNum n => is_finite n
  | JArr id symbols extra items =>
      negb (includes id ancestors) && negb symbols &&
      forallb (λ k, is_decimal k && (digits_value k <? Z.of_nat (length items))%Z) extra &&
      forallb (λ x, match x with plain v => acceptable (id :: ancestors) v | _ => false end) items
  | JObj id plainProto symbols props =>
      negb (includes id ancestors) && plainProto && negb symbols &&
      forallb (λ m, negb (includes m.1 forbiddenObjectKeys) &&
                    match m.2 with plain v => acceptable (id :: ancestors) v | _ => false end) props
  end.

Lemma is_ok_throw_if {A} b (e : error) (k : outcome A) :
  is_ok (throw_if b e;; k) = negb b && is_ok k.
Proof. by destruct b. Qed.

Lemma is_ok_bind {A B} (m : outcome A) (f : A → B) : is_ok (a ← m; Ok (f a)) = is_ok m.
Proof. by destruct m. Qed.

Lemma check_array_names_ok path n l :
  is_ok (check_array_names path n l) =
  forallb (λ k, is_decimal k && (digits_value k <? Z.of_nat n)%Z) l.
Proof.
  induction l as [|k l IH]; simpl; [done|]. rewrite is_ok_throw_if, IH.
  by rewrite negb_orb, negb_involutive, Z.leb_antisym, negb_involutive.
Qed.

Lemma normalize_elements_ok f path i l :
  is_ok (normalize_elements f path i l) = true ↔
  ∀ j x, l !! j = Some x → ∃ v, x = plain v ∧ is_ok (f v (element_path path (i + j))) = true.
Proof.
  revert i. induction l as [|x l IH]; intros i; simpl; [done|]. split.
  - destruct x as [| |v]; [done..|]. destruct (f v _) as [v'|e] eqn:Hv; [|done]. simpl.
    rewrite is_ok_bind, IH. intros Hl [|j] y; simpl.
    + intros [= <-]. exists v. by rewrite Nat.add_0_r, Hv.
    + rewrite <-Nat.add_succ_comm. apply Hl.
  - intros Hl. destruct (Hl 0 x eq_refl) as (v & -> & Hv). rewrite Nat.add_0_r in Hv.
    destruct (f v _) as [v'|e]; [|done]. simpl. rewrite is_ok_bind. apply IH.
    intros j y Hj. rewrite Nat.add_succ_comm. by apply (Hl (S j)).
Qed.

Lemma collect_members_ok path l :
  is_ok (collect_members path l) = true ↔
  ∀ m, m ∈ l → (m.1 ∉ forbiddenObjectKeys) ∧ ∃ r, m.2 = plain r ∧ is_ok r = true.
Proof.
  induction l as [|[k d] l IH]; simpl.
  { split; [by intros _ m ?%not_elem_of_nil|done]. }
  split.
  - destruct d as [| |r]; [done..|]. rewrite is_ok_throw_if, andb_true_iff.
    intros [Hk%negb_true_iff%includes_false H]. destruct r as [v|e] eqn:Hr; [|done]. simpl in H.
    rewrite is_ok_bind, IH in H. intros m [->|Hm]%elem_of_cons; [|by apply H]. simpl. eauto.
  - intros H. destruct (H (k, d)) as (Hk & r & Hd & Hr); [by left|]. simpl in *. subst d.
    rewrite is_ok_throw_if, (proj2 (includes_false k _) Hk). destruct r as [v|e]; [|done].
    simpl. rewrite is_ok_bind. apply IH. intros m Hm. apply H. by right.
Qed.

Lemma normalize_ok v : ∀ path anc, is_ok (normalize v path anc) = acceptable anc v.
Proof.
  induction v as [| |b|n|s|k|id sym extra l IH|id pl sym l IH] using js_nested_ind;
    intros path anc; simpl; rewrite ?is_ok_throw_if; try done.
  - by rewrite negb_involutive, andb_true_r.
  - rewrite <-check_array_names_ok with (path := path), <-!andb_assoc.
    do 2 f_equal. destruct (check_array_names _ _ _); simpl; [|done]. rewrite is_ok_bind.
    apply Bool.eq_iff_eq_true. rewrite normalize_elements_ok, Forall_forallb, Forall_lookup.
    rewrite Forall_lookup in IH. split.
    + intros H j x Hj. destruct (H j x Hj) as (v & -> & Hv). specialize (IH j _ Hj).
      simpl in IH. by rewrite IH in Hv.
    + intros H j x Hj. specialize (H j x Hj). specialize (IH j x Hj).
      destruct x as [| |v]; try done. exists v. simpl in IH. by rewrite IH.
  - rewrite negb_involutive, <-!andb_assoc. do 3 f_equal. rewrite is_ok_bind.
    apply Bool.eq_iff_eq_true. rewrite collect_members_ok, Forall_forallb, Forall_forall.
    setoid_rewrite sort_by_elem_of. rewrite Forall_forall in IH. split.
    + intros H m Hm. specialize (IH m Hm).
      destruct (H _ (list_elem_of_fmap_2 (λ p, (p.1, slot_map _ p.2)) l m Hm))
        as (Hk & r & Hr & Hok).
      apply andb_true_iff; split; [by apply negb_true_iff, includes_false|].
      destruct m as [k [| |v]]; simpl in *; try done. injection Hr as <-. by rewrite IH in Hok.
    + intros H m' ([k d] & -> & Hm)%list_elem_of_fmap. specialize (IH _ Hm). simpl in *.
      specialize (H _ Hm). apply andb_true_iff in H as [Hk%negb_true_iff%includes_false Hd].
      split; [done|]. destruct d as [| |v]; try done. eexists. split; [done|].
      simpl in IH. by rewrite IH.
Qed.

(** ** A printing of numbers that meets the laws *)

(** Decimal digits; the fraction of a number that is no integer in binary. *)
Fixpoint print_digits (l : list bool) : string :=
  match l with
  | [] => "1"
  | d :: l' => (if d then "1" else "0") +:+ print_digits l'
  end.

Definition decimal_number : ShowNumber := λ n,
  match n with
  | NInt z => show_Z z
  | NNegZero => "0"
  | NFrac f d => show_Z f +:+ "." +:+ print_digits d
  | NInf _ => "e"
  | NNaN => "."
  end.

Definition plain_number_chars : string := "0123456789-".

Lemma pretty_N_go_chars x s :
  string_all (one_of plain_number_chars) s = true →
  string_all (one_of plain_number_chars) (pretty_N_go x s) = true.
Proof.
  revert s. induction (N.lt_wf_0 x) as [x _ IH]; intros s Hs.
  assert (x = 0 ∨ 0 < x)%N as [->|Hx] by lia; [done|].
  rewrite pretty_N_go_step by done. apply IH; [by apply N.div_lt|]. simpl. rewrite Hs, andb_true_r.
  unfold pretty_N_char. by repeat case_match.
Qed.

Lemma pretty_N_go_empty x s : pretty_N_go x s = "" → s = "" ∧ x = 0%N.
Proof.
  revert s. induction (N.lt_wf_0 x) as [x _ IH]; intros s Hs.
  assert (x = 0 ∨ 0 < x)%N as [->|Hx] by lia; [done|].
  rewrite pretty_N_go_step in Hs by done. by apply IH in Hs as [? _]; [|apply N.div_lt].
Qed.

Lemma pretty_N_printed (x : N) :
  string_all (one_of plain_number_chars) (pretty x) = true ∧ pretty x ≠ "".
Proof.
  unfold pretty, pretty_N. case_decide; [done|]. split; [by apply pretty_N_go_chars|].
  by intros [_ ?]%pretty_N_go_empty.
Qed.

Lemma show_Z_printed z :
  string_all (one_of plain_number_chars) (show_Z z) = true ∧ show_Z z ≠ "".
Proof.
  destruct z as [|p|p]; [done|apply pretty_N_printed|]. split; [|done].
  destruct (pretty_N_printed (N.pos p)) as [Hc _]. apply Hc.
Qed.

Lemma plain_number_char c : one_of plain_number_chars c = true → one_of number_chars c = true.
Proof. by destruct c as [[] [] [] [] [] [] [] []]. Qed.

Lemma string_all_mono p q s :
  (∀ c, p c = true → q c = true) → string_all p s = true → string_all q s = true.
Proof.
  intros H. induction s as [|c s IH]; simpl; [done|]. rewrite !andb_true_iff. naive_solver.
Qed.

Lemma string_all_app p s t : string_all p (s +:+ t) = string_all p s && string_all p t.
Proof. induction s as [|c s IH]; simpl; [done|]. by rewrite IH, andb_assoc. Qed.

(** The point of a printed fraction separates it from every integer. *)
Lemma point_not_plain a b r :
  string_all (one_of plain_number_chars) a = true →
  string_all (one_of plain_number_chars) b = true → a ≠ b +:+ String (Ascii.ascii_of_nat 46) r.
Proof.
  intros Ha _ ->. rewrite string_all_app in Ha. apply andb_true_iff in Ha as [_ Ha].
  by vm_compute in Ha.
Qed.

Lemma string_app_length a b : String.length (a +:+ b) = String.length a + String.length b.
Proof. induction a as [|c a IH]; simpl; [done|]. by rewrite IH. Qed.

Lemma print_digits_chars l : string_all (one_of plain_number_chars) (print_digits l) = true.
Proof. induction l as [|[] l IH]; [done|exact IH|exact IH]. Qed.

Lemma print_digits_nonempty l : print_digits l ≠ "".
Proof. by destruct l as [|[]]. Qed.

Lemma print_digits_inj a b : print_digits a = print_digits b → a = b.
Proof.
  revert b. induction a as [|x a IH]; intros [|y b]; simpl; [done|..].
  - destruct y; [|done]. intros [= H]. by destruct (print_digits_nonempty b).
  - destruct x; [|done]. intros [= H]. by destruct (print_digits_nonempty a).
  - destruct x, y; simpl; try done; intros [= H]; f_equal; by apply IH.
Qed.

(** Two plain texts in front of the same separator are equal. *)
Lemma point_inj a b r t :
  string_all (one_of plain_number_chars) a = true → string_all (one_of plain_number_chars) b = true →
  a +:+ String (Ascii.ascii_of_nat 46) r = b +:+ String (Ascii.ascii_of_nat 46) t → a = b ∧ r = t.
Proof.
  revert b. induction a as [|c a IH]; intros [|d b]; simpl.
  - by intros _ _ [= ->].
  - intros _ [Hd _]%andb_true_iff [= <- _]. by vm_compute in Hd.
  - intros [Hc _]%andb_true_iff _ [= -> _]. by vm_compute in Hc.
  - intros [_ Ha]%andb_true_iff [_ Hb]%andb_true_iff [= -> H]. by destruct (IH b Ha Hb H) as [-> ->].
Qed.

#[export] Instance decimal_number_laws : ShowNumberLaws (H := decimal_number).
Proof.
  split.
  - intros [z| |f d| |]; try done; unfold show_number, decimal_number;
      rewrite ?string_all_app, ?andb_true_iff; split_and?; try done;
      eapply string_all_mono; try apply show_Z_printed; try apply print_digits_chars;
      apply plain_number_char.
  - intros [z| |f d| |]; try done; unfold show_number, decimal_number.
    + apply show_Z_printed.
    + by destruct (show_Z f).
  - intros n m. assert (∀ z f d, show_Z z ≠ show_Z f +:+ "." +:+ print_digits d) as Hne.
    { intros z f d. apply point_not_plain; apply show_Z_printed. }
    unfold show_number, decimal_number. destruct n, m; try done; intros _ _ Heq.
    + f_equal. by apply (inj pretty).
    + by apply Hne in Heq.
    + by apply symmetry, Hne in Heq.
    + apply point_inj in Heq as [Hz Hd]; try apply show_Z_printed.
      f_equal; [by apply (inj pretty)|by apply print_digits_inj].
Qed.

(** * Properties *)

(** The canonical text is a faithful fingerprint of a value: two values
    that [canonicalStringify] accepts get the same text if and only if they
    normalize to the same canonical value, so a hash of the text binds exactly
    the payload.  Assumed of [Number::toString]: number characters only, never
    empty, injective on finite numbers other than -0. *)
Theorem canonicalStringify_faithful `{ShowNumberLaws} v w s t :
  unique_names v = true → unique_names w = true →
  canonicalStringify v = Ok s → canonicalStringify w = Ok t →
  (s = t ↔ normalizeCanonicalJson v = normalizeCanonicalJson w).
Proof.
  unfold canonicalStringify. rewrite !bind_Ok.
  intros Hv Hw (c & Hc & [= <-]) (d & Hd & [= <-]). rewrite Hc, Hd. split; [|by intros [= ->]].
  intros Heq. f_equal. apply (f_equal (λ s, s +:+ "")) in Heq.
  apply stringify_inj in Heq as [-> _]; try done; eauto using normalize_canonical.
Qed.

(** The canonical text does not depend on the order in which the objects
    of the value hold their properties, at any depth. *)
Theorem canonicalStringify_order_insensitive `{ShowNumber} v w :
  rtc reordered v w → canonicalStringify v = canonicalStringify w.
Proof.
  intros Hr. unfold canonicalStringify, normalizeCanonicalJson.
  replace (normalize w "$" []) with (normalize v "$" []); [done|].
  induction Hr as [|v u w Hvu _ IH]; [done|]. by rewrite (normalize_reordered _ _ Hvu).
Qed.

(** The result of [normalizeCanonicalJson] is canonical, finite numbers
    other than -0 and own-key-ordered members under unique, harmless keys, and
    normalizing it again returns it. *)
Theorem normalizeCanonicalJson_idempotent v c :
  unique_names v = true → normalizeCanonicalJson v = Ok c →
  canonical_json c = true ∧ normalizeCanonicalJson (embed 0 c) = Ok c.
Proof.
  intros Hu Hc. assert (canonical_json c = true) as Hcan by by eapply normalize_canonical.
  split; [done|]. apply normalize_embed; [done|]. by intros a ?%not_elem_of_nil.
Qed.

(** [normalizeCanonicalJson] accepts exactly the acceptable values; in
    particular it refuses every value that contains itself. *)
Theorem normalizeCanonicalJson_accepts v :
  is_ok (normalizeCanonicalJson v) = acceptable [] v.
Proof. apply normalize_ok. Qed.

(** [assertNoSensitiveFields] passes exactly the values none of whose
    objects, at any depth, has a key that normalizes to a sensitive name. *)
Theorem assertNoSensitiveFields_exact v path :
  is_ok (assertNoSensitiveFields v path) = negb (has_key isSensitiveFieldKey v).
Proof.
  apply Bool.eq_iff_eq_true. rewrite negb_true_iff, <-(assertNoSensitiveFields_Ok v path).
  destruct (assertNoSensitiveFields v path) as [[]|]; simpl; naive_solver.
Qed.

(** ** Samples and witnesses *)

Definition sample_json : js :=
  JObj 0 true false
    [("path", plain (JStr "a.txt"));
     ("10", plain (JArr 1 false [] [plain (JNum NNegZero); plain (JBool true)]));
     ("9", plain (JObj 2 true false [("y", plain JNull); ("x", plain (JNum (NFrac 1 [])))]))].

Definition sample_json_reordered : js :=
  JObj 0 true false
    [("9", plain (JObj 2 true false [("x", plain (JNum (NFrac 1 []))); ("y", plain JNull)]));
     ("path", plain (JStr "a.txt"));
     ("10", plain (JArr 1 false [] [plain (JNum (NInt 0)); plain (JBool true)]))].

Definition sample_text : string :=
  match canonicalStringify (H := decimal_number) sample_json with Ok s => s | Throw _ => "" end.

Lemma canonicalStringify_faithful_witness :
  unique_names sample_json = true ∧ unique_names sample_json_reordered = true ∧
  canonicalStringify (H := decimal_number) sample_json = Ok sample_text ∧
  canonicalStringify (H := decimal_number) sample_json_reordered = Ok sample_text ∧
  (sample_text = sample_text ↔
   normalizeCanonicalJson sample_json = normalizeCanonicalJson sample_json_reordered).
Proof.
  assert (unique_names sample_json = true) as H1 by by vm_compute.
  assert (unique_names sample_json_reordered = true) as H2 by by vm_compute.
  assert (canonicalStringify (H := decimal_number) sample_json = Ok sample_text) as H3
    by by vm_compute.
  assert (canonicalStringify (H := decimal_number) sample_json_reordered = Ok sample_text) as H4
    by by vm_compute.
  split; [exact H1|]. split; [exact H2|]. split; [exact H3|]. split; [exact H4|].
  exact (canonicalStringify_faithful _ _ _ _ H1 H2 H3 H4).
Defined.

Lemma canonicalStringify_order_insensitive_witness :
  let v := JObj 0 true false [("b", plain JNull); ("a", plain (JBool true))] in
  let w := JObj 0 true false [("a", plain (JBool true)); ("b", plain JNull)] in
  rtc reordered v w ∧
  canonicalStringify (H := decimal_number) v = canonicalStringify (H := decimal_number) w.
Proof.
  intros v w. assert (rtc reordered v w) as Hr.
  { apply rtc_once, reordered_here; [|by apply Permutation_swap].
    by apply (bool_decide_unpack _); vm_compute. }
  split; [exact Hr|]. exact (canonicalStringify_order_insensitive (H := decimal_number) v w Hr).
Defined.

Lemma normalizeCanonicalJson_idempotent_witness :
  ∃ c, unique_names sample_json = true ∧ normalizeCanonicalJson sample_json = Ok c ∧
    canonical_json c = true ∧ normalizeCanonicalJson (embed 0 c) = Ok c.
Proof.
  destruct (normalizeCanonicalJson sample_json) as [c|e] eqn:Hc; [|by vm_compute in Hc].
  exists c. assert (unique_names sample_json = true) as Hu by by vm_compute.
  split; [exact Hu|]. split; [reflexivity|].
  exact (normalizeCanonicalJson_idempotent sample_json c Hu Hc).
Defined.

End Canonical.
