(* ===== verification/ActionModel.v ===== *)
(** Controlled actions: the request, its simulation, the approval of it and
    its execution.  Models [action-request.ts], [action-simulation.ts],
    [action-approval.ts] and [action-execution.ts] of
    [packages/domain/src/capability/], one Module each, and the policy
    vocabulary of [capability.ts] they share. *)
From S2P Require Import Prelude Errors Json.
Import Canonical.

Inductive RiskLevel := risk_low | risk_medium | risk_high | risk_critical.
Inductive PolicyDecisionKind := allow | deny | allow_with_approval | allow_simulation_only.

#[global] Instance RiskLevel_eq_dec : EqDecision RiskLevel.
Proof. solve_decision. Defined.
#[global] Instance PolicyDecisionKind_eq_dec : EqDecision PolicyDecisionKind.
Proof. solve_decision. Defined.

(** * Action requests *)

Module ActionRequest.

Inductive ActionStatus :=
| requested | authorized | denied | simulating | simulated | approval_pending | rejected
| executing | completed | failed | execution_unknown | cancelled | expired.

#[global] Instance ActionStatus_eq_dec : EqDecision ActionStatus.
Proof. solve_decision. Defined.

Definition status_name (s : ActionStatus) : string :=
  match s with
  | requested => "requested" | authorized => "authorized" | denied => "denied"
  | simulating => "simulating" | simulated => "simulated"
  | approval_pending => "approval_pending" | rejected => "rejected"
  | executing => "executing" | completed => "completed" | failed => "failed"
  | execution_unknown => "execution_unknown" | cancelled => "cancelled" | expired => "expired"
  end.

Inductive ActionOperationMode := read | mutation.

#[global] Instance ActionOperationMode_eq_dec : EqDecision ActionOperationMode.
Proof. solve_decision. Defined.

(** [ActionRequestProps]; [J] is the type of the two [unknown] fields. *)
Record ActionRequestProps {J : Type} := {
  id : string;
  projectId : string;
  agentId : string;
  resourceId : string;
  connector : string;
  connectorVersion : string;
  operation : string;
  normalizedArguments : J;
  effectiveConstraints : J;
  agentRunId : option string;
  payloadHash : string;
  decision : PolicyDecisionKind;
  riskLevel : RiskLevel;
  matchedGrantIds : list string;
  reasons : list string;
  pipelineRunId : option string;
  pipelineStageRunId : option string;
  status : ActionStatus;
  createdAt : date;
  updatedAt : date
}.
Arguments ActionRequestProps : clear implicits.

(** The props of a constructed request: its JSON fields are normalized. *)
Abbreviation Props := (ActionRequestProps cjson).

(** [{ ...props, status, createdAt, updatedAt, and the two JSON fields }] *)
Definition with_fields {J K} (p : ActionRequestProps J) (args constraints : K)
    (s : ActionStatus) (created updated : date) : ActionRequestProps K :=
  {| id := id p; projectId := projectId p; agentId := agentId p; resourceId := resourceId p;
     connector := connector p; connectorVersion := connectorVersion p; operation := operation p;
     normalizedArguments := args; effectiveConstraints := constraints;
     agentRunId := agentRunId p; payloadHash := payloadHash p; decision := decision p;
     riskLevel := riskLevel p; matchedGrantIds := matchedGrantIds p; reasons := reasons p;
     pipelineRunId := pipelineRunId p; pipelineStageRunId := pipelineStageRunId p;
     status := s; createdAt := created; updatedAt := updated |}.

Definition transitions (s : ActionStatus) : list ActionStatus :=
  match s with
  | requested => [authorized; denied]
  | authorized => [simulating; executing]
  | denied => []
  | simulating => [simulated; failed]
  | simulated => [approval_pending]
  | approval_pending => [executing; rejected]
  | rejected => []
  | executing => [completed; failed; execution_unknown]
  | completed | failed | execution_unknown | cancelled | expired => []
  end.

Definition isDecisionStatusCompatible (decision : PolicyDecisionKind) (status : ActionStatus)
    : bool :=
  if decide (decision = deny) then includes status [requested; denied]
  else match status with
  | denied => false
  | failed => true
  | executing | completed | execution_unknown => includes decision [allow; allow_with_approval]
  | simulating | simulated => includes decision [allow_simulation_only; allow_with_approval]
  | approval_pending => bool_decide (decision = allow_with_approval)
  | _ => true
  end.

Definition blank (s : string) : bool := bool_decide (trim s = "").

(** [ActionRequest.create]; the status and times of [input] are not read. *)
Definition create (input : ActionRequestProps js) (now : date) : outcome Props :=
  throw_if (existsb blank
      [id input; projectId input; agentId input; resourceId input; operation input])
    (CapabilityValidationError "Action request identifiers and operation cannot be empty");;
  throw_if (negb (valid_date now)) InvalidActionTimestampError;;
  arguments ← normalizeCanonicalJson (normalizedArguments input);
  constraints ← normalizeCanonicalJson (effectiveConstraints input);
  Ok (with_fields input arguments constraints requested now now).

Definition restore (props : ActionRequestProps js) : outcome Props :=
  throw_if (negb (isDecisionStatusCompatible (decision props) (status props)))
    (InvalidActionTransitionError (status_name requested) (status_name (status props)));;
  arguments ← normalizeCanonicalJson (normalizedArguments props);
  constraints ← normalizeCanonicalJson (effectiveConstraints props);
  Ok (with_fields props arguments constraints (status props) (createdAt props) (updatedAt props)).

Definition snapshot (p : Props) : Props := p.

(** The lease conditions of [transition] out of [authorized] and
    [approval_pending]. *)
Definition is_mode (mode : option ActionOperationMode) (m : ActionOperationMode) : bool :=
  bool_decide (mode = Some m).

Definition validReadLease (d : PolicyDecisionKind) (s : ActionStatus)
    (mode : option ActionOperationMode) (requiresApproval : bool) : bool :=
  bool_decide (s = executing) && is_mode mode read && negb requiresApproval &&
  bool_decide (d = allow).

Definition validMutationLease (d : PolicyDecisionKind) (s : ActionStatus)
    (mode : option ActionOperationMode) (requiresApproval : bool) : bool :=
  bool_decide (s = simulating) && is_mode mode mutation &&
  (if requiresApproval then bool_decide (d = allow_with_approval)
   else bool_decide (d = allow_simulation_only)).

Definition validApprovedLease (target : ActionStatus) (d : PolicyDecisionKind) (s : ActionStatus)
    (mode : option ActionOperationMode) (requiresApproval : bool) : bool :=
  bool_decide (s = target) && is_mode mode mutation && requiresApproval &&
  bool_decide (d = allow_with_approval).

Definition transition (s : ActionStatus) (now : date)
    (operationMode : option ActionOperationMode) (requiresApproval : bool)
    : method Props unit :=
  p ← get;
  let refusal := InvalidActionTransitionError (status_name (status p)) (status_name s) in
  refuse_if (negb (includes s (transitions (status p)))) refusal;;
  refuse_if (negb (isDecisionStatusCompatible (decision p) s)) refusal;;
  refuse_if (bool_decide (status p = authorized) &&
      negb (validReadLease (decision p) s operationMode requiresApproval) &&
      negb (validMutationLease (decision p) s operationMode requiresApproval)) refusal;;
  refuse_if (bool_decide (status p = simulated) && bool_decide (s = approval_pending) &&
      (negb (bool_decide (decision p = allow_with_approval)) || negb requiresApproval)) refusal;;
  refuse_if (bool_decide (status p = approval_pending) &&
      negb (validApprovedLease executing (decision p) s operationMode requiresApproval) &&
      negb (validApprovedLease rejected (decision p) s operationMode requiresApproval)) refusal;;
  refuse_if (negb (valid_date now) || date_ltb now (updatedAt p)) InvalidActionTimestampError;;
  put (with_fields p (normalizedArguments p) (effectiveConstraints p) s (createdAt p) now).

(** [canonicalPayload()] as the canonical object it returns, the absent
    optional members left out. *)
Definition optional_member (key : string) (v : option string) : list (string * cjson) :=
  match v with None => [] | Some s => [(key, CStr s)] end.

Definition canonicalPayload (p : Props) : list (string * cjson) :=
  [("schemaVersion", CNum (NInt 1)); ("projectId", CStr (projectId p));
   ("agentId", CStr (agentId p)); ("resourceId", CStr (resourceId p));
   ("connector", CStr (connector p)); ("connectorVersion", CStr (connectorVersion p));
   ("operation", CStr (operation p)); ("normalizedArguments", normalizedArguments p);
   ("effectiveConstraints", effectiveConstraints p)]
  ++ optional_member "agentRunId" (agentRunId p)
  ++ optional_member "pipelineRunId" (pipelineRunId p)
  ++ optional_member "pipelineStageRunId" (pipelineStageRunId p).

(** ** Histories *)

(** [history input p l]: the request created from [input] was transitioned to
    [p] through the statuses [l], the latest first. *)
Inductive history (input : ActionRequestProps js) : Props → list ActionStatus → Prop :=
| history_create now p : create input now = Ok p → history input p [status p]
| history_step p l s now mode requiresApproval p' :
    history input p l → transition s now mode requiresApproval p = (Ok tt, p') →
    history input p' (s :: l).

(** The lifecycles of a request that is [decision], first status first. *)
Definition lifecycles (d : PolicyDecisionKind) : list (list ActionStatus) :=
  match d with
  | deny => [[requested; denied]]
  | allow =>
      [[requested; authorized; executing; completed];
       [requested; authorized; executing; failed];
       [requested; authorized; executing; execution_unknown]]
  | allow_simulation_only =>
      [[requested; authorized; simulating; simulated];
       [requested; authorized; simulating; failed]]
  | allow_with_approval =>
      [[requested; authorized; simulating; failed];
       [requested; authorized; simulating; simulated; approval_pending; rejected];
       [requested; authorized; simulating; simulated; approval_pending; executing; completed];
       [requested; authorized; simulating; simulated; approval_pending; executing; failed];
       [requested; authorized; simulating; simulated; approval_pending; executing;
        execution_unknown]]
  end.

(** The non-empty prefixes of the lifecycles. *)
Definition lifecycle_prefixes (d : PolicyDecisionKind) : list (list ActionStatus) :=
  concat (map (λ full, map (λ n, take (S n) full) (seq 0 (length full))) (lifecycles d)).

Definition is_lifecycle_prefix (d : PolicyDecisionKind) (l : list ActionStatus) : bool :=
  includes l (lifecycle_prefixes d).

(** The stored request as an ordinary JavaScript value. *)
Definition stored (p : Props) : ActionRequestProps js :=
  with_fields p (embed 0 (normalizedArguments p)) (embed 0 (effectiveConstraints p))
    (status p) (createdAt p) (updatedAt p).

(** A request the store can hold and [restore] accepts. *)
Record well_formed (p : Props) : Prop := {
  wf_compatible : isDecisionStatusCompatible (decision p) (status p) = true;
  wf_arguments : canonical_json (normalizedArguments p) = true;
  wf_constraints : canonical_json (effectiveConstraints p) = true;
  wf_times : date_leb (createdAt p) (updatedAt p) = true
}.

(** ** Lemmas *)

Lemma request_create_Ok input now p :
  create input now = Ok p →
  status p = requested ∧ decision p = decision input ∧ createdAt p = now ∧ updatedAt p = now ∧
  valid_date now = true ∧
  normalizeCanonicalJson (normalizedArguments input) = Ok (normalizedArguments p) ∧
  normalizeCanonicalJson (effectiveConstraints input) = Ok (effectiveConstraints p).
Proof.
  unfold create. rewrite !throw_if_bind_Ok. intros (_ & Ht%negb_false_iff & H). by inv_ok.
Qed.

(** What a successful transition checked: a decision-compatible edge of the
    table under its lease, at a monotone time. *)
Definition edge_allowed (d : PolicyDecisionKind) (from to : ActionStatus) : bool :=
  includes to (transitions from) && isDecisionStatusCompatible d to &&
  match from with
  | authorized =>
      match to with
      | executing => bool_decide (d = allow)
      | simulating => includes d [allow_with_approval; allow_simulation_only]
      | _ => false
      end
  | simulated => bool_decide (d = allow_with_approval)
  | approval_pending => bool_decide (d = allow_with_approval)
  | _ => true
  end.

Lemma request_transition_Ok s now mode ra p p' :
  transition s now mode ra p = (Ok tt, p') →
  edge_allowed (decision p) (status p) s = true ∧
  (status p = approval_pending → mode = Some mutation ∧ ra = true) ∧
  (status p = authorized → s = executing → mode = Some read ∧ ra = false) ∧
  valid_date now = true ∧ date_ltb now (updatedAt p) = false ∧
  p' = with_fields p (normalizedArguments p) (effectiveConstraints p) s (createdAt p) now.
Proof.
  unfold transition. rewrite get_bind, !refuse_if_bind_Ok.
  intros (He%negb_false_iff & Hc%negb_false_iff & Ha & Hs & Hp & Ht & [= <-]).
  apply orb_false_iff in Ht as [Hv%negb_false_iff Hlt].
  unfold edge_allowed. rewrite He, Hc.
  split; [|split; [|split; [|done]]]; clear Hv Hlt.
  - revert He Hc Ha Hs Hp. unfold validReadLease, validMutationLease, validApprovedLease, is_mode.
    destruct (status p), s, (decision p), mode as [[]|], ra; try done.
  - clear He. intros Hst. rewrite Hst in Hp. revert Hp. unfold validApprovedLease, is_mode.
    destruct s, (decision p), mode as [[]|], ra; try done.
  - intros Hst ->. rewrite Hst in Ha. revert Ha. unfold validReadLease, validMutationLease, is_mode.
    destruct (decision p), mode as [[]|], ra; try done.
Qed.

(** Every allowed edge can be taken, under some mode and approval flag. *)
Lemma edge_allowed_transition s now p :
  edge_allowed (decision p) (status p) s = true → valid_date now = true →
  date_ltb now (updatedAt p) = false →
  ∃ mode ra, transition s now mode ra p =
    (Ok tt, with_fields p (normalizedArguments p) (effectiveConstraints p) s (createdAt p) now).
Proof.
  intros He Hv Hlt. unfold transition.
  set (mode := match status p, s with authorized, executing => Some read | _, _ => Some mutation end).
  set (ra := bool_decide (decision p = allow_with_approval)).
  exists mode, ra. rewrite get_bind. rewrite !refuse_if_bind_Ok, Hv, Hlt. subst mode ra.
  revert He. unfold edge_allowed.
  destruct (status p), s, (decision p); intros He; try discriminate He; by split_and!.
Qed.

(** *** Histories *)

Lemma history_shape input p l :
  history input p l →
  decision p = decision input ∧ head l = Some (status p) ∧ valid_date (updatedAt p) = true.
Proof.
  induction 1 as [now p Hc|p l s now mode ra p' _ IH Ht].
  - apply request_create_Ok in Hc as (_ & Hd & _ & -> & ? & _). done.
  - apply request_transition_Ok in Ht as (_ & _ & _ & ? & _ & ->). by destruct IH as [? _].
Qed.

Definition all_statuses : list ActionStatus :=
  [requested; authorized; denied; simulating; simulated; approval_pending; rejected;
   executing; completed; failed; execution_unknown; cancelled; expired].

Lemma all_statuses_complete s : s ∈ all_statuses.
Proof. apply (bool_decide_unpack _). by destruct s. Qed.

Definition edge_from (d : PolicyDecisionKind) (l : list ActionStatus) (s : ActionStatus) : bool :=
  match last l with Some st => edge_allowed d st s | None => false end.

(** An allowed edge continues a lifecycle prefix, and every lifecycle is a
    chain of allowed edges: checked on all of them. *)
Lemma prefix_edge d l s :
  is_lifecycle_prefix d l = true → edge_from d l s = true →
  is_lifecycle_prefix d (l ++ [s]) = true.
Proof.
  intros Hl%includes_spec He.
  assert (Forall (λ l, Forall (λ s, edge_from d l s = true →
    is_lifecycle_prefix d (l ++ [s]) = true) all_statuses) (lifecycle_prefixes d)) as H.
  { apply (bool_decide_unpack _). by destruct d. }
  rewrite Forall_forall in H. specialize (H l Hl). rewrite Forall_forall in H.
  apply H; [apply all_statuses_complete|done].
Qed.

Definition chain (d : PolicyDecisionKind) (l : list ActionStatus) : bool :=
  forallb (λ n, match l !! S n with Some s => edge_from d (take (S n) l) s | None => true end)
    (seq 0 (length l)) && bool_decide (head l = Some requested).

Lemma prefix_chain d l : is_lifecycle_prefix d l = true → chain d l = true.
Proof.
  intros Hl%includes_spec. revert l Hl. apply Forall_forall.
  apply (bool_decide_unpack _). by destruct d.
Qed.

Lemma history_extend input p l s :
  history input p l → edge_allowed (decision p) (status p) s = true →
  ∃ p', history input p' (s :: l) ∧ decision p' = decision p.
Proof.
  intros Hh He. destruct (history_shape _ _ _ Hh) as (_ & _ & Hv).
  assert (date_ltb (updatedAt p) (updatedAt p) = false) as Hlt.
  { destruct (updatedAt p); simpl; [lia|done]. }
  destruct (edge_allowed_transition s (updatedAt p) p He Hv Hlt) as (mode & ra & Ht).
  eexists. split; [by eapply history_step|done].
Qed.

Lemma history_realizes input now p0 l :
  create input now = Ok p0 → chain (decision input) l = true →
  ∃ p, history input p (reverse l) ∧ decision p = decision input.
Proof.
  intros Hc [Hch Hhd%bool_decide_eq_true]%andb_true_iff.
  apply Forall_forallb in Hch. rewrite Forall_forall in Hch.
  assert (∀ n, S n ≤ length l →
    ∃ p, history input p (reverse (take (S n) l)) ∧ decision p = decision input) as H.
  { induction n as [|n IH]; intros Hn.
    - apply request_create_Ok in Hc as Hok. destruct Hok as (Hs & Hd & _). exists p0. split; [|done].
      destruct l as [|x l]; [simpl in Hn; lia|]. injection Hhd as ->.
      change (history input p0 [requested]). rewrite <-Hs. by eapply history_create.
    - destruct IH as (p & Hp & Hd); [lia|].
      destruct (lookup_lt_is_Some_2 l (S n)) as [s Hs]; [lia|].
      specialize (Hch n). rewrite Hs in Hch.
      destruct (history_shape _ _ _ Hp) as (_ & Hh & _).
      assert (edge_from (decision input) (take (S n) l) s = true) as He
        by (apply Hch, elem_of_seq; lia).
      unfold edge_from in He. rewrite head_reverse in Hh. rewrite Hh, <-Hd in He.
      destruct (history_extend _ _ _ _ Hp He) as (p' & Hp' & Hd').
      exists p'. rewrite (take_S_r _ _ _ Hs), reverse_snoc. split; [done|]. by rewrite Hd'. }
  destruct l as [|x l]; [done|]. specialize (H (length l)). rewrite take_ge in H by (simpl; lia).
  apply H. simpl; lia.
Qed.

Lemma request_create_well_formed input now p :
  unique_names (normalizedArguments input) = true →
  unique_names (effectiveConstraints input) = true →
  create input now = Ok p → well_formed p.
Proof.
  intros Ha Hc (Hs & Hd & Hct & Hut & Hv & Hargs & Hcons)%request_create_Ok. split.
  - rewrite Hs. destruct (decision p); reflexivity.
  - exact (normalize_canonical _ _ _ _ Ha Hargs).
  - exact (normalize_canonical _ _ _ _ Hc Hcons).
  - rewrite Hct, Hut. destruct now; [simpl; lia|discriminate Hv].
Qed.

Lemma request_transition_well_formed s now mode ra p p' :
  well_formed p → transition s now mode ra p = (Ok tt, p') → well_formed p'.
Proof.
  intros [Hc Ha Hcs Ht] (He & _ & _ & Hv & Hlt & ->)%request_transition_Ok. split; simpl; try done.
  - unfold edge_allowed in He. apply andb_true_iff in He as [He _].
    by apply andb_true_iff in He as [_ He].
  - destruct (createdAt p), (updatedAt p), now; simpl in *; try done. lia.
Qed.

Lemma restore_stored p : well_formed p → restore (stored p) = Ok p.
Proof.
  intros [Hc Ha Hcs _]. unfold restore. simpl. rewrite Hc. simpl.
  unfold normalizeCanonicalJson.
  assert (∀ a : nat, a ∈ [] → a < 0) as He by by intros a ?%not_elem_of_nil.
  rewrite !normalize_embed by done. simpl. by destruct p.
Qed.

(** ** Properties *)

(** The lifecycle of an action request: the status sequences a created
    request can go through are exactly the non-empty prefixes of the
    lifecycles of its policy decision.  A denied request never starts, a
    simulation-only one never executes, one that needs approval executes only
    after its simulation and a pending approval, and [cancelled] and [expired]
    are never entered. *)
Theorem request_lifecycle input now p0 l :
  create input now = Ok p0 →
  (is_lifecycle_prefix (decision input) l = true ↔ ∃ p, history input p (reverse l)).
Proof.
  intros Hc. split.
  - intros Hl%prefix_chain. destruct (history_realizes _ _ _ _ Hc Hl) as (p & ? & _). eauto.
  - intros [p Hh]. rewrite <-(reverse_involutive l). revert Hh. generalize (reverse l). clear l.
    induction 1 as [now' p Hc'|p l s now' mode ra p' Hh IH Ht].
    + apply request_create_Ok in Hc' as (-> & _). by destruct (decision input).
    + destruct (history_shape _ _ _ Hh) as (Hd & Hhd & _).
      apply request_transition_Ok in Ht as (He & _). rewrite reverse_cons. apply prefix_edge; [done|].
      unfold edge_from. by rewrite last_reverse, Hhd, <-Hd.
Qed.

(** The leases: a request starts executing only from [authorized] as a
    read without approval of an [allow] decision, or from [approval_pending]
    as an approved mutation of an [allow_with_approval] decision; a refused
    transition changes nothing, and time never runs backwards. *)
Theorem execution_lease s now mode requiresApproval p r p' :
  transition s now mode requiresApproval p = (r, p') →
  match r with
  | Throw _ => p' = p
  | Ok _ =>
      status p' = s ∧ decision p' = decision p ∧ updatedAt p' = now ∧
      date_ltb now (updatedAt p) = false ∧
      (s = executing →
        (status p = authorized ∧ decision p = allow ∧ mode = Some read ∧
         requiresApproval = false) ∨
        (status p = approval_pending ∧ decision p = allow_with_approval ∧
         mode = Some mutation ∧ requiresApproval = true))
  end.
Proof.
  intros Ht. destruct r as [[]|e].
  - apply request_transition_Ok in Ht as (He & Hp & Ha & _ & Hlt & ->). simpl.
    split_and!; try done. intros ->. revert He Hp Ha. unfold edge_allowed.
    destruct (status p), (decision p); intros He Hp Ha; try discriminate He; naive_solver.
  - assert (atomic (transition s now mode requiresApproval)) as Hat
      by (unfold transition; eauto 20 with ts).
    by eapply Hat.
Qed.

(** Storage round trip: a request created from values with unique property
    names and taken through any transitions keeps a status its decision
    allows, canonical JSON fields and ordered times, and [restore] of its
    stored form gives it back. *)
Theorem stored_request_restores input p l :
  unique_names (normalizedArguments input) = true →
  unique_names (effectiveConstraints input) = true →
  history input p l → well_formed p ∧ restore (stored (snapshot p)) = Ok p.
Proof.
  intros Ha Hc Hh. assert (well_formed p) as Hwf; [|by split; [|apply restore_stored]].
  induction Hh; eauto using request_create_well_formed, request_transition_well_formed.
Qed.

Definition sample_input : ActionRequestProps js :=
  {| id := "r1"; projectId := "p1"; agentId := "a1"; resourceId := "res1"; connector := "fs";
     connectorVersion := "1"; operation := "filesystem.write";
     normalizedArguments := sample_json; effectiveConstraints := JObj 0 true false [];
     agentRunId := None; payloadHash := "h"; decision := allow_with_approval;
     riskLevel := risk_high; matchedGrantIds := ["g1"]; reasons := []; pipelineRunId := None;
     pipelineStageRunId := None; status := expired; createdAt := None; updatedAt := None |}.

Lemma request_lifecycle_witness :
  let l := [requested; authorized; simulating; simulated; approval_pending; executing] in
  ∃ p0, create sample_input (Some 1%Z) = Ok p0 ∧
    (is_lifecycle_prefix (decision sample_input) l = true ↔
     ∃ p, history sample_input p (reverse l)) ∧
    is_lifecycle_prefix (decision sample_input) l = true.
Proof.
  intros l. destruct (create sample_input (Some 1%Z)) as [p0|e] eqn:Hc; [|by vm_compute in Hc].
  exists p0. split; [reflexivity|]. split; [exact (request_lifecycle sample_input _ p0 l Hc)|].
  by vm_compute.
Defined.

Lemma execution_lease_witness :
  ∃ p r p', create sample_input (Some 1%Z) = Ok p ∧
    transition authorized (Some 2%Z) None false p = (r, p') ∧
    match r with
    | Throw _ => p' = p
    | Ok _ =>
        status p' = authorized ∧ decision p' = decision p ∧ updatedAt p' = Some 2%Z ∧
        date_ltb (Some 2%Z) (updatedAt p) = false ∧
        (authorized = executing →
          (status p = authorized ∧ decision p = allow ∧ None = Some read ∧ false = false) ∨
          (status p = approval_pending ∧ decision p = allow_with_approval ∧
           None = Some mutation ∧ false = true))
    end.
Proof.
  destruct (create sample_input (Some 1%Z)) as [p|e] eqn:Hc; [|by vm_compute in Hc].
  destruct (transition authorized (Some 2%Z) None false p) as [r p'] eqn:Ht.
  exists p, r, p'. split; [reflexivity|]. split; [reflexivity || exact Ht|].
  exact (execution_lease authorized (Some 2%Z) None false p r p' Ht).
Defined.

Lemma stored_request_restores_witness :
  ∃ p, unique_names (normalizedArguments sample_input) = true ∧
    unique_names (effectiveConstraints sample_input) = true ∧
    history sample_input p [status p] ∧ well_formed p ∧ restore (stored (snapshot p)) = Ok p.
Proof.
  destruct (create sample_input (Some 1%Z)) as [p|e] eqn:Hc; [|by vm_compute in Hc].
  assert (unique_names (normalizedArguments sample_input) = true) as H1 by by vm_compute.
  assert (unique_names (effectiveConstraints sample_input) = true) as H2 by by vm_compute.
  pose proof (history_create sample_input _ p Hc) as Hh.
  exists p. split; [exact H1|]. split; [exact H2|]. split; [exact Hh|].
  exact (stored_request_restores sample_input p _ H1 H2 Hh).
Defined.

End ActionRequest.

(** * Approvals *)

Module ActionApproval.

Inductive ActionApprovalStatus := pending | approved | rejected.

#[global] Instance ActionApprovalStatus_eq_dec : EqDecision ActionApprovalStatus.
Proof. solve_decision. Defined.

Record ActionApprovalProps := {
  id : string;
  projectId : string;
  actionRequestId : string;
  simulationId : string;
  actionPayloadHash : string;
  simulationArtifactHash : string;
  connector : string;
  connectorVersion : string;
  operation : string;
  status : ActionApprovalStatus;
  requestedAt : date;
  decidedAt : option date;
  actor : option string
}.

Definition validHash (value : string) : bool := is_sha256_hex value.

(** [value.trim().length === 0 || value.trim() !== value] *)
Definition not_canonical (value : string) : bool :=
  bool_decide (trim value = "") || negb (bool_decide (trim value = value)).

Definition normalize (props : ActionApprovalProps) : outcome ActionApprovalProps :=
  throw_if (existsb not_canonical
      [id props; projectId props; actionRequestId props; simulationId props; connector props;
       connectorVersion props; operation props])
    (CapabilityValidationError "Action approval identifiers must be canonical and non-empty");;
  throw_if (negb (validHash (actionPayloadHash props)) ||
            negb (validHash (simulationArtifactHash props)))
    (CapabilityValidationError "Action approval hash is invalid");;
  throw_if (negb (valid_date (requestedAt props)))
    (CapabilityValidationError "Action approval timestamp is invalid");;
  throw_if (if decide (status props = pending)
            then negb (bool_decide (decidedAt props = None) && bool_decide (actor props = None))
            else false)
    (CapabilityValidationError "Pending action approval cannot have a decision");;
  throw_if (if decide (status props = pending) then false
            else match decidedAt props, actor props with
                 | Some d, Some a =>
                     negb (valid_date d) || date_ltb d (requestedAt props) ||
                     bool_decide (trim a = "")
                 | _, _ => true
                 end)
    (CapabilityValidationError "Decided action approval requires actor and monotonic timestamp");;
  Ok props.

Definition with_decision (p : ActionApprovalProps) (s : ActionApprovalStatus) (requested : date)
    (decided : option date) (who : option string) : ActionApprovalProps :=
  {| id := id p; projectId := projectId p; actionRequestId := actionRequestId p;
     simulationId := simulationId p; actionPayloadHash := actionPayloadHash p;
     simulationArtifactHash := simulationArtifactHash p; connector := connector p;
     connectorVersion := connectorVersion p; operation := operation p; status := s;
     requestedAt := requested; decidedAt := decided; actor := who |}.

(** [ActionApproval.request]; the fields [Omit]ted from its input are not read. *)
Definition request (props : ActionApprovalProps) (now : date) : outcome ActionApprovalProps :=
  normalize (with_decision props pending now None None).

Definition restore (props : ActionApprovalProps) : outcome ActionApprovalProps := normalize props.
Definition snapshot (p : ActionApprovalProps) : ActionApprovalProps := p.

Definition decide_approval (s : ActionApprovalStatus) (who : string) (now : date)
    : method ActionApprovalProps unit :=
  p ← get;
  refuse_if (negb (bool_decide (status p = pending)))
    (CapabilityValidationError "Action approval is already decided");;
  p' ← lift (normalize (with_decision p s (requestedAt p) (Some now) (Some who)));
  put p'.

Definition approve (who : string) (now : date) := decide_approval approved who now.
Definition reject (who : string) (now : date) := decide_approval rejected who now.

Inductive step (p p' : ActionApprovalProps) : Prop :=
| step_approve who now : approve who now p = (Ok tt, p') → step p p'
| step_reject who now : reject who now p = (Ok tt, p') → step p p'.

(** ** Lemmas *)

Lemma approval_normalize_Ok p p' : normalize p = Ok p' → p' = p.
Proof. unfold normalize. rewrite !throw_if_bind_Ok. intros (_ & _ & _ & _ & _ & [= <-]). done. Qed.

Lemma decide_approval_Ok s who now p p' :
  decide_approval s who now p = (Ok tt, p') →
  status p = pending ∧ p' = with_decision p s (requestedAt p) (Some now) (Some who) ∧
  normalize p' = Ok p'.
Proof.
  unfold decide_approval. rewrite get_bind, refuse_if_bind_Ok.
  intros [Hp%negb_false_iff%bool_decide_eq_true H]. inv_ok.
  match goal with H : normalize _ = Ok _ |- _ => pose proof (approval_normalize_Ok _ _ H); subst; done end.
Qed.

Lemma step_decided p p' : step p p' → status p = pending ∧ normalize p' = Ok p' ∧ status p' ≠ pending.
Proof.
  by intros [who now H|who now H]; apply decide_approval_Ok in H as (? & -> & ?).
Qed.

(** What an approval always carries: canonical identifiers, SHA-256 hashes, and
    a decision exactly when it is no longer pending, with an actor and a time
    not before the request. *)
Record approval_ok (p : ActionApprovalProps) : Prop := {
  ok_identifiers : Forall (λ v, canonical v = true)
    [id p; projectId p; actionRequestId p; simulationId p; connector p; connectorVersion p;
     operation p];
  ok_hashes : is_sha256_hex (actionPayloadHash p) = true ∧
              is_sha256_hex (simulationArtifactHash p) = true;
  ok_pending : status p = pending → decidedAt p = None ∧ actor p = None;
  ok_decided : status p ≠ pending → ∃ d a, decidedAt p = Some d ∧ actor p = Some a ∧
    trim a ≠ "" ∧ date_leb (requestedAt p) d = true
}.

Lemma not_canonical_false v : not_canonical v = false ↔ canonical v = true.
Proof.
  unfold not_canonical. rewrite canonical_spec, orb_false_iff, negb_false_iff.
  rewrite bool_decide_eq_false, bool_decide_eq_true. naive_solver congruence.
Qed.

Lemma not_canonical_all l : existsb not_canonical l = false ↔ Forall (λ v, canonical v = true) l.
Proof.
  induction l as [|v l IH]; simpl; [done|].
  by rewrite orb_false_iff, not_canonical_false, IH, Forall_cons.
Qed.

Lemma approval_normalize_spec p : is_ok (normalize p) = true ↔ approval_ok p ∧ valid_date (requestedAt p) = true.
Proof.
  unfold normalize. rewrite !is_ok_throw_if, !andb_true_iff, !negb_true_iff.
  rewrite not_canonical_all, orb_false_iff, !negb_false_iff. split.
  - intros (Hi & Hh & Hr & Hp & Hd & _). split; [|done]. constructor; [done|done| |].
    + intros Hs. rewrite decide_True in Hp by done.
      apply negb_false_iff, andb_true_iff in Hp. by rewrite !bool_decide_eq_true in Hp.
    + intros Hs. rewrite decide_False in Hd by done.
      destruct (decidedAt p) as [d|], (actor p) as [a|]; try done. exists d, a.
      rewrite !orb_false_iff, negb_false_iff, bool_decide_eq_false in Hd.
      destruct Hd as [[Hv Hlt] Ha]. split_and!; try done.
      destruct d, (requestedAt p); try done. simpl in *. lia.
  - intros [[Hi [H1 H2] Hp Hd] Hr]. unfold validHash. rewrite H1, H2.
    split; [exact Hi|]. split; [done|]. split; [exact Hr|]. split; [|split; [|done]];
      destruct (decide (status p = pending)) as [Hs|Hs]; try done.
    + apply negb_false_iff, andb_true_iff. rewrite !bool_decide_eq_true. by apply Hp.
    + destruct (Hd Hs) as (d & a & -> & -> & Ha & Hle).
      rewrite !orb_false_iff, negb_false_iff, bool_decide_eq_false.
      destruct d, (requestedAt p); try done. simpl in *. split_and!; try done. lia.
Qed.

(** ** Properties *)

(** [ActionApproval] accepts exactly the well-formed approvals: [restore]
    succeeds, returning its argument, if and only if the identifiers are
    canonical, the hashes are SHA-256 digests, the request time is valid and
    actor and decision time are there exactly when a decision is, the time
    valid and not before the request. *)
Theorem approval_restore_exact p p' :
  restore p = Ok p' ↔ p' = p ∧ approval_ok p ∧ valid_date (requestedAt p) = true.
Proof.
  rewrite <-approval_normalize_spec. unfold restore. split.
  - intros H. split; [by apply approval_normalize_Ok|]. by rewrite H.
  - intros [-> H]. destruct (normalize p) as [q|e] eqn:Hq; [|done].
    by rewrite (approval_normalize_Ok _ _ Hq).
Qed.

(** An approval is decided at most once: after one decision succeeded,
    which takes a pending approval, every later one is refused and changes
    nothing. *)
Theorem approval_decided_once p p1 who now s :
  step p p1 → status p = pending ∧ approval_ok p1 ∧
  ∃ e, decide_approval s who now p1 = (Throw e, p1).
Proof.
  intros (Hp & Hn & Hs)%step_decided. split; [done|]. split.
  - apply approval_normalize_spec. by rewrite Hn.
  - unfold decide_approval. rewrite get_bind. rewrite bool_decide_eq_false_2 by done. eauto.
Qed.

Definition sample_hash : string :=
  "0123456789abcdef0123456789abcdef0123456789abcdef0123456789abcdef".

Definition sample_approval : ActionApprovalProps :=
  {| id := "ap1"; projectId := "p1"; actionRequestId := "r1"; simulationId := "s1";
     actionPayloadHash := sample_hash; simulationArtifactHash := sample_hash; connector := "fs";
     connectorVersion := "1"; operation := "filesystem.write"; status := pending;
     requestedAt := Some 5%Z; decidedAt := None; actor := None |}.

Lemma approval_decided_once_witness :
  ∃ p1, step sample_approval p1 ∧ status sample_approval = pending ∧ approval_ok p1 ∧
    ∃ e, decide_approval rejected "bob" (Some 9%Z) p1 = (Throw e, p1).
Proof.
  exists (with_decision sample_approval approved (Some 5%Z) (Some (Some 7%Z)) (Some "alice")).
  assert (step sample_approval
    (with_decision sample_approval approved (Some 5%Z) (Some (Some 7%Z)) (Some "alice"))) as Hs
    by by apply (step_approve _ _ "alice" (Some 7%Z)); vm_compute.
  split; [exact Hs|]. exact (approval_decided_once _ _ "bob" (Some 9%Z) rejected Hs).
Defined.

End ActionApproval.

(** * Executions *)

Module ActionExecution.

Inductive ActionExecutionStatus := executing | completed | failed | execution_unknown.

#[global] Instance ActionExecutionStatus_eq_dec : EqDecision ActionExecutionStatus.
Proof. solve_decision. Defined.

Record ActionExecutionProps := {
  id : string;
  projectId : string;
  actionRequestId : string;
  simulationId : string;
  approvalId : string;
  status : ActionExecutionStatus;
  startedAt : date;
  completedAt : option date;
  failureCode : option string;
  resultHash : option string
}.

Definition defined {A} (v : option A) : bool := match v with Some _ => true | None => false end.

Definition normalize (props : ActionExecutionProps) : outcome ActionExecutionProps :=
  throw_if (existsb ActionApproval.not_canonical
      [id props; projectId props; actionRequestId props; simulationId props; approvalId props])
    (CapabilityValidationError "Action execution identifiers must be canonical and non-empty");;
  throw_if (negb (valid_date (startedAt props)))
    (CapabilityValidationError "Action execution timestamp is invalid");;
  (if decide (status props = executing) then
     throw_if (defined (completedAt props) || defined (failureCode props) ||
               defined (resultHash props))
       (CapabilityValidationError "Executing action cannot have a terminal outcome")
   else
     throw_if (match completedAt props with
               | None => true
               | Some c => negb (valid_date c) || date_ltb c (startedAt props)
               end)
       (CapabilityValidationError "Terminal action execution requires a monotonic timestamp");;
     throw_if (bool_decide (status props = completed) && defined (failureCode props))
       (CapabilityValidationError "Completed action execution cannot have a failure code");;
     throw_if (negb (bool_decide (status props = completed)) &&
               match failureCode props with None => true | Some c => bool_decide (trim c = "") end)
       (CapabilityValidationError "Failed or unknown execution requires a failure code");;
     throw_if (match resultHash props with None => false | Some h => negb (is_sha256_hex h) end)
       (CapabilityValidationError "Action execution result hash is invalid"));;
  Ok props.

Definition with_outcome (p : ActionExecutionProps) (s : ActionExecutionStatus) (started : date)
    (done : option date) (code hash : option string) : ActionExecutionProps :=
  {| id := id p; projectId := projectId p; actionRequestId := actionRequestId p;
     simulationId := simulationId p; approvalId := approvalId p; status := s;
     startedAt := started; completedAt := done; failureCode := code; resultHash := hash |}.

(** [ActionExecution.start]; the fields [Omit]ted from its input are not read. *)
Definition start (props : ActionExecutionProps) (now : date) : outcome ActionExecutionProps :=
  normalize (with_outcome props executing now None None None).

Definition restore (props : ActionExecutionProps) : outcome ActionExecutionProps := normalize props.
Definition snapshot (p : ActionExecutionProps) : ActionExecutionProps := p.

(** [{ ...props, ...(v === undefined ? {} : { field: v }) }] *)
Definition override (v old : option string) : option string :=
  match v with Some x => Some x | None => old end.

Definition finish (s : ActionExecutionStatus) (now : date) (code hash : option string)
    : method ActionExecutionProps unit :=
  p ← get;
  refuse_if (negb (bool_decide (status p = executing)))
    (CapabilityValidationError "Action execution is already terminal");;
  p' ← lift (normalize (with_outcome p s (startedAt p) (Some now)
               (override code (failureCode p)) (override hash (resultHash p))));
  put p'.

Definition complete (now : date) (hash : option string) := finish completed now None hash.
Definition fail (now : date) (code : string) := finish failed now (Some code) None.
Definition markUnknown (now : date) (code : string) := finish execution_unknown now (Some code) None.

Inductive call :=
| CComplete (hash : option string)
| CFail (code : string)
| CMarkUnknown (code : string).

Definition run_call (c : call) (now : date) : method ActionExecutionProps unit :=
  match c with
  | CComplete h => complete now h
  | CFail code => fail now code
  | CMarkUnknown code => markUnknown now code
  end.

(** ** Lemmas *)

(** A stored execution: outcome fields exactly as its status asks. *)
Record execution_ok (p : ActionExecutionProps) : Prop := {
  ok_identifiers : Forall (λ v, canonical v = true)
    [id p; projectId p; actionRequestId p; simulationId p; approvalId p];
  ok_started : valid_date (startedAt p) = true;
  ok_running : status p = executing →
    completedAt p = None ∧ failureCode p = None ∧ resultHash p = None;
  ok_terminal : status p ≠ executing →
    (∃ c, completedAt p = Some c ∧ date_leb (startedAt p) c = true) ∧
    (if decide (status p = completed) then failureCode p = None
     else ∃ code, failureCode p = Some code ∧ trim code ≠ "") ∧
    (∀ h, resultHash p = Some h → is_sha256_hex h = true)
}.

Lemma is_ok_throw b (e : error) : is_ok (throw_if b e) = negb b.
Proof. by destruct b. Qed.

Lemma is_ok_bind_unit (k : outcome ActionExecutionProps) (u : outcome unit) :
  is_ok (u;; k) = is_ok u && is_ok k.
Proof. by destruct u. Qed.

Lemma late_or_missing (c : option date) (started : date) :
  valid_date started = true →
  (match c with None => true | Some c => negb (valid_date c) || date_ltb c started end) = false ↔
  ∃ d, c = Some d ∧ date_leb started d = true.
Proof.
  intros Hv. destruct c as [d|]; [|naive_solver]. destruct started as [s|]; [|done].
  destruct d as [d|]; simpl; [|naive_solver]. rewrite Z.ltb_ge. split.
  - intros. exists (Some d). split; [done|]. by apply Z.leb_le.
  - intros (? & [= <-] & ?%Z.leb_le). done.
Qed.

Lemma execution_normalize_spec p : is_ok (normalize p) = true ↔ execution_ok p.
Proof.
  unfold normalize. rewrite !is_ok_throw_if, (is_ok_bind_unit (Ok p)).
  rewrite !andb_true_iff, !negb_true_iff, negb_false_iff, ActionApproval.not_canonical_all.
  destruct (decide (status p = executing)) as [Hs|Hs].
  - split.
    + intros (Hi & Hv & Hr & _).
      rewrite is_ok_throw, negb_true_iff, !orb_false_iff in Hr. destruct Hr as [[H1 H2] H3].
      constructor; try done. intros _. by destruct (completedAt p), (failureCode p), (resultHash p).
    + intros [Hi Hv Hr _]. destruct (Hr Hs) as (-> & -> & ->). by split_and!.
  - rewrite !is_ok_throw_if, is_ok_throw, !andb_true_iff, !negb_true_iff.
    split.
    + intros (Hi & Hv & (Hc & Hf & Hn & Hh) & _).
      apply late_or_missing in Hc; [|done]. constructor; try done. intros _.
      split; [done|]. split.
      * case_decide as Hcm.
        -- rewrite bool_decide_eq_true_2 in Hf by done. by destruct (failureCode p).
        -- rewrite bool_decide_eq_false_2 in Hn by done. simpl in Hn.
           destruct (failureCode p) as [c|]; [|done]. exists c. by case_bool_decide.
      * intros h Hr. rewrite Hr in Hh. by apply negb_false_iff in Hh.
    + intros [Hi Hv _ Ht]. destruct (Ht Hs) as (Hc & Hf & Hh).
      split; [done|]. split; [done|]. split; [|done].
      split; [by apply late_or_missing|]. case_decide as Hcm.
      * rewrite bool_decide_eq_true_2, Hf by done. split; [done|]. split; [done|].
        destruct (resultHash p) as [h|]; [|done]. apply negb_false_iff. auto.
      * rewrite bool_decide_eq_false_2 by done. destruct Hf as (c & -> & Hc').
        split; [done|]. split; [by apply bool_decide_eq_false_2|].
        destruct (resultHash p) as [h|]; [|done]. apply negb_false_iff. auto.
Qed.

Definition target (c : call) : ActionExecutionStatus :=
  match c with CComplete _ => completed | CFail _ => failed | CMarkUnknown _ => execution_unknown end.

(** The arguments a call accepts: a digest, or a failure code that is not blank. *)
Definition arguments_ok (c : call) : bool :=
  match c with
  | CComplete None => true
  | CComplete (Some h) => is_sha256_hex h
  | CFail code | CMarkUnknown code => negb (bool_decide (trim code = ""))
  end.

Definition outcome_of (c : call) (now : date) (p : ActionExecutionProps) : ActionExecutionProps :=
  match c with
  | CComplete h => with_outcome p completed (startedAt p) (Some now) None h
  | CFail code => with_outcome p failed (startedAt p) (Some now) (Some code) None
  | CMarkUnknown code => with_outcome p execution_unknown (startedAt p) (Some now) (Some code) None
  end.

Lemma run_call_running c now p :
  execution_ok p → status p = executing →
  run_call c now p =
    match normalize (outcome_of c now p) with
    | Ok p' => (Ok tt, p')
    | Throw e => (Throw e, p)
    end.
Proof.
  intros [_ _ Hr _] Hs. destruct (Hr Hs) as (_ & Hf & Hh).
  destruct c as [[h|]|code|code]; simpl; unfold complete, fail, markUnknown, finish;
    rewrite get_bind, Hs; unfold mbind, action_bind, refuse_if, lift; simpl;
    rewrite ?Hf, ?Hh; simpl; by destruct (normalize _).
Qed.

Lemma execution_normalize_Ok p p' : normalize p = Ok p' → p' = p.
Proof.
  unfold normalize. rewrite !throw_if_bind_Ok. intros (_ & _ & H). by inv_ok.
Qed.

Lemma outcome_ok c now p :
  execution_ok p →
  execution_ok (outcome_of c now p) ↔
  arguments_ok c = true ∧ date_leb (startedAt p) now = true.
Proof.
  intros [Hi Hv _ _]. split.
  - intros [_ _ _ Ht]. destruct c as [h|code|code]; simpl in *;
      destruct Ht as ((d & [= <-] & Hd) & Hf & Hh); try done; (split; [|done]);
      try (destruct Hf as (x & [= <-] & Hx); by apply negb_true_iff, bool_decide_eq_false_2).
    destruct h as [h|]; [|done]. by apply Hh.
  - intros [Ha Hd]. destruct c as [h|code|code]; simpl in *; constructor; simpl; try done;
      intros _; (split; [eauto|]); (split; [|try done]).
    + done.
    + intros h' ->. done.
    + exists code. split; [done|]. by apply negb_true_iff, bool_decide_eq_false_1 in Ha.
    + exists code. split; [done|]. by apply negb_true_iff, bool_decide_eq_false_1 in Ha.
Qed.

(** ** Properties *)

(** An execution ends exactly once: on a well-formed execution a call
    succeeds if and only if the execution is still running, the arguments are
    valid (a SHA-256 result hash, a non-blank failure code) and the time is
    valid and not before the start; it then records exactly its outcome in a
    well-formed execution, and otherwise it changes nothing. *)
Theorem execution_ends_once c now p r p' :
  execution_ok p → run_call c now p = (r, p') →
  if bool_decide (status p = executing) && arguments_ok c && date_leb (startedAt p) now then
    r = Ok tt ∧ p' = outcome_of c now p ∧ execution_ok p' ∧ status p' = target c
  else (∃ e, r = Throw e) ∧ p' = p.
Proof.
  intros Hok. destruct (decide (status p = executing)) as [Hs|Hs].
  - rewrite run_call_running by done. rewrite bool_decide_eq_true_2 by done. simpl.
    pose proof (outcome_ok c now p Hok) as Ho. rewrite <-execution_normalize_spec in Ho.
    destruct (normalize (outcome_of c now p)) as [q|e] eqn:Hq; intros [= <- <-].
    + apply execution_normalize_Ok in Hq as Hq'. subst q. destruct Ho as [Ho _].
      destruct (Ho eq_refl) as [-> ->]. simpl. split_and!; try done; [|by destruct c].
      apply execution_normalize_spec. by rewrite Hq.
    + destruct (arguments_ok c), (date_leb (startedAt p) now); simpl; eauto.
      by destruct Ho as [_ Ho]; specialize (Ho (conj eq_refl eq_refl)).
  - rewrite bool_decide_eq_false_2 by done. simpl.
    destruct c; simpl; unfold complete, fail, markUnknown, finish;
      rewrite get_bind, bool_decide_eq_false_2 by done; intros [= <- <-]; eauto.
Qed.

Definition sample_execution : ActionExecutionProps :=
  {| id := "e1"; projectId := "p1"; actionRequestId := "r1"; simulationId := "s1";
     approvalId := "ap1"; status := executing; startedAt := Some 5%Z; completedAt := None;
     failureCode := None; resultHash := None |}.

Lemma execution_ends_once_witness :
  execution_ok sample_execution ∧ execution_ok (outcome_of (CFail "E1") (Some 6%Z) sample_execution).
Proof.
  assert (execution_ok sample_execution) as Hok by by apply execution_normalize_spec; vm_compute.
  split; [exact Hok|].
  exact (proj1 (proj2 (proj2 (execution_ends_once (CFail "E1") (Some 6%Z) sample_execution
    (Ok tt) (outcome_of (CFail "E1") (Some 6%Z) sample_execution) Hok eq_refl)))).
Defined.

End ActionExecution.

(** * Simulations *)

Module ActionSimulation.

Inductive FilePrecondition :=
| absent (path : string)
| file (path sha256 : string) (size : number).

Definition path_of (c : FilePrecondition) : string :=
  match c with absent p => p | file p _ _ => p end.

Record ActionSimulationProps {P : Type} := {
  id : string;
  projectId : string;
  actionRequestId : string;
  authorizationPayloadHash : string;
  connector : string;
  connectorVersion : string;
  operation : string;
  preconditions : P;
  diff : string;
  diffSha256 : string;
  artifactSha256 : string;
  createdAt : date
}.
Arguments ActionSimulationProps : clear implicits.

(** Reading [record.key] of a canonical object. *)
Definition get_member (key : string) (members : list (string * cjson)) : option cjson :=
  snd <$> List.find (λ m, bool_decide (m.1 = key)) members.

(** [Object.keys(record).sort().join(",")] *)
Definition joined_keys (members : list (string * cjson)) : string :=
  join "," (sort_by compare_text members.*1).

Definition invalid : error := CapabilityValidationError "Action simulation precondition is invalid".

(** One turn of the loop of [normalizeFilePreconditions], before the check
    for a contradicting path. *)
Definition parse_precondition (candidate : cjson) : outcome FilePrecondition :=
  match candidate with
  | CObj members =>
      match get_member "path" members, get_member "kind" members with
      | Some (CStr path), Some (CStr kind) =>
          throw_if ((String.length path =? 0) || negb (includes kind ["absent"; "file"])) invalid;;
          if bool_decide (kind = "absent") then
            throw_if (negb (bool_decide (joined_keys members = "kind,path")))
              (CapabilityValidationError "Action simulation absent precondition is invalid");;
            Ok (absent path)
          else
            let refusal :=
              CapabilityValidationError "Action simulation file precondition is invalid" in
            throw_if (negb (bool_decide (joined_keys members = "kind,path,sha256,size"))) refusal;;
            match get_member "sha256" members, get_member "size" members with
            | Some (CStr sha256), Some (CNum size) =>
                throw_if (negb (is_sha256_hex sha256) || negb (is_safe_integer size) ||
                          num_lt size 0) refusal;;
                Ok (file path sha256 size)
            | _, _ => Throw refusal
            end
      | _, _ => Throw invalid
      end
  | _ => Throw invalid
  end.

Fixpoint parse_preconditions (identities : list string) (l : list cjson)
    : outcome (list FilePrecondition) :=
  match l with
  | [] => Ok []
  | candidate :: rest =>
      c ← parse_precondition candidate;
      throw_if (includes (path_of c) identities)
        (CapabilityValidationError
           "Action simulation preconditions contradict for the same path");;
      cs ← parse_preconditions (path_of c :: identities) rest;
      Ok (c :: cs)
  end.

Definition normalizeFilePreconditions (value : js) : outcome (list FilePrecondition) :=
  normalized ← normalizeCanonicalJson value;
  match normalized with
  | CArr items => parse_preconditions [] items
  | _ => Throw (CapabilityValidationError "Action simulation preconditions must be an array")
  end.

Definition create (props : ActionSimulationProps js)
    : outcome (ActionSimulationProps (list FilePrecondition)) :=
  throw_if (existsb ActionRequest.blank
      [id props; projectId props; actionRequestId props; connector props;
       connectorVersion props; operation props])
    (CapabilityValidationError "Action simulation identifiers cannot be empty");;
  throw_if (negb (forallb is_sha256_hex
      [authorizationPayloadHash props; diffSha256 props; artifactSha256 props]))
    (CapabilityValidationError "Action simulation hash is invalid");;
  throw_if (negb (valid_date (createdAt props)))
    (CapabilityValidationError "Action simulation timestamp is invalid");;
  cs ← normalizeFilePreconditions (preconditions props);
  Ok {| id := id props; projectId := projectId props; actionRequestId := actionRequestId props;
        authorizationPayloadHash := authorizationPayloadHash props; connector := connector props;
        connectorVersion := connectorVersion props; operation := operation props;
        preconditions := cs; diff := diff props; diffSha256 := diffSha256 props;
        artifactSha256 := artifactSha256 props; createdAt := createdAt props |}.

Definition snapshot (p : ActionSimulationProps (list FilePrecondition)) := p.

(** The precondition as the object [normalizeFilePreconditions] reads. *)
Definition to_json (c : FilePrecondition) : cjson :=
  match c with
  | absent path => CObj [("kind", CStr "absent"); ("path", CStr path)]
  | file path sha256 size =>
      CObj [("kind", CStr "file"); ("path", CStr path); ("sha256", CStr sha256);
            ("size", CNum size)]
  end.

Definition precondition_ok (c : FilePrecondition) : bool :=
  negb (String.length (path_of c) =? 0) &&
  match c with
  | absent _ => true
  | file _ sha256 size =>
      is_sha256_hex sha256 && is_safe_integer size && negb (num_lt size 0) &&
      canonical_number size
  end.

(** ** Lemmas *)

Lemma parse_precondition_ok v c :
  canonical_json v = true → parse_precondition v = Ok c → precondition_ok c = true.
Proof.
  intros Hv. unfold parse_precondition. destruct v as [| | | | |l]; try done.
  destruct (get_member "path" l) as [[| | |path| |]|] eqn:Hp; try done.
  destruct (get_member "kind" l) as [[| | |kind| |]|] eqn:Hk; try done.
  rewrite throw_if_bind_Ok, orb_false_iff. intros [[Hlen _] H].
  case_bool_decide; rewrite throw_if_bind_Ok in H; destruct H as [_ H].
  - injection H as <-. unfold precondition_ok. simpl. by rewrite Hlen.
  - destruct (get_member "sha256" l) as [[| | |sha| |]|]; try done.
    destruct (get_member "size" l) as [[| |n| | |]|] eqn:Hn; try done.
    rewrite throw_if_bind_Ok, !orb_false_iff in H. destruct H as [[[H1 H2] H3] [= <-]].
    apply negb_false_iff in H1, H2. unfold precondition_ok. simpl.
    rewrite Hlen, H1, H2, H3. simpl. apply canonical_members in Hv. rewrite Forall_forall in Hv.
    unfold get_member in Hn. destruct (List.find _ l) as [m|] eqn:Hf; [|done].
    injection Hn as Hn. apply List.find_some in Hf as [Hin _]. apply list_elem_of_In in Hin.
    specialize (Hv m Hin). by rewrite Hn in Hv.
Qed.

Lemma parse_to_json c : precondition_ok c = true → parse_precondition (to_json c) = Ok c.
Proof.
  unfold precondition_ok. rewrite andb_true_iff, negb_true_iff. intros [Hl Hc].
  destruct c as [path|path sha size]; simpl in *; rewrite Hl; simpl; [done|].
  rewrite !andb_true_iff, negb_true_iff in Hc. destruct Hc as [[[-> ->] ->] _]. done.
Qed.

Lemma parse_preconditions_Ok ids l cs :
  Forall (λ v, canonical_json v = true) l → parse_preconditions ids l = Ok cs →
  Forall (λ c, precondition_ok c = true) cs ∧ NoDup (path_of <$> cs) ∧
  ∀ c, c ∈ cs → path_of c ∉ ids.
Proof.
  revert ids cs. induction l as [|v l IH]; intros ids cs Hl; simpl.
  - intros [= <-]. split_and!; [constructor|constructor|by intros c ?%not_elem_of_nil].
  - apply Forall_cons in Hl as [Hv Hl]. rewrite bind_Ok. intros (c & Hc & H).
    apply throw_if_bind_Ok in H as [Hid%includes_false H].
    apply bind_Ok in H as (cs' & Hcs & [= <-]).
    destruct (IH _ _ Hl Hcs) as (Hok & Hnd & Hids). rewrite fmap_cons. split_and!.
    + constructor; [by eapply parse_precondition_ok|done].
    + constructor; [|done]. intros (c' & Heq & Hc')%list_elem_of_fmap.
      apply (Hids c' Hc'). rewrite <-Heq. by left.
    + intros c' [->|Hc']%elem_of_cons; [done|]. intros Hin. apply (Hids c' Hc'). by right.
Qed.

Lemma parse_preconditions_to_json ids cs :
  Forall (λ c, precondition_ok c = true) cs → NoDup (path_of <$> cs) →
  (∀ c, c ∈ cs → path_of c ∉ ids) → parse_preconditions ids (to_json <$> cs) = Ok cs.
Proof.
  intros Hok. revert ids. induction Hok as [|c cs Hc _ IH]; intros ids; [done|].
  rewrite !fmap_cons. intros [Hn Hnd]%NoDup_cons Hids. simpl.
  rewrite parse_to_json by done. simpl.
  rewrite (proj2 (includes_false _ _)) by (apply Hids; by left). simpl.
  rewrite IH; [done|done|]. intros c' Hc' [Heq|Hin]%elem_of_cons.
  - apply Hn. rewrite <-Heq. by apply list_elem_of_fmap_2.
  - apply (Hids c'); [by right|done].
Qed.

Lemma to_json_canonical c : precondition_ok c = true → canonical_json (to_json c) = true.
Proof.
  unfold precondition_ok. rewrite andb_true_iff. intros [_ H].
  destruct c as [path|path sha size]; [done|]. rewrite !andb_true_iff in H. destruct H as [_ Hn].
  change (canonical_json (to_json (file path sha size)))
    with (canonical_number size && true).
  by rewrite Hn.
Qed.

(** ** Properties *)

(** The file preconditions of a simulation are trustworthy: whatever
    [normalizeFilePreconditions] accepts has non-empty, pairwise different
    paths, SHA-256 digests and non-negative safe sizes, and, written back as
    JSON, is accepted again with the same result. *)
Theorem file_preconditions_roundtrip v cs :
  unique_names v = true → normalizeFilePreconditions v = Ok cs →
  Forall (λ c, precondition_ok c = true) cs ∧ NoDup (path_of <$> cs) ∧
  normalizeFilePreconditions (embed 0 (CArr (to_json <$> cs))) = Ok cs.
Proof.
  unfold normalizeFilePreconditions. intros Hu. rewrite bind_Ok. intros (n & Hn & H).
  assert (canonical_json n = true) as Hc by by eapply normalize_canonical.
  destruct n as [| | | |l|]; try done. apply canonical_items in Hc.
  destruct (parse_preconditions_Ok _ _ _ Hc H) as (Hok & Hnd & Hids). split_and!; try done.
  unfold normalizeCanonicalJson. rewrite normalize_embed.
  - by apply parse_preconditions_to_json.
  - simpl. apply Forall_forallb, Forall_fmap. eapply Forall_impl; [exact Hok|].
    intros c. apply to_json_canonical.
  - by intros a ?%not_elem_of_nil.
Qed.

Definition sample_preconditions : js :=
  JArr 0 false []
    [plain (JObj 1 true false [("path", plain (JStr "a")); ("kind", plain (JStr "absent"))]);
     plain (JObj 2 true false
       [("path", plain (JStr "b")); ("size", plain (JNum NNegZero)); ("kind", plain (JStr "file"));
        ("sha256", plain (JStr ActionApproval.sample_hash))])].

Lemma file_preconditions_roundtrip_witness :
  ∃ cs, unique_names sample_preconditions = true ∧
    normalizeFilePreconditions sample_preconditions = Ok cs ∧
    Forall (λ c, precondition_ok c = true) cs ∧ NoDup (path_of <$> cs) ∧
    normalizeFilePreconditions (embed 0 (CArr (to_json <$> cs))) = Ok cs.
Proof.
  destruct (normalizeFilePreconditions sample_preconditions) as [cs|e] eqn:Hc;
    [|by vm_compute in Hc].
  assert (unique_names sample_preconditions = true) as Hu by by vm_compute.
  exists cs. split; [exact Hu|]. split; [reflexivity|].
  exact (file_preconditions_roundtrip sample_preconditions cs Hu Hc).
Defined.

End ActionSimulation.
