(* ===== verification/PolicyModel.v ===== *)
(** The capability policy: grants, the policy engine, and the constraint
    handler of the fake connector.  Models
    [packages/domain/src/capability/capability.ts], [policy-engine.ts] and
    [fake-connector-policy.ts].  The engine is proved against the class
    [ConstraintHandlerLaws], which the fake connector's handler discharges. *)
From S2P Require Import Prelude Errors Json ActionModel.
Import Canonical.

Module Policy.

(** * Data *)

Inductive ResourceType :=
| filesystem_scope | github_repository | sqlite_database | shell_environment.
Inductive ResourceStatus := active | disabled.
Inductive CapabilityPrincipalType :=
| principal_user | principal_agent | principal_role | principal_workflow | principal_application.
Inductive OperationMode := op_read | op_mutation.

#[global] Instance ResourceType_eq_dec : EqDecision ResourceType.
Proof. solve_decision. Defined.
#[global] Instance ResourceStatus_eq_dec : EqDecision ResourceStatus.
Proof. solve_decision. Defined.
#[global] Instance CapabilityPrincipalType_eq_dec : EqDecision CapabilityPrincipalType.
Proof. solve_decision. Defined.
#[global] Instance OperationMode_eq_dec : EqDecision OperationMode.
Proof. solve_decision. Defined.

Definition resource_type_name (t : ResourceType) : string :=
  match t with
  | filesystem_scope => "filesystem_scope" | github_repository => "github_repository"
  | sqlite_database => "sqlite_database" | shell_environment => "shell_environment"
  end.

Definition risk_name (r : RiskLevel) : string :=
  match r with
  | risk_low => "low" | risk_medium => "medium" | risk_high => "high" | risk_critical => "critical"
  end.

(** A stored JSON object: constraints, configurations. *)
Abbreviation record := (list (string * cjson)).

Record Resource := {
  res_id : string;
  res_projectId : string;
  res_type : ResourceType;
  res_provider : string;
  res_externalRef : option string;
  res_displayName : string;
  res_configuration : record;
  res_credentialRef : option string;
  res_status : ResourceStatus;
  res_createdAt : date;
  res_updatedAt : date
}.

Record CapabilityGrant := {
  gr_id : string;
  gr_projectId : string;
  gr_principalType : CapabilityPrincipalType;
  gr_principalId : string;
  gr_resourceId : string;
  gr_actions : list string;
  gr_constraints : record;
  gr_validFrom : date;
  gr_expiresAt : option date;
  gr_revokedAt : option date;
  gr_grantedBy : string;
  gr_reason : string;
  gr_createdAt : date
}.

Record PolicyInput := {
  pi_projectId : string;
  pi_agentId : string;
  pi_roleIds : list string;
  pi_resource : Resource;
  pi_operation : string;
  pi_arguments : js;
  pi_grants : list CapabilityGrant
}.

Record PolicyDecision := {
  pd_decision : PolicyDecisionKind;
  pd_riskLevel : RiskLevel;
  pd_matchedGrantIds : list string;
  pd_effectiveConstraints : record;
  pd_reasons : list string
}.

Record FakeConnectorConstraints := {
  fc_allowedTargets : option (list string);
  fc_deniedTargets : option (list string);
  fc_maxPayloadBytes : option number;
  fc_allowMutation : option bool
}.

Record ConnectorConstraintResult := {
  cr_ok : bool;
  cr_effectiveConstraints : record;
  cr_reasons : list string
}.

(** [(operation, arguments, constraints, resourceConfiguration)]; an evaluator
    may throw. *)
Definition ConnectorConstraintEvaluator : Type :=
  string → js → list record → record → outcome ConnectorConstraintResult.

Record ConnectorConstraintHandler := {
  ch_connector : string;
  ch_combineAndValidate : ConnectorConstraintEvaluator
}.

Record PolicyOperationDescriptor := {
  od_operation : string;
  od_mode : OperationMode;
  od_riskLevel : RiskLevel;
  od_supportsSimulation : bool;
  od_supportsExecution : bool;
  od_requiresApproval : bool
}.

Record PolicyConnectorDescriptor := {
  cd_id : string;
  cd_version : string;
  cd_supportedResourceTypes : list ResourceType;
  cd_operations : list PolicyOperationDescriptor
}.

Record ConnectorPolicyDefinition := {
  df_descriptor : PolicyConnectorDescriptor;
  df_constraintHandler : ConnectorConstraintHandler
}.

Definition ConnectorPolicyRegistry : Type := string → option ConnectorPolicyDefinition.

(** * The policy engine *)

Definition denied (reason : string) (riskLevel : RiskLevel) : PolicyDecision :=
  {| pd_decision := deny; pd_riskLevel := riskLevel; pd_matchedGrantIds := [];
     pd_effectiveConstraints := []; pd_reasons := [reason] |}.

Definition isPrincipalMatch (grant : CapabilityGrant) (input : PolicyInput) : bool :=
  if decide (gr_principalType grant = principal_agent)
  then bool_decide (gr_principalId grant = pi_agentId input)
  else bool_decide (gr_principalType grant = principal_role) &&
       includes (gr_principalId grant) (pi_roleIds input).

(** [action.slice(0, -1)] *)
Definition drop_last (action : string) : string :=
  String.substring 0 (String.length action - 1) action.

Definition actionMatches (action operation : string) (risk : RiskLevel) : bool :=
  if decide (action = operation) then true
  else if decide (risk = risk_critical) then false
  else if negb (ends_with action ".*") ||
          negb (bool_decide (String.index 0 "*" action = Some (String.length action - 1)))
  then false
  else starts_with operation (drop_last action) &&
       (String.length action - 1 <? String.length operation).

(** The predicate of the [filter] over the grants. *)
Definition grant_matches (input : PolicyInput) (riskLevel : RiskLevel) (evaluatedAt : date)
    (grant : CapabilityGrant) : bool :=
  bool_decide (gr_projectId grant = pi_projectId input) &&
  bool_decide (gr_resourceId grant = res_id (pi_resource input)) &&
  isPrincipalMatch grant input &&
  valid_date (gr_validFrom grant) &&
  match gr_expiresAt grant with None => true | Some e => valid_date e end &&
  bool_decide (gr_revokedAt grant = None) &&
  negb (date_ltb evaluatedAt (gr_validFrom grant)) &&
  match gr_expiresAt grant with None => true | Some e => negb (date_leb e evaluatedAt) end &&
  existsb (λ action, actionMatches action (pi_operation input) riskLevel) (gr_actions grant).

Definition matching_grants (input : PolicyInput) (riskLevel : RiskLevel) (evaluatedAt : date)
    : list CapabilityGrant :=
  List.filter (grant_matches input riskLevel evaluatedAt) (pi_grants input).

Definition find_operation (ops : list PolicyOperationDescriptor) (operation : string)
    : option PolicyOperationDescriptor :=
  List.find (λ d, bool_decide (od_operation d = operation)) ops.

(** The decision for an operation whose constraints hold. *)
Definition decision_for (descriptor : PolicyOperationDescriptor) : PolicyDecisionKind :=
  if od_requiresApproval descriptor then allow_with_approval
  else if od_supportsSimulation descriptor && bool_decide (od_mode descriptor = op_mutation)
  then allow_simulation_only else allow.

Definition decision_reasons (d : PolicyDecisionKind) (riskLevel : RiskLevel) : list string :=
  ["operation risk is " +:+ risk_name riskLevel] ++
  (if decide (d = allow_simulation_only) then ["simulation is required"] else []) ++
  (if decide (d = allow_with_approval) then ["approval is required"] else []).

Section engine.
  Context `{ShowNumber}.

Definition evaluate (registry : ConnectorPolicyRegistry) (input : PolicyInput)
    (evaluatedAt : date) : outcome PolicyDecision :=
  let resource := pi_resource input in
  if negb (bool_decide (pi_projectId input = res_projectId resource)) then
    Ok (denied "resource belongs to a different project" risk_critical)
  else if bool_decide (res_status resource = disabled) then
    Ok (denied "resource is disabled" risk_critical)
  else match registry (res_provider resource) with
  | None => Ok (denied ("unsupported connector: " +:+ res_provider resource) risk_critical)
  | Some definition =>
  let connector := df_descriptor definition in
  if negb (includes (res_type resource) (cd_supportedResourceTypes connector)) then
    Ok (denied ("resource type " +:+ resource_type_name (res_type resource)
          +:+ " is not supported by connector " +:+ cd_id connector) risk_critical)
  else match find_operation (cd_operations connector) (pi_operation input) with
  | None => Ok (denied ("unsupported operation: " +:+ pi_operation input) risk_critical)
  | Some descriptor =>
  let riskLevel := od_riskLevel descriptor in
  if negb (valid_date evaluatedAt) then
    Ok (denied "policy evaluation time is invalid" riskLevel)
  else if negb (is_ok (canonicalStringify (pi_arguments input))) then
    Ok (denied "action arguments are not canonically serializable" riskLevel)
  else
  let matching := matching_grants input riskLevel evaluatedAt in
  if length matching =? 0 then
    Ok (denied "no valid grant permits the operation" riskLevel)
  else
  result ← ch_combineAndValidate (df_constraintHandler definition) (pi_operation input)
             (pi_arguments input) (gr_constraints <$> matching) (res_configuration resource);
  let matchedGrantIds := sort_by compare_text (gr_id <$> matching) in
  if negb (cr_ok result) then
    Ok {| pd_decision := deny; pd_riskLevel := riskLevel; pd_matchedGrantIds := matchedGrantIds;
          pd_effectiveConstraints := cr_effectiveConstraints result;
          pd_reasons := cr_reasons result |}
  else
  let d := decision_for descriptor in
  Ok {| pd_decision := d; pd_riskLevel := riskLevel; pd_matchedGrantIds := matchedGrantIds;
        pd_effectiveConstraints := cr_effectiveConstraints result;
        pd_reasons := decision_reasons d riskLevel |}
  end end.

End engine.

(** * The fake connector's constraints *)

Definition fields : list string :=
  ["allowedTargets"; "deniedTargets"; "maxPayloadBytes"; "allowMutation"].

(** [value[key]] on a stored object. *)
Definition field (key : string) (value : record) : option cjson :=
  ActionSimulation.get_member key value.

(** [None] is [null]: not an array of non-empty strings. *)
Definition parseStringList (value : cjson) : option (list string) :=
  match value with
  | CArr items =>
      sorted_unique <$>
        mapM (λ item, match item with
                      | CStr s => if String.length s =? 0 then None else Some s
                      | _ => None
                      end) items
  | _ => None
  end.

Inductive parse_result := PValue (value : FakeConnectorConstraints) | PError (error : string).

Definition parse_targets (value : option cjson) : option (option (list string)) :=
  match value with
  | None => Some None
  | Some v => Some <$> parseStringList v
  end.

(** [n] is a non-negative safe integer *)
Definition valid_bytes (v : option cjson) : bool :=
  match v with
  | None => true
  | Some (CNum n) => is_safe_integer n && negb (num_lt n 0)
  | Some _ => false
  end.

Definition as_number (v : option cjson) : option number :=
  match v with Some (CNum n) => Some n | _ => None end.

Definition as_bool (v : option cjson) : option bool :=
  match v with Some (CBool b) => Some b | _ => None end.

Definition valid_flag (v : option cjson) : bool :=
  match v with None | Some (CBool _) => true | _ => false end.

Definition parseConstraint (value : record) : parse_result :=
  let unknown := filter (λ key, key ∉ fields) value.*1 in
  if negb (length unknown =? 0) then
    PError ("unsupported fake constraint fields: " +:+ join ", " (sort_by compare_text unknown))
  else
  match parse_targets (field "allowedTargets" value), parse_targets (field "deniedTargets" value) with
  | Some allowed, Some denied =>
      if negb (valid_bytes (field "maxPayloadBytes" value)) then
        PError "maxPayloadBytes must be a non-negative safe integer"
      else if negb (valid_flag (field "allowMutation" value)) then
        PError "allowMutation must be boolean"
      else
        PValue {| fc_allowedTargets := allowed; fc_deniedTargets := denied;
                  fc_maxPayloadBytes := as_number (field "maxPayloadBytes" value);
                  fc_allowMutation := as_bool (field "allowMutation" value) |}
  | _, _ => PError "target constraints must be arrays of non-empty strings"
  end.

Definition validateFakeConnectorConstraints (value : record) : outcome FakeConnectorConstraints :=
  match parseConstraint value with
  | PValue v => Ok v
  | PError e => Throw (InvalidCapabilityConstraintsError e)
  end.

(** The loop that parses every value: the first error, or all the values. *)
Fixpoint parse_all (values : list record) : string + list FakeConnectorConstraints :=
  match values with
  | [] => inr []
  | value :: rest =>
      match parseConstraint value with
      | PError e => inl e
      | PValue v => match parse_all rest with inl e => inl e | inr vs => inr (v :: vs) end
      end
  end.

(** A safe integer as an integer. *)
Definition number_value (n : number) : Z := match n with NInt z => z | _ => 0%Z end.

(** [Math.min] on safe integers, of which -0 is below 0. *)
Definition num_min (a b : number) : number :=
  match a, b with
  | NNegZero, NInt z => if (z <? 0)%Z then b else a
  | NInt z, NNegZero => if (z <? 0)%Z then a else b
  | NInt x, NInt y => if (y <? x)%Z then b else a
  | _, _ => a
  end.

(** The intersection of the lists of allowed targets, if there is any. *)
Definition combine_allowed (parsed : list FakeConnectorConstraints) : option (list string) :=
  match omap fc_allowedTargets parsed with
  | [] => None
  | first :: rest =>
      Some (sort_by compare_text
        (foldl (λ intersection l, List.filter (λ target, includes target l) intersection)
           first rest))
  end.

Definition combine_denied (parsed : list FakeConnectorConstraints) : list string :=
  sorted_unique (mjoin ((λ v, default [] (fc_deniedTargets v)) <$> parsed)).

Definition combine_max (parsed : list FakeConnectorConstraints) : option number :=
  match omap fc_maxPayloadBytes parsed with
  | [] => None
  | first :: rest => Some (foldl num_min first rest)
  end.

Definition combine_mutation (parsed : list FakeConnectorConstraints) : bool :=
  forallb (λ v, bool_decide (fc_allowMutation v = Some true)) parsed.

(** [arguments_.target], on an object whose properties are plain. *)
Definition get_prop (key : string) (value : js) : js :=
  match value with
  | JObj _ _ _ props =>
      match List.find (λ m, bool_decide (m.1 = key)) props with
      | Some (_, plain v) => v
      | _ => JUndefined
      end
  | _ => JUndefined
  end.

Definition string_of (value : js) : option string :=
  match value with JStr s => Some s | _ => None end.

Definition optional_field (key : string) (v : option cjson) : record :=
  match v with None => [] | Some x => [(key, x)] end.

Definition reason_if (b : bool) (reason : string) : list string := if b then [reason] else [].

Definition target_reasons (allowed : option (list string)) (denied : list string)
    (target : option string) : list string :=
  match target with
  | None =>
      reason_if (negb (bool_decide (allowed = None)) || negb (length denied =? 0))
        "fake constraints require a string target argument"
  | Some t =>
      match allowed with
      | None => []
      | Some l => reason_if (negb (includes t l)) ("target " +:+ t +:+ " is not allowed")
      end ++
      reason_if (includes t denied) ("target " +:+ t +:+ " is denied")
  end.

Section fake.
  Context `{ShowNumber}.

Definition payload_reasons (max : option number) (arguments : js) : outcome (list string) :=
  match max with
  | None => Ok []
  | Some m =>
      text ← canonicalStringify arguments;
      let bytes := utf8_length text in
      Ok (reason_if (number_value m <? bytes)%Z
        ("canonical arguments exceed maxPayloadBytes (" +:+ show_Z bytes +:+ " > "
         +:+ show_Z (number_value m) +:+ ")"))
  end.

(** [FakeConnectorConstraintHandler.combineAndValidate] *)
Definition fake_combineAndValidate : ConnectorConstraintEvaluator :=
  λ operation arguments values _,
  match parse_all values with
  | inl e => Ok {| cr_ok := false; cr_effectiveConstraints := []; cr_reasons := [e] |}
  | inr parsed =>
      let allowed := combine_allowed parsed in
      let denied := combine_denied parsed in
      let max := combine_max parsed in
      let allowMutation := combine_mutation parsed in
      payload ← payload_reasons max arguments;
      let reasons :=
        target_reasons allowed denied (string_of (get_prop "target" arguments)) ++
        reason_if (negb (bool_decide (operation = "fake.read")) && negb allowMutation)
          "mutation is not allowed by the effective constraints" ++
        payload in
      Ok {| cr_ok := length reasons =? 0;
            cr_effectiveConstraints :=
              optional_field "allowedTargets" ((λ l, CArr (CStr <$> l)) <$> allowed) ++
              [("deniedTargets", CArr (CStr <$> denied))] ++
              optional_field "maxPayloadBytes" (CNum <$> max) ++
              [("allowMutation", CBool allowMutation)];
            cr_reasons := reasons |}
  end.

Definition FakeConnectorConstraintHandler : ConnectorConstraintHandler :=
  {| ch_connector := "fake"; ch_combineAndValidate := fake_combineAndValidate |}.

End fake.

(** * The interface of the engine and its handlers *)

(** Two results that differ at most in how they explain a refusal. *)
Definition same_result (r r' : ConnectorConstraintResult) : Prop :=
  cr_ok r = cr_ok r' ∧ (cr_ok r = true → r = r').

(** What the engine needs of a handler: no exception on arguments that
    serialize, and no dependence on the order of the constraints. *)
Class ConstraintHandlerLaws (evaluator : ConnectorConstraintEvaluator) : Prop := {
  handler_total operation arguments cs configuration :
    acceptable [] arguments = true →
    ∃ r, evaluator operation arguments cs configuration = Ok r;
  handler_perm operation arguments cs cs' configuration r r' :
    cs ≡ₚ cs' → evaluator operation arguments cs configuration = Ok r →
    evaluator operation arguments cs' configuration = Ok r' → same_result r r'
}.

Definition same_decision (d d' : PolicyDecision) : Prop :=
  pd_decision d = pd_decision d' ∧ pd_riskLevel d = pd_riskLevel d' ∧
  pd_matchedGrantIds d = pd_matchedGrantIds d' ∧ (pd_decision d ≠ deny → d = d').

(** * Lemmas *)

(** ** Minima *)

(** Numbers in the order of [Math.min]: -0 just below 0. *)
Definition rank (n : number) : Z := match n with NInt z => 2 * z | _ => -1 end.

Definition integral (n : number) : Prop := is_safe_integer n = true.

Lemma rank_inj n m : integral n → integral m → rank n = rank m → n = m.
Proof. destruct n, m; simpl; intros ? ? ?; try done; try (f_equal; lia); lia. Qed.

Lemma rank_value n m :
  integral n → integral m → (rank n <= rank m)%Z → (number_value n <= number_value m)%Z.
Proof. destruct n, m; simpl; intros ? ? ?; try done; lia. Qed.

Lemma num_min_rank a b :
  integral a → integral b →
  (num_min a b = a ∨ num_min a b = b) ∧ rank (num_min a b) = Z.min (rank a) (rank b).
Proof.
  destruct a, b; simpl; intros Ha Hb; try done; try (split; [by left|lia]);
    case_match; simpl; (split; [by auto|lia]).
Qed.

Lemma foldl_min_spec a l :
  Forall integral (a :: l) →
  foldl num_min a l ∈ a :: l ∧ ∀ x, x ∈ a :: l → (rank (foldl num_min a l) <= rank x)%Z.
Proof.
  revert a. induction l as [|b l IH]; intros a Hl; simpl.
  - split; [by left|]. intros x ->%list_elem_of_singleton. lia.
  - apply Forall_cons in Hl as [Ha [Hb Hl]%Forall_cons].
    destruct (num_min_rank a b Ha Hb) as [Hor Hr].
    assert (integral (num_min a b)) as Hm by by destruct Hor as [->| ->].
    destruct (IH (num_min a b)) as [Hin Hle]; [by constructor|]. split.
    + apply elem_of_cons in Hin as [->|Hin]; [|set_solver].
      destruct Hor as [->| ->]; set_solver.
    + pose proof (Hle (num_min a b) (list_elem_of_here _ _)).
      intros x [->|[->|Hx]%elem_of_cons]%elem_of_cons; [lia|lia|].
      apply Hle. by right.
Qed.

Lemma foldl_min_perm a l b k :
  Forall integral (a :: l) → a :: l ≡ₚ b :: k → foldl num_min a l = foldl num_min b k.
Proof.
  intros Hl Hp. assert (Forall integral (b :: k)) as Hk by by rewrite <-Hp.
  destruct (foldl_min_spec a l Hl) as [Hin1 H1], (foldl_min_spec b k Hk) as [Hin2 H2].
  assert (foldl num_min a l ∈ b :: k) as Hin1' by by rewrite <-Hp.
  assert (foldl num_min b k ∈ a :: l) as Hin2' by by rewrite Hp.
  rewrite Forall_forall in Hl, Hk. apply rank_inj; [by apply Hl|by apply Hk|].
  specialize (H1 _ Hin2'). specialize (H2 _ Hin1'). lia.
Qed.

(** ** Parsed constraints *)

Definition constraint_ok (c : FakeConnectorConstraints) : Prop :=
  (∀ l, fc_allowedTargets c = Some l → NoDup l) ∧
  (∀ m, fc_maxPayloadBytes c = Some m → integral m).

Lemma sorted_unique_NoDup l : NoDup (sorted_unique l).
Proof. unfold sorted_unique. rewrite sort_by_perm. apply unique_NoDup. Qed.

Lemma parseConstraint_ok v c : parseConstraint v = PValue c → constraint_ok c.
Proof.
  unfold parseConstraint. case_match; [done|].
  destruct (parse_targets (field "allowedTargets" v)) as [allowed|] eqn:Ha; [|done].
  destruct (parse_targets (field "deniedTargets" v)) as [dn|]; [|done].
  destruct (valid_bytes (field "maxPayloadBytes" v)) eqn:Hb; [|done]. simpl.
  destruct (valid_flag _); [|done]. simpl. intros [= <-]. split; simpl.
  - intros l ->. unfold parse_targets in Ha. destruct (field "allowedTargets" v) as [w|]; [|done].
    destruct (parseStringList w) as [k|] eqn:Hk; [|done]. injection Ha as ->.
    destruct w as [| | | |items|]; try done. simpl in Hk.
    destruct (mapM _ items); [|done]. injection Hk as <-. apply sorted_unique_NoDup.
  - intros m Hm. destruct (field "maxPayloadBytes" v) as [[| |n| | |]|]; try done.
    injection Hm as ->. by apply andb_true_iff in Hb as [? _].
Qed.

Lemma parse_all_inr vs ps :
  parse_all vs = inr ps ↔ Forall2 (λ v p, parseConstraint v = PValue p) vs ps.
Proof.
  revert ps. induction vs as [|v vs IH]; intros ps; simpl.
  - split; [intros [= <-]; constructor|by inversion 1].
  - split.
    + destruct (parseConstraint v) eqn:Hv; [|done].
      destruct (parse_all vs); [done|]. intros [= <-]. constructor; [done|]. by apply IH.
    + inversion 1 as [|? p ? ps' Hv Hps]; subst. rewrite Hv. apply IH in Hps. by rewrite Hps.
Qed.

Lemma parse_all_ok vs ps : parse_all vs = inr ps → Forall constraint_ok ps.
Proof.
  rewrite parse_all_inr. induction 1; constructor; eauto using parseConstraint_ok.
Qed.

Lemma parse_all_perm vs vs' ps :
  vs ≡ₚ vs' → parse_all vs = inr ps → ∃ ps', parse_all vs' = inr ps' ∧ ps ≡ₚ ps'.
Proof.
  intros Hp Hps%parse_all_inr.
  destruct (Permutation_Forall2 Hp Hps) as (ps' & Hperm & Hps').
  exists ps'. by rewrite parse_all_inr.
Qed.

Lemma parse_all_singletons vs ps :
  parse_all vs = inr ps ↔ Forall2 (λ v p, parse_all [v] = inr [p]) vs ps.
Proof.
  rewrite parse_all_inr. split; intros H; (eapply Forall2_impl; [exact H|]); intros v p; simpl;
    destruct (parseConstraint v); naive_solver.
Qed.

(** ** Combined constraints *)

Lemma foldl_filter_spec (first : list string) (rest : list (list string)) t :
  t ∈ foldl (λ i l, List.filter (λ target, includes target l) i) first rest ↔
  t ∈ first ∧ ∀ l, l ∈ rest → t ∈ l.
Proof.
  revert first. induction rest as [|l rest IH]; intros first; simpl; [set_solver|].
  rewrite IH, !list_elem_of_In, List.filter_In, <-!list_elem_of_In, includes_spec.
  setoid_rewrite elem_of_cons. naive_solver.
Qed.

Lemma foldl_filter_NoDup (first : list string) (rest : list (list string)) :
  NoDup first → NoDup (foldl (λ i l, List.filter (λ target, includes target l) i) first rest).
Proof.
  revert first. induction rest as [|l rest IH]; intros first Hnd; simpl; [done|].
  apply IH. apply NoDup_ListNoDup. apply List.NoDup_filter. by apply NoDup_ListNoDup.
Qed.

Lemma omap_allowed_elem (ps : list FakeConnectorConstraints) l :
  l ∈ omap fc_allowedTargets ps ↔ ∃ c, c ∈ ps ∧ fc_allowedTargets c = Some l.
Proof. apply list_elem_of_omap. Qed.

Lemma combine_allowed_None ps :
  combine_allowed ps = None ↔ ∀ c, c ∈ ps → fc_allowedTargets c = None.
Proof.
  unfold combine_allowed. destruct (omap fc_allowedTargets ps) as [|l ls] eqn:Ho.
  - split; [|done]. intros _ c Hc. destruct (fc_allowedTargets c) as [l|] eqn:Hl; [|done].
    assert (l ∈ omap fc_allowedTargets ps) as Hin by (apply omap_allowed_elem; eauto).
    rewrite Ho in Hin. by apply not_elem_of_nil in Hin.
  - split; [done|]. intros H. assert (l ∈ omap fc_allowedTargets ps) as Hin by (rewrite Ho; by left).
    apply omap_allowed_elem in Hin as (c & Hc & Hl). by rewrite H in Hl.
Qed.

Lemma combine_allowed_Some ps l :
  Forall constraint_ok ps → combine_allowed ps = Some l →
  NoDup l ∧ sort_by compare_text l = l ∧
  ∀ t, t ∈ l ↔ ∀ c k, c ∈ ps → fc_allowedTargets c = Some k → t ∈ k.
Proof.
  intros Hok. unfold combine_allowed.
  destruct (omap fc_allowedTargets ps) as [|first rest] eqn:Ho; [done|]. intros [= <-].
  split; [|split].
  - rewrite sort_by_perm. apply foldl_filter_NoDup.
    assert (first ∈ omap fc_allowedTargets ps) as Hin by (rewrite Ho; by left).
    apply omap_allowed_elem in Hin as (c & Hc & Hf). rewrite Forall_forall in Hok.
    by apply (Hok c Hc).
  - apply sort_by_idemp, _.
  - intros t. rewrite sort_by_elem_of, foldl_filter_spec. split.
    + intros [H1 H2] c k Hc Hk.
      assert (k ∈ omap fc_allowedTargets ps) as Hin by (apply omap_allowed_elem; eauto).
      rewrite Ho in Hin. apply elem_of_cons in Hin as [->|Hin]; auto.
    + intros H. assert (∀ k, k ∈ omap fc_allowedTargets ps → t ∈ k) as H'.
      { intros k (c & Hc & Hk)%omap_allowed_elem. eauto. }
      rewrite Ho in H'. split; [apply H'; by left|]. intros k Hk. apply H'. by right.
Qed.

Lemma combine_allowed_perm ps ps' :
  Forall constraint_ok ps → ps ≡ₚ ps' → combine_allowed ps = combine_allowed ps'.
Proof.
  intros Hok Hp. assert (Forall constraint_ok ps') as Hok' by by rewrite <-Hp.
  destruct (combine_allowed ps) as [l|] eqn:Hl, (combine_allowed ps') as [l'|] eqn:Hl'; [| | |done].
  - destruct (combine_allowed_Some _ _ Hok Hl) as (Hnd & Hs & Hin).
    destruct (combine_allowed_Some _ _ Hok' Hl') as (Hnd' & Hs' & Hin').
    f_equal. rewrite <-Hs, <-Hs'. apply sort_text_perm, NoDup_Permutation; [done..|].
    intros t. rewrite Hin, Hin'. by setoid_rewrite Hp.
  - rewrite combine_allowed_None in Hl'. setoid_rewrite <-Hp in Hl'.
    apply combine_allowed_None in Hl'. congruence.
  - rewrite combine_allowed_None in Hl. setoid_rewrite Hp in Hl.
    apply combine_allowed_None in Hl. congruence.
Qed.

Lemma combine_denied_elem ps t :
  t ∈ combine_denied ps ↔ ∃ c, c ∈ ps ∧ t ∈ default [] (fc_deniedTargets c).
Proof.
  unfold combine_denied. rewrite sorted_unique_elem_of, list_elem_of_join.
  setoid_rewrite list_elem_of_fmap. naive_solver.
Qed.

Lemma combine_denied_perm ps ps' : ps ≡ₚ ps' → combine_denied ps = combine_denied ps'.
Proof.
  intros Hp. apply sorted_unique_ext. intros t. by rewrite Hp.
Qed.

Lemma max_integral ps : Forall constraint_ok ps → Forall integral (omap fc_maxPayloadBytes ps).
Proof.
  intros Hok. apply Forall_forall. intros m (c & Hc & Hm)%list_elem_of_omap.
  rewrite Forall_forall in Hok. by apply (Hok c Hc).
Qed.

Lemma combine_max_perm ps ps' :
  Forall constraint_ok ps → ps ≡ₚ ps' → combine_max ps = combine_max ps'.
Proof.
  intros Hok Hp. unfold combine_max. pose proof (max_integral _ Hok) as Hi.
  assert (omap fc_maxPayloadBytes ps ≡ₚ omap fc_maxPayloadBytes ps') as Ho by by rewrite Hp.
  destruct (omap fc_maxPayloadBytes ps) as [|a l], (omap fc_maxPayloadBytes ps') as [|b k]; try done.
  - by apply Permutation_nil_cons in Ho.
  - by apply symmetry, Permutation_nil_cons in Ho.
  - f_equal. by apply foldl_min_perm.
Qed.

Lemma combine_max_le ps m n :
  Forall constraint_ok ps → combine_max ps = Some m →
  (n <= number_value m)%Z ↔
  ∀ c k, c ∈ ps → fc_maxPayloadBytes c = Some k → (n <= number_value k)%Z.
Proof.
  intros Hok. unfold combine_max. pose proof (max_integral _ Hok) as Hi.
  assert (∀ k, k ∈ omap fc_maxPayloadBytes ps ↔ ∃ c, c ∈ ps ∧ fc_maxPayloadBytes c = Some k)
    as Hin by (intros; apply list_elem_of_omap).
  destruct (omap fc_maxPayloadBytes ps) as [|a l]; [done|]. intros [= <-].
  destruct (foldl_min_spec a l Hi) as [Hm Hle]. rewrite Forall_forall in Hi. split.
  - intros Hn c k Hc Hk. assert (k ∈ a :: l) as Hkin by (apply Hin; eauto).
    etrans; [exact Hn|]. apply rank_value; auto.
  - intros H. apply Hin in Hm as (c & Hc & Hm). eauto.
Qed.

Lemma combine_max_None ps :
  combine_max ps = None ↔ ∀ c, c ∈ ps → fc_maxPayloadBytes c = None.
Proof.
  unfold combine_max.
  assert (∀ k, k ∈ omap fc_maxPayloadBytes ps ↔ ∃ c, c ∈ ps ∧ fc_maxPayloadBytes c = Some k)
    as Hin by (intros; apply list_elem_of_omap).
  destruct (omap fc_maxPayloadBytes ps) as [|a l].
  - split; [|done]. intros _ c Hc. destruct (fc_maxPayloadBytes c) as [k|] eqn:Hk; [|done].
    assert (k ∈ []) as Hk' by (apply Hin; eauto). by apply not_elem_of_nil in Hk'.
  - split; [done|]. intros H. assert (a ∈ a :: l) as Ha by by left.
    apply Hin in Ha as (c & Hc & Hk). by rewrite H in Hk.
Qed.

Lemma combine_mutation_perm ps ps' : ps ≡ₚ ps' → combine_mutation ps = combine_mutation ps'.
Proof.
  intros Hp. apply Bool.eq_iff_eq_true. unfold combine_mutation. rewrite !Forall_forallb.
  by rewrite Hp.
Qed.

(** ** The fake handler *)

Section fake_lemmas.
  Context `{ShowNumber}.

(** What one parsed constraint permits. *)
Definition permits (operation : string) (arguments : js) (c : FakeConnectorConstraints) : Prop :=
  match string_of (get_prop "target" arguments) with
  | None => fc_allowedTargets c = None ∧ default [] (fc_deniedTargets c) = []
  | Some t => (∀ l, fc_allowedTargets c = Some l → t ∈ l) ∧
              t ∉ default [] (fc_deniedTargets c)
  end ∧
  (operation = "fake.read" ∨ fc_allowMutation c = Some true) ∧
  (∀ m text, fc_maxPayloadBytes c = Some m → canonicalStringify arguments = Ok text →
     (utf8_length text <= number_value m)%Z).

Lemma canonicalStringify_ok v : is_ok (canonicalStringify v) = acceptable [] v.
Proof.
  unfold canonicalStringify. rewrite is_ok_bind. apply normalize_ok.
Qed.

Lemma reason_if_nil b r : reason_if b r = [] ↔ b = false.
Proof. by destruct b. Qed.

Lemma target_reasons_nil ps t :
  Forall constraint_ok ps →
  target_reasons (combine_allowed ps) (combine_denied ps) t = [] ↔
  ∀ c, c ∈ ps →
    match t with
    | None => fc_allowedTargets c = None ∧ default [] (fc_deniedTargets c) = []
    | Some t => (∀ l, fc_allowedTargets c = Some l → t ∈ l) ∧ t ∉ default [] (fc_deniedTargets c)
    end.
Proof.
  intros Hok. unfold target_reasons. destruct t as [t|].
  - rewrite app_nil, reason_if_nil, includes_false, combine_denied_elem.
    assert (match combine_allowed ps with
            | Some l => reason_if (negb (includes t l)) ("target " +:+ t +:+ " is not allowed")
            | None => [] end = [] ↔
            ∀ c k, c ∈ ps → fc_allowedTargets c = Some k → t ∈ k) as ->.
    { destruct (combine_allowed ps) as [l|] eqn:Hl.
      - destruct (combine_allowed_Some _ _ Hok Hl) as (_ & _ & Hin).
        by rewrite reason_if_nil, negb_false_iff, includes_spec, Hin.
      - rewrite combine_allowed_None in Hl. split; [|done]. intros _ c k Hc Hk.
        by rewrite Hl in Hk. }
    naive_solver.
  - rewrite reason_if_nil, orb_false_iff, !negb_false_iff, bool_decide_eq_true, Nat.eqb_eq.
    rewrite combine_allowed_None, length_zero_iff_nil. split.
    + intros [Ha Hd] c Hc. split; [by apply Ha|].
      destruct (default [] (fc_deniedTargets c)) as [|x l] eqn:Hx; [done|].
      assert (x ∈ combine_denied ps) as Hin.
      { apply combine_denied_elem. exists c. rewrite Hx. split; [done|by left]. }
      rewrite Hd in Hin. by apply not_elem_of_nil in Hin.
    + intros Hc. split; [intros c ?; by apply Hc|].
      destruct (combine_denied ps) as [|x l] eqn:Hx; [done|].
      assert (x ∈ combine_denied ps) as Hin by (rewrite Hx; by left).
      apply combine_denied_elem in Hin as (c & Hc' & Hin).
      destruct (Hc c Hc') as [_ ->] || (destruct (Hc c Hc') as [_ He]; rewrite He in Hin).
      by apply not_elem_of_nil in Hin.
Qed.

Lemma fake_total operation arguments cs configuration :
  acceptable [] arguments = true →
  ∃ r, fake_combineAndValidate operation arguments cs configuration = Ok r.
Proof.
  rewrite <-canonicalStringify_ok, is_ok_spec. intros [text Ht].
  unfold fake_combineAndValidate. destruct (parse_all cs) as [e|ps]; [eauto|].
  unfold payload_reasons. destruct (combine_max ps); simpl; rewrite ?Ht; simpl; eauto.
Qed.

(** The handler accepts a request if and only if every constraint parses and
    permits it. *)
Lemma fake_ok_spec operation arguments cs configuration r :
  fake_combineAndValidate operation arguments cs configuration = Ok r →
  cr_ok r = true ↔ ∃ ps, parse_all cs = inr ps ∧ Forall (permits operation arguments) ps.
Proof.
  unfold fake_combineAndValidate. destruct (parse_all cs) as [e|ps] eqn:Hps.
  { intros [= <-]. simpl. naive_solver. }
  apply parse_all_ok in Hps as Hok. rewrite bind_Ok. intros (payload & Hpay & [= <-]).
  cbn [cr_ok]. rewrite Nat.eqb_eq, length_zero_iff_nil, !app_nil, reason_if_nil.
  rewrite andb_false_iff, !negb_false_iff, bool_decide_eq_true, target_reasons_nil by done.
  assert (combine_mutation ps = true ↔ ∀ c, c ∈ ps → fc_allowMutation c = Some true) as ->.
  { unfold combine_mutation. rewrite Forall_forallb, Forall_forall.
    by setoid_rewrite bool_decide_eq_true. }
  assert (payload = [] ↔ ∀ c, c ∈ ps → ∀ m text, fc_maxPayloadBytes c = Some m →
    canonicalStringify arguments = Ok text → (utf8_length text <= number_value m)%Z) as ->.
  { unfold payload_reasons in Hpay. destruct (combine_max ps) as [m|] eqn:Hm.
    - apply bind_Ok in Hpay as (text & Ht & [= <-]).
      rewrite reason_if_nil, Z.ltb_ge, (combine_max_le _ _ _ Hok Hm). split.
      + intros Hle c Hc k text' Hk Ht'.
        assert (text' = text) as -> by congruence. by apply (Hle c).
      + intros Hle c k Hc Hk. by apply (Hle c Hc).
    - injection Hpay as <-. rewrite combine_max_None in Hm. split; [|done].
      intros _ c Hc m text Hk. by rewrite Hm in Hk. }
  setoid_rewrite Forall_forall. unfold permits. split.
  - intros (Ht & Hmut & Hb). exists ps. split; [done|]. intros c Hc. split; [by apply Ht|].
    split; [destruct Hmut; auto|]. by apply Hb.
  - intros (ps' & [= <-] & Hc). split; [intros c ?; by apply Hc|]. split; [|intros c ?; by apply Hc].
    destruct (decide (operation = "fake.read")); [by left|right].
    intros c Hin. by destruct (Hc c Hin) as (_ & [?|?] & _).
Qed.

Lemma fake_perm operation arguments cs cs' configuration r r' :
  cs ≡ₚ cs' → fake_combineAndValidate operation arguments cs configuration = Ok r →
  fake_combineAndValidate operation arguments cs' configuration = Ok r' → same_result r r'.
Proof.
  intros Hp Hr Hr'. split.
  - apply Bool.eq_iff_eq_true. rewrite (fake_ok_spec _ _ _ _ _ Hr), (fake_ok_spec _ _ _ _ _ Hr').
    split; intros (ps & Hps & Hall).
    + destruct (parse_all_perm _ _ _ Hp Hps) as (ps' & ? & Hpp). exists ps'. split; [done|by rewrite <-Hpp].
    + destruct (parse_all_perm _ _ _ (symmetry Hp) Hps) as (ps' & ? & Hpp).
      exists ps'. split; [done|by rewrite <-Hpp].
  - intros Ht. apply (fake_ok_spec _ _ _ _ _ Hr) in Ht as (ps & Hps & _).
    destruct (parse_all_perm _ _ _ Hp Hps) as (ps' & Hps' & Hpp).
    pose proof (parse_all_ok _ _ Hps) as Hok.
    unfold fake_combineAndValidate in Hr, Hr'. rewrite Hps in Hr. rewrite Hps' in Hr'.
    rewrite <-(combine_allowed_perm _ _ Hok Hpp), <-(combine_denied_perm _ _ Hpp),
      <-(combine_max_perm _ _ Hok Hpp), <-(combine_mutation_perm _ _ Hpp) in Hr'.
    congruence.
Qed.

#[export] Instance fake_handler_laws : ConstraintHandlerLaws fake_combineAndValidate.
Proof. split; [apply fake_total|apply fake_perm]. Qed.

End fake_lemmas.

(** ** The engine *)

(** A grant that covers the request at time [t]: same project and resource,
    granted to the agent or to one of its roles, not revoked, inside its
    validity window, with an action that covers the operation. *)
Record live_grant (input : PolicyInput) (risk : RiskLevel) (t : date) (g : CapabilityGrant) : Prop := {
  lg_project : gr_projectId g = pi_projectId input;
  lg_resource : gr_resourceId g = res_id (pi_resource input);
  lg_principal :
    (gr_principalType g = principal_agent ∧ gr_principalId g = pi_agentId input) ∨
    (gr_principalType g = principal_role ∧ gr_principalId g ∈ pi_roleIds input);
  lg_not_revoked : gr_revokedAt g = None;
  lg_started : date_leb (gr_validFrom g) t = true;
  lg_not_expired : ∀ e, gr_expiresAt g = Some e → date_ltb t e = true;
  lg_action : ∃ a, a ∈ gr_actions g ∧ actionMatches a (pi_operation input) risk = true
}.

Lemma isPrincipalMatch_spec g input :
  isPrincipalMatch g input = true ↔
  (gr_principalType g = principal_agent ∧ gr_principalId g = pi_agentId input) ∨
  (gr_principalType g = principal_role ∧ gr_principalId g ∈ pi_roleIds input).
Proof.
  unfold isPrincipalMatch. destruct (decide (gr_principalType g = principal_agent)) as [->|Hne].
  - rewrite bool_decide_eq_true. naive_solver.
  - rewrite andb_true_iff, bool_decide_eq_true, includes_spec. naive_solver.
Qed.

Lemma date_window_started (from t : date) :
  valid_date t = true →
  valid_date from && negb (date_ltb t from) = true ↔ date_leb from t = true.
Proof. destruct from, t; simpl; try done. intros _. rewrite negb_true_iff, Z.ltb_ge, Z.leb_le. done. Qed.

Lemma date_window_open (e t : date) :
  valid_date t = true →
  valid_date e && negb (date_leb e t) = true ↔ date_ltb t e = true.
Proof.
  destruct e, t; simpl; try done. intros _. rewrite negb_true_iff, Z.leb_gt, Z.ltb_lt. done.
Qed.

Lemma existsb_spec {A} (p : A → bool) l : existsb p l = true ↔ ∃ x, x ∈ l ∧ p x = true.
Proof. rewrite List.existsb_exists. by setoid_rewrite list_elem_of_In. Qed.

Lemma grant_matches_spec input risk t g :
  valid_date t = true → grant_matches input risk t g = true ↔ live_grant input risk t g.
Proof.
  intros Ht. unfold grant_matches.
  rewrite !andb_true_iff, !bool_decide_eq_true, isPrincipalMatch_spec, existsb_spec.
  pose proof (date_window_started (gr_validFrom g) t Ht) as Hs. rewrite andb_true_iff in Hs.
  assert ((match gr_expiresAt g with None => true | Some e => valid_date e end = true ∧
           match gr_expiresAt g with None => true | Some e => negb (date_leb e t) end = true) ↔
          ∀ e, gr_expiresAt g = Some e → date_ltb t e = true) as He.
  { destruct (gr_expiresAt g) as [e|]; [|done].
    rewrite <-andb_true_iff, date_window_open by done. naive_solver. }
  split.
  - intros ((((((((H1 & H2) & H3) & H4) & H5) & H6) & H7) & H8) & H9).
    constructor; try done; [by apply Hs|by apply He].
  - intros [H1 H2 H3 H4 H5 H6 H7]. apply Hs in H5 as [? ?]. apply He in H6 as [? ?]. done.
Qed.

Lemma matching_grants_elem input risk t g :
  valid_date t = true →
  g ∈ matching_grants input risk t ↔ g ∈ pi_grants input ∧ live_grant input risk t g.
Proof.
  intros Ht. unfold matching_grants.
  by rewrite list_elem_of_In, List.filter_In, <-list_elem_of_In, grant_matches_spec.
Qed.

(** The code up to the grants: the operation is one the resource's connector
    describes, and the request can be evaluated. *)
Record evaluable (registry : ConnectorPolicyRegistry) (input : PolicyInput) (t : date)
    (definition : ConnectorPolicyDefinition) (descriptor : PolicyOperationDescriptor) : Prop := {
  ev_project : pi_projectId input = res_projectId (pi_resource input);
  ev_active : res_status (pi_resource input) = active;
  ev_connector : registry (res_provider (pi_resource input)) = Some definition;
  ev_type : res_type (pi_resource input) ∈ cd_supportedResourceTypes (df_descriptor definition);
  ev_operation :
    find_operation (cd_operations (df_descriptor definition)) (pi_operation input) = Some descriptor;
  ev_time : valid_date t = true;
  ev_arguments : acceptable [] (pi_arguments input) = true
}.

Definition with_grants (input : PolicyInput) (grants : list CapabilityGrant) : PolicyInput :=
  {| pi_projectId := pi_projectId input; pi_agentId := pi_agentId input;
     pi_roleIds := pi_roleIds input; pi_resource := pi_resource input;
     pi_operation := pi_operation input; pi_arguments := pi_arguments input;
     pi_grants := grants |}.

Section engine_lemmas.
  Context `{ShowNumber} (registry : ConnectorPolicyRegistry).

(** The handler's verdict on the matching grants. *)
Definition combined (input : PolicyInput) (t : date) (definition : ConnectorPolicyDefinition)
    (descriptor : PolicyOperationDescriptor) : outcome ConnectorConstraintResult :=
  ch_combineAndValidate (df_constraintHandler definition) (pi_operation input)
    (pi_arguments input)
    (gr_constraints <$> matching_grants input (od_riskLevel descriptor) t)
    (res_configuration (pi_resource input)).

Definition granted (input : PolicyInput) (t : date) (descriptor : PolicyOperationDescriptor)
    (result : ConnectorConstraintResult) : PolicyDecision :=
  let ids := sort_by compare_text
    (gr_id <$> matching_grants input (od_riskLevel descriptor) t) in
  if negb (cr_ok result) then
    {| pd_decision := deny; pd_riskLevel := od_riskLevel descriptor; pd_matchedGrantIds := ids;
       pd_effectiveConstraints := cr_effectiveConstraints result;
       pd_reasons := cr_reasons result |}
  else
    {| pd_decision := decision_for descriptor; pd_riskLevel := od_riskLevel descriptor;
       pd_matchedGrantIds := ids; pd_effectiveConstraints := cr_effectiveConstraints result;
       pd_reasons := decision_reasons (decision_for descriptor) (od_riskLevel descriptor) |}.

(** Either some condition fails, and the answer is a fixed refusal that does
    not depend on the grants, or the grants decide. *)
Lemma evaluate_cases input t :
  (∃ definition descriptor, evaluable registry input t definition descriptor ∧
     evaluate registry input t =
       if length (matching_grants input (od_riskLevel descriptor) t) =? 0 then
         Ok (denied "no valid grant permits the operation" (od_riskLevel descriptor))
       else result ← combined input t definition descriptor;
            Ok (granted input t descriptor result)) ∨
  ((∀ definition descriptor, ¬ evaluable registry input t definition descriptor) ∧
   ∃ reason risk, ∀ grants,
     evaluate registry (with_grants input grants) t = Ok (denied reason risk)).
Proof.
  unfold evaluate; simpl.
  case_bool_decide as Hp; simpl; [|right; split; [by intros ? ? []|eauto]].
  case_bool_decide as Hs; simpl; [right; split; [intros ? ? []; congruence|eauto]|].
  destruct (registry _) as [definition|] eqn:Hreg;
    [|right; split; [intros ? ? []; congruence|eauto]].
  destruct (includes _ _) eqn:Ht; simpl.
  2: { apply includes_false in Ht. right. split; [intros ? ? []; naive_solver congruence|eauto]. }
  apply includes_spec in Ht.
  destruct (find_operation _ _) as [descriptor|] eqn:Hop;
    [|right; split; [intros ? ? []; naive_solver congruence|eauto]].
  destruct (valid_date t) eqn:Hv; simpl; [|right; split; [intros ? ? []; congruence|eauto]].
  rewrite canonicalStringify_ok.
  destruct (acceptable _ _) eqn:Ha; simpl; [|right; split; [intros ? ? []; congruence|eauto]].
  left. exists definition, descriptor. split.
  - constructor; try done. by destruct (res_status (pi_resource input)).
  - destruct (length _ =? 0); [done|]. unfold combined, granted.
    destruct (ch_combineAndValidate _ _ _ _ _) as [r|e]; simpl; [|done].
    by destruct (cr_ok r).
Qed.

Lemma with_own_grants input : with_grants input (pi_grants input) = input.
Proof. by destruct input. Qed.

Lemma evaluable_inj input t d1 o1 d2 o2 :
  evaluable registry input t d1 o1 → evaluable registry input t d2 o2 → d1 = d2 ∧ o1 = o2.
Proof. intros [] []. naive_solver congruence. Qed.

Lemma decision_for_not_deny descriptor : decision_for descriptor ≠ deny.
Proof. unfold decision_for. by repeat case_match. Qed.

End engine_lemmas.

(** Every registered handler keeps the interface. *)
Definition lawful (registry : ConnectorPolicyRegistry) : Prop :=
  ∀ provider definition, registry provider = Some definition →
    ConstraintHandlerLaws (ch_combineAndValidate (df_constraintHandler definition)).

Lemma matching_nonempty input risk t :
  valid_date t = true →
  (length (matching_grants input risk t) =? 0) = false ↔
  ∃ g, g ∈ pi_grants input ∧ live_grant input risk t g.
Proof.
  intros Ht. rewrite Nat.eqb_neq, length_zero_iff_nil. split.
  - intros Hne. destruct (matching_grants input risk t) as [|g l] eqn:Hm; [done|].
    exists g. apply (matching_grants_elem input risk t g Ht). rewrite Hm. by left.
  - intros (g & Hg). apply (matching_grants_elem input risk t g Ht) in Hg.
    intros Hm. rewrite Hm in Hg. by apply not_elem_of_nil in Hg.
Qed.

Lemma filter_matching_perm input gs gs' risk t :
  gs ≡ₚ gs' →
  List.filter (grant_matches input risk t) gs ≡ₚ List.filter (grant_matches input risk t) gs'.
Proof.
  induction 1 as [|g l l' _ IH|g h l|l1 l2 l3 _ IH1 _ IH2]; simpl; [done| | |by etrans].
  - case_match; [by rewrite IH|done].
  - repeat case_match; try done. apply Permutation_swap.
Qed.

Lemma granted_same (input input' : PolicyInput) t descriptor r r' :
  same_result r r' →
  matching_grants input (od_riskLevel descriptor) t ≡ₚ
    matching_grants input' (od_riskLevel descriptor) t →
  same_decision (granted input t descriptor r) (granted input' t descriptor r').
Proof.
  intros [Hok Heq] Hp. unfold granted. rewrite <-Hok.
  rewrite <-(sort_text_perm _ _ (fmap_Permutation gr_id _ _ Hp)).
  destruct (cr_ok r) eqn:Hr; simpl; [by rewrite <-Heq|by split_and!].
Qed.

(** * Properties *)

(** C25: deny by default, and nothing else: with handlers that keep the
    interface, [evaluate] never throws, and it answers anything but [deny] if
    and only if the request is evaluable (same project, active resource,
    registered connector, supported type, described operation, valid time,
    serializable arguments), some live grant covers it and the combined
    constraints hold; the answer is then the one the operation's descriptor
    asks for. *)
Theorem policy_allows_exactly `{ShowNumber} registry input t :
  lawful registry →
  ∃ d, evaluate registry input t = Ok d ∧
    (pd_decision d ≠ deny ↔
     ∃ definition descriptor result,
       evaluable registry input t definition descriptor ∧
       (∃ g, g ∈ pi_grants input ∧ live_grant input (od_riskLevel descriptor) t g) ∧
       combined input t definition descriptor = Ok result ∧ cr_ok result = true ∧
       pd_decision d = decision_for descriptor).
Proof.
  intros Hlaw. destruct (evaluate_cases registry input t)
    as [(definition & descriptor & Hev & ->)|(Hno & reason & risk & Heq)].
  2: { specialize (Heq (pi_grants input)). rewrite with_own_grants in Heq. rewrite Heq. eexists. split; [done|]. split; [done|]. intros (df & ds & _ & Hev & _). by destruct (Hno df ds). }
  pose proof (Hlaw _ _ (ev_connector _ _ _ _ _ Hev)) as Hl.
  destruct (length _ =? 0) eqn:Hlen.
  - eexists. split; [done|]. split; [done|]. intros (df & ds & r & Hev' & Hg & _).
    destruct (evaluable_inj _ _ _ _ _ _ _ Hev Hev') as [<- <-].
    apply (matching_nonempty _ _ _ (ev_time _ _ _ _ _ Hev)) in Hg. congruence.
  - destruct (handler_total (pi_operation input) (pi_arguments input)
      (gr_constraints <$> matching_grants input (od_riskLevel descriptor) t)
      (res_configuration (pi_resource input)) (ev_arguments _ _ _ _ _ Hev)) as [r Hr].
    fold (combined input t definition descriptor) in Hr. rewrite Hr. simpl.
    eexists. split; [done|]. unfold granted. split.
    + destruct (cr_ok r) eqn:Hok; simpl; [|done]. intros _. exists definition, descriptor, r.
      by rewrite <-(matching_nonempty _ _ _ (ev_time _ _ _ _ _ Hev)).
    + intros (df & ds & r' & Hev' & _ & Hr' & Hok & _).
      destruct (evaluable_inj _ _ _ _ _ _ _ Hev Hev') as [<- <-].
      assert (r' = r) as -> by congruence. rewrite Hok. simpl. apply decision_for_not_deny.
Qed.

(** Only live grants count, in any order: adding, removing or reordering
    grants that do not cover the request, or reordering those that do, changes
    neither the decision, nor its risk level, nor the matched grants, nor, if
    the request is allowed, anything else in the answer. *)
Theorem policy_depends_on_live_grants `{ShowNumber} registry input grants t d d' :
  lawful registry →
  (∀ risk, matching_grants input risk t ≡ₚ matching_grants (with_grants input grants) risk t) →
  evaluate registry input t = Ok d → evaluate registry (with_grants input grants) t = Ok d' →
  same_decision d d'.
Proof.
  intros Hlaw Hp Hd Hd'.
  destruct (evaluate_cases registry input t)
    as [(df & ds & Hev & Heq)|(Hno & reason & risk & Heq)].
  - assert (evaluable registry (with_grants input grants) t df ds) as Hev' by by destruct Hev.
    destruct (evaluate_cases registry (with_grants input grants) t)
      as [(df' & ds' & Hev2 & Heq')|(Hno & _)]; [|by destruct (Hno df ds)].
    destruct (evaluable_inj _ _ _ _ _ _ _ Hev' Hev2) as [<- <-].
    rewrite Heq in Hd. rewrite Heq', <-(Permutation_length (Hp _)) in Hd'.
    destruct (length _ =? 0); [by simplify_eq|].
    apply bind_Ok in Hd as (r & Hr & [= <-]). apply bind_Ok in Hd' as (r' & Hr' & [= <-]).
    apply granted_same; [|apply Hp].
    pose proof (Hlaw _ _ (ev_connector _ _ _ _ _ Hev)) as Hl.
    eapply (handler_perm (pi_operation input)); [|exact Hr|exact Hr'].
    apply fmap_Permutation, Hp.
  - rewrite Heq in Hd'. specialize (Heq (pi_grants input)). rewrite with_own_grants in Heq.
    rewrite Heq in Hd. by simplify_eq.
Qed.

(** No wildcard reaches a critical operation: when an operation of critical
    risk is allowed, every grant the answer names lists the operation itself
    among its actions. *)
Theorem critical_needs_exact_grant `{ShowNumber} registry input t d :
  evaluate registry input t = Ok d → pd_decision d ≠ deny → pd_riskLevel d = risk_critical →
  pd_matchedGrantIds d ≠ [] ∧
  ∀ gid, gid ∈ pd_matchedGrantIds d →
    ∃ g, g ∈ pi_grants input ∧ gr_id g = gid ∧ pi_operation input ∈ gr_actions g.
Proof.
  intros Hd Hn Hrisk.
  destruct (evaluate_cases registry input t)
    as [(df & ds & Hev & Heq)|(_ & reason & risk & Heq)].
  2: { specialize (Heq (pi_grants input)). rewrite with_own_grants, Hd in Heq.
       injection Heq as ->. by destruct Hn. }
  rewrite Heq in Hd. destruct (length _ =? 0) eqn:Hlen.
  { injection Hd as <-. by destruct Hn. }
  apply bind_Ok in Hd as (r & _ & [= <-]).
  unfold granted in *. destruct (cr_ok r); simpl in *; [|by destruct Hn].
  pose proof (ev_time _ _ _ _ _ Hev) as Ht. split.
  - intros Hnil. apply (f_equal length) in Hnil. rewrite sort_by_length, length_fmap in Hnil.
    rewrite Hnil in Hlen. done.
  - intros gid. rewrite sort_by_elem_of. intros (g & -> & Hg)%list_elem_of_fmap.
    apply matching_grants_elem in Hg as [Hg [_ _ _ _ _ _ (a & Ha & Hm)]]; [|done].
    exists g. split; [done|]. split; [done|]. unfold actionMatches in Hm. rewrite Hrisk in Hm.
    by destruct (decide (a = pi_operation input)) as [->|].
Qed.

(** The fake connector's constraints only ever restrict: a combination of
    constraints accepts a request if and only if each of them alone does, so
    another matching grant can never make an answer more permissive. *)
Theorem fake_constraints_pointwise `{ShowNumber} operation arguments cs configuration :
  acceptable [] arguments = true →
  ∃ r, fake_combineAndValidate operation arguments cs configuration = Ok r ∧
    (cr_ok r = true ↔
     ∀ c, c ∈ cs → ∃ r1,
       fake_combineAndValidate operation arguments [c] configuration = Ok r1 ∧ cr_ok r1 = true).
Proof.
  intros Ha. destruct (fake_total operation arguments cs configuration Ha) as [r Hr].
  exists r. split; [done|]. rewrite (fake_ok_spec _ _ _ _ _ Hr). split.
  - intros (ps & Hps & Hall) c Hc.
    destruct (fake_total operation arguments [c] configuration Ha) as [r1 Hr1].
    exists r1. split; [done|]. apply (fake_ok_spec _ _ _ _ _ Hr1).
    apply parse_all_singletons in Hps. apply list_elem_of_lookup in Hc as [j Hc].
    destruct (Forall2_lookup_l _ _ _ _ _ Hps Hc) as (p & Hp & Hpc).
    exists [p]. split; [done|]. constructor; [|constructor].
    rewrite Forall_lookup in Hall. eauto.
  - intros Hall. assert (∃ ps, Forall2 (λ v p, parse_all [v] = inr [p] ∧
      permits operation arguments p) cs ps) as [ps Hps].
    { clear Hr r. induction cs as [|c cs IH]; [by exists []|].
      destruct IH as [ps Hps]; [intros; apply Hall; by right|].
      destruct (Hall c) as (r1 & Hr1 & Hok); [by left|].
      apply (fake_ok_spec _ _ _ _ _ Hr1) in Hok as (qs & Hqs & Hp).
      pose proof Hqs as Hq2. apply parse_all_inr in Hq2. inversion Hq2 as [|? q ? ? Hq Hnil]; subst.
      inversion Hnil; subst. apply Forall_cons in Hp as [Hp _].
      exists (q :: ps). by constructor. }
    exists ps. split.
    + apply parse_all_singletons. eapply Forall2_impl; [exact Hps|]. by intros ? ? [? _].
    + apply Forall_lookup. intros j p Hj.
      destruct (Forall2_lookup_r _ _ _ _ _ Hps Hj) as (? & _ & _ & ?). done.
Qed.

(** ** Samples and witnesses *)

Definition sample_definition (risk : RiskLevel) : ConnectorPolicyDefinition :=
  {| df_descriptor :=
       {| cd_id := "fake"; cd_version := "1"; cd_supportedResourceTypes := [filesystem_scope];
          cd_operations :=
            [{| od_operation := "fake.read"; od_mode := op_read; od_riskLevel := risk;
                od_supportsSimulation := false; od_supportsExecution := true;
                od_requiresApproval := false |}] |};
     df_constraintHandler := FakeConnectorConstraintHandler (H := decimal_number) |}.

Definition sample_registry (risk : RiskLevel) : ConnectorPolicyRegistry :=
  λ provider, if decide (provider = "fake") then Some (sample_definition risk) else None.

Lemma sample_lawful risk : lawful (sample_registry risk).
Proof.
  intros provider definition. unfold sample_registry. case_decide; [|done]. intros [= <-].
  apply fake_handler_laws.
Qed.

Definition sample_resource : Resource :=
  {| res_id := "res1"; res_projectId := "p1"; res_type := filesystem_scope; res_provider := "fake";
     res_externalRef := None; res_displayName := "R"; res_configuration := [];
     res_credentialRef := None; res_status := active; res_createdAt := Some 1%Z;
     res_updatedAt := Some 1%Z |}.

Definition sample_grant (gid action : string) : CapabilityGrant :=
  {| gr_id := gid; gr_projectId := "p1"; gr_principalType := principal_agent;
     gr_principalId := "a1"; gr_resourceId := "res1"; gr_actions := [action];
     gr_constraints := [("allowedTargets", CArr [CStr "x"; CStr "y"])];
     gr_validFrom := Some 5%Z; gr_expiresAt := Some (Some 50%Z); gr_revokedAt := None;
     gr_grantedBy := "owner"; gr_reason := "r"; gr_createdAt := Some 1%Z |}.

Definition sample_policy_input : PolicyInput :=
  {| pi_projectId := "p1"; pi_agentId := "a1"; pi_roleIds := []; pi_resource := sample_resource;
     pi_operation := "fake.read";
     pi_arguments := JObj 0 true false [("target", plain (JStr "x"))];
     pi_grants := [sample_grant "g2" "fake.*"; sample_grant "g1" "fake.read"] |}.

Lemma policy_allows_exactly_witness :
  lawful (sample_registry risk_low) ∧
  ∃ d, evaluate (H := decimal_number) (sample_registry risk_low) sample_policy_input (Some 7%Z) = Ok d ∧
    (pd_decision d ≠ deny ↔
     ∃ definition descriptor result,
       evaluable (sample_registry risk_low) sample_policy_input (Some 7%Z) definition descriptor ∧
       (∃ g, g ∈ pi_grants sample_policy_input ∧
         live_grant sample_policy_input (od_riskLevel descriptor) (Some 7%Z) g) ∧
       combined sample_policy_input (Some 7%Z) definition descriptor = Ok result ∧
       cr_ok result = true ∧ pd_decision d = decision_for descriptor).
Proof.
  split; [exact (sample_lawful risk_low)|].
  exact (policy_allows_exactly (H := decimal_number) _ sample_policy_input (Some 7%Z)
           (sample_lawful risk_low)).
Defined.

Definition policy_answer (risk : RiskLevel) (grants : list CapabilityGrant) : PolicyDecision :=
  match evaluate (H := decimal_number) (sample_registry risk)
          (with_grants sample_policy_input grants) (Some 7%Z) with
  | Ok d => d
  | Throw _ => denied "" risk_low
  end.

Lemma policy_depends_on_live_grants_witness :
  let grants := [sample_grant "g1" "fake.read"; sample_grant "g3" "fake.write";
                 sample_grant "g2" "fake.*"] in
  lawful (sample_registry risk_low) ∧
  same_decision (policy_answer risk_low (pi_grants sample_policy_input))
    (policy_answer risk_low grants) ∧
  pd_decision (policy_answer risk_low grants) = allow.
Proof.
  intros grants. split; [exact (sample_lawful risk_low)|]. split; [|by vm_compute].
  apply (policy_depends_on_live_grants (H := decimal_number) (sample_registry risk_low)
           sample_policy_input grants (Some 7%Z)).
  - exact (sample_lawful risk_low).
  - intros [ | | | ]; vm_compute; first [apply Permutation_swap|reflexivity].
  - by vm_compute.
  - by vm_compute.
Defined.

Lemma critical_needs_exact_grant_witness :
  let d := policy_answer risk_critical (pi_grants sample_policy_input) in
  pd_decision d ≠ deny ∧ pd_riskLevel d = risk_critical ∧ pd_matchedGrantIds d ≠ [] ∧
  ∀ gid, gid ∈ pd_matchedGrantIds d →
    ∃ g, g ∈ pi_grants sample_policy_input ∧ gr_id g = gid ∧
         pi_operation sample_policy_input ∈ gr_actions g.
Proof.
  intros d. assert (pd_decision d ≠ deny) as H1 by by vm_compute.
  assert (pd_riskLevel d = risk_critical) as H2 by by vm_compute.
  split; [exact H1|]. split; [exact H2|].
  apply (critical_needs_exact_grant (H := decimal_number) (sample_registry risk_critical)
           sample_policy_input (Some 7%Z) d); [by vm_compute|exact H1|exact H2].
Defined.

Lemma fake_constraints_pointwise_witness :
  let args := JObj 0 true false [("target", plain (JStr "x"))] in
  let cs := [[("allowedTargets", CArr [CStr "x"])]; [("deniedTargets", CArr [CStr "x"])]] in
  acceptable [] args = true ∧
  ∃ r, fake_combineAndValidate (H := decimal_number) "fake.read" args cs [] = Ok r ∧
    (cr_ok r = true ↔
     ∀ c, c ∈ cs → ∃ r1,
       fake_combineAndValidate (H := decimal_number) "fake.read" args [c] [] = Ok r1 ∧
       cr_ok r1 = true).
Proof.
  intros args cs. assert (acceptable [] args = true) as Ha by by vm_compute.
  split; [exact Ha|].
  exact (fake_constraints_pointwise (H := decimal_number) "fake.read" args cs [] Ha).
Defined.

End Policy.
