(* ===== verification/ConnectorModel.v ===== *)
(** Connectors: what a connector offers to the controlled actions, the registry
    that accepts connector definitions, and the fake connector.  Models
    [packages/connector-sdk/src/connector.ts], [connector-registry.ts] and
    [fake-connector.ts].

    A connector's calls outside the process are parameters of its definition,
    numbered in the order the host makes them.  The members that TypeScript
    types as closed unions (a mode, a risk level, a resource type, a flag) are
    inductive here, so the registry's checks that they are such members cannot
    fail and are left out; so is the abort signal, which only a connector
    reads. *)
From S2P Require Import Prelude Errors Json ActionModel PolicyModel.
Import Canonical Policy.

Module Connector.

(** * Data *)

(** [ConnectorOperationDescriptor] and [ConnectorDescriptor] have the members
    of the policy's descriptors. *)
Abbreviation ConnectorOperationDescriptor := PolicyOperationDescriptor.
Abbreviation ConnectorDescriptor := PolicyConnectorDescriptor.

Record ConnectorResourceRegistrationInput := {
  ri_type : ResourceType;
  ri_externalRef : option string;
  ri_configuration : record
}.

Record PreparedConnectorResource := {
  pr_externalRef : option string;
  pr_configuration : record
}.

Record ConnectorResourceScope := {
  sc_id : string;
  sc_type : ResourceType;
  sc_provider : string;
  sc_externalRef : option string;
  sc_configuration : record
}.

Record ConnectorInvocation := {
  inv_resource : ConnectorResourceScope;
  inv_operation : string;
  inv_arguments : record;
  inv_effectiveConstraints : record
}.

Record ConnectorReadAudit := {
  ra_relativePath : option string;
  ra_byteLength : option number;
  ra_resultCount : option number;
  ra_contentSha256 : option string;
  ra_truncated : option bool
}.

Inductive ConnectorFilePreconditionKind := kind_absent | kind_file.

Record ConnectorFilePrecondition := {
  fp_kind : ConnectorFilePreconditionKind;
  fp_path : string;
  fp_sha256 : option string;
  fp_size : option number
}.

(** [ConnectorReadResult | ConnectorSimulationResult] *)
Inductive ConnectorInvocationResult :=
| read_result (output : record) (audit : ConnectorReadAudit)
| simulation_result (diff : string) (preconditions : list ConnectorFilePrecondition).

Record ConnectorMutationInvocation := {
  mi_invocation : ConnectorInvocation;
  mi_preconditions : list ActionSimulation.FilePrecondition
}.

Record ConnectorMutationExecutionResult := {
  me_resultHash : option string;
  me_relativePath : option string;
  me_destinationPath : option string;
  me_byteLength : option number
}.

Record ConnectorDefinition := {
  cn_descriptor : ConnectorDescriptor;
  cn_constraintHandler : ConnectorConstraintHandler;
  cn_normalizeArguments : string → record → outcome record;
  cn_normalizeConstraints : record → outcome record;
  cn_prepareResource :
    nat → ConnectorResourceRegistrationInput → outcome PreparedConnectorResource;
  cn_invoke : option (nat → ConnectorInvocation → outcome ConnectorInvocationResult);
  cn_executeMutation :
    option (nat → ConnectorMutationInvocation → outcome ConnectorMutationExecutionResult)
}.

(** * The registry *)

(** The registry's own [required]. *)
Definition required (value fieldName : string) : outcome string :=
  throw_if (bool_decide (trim value = "")) (ConnectorRegistryError (fieldName +:+ " cannot be empty"));;
  throw_if (negb (bool_decide (trim value = value)))
    (ConnectorRegistryError (fieldName +:+ " must be canonical"));;
  Ok (trim value).

Definition freezeOperation (o : ConnectorOperationDescriptor)
    : outcome ConnectorOperationDescriptor :=
  name ← required (od_operation o) "connector operation";
  Ok {| od_operation := name; od_mode := od_mode o; od_riskLevel := od_riskLevel o;
        od_supportsSimulation := od_supportsSimulation o;
        od_supportsExecution := od_supportsExecution o;
        od_requiresApproval := od_requiresApproval o |}.

Definition is_read (o : ConnectorOperationDescriptor) : bool := bool_decide (od_mode o = op_read).
Definition is_mutation (o : ConnectorOperationDescriptor) : bool :=
  bool_decide (od_mode o = op_mutation).

(** The loop over the sorted operations; [seen] is [operationIds]. *)
Fixpoint check_operations (id : string) (seen : list string)
    (l : list ConnectorOperationDescriptor) : outcome unit :=
  match l with
  | [] => Ok tt
  | o :: rest =>
      let name := od_operation o in
      throw_if (includes name seen)
        (ConnectorRegistryError ("Duplicate connector operation: " +:+ name));;
      throw_if (negb (starts_with name (id +:+ ".")))
        (ConnectorRegistryError ("Connector operation must use " +:+ id +:+ ". namespace: " +:+ name));;
      throw_if (is_read o && od_supportsSimulation o)
        (ConnectorRegistryError ("Read operation cannot require simulation: " +:+ name));;
      throw_if (is_mutation o && od_supportsExecution o && negb (od_requiresApproval o))
        (ConnectorRegistryError ("Executable mutation operation must require approval: " +:+ name));;
      throw_if (is_mutation o && negb (od_supportsSimulation o))
        (ConnectorRegistryError ("M6B mutation operation must support simulation: " +:+ name));;
      throw_if (is_read o && od_requiresApproval o)
        (ConnectorRegistryError ("Read operation cannot require approval: " +:+ name));;
      check_operations id (name :: seen) rest
  end.

Definition compare_operations (a b : ConnectorOperationDescriptor) : Z :=
  compare_text (od_operation a) (od_operation b).

Definition compare_types (a b : ResourceType) : Z :=
  compare_text (resource_type_name a) (resource_type_name b).

Definition executable_mutation (o : ConnectorOperationDescriptor) : bool :=
  is_mutation o && od_supportsExecution o.

Definition freezeDefinition (definition : ConnectorDefinition) : outcome ConnectorDefinition :=
  let given := cn_descriptor definition in
  id ← required (cd_id given) "connector id";
  version ← required (cd_version given) "connector version";
  let handler := cn_constraintHandler definition in
  throw_if (negb (bool_decide (ch_connector handler = id)))
    (ConnectorRegistryError ("Constraint handler " +:+ ch_connector handler
       +:+ " does not match connector " +:+ id));;
  frozen ← map_result freezeOperation (cd_operations given);
  let operations := sort_by compare_operations frozen in
  check_operations id [] operations;;
  throw_if (length operations =? 0)
    (ConnectorRegistryError ("Connector " +:+ id +:+ " has no operations"));;
  let hasExecutableMutation := existsb executable_mutation operations in
  let boundary := ActionExecution.defined (cn_executeMutation definition) in
  throw_if (hasExecutableMutation && negb boundary)
    (ConnectorRegistryError ("Connector " +:+ id
       +:+ " has executable mutations without an execution boundary"));;
  throw_if (negb hasExecutableMutation && boundary)
    (ConnectorRegistryError ("Connector " +:+ id
       +:+ " exposes an unused mutation execution boundary"));;
  let types := sort_by compare_types (unique (cd_supportedResourceTypes given)) in
  throw_if (length types =? 0)
    (ConnectorRegistryError ("Connector " +:+ id +:+ " has no resource types"));;
  Ok {| cn_descriptor :=
          {| cd_id := id; cd_version := version; cd_supportedResourceTypes := types;
             cd_operations := operations |};
        cn_constraintHandler :=
          {| ch_connector := id; ch_combineAndValidate := ch_combineAndValidate handler |};
        cn_normalizeArguments := cn_normalizeArguments definition;
        cn_normalizeConstraints := cn_normalizeConstraints definition;
        cn_prepareResource := cn_prepareResource definition;
        cn_invoke := cn_invoke definition;
        cn_executeMutation := cn_executeMutation definition |}.

(** [ConnectorRegistry]: its map's entries, in ascending order of their ids. *)
Record ConnectorRegistry := { definitions : list ConnectorDefinition }.

Definition connector_id (d : ConnectorDefinition) : string := cd_id (cn_descriptor d).

Definition compare_definitions (a b : ConnectorDefinition) : Z :=
  compare_text (connector_id a) (connector_id b).

(** The loop of the constructor; [ids] are those met before. *)
Fixpoint freeze_all (ids : list string) (l : list ConnectorDefinition)
    : outcome (list ConnectorDefinition) :=
  match l with
  | [] => Ok []
  | candidate :: rest =>
      definition ← freezeDefinition candidate;
      throw_if (includes (connector_id definition) ids)
        (ConnectorRegistryError ("Duplicate connector descriptor: " +:+ connector_id definition));;
      entries ← freeze_all (connector_id definition :: ids) rest;
      Ok (definition :: entries)
  end.

Definition create_registry (given : list ConnectorDefinition) : outcome ConnectorRegistry :=
  entries ← freeze_all [] given;
  Ok {| definitions := sort_by compare_definitions entries |}.

Definition getDefinition (r : ConnectorRegistry) (provider : string)
    : option ConnectorDefinition :=
  List.find (λ d, bool_decide (connector_id d = provider)) (definitions r).

Definition get (r : ConnectorRegistry) (provider : string) : option ConnectorDescriptor :=
  cn_descriptor <$> getDefinition r provider.

Definition descriptors (r : ConnectorRegistry) : list ConnectorDescriptor :=
  cn_descriptor <$> definitions r.

Definition getPolicyDefinition (r : ConnectorRegistry) : ConnectorPolicyRegistry := λ provider,
  (λ d, {| df_descriptor := cn_descriptor d; df_constraintHandler := cn_constraintHandler d |})
    <$> getDefinition r provider.

Definition requireDefinition (r : ConnectorRegistry) (provider : string)
    : outcome ConnectorDefinition :=
  match getDefinition r provider with
  | Some d => Ok d
  | None => Throw (UnsupportedConnectorError provider)
  end.

Definition requireOperation (r : ConnectorRegistry) (provider operation : string)
    : outcome ConnectorOperationDescriptor :=
  definition ← requireDefinition r provider;
  match find_operation (cd_operations (cn_descriptor definition)) operation with
  | Some d => Ok d
  | None => Throw (UnsupportedConnectorOperationError provider operation)
  end.

(** * The fake connector *)

(** [record] of [fake-connector.ts], on a value that is canonical already. *)
Definition fake_record (value : record) : outcome record :=
  normalized ← normalizeCanonicalJson (embed 0 (CObj value));
  match normalized with
  | CObj members => Ok members
  | _ => Throw (CapabilityValidationError "Connector value must be an object")
  end.

Definition fake_operation (name : string) (mode : OperationMode) (risk : RiskLevel)
    (simulation approval : bool) : ConnectorOperationDescriptor :=
  {| od_operation := name; od_mode := mode; od_riskLevel := risk;
     od_supportsSimulation := simulation; od_supportsExecution := false;
     od_requiresApproval := approval |}.

Definition fakeConnectorDescriptor : ConnectorDescriptor :=
  {| cd_id := "fake"; cd_version := "1"; cd_supportedResourceTypes := [filesystem_scope];
     cd_operations :=
       [fake_operation "fake.read" op_read risk_low false false;
        fake_operation "fake.write" op_mutation risk_medium true false;
        fake_operation "fake.delete" op_mutation risk_high true true;
        fake_operation "fake.admin" op_mutation risk_critical true true] |}.

(** The object [validateFakeConnectorConstraints] returns. *)
Definition fake_constraints_record (c : FakeConnectorConstraints) : record :=
  optional_field "allowedTargets" ((λ l, CArr (CStr <$> l)) <$> fc_allowedTargets c) ++
  optional_field "deniedTargets" ((λ l, CArr (CStr <$> l)) <$> fc_deniedTargets c) ++
  optional_field "maxPayloadBytes" (CNum <$> fc_maxPayloadBytes c) ++
  optional_field "allowMutation" (CBool <$> fc_allowMutation c).

Definition fake_prepareResource (input : ConnectorResourceRegistrationInput)
    : outcome PreparedConnectorResource :=
  throw_if (negb (bool_decide (ri_type input = filesystem_scope)))
    (UnsupportedConnectorResourceTypeError "fake" (resource_type_name (ri_type input)));;
  configuration ← fake_record (ri_configuration input);
  Ok {| pr_externalRef := ri_externalRef input; pr_configuration := configuration |}.

Definition fakeConnectorDefinition `{ShowNumber} : ConnectorDefinition :=
  {| cn_descriptor := fakeConnectorDescriptor;
     cn_constraintHandler := FakeConnectorConstraintHandler;
     cn_normalizeArguments := λ _ value, fake_record value;
     cn_normalizeConstraints := λ value,
       normalized ← fake_record value;
       c ← validateFakeConnectorConstraints normalized;
       Ok (fake_constraints_record c);
     cn_prepareResource := λ _, fake_prepareResource;
     cn_invoke := None;
     cn_executeMutation := None |}.

(** * Lemmas *)

(** What the registry makes sure of an operation of the connector [id]. *)
Record operation_ok (id : string) (o : ConnectorOperationDescriptor) : Prop := {
  op_namespaced : starts_with (od_operation o) (id +:+ ".") = true;
  op_canonical : canonical (od_operation o) = true;
  op_read_plain : od_mode o = op_read →
    od_supportsSimulation o = false ∧ od_requiresApproval o = false;
  op_mutation_simulated : od_mode o = op_mutation → od_supportsSimulation o = true;
  op_mutation_approved : od_mode o = op_mutation → od_supportsExecution o = true →
    od_requiresApproval o = true
}.

Record definition_ok (d : ConnectorDefinition) : Prop := {
  def_id : canonical (connector_id d) = true;
  def_version : canonical (cd_version (cn_descriptor d)) = true;
  def_handler : ch_connector (cn_constraintHandler d) = connector_id d;
  def_operations : Forall (operation_ok (connector_id d)) (cd_operations (cn_descriptor d));
  def_unique : NoDup (od_operation <$> cd_operations (cn_descriptor d));
  def_some_operation : cd_operations (cn_descriptor d) ≠ [];
  def_boundary :
    is_Some (cn_executeMutation d) ↔
    ∃ o, o ∈ cd_operations (cn_descriptor d) ∧ executable_mutation o = true;
  def_types : NoDup (cd_supportedResourceTypes (cn_descriptor d)) ∧
              cd_supportedResourceTypes (cn_descriptor d) ≠ []
}.

Lemma registry_required_Ok v f s : required v f = Ok s ↔ s = v ∧ canonical v = true.
Proof.
  unfold required. rewrite !throw_if_bind_Ok, canonical_spec, bool_decide_eq_false,
    negb_false_iff, bool_decide_eq_true.
  split.
  - intros (Hne & Ht & [= <-]). rewrite Ht in Hne. rewrite Ht. done.
  - intros (-> & Ht & Hne). by rewrite Ht.
Qed.

Lemma freezeOperation_Ok o o' :
  freezeOperation o = Ok o' ↔ o' = o ∧ canonical (od_operation o) = true.
Proof.
  unfold freezeOperation. rewrite bind_Ok. split.
  - intros (n & Hn & [= <-]). apply registry_required_Ok in Hn as [-> ?]. by destruct o.
  - intros [-> Hc]. exists (od_operation o). split; [by apply registry_required_Ok|by destruct o].
Qed.

Lemma check_operations_Ok id seen l :
  Forall (λ o, canonical (od_operation o) = true) l →
  check_operations id seen l = Ok tt →
  Forall (operation_ok id) l ∧ NoDup (od_operation <$> l) ∧
  Forall (λ o, od_operation o ∉ seen) l.
Proof.
  intros Hcan. revert seen. induction Hcan as [|o l Ho _ IH]; intros seen.
  { intros _. by repeat constructor. }
  simpl. rewrite !throw_if_bind_Ok.
  intros (Hs%includes_false & Hn%negb_false_iff & Hr & Hx & Hm & Ha & Hrest).
  apply IH in Hrest as (Hok & Hnd & Hseen). split_and!.
  - constructor; [|done]. unfold is_read, is_mutation in *.
    constructor; [done|done| | |]; intros Hmode; rewrite Hmode in Hr, Hx, Hm, Ha; simpl in *.
    + done.
    + by apply negb_false_iff in Hm.
    + intros He. rewrite He in Hx. by apply negb_false_iff in Hx.
  - simpl. constructor; [|done]. intros (o' & Heq & Hin)%list_elem_of_fmap.
    rewrite Forall_forall in Hseen. apply Hseen in Hin. rewrite <- Heq in Hin. set_solver.
  - constructor; [done|]. eapply Forall_impl; [exact Hseen|]. simpl. set_solver.
Qed.

Lemma freezeDefinition_Ok c d : freezeDefinition c = Ok d → definition_ok d.
Proof.
  unfold freezeDefinition. rewrite bind_Ok. intros (id & Hid & H).
  apply registry_required_Ok in Hid as [-> Hid].
  apply bind_Ok in H as (v & Hv & H). apply registry_required_Ok in Hv as [-> Hv].
  rewrite throw_if_bind_Ok in H. destruct H as (Hh%negb_false_iff%bool_decide_eq_true & H).
  apply bind_Ok in H as (frozen & Hf & H). apply map_result_Ok in Hf.
  apply bind_Ok in H as ([] & Hc & H). rewrite !throw_if_bind_Ok in H.
  destruct H as (Hsome%Nat.eqb_neq & Hb1 & Hb2 & Ht%Nat.eqb_neq & [= <-]).
  apply check_operations_Ok in Hc as (Hok & Hnd & _).
  2: { apply Forall_forall. intros o Ho%sort_by_elem_of.
       apply list_elem_of_lookup in Ho as [i Hi].
       destruct (Forall2_lookup_r _ _ _ _ _ Hf Hi) as (o' & _ & Hx).
       by apply freezeOperation_Ok in Hx as [-> ?]. }
  constructor; simpl; try done.
  - intros Hnil. by rewrite Hnil in Hsome.
  - unfold ActionExecution.defined in *. destruct (cn_executeMutation c); simpl in *.
    + rewrite andb_true_r in Hb2. apply negb_false_iff, existsb_exists in Hb2 as (o & Ho & Hx).
      split; [|by intros _; eexists]. intros _. exists o. by rewrite list_elem_of_In.
    + split; [by intros []|]. intros (o & Ho & Hx). rewrite andb_true_r in Hb1.
      assert (existsb executable_mutation (sort_by compare_operations frozen) = true) as Hex.
      { apply existsb_exists. exists o. by rewrite <- list_elem_of_In. }
      congruence.
  - split.
    + rewrite sort_by_perm. apply unique_NoDup.
    + intros Hnil. by rewrite Hnil in Ht.
Qed.

Lemma freeze_all_Ok ids l entries :
  freeze_all ids l = Ok entries →
  Forall definition_ok entries ∧ NoDup (connector_id <$> entries) ∧
  Forall (λ d, connector_id d ∉ ids) entries ∧ length entries = length l.
Proof.
  revert ids entries. induction l as [|c l IH]; intros ids entries; simpl.
  { intros [= <-]. by repeat constructor. }
  intros (d & Hd & H)%bind_Ok. apply throw_if_bind_Ok in H as [Hids%includes_false H].
  apply bind_Ok in H as (rest & Hrest & [= <-]). apply IH in Hrest as (Hok & Hnd & Hout & Hlen).
  split_and!.
  - constructor; [by eapply freezeDefinition_Ok|done].
  - simpl. constructor; [|done]. intros (d' & Heq & Hin)%list_elem_of_fmap.
    rewrite Forall_forall in Hout. apply Hout in Hin. set_solver.
  - constructor; [done|]. eapply Forall_impl; [exact Hout|]. simpl. set_solver.
  - simpl. by rewrite Hlen.
Qed.

(** What holds of a registry that was accepted. *)
Record registry_ok (r : ConnectorRegistry) : Prop := {
  reg_definitions : Forall definition_ok (definitions r);
  reg_unique : NoDup (connector_id <$> definitions r)
}.

Lemma create_registry_Ok given r :
  create_registry given = Ok r → registry_ok r ∧ length (definitions r) = length given.
Proof.
  unfold create_registry. intros (entries & He & [= <-])%bind_Ok.
  apply freeze_all_Ok in He as (Hok & Hnd & _ & Hlen). split; [constructor; simpl|simpl].
  - by rewrite sort_by_perm.
  - by rewrite sort_by_perm.
  - by rewrite sort_by_length.
Qed.

Lemma getDefinition_Some r provider d :
  getDefinition r provider = Some d → d ∈ definitions r ∧ connector_id d = provider.
Proof.
  unfold getDefinition. intros [Hin Hp%bool_decide_eq_true]%find_some.
  split; [by apply list_elem_of_In|done].
Qed.

Lemma getDefinition_found r d :
  registry_ok r → d ∈ definitions r → getDefinition r (connector_id d) = Some d.
Proof.
  intros [_ Hnd] Hin. destruct (getDefinition r (connector_id d)) as [d'|] eqn:E.
  - apply getDefinition_Some in E as [Hin' Heq]. f_equal. revert Hnd Hin Hin' Heq. clear.
    induction (definitions r) as [|x l IH]; [set_solver|]. simpl.
    intros [Hx Hnd]%NoDup_cons [->|Hin]%elem_of_cons [->|Hin']%elem_of_cons Heq; try done.
    + destruct Hx. rewrite <- Heq. by apply list_elem_of_fmap_2.
    + destruct Hx. rewrite Heq. by apply list_elem_of_fmap_2.
    + by apply IH.
  - apply find_none with (x := d) in E; [|by apply list_elem_of_In].
    by rewrite bool_decide_eq_true_2 in E.
Qed.

Lemma evaluate_allow `{ShowNumber} registry input t d :
  evaluate registry input t = Ok d → pd_decision d = allow →
  ∃ definition o, registry (res_provider (pi_resource input)) = Some definition ∧
    find_operation (cd_operations (df_descriptor definition)) (pi_operation input) = Some o ∧
    decision_for o = allow.
Proof.
  intros He Hd. destruct (evaluate_cases registry input t) as [(definition & o & Hev & Heq)|(_ & reason & risk & Hno)].
  - rewrite Heq in He. exists definition, o. destruct Hev as [_ _ Hreg _ Hop _ _]. split; [done|].
    split; [done|]. destruct (length _ =? 0); [injection He as <-; done|].
    apply bind_Ok in He as (result & _ & [= <-]). revert Hd. unfold granted.
    by destruct (cr_ok result).
  - specialize (Hno (pi_grants input)). rewrite with_own_grants, He in Hno. injection Hno as ->. done.
Qed.


(** ** Samples and witnesses *)

Abbreviation sample_registry :=
  (create_registry [fakeConnectorDefinition (H := decimal_number)]).

Definition policy_of (r : outcome ConnectorRegistry) : outcome PolicyDecision :=
  registry ← r;
  evaluate (H := decimal_number) (getPolicyDefinition registry) sample_policy_input (Some 7%Z).


End Connector.
