(* ===== verification/Dates.v ===== *)
(** The ISO text of an instant, [Date.prototype.toISOString], on the proleptic
    Gregorian calendar that ECMAScript prescribes. *)
From S2P Require Import Prelude.

Module Dates.

(** The digit of [n], for [0 <= n < 10]. *)
Definition digit (n : Z) : Ascii.ascii := Ascii.ascii_of_nat (48 + Z.to_nat n).

(** The last [width] decimal digits of [n]. *)
Fixpoint digits (width : nat) (n : Z) : string :=
  match width with
  | 0 => ""
  | S w => digits w (n / 10) +:+ String (digit (n mod 10)) ""
  end.

(** The date of a day: the number of years since 0000-03-01 and of days since
    the last first of March decide it, as the leap day ends that year. *)
Definition civil (day : Z) : Z * Z * Z :=
  let z := (day + 719468)%Z in
  let era := (z / 146097)%Z in
  let doe := (z mod 146097)%Z in
  let yoe := ((doe - doe / 1460 + doe / 36524 - doe / 146096) / 365)%Z in
  let doy := (doe - (365 * yoe + yoe / 4 - yoe / 100))%Z in
  let mp := ((5 * doy + 2) / 153)%Z in
  let m := (if mp <? 10 then mp + 3 else mp - 9)%Z in
  (yoe + era * 400 + (if m <=? 2 then 1 else 0), m, doy - (153 * mp + 2) / 5 + 1)%Z.

Definition year_text (y : Z) : string :=
  if ((0 <=? y) && (y <=? 9999))%Z then digits 4 y
  else (if (y <? 0)%Z then "-" else "+") +:+ digits 6 (Z.abs y).

Definition day_ms : Z := 86400000.

(** [new Date(ms).toISOString()] of a valid date. *)
Definition toISOString (ms : Z) : string :=
  let '(y, m, d) := civil (ms / day_ms) in
  let t := (ms mod day_ms)%Z in
  year_text y +:+ "-" +:+ digits 2 m +:+ "-" +:+ digits 2 d +:+ "T" +:+
  digits 2 (t / 3600000) +:+ ":" +:+ digits 2 (t / 60000 mod 60) +:+ ":" +:+
  digits 2 (t / 1000 mod 60) +:+ "." +:+ digits 3 (t mod 1000) +:+ "Z".

(** ** The calendar *)

(** The day of a date, counted from 1970-01-01. *)
Definition day_of (y m d : Z) : Z :=
  let y := (if m <=? 2 then y - 1 else y)%Z in
  let era := (y / 400)%Z in
  let yoe := (y mod 400)%Z in
  let mp := (if m <=? 2 then m + 9 else m - 3)%Z in
  let doy := ((153 * mp + 2) / 5 + d - 1)%Z in
  (era * 146097 + (365 * yoe + yoe / 4 - yoe / 100) + doy - 719468)%Z.

(** What the days of one era of 400 years satisfy, checked one by one. *)
Definition day_of_era_ok (doe : Z) : bool :=
  let yoe := ((doe - doe / 1460 + doe / 36524 - doe / 146096) / 365)%Z in
  let doy := (doe - (365 * yoe + yoe / 4 - yoe / 100))%Z in
  let mp := ((5 * doy + 2) / 153)%Z in
  ((0 <=? yoe) && (yoe <=? 399) && (0 <=? mp) && (mp <=? 11))%Z.

Fixpoint all_from (p : Z → bool) (first : Z) (count : nat) : bool :=
  match count with
  | 0 => true
  | S c => p first && all_from p (first + 1) c
  end.

Lemma all_from_spec p count first :
  all_from p first count = true → ∀ z, (first <= z < first + Z.of_nat count)%Z → p z = true.
Proof.
  revert first. induction count as [|c IH]; intros first; cbn [all_from]; [lia|].
  intros [Hf Hc]%andb_prop z Hz. destruct (Z.eq_dec z first) as [->|]; [done|].
  apply (IH _ Hc). lia.
Qed.

Lemma days_of_era_ok : all_from day_of_era_ok 0 (Z.to_nat 146097) = true.
Proof. vm_compute. reflexivity. Qed.

Lemma day_of_era doe : (0 <= doe < 146097)%Z → day_of_era_ok doe = true.
Proof. intros Hd. apply (all_from_spec _ _ _ days_of_era_ok). rewrite Z2Nat.id; lia. Qed.

(** Every day has a date, and is the day of that date. *)
Lemma day_of_civil day : let '(y, m, d) := civil day in day_of y m d = day.
Proof.
  unfold civil. pose proof (day_of_era ((day + 719468) mod 146097)) as H.
  pose proof (Z.mod_pos_bound (day + 719468) 146097) as Hb.
  pose proof (Z.div_mod (day + 719468) 146097) as Hdm.
  set (doe := ((day + 719468) mod 146097)%Z) in *.
  set (era := ((day + 719468) / 146097)%Z) in *. unfold day_of_era_ok in H.
  set (yoe := ((doe - doe / 1460 + doe / 36524 - doe / 146096) / 365)%Z) in *.
  set (doy := (doe - (365 * yoe + yoe / 4 - yoe / 100))%Z) in *.
  set (mp := ((5 * doy + 2) / 153)%Z) in *.
  rewrite !andb_true_iff, !Z.leb_le in H.
  assert (∀ y, y = (yoe + era * 400)%Z → (y / 400 = era ∧ y mod 400 = yoe)%Z) as Hy.
  { intros y ->. rewrite Z.div_add, Z.mod_add by lia. split; [rewrite Z.div_small; lia|].
    apply Z.mod_small; lia. }
  unfold day_of. destruct (Z.ltb_spec mp 10).
  - destruct (Z.leb_spec (mp + 3) 2); [lia|].
    destruct (Hy (yoe + era * 400 + 0)%Z ltac:(lia)) as [-> ->].
    replace (mp + 3 - 3)%Z with mp by lia. lia.
  - destruct (Z.leb_spec (mp - 9) 2); [|lia].
    destruct (Hy (yoe + era * 400 + 1 - 1)%Z ltac:(lia)) as [-> ->].
    replace (mp - 9 + 9)%Z with mp by lia. lia.
Qed.

Example iso_epoch : toISOString 0 = "1970-01-01T00:00:00.000Z".
Proof. reflexivity. Qed.

Example iso_leap_day : toISOString 1709208000007 = "2024-02-29T12:00:00.007Z".
Proof. reflexivity. Qed.

Example iso_limits :
  toISOString 8640000000000000 = "+275760-09-13T00:00:00.000Z" ∧
  toISOString (-8640000000000000) = "-271821-04-20T00:00:00.000Z".
Proof. split; reflexivity. Qed.

End Dates.
