(* ===== verification/Arranged.v ===== *)
(** The canonical text of JSON data put together by the program itself: objects
    without repeated or forbidden members, and plain numbers.  Two such values
    have the same canonical text only if they have the same members. *)
From S2P Require Import Prelude Errors Json ActionModel PolicyModel.
Import Canonical Policy.

Module Arranged.

Fixpoint harmless (v : cjson) : bool :=
  match v with
  | CNum n => canonical_number n
  | CArr items => forallb harmless items
  | CObj members =>
      bool_decide (NoDup members.*1) &&
      forallb (λ m, negb (includes m.1 forbiddenObjectKeys) && harmless m.2) members
  | _ => true
  end.

(** The members of every object in the order of the canonical form. *)
Fixpoint arranged (v : cjson) : cjson :=
  match v with
  | CArr items => CArr (map arranged items)
  | CObj members => CObj (own_order (sort_by compare_key (map (λ m, (m.1, arranged m.2)) members)))
  | _ => v
  end.

Lemma map_keys {A B} (f : A → B) (l : list (string * A)) :
  (map (λ m, (m.1, f m.2)) l).*1 = l.*1.
Proof. induction l as [|m l IH]; [done|]. cbn. by rewrite <- IH. Qed.

Lemma normalize_elements_map f path i (g : cjson → js) (h : cjson → cjson) l :
  Forall (λ v, ∀ p, f (g v) p = Ok (h v)) l →
  normalize_elements f path i (map (λ v, plain (g v)) l) = Ok (map h l).
Proof.
  intros Hl. revert i. induction Hl as [|v l Hv _ IH]; intros i; simpl; [done|].
  by rewrite Hv, IH.
Qed.

Lemma normalize_arranged c :
  ∀ depth path anc, harmless c = true → (∀ a, a ∈ anc → a < depth) →
    normalize (embed depth c) path anc = Ok (arranged c).
Proof.
  induction c as [|b|n|s|l IH|l IH] using cjson_nested_ind; intros depth path anc Hc Ha;
    simpl in *; try done.
  - apply andb_true_iff in Hc as [-> Hn%negb_true_iff%bool_decide_eq_false]. simpl.
    by rewrite decide_False.
  - assert (includes depth anc = false) as -> by (apply includes_false; intros ?%Ha; lia).
    simpl. apply Forall_forallb in Hc.
    rewrite (normalize_elements_map _ _ _ (embed (S depth)) arranged); [done|].
    eapply Forall_impl; [apply Forall_and; split; [exact IH|exact Hc]|].
    intros v [Hv Hcv] p. apply Hv; [done|]. intros a [->|?%Ha]%elem_of_cons; lia.
  - assert (includes depth anc = false) as -> by (apply includes_false; intros ?%Ha; lia).
    rewrite !andb_true_iff, !bool_decide_eq_true in Hc.
    destruct Hc as [Hnd Hm%Forall_forallb]. simpl.
    assert (map (λ p, (p.1, slot_map
      (λ v, normalize v (member_path path p.1) (depth :: anc)) p.2))
      (map (λ m, (m.1, plain (embed (S depth) m.2))) l) =
      prod_map id (λ v, plain (Ok v)) <$> map (λ m, (m.1, arranged m.2)) l) as ->.
    { rewrite List.map_map. change (prod_map id (λ v, plain (Ok v)) <$> map (λ m, (m.1, arranged m.2)) l)
        with (map (prod_map id (λ v : cjson, plain (Ok v : outcome cjson)))
                (map (λ m, (m.1, arranged m.2)) l)).
      rewrite List.map_map. apply List.map_ext_Forall.
      eapply Forall_impl; [apply Forall_and; split; [exact IH|exact Hm]|].
      intros [k v] [Hv [_ Hcv]%andb_true_iff]; simpl in *. rewrite Hv; [done|done|].
      intros a [->|?%Ha]%elem_of_cons; lia. }
    rewrite (sort_by_fmap compare_key compare_key) by done.
    rewrite collect_members_total; simpl; [done|].
    apply Forall_forall. intros m Hin. rewrite sort_by_elem_of in Hin.
    apply list_elem_of_In, List.in_map_iff in Hin as (m' & <- & Hin). apply list_elem_of_In in Hin.
    rewrite Forall_forall in Hm. specialize (Hm _ Hin).
    apply andb_true_iff in Hm as [Hm%negb_true_iff _]. by apply includes_false in Hm.
Qed.

Lemma arranged_plain v : harmless v = true → plain_numbers (arranged v) = true.
Proof.
  induction v as [|b|n|s|l IH|l IH] using cjson_nested_ind; cbn [harmless arranged plain_numbers]; try done.
  - rewrite !Forall_forallb, Forall_map. intros Hl. eapply Forall_impl;
      [apply Forall_and; split; [exact IH|exact Hl]|]. intros v [Hi Hv]. by apply Hi.
  - intros [_ Hl]%andb_prop. rewrite Forall_forallb in *. apply Forall_forall. intros m Hm.
    rewrite own_order_perm, sort_by_elem_of in Hm.
    apply list_elem_of_In, List.in_map_iff in Hm as (m' & <- & Hin). apply list_elem_of_In in Hin.
    rewrite Forall_forall in IH, Hl. cbn. apply IH; [done|]. specialize (Hl _ Hin).
    by apply andb_prop in Hl as [_ Hl].
Qed.

(** The text of a value is that of its arrangement, and determines it. *)
Lemma canonical_text `{ShowNumber} v :
  harmless v = true → canonicalStringify (embed 0 v) = Ok (stringify (arranged v)).
Proof.
  intros Hv. unfold canonicalStringify, normalizeCanonicalJson.
  rewrite normalize_arranged; [done|done|]. by intros a Ha%elem_of_nil.
Qed.

Lemma arranged_text_inj `{ShowNumberLaws} v w :
  harmless v = true → harmless w = true → stringify (arranged v) = stringify (arranged w) →
  arranged v = arranged w.
Proof.
  intros Hv Hw Heq. apply (f_equal (λ s, s +:+ "")) in Heq.
  apply stringify_plain_inj in Heq as [Heq _]; try done; by apply arranged_plain.
Qed.

(** Members under the same name are the same up to arrangement. *)
Lemma arranged_field l l' key v v' :
  harmless (CObj l) = true → arranged (CObj l) = arranged (CObj l') →
  (key, v) ∈ l → (key, v') ∈ l' → arranged v = arranged v'.
Proof.
  intros [Hnd%bool_decide_eq_true _]%andb_prop Heq Hv Hv'. cbn [arranged] in Heq.
  set (a := map (λ m, (m.1, arranged m.2)) l) in *. set (b := map (λ m, (m.1, arranged m.2)) l') in *.
  assert (a ≡ₚ b) as Hp.
  { transitivity (own_order (sort_by compare_key a)); [by rewrite own_order_perm, sort_by_perm|].
    injection Heq as ->. by rewrite own_order_perm, sort_by_perm. }
  assert (∀ (k : string) x (m : list (string * cjson)), (k, x) ∈ m →
    (k, arranged x) ∈ map (λ m, (m.1, arranged m.2)) m) as Hin.
  { intros k x m Hm. apply list_elem_of_In, List.in_map_iff. exists (k, x).
    split; [done|]. by apply list_elem_of_In. }
  assert ((key, arranged v') ∈ a) as Hb by (rewrite Hp; by apply Hin).
  enough ((key, arranged v) = (key, arranged v')) as [= ->] by done.
  eapply NoDup_keys_inj; [|by apply Hin|exact Hb|done]. by unfold a; rewrite map_keys.
Qed.

End Arranged.
