(* ===== verification/Text.v ===== *)
(** Texts: splitting and joining at a character, case, and the lemmas the
    grammars of paths, diffs and identifiers share. *)
From S2P Require Import Prelude Errors Json.

Module Text.

(** [s.split(sep)], for one character *)
Fixpoint split_on (sep : Ascii.ascii) (s : string) : list string :=
  match s with
  | EmptyString => [""]
  | String c rest =>
      if decide (c = sep) then "" :: split_on sep rest
      else match split_on sep rest with
           | x :: l => String c x :: l
           | [] => [String c ""]
           end
  end.

Definition string_some (p : Ascii.ascii → bool) (s : string) : bool :=
  negb (string_all (λ c, negb (p c)) s).

(** [s.includes(c)] *)
Definition has_char (c : Ascii.ascii) (s : string) : bool := string_some (λ d, bool_decide (d = c)) s.

(** [s.toLowerCase()] *)
Fixpoint to_lower (s : string) : string :=
  match s with
  | EmptyString => ""
  | String c rest => String (Canonical.lower c) (to_lower rest)
  end.

(** ** Splitting at a character *)

Definition free_of (sep : Ascii.ascii) (s : string) : bool :=
  string_all (λ c, negb (bool_decide (c = sep))) s.

Lemma join_cons_sep sep x l : l ≠ [] → join sep (x :: l) = x +:+ sep +:+ join sep l.
Proof. by destruct l. Qed.

Lemma join_app_sep sep l1 l2 :
  l1 ≠ [] → l2 ≠ [] → join sep (l1 ++ l2) = join sep l1 +:+ sep +:+ join sep l2.
Proof.
  intros H1 H2. induction l1 as [|x l1 IH]; [done|]. destruct l1 as [|y l1]; simpl app.
  - by rewrite join_cons_sep.
  - rewrite (join_cons_sep sep x (y :: l1)), (join_cons_sep sep x (y :: l1 ++ l2)) by done.
    rewrite app_comm_cons, IH by done. by rewrite !Canonical.string_app_assoc.
Qed.

Section splitting.
  Context (sep : Ascii.ascii).

Lemma split_nonempty s : split_on sep s ≠ [].
Proof.
  destruct s as [|c s]; simpl; [done|]. destruct (decide (c = sep)); [done|].
  by destruct (split_on sep s).
Qed.

Lemma join_split_on s : join (String sep "") (split_on sep s) = s.
Proof.
  induction s as [|c s IH]; simpl; [done|]. pose proof (split_nonempty s) as Hne.
  destruct (decide (c = sep)) as [->|Hc].
  - rewrite join_cons_sep by done. by rewrite IH.
  - destruct (split_on sep s) as [|x l]; [done|]. rewrite <- IH. by destruct l.
Qed.

Lemma split_on_free s : free_of sep s = true → split_on sep s = [s].
Proof.
  unfold free_of. induction s as [|c s IH]; simpl; [done|].
  intros [Hc%negb_true_iff%bool_decide_eq_false Hs]%andb_prop.
  rewrite decide_False by done. by rewrite (IH Hs).
Qed.

(** Splitting at a separator splits the text. *)
Lemma split_on_app a b : split_on sep (a +:+ String sep "" +:+ b) = split_on sep a ++ split_on sep b.
Proof.
  induction a as [|c a IH]; simpl; [by rewrite decide_True|].
  rewrite IH. destruct (decide (c = sep)); [done|].
  pose proof (split_nonempty a). by destruct (split_on sep a).
Qed.

Lemma split_on_segments s : Forall (λ x, free_of sep x = true) (split_on sep s).
Proof.
  induction s as [|c s IH]; simpl; [by constructor|].
  destruct (decide (c = sep)) as [->|Hc]; [by constructor|].
  destruct (split_on sep s) as [|x l]; [|].
  - constructor; [|done]. unfold free_of. simpl. by rewrite bool_decide_eq_false_2.
  - apply Forall_cons in IH as [Hx Hl]. constructor; [|done].
    unfold free_of in *. simpl. by rewrite bool_decide_eq_false_2, Hx.
Qed.

Lemma split_on_join l :
  l ≠ [] → Forall (λ x, free_of sep x = true) l → split_on sep (join (String sep "") l) = l.
Proof.
  intros Hne Hl. induction Hl as [|x l Hx Hl IH]; [done|]. clear Hne.
  destruct l as [|y l]; [by apply split_on_free|].
  rewrite join_cons_sep by done. rewrite split_on_app, split_on_free, IH by done. done.
Qed.

End splitting.

Lemma prefix_iff p s : String.prefix p s = true ↔ ∃ r, s = p +:+ r.
Proof.
  revert s. induction p as [|c p IH]; intros s.
  - split; [intros _; by exists s|]. intros _. by destruct s.
  - destruct s as [|d s]; simpl.
    + split; [done|]. by intros [r Hr].
    + destruct (Ascii.ascii_dec c d) as [->|Hne].
      * rewrite IH. split; intros [r Hr]; exists r; [by rewrite Hr|]. by injection Hr.
      * split; [done|]. intros [r Hr]. by injection Hr as ->.
Qed.

End Text.
