(* ===== verification/Members.v ===== *)
(** Stored JSON objects: reading a member of an object that is put together
    from parts, in whatever order its members are, and objects written as the
    list of the members they may have. *)
From S2P Require Import Prelude Errors Json ActionModel PolicyModel.
Import Canonical Policy.

Module Members.

Lemma find_perm {A} (l l' : list (string * A)) k :
  NoDup l.*1 → l ≡ₚ l' →
  List.find (λ m, bool_decide (m.1 = k)) l = List.find (λ m, bool_decide (m.1 = k)) l'.
Proof.
  intros Hnd Hp. induction Hp as [|x l l' Hp IH|x y l|l1 l2 l3 Hp1 IH1 Hp2 IH2]; simpl in *.
  - done.
  - apply NoDup_cons in Hnd as [_ Hnd]. by rewrite IH.
  - apply NoDup_cons in Hnd as [Hx _]. repeat case_bool_decide; try done. set_solver.
  - rewrite IH1 by done. apply IH2. by rewrite <- Hp1.
Qed.

Lemma field_perm l l' k : NoDup l.*1 → l ≡ₚ l' → field k l = field k l'.
Proof. intros Hnd Hp. unfold field, ActionSimulation.get_member. by rewrite (find_perm l l'). Qed.

Lemma field_app k a b :
  field k (a ++ b) = match field k a with Some v => Some v | None => field k b end.
Proof.
  unfold field, ActionSimulation.get_member. induction a as [|[k' v] a IH]; simpl; [done|].
  by case_bool_decide.
Qed.

Lemma field_optional k k' v :
  field k (optional_field k' v) = if bool_decide (k' = k) then v else None.
Proof.
  unfold field, ActionSimulation.get_member. destruct v; simpl; by case_bool_decide.
Qed.

(** ** Objects with optional members *)

(** An object literal with conditional spreads: a member that is [None] is
    left out. *)
Definition present (l : list (string * option cjson)) : record :=
  omap (λ m, pair m.1 <$> m.2) l.

Fixpoint assoc {A} (key : string) (l : list (string * option A)) : option A :=
  match l with
  | [] => None
  | (k, v) :: rest => if String.eqb k key then v else assoc key rest
  end.

Lemma present_keys l : (present l).*1 `sublist_of` l.*1.
Proof.
  induction l as [|[k [v|]] l IH]; [by constructor| |]; unfold present in *; cbn in *.
  - by apply sublist_skip.
  - by apply sublist_cons.
Qed.

Lemma field_present l key : NoDup l.*1 → field key (present l) = assoc key l.
Proof.
  unfold field, ActionSimulation.get_member.
  induction l as [|[k v] l IH]; [done|]. cbn [fmap list_fmap fst]. intros [Hk Hl]%NoDup_cons.
  cbn [assoc]. destruct (String.eqb_spec k key) as [->|Hne].
  - destruct v as [v|]; cbn; [by rewrite bool_decide_eq_true_2|].
    destruct (List.find _ _) as [[k' v']|] eqn:Hf; [|done].
    apply List.find_some in Hf as [Hin Hkey]. apply bool_decide_eq_true in Hkey. cbn in Hkey.
    subst k'. destruct Hk. eapply elem_of_sublist; [|apply present_keys].
    apply list_elem_of_fmap. exists (key, v'). split; [done|]. by apply list_elem_of_In.
  - destruct v as [v|]; cbn; [|by apply IH]. rewrite bool_decide_eq_false_2 by done. by apply IH.
Qed.

#[global] Arguments present : simpl never.

End Members.
