(* ===== verification/PackSchema.v ===== *)
(** Domain Pack contracts, the leaves: reading JSON with a code and a path for
    every refusal, the identity grammars, and the closed data schema.  Models
    the first part of [packages/domain-pack-contracts/src/manifest.ts].

    A value is plain JSON data, as the strict reader returns it; a member that
    is absent is [None].  No text of the model holds a surrogate. *)
From S2P Require Import Prelude Errors Json ActionModel PolicyModel Text Members.
Import Canonical Policy Text Members.

Module PackSchema.

(** * Reading JSON *)

(** [fail(code, path, message)] *)
Definition failure (code path message : string) : error := DomainPackManifestError code path message.

Definition invalid_contribution : string := "invalid_contribution".

Definition object (value : option cjson) (path code : string) : outcome record :=
  match value with
  | Some (CObj members) => Ok members
  | _ => Throw (failure code path "expected object")
  end.

(** The loop that refuses a member that is not [allowed]. *)
Definition only_keys (record : record) (allowed : list string) (path code : string)
    (message : string → string) : outcome unit :=
  match List.find (λ key, negb (includes key allowed)) record.*1 with
  | Some key => Throw (failure code (member_path path key) (message key))
  | None => Ok tt
  end.

(** The loop that refuses a member that is missing. *)
Definition has_keys (record : record) (required : list string) (path code : string)
    : outcome unit :=
  match List.find (λ key, bool_decide (field key record = None)) required with
  | Some key => Throw (failure code (member_path path key) "missing field")
  | None => Ok tt
  end.

Definition keys (record : record) (allowed : list string) (path code : string) : outcome unit :=
  only_keys record allowed path code (λ _, "unknown field");;
  has_keys record allowed path code.

Definition array (value : option cjson) (path code : string) : outcome (list cjson) :=
  match value with
  | Some (CArr items) => Ok items
  | _ => Throw (failure code path "expected array")
  end.

(** [items.map((entry, index) => f(entry, `${path}[${index}]`))] *)
Fixpoint map_entries {A} (f : option cjson → string → outcome A) (path : string) (index : nat)
    (items : list cjson) : outcome (list A) :=
  match items with
  | [] => Ok []
  | entry :: rest =>
      a ← f (Some entry) (element_path path index);
      l ← map_entries f path (S index) rest;
      Ok (a :: l)
  end.

(** A member that is read when it is present. *)
Definition optional {A} (f : option cjson → string → outcome A) (record : record)
    (path key : string) : outcome (option A) :=
  match field key record with
  | None => Ok None
  | Some value => a ← f (Some value) (member_path path key); Ok (Some a)
  end.

(** [new Set(l).size !== l.length] *)
Definition has_duplicates (l : list string) : bool := negb (length (unique l) =? length l).

(** [string] *)
Definition text (value : option cjson) (path code : string) : outcome string :=
  match value with
  | Some (CStr s) => Ok s
  | _ => Throw (failure code path "expected Unicode string")
  end.

(** A string that matches a pattern. *)
Definition matching (matches : string → bool) (code message : string) (value : option cjson)
    (path : string) : outcome string :=
  match value with
  | Some (CStr s) => if matches s then Ok s else Throw (failure code path message)
  | _ => Throw (failure code path message)
  end.

(** * Grammars *)

Definition alphanumeric (c : Ascii.ascii) : bool := is_lower c || is_upper c || is_digit c.
Definition lower_digit (c : Ascii.ascii) : bool := is_lower c || is_digit c.

(** One character of [first], then any number of [rest]. *)
Definition head_tail (first rest : Ascii.ascii → bool) (s : string) : bool :=
  match s with EmptyString => false | String c s' => first c && string_all rest s' end.

Definition dot : Ascii.ascii := Eval cbv in Ascii.ascii_of_nat 46.
Definition slash : Ascii.ascii := Eval cbv in Ascii.ascii_of_nat 47.

(** [[a-z](?:[a-z0-9-]*[a-z0-9])?] *)
Definition dns_label (s : string) : bool :=
  head_tail is_lower (λ c, lower_digit c || one_of "-" c) s && negb (ends_with s "-").

(** [packIdPattern] *)
Definition is_pack_id (s : string) : bool :=
  let labels := split_on dot s in
  (2 <=? length labels) && forallb dns_label labels.

(** [0|[1-9][0-9]*] *)
Definition decimal_part (s : string) : bool :=
  bool_decide (s = "0") || head_tail (λ c, is_digit c && negb (one_of "0" c)) is_digit s.

(** [versionPattern] *)
Definition is_version (s : string) : bool :=
  let parts := split_on dot s in
  (length parts =? 3) && forallb decimal_part parts.

(** [digestPattern] *)
Definition is_digest (s : string) : bool :=
  starts_with s "sha256:" && is_sha256_hex (String.substring 7 (String.length s) s).

(** [localIdPattern] *)
Definition is_local_id (s : string) : bool :=
  head_tail alphanumeric (λ c, alphanumeric c || one_of "._-" c) s.

(** Non-empty segments of [inner] characters, separated by [separators]; [open]
    says that the segment so far is empty. *)
Fixpoint segmented (separators inner : Ascii.ascii → bool) (open : bool) (s : string) : bool :=
  match s with
  | EmptyString => negb open
  | String c rest =>
      if separators c then negb open && segmented separators inner true rest
      else inner c && segmented separators inner false rest
  end.

Definition lower_name (separators : string) (s : string) : bool :=
  head_tail is_lower (λ _, true) s && segmented (one_of separators) lower_digit true s.

(** [policyOperationPattern] and [validatorAdapterIdPattern] *)
Definition is_policy_operation (s : string) : bool := lower_name "._:-" s.
Definition is_adapter_id (s : string) : bool := lower_name "._-" s.

(** [operationNamePattern] *)
Definition is_operation_name (s : string) : bool :=
  let segments := split_on dot s in
  (2 <=? length segments) &&
  forallb (head_tail alphanumeric (λ c, alphanumeric c || one_of "_-" c)) segments.

(** [schemaPropertyPattern] *)
Definition is_property_name (s : string) : bool :=
  matches_head_tail (λ c, is_lower c || is_upper c) (λ c, alphanumeric c || one_of "_-" c) 63 s.

Definition media_part (s : string) : bool :=
  head_tail lower_digit (λ c, lower_digit c || one_of "!#$&^_.+-" c) s.

(** [mediaTypePattern] *)
Definition is_media_type (s : string) : bool :=
  let parts := split_on slash s in
  (length parts =? 2) && forallb media_part parts.

(** * Identities *)

Definition parseDomainPackId (value : option cjson) : outcome string :=
  matching is_pack_id "invalid_identity" "expected lower-case reverse-DNS ID" value "id".

Definition parseDomainPackVersion (value : option cjson) : outcome string :=
  matching is_version "invalid_identity" "expected exact MAJOR.MINOR.PATCH" value "version".

Definition parse_digest (path : string) (value : option cjson) : outcome string :=
  matching is_digest "invalid_identity" "expected sha256: and 64 lowercase hex digits" value path.

Definition parseManifestDigest : option cjson → outcome string := parse_digest "manifestDigest".
Definition parseArtifactDigest : option cjson → outcome string := parse_digest "artifactDigest".

Definition parseContributionLocalId (value : option cjson) : outcome string :=
  matching is_local_id "invalid_identity" "expected ASCII local ID" value "id".

Definition localId (code : string) : option cjson → string → outcome string :=
  matching is_local_id code "expected ASCII local ID".

Definition local_id : option cjson → string → outcome string := localId invalid_contribution.

(** * The data schema *)

Definition maximumSchemaDepth : nat := 4.
Definition maximumSchemaProperties : nat := 64.
Definition maximumSchemaNodes : Z := 256.
Definition maximumSchemaEnumValues : nat := 64.
Definition maximumSchemaEnumValueLength : nat := 128.
Definition maximumSchemaStringLength : Z := 65536.
Definition maximumSchemaArrayItems : Z := 10000.

Definition reservedSchemaPropertyNames : list string := ["__proto__"; "constructor"; "prototype"].

Inductive schema_type :=
| type_string | type_integer | type_number | type_boolean | type_enum | type_array | type_object.

Definition schema_types : list (string * schema_type) :=
  [("string", type_string); ("integer", type_integer); ("number", type_number);
   ("boolean", type_boolean); ("enum", type_enum); ("array", type_array); ("object", type_object)].

Definition schemaMembers (t : schema_type) : list string :=
  "type" :: match t with
            | type_string => ["minLength"; "maxLength"]
            | type_integer | type_number => ["minimum"; "maximum"]
            | type_boolean => []
            | type_enum => ["values"]
            | type_array => ["items"; "minItems"; "maxItems"]
            | type_object => ["properties"; "required"]
            end.

Inductive PackDataSchema :=
| schema_string (minLength maxLength : option number)
| schema_number (integer : bool) (minimum maximum : option number)
| schema_boolean
| schema_enum (values : list string)
| schema_array (items : PackDataSchema) (minItems maxItems : option number)
| schema_object (properties : list (string * PackDataSchema)) (required : option (list string)).

Definition schemaText (s : string) : bool := negb (has_char (Ascii.ascii_of_nat 0) s).

Definition boundedInteger (minimum maximum : Z) (value : option cjson) (path : string)
    : outcome number :=
  match value with
  | Some (CNum n) =>
      if is_safe_integer n && negb (num_lt n minimum) && negb (num_gt n maximum) then Ok n
      else Throw (failure invalid_contribution path
             ("expected integer from " +:+ show_Z minimum +:+ " to " +:+ show_Z maximum))
  | _ => Throw (failure invalid_contribution path
           ("expected integer from " +:+ show_Z minimum +:+ " to " +:+ show_Z maximum))
  end.

Definition sortedUnique (values : list string) (path : string) : outcome (list string) :=
  throw_if (has_duplicates values) (failure invalid_contribution path "duplicate entry");;
  Ok (sort_by compare_text values).

(** [minimum !== undefined && maximum !== undefined && minimum > maximum] *)
Definition exceeds (minimum maximum : option number) : bool :=
  match minimum, maximum with Some a, Some b => number_ltb b a | _, _ => false end.

(** A pair of bounds, the first at most the second. *)
Definition bounds (read : option cjson → string → outcome number) (record : record)
    (path low high : string) : outcome (option number * option number) :=
  minimum ← optional read record path low;
  maximum ← optional read record path high;
  throw_if (exceeds minimum maximum)
    (failure invalid_contribution (member_path path low) (low +:+ " exceeds " +:+ high));;
  Ok (minimum, maximum).

(** [bound] of a number schema *)
Definition number_bound (integer : bool) (value : option cjson) (path : string) : outcome number :=
  match value with
  | Some (CNum n) =>
      if is_finite n && (negb integer || is_safe_integer n) then Ok n
      else Throw (failure invalid_contribution path
             (if integer then "expected safe integer" else "expected number"))
  | _ => Throw (failure invalid_contribution path
           (if integer then "expected safe integer" else "expected number"))
  end.

Definition enum_value (value : option cjson) (path : string) : outcome string :=
  matching (λ s, schemaText s && negb (String.length s =? 0) &&
                 (String.length s <=? maximumSchemaEnumValueLength))
    invalid_contribution
    ("expected non-empty text of at most 128 characters without U+0000 or a lone surrogate")
    value path.

Definition enum_values (record : record) (path : string) : outcome (list string) :=
  let valuesPath := member_path path "values" in
  values ← array (field "values" record) valuesPath invalid_contribution;
  throw_if ((length values =? 0) || (maximumSchemaEnumValues <? length values))
    (failure invalid_contribution valuesPath "expected 1 to 64 values");;
  parsed ← map_entries enum_value valuesPath 0 values;
  sortedUnique parsed valuesPath.

(** The property names of an object schema, in ascending order. *)
Definition property_names (properties : record) (path : string) : outcome (list string) :=
  let names := properties.*1 in
  throw_if ((length names =? 0) || (maximumSchemaProperties <? length names))
    (failure invalid_contribution path "expected 1 to 64 properties");;
  match List.find (λ name, negb (is_property_name name) || includes name reservedSchemaPropertyNames)
          names with
  | Some name => Throw (failure invalid_contribution (member_path path name)
      "expected property name of a letter, then letters, digits, _ or -")
  | None => Ok (sort_by compare_text names)
  end.

Definition required_names (record : record) (names : list string) (path : string)
    : outcome (option (list string)) :=
  match field "required" record with
  | None => Ok None
  | Some value =>
      let requiredPath := member_path path "required" in
      entries ← array (Some value) requiredPath invalid_contribution;
      throw_if (length entries =? 0) (failure invalid_contribution requiredPath
        "expected at least one name; omit the field instead");;
      parsed ← map_entries (matching (λ s, includes s names) invalid_contribution
        "required name is not a declared property") requiredPath 0 entries;
      sorted ← sortedUnique parsed requiredPath;
      Ok (Some sorted)
  end.

(** A loop whose body keeps the node budget. *)
Fixpoint traverse {A B S} (f : A → action error S B) (l : list A) : action error S (list B) :=
  match l with
  | [] => mret []
  | a :: rest => b ← f a; bs ← traverse f rest; mret (b :: bs)
  end.

Definition unknown_schema_field (key : string) : string :=
  if bool_decide (key = "additionalProperties") then "unknown field; an object schema is always closed"
  else "unknown field".

Definition type_of (record : record) (path : string) : outcome schema_type :=
  match (match field "type" record with
         | Some (CStr t) => snd <$> List.find (λ p, bool_decide (p.1 = t)) schema_types
         | _ => None
         end) with
  | Some t => Ok t
  | None => Throw (failure invalid_contribution (member_path path "type")
      "expected string, integer, number, boolean, enum, array or object")
  end.

(** One property of an object schema. *)
Definition property (nested : option cjson → string → action error Z PackDataSchema)
    (properties : record) (path name : string) : action error Z (string * PackDataSchema) :=
  s ← nested (field name properties) (member_path path name); mret (name, s).

(** The cases of [dataSchema], with what reads a schema one level down. *)
Definition schema_of_type (nested : option cjson → string → action error Z PackDataSchema)
    (t : schema_type) (record : record) (path : string) : action error Z PackDataSchema :=
  match t with
  | type_boolean => mret schema_boolean
  | type_string =>
      b ← lift (bounds (boundedInteger 0 maximumSchemaStringLength) record path
                  "minLength" "maxLength");
      mret (schema_string b.1 b.2)
  | type_integer | type_number =>
      let integer := match t with type_integer => true | _ => false end in
      b ← lift (bounds (number_bound integer) record path "minimum" "maximum");
      mret (schema_number integer b.1 b.2)
  | type_enum =>
      values ← lift (enum_values record path);
      mret (schema_enum values)
  | type_array =>
      refuse_if (bool_decide (field "items" record = None))
        (failure invalid_contribution (member_path path "items") "missing field");;
      b ← lift (bounds (boundedInteger 0 maximumSchemaArrayItems) record path
                  "minItems" "maxItems");
      items ← nested (field "items" record) (member_path path "items");
      mret (schema_array items b.1 b.2)
  | type_object =>
      let propertiesPath := member_path path "properties" in
      properties ← lift (object (field "properties" record) propertiesPath invalid_contribution);
      names ← lift (property_names properties propertiesPath);
      schemas ← traverse (property nested properties propertiesPath) names;
      required ← lift (required_names record names path);
      mret (schema_object schemas required)
  end.

(** The node budget is the state; [levels] is what is left of the depth. *)
Fixpoint dataSchema (levels : nat) (value : option cjson) (path : string)
    : action error Z PackDataSchema :=
  record ← lift (object value path invalid_contribution);
  modify Z.succ;;
  nodes ← get;
  refuse_if (maximumSchemaNodes <? nodes)%Z
    (failure invalid_contribution path "schema may hold at most 256 nodes");;
  match levels with
  | 0 => mthrow (failure invalid_contribution path "schema may nest at most 4 levels")
  | S deeper =>
      t ← lift (type_of record path);
      lift (only_keys record (schemaMembers t) path invalid_contribution unknown_schema_field);;
      schema_of_type (dataSchema deeper) t record path
  end.

(** [contractSchema]: a fresh node budget. *)
Definition contractSchema (value : option cjson) (path : string) : outcome PackDataSchema :=
  fst (dataSchema maximumSchemaDepth value path 0%Z).

(** ** The schema as JSON *)

Definition text_array (l : list string) : cjson := CArr (CStr <$> l).

(** The members of an object are in ascending order. *)
Fixpoint schema_json (s : PackDataSchema) : cjson :=
  CObj (present
    match s with
    | schema_string low high =>
        [("maxLength", CNum <$> high); ("minLength", CNum <$> low); ("type", Some (CStr "string"))]
    | schema_number integer low high =>
        [("maximum", CNum <$> high); ("minimum", CNum <$> low);
         ("type", Some (CStr (if integer then "integer" else "number")))]
    | schema_boolean => [("type", Some (CStr "boolean"))]
    | schema_enum values =>
        [("type", Some (CStr "enum")); ("values", Some (text_array values))]
    | schema_array items low high =>
        [("items", Some (schema_json items)); ("maxItems", CNum <$> high);
         ("minItems", CNum <$> low); ("type", Some (CStr "array"))]
    | schema_object properties required =>
        [("properties", Some (CObj (map (λ p, (p.1, schema_json p.2)) properties)));
         ("required", text_array <$> required); ("type", Some (CStr "object"))]
    end).

End PackSchema.
