(* ===== verification/PackManifest.v ===== *)
(** Domain Pack manifests: the contributions of each kind, the references that
    are settled once every section has been read, and the whole manifest.
    Models the second part of [packages/domain-pack-contracts/src/manifest.ts],
    to [validateDomainPackManifest]. *)
From S2P Require Import Prelude Errors Json ActionModel PolicyModel Text Members PackSchema.
Import Canonical Policy Text Members PackSchema.

Module PackManifest.

Inductive ContributionKind :=
| roles | taskTypes | workflows | agents | artifactTypes | evidenceTypes | policies | knowledge
| capabilities | prompts | validators.

#[global] Instance ContributionKind_eq_dec : EqDecision ContributionKind.
Proof. solve_decision. Defined.

Definition kind_name (k : ContributionKind) : string :=
  match k with
  | roles => "roles" | taskTypes => "taskTypes" | workflows => "workflows" | agents => "agents"
  | artifactTypes => "artifactTypes" | evidenceTypes => "evidenceTypes" | policies => "policies"
  | knowledge => "knowledge" | capabilities => "capabilities" | prompts => "prompts"
  | validators => "validators"
  end.

Definition contributionKinds : list ContributionKind :=
  [roles; taskTypes; workflows; agents; artifactTypes; evidenceTypes; policies; knowledge;
   capabilities; prompts; validators].

(** * References into a pack *)

Record QualifiedContributionRef := { ref_pack : string; ref_kind : ContributionKind; ref_id : string }.

Definition parseQualifiedContributionRef (value : option cjson) : outcome QualifiedContributionRef :=
  record ← object value "reference" "invalid_identity";
  keys record ["pack"; "kind"; "id"] "reference" "invalid_identity";;
  match (match field "kind" record with
         | Some (CStr k) => List.find (λ candidate, bool_decide (kind_name candidate = k)) contributionKinds
         | _ => None
         end) with
  | None => Throw (failure "invalid_identity" "reference.kind" "unknown contribution kind")
  | Some kind =>
      pack ← parseDomainPackId (field "pack" record);
      id ← parseContributionLocalId (field "id" record);
      Ok {| ref_pack := pack; ref_kind := kind; ref_id := id |}
  end.

(** * Data *)

Record CoreContractCompatibility := { minInclusive : number; maxExclusive : number }.

Record DomainPackDependency := {
  dep_id : string;
  dep_version : string;
  dep_manifestDigest : string
}.

Record Contribution := {
  co_id : string;
  co_title : option string;
  co_description : option string
}.

Record RoleContribution := {
  ro_common : Contribution;
  ro_capabilities : option (list string);
  ro_responsibilities : option (list string)
}.

Record PromptContribution := { pm_common : Contribution; pm_text : option string }.

Record AgentContribution := {
  ag_common : Contribution;
  ag_role : option string;
  ag_prompts : option (list string);
  ag_knowledge : option (list string);
  ag_capabilities : option (list string)
}.

Record CapabilityOperation := { op_operation : string; op_mode : OperationMode }.
Inductive CapabilityRequirement := required_capability | optional_capability.

(** Operations are present exactly when the requirement is. *)
Record CapabilityContribution := {
  ca_common : Contribution;
  ca_contract : option (list CapabilityOperation * CapabilityRequirement)
}.

Record WorkflowStage := {
  st_id : string;
  st_role : string;
  st_title : option string;
  st_objective : option string;
  st_checks : option (list string)
}.

Record WorkflowContribution := {
  wf_common : Contribution;
  wf_taskType : string;
  wf_additionalTaskTypes : option (list string);
  wf_stages : list WorkflowStage
}.

Record PolicyStageClause := {
  cl_stage : string;
  cl_requiresApproval : bool;
  cl_requiresIndependentApproval : bool;
  cl_requiresDifferentAgentFrom : option (list string);
  cl_operations : option (list string)
}.

(** The clauses of a policy that targets a workflow. *)
Record TypedPolicy := {
  tp_workflow : string;
  tp_enforced : bool;
  tp_stages : option (list PolicyStageClause)
}.

Record PolicyContribution := { po_common : Contribution; po_typed : option TypedPolicy }.

Record KnowledgeSchemaField := { kf_field : string; kf_description : string }.

Record KnowledgeRetrievalGuidance := {
  kr_maxResults : option number;
  kr_hint : option string;
  kr_categories : option (list string)
}.

Record KnowledgeContribution := {
  kn_common : Contribution;
  kn_category : option string;
  kn_schema : option (list KnowledgeSchemaField);
  kn_seeds : option (list string);
  kn_retrieval : option KnowledgeRetrievalGuidance
}.

Record ArtifactTypeContribution := {
  ar_common : Contribution;
  ar_mediaTypes : option (list string);
  ar_maximumBytes : option number;
  ar_contentSchema : option PackDataSchema
}.

Record EvidenceTypeContribution := {
  ev_common : Contribution;
  ev_subject : option string;
  ev_payloadSchema : option PackDataSchema
}.

Inductive input_kind := input_artifact | input_evidence.

#[global] Instance input_kind_eq_dec : EqDecision input_kind.
Proof. solve_decision. Defined.

Record ValidatorInputReference := { in_kind : input_kind; in_id : string }.

(** The members a validator with an adapter has, all of them. *)
Record TypedValidator := {
  tv_adapter_id : string;
  tv_adapter_version : string;
  tv_accepts : list ValidatorInputReference;
  tv_inputSchema : PackDataSchema;
  tv_produces : string;
  tv_outputSchema : PackDataSchema;
  tv_timeoutMs : number;
  tv_maxInputBytes : number;
  tv_maxOutputBytes : number
}.

Record ValidatorContribution := { va_common : Contribution; va_typed : option TypedValidator }.

Record DomainPackContributions := {
  c_roles : list RoleContribution;
  c_taskTypes : list Contribution;
  c_workflows : list WorkflowContribution;
  c_agents : list AgentContribution;
  c_artifactTypes : list ArtifactTypeContribution;
  c_evidenceTypes : list EvidenceTypeContribution;
  c_policies : list PolicyContribution;
  c_knowledge : list KnowledgeContribution;
  c_capabilities : list CapabilityContribution;
  c_prompts : list PromptContribution;
  c_validators : list ValidatorContribution
}.

Record DomainPackManifest := {
  m_id : string;
  m_version : string;
  m_manifestDigest : string;
  m_coreContract : CoreContractCompatibility;
  m_name : string;
  m_description : string;
  m_dependencies : list DomainPackDependency;
  m_contributions : DomainPackContributions
}.

(** * Core contract *)

Definition parseCoreContractCompatibility (value : option cjson)
    : outcome CoreContractCompatibility :=
  record ← object value "coreContract" "malformed_input";
  keys record ["minInclusive"; "maxExclusive"] "coreContract" "malformed_input";;
  match field "minInclusive" record, field "maxExclusive" record with
  | Some (CNum low), Some (CNum high) =>
      throw_if (negb (is_safe_integer low) || num_lt low 0 || negb (is_safe_integer high) ||
                negb (number_ltb low high))
        (failure "malformed_input" "coreContract" "expected non-empty integer interval");;
      Ok {| minInclusive := low; maxExclusive := high |}
  | _, _ => Throw (failure "malformed_input" "coreContract" "expected non-empty integer interval")
  end.

Definition core_json (c : CoreContractCompatibility) : cjson :=
  CObj (present [("maxExclusive", Some (CNum (maxExclusive c)));
                 ("minInclusive", Some (CNum (minInclusive c)))]).

Definition checkCoreContract `{ShowNumber} (compatibility : CoreContractCompatibility)
    (version : number) : outcome unit :=
  range ← parseCoreContractCompatibility (Some (core_json compatibility));
  throw_if (negb (is_safe_integer version) || number_ltb version (minInclusive range) ||
            negb (number_ltb version (maxExclusive range)))
    (failure "incompatible_core_contract" "coreContract"
       ("core contract " +:+ show_number version +:+ " is outside the declared interval")).

(** * Lists of references and of text *)

Definition maximumContributionReferences : nat := 1000.
Definition maximumDescriptiveListEntries : nat := 64.

(** A non-empty array of at most [maximum] entries. *)
Definition boundedArray (maximum : nat) (none many : string) (value : option cjson) (path : string)
    : outcome (list cjson) :=
  items ← array value path invalid_contribution;
  throw_if (length items =? 0) (failure invalid_contribution path none);;
  throw_if (maximum <? length items) (failure invalid_contribution path many);;
  Ok items.

Definition at_least_one (noun : string) : string :=
  "expected at least one " +:+ noun +:+ "; omit the field instead".

Definition at_most (maximum : nat) (nouns : string) : string :=
  "expected at most " +:+ show_Z (Z.of_nat maximum) +:+ " " +:+ nouns.

Definition referenceList (noun : string) (value : option cjson) (path : string)
    : outcome (list string) :=
  items ← boundedArray maximumContributionReferences (at_least_one noun)
            (at_most maximumContributionReferences (noun +:+ " references")) value path;
  parsed ← map_entries local_id path 0 items;
  throw_if (has_duplicates parsed)
    (failure invalid_contribution path ("duplicate " +:+ noun +:+ " reference"));;
  Ok parsed.

Definition contribution_text (value : option cjson) (path : string) : outcome string :=
  text value path invalid_contribution.

Definition nonEmptyString (value : option cjson) (path : string) : outcome string :=
  s ← contribution_text value path;
  throw_if (String.length s =? 0) (failure invalid_contribution path "expected non-empty string");;
  Ok s.

Definition descriptiveList (value : option cjson) (path : string) : outcome (list string) :=
  items ← boundedArray maximumDescriptiveListEntries (at_least_one "entry")
            (at_most maximumDescriptiveListEntries "entries") value path;
  map_entries nonEmptyString path 0 items.

(** * Policies *)

Definition maximumPolicyStageOperations : nat := 64.
Definition maximumPolicyOperationLength : nat := 128.

Definition policyOperations (value : option cjson) (path : string) : outcome (list string) :=
  items ← boundedArray maximumPolicyStageOperations (at_least_one "operation")
            (at_most maximumPolicyStageOperations "operations") value path;
  parsed ← map_entries (matching
      (λ s, (String.length s <=? maximumPolicyOperationLength) && is_policy_operation s)
      invalid_contribution "expected operation name") path 0 items;
  throw_if (has_duplicates parsed) (failure invalid_contribution path "duplicate operation");;
  Ok parsed.

Definition is_true (value : option cjson) : bool :=
  match value with Some (CBool true) => true | _ => false end.

(** Neither absent nor [true]. *)
Definition bad_flag (record : record) (flag : string) : bool :=
  match field flag record with None => false | v => negb (is_true v) end.

(** One entry of [stages]; [seen] are the stages of the entries before. *)
Definition stage_clause (seen : list string) (value : option cjson) (path : string)
    : outcome PolicyStageClause :=
  item ← object value path invalid_contribution;
  only_keys item ["stage"; "requiresApproval"; "requiresIndependentApproval";
                  "requiresDifferentAgentFrom"; "operations"] path invalid_contribution
    (λ _, "unknown field");;
  stage ← local_id (field "stage" item) (member_path path "stage");
  throw_if (includes stage seen)
    (failure invalid_contribution (member_path path "stage") "duplicate stage entry");;
  throw_if (bad_flag item "requiresApproval")
    (failure invalid_contribution (member_path path "requiresApproval")
       "expected true; omit the field instead");;
  throw_if (bad_flag item "requiresIndependentApproval")
    (failure invalid_contribution (member_path path "requiresIndependentApproval")
       "expected true; omit the field instead");;
  let approval := is_true (field "requiresApproval" item) in
  let independent := is_true (field "requiresIndependentApproval" item) in
  throw_if (independent && negb approval)
    (failure invalid_contribution (member_path path "requiresIndependentApproval")
       "independent approval requires requiresApproval");;
  different ← optional (referenceList "stage") item path "requiresDifferentAgentFrom";
  operations ← optional policyOperations item path "operations";
  throw_if (negb approval && negb independent && bool_decide (different = None) &&
            bool_decide (operations = None))
    (failure invalid_contribution path "stage entry has no clause");;
  Ok {| cl_stage := stage; cl_requiresApproval := approval;
        cl_requiresIndependentApproval := independent;
        cl_requiresDifferentAgentFrom := different; cl_operations := operations |}.

Fixpoint stage_clauses (seen : list string) (path : string) (index : nat) (l : list cjson)
    : outcome (list PolicyStageClause) :=
  match l with
  | [] => Ok []
  | entry :: rest =>
      clause ← stage_clause seen (Some entry) (element_path path index);
      clauses ← stage_clauses (cl_stage clause :: seen) path (S index) rest;
      Ok (clause :: clauses)
  end.

Definition policy_stages (value : option cjson) (path : string) : outcome (list PolicyStageClause) :=
  items ← array value path invalid_contribution;
  throw_if (length items =? 0)
    (failure invalid_contribution path "expected at least one stage entry; omit the field instead");;
  stage_clauses [] path 0 items.

Definition policyContribution (record : record) (path : string) : outcome (option TypedPolicy) :=
  match field "workflow" record with
  | None =>
      throw_if (negb (bool_decide (field "enforcement" record = None)) ||
                negb (bool_decide (field "stages" record = None)))
        (failure invalid_contribution (member_path path "workflow")
           "policy clauses need a target workflow");;
      Ok None
  | value =>
      workflow ← local_id value (member_path path "workflow");
      throw_if (match field "enforcement" record with
                | None => false
                | Some (CStr s) => negb (bool_decide (s = "enforced"))
                | Some _ => true
                end)
        (failure invalid_contribution (member_path path "enforcement")
           ("expected " +:+ quote "enforced" +:+ "; omit the field for guidance"));;
      throw_if (bool_decide (field "enforcement" record = None) &&
                bool_decide (field "stages" record = None))
        (failure invalid_contribution path "typed policy declares neither enforcement nor stages");;
      stages ← optional policy_stages record path "stages";
      Ok (Some {| tp_workflow := workflow;
                  tp_enforced := negb (bool_decide (field "enforcement" record = None));
                  tp_stages := stages |})
  end.

(** * Knowledge *)

Definition maximumKnowledgeSchemaFields : nat := maximumDescriptiveListEntries.
Definition maximumKnowledgeSeeds : nat := 64.
Definition maximumKnowledgeTextLength : nat := 512.
Definition maximumKnowledgeRetrievalCategories : nat := 64.
Definition maximumKnowledgeRetrievalResults : Z := 5.

Definition boundedKnowledgeText (value : option cjson) (path : string) : outcome string :=
  s ← nonEmptyString value path;
  throw_if (maximumKnowledgeTextLength <? String.length s)
    (failure invalid_contribution path "expected at most 512 characters");;
  Ok s.

Definition schema_field (value : option cjson) (path : string) : outcome KnowledgeSchemaField :=
  item ← object value path invalid_contribution;
  keys item ["field"; "description"] path invalid_contribution;;
  name ← local_id (field "field" item) (member_path path "field");
  description ← boundedKnowledgeText (field "description" item) (member_path path "description");
  Ok {| kf_field := name; kf_description := description |}.

Definition compare_fields (a b : KnowledgeSchemaField) : Z := compare_text (kf_field a) (kf_field b).

Definition knowledgeSchema (value : option cjson) (path : string)
    : outcome (list KnowledgeSchemaField) :=
  items ← boundedArray maximumKnowledgeSchemaFields (at_least_one "field")
            (at_most maximumKnowledgeSchemaFields "field entries") value path;
  fields ← map_entries schema_field path 0 items;
  throw_if (has_duplicates (kf_field <$> fields)) (failure invalid_contribution path "duplicate field");;
  Ok (sort_by compare_fields fields).

Definition knowledgeSeeds (value : option cjson) (path : string) : outcome (list string) :=
  items ← boundedArray maximumKnowledgeSeeds (at_least_one "seed")
            (at_most maximumKnowledgeSeeds "seed entries") value path;
  seeds ← map_entries boundedKnowledgeText path 0 items;
  throw_if (has_duplicates seeds) (failure invalid_contribution path "duplicate seed");;
  Ok (sort_by compare_text seeds).

Definition retrieval_results (value : option cjson) (path : string) : outcome number :=
  match value with
  | Some (CNum n) =>
      if is_integer n && negb (num_lt n 1) && negb (num_gt n maximumKnowledgeRetrievalResults)
      then Ok n else Throw (failure invalid_contribution path "expected an integer from 1 to 5")
  | _ => Throw (failure invalid_contribution path "expected an integer from 1 to 5")
  end.

Definition retrieval_categories (value : option cjson) (path : string) : outcome (list string) :=
  items ← boundedArray maximumKnowledgeRetrievalCategories (at_least_one "category")
            (at_most maximumKnowledgeRetrievalCategories "category entries") value path;
  parsed ← map_entries local_id path 0 items;
  throw_if (has_duplicates parsed) (failure invalid_contribution path "duplicate category");;
  Ok (sort_by compare_text parsed).

Definition knowledgeRetrieval (value : option cjson) (path : string)
    : outcome KnowledgeRetrievalGuidance :=
  item ← object value path invalid_contribution;
  only_keys item ["maxResults"; "hint"; "categories"] path invalid_contribution
    (λ _, "unknown field");;
  throw_if (length item =? 0)
    (failure invalid_contribution path "expected at least one member; omit the field instead");;
  maxResults ← optional retrieval_results item path "maxResults";
  categories ← optional retrieval_categories item path "categories";
  hint ← optional boundedKnowledgeText item path "hint";
  Ok {| kr_maxResults := maxResults; kr_hint := hint; kr_categories := categories |}.

(** * Capabilities *)

Definition maximumCapabilityOperations : nat := 100.
Definition maximumOperationNameLength : nat := 128.

Definition capability_operation (value : option cjson) (path : string) : outcome CapabilityOperation :=
  item ← object value path invalid_contribution;
  keys item ["operation"; "mode"] path invalid_contribution;;
  operation ← matching
    (λ s, (String.length s <=? maximumOperationNameLength) && is_operation_name s)
    invalid_contribution "expected operation name <connector>.<name>"
    (field "operation" item) (member_path path "operation");
  match field "mode" item with
  | Some (CStr "read") => Ok {| op_operation := operation; op_mode := op_read |}
  | Some (CStr "mutation") => Ok {| op_operation := operation; op_mode := op_mutation |}
  | _ => Throw (failure invalid_contribution (member_path path "mode") "expected read or mutation")
  end.

Definition compare_operations (a b : CapabilityOperation) : Z :=
  compare_text (op_operation a) (op_operation b).

(** [capabilityRequirements.find(…)], on a member that is present. *)
Definition capability_requirement (value : option cjson) (path : string)
    : outcome CapabilityRequirement :=
  match value with
  | Some (CStr "required") => Ok required_capability
  | Some (CStr "optional") => Ok optional_capability
  | _ => Throw (failure invalid_contribution path "expected required or optional")
  end.

Definition capability_operations (value : option cjson) (path : string)
    : outcome (list CapabilityOperation) :=
  items ← boundedArray maximumCapabilityOperations (at_least_one "operation")
            (at_most maximumCapabilityOperations "operations") value path;
  operations ← map_entries capability_operation path 0 items;
  throw_if (has_duplicates (op_operation <$> operations))
    (failure invalid_contribution path "duplicate operation");;
  Ok (sort_by compare_operations operations).

(** The operations, which a requirement needs. *)
Definition declared_operations (record : record) (path : string)
    : outcome (option (list CapabilityOperation)) :=
  match field "operations" record with
  | None =>
      throw_if (negb (bool_decide (field "requirement" record = None)))
        (failure invalid_contribution (member_path path "requirement")
           "requirement needs operations");;
      Ok None
  | value =>
      l ← capability_operations value (member_path path "operations");
      Ok (Some l)
  end.

Definition capabilityContract (record : record) (path : string)
    : outcome (option (list CapabilityOperation * CapabilityRequirement)) :=
  requirement ← optional capability_requirement record path "requirement";
  operations ← declared_operations record path;
  Ok (match operations with
      | None => None
      | Some l => Some (l, default required_capability requirement)
      end).

(** * Artifact and evidence types, validators *)

Definition maximumArtifactMediaTypes : nat := 16.
Definition maximumMediaTypeLength : nat := 127.
Definition maximumArtifactTypeBytes : Z := 67108864.

Definition media_types (value : option cjson) (path : string) : outcome (list string) :=
  items ← array value path invalid_contribution;
  throw_if ((length items =? 0) || (maximumArtifactMediaTypes <? length items))
    (failure invalid_contribution path "expected 1 to 16 media types; omit the field for none");;
  parsed ← map_entries (matching
      (λ s, (String.length s <=? maximumMediaTypeLength) && is_media_type s)
      invalid_contribution "expected lower-case type/subtype media type") path 0 items;
  sortedUnique parsed path.

Definition maximumValidatorTimeoutMs : Z := 60000.
Definition maximumValidatorInputBytes : Z := 16777216.
Definition maximumValidatorOutputBytes : Z := 16777216.
Definition maximumValidatorAccepts : nat := 64.
Definition maximumValidatorAdapterIdLength : nat := 128.

Definition executableValidatorKeys : list string := ["command"; "entry"; "module"; "url"; "script"].

Definition validatorTypedMembers : list string :=
  ["accepts"; "inputSchema"; "produces"; "outputSchema"; "failurePolicy"; "timeoutMs";
   "maxInputBytes"; "maxOutputBytes"].

Definition unknown_adapter_field (key : string) : string :=
  if includes key executableValidatorKeys then "unknown field; an adapter is named, never executed"
  else "unknown field".

Definition validator_adapter (value : option cjson) (path : string) : outcome (string * string) :=
  adapter ← object value path invalid_contribution;
  only_keys adapter ["id"; "version"] path invalid_contribution unknown_adapter_field;;
  id ← matching (λ s, (String.length s <=? maximumValidatorAdapterIdLength) && is_adapter_id s)
    invalid_contribution "expected lower-case adapter name of segments joined by . _ or -"
    (field "id" adapter) (member_path path "id");
  version ← matching is_version invalid_contribution "expected exact MAJOR.MINOR.PATCH"
    (field "version" adapter) (member_path path "version");
  Ok (id, version).

Definition input_kind_name (k : input_kind) : string :=
  match k with input_artifact => "artifactTypes" | input_evidence => "evidenceTypes" end.

Definition validator_input (value : option cjson) (path : string) : outcome ValidatorInputReference :=
  item ← object value path invalid_contribution;
  keys item ["kind"; "id"] path invalid_contribution;;
  kind ← match field "kind" item with
         | Some (CStr "artifactTypes") => Ok input_artifact
         | Some (CStr "evidenceTypes") => Ok input_evidence
         | _ => Throw (failure invalid_contribution (member_path path "kind")
                         "expected artifactTypes or evidenceTypes")
         end;
  id ← local_id (field "id" item) (member_path path "id");
  Ok {| in_kind := kind; in_id := id |}.

(** [`${kind}\u0000${id}`] *)
Definition input_key (r : ValidatorInputReference) : string :=
  input_kind_name (in_kind r) +:+ String (Ascii.ascii_of_nat 0) (in_id r).

Definition validator_accepts (value : option cjson) (path : string)
    : outcome (list ValidatorInputReference) :=
  items ← array value path invalid_contribution;
  throw_if ((length items =? 0) || (maximumValidatorAccepts <? length items))
    (failure invalid_contribution path "expected 1 to 64 references");;
  accepts ← map_entries validator_input path 0 items;
  throw_if (has_duplicates (input_key <$> accepts))
    (failure invalid_contribution path "duplicate reference");;
  Ok accepts.

Definition validatorContract (record : record) (path : string) : outcome (option TypedValidator) :=
  match field "adapter" record with
  | None =>
      match List.find (λ key, negb (bool_decide (field key record = None))) validatorTypedMembers with
      | Some key => Throw (failure invalid_contribution (member_path path key)
                             "needs an adapter reference")
      | None => Ok None
      end
  | value =>
      has_keys record validatorTypedMembers path invalid_contribution;;
      adapter ← validator_adapter value (member_path path "adapter");
      accepts ← validator_accepts (field "accepts" record) (member_path path "accepts");
      throw_if (match field "failurePolicy" record with
                | Some (CStr s) => negb (bool_decide (s = "fail_closed"))
                | _ => true
                end)
        (failure invalid_contribution (member_path path "failurePolicy")
           ("expected " +:+ quote "fail_closed"));;
      inputSchema ← contractSchema (field "inputSchema" record) (member_path path "inputSchema");
      produces ← local_id (field "produces" record) (member_path path "produces");
      outputSchema ← contractSchema (field "outputSchema" record) (member_path path "outputSchema");
      timeoutMs ← boundedInteger 1 maximumValidatorTimeoutMs (field "timeoutMs" record)
                    (member_path path "timeoutMs");
      maxInputBytes ← boundedInteger 1 maximumValidatorInputBytes (field "maxInputBytes" record)
                        (member_path path "maxInputBytes");
      maxOutputBytes ← boundedInteger 1 maximumValidatorOutputBytes (field "maxOutputBytes" record)
                         (member_path path "maxOutputBytes");
      Ok (Some {| tv_adapter_id := adapter.1; tv_adapter_version := adapter.2;
                  tv_accepts := accepts; tv_inputSchema := inputSchema; tv_produces := produces;
                  tv_outputSchema := outputSchema; tv_timeoutMs := timeoutMs;
                  tv_maxInputBytes := maxInputBytes; tv_maxOutputBytes := maxOutputBytes |})
  end.

(** * Contributions *)

Definition allowed_fields (kind : ContributionKind) : list string :=
  ["id"; "title"; "description"] ++
  match kind with
  | workflows => ["taskType"; "additionalTaskTypes"; "stages"]
  | roles => ["capabilities"; "responsibilities"]
  | agents => ["role"; "prompts"; "knowledge"; "capabilities"]
  | prompts => ["text"]
  | policies => ["workflow"; "enforcement"; "stages"]
  | knowledge => ["category"; "schema"; "seeds"; "retrieval"]
  | capabilities => ["operations"; "requirement"]
  | artifactTypes => ["mediaTypes"; "maximumBytes"; "contentSchema"]
  | evidenceTypes => ["subject"; "payloadSchema"]
  | validators => "adapter" :: validatorTypedMembers
  | taskTypes => []
  end.

Definition unknown_field (kind : ContributionKind) (key : string) : string :=
  if bool_decide (kind = validators) && includes key executableValidatorKeys
  then "unknown field; a validator is referenced, never executed" else "unknown field".

(** What [contribution] does before it looks at its kind. *)
Definition contribution_common (kind : ContributionKind) (value : option cjson) (path : string)
    : outcome (record * Contribution) :=
  record ← object value path invalid_contribution;
  only_keys record (allowed_fields kind) path invalid_contribution (unknown_field kind);;
  id ← local_id (field "id" record) (member_path path "id");
  title ← optional contribution_text record path "title";
  description ← optional contribution_text record path "description";
  Ok (record, {| co_id := id; co_title := title; co_description := description |}).

Definition role_contribution (value : option cjson) (path : string) : outcome RoleContribution :=
  c ← contribution_common roles value path;
  caps ← optional (referenceList "capability") c.1 path "capabilities";
  duties ← optional descriptiveList c.1 path "responsibilities";
  Ok {| ro_common := c.2; ro_capabilities := caps; ro_responsibilities := duties |}.

Definition prompt_contribution (value : option cjson) (path : string) : outcome PromptContribution :=
  c ← contribution_common prompts value path;
  body ← optional nonEmptyString c.1 path "text";
  Ok {| pm_common := c.2; pm_text := body |}.

Definition agent_contribution (value : option cjson) (path : string) : outcome AgentContribution :=
  c ← contribution_common agents value path;
  role ← optional local_id c.1 path "role";
  texts ← optional (referenceList "prompt") c.1 path "prompts";
  known ← optional (referenceList "knowledge") c.1 path "knowledge";
  caps ← optional (referenceList "capability") c.1 path "capabilities";
  Ok {| ag_common := c.2; ag_role := role; ag_prompts := texts; ag_knowledge := known;
        ag_capabilities := caps |}.

Definition policy_contribution (value : option cjson) (path : string) : outcome PolicyContribution :=
  c ← contribution_common policies value path;
  typed ← policyContribution c.1 path;
  Ok {| po_common := c.2; po_typed := typed |}.

(** [knowledgeGuidance], after the common members. *)
Definition knowledge_contribution (value : option cjson) (path : string)
    : outcome KnowledgeContribution :=
  c ← contribution_common knowledge value path;
  category ← optional local_id c.1 path "category";
  schema ← optional knowledgeSchema c.1 path "schema";
  seeds ← optional knowledgeSeeds c.1 path "seeds";
  retrieval ← optional knowledgeRetrieval c.1 path "retrieval";
  Ok {| kn_common := c.2; kn_category := category; kn_schema := schema; kn_seeds := seeds;
        kn_retrieval := retrieval |}.

Definition capability_contribution (value : option cjson) (path : string)
    : outcome CapabilityContribution :=
  c ← contribution_common capabilities value path;
  contract ← capabilityContract c.1 path;
  Ok {| ca_common := c.2; ca_contract := contract |}.

(** [artifactTypeContract], after the common members. *)
Definition artifact_contribution (value : option cjson) (path : string)
    : outcome ArtifactTypeContribution :=
  c ← contribution_common artifactTypes value path;
  media ← optional media_types c.1 path "mediaTypes";
  bytes ← optional (boundedInteger 1 maximumArtifactTypeBytes) c.1 path "maximumBytes";
  schema ← optional contractSchema c.1 path "contentSchema";
  Ok {| ar_common := c.2; ar_mediaTypes := media; ar_maximumBytes := bytes;
        ar_contentSchema := schema |}.

Definition evidence_contribution (value : option cjson) (path : string)
    : outcome EvidenceTypeContribution :=
  c ← contribution_common evidenceTypes value path;
  subject ← optional local_id c.1 path "subject";
  schema ← optional contractSchema c.1 path "payloadSchema";
  Ok {| ev_common := c.2; ev_subject := subject; ev_payloadSchema := schema |}.

Definition validator_contribution (value : option cjson) (path : string)
    : outcome ValidatorContribution :=
  c ← contribution_common validators value path;
  typed ← validatorContract c.1 path;
  Ok {| va_common := c.2; va_typed := typed |}.

Definition task_type_contribution (value : option cjson) (path : string) : outcome Contribution :=
  c ← contribution_common taskTypes value path;
  Ok c.2.

Definition workflow_stage (value : option cjson) (path : string) : outcome WorkflowStage :=
  stage ← object value path invalid_contribution;
  only_keys stage ["id"; "role"; "title"; "objective"; "checks"] path invalid_contribution
    (λ _, "unknown field");;
  has_keys stage ["id"; "role"] path invalid_contribution;;
  id ← local_id (field "id" stage) (member_path path "id");
  role ← local_id (field "role" stage) (member_path path "role");
  title ← optional contribution_text stage path "title";
  objective ← optional contribution_text stage path "objective";
  checks ← optional descriptiveList stage path "checks";
  Ok {| st_id := id; st_role := role; st_title := title; st_objective := objective;
        st_checks := checks |}.

Definition workflow_contribution (value : option cjson) (path : string)
    : outcome WorkflowContribution :=
  c ← contribution_common workflows value path;
  items ← array (field "stages" c.1) (member_path path "stages") invalid_contribution;
  stages ← map_entries workflow_stage (member_path path "stages") 0 items;
  throw_if (has_duplicates (st_id <$> stages))
    (failure invalid_contribution (member_path path "stages") "duplicate stage ID");;
  taskType ← local_id (field "taskType" c.1) (member_path path "taskType");
  additional ← optional (referenceList "task type") c.1 path "additionalTaskTypes";
  Ok {| wf_common := c.2; wf_taskType := taskType; wf_additionalTaskTypes := additional;
        wf_stages := stages |}.

(** * Dependencies *)

Definition parsed_dependency (record : record) : outcome DomainPackDependency :=
  id ← parseDomainPackId (field "id" record);
  version ← parseDomainPackVersion (field "version" record);
  manifestDigest ← parseManifestDigest (field "manifestDigest" record);
  Ok {| dep_id := id; dep_version := version; dep_manifestDigest := manifestDigest |}.

Definition dependency (value : option cjson) (path : string) : outcome DomainPackDependency :=
  record ← object value path "invalid_dependency";
  keys record ["id"; "version"; "manifestDigest"] path "invalid_dependency";;
  match parsed_dependency record with
  | Ok d => Ok d
  | Throw (DomainPackManifestError code path' message) =>
      Throw (failure "invalid_dependency" path
        (error_message (DomainPackManifestError code path' message)))
  | Throw e => Throw e
  end.

Definition dependencies (value : option cjson) : outcome (list DomainPackDependency) :=
  items ← array value "dependencies" "invalid_dependency";
  parsed ← map_entries dependency "dependencies" 0 items;
  throw_if (has_duplicates (dep_id <$> parsed))
    (failure "invalid_dependency" "dependencies" "duplicate dependency ID");;
  Ok parsed.

(** * References *)

(** [items.map((item, index) => f(item, `${path}[${index}]`))], on parsed items *)
Fixpoint settle {A} (f : A → string → outcome A) (path : string) (index : nat) (l : list A)
    : outcome (list A) :=
  match l with
  | [] => Ok []
  | a :: rest =>
      a' ← f a (element_path path index);
      l' ← settle f path (S index) rest;
      Ok (a' :: l')
  end.

(** A loop over references that refuses one for the reason [refused] gives. *)
Fixpoint check_references (refused : string → option string) (path : string) (index : nat)
    (l : list string) : outcome unit :=
  match l with
  | [] => Ok tt
  | reference :: rest =>
      match refused reference with
      | Some message => Throw (failure invalid_contribution (element_path path index) message)
      | None => check_references refused path (S index) rest
      end
  end.

(** Not among the [known] identifiers. *)
Definition undeclared (known : list string) (message reference : string) : option string :=
  if includes reference known then None else Some message.

Definition not_declared (noun : string) : string := noun +:+ " is not declared by this manifest".

(** The set of a list: one order. *)
Definition as_set (l : list string) : list string := sort_by compare_text l.

Definition settle_list (refused : string → option string) (path key : string)
    (l : option (list string)) : outcome (option (list string)) :=
  match l with
  | None => Ok None
  | Some references =>
      check_references refused (member_path path key) 0 references;;
      Ok (Some (as_set references))
  end.

Definition settle_role (declared : list string) (role : RoleContribution) (path : string)
    : outcome RoleContribution :=
  caps ← settle_list (undeclared declared (not_declared "capability")) path "capabilities"
           (ro_capabilities role);
  Ok {| ro_common := ro_common role; ro_capabilities := caps;
        ro_responsibilities := ro_responsibilities role |}.

(** Why a capability an agent requests is refused. *)
Definition refused_capability (declared roleSet : list string) (reference : string)
    : option string :=
  if negb (includes reference declared) then Some (not_declared "capability")
  else if negb (includes reference roleSet) then Some "capability is not declared by the agent's role"
  else None.

Definition settle_agent (roleSets : gmap string (list string))
    (prompt_ids knowledge_ids capability_ids : list string) (agent : AgentContribution)
    (path : string) : outcome AgentContribution :=
  let roleSet := match ag_role agent with None => None | Some role => roleSets !! role end in
  throw_if (negb (bool_decide (ag_role agent = None)) && bool_decide (roleSet = None))
    (failure invalid_contribution (member_path path "role") (not_declared "role"));;
  texts ← settle_list (undeclared prompt_ids (not_declared "prompt")) path "prompts"
            (ag_prompts agent);
  known ← settle_list (undeclared knowledge_ids (not_declared "knowledge")) path "knowledge"
            (ag_knowledge agent);
  throw_if (negb (bool_decide (ag_capabilities agent = None)) && bool_decide (roleSet = None))
    (failure invalid_contribution (member_path path "capabilities")
       "requested capabilities need a role");;
  caps ← settle_list (refused_capability capability_ids (default [] roleSet)) path "capabilities"
           (ag_capabilities agent);
  Ok {| ag_common := ag_common agent; ag_role := ag_role agent; ag_prompts := texts;
        ag_knowledge := known; ag_capabilities := caps |}.

Definition refused_route (taskType : string) (declared : list string) (reference : string)
    : option string :=
  if bool_decide (reference = taskType) then Some "the task type is not an additional task type"
  else undeclared declared (not_declared "task type") reference.

Definition settle_workflow (task_ids : list string) (workflow : WorkflowContribution) (path : string)
    : outcome WorkflowContribution :=
  additional ← settle_list (refused_route (wf_taskType workflow) task_ids) path
                 "additionalTaskTypes" (wf_additionalTaskTypes workflow);
  Ok {| wf_common := wf_common workflow; wf_taskType := wf_taskType workflow;
        wf_additionalTaskTypes := additional; wf_stages := wf_stages workflow |}.

(** [order.indexOf(id)] *)
Definition index_of (id : string) (order : list string) : option nat :=
  fst <$> list_find (id =.) order.

(** Why a separation target is refused: it is no stage before [at_]. *)
Definition refused_target (order : list string) (at_ : nat) (reference : string) : option string :=
  match index_of reference order with
  | Some before =>
      if before <? at_ then None
      else Some "separation target is not an earlier stage of the target workflow"
  | None => Some "separation target is not an earlier stage of the target workflow"
  end.

Definition settle_clause (order : list string) (clause : PolicyStageClause) (path : string)
    : outcome PolicyStageClause :=
  match index_of (cl_stage clause) order with
  | None => Throw (failure invalid_contribution (member_path path "stage")
                     "stage is not declared by the target workflow")
  | Some at_ =>
      different ← settle_list (refused_target order at_) path "requiresDifferentAgentFrom"
                    (cl_requiresDifferentAgentFrom clause);
      Ok {| cl_stage := cl_stage clause; cl_requiresApproval := cl_requiresApproval clause;
            cl_requiresIndependentApproval := cl_requiresIndependentApproval clause;
            cl_requiresDifferentAgentFrom := different;
            cl_operations := as_set <$> cl_operations clause |}
  end.

Definition compare_clauses (a b : PolicyStageClause) : Z := compare_text (cl_stage a) (cl_stage b).

Definition settle_clauses (order : list string) (path : string)
    (l : option (list PolicyStageClause)) : outcome (option (list PolicyStageClause)) :=
  match l with
  | None => Ok None
  | Some clauses =>
      settled ← settle (settle_clause order) (member_path path "stages") 0 clauses;
      Ok (Some (sort_by compare_clauses settled))
  end.

(** The typed part of one policy; [governed] are the workflows of those before. *)
Definition settle_policy (workflowStages : gmap string (list string)) (governed : list string)
    (policy : TypedPolicy) (path : string) : outcome TypedPolicy :=
  match workflowStages !! tp_workflow policy with
  | None => Throw (failure invalid_contribution (member_path path "workflow")
                     (not_declared "workflow"))
  | Some order =>
      throw_if (includes (tp_workflow policy) governed)
        (failure invalid_contribution (member_path path "workflow")
           "workflow already has a policy in this manifest");;
      clauses ← settle_clauses order path (tp_stages policy);
      Ok {| tp_workflow := tp_workflow policy; tp_enforced := tp_enforced policy;
            tp_stages := clauses |}
  end.

Fixpoint settle_policies (workflowStages : gmap string (list string)) (governed : list string)
    (path : string) (index : nat) (l : list PolicyContribution)
    : outcome (list PolicyContribution) :=
  match l with
  | [] => Ok []
  | policy :: rest =>
      match po_typed policy with
      | None =>
          l' ← settle_policies workflowStages governed path (S index) rest;
          Ok (policy :: l')
      | Some typed =>
          typed' ← settle_policy workflowStages governed typed (element_path path index);
          l' ← settle_policies workflowStages (tp_workflow typed :: governed) path (S index) rest;
          Ok ({| po_common := po_common policy; po_typed := Some typed' |} :: l')
      end
  end.

Definition settle_evidence (artifact_ids : list string) (entry : EvidenceTypeContribution)
    (path : string) : outcome EvidenceTypeContribution :=
  match ev_subject entry with
  | None => Ok entry
  | Some subject =>
      throw_if (negb (includes subject artifact_ids))
        (failure invalid_contribution (member_path path "subject") (not_declared "artifact type"));;
      Ok entry
  end.

Definition compare_inputs (a b : ValidatorInputReference) : Z :=
  or_else (compare_text (input_kind_name (in_kind a)) (input_kind_name (in_kind b)))
    (compare_text (in_id a) (in_id b)).

(** The loop over [accepts]. *)
Fixpoint check_inputs (artifact_ids evidence_ids : list string) (path : string) (index : nat)
    (l : list ValidatorInputReference) : outcome unit :=
  match l with
  | [] => Ok tt
  | input :: rest =>
      let artifact := bool_decide (in_kind input = input_artifact) in
      throw_if (negb (includes (in_id input) (if artifact then artifact_ids else evidence_ids)))
        (failure invalid_contribution (member_path (element_path path index) "id")
           (not_declared ((if artifact then "artifact" else "evidence") +:+ " type")));;
      check_inputs artifact_ids evidence_ids path (S index) rest
  end.

Definition settle_validator (artifact_ids evidence_ids : list string)
    (entry : ValidatorContribution) (path : string) : outcome ValidatorContribution :=
  match va_typed entry with
  | None => Ok entry
  | Some v =>
      check_inputs artifact_ids evidence_ids (member_path path "accepts") 0 (tv_accepts v);;
      throw_if (negb (includes (tv_produces v) evidence_ids))
        (failure invalid_contribution (member_path path "produces") (not_declared "evidence type"));;
      Ok {| va_common := va_common entry;
            va_typed := Some {| tv_adapter_id := tv_adapter_id v;
                                tv_adapter_version := tv_adapter_version v;
                                tv_accepts := sort_by compare_inputs (tv_accepts v);
                                tv_inputSchema := tv_inputSchema v; tv_produces := tv_produces v;
                                tv_outputSchema := tv_outputSchema v;
                                tv_timeoutMs := tv_timeoutMs v;
                                tv_maxInputBytes := tv_maxInputBytes v;
                                tv_maxOutputBytes := tv_maxOutputBytes v |} |}
  end.

(** * The manifest *)

Definition section_path (kind : ContributionKind) : string := "contributions." +:+ kind_name kind.

Definition section {A} (kind : ContributionKind) (parse : option cjson → string → outcome A)
    (id_of : A → string) (source : record) : outcome (list A) :=
  items ← array (field (kind_name kind) source) (section_path kind) invalid_contribution;
  parsed ← map_entries parse (section_path kind) 0 items;
  throw_if (has_duplicates (id_of <$> parsed))
    (failure invalid_contribution (section_path kind) "duplicate contribution ID");;
  Ok parsed.

Definition role_id (r : RoleContribution) : string := co_id (ro_common r).
Definition workflow_id (w : WorkflowContribution) : string := co_id (wf_common w).
Definition agent_id (a : AgentContribution) : string := co_id (ag_common a).
Definition artifact_id (a : ArtifactTypeContribution) : string := co_id (ar_common a).
Definition evidence_id (e : EvidenceTypeContribution) : string := co_id (ev_common e).
Definition policy_id (p : PolicyContribution) : string := co_id (po_common p).
Definition knowledge_id (k : KnowledgeContribution) : string := co_id (kn_common k).
Definition capability_id (c : CapabilityContribution) : string := co_id (ca_common c).
Definition prompt_id (p : PromptContribution) : string := co_id (pm_common p).
Definition validator_id (v : ValidatorContribution) : string := co_id (va_common v).

(** The loop over [contributionKinds]. *)
Definition read_contributions (source : record) : outcome DomainPackContributions :=
  rs ← section roles role_contribution role_id source;
  ts ← section taskTypes task_type_contribution co_id source;
  ws ← section workflows workflow_contribution workflow_id source;
  ags ← section agents agent_contribution agent_id source;
  ars ← section artifactTypes artifact_contribution artifact_id source;
  evs ← section evidenceTypes evidence_contribution evidence_id source;
  ps ← section policies policy_contribution policy_id source;
  ks ← section knowledge knowledge_contribution knowledge_id source;
  cs ← section capabilities capability_contribution capability_id source;
  prs ← section prompts prompt_contribution prompt_id source;
  vs ← section validators validator_contribution validator_id source;
  Ok {| c_roles := rs; c_taskTypes := ts; c_workflows := ws; c_agents := ags;
        c_artifactTypes := ars; c_evidenceTypes := evs; c_policies := ps; c_knowledge := ks;
        c_capabilities := cs; c_prompts := prs; c_validators := vs |}.

Definition role_sets (l : list RoleContribution) : gmap string (list string) :=
  map_of_pairs ((λ r, (role_id r, default [] (ro_capabilities r))) <$> l).

Definition workflow_stages (l : list WorkflowContribution) : gmap string (list string) :=
  map_of_pairs ((λ w, (workflow_id w, st_id <$> wf_stages w)) <$> l).

(** What [validateDomainPackManifest] does once every section has been read. *)
Definition settle_contributions (c : DomainPackContributions) : outcome DomainPackContributions :=
  rs ← settle (settle_role (capability_id <$> c_capabilities c)) (section_path roles) 0 (c_roles c);
  ags ← settle (settle_agent (role_sets rs) (prompt_id <$> c_prompts c)
                  (knowledge_id <$> c_knowledge c) (capability_id <$> c_capabilities c))
          (section_path agents) 0 (c_agents c);
  ws ← settle (settle_workflow (co_id <$> c_taskTypes c)) (section_path workflows) 0 (c_workflows c);
  ps ← settle_policies (workflow_stages ws) [] (section_path policies) 0 (c_policies c);
  evs ← settle (settle_evidence (artifact_id <$> c_artifactTypes c)) (section_path evidenceTypes) 0
          (c_evidenceTypes c);
  vs ← settle (settle_validator (artifact_id <$> c_artifactTypes c)
                 (evidence_id <$> c_evidenceTypes c)) (section_path validators) 0 (c_validators c);
  Ok {| c_roles := rs; c_taskTypes := c_taskTypes c; c_workflows := ws; c_agents := ags;
        c_artifactTypes := c_artifactTypes c; c_evidenceTypes := evs; c_policies := ps;
        c_knowledge := c_knowledge c; c_capabilities := c_capabilities c;
        c_prompts := c_prompts c; c_validators := vs |}.

Definition manifest_fields : list string :=
  ["schemaVersion"; "id"; "version"; "manifestDigest"; "coreContract"; "metadata"; "dependencies";
   "contributions"].

Definition schema_one (value : option cjson) : bool :=
  match value with
  | None => true
  | Some (CNum n) => bool_decide (n = NInt 1)
  | Some _ => false
  end.

Definition validateDomainPackManifest (value : cjson) : outcome DomainPackManifest :=
  record ← object (Some value) "$" "malformed_input";
  throw_if (negb (schema_one (field "schemaVersion" record)))
    (failure "unsupported_schema" "schemaVersion" "only schema version 1 is supported");;
  keys record manifest_fields "$" "malformed_input";;
  metadata ← object (field "metadata" record) "metadata" "malformed_input";
  keys metadata ["name"; "description"] "metadata" "malformed_input";;
  source ← object (field "contributions" record) "contributions" invalid_contribution;
  keys source (kind_name <$> contributionKinds) "contributions" invalid_contribution;;
  given ← read_contributions source;
  contributions ← settle_contributions given;
  id ← parseDomainPackId (field "id" record);
  version ← parseDomainPackVersion (field "version" record);
  manifestDigest ← parseManifestDigest (field "manifestDigest" record);
  coreContract ← parseCoreContractCompatibility (field "coreContract" record);
  name ← text (field "name" metadata) "metadata.name" "malformed_input";
  description ← text (field "description" metadata) "metadata.description" "malformed_input";
  deps ← dependencies (field "dependencies" record);
  Ok {| m_id := id; m_version := version; m_manifestDigest := manifestDigest;
        m_coreContract := coreContract; m_name := name; m_description := description;
        m_dependencies := deps; m_contributions := contributions |}.

End PackManifest.
