(* ===== verification/PackCanonical.v ===== *)
(** Domain Pack manifests as JSON, their canonical text and their digest.
    Models [jcs.ts] and the last part of
    [packages/domain-pack-contracts/src/manifest.ts].

    A validated manifest is a record of the model; [manifest_json] is the plain
    object it stands for.  The members of an object are in ascending order,
    which is the order the canonical text has them in. *)
From S2P Require Import Prelude Errors Json ActionModel PolicyModel Text Members PackSchema PackManifest.
Import Canonical Policy Text Members PackSchema PackManifest.

Module PackCanonical.

(** * RFC 8785 *)

(** [.map(f)], the entries in turn *)
Fixpoint sequence {A} (l : list (outcome A)) : outcome (list A) :=
  match l with
  | [] => Ok []
  | r :: rest => a ← r; rest' ← sequence rest; Ok (a :: rest')
  end.

Section jcs.
  Context `{ShowNumber}.

(** No text of the model holds a surrogate. *)
Fixpoint canonicalizeJcsJson (value : cjson) : outcome string :=
  match value with
  | CNum n =>
      throw_if (negb (is_finite n)) (TypeError "non-finite JSON number");;
      Ok (stringify (CNum n))
  | CArr items =>
      parts ← sequence (map canonicalizeJcsJson items);
      Ok ("[" +:+ join "," parts +:+ "]")
  | CObj members =>
      parts ← sequence (map (λ m, text ← m.2; Ok (quote m.1 +:+ ":" +:+ text))
                (sort_by compare_key (map (λ m, (m.1, canonicalizeJcsJson m.2)) members)));
      Ok ("{" +:+ join "," parts +:+ "}")
  | _ => Ok (stringify value)
  end.

End jcs.

(** * Manifests as JSON *)

(** The members every contribution has. *)
Definition description_member (c : Contribution) : string * option cjson :=
  ("description", CStr <$> co_description c).
Definition id_member (c : Contribution) : string * option cjson := ("id", Some (CStr (co_id c))).
Definition title_member (c : Contribution) : string * option cjson :=
  ("title", CStr <$> co_title c).

Definition contribution_json (c : Contribution) : cjson :=
  CObj (present [description_member c; id_member c; title_member c]).

Definition role_json (r : RoleContribution) : cjson :=
  let c := ro_common r in
  CObj (present [("capabilities", text_array <$> ro_capabilities r); description_member c;
                 id_member c; ("responsibilities", text_array <$> ro_responsibilities r);
                 title_member c]).

Definition prompt_json (p : PromptContribution) : cjson :=
  let c := pm_common p in
  CObj (present [description_member c; id_member c; ("text", CStr <$> pm_text p); title_member c]).

Definition agent_json (a : AgentContribution) : cjson :=
  let c := ag_common a in
  CObj (present [("capabilities", text_array <$> ag_capabilities a); description_member c;
                 id_member c; ("knowledge", text_array <$> ag_knowledge a);
                 ("prompts", text_array <$> ag_prompts a); ("role", CStr <$> ag_role a);
                 title_member c]).

Definition mode_name (m : OperationMode) : string :=
  match m with op_read => "read" | op_mutation => "mutation" end.

Definition operation_json (o : CapabilityOperation) : cjson :=
  CObj (present [("mode", Some (CStr (mode_name (op_mode o))));
                 ("operation", Some (CStr (op_operation o)))]).

Definition requirement_name (r : CapabilityRequirement) : string :=
  match r with required_capability => "required" | optional_capability => "optional" end.

Definition capability_json (k : CapabilityContribution) : cjson :=
  let c := ca_common k in
  CObj (present [description_member c; id_member c;
                 ("operations", (λ x, CArr (operation_json <$> x.1)) <$> ca_contract k);
                 ("requirement", (λ x, CStr (requirement_name x.2)) <$> ca_contract k);
                 title_member c]).

Definition stage_json (s : WorkflowStage) : cjson :=
  CObj (present [("checks", text_array <$> st_checks s); ("id", Some (CStr (st_id s)));
                 ("objective", CStr <$> st_objective s); ("role", Some (CStr (st_role s)));
                 ("title", CStr <$> st_title s)]).

Definition workflow_json (w : WorkflowContribution) : cjson :=
  let c := wf_common w in
  CObj (present [("additionalTaskTypes", text_array <$> wf_additionalTaskTypes w);
                 description_member c; id_member c;
                 ("stages", Some (CArr (stage_json <$> wf_stages w)));
                 ("taskType", Some (CStr (wf_taskType w))); title_member c]).

(** A flag that is present only when it is [true]. *)
Definition flag (b : bool) : option cjson := if b then Some (CBool true) else None.

Definition clause_json (c : PolicyStageClause) : cjson :=
  CObj (present [("operations", text_array <$> cl_operations c);
                 ("requiresApproval", flag (cl_requiresApproval c));
                 ("requiresDifferentAgentFrom", text_array <$> cl_requiresDifferentAgentFrom c);
                 ("requiresIndependentApproval", flag (cl_requiresIndependentApproval c));
                 ("stage", Some (CStr (cl_stage c)))]).

Definition enforcement_json (t : TypedPolicy) : option cjson :=
  if tp_enforced t then Some (CStr "enforced") else None.

Definition policy_json (p : PolicyContribution) : cjson :=
  let c := po_common p in
  let t := po_typed p in
  CObj (present [description_member c; ("enforcement", t ≫= enforcement_json); id_member c;
                 ("stages", t ≫= (λ t, (λ l, CArr (clause_json <$> l)) <$> tp_stages t));
                 title_member c; ("workflow", (λ t, CStr (tp_workflow t)) <$> t)]).

Definition schema_field_json (f : KnowledgeSchemaField) : cjson :=
  CObj (present [("description", Some (CStr (kf_description f)));
                 ("field", Some (CStr (kf_field f)))]).

Definition retrieval_json (r : KnowledgeRetrievalGuidance) : cjson :=
  CObj (present [("categories", text_array <$> kr_categories r); ("hint", CStr <$> kr_hint r);
                 ("maxResults", CNum <$> kr_maxResults r)]).

Definition knowledge_json (k : KnowledgeContribution) : cjson :=
  let c := kn_common k in
  CObj (present [("category", CStr <$> kn_category k); description_member c; id_member c;
                 ("retrieval", retrieval_json <$> kn_retrieval k);
                 ("schema", (λ l, CArr (schema_field_json <$> l)) <$> kn_schema k);
                 ("seeds", text_array <$> kn_seeds k); title_member c]).

Definition artifact_json (a : ArtifactTypeContribution) : cjson :=
  let c := ar_common a in
  CObj (present [("contentSchema", schema_json <$> ar_contentSchema a); description_member c;
                 id_member c; ("maximumBytes", CNum <$> ar_maximumBytes a);
                 ("mediaTypes", text_array <$> ar_mediaTypes a); title_member c]).

Definition evidence_json (e : EvidenceTypeContribution) : cjson :=
  let c := ev_common e in
  CObj (present [description_member c; id_member c;
                 ("payloadSchema", schema_json <$> ev_payloadSchema e);
                 ("subject", CStr <$> ev_subject e); title_member c]).

Definition input_json (r : ValidatorInputReference) : cjson :=
  CObj (present [("id", Some (CStr (in_id r)));
                 ("kind", Some (CStr (input_kind_name (in_kind r))))]).

Definition adapter_json (v : TypedValidator) : cjson :=
  CObj (present [("id", Some (CStr (tv_adapter_id v)));
                 ("version", Some (CStr (tv_adapter_version v)))]).

Definition validator_json (x : ValidatorContribution) : cjson :=
  let c := va_common x in
  let v := va_typed x in
  CObj (present [("accepts", (λ v, CArr (input_json <$> tv_accepts v)) <$> v);
                 ("adapter", adapter_json <$> v); description_member c;
                 ("failurePolicy", (λ _, CStr "fail_closed") <$> v); id_member c;
                 ("inputSchema", (λ v, schema_json (tv_inputSchema v)) <$> v);
                 ("maxInputBytes", (λ v, CNum (tv_maxInputBytes v)) <$> v);
                 ("maxOutputBytes", (λ v, CNum (tv_maxOutputBytes v)) <$> v);
                 ("outputSchema", (λ v, schema_json (tv_outputSchema v)) <$> v);
                 ("produces", (λ v, CStr (tv_produces v)) <$> v);
                 ("timeoutMs", (λ v, CNum (tv_timeoutMs v)) <$> v); title_member c]).

Definition dependency_json (d : DomainPackDependency) : cjson :=
  CObj (present [("id", Some (CStr (dep_id d)));
                 ("manifestDigest", Some (CStr (dep_manifestDigest d)));
                 ("version", Some (CStr (dep_version d)))]).

(** A list of entries under the name of its section. *)
Definition section_json {A} (kind : ContributionKind) (f : A → cjson) (l : list A)
    : string * option cjson :=
  (kind_name kind, Some (CArr (f <$> l))).

Definition contributions_json (c : DomainPackContributions) : cjson :=
  CObj (present [section_json agents agent_json (c_agents c);
                 section_json artifactTypes artifact_json (c_artifactTypes c);
                 section_json capabilities capability_json (c_capabilities c);
                 section_json evidenceTypes evidence_json (c_evidenceTypes c);
                 section_json knowledge knowledge_json (c_knowledge c);
                 section_json policies policy_json (c_policies c);
                 section_json prompts prompt_json (c_prompts c);
                 section_json roles role_json (c_roles c);
                 section_json taskTypes contribution_json (c_taskTypes c);
                 section_json validators validator_json (c_validators c);
                 section_json workflows workflow_json (c_workflows c)]).

Definition metadata_json (m : DomainPackManifest) : cjson :=
  CObj (present [("description", Some (CStr (m_description m))); ("name", Some (CStr (m_name m)))]).

(** The object, with the digest it declares or without it. *)
Definition object_json (digest : option cjson) (m : DomainPackManifest) : cjson :=
  CObj (present [("contributions", Some (contributions_json (m_contributions m)));
                 ("coreContract", Some (core_json (m_coreContract m)));
                 ("dependencies", Some (CArr (dependency_json <$> m_dependencies m)));
                 ("id", Some (CStr (m_id m))); ("manifestDigest", digest);
                 ("metadata", Some (metadata_json m)); ("schemaVersion", Some (CNum (NInt 1)));
                 ("version", Some (CStr (m_version m)))]).

Definition manifest_json (m : DomainPackManifest) : cjson :=
  object_json (Some (CStr (m_manifestDigest m))) m.

(** * The canonical text *)

(** [[...l].sort((a, b) => a.id < b.id ? -1 : a.id > b.id ? 1 : 0)] *)
Definition by_id {A} (id_of : A → string) (l : list A) : list A :=
  sort_by (λ a b, compare_text (id_of a) (id_of b)) l.

Definition sort_contributions (c : DomainPackContributions) : DomainPackContributions :=
  {| c_roles := by_id role_id (c_roles c); c_taskTypes := by_id co_id (c_taskTypes c);
     c_workflows := by_id workflow_id (c_workflows c); c_agents := by_id agent_id (c_agents c);
     c_artifactTypes := by_id artifact_id (c_artifactTypes c);
     c_evidenceTypes := by_id evidence_id (c_evidenceTypes c);
     c_policies := by_id policy_id (c_policies c); c_knowledge := by_id knowledge_id (c_knowledge c);
     c_capabilities := by_id capability_id (c_capabilities c);
     c_prompts := by_id prompt_id (c_prompts c);
     c_validators := by_id validator_id (c_validators c) |}.

Definition sort_manifest (m : DomainPackManifest) : DomainPackManifest :=
  {| m_id := m_id m; m_version := m_version m; m_manifestDigest := m_manifestDigest m;
     m_coreContract := m_coreContract m; m_name := m_name m; m_description := m_description m;
     m_dependencies := by_id dep_id (m_dependencies m);
     m_contributions := sort_contributions (m_contributions m) |}.

(** [normalized]: every section sorted, and no digest. *)
Definition normalized (m : DomainPackManifest) : cjson := object_json None (sort_manifest m).

(** The bytes are those of the text in UTF-8. *)
Definition canonicalizeDomainPackManifest `{ShowNumber} (manifest : DomainPackManifest)
    : outcome string :=
  valid ← validateDomainPackManifest (manifest_json manifest);
  canonicalizeJcsJson (normalized valid).

(** * Digests *)

Section digests.
  Context `{ShowNumber} (sha256 : string → string).

(** [sha256] is [createHash("sha256").update(bytes).digest("hex")]. *)
Definition digest (bytes : string) : string := "sha256:" +:+ sha256 bytes.

Definition computeManifestDigest (manifest : DomainPackManifest) : outcome string :=
  bytes ← canonicalizeDomainPackManifest manifest; Ok (digest bytes).

Definition computeArtifactDigest (bytes : string) : string := digest bytes.

(** What [verifyDomainPackManifest] checks of the manifest it has read. *)
Definition check_manifest (manifest : DomainPackManifest) (coreContractVersion : option number)
    : outcome DomainPackManifest :=
  computed ← computeManifestDigest manifest;
  throw_if (negb (bool_decide (computed = m_manifestDigest manifest)))
    (failure "digest_mismatch" "manifestDigest" "declared digest differs from canonical manifest");;
  match coreContractVersion with
  | None => Ok tt
  | Some version => checkCoreContract (m_coreContract manifest) version
  end;;
  Ok manifest.

End digests.

End PackCanonical.
