(* ===== verification/PackLaws.v ===== *)
(** Domain Pack contracts, the leaves: what each reader of [PackSchema] accepts,
    and that it accepts what it returned, written back.  A reader [p], the JSON
    [q] writes and the predicate [ok] of its results are related by the class
    [Parses], against which the laws of the composed readers are proved. *)
From S2P Require Import Prelude Errors Json ActionModel PolicyModel Text Members PackSchema PackManifest.
Import Canonical Policy Text Members PackSchema PackManifest.

Module PackLaws.

(** * Plain values *)

(** No object has the same member twice. *)
Fixpoint unique_members (value : cjson) : bool :=
  match value with
  | CArr items => forallb unique_members items
  | CObj members =>
      bool_decide (NoDup members.*1) && forallb (λ m, unique_members m.2) members
  | _ => true
  end.

Definition plain (value : option cjson) : Prop := from_option unique_members true value = true.

Lemma field_elem_of key (r : record) v : field key r = Some v → (key, v) ∈ r.
Proof.
  unfold field, ActionSimulation.get_member. intros ([k w] & Hf & [= ->])%fmap_Some.
  apply List.find_some in Hf as [Hin Hk]. apply bool_decide_eq_true in Hk. cbn in Hk. subst k.
  by apply list_elem_of_In.
Qed.

Lemma plain_field (r : record) key : plain (Some (CObj r)) → plain (field key r).
Proof.
  unfold plain. cbn. intros [_ Hr]%andb_prop. destruct (field key r) as [v|] eqn:Hf; [|done].
  apply field_elem_of in Hf. rewrite forallb_forall in Hr.
  apply (Hr (key, v)). by apply list_elem_of_In.
Qed.

Lemma plain_items items : plain (Some (CArr items)) → Forall (λ v, plain (Some v)) items.
Proof.
  unfold plain. cbn. rewrite forallb_forall. intros H. apply Forall_forall.
  intros v Hv. apply H. by apply list_elem_of_In.
Qed.

Lemma plain_keys (r : record) : plain (Some (CObj r)) → NoDup r.*1.
Proof. intros H. by apply andb_prop in H as [H%bool_decide_eq_true _]. Qed.

(** * Guards *)

Lemma unique_from_length `{EqDecision A} (seen l : list A) :
  length (unique_from seen l) ≤ length l.
Proof.
  revert seen. induction l as [|x l IH]; intros seen; simpl; [lia|].
  case_match; simpl; [specialize (IH seen)|specialize (IH (x :: seen))]; lia.
Qed.

Lemma unique_from_full `{EqDecision A} (seen l : list A) :
  length (unique_from seen l) = length l ↔ NoDup l ∧ (∀ x, x ∈ l → x ∉ seen).
Proof.
  revert seen. induction l as [|x l IH]; intros seen; simpl.
  - split; [|done]. intros _. split; [constructor|]. by intros ? ?%elem_of_nil.
  - destruct (includes x seen) eqn:Hx.
    + apply includes_spec in Hx. pose proof (unique_from_length seen l).
      split; [lia|]. intros [_ H']. by destruct (H' x (list_elem_of_here x l)).
    + apply includes_false in Hx. simpl. rewrite Nat.succ_inj_wd, IH, NoDup_cons. set_solver.
Qed.

Lemma has_duplicates_false l : has_duplicates l = false ↔ NoDup l.
Proof.
  unfold has_duplicates, unique. rewrite negb_false_iff, Nat.eqb_eq, unique_from_full.
  set_solver.
Qed.

Lemma object_Ok value path code r : object value path code = Ok r ↔ value = Some (CObj r).
Proof. destruct value as [[]|]; simpl; naive_solver. Qed.

Lemma array_Ok value path code l : array value path code = Ok l ↔ value = Some (CArr l).
Proof. destruct value as [[]|]; simpl; naive_solver. Qed.

Lemma only_keys_Ok r allowed path code message u :
  only_keys r allowed path code message = Ok u ↔ Forall (.∈ allowed) r.*1.
Proof.
  unfold only_keys. destruct (List.find _ _) as [key|] eqn:Hf.
  - apply List.find_some in Hf as [Hin Hk]. apply negb_true_iff, includes_false in Hk.
    split; [done|]. rewrite Forall_forall. intros H. destruct Hk. apply H.
    by apply list_elem_of_In.
  - destruct u. split; [|done]. intros _. apply Forall_forall. intros key Hin.
    pose proof (List.find_none _ _ Hf key (proj1 (list_elem_of_In _ _) Hin)) as H.
    by apply negb_false_iff, includes_spec in H.
Qed.

Lemma has_keys_Ok r required path code u :
  has_keys r required path code = Ok u ↔ Forall (λ key, field key r ≠ None) required.
Proof.
  unfold has_keys. destruct (List.find _ _) as [key|] eqn:Hf.
  - apply List.find_some in Hf as [Hin Hk]. apply bool_decide_eq_true in Hk.
    split; [done|]. rewrite Forall_forall. intros H. destruct (H key); [|done].
    by apply list_elem_of_In.
  - destruct u. split; [|done]. intros _. apply Forall_forall. intros key Hin.
    pose proof (List.find_none _ _ Hf key (proj1 (list_elem_of_In _ _) Hin)) as H.
    by apply bool_decide_eq_false in H.
Qed.

(** The keys a written object has, against those its reader allows. *)
Definition keys_within (l : list (string * option cjson)) (allowed : list string) : bool :=
  bool_decide (NoDup l.*1) && forallb (λ key, includes key allowed) l.*1.

Lemma keys_within_NoDup l allowed : keys_within l allowed = true → NoDup l.*1.
Proof. by intros [H%bool_decide_eq_true _]%andb_prop. Qed.

Lemma only_keys_present l allowed path code message :
  keys_within l allowed = true → only_keys (present l) allowed path code message = Ok tt.
Proof.
  intros [_ H]%andb_prop. rewrite forallb_forall in H. apply only_keys_Ok.
  apply Forall_forall. intros key Hk. apply includes_spec, H, list_elem_of_In.
  eapply elem_of_sublist; [done|]. apply present_keys.
Qed.

Lemma keys_present l allowed path code :
  keys_within l allowed = true → Forall (λ key, is_Some (assoc key l)) allowed →
  keys (present l) allowed path code = Ok tt.
Proof.
  intros Hl Hr. unfold keys. rewrite only_keys_present by done. cbn [mbind result_bind].
  apply has_keys_Ok. eapply Forall_impl; [exact Hr|]. intros key [v Hv].
  rewrite field_present, Hv; [done|]. by eapply keys_within_NoDup.
Qed.

Lemma field_written l key :
  bool_decide (NoDup l.*1) = true → field key (present l) = assoc key l.
Proof. intros H%bool_decide_eq_true. by apply field_present. Qed.

(** Reads a member of an object that is written out. *)
Ltac read_field :=
  rewrite !field_written by (vm_compute; reflexivity);
  cbn [assoc String.eqb Ascii.eqb Bool.eqb fst snd].

(** * Readers and what they return *)

Class Parses {A} (p : option cjson → string → outcome A) (q : A → cjson) (ok : A → Prop) : Prop := {
  parsed_ok v path a : p v path = Ok a → plain v → ok a;
  parsed_back a path : ok a → p (Some (q a)) path = Ok a
}.

Section readers.
  Context {A} (p : option cjson → string → outcome A) (q : A → cjson) (ok : A → Prop).
  Context `{!Parses p q ok}.

Lemma optional_ok r path key o :
  plain (Some (CObj r)) → optional p r path key = Ok o → from_option ok True o.
Proof.
  intros Hr Ho. unfold optional in Ho. pose proof (plain_field r key Hr) as Hf.
  destruct (field key r) as [v|]; inv_ok; [|done].
  exact (parsed_ok _ _ _ H Hf).
Qed.

Lemma optional_back r path key o :
  field key r = q <$> o → from_option ok True o → optional p r path key = Ok o.
Proof.
  intros Hf Ho. unfold optional. rewrite Hf. destruct o as [a|]; [|done]. cbn.
  by rewrite parsed_back.
Qed.

Lemma map_entries_ok path i items l :
  Forall (λ v, plain (Some v)) items → map_entries p path i items = Ok l →
  Forall ok l ∧ length l = length items.
Proof.
  intros Hi. revert i l. induction Hi as [|v items Hv Hi IH]; intros i l H; cbn [map_entries] in H.
  - by inv_ok.
  - apply bind_Ok in H as (a & Ha & H). apply bind_Ok in H as (l' & Hl' & H). inv_ok.
    destruct (IH _ _ Hl') as [Hl Hn]. split; [|cbn; by rewrite Hn].
    constructor; [|done]. by eapply parsed_ok.
Qed.

Lemma map_entries_back path i l : Forall ok l → map_entries p path i (q <$> l) = Ok l.
Proof.
  intros Hl. revert i. induction Hl as [|a l Ha Hl IH]; intros i; [done|].
  cbn. rewrite parsed_back by done. cbn. by rewrite IH.
Qed.

End readers.

(** * Lists *)

(** From one to [maximum] entries. *)
Definition sized {A} (maximum : nat) (l : list A) : Prop := 1 ≤ length l ≤ maximum.

(** In the one order a sort gives. *)
Definition ordered {A} (cmp : A → A → Z) (l : list A) : Prop := sort_by cmp l = l.

Lemma ordered_sort {A} (cmp : A → A → Z) `{!Comparator cmp} l : ordered cmp (sort_by cmp l).
Proof. apply sort_by_idemp, _. Qed.

Lemma sized_perm {A} maximum (l l' : list A) : l ≡ₚ l' → sized maximum l → sized maximum l'.
Proof. unfold sized. intros H. by rewrite (Permutation_length H). Qed.

Definition compare_by {A} (key : A → string) (a b : A) : Z := compare_text (key a) (key b).

#[export] Instance compare_by_comparator {A} (key : A → string) : Comparator (compare_by key).
Proof.
  split; unfold compare_by.
  - intros x y. apply cmp_total.
  - intros x y z. apply cmp_trans.
Qed.

Lemma boundedArray_Ok maximum none many value path l :
  boundedArray maximum none many value path = Ok l ↔ value = Some (CArr l) ∧ sized maximum l.
Proof.
  unfold boundedArray, sized. split.
  - intros H. apply bind_Ok in H as (items & ->%array_Ok & H).
    rewrite throw_if_bind_Ok in H. destruct H as [H1 H]. rewrite throw_if_bind_Ok in H.
    destruct H as [H2 H]. inv_ok. apply Nat.eqb_neq in H1. apply Nat.ltb_ge in H2.
    split; [done|]. lia.
  - intros [-> Hl]. cbn [array mbind result_bind].
    rewrite (proj2 (Nat.eqb_neq _ _)) by lia. rewrite (proj2 (Nat.ltb_ge _ _)) by lia. done.
Qed.

Section lists.
  Context {A} (p : option cjson → string → outcome A) (q : A → cjson) (ok : A → Prop).
  Context `{!Parses p q ok} (maximum : nat).

Lemma bounded_entries_ok none many v path items i l :
  plain v → boundedArray maximum none many v path = Ok items →
  map_entries p path i items = Ok l → sized maximum l ∧ Forall ok l.
Proof.
  intros Hv [-> Hs]%boundedArray_Ok Hl.
  eapply map_entries_ok in Hl as [Hl Hn]; [|done|by apply plain_items].
  split; [|done]. unfold sized in *. by rewrite Hn.
Qed.

Lemma bounded_back none many path l :
  sized maximum l →
  boundedArray maximum none many (Some (CArr (q <$> l))) path = Ok (q <$> l).
Proof. intros Hs. apply boundedArray_Ok. split; [done|]. unfold sized in *. by rewrite length_fmap. Qed.

End lists.

(** * Strings and numbers *)

#[export] Instance matching_parses matches code message :
  Parses (matching matches code message) CStr (λ s, matches s = true).
Proof.
  split.
  - intros v path a H _. destruct v as [[]|]; cbn in H; try done. by case_match; inv_ok.
  - intros a path H. cbn. by rewrite H.
Qed.

#[export] Instance local_id_parses : Parses local_id CStr (λ s, is_local_id s = true).
Proof. apply matching_parses. Qed.

#[export] Instance contribution_text_parses : Parses contribution_text CStr (λ _, True).
Proof. done. Qed.

#[export] Instance nonEmptyString_parses : Parses nonEmptyString CStr (λ s, s ≠ "").
Proof.
  split.
  - intros v path a H _. unfold nonEmptyString in H.
    apply bind_Ok in H as (s & _ & H). rewrite throw_if_bind_Ok in H. destruct H as [H1 H]. inv_ok. by intros ->.
  - intros a path H. unfold nonEmptyString. cbn. by destruct a.
Qed.

Definition knowledge_text_ok (s : string) : Prop :=
  s ≠ "" ∧ String.length s ≤ maximumKnowledgeTextLength.

#[export] Instance knowledge_text_parses : Parses boundedKnowledgeText CStr knowledge_text_ok.
Proof.
  unfold boundedKnowledgeText, knowledge_text_ok. split.
  - intros v path a H Hv. apply bind_Ok in H as (s & Hs & H). rewrite throw_if_bind_Ok in H.
    destruct H as [H1 H]. inv_ok. pose proof (parsed_ok _ _ _ Hs Hv). split; [done|].
    by apply Nat.ltb_ge.
  - intros a path [H1 H2]. rewrite parsed_back by done. cbn [mbind result_bind].
    by rewrite (proj2 (Nat.ltb_ge _ _)).
Qed.

Definition within (minimum maximum : Z) (n : number) : bool :=
  is_safe_integer n && negb (num_lt n minimum) && negb (num_gt n maximum).

#[export] Instance boundedInteger_parses minimum maximum :
  Parses (boundedInteger minimum maximum) CNum (λ n, within minimum maximum n = true).
Proof.
  split.
  - intros v path a H _. unfold boundedInteger in H. destruct v as [[]|]; try done.
    by case_match; inv_ok.
  - intros a path H. unfold boundedInteger, within in *. by rewrite H.
Qed.

Definition bound_ok (integer : bool) (n : number) : bool :=
  is_finite n && (negb integer || is_safe_integer n).

#[export] Instance number_bound_parses integer :
  Parses (number_bound integer) CNum (λ n, bound_ok integer n = true).
Proof.
  split.
  - intros v path a H _. unfold number_bound in H. destruct v as [[]|]; try done.
    by case_match; inv_ok.
  - intros a path H. unfold number_bound, bound_ok in *. by rewrite H.
Qed.

End PackLaws.
