(* ===== verification/SchemaLaws.v ===== *)
(** The closed data schema: what [dataSchema] accepts, with its depth and its
    node budget, and that a schema written back is read as itself. *)
From S2P Require Import Prelude Errors Json ActionModel PolicyModel Text Members PackSchema PackManifest PackLaws.
Import Canonical Policy Text Members PackSchema PackManifest PackLaws.

Module SchemaLaws.

(** * Well-formed schemas *)

Definition range_ok (ok : number → bool) (minimum maximum : option number) : Prop :=
  from_option (λ n, ok n = true) True minimum ∧ from_option (λ n, ok n = true) True maximum ∧
  exceeds minimum maximum = false.

Definition enum_text (s : string) : bool :=
  schemaText s && negb (String.length s =? 0) && (String.length s <=? maximumSchemaEnumValueLength).

Definition property_name_ok (name : string) : bool :=
  is_property_name name && negb (includes name reservedSchemaPropertyNames).

(** A list without duplicates, in code unit order. *)
Definition text_set (l : list string) : Prop := NoDup l ∧ ordered compare_text l.

(** A schema of at most [levels] levels. *)
Fixpoint schema_ok (levels : nat) (s : PackDataSchema) : Prop :=
  match levels with
  | 0 => False
  | S deeper =>
      match s with
      | schema_string low high => range_ok (within 0 maximumSchemaStringLength) low high
      | schema_number integer low high => range_ok (bound_ok integer) low high
      | schema_boolean => True
      | schema_enum values =>
          sized maximumSchemaEnumValues values ∧ Forall (λ v, enum_text v = true) values ∧
          text_set values
      | schema_array items low high =>
          range_ok (within 0 maximumSchemaArrayItems) low high ∧ schema_ok deeper items
      | schema_object properties required =>
          sized maximumSchemaProperties properties ∧
          Forall (λ name, property_name_ok name = true) properties.*1 ∧
          text_set properties.*1 ∧
          Forall (λ p, schema_ok deeper p.2) properties ∧
          from_option (λ r, r ≠ [] ∧ Forall (.∈ properties.*1) r ∧ text_set r) True required
      end
  end.

(** How many schemas a schema holds, itself included. *)
Fixpoint schema_nodes (s : PackDataSchema) : Z :=
  1 + match s with
      | schema_array items _ _ => schema_nodes items
      | schema_object properties _ => foldr Z.add 0%Z (map (λ p, schema_nodes p.2) properties)
      | _ => 0
      end.

Definition properties_nodes (l : list (string * PackDataSchema)) : Z :=
  foldr Z.add 0%Z (map (λ p, schema_nodes p.2) l).

Lemma properties_nodes_cons name s l :
  properties_nodes ((name, s) :: l) = (schema_nodes s + properties_nodes l)%Z.
Proof. done. Qed.

Lemma schema_nodes_object properties required :
  schema_nodes (schema_object properties required) = (1 + properties_nodes properties)%Z.
Proof. done. Qed.

Lemma properties_nodes_positive (ok : PackDataSchema → Prop) l :
  (∀ s, ok s → (1 <= schema_nodes s)%Z) → Forall (λ p, ok p.2) l → (0 <= properties_nodes l)%Z.
Proof.
  intros Hok Hl. induction Hl as [|[name s] l Hs Hl IH]; [done|].
  rewrite properties_nodes_cons. specialize (Hok s Hs). lia.
Qed.

Lemma schema_nodes_positive levels s : schema_ok levels s → (1 <= schema_nodes s)%Z.
Proof.
  revert s. induction levels as [|levels IH]; intros s H; [done|].
  destruct s as [| | | |items low high|properties required]; cbn [schema_ok] in H;
    try (cbn; lia).
  - destruct H as [_ H]. specialize (IH _ H). cbn. lia.
  - destruct H as (_ & _ & _ & H & _). rewrite schema_nodes_object.
    pose proof (properties_nodes_positive _ _ IH H). lia.
Qed.

(** * The readers of its parts *)

Lemma sortedUnique_Ok l path l' :
  sortedUnique l path = Ok l' ↔ NoDup l ∧ l' = sort_by compare_text l.
Proof.
  unfold sortedUnique. rewrite throw_if_bind_Ok, has_duplicates_false. naive_solver.
Qed.

Lemma text_set_sort l : NoDup l → text_set (sort_by compare_text l).
Proof.
  intros Hl. split; [by rewrite sort_by_perm|]. apply ordered_sort, _.
Qed.

Lemma sortedUnique_set l path : text_set l → sortedUnique l path = Ok l.
Proof. intros [Hd Ho]. by apply sortedUnique_Ok. Qed.

Section bounds.
  Context (read : option cjson → string → outcome number) (ok : number → bool).
  Context `{!Parses read CNum (λ n, ok n = true)}.

Lemma bounds_ok r path low high b :
  bounds read r path low high = Ok b → plain (Some (CObj r)) → range_ok ok b.1 b.2.
Proof.
  unfold bounds. intros H Hr. apply bind_Ok in H as (a & Ha & H).
  apply bind_Ok in H as (c & Hc & H). rewrite throw_if_bind_Ok in H. destruct H as [He H]. inv_ok.
  split; [|split]; [| |done].
  - exact (optional_ok read CNum (λ n, ok n = true) _ _ _ _ Hr Ha).
  - exact (optional_ok read CNum (λ n, ok n = true) _ _ _ _ Hr Hc).
Qed.

Lemma bounds_back r path low high a b :
  field low r = CNum <$> a → field high r = CNum <$> b → range_ok ok a b →
  bounds read r path low high = Ok (a, b).
Proof.
  intros Hl Hh (Ha & Hb & He). unfold bounds.
  rewrite (optional_back read CNum (λ n, ok n = true) r path low a) by done. cbn.
  rewrite (optional_back read CNum (λ n, ok n = true) r path high b) by done. cbn.
  by rewrite He.
Qed.

End bounds.

#[export] Instance enum_value_parses : Parses enum_value CStr (λ s, enum_text s = true).
Proof.
  split.
  - intros v path a. apply (parsed_ok (Parses := matching_parses enum_text _ _)).
  - intros a path. apply (parsed_back (Parses := matching_parses enum_text _ _)).
Qed.

Lemma enum_values_ok r path l :
  enum_values r path = Ok l → plain (Some (CObj r)) →
  sized maximumSchemaEnumValues l ∧ Forall (λ v, enum_text v = true) l ∧ text_set l.
Proof.
  unfold enum_values. intros H Hr. apply bind_Ok in H as (items & Hi%array_Ok & H).
  rewrite throw_if_bind_Ok in H. destruct H as [Hn H].
  apply bind_Ok in H as (values & Hv & [Hd ->]%sortedUnique_Ok).
  pose proof (plain_field _ "values" Hr) as Hp. rewrite Hi in Hp.
  destruct (map_entries_ok enum_value CStr _ _ _ _ _ (plain_items _ Hp) Hv) as [Hf Hl].
  apply orb_false_iff in Hn as [Hn1%Nat.eqb_neq Hn2%Nat.ltb_ge].
  split; [|split].
  - unfold sized. rewrite sort_by_length, Hl. lia.
  - by rewrite sort_by_perm.
  - by apply text_set_sort.
Qed.

Lemma enum_values_back r path l :
  field "values" r = Some (text_array l) →
  sized maximumSchemaEnumValues l → Forall (λ v, enum_text v = true) l → text_set l →
  enum_values r path = Ok l.
Proof.
  intros Hf [Hs1 Hs2] Hl Hset. unfold enum_values. rewrite Hf. cbn [array text_array mbind result_bind].
  rewrite length_fmap, (proj2 (Nat.eqb_neq _ _)), (proj2 (Nat.ltb_ge _ _)) by lia.
  cbn [orb throw_if mbind result_bind].
  rewrite (map_entries_back enum_value CStr (λ s, enum_text s = true)) by done.
  cbn [mbind result_bind]. by apply sortedUnique_set.
Qed.

Lemma property_names_Ok properties path names :
  property_names properties path = Ok names ↔
  sized maximumSchemaProperties properties ∧
  Forall (λ name, property_name_ok name = true) properties.*1 ∧
  names = sort_by compare_text properties.*1.
Proof.
  unfold property_names, sized, property_name_ok. rewrite throw_if_bind_Ok, orb_false_iff,
    Nat.eqb_neq, Nat.ltb_ge, length_fmap.
  destruct (List.find _ _) as [name|] eqn:Hf.
  - split; [naive_solver|]. intros (_ & H & _). apply List.find_some in Hf as [Hin Hn].
    rewrite Forall_forall in H. specialize (H name (proj2 (list_elem_of_In _ _) Hin)).
    apply andb_prop in H as [H1 H2]. by rewrite H1, (proj1 (negb_true_iff _) H2) in Hn.
  - assert (Forall (λ name, is_property_name name && negb (includes name reservedSchemaPropertyNames)
      = true) properties.*1) as Hall.
    { apply Forall_forall. intros name Hin.
      pose proof (List.find_none _ _ Hf name (proj1 (list_elem_of_In _ _) Hin)) as H.
      apply orb_false_iff in H as [H1%negb_false_iff H2]. by rewrite H1, H2. }
    split; [|naive_solver lia]. intros [[H1 H2] [= <-]]. split; [lia|done].
Qed.

Lemma required_names_ok r names path o :
  required_names r names path = Ok o → plain (Some (CObj r)) →
  from_option (λ r, r ≠ [] ∧ Forall (.∈ names) r ∧ text_set r) True o.
Proof.
  unfold required_names. intros H Hr. pose proof (plain_field _ "required" Hr) as Hp.
  destruct (field "required" r) as [v|]; [|by inv_ok].
  apply bind_Ok in H as (items & [= ->]%array_Ok & H). rewrite throw_if_bind_Ok in H.
  destruct H as [Hn%Nat.eqb_neq H]. apply bind_Ok in H as (l & Hl & H).
  apply bind_Ok in H as (l' & [Hd ->]%sortedUnique_Ok & H). inv_ok. cbn.
  edestruct (map_entries_ok (matching (λ s, includes s names) invalid_contribution _) CStr
    (λ s, includes s names = true) _ _ _ _ (plain_items _ Hp) Hl) as [Hf Hlen].
  split; [|split].
  - intros Hnil. apply (f_equal length) in Hnil. by rewrite sort_by_length, Hlen in Hnil.
  - rewrite sort_by_perm. eapply Forall_impl; [exact Hf|]. intros x. apply includes_spec.
  - by apply text_set_sort.
Qed.

Lemma required_names_back r names path o :
  field "required" r = text_array <$> o →
  from_option (λ r, r ≠ [] ∧ Forall (.∈ names) r ∧ text_set r) True o →
  required_names r names path = Ok o.
Proof.
  intros Hf Ho. unfold required_names. rewrite Hf. destruct o as [l|]; [|done]. cbn in Ho.
  destruct Ho as (Hne & Hl & Hset). cbn [fmap option_fmap option_map text_array array mbind result_bind].
  rewrite length_fmap. destruct l as [|x l]; [done|]. cbn [length Nat.eqb throw_if mbind result_bind].
  rewrite (map_entries_back (matching (λ s, includes s names) invalid_contribution _) CStr
    (λ s, includes s names = true)).
  - cbn [mbind result_bind]. by rewrite sortedUnique_set.
  - eapply Forall_impl; [exact Hl|]. intros y. apply includes_spec.
Qed.

(** * The schema reader *)

Definition type_matches (s : PackDataSchema) : schema_type :=
  match s with
  | schema_string _ _ => type_string
  | schema_number integer _ _ => if integer then type_integer else type_number
  | schema_boolean => type_boolean
  | schema_enum _ => type_enum
  | schema_array _ _ _ => type_array
  | schema_object _ _ => type_object
  end.

Section schemas.
  Context (deeper : nat).
  Context (IHok : ∀ v path n s n',
    dataSchema deeper v path n = (Ok s, n') → plain v → (n <= maximumSchemaNodes)%Z →
    schema_ok deeper s ∧ n' = (n + schema_nodes s)%Z ∧ (n' <= maximumSchemaNodes)%Z).
  Context (IHback : ∀ s path n,
    schema_ok deeper s → (n + schema_nodes s <= maximumSchemaNodes)%Z →
    dataSchema deeper (Some (schema_json s)) path n = (Ok s, (n + schema_nodes s)%Z)).

Lemma run_lift {A B} (r : outcome A) (k : A → action error Z B) n a :
  r = Ok a → (lift r ≫= k) n = k a n.
Proof. by intros ->. Qed.

(** A step that succeeds. *)
Lemma run_bind {A B} (m : action error Z A) (k : A → action error Z B) n a n' :
  m n = (Ok a, n') → (m ≫= k) n = k a n'.
Proof. unfold mbind, action_bind. by intros ->. Qed.

Lemma properties_ok properties path names n l n' :
  traverse (property (dataSchema deeper) properties path) names n = (Ok l, n') →
  plain (Some (CObj properties)) → (n <= maximumSchemaNodes)%Z →
  l.*1 = names ∧ Forall (λ p, schema_ok deeper p.2) l ∧
  n' = (n + properties_nodes l)%Z ∧ (n' <= maximumSchemaNodes)%Z.
Proof using IHok.
  intros H Hp. revert n l n' H. induction names as [|name names IH]; intros n l n' H Hn; cbn in H.
  - inv_ok. repeat split; [done|unfold properties_nodes; cbn; lia|done].
  - apply action_bind_Ok in H as (b & n1 & Hb & H). apply action_bind_Ok in H as (bs & n2 & Hbs & H).
    unfold property in Hb. apply action_bind_Ok in Hb as (s & n0 & Hs & Hb). inv_ok.
    destruct (IHok _ _ _ _ _ Hs (plain_field _ name Hp) Hn) as (Hok & -> & Hm).
    destruct (IH _ _ _ Hbs Hm) as (<- & Hl & -> & Hm'). rewrite properties_nodes_cons.
    repeat split; [by constructor|lia|done].
Qed.

Lemma properties_back properties path l n :
  (∀ p, p ∈ l → field p.1 properties = Some (schema_json p.2)) →
  Forall (λ p, schema_ok deeper p.2) l →
  (n + properties_nodes l <= maximumSchemaNodes)%Z →
  traverse (property (dataSchema deeper) properties path) l.*1 n = (Ok l, (n + properties_nodes l)%Z).
Proof using IHback.
  intros Hf Hl. revert n. induction Hl as [|[name s] l Hs Hl IH]; intros n Hn.
  - unfold properties_nodes. cbn. by rewrite Z.add_0_r.
  - rewrite properties_nodes_cons in Hn |- *.
    pose proof (properties_nodes_positive _ _ (schema_nodes_positive deeper) Hl) as Hpos.
    assert (property (dataSchema deeper) properties path name n = (Ok (name, s), (n + schema_nodes s)%Z)) as Hstep.
    { unfold property. erewrite run_bind; [done|].
      pose proof (Hf (name, s) (list_elem_of_here _ _)) as H'. cbn in H'.
      rewrite H'. apply IHback; [done|]. lia. }
    cbn [fmap list_fmap fst traverse]. rewrite (run_bind _ _ _ _ _ Hstep). erewrite run_bind.
    2: { apply IH; [|lia]. intros p Hp. apply Hf. by right. }
    unfold mret, action_ret. f_equal. lia.
Qed.

Lemma schema_of_type_ok t r path n s n' :
  schema_of_type (dataSchema deeper) t r path n = (Ok s, n') →
  plain (Some (CObj r)) → (n <= maximumSchemaNodes)%Z →
  schema_ok (S deeper) s ∧ n' = (n - 1 + schema_nodes s)%Z ∧ (n' <= maximumSchemaNodes)%Z.
Proof using IHok.
  intros H Hr Hn. assert (∀ integer b, bounds (number_bound integer) r path "minimum" "maximum" = Ok b →
    schema_ok (S deeper) (schema_number integer b.1 b.2)) as Hnum.
  { intros integer b Hb. by apply (bounds_ok (number_bound integer) (bound_ok integer) _ _ _ _ _ Hb). }
  destruct t; cbn [schema_of_type] in H.
  - apply lift_bind_Ok in H as (b & Hb & H). inv_ok. cbn. split; [|lia].
    by apply (bounds_ok _ (within 0 maximumSchemaStringLength) _ _ _ _ _ Hb).
  - apply lift_bind_Ok in H as (b & Hb & H). inv_ok. split; [by apply Hnum|cbn; lia].
  - apply lift_bind_Ok in H as (b & Hb & H). inv_ok. split; [by apply Hnum|cbn; lia].
  - inv_ok. cbn. split; [done|lia].
  - apply lift_bind_Ok in H as (values & Hv & H). inv_ok. cbn. split; [|lia].
    by apply (enum_values_ok _ _ _ Hv).
  - apply refuse_if_bind_Ok in H as [_ H]. apply lift_bind_Ok in H as (b & Hb & H).
    apply action_bind_Ok in H as (items & n1 & Hi & H). inv_ok.
    destruct (IHok _ _ _ _ _ Hi (plain_field _ "items" Hr) Hn) as (Hok & -> & Hm).
    cbn. split; [|lia]. split; [|done].
    by apply (bounds_ok _ (within 0 maximumSchemaArrayItems) _ _ _ _ _ Hb).
  - apply lift_bind_Ok in H as (properties & Hp%object_Ok & H).
    apply lift_bind_Ok in H as (names & (Hs & Hnames & ->)%property_names_Ok & H).
    apply action_bind_Ok in H as (l & n1 & Hl & H). apply lift_bind_Ok in H as (o & Ho & H). inv_ok.
    pose proof (plain_field _ "properties" Hr) as Hplain. rewrite Hp in Hplain.
    destruct (properties_ok _ _ _ _ _ _ Hl Hplain Hn) as (Hkeys & Hok & -> & Hm).
    split; [|rewrite schema_nodes_object; lia]. cbn [schema_ok].
    assert (length l = length properties) as Hlen.
    { rewrite <- (length_fmap fst l), Hkeys, sort_by_length. apply length_fmap. }
    split; [unfold sized in *; by rewrite Hlen|]. rewrite Hkeys. split; [by rewrite sort_by_perm|].
    split; [apply text_set_sort; by apply plain_keys|]. split; [done|].
    by apply (required_names_ok _ _ _ _ Ho).
Qed.

(** Reading a property that was written. *)
Lemma field_json (l : list (string * PackDataSchema)) p :
  NoDup l.*1 → p ∈ l → field p.1 (map (λ p, (p.1, schema_json p.2)) l) = Some (schema_json p.2).
Proof.
  unfold field, ActionSimulation.get_member.
  induction l as [|[k s] l IH]; [by intros _ ?%elem_of_nil|].
  cbn [fmap list_fmap fst]. intros [Hk Hl]%NoDup_cons Hp. cbn.
  apply elem_of_cons in Hp as [->|Hp]; cbn; [by rewrite bool_decide_eq_true_2|].
  rewrite bool_decide_eq_false_2; [by apply IH|]. intros Heq. apply Hk. rewrite Heq.
  apply list_elem_of_fmap. by exists p.
Qed.

Lemma counted (s : PackDataSchema) n n' :
  n' = (n - 1 + schema_nodes s)%Z → (Ok s : outcome _, n') = (Ok s, (n - 1 + schema_nodes s)%Z).
Proof. by intros ->. Qed.

Lemma schema_of_type_back s path n :
  schema_ok (S deeper) s → (n - 1 + schema_nodes s <= maximumSchemaNodes)%Z →
  ∃ r, schema_json s = CObj r ∧
    schema_of_type (dataSchema deeper) (type_matches s) r path n =
      (Ok s, (n - 1 + schema_nodes s)%Z) ∧
    (∀ path, type_of r path = Ok (type_matches s)) ∧
    (∀ path code message, only_keys r (schemaMembers (type_matches s)) path code message = Ok tt).
Proof using IHback.
  intros Hs Hn. destruct s as [low high|integer low high| |values|items low high|properties required];
    (eexists; split; [reflexivity|]; split;
     [cbn [schema_of_type type_matches]
     |split; [intros; unfold type_of; read_field; try destruct integer; reflexivity|
               intros; apply only_keys_present; try destruct integer; vm_compute; reflexivity]]).
  - rewrite (run_lift _ _ _ (low, high)); [apply counted; cbn; lia|].
    apply (bounds_back _ (within 0 maximumSchemaStringLength)); by try read_field.
  - destruct integer; cbn [schema_of_type]; (rewrite (run_lift _ _ _ (low, high)); [apply counted; cbn; lia|]);
      apply (bounds_back _ (bound_ok _)); by try read_field.
  - apply counted. cbn. lia.
  - destruct Hs as (Hs & Hv & Hset). rewrite (run_lift _ _ _ values); [apply counted; cbn; lia|].
    apply enum_values_back; by try read_field.
  - destruct Hs as [Hb Hs]. read_field. unfold refuse_if. rewrite (run_lift _ _ _ tt) by done.
    rewrite (run_lift _ _ _ (low, high)).
    2: { apply (bounds_back _ (within 0 maximumSchemaArrayItems)); by try read_field. }
    erewrite run_bind; [|apply IHback; [done|cbn in Hn; lia]]. apply counted. cbn. lia.
  - destruct Hs as (Hs & Hnames & Hset & Hok & Ho). read_field.
    rewrite schema_nodes_object in Hn |- *. cbn [object].
    set (members := map _ properties).
    assert (members.*1 = properties.*1) as Hkeys.
    { subst members. clear. induction properties; cbn; by f_equal. }
    rewrite (run_lift _ _ _ members) by done.
    rewrite (run_lift _ _ _ properties.*1).
    2: { apply property_names_Ok. rewrite Hkeys. split; [|split; [done|]].
         - unfold sized. subst members. by rewrite length_map.
         - symmetry. apply Hset. }
    erewrite run_bind.
    2: { apply properties_back; [|done|lia]. intros p Hp. apply field_json; [apply Hset|done]. }
    rewrite (run_lift _ _ _ required).
    2: { apply required_names_back; [by read_field|done]. }
    unfold mret, action_ret. f_equal. lia.
Qed.

End schemas.

Lemma dataSchema_ok levels v path n s n' :
  dataSchema levels v path n = (Ok s, n') → plain v → (n <= maximumSchemaNodes)%Z →
  schema_ok levels s ∧ n' = (n + schema_nodes s)%Z ∧ (n' <= maximumSchemaNodes)%Z.
Proof.
  revert v path n s n'. induction levels as [|levels IH]; intros v path n s n' H Hv Hn;
    cbn [dataSchema] in H; apply lift_bind_Ok in H as (r & ->%object_Ok & H);
    apply action_bind_Ok in H as (u & n1 & Hu & H); injection Hu as <- <-; rewrite get_bind in H;
    apply refuse_if_bind_Ok in H as [Hm%Z.ltb_ge H].
  - by inv_ok.
  - apply lift_bind_Ok in H as (t & Ht & H). apply lift_bind_Ok in H as (u & Hk & H).
    destruct (schema_of_type_ok _ IH _ _ _ _ _ _ H Hv Hm) as (Hok & -> & Hle).
    split; [done|]. lia.
Qed.



Lemma dataSchema_back levels s path n :
  schema_ok levels s → (n + schema_nodes s <= maximumSchemaNodes)%Z →
  dataSchema levels (Some (schema_json s)) path n = (Ok s, (n + schema_nodes s)%Z).
Proof.
  revert s path n. induction levels as [|levels IH]; intros s path n Hs Hn; [done|].
  destruct (schema_of_type_back _ IH s path (Z.succ n)) as (r & -> & Hr & Ht & Hk); [done|lia|].
  pose proof (schema_nodes_positive _ _ Hs). cbn [dataSchema].
  rewrite (run_lift _ _ _ r) by done. rewrite (run_bind _ _ n tt (Z.succ n)) by done.
  rewrite get_bind. unfold refuse_if. rewrite (run_lift _ _ _ tt).
  2: { by rewrite (proj2 (Z.ltb_ge _ _)) by lia. }
  rewrite (run_lift _ _ _ _ (Ht path)), (run_lift _ _ _ _ (Hk path _ _)), Hr.
  f_equal. lia.
Qed.

(** What a contract schema is: at most four levels and 256 schemas. *)
Definition contract_ok (s : PackDataSchema) : Prop :=
  schema_ok maximumSchemaDepth s ∧ (schema_nodes s <= maximumSchemaNodes)%Z.

#[export] Instance contractSchema_parses : Parses contractSchema schema_json contract_ok.
Proof.
  unfold contractSchema. split.
  - intros v path s H Hv. destruct (dataSchema _ v path 0%Z) as [r n'] eqn:Hd. cbn in H. subst r.
    destruct (dataSchema_ok _ _ _ _ _ _ Hd Hv) as (Hok & -> & Hn); [done|].
    by split.
  - intros s path [Hs Hn]. by rewrite (dataSchema_back _ _ _ _ Hs).
Qed.

(** How deep a schema is. *)
Fixpoint schema_depth (s : PackDataSchema) : nat :=
  S match s with
    | schema_array items _ _ => schema_depth items
    | schema_object properties _ => foldr max 0 (map (λ p, schema_depth p.2) properties)
    | _ => 0
    end.

Lemma schema_ok_depth levels s : schema_ok levels s → schema_depth s ≤ levels.
Proof.
  revert s. induction levels as [|levels IH]; intros s H; [done|].
  destruct s as [| | | |items low high|properties required]; cbn in *; try lia.
  - destruct H as [_ H]. specialize (IH _ H). lia.
  - destruct H as (_ & _ & _ & H & _). apply le_n_S.
    induction H as [|p l Hp H IHl]; cbn; [lia|]. specialize (IH _ Hp). lia.
Qed.

End SchemaLaws.
