(* ===== verification/ContributionLaws.v ===== *)
(** The contributions of a Domain Pack: what the reader of each kind accepts, as
    a predicate on its results, and that a contribution written back is read as
    itself.  Every kind is an instance of [Parses]. *)
From S2P Require Import Prelude Errors Json ActionModel PolicyModel Text Members PackSchema PackManifest PackCanonical PackLaws SchemaLaws.
Import Canonical Policy Text Members PackSchema PackManifest PackCanonical PackLaws SchemaLaws.

Module ContributionLaws.

#[local] Arguments contribution_common : simpl never.
#[local] Arguments optional : simpl never.
#[local] Arguments only_keys : simpl never.
#[local] Arguments has_keys : simpl never.
#[local] Arguments keys : simpl never.
#[local] Arguments field : simpl never.
#[local] Arguments capability_operations : simpl never.

(** * Lists *)

Definition local (s : string) : Prop := is_local_id s = true.

(** From one to [maximum] different entries. *)
Definition distinct_list (maximum : nat) (ok : string → Prop) (l : list string) : Prop :=
  sized maximum l ∧ Forall ok l ∧ NoDup l.

Definition references_ok : list string → Prop := distinct_list maximumContributionReferences local.

Lemma distinct_list_perm maximum ok l l' :
  l ≡ₚ l' → distinct_list maximum ok l → distinct_list maximum ok l'.
Proof.
  intros Hp (Hs & Hl & Hd). split; [by eapply sized_perm|]. by rewrite <- Hp.
Qed.

(** A bounded list whose entries differ, read entry by entry. *)
Lemma distinct_parses (p : option cjson → string → outcome string) ok maximum (none many : string) e
    (read : option cjson → string → outcome (list string)) :
  Parses p CStr ok →
  (∀ v path, read v path =
     (items ← boundedArray maximum none many v path;
      parsed ← map_entries p path 0 items;
      throw_if (has_duplicates parsed) (e path);; Ok parsed)) →
  Parses read text_array (distinct_list maximum ok).
Proof.
  intros Hp Hread. split.
  - intros v path l H Hv. rewrite Hread in H. apply bind_Ok in H as (items & Hi & H).
    apply bind_Ok in H as (parsed & Hl & H). rewrite throw_if_bind_Ok, has_duplicates_false in H.
    destruct H as [Hd [= ->]].
    destruct (bounded_entries_ok p CStr ok maximum _ _ _ _ _ _ _ Hv Hi Hl). by split.
  - intros l path (Hs & Hl & Hd). rewrite Hread. unfold text_array.
    rewrite (bounded_back CStr) by done. cbn [mbind result_bind].
    rewrite (map_entries_back p CStr ok) by done. cbn [mbind result_bind].
    by rewrite (proj2 (has_duplicates_false l) Hd).
Qed.

#[export] Instance referenceList_parses noun : Parses (referenceList noun) text_array references_ok.
Proof.
  exact (distinct_parses local_id local _ _ _ _ _ _ (λ _ _, eq_refl)).
Qed.

Definition descriptive_ok (l : list string) : Prop :=
  sized maximumDescriptiveListEntries l ∧ Forall (λ s, s ≠ "") l.

#[export] Instance descriptiveList_parses : Parses descriptiveList text_array descriptive_ok.
Proof.
  unfold descriptiveList. split.
  - intros v path l H Hv. apply bind_Ok in H as (items & Hi & H).
    by apply (bounded_entries_ok nonEmptyString CStr (λ s, s ≠ "") _ _ _ _ _ _ _ _ Hv Hi H).
  - intros l path [Hs Hl]. unfold text_array. rewrite (bounded_back CStr) by done.
    cbn [mbind result_bind]. by rewrite (map_entries_back nonEmptyString CStr (λ s, s ≠ "")).
Qed.

(** A bounded list of texts that is kept as a set. *)
Definition set_ok (maximum : nat) (ok : string → Prop) (l : list string) : Prop :=
  sized maximum l ∧ Forall ok l ∧ text_set l.

Lemma set_sorted maximum ok l :
  distinct_list maximum ok l → set_ok maximum ok (sort_by compare_text l).
Proof.
  intros (Hs & Hl & Hd). split; [|split].
  - by eapply sized_perm; [symmetry; apply sort_by_perm|].
  - by rewrite sort_by_perm.
  - by apply text_set_sort.
Qed.

Lemma set_distinct maximum ok l : set_ok maximum ok l → distinct_list maximum ok l.
Proof. by intros (Hs & Hl & Hd & _). Qed.

(** A reader that sorts what a reader of a distinct list returns. *)
Lemma sorted_parses (distinct read : option cjson → string → outcome (list string)) maximum ok :
  Parses distinct text_array (distinct_list maximum ok) →
  (∀ v path, read v path = (l ← distinct v path; Ok (sort_by compare_text l))) →
  Parses read text_array (set_ok maximum ok).
Proof.
  intros Hp Hread. split.
  - intros v path l H Hv. rewrite Hread in H. apply bind_Ok in H as (l' & Hl & [= <-]).
    apply set_sorted. exact (parsed_ok _ _ _ Hl Hv).
  - intros l path Hl. rewrite Hread, parsed_back by (by apply set_distinct).
    cbn. f_equal. apply Hl.
Qed.

(** A bounded list of entries with different keys, in the order of the keys. *)
Definition keyed_list {A} (maximum : nat) (ok : A → Prop) (key : A → string) (l : list A) : Prop :=
  sized maximum l ∧ Forall ok l ∧ NoDup (key <$> l) ∧ ordered (compare_by key) l.

Lemma keyed_parses {A} (p : option cjson → string → outcome A) q ok key maximum
    (none many : string) e (read : option cjson → string → outcome (list A)) `{!Parses p q ok} :
  (∀ v path, read v path =
     (items ← boundedArray maximum none many v path;
      parsed ← map_entries p path 0 items;
      throw_if (has_duplicates (key <$> parsed)) (e path);;
      Ok (sort_by (compare_by key) parsed))) →
  Parses read (λ l, CArr (q <$> l)) (keyed_list maximum ok key).
Proof.
  intros Hread. split.
  - intros v path l H Hv. rewrite Hread in H. apply bind_Ok in H as (items & Hi & H).
    apply bind_Ok in H as (parsed & Hp & H). rewrite throw_if_bind_Ok, has_duplicates_false in H.
    destruct H as [Hd [= <-]].
    destruct (bounded_entries_ok p q ok maximum _ _ _ _ _ _ _ Hv Hi Hp) as [Hs Hl].
    split; [|split; [|split]].
    + by eapply sized_perm; [symmetry; apply sort_by_perm|].
    + by rewrite sort_by_perm.
    + by rewrite sort_by_perm.
    + apply ordered_sort, _.
  - intros l path (Hs & Hl & Hd & Ho). rewrite Hread, (bounded_back q) by done.
    cbn [mbind result_bind]. rewrite (map_entries_back p q ok) by done.
    cbn [mbind result_bind]. rewrite (proj2 (has_duplicates_false _) Hd). cbn. by f_equal.
Qed.

(** * Common members *)

Definition common_ok (c : Contribution) : Prop := local (co_id c).

Lemma contribution_common_ok kind v path r c :
  contribution_common kind v path = Ok (r, c) → plain v → plain (Some (CObj r)) ∧ common_ok c.
Proof.
  unfold contribution_common. intros H Hv. apply bind_Ok in H as (r' & ->%object_Ok & H).
  apply bind_Ok in H as (u & _ & H). apply bind_Ok in H as (id & Hid & H).
  apply bind_Ok in H as (title & _ & H). apply bind_Ok in H as (description & _ & H). inv_ok.
  split; [done|]. pose proof (plain_field _ "id" Hv) as Hf.
  exact (parsed_ok (Parses := local_id_parses) _ _ _ Hid Hf).
Qed.

Lemma contribution_common_back kind l c path :
  keys_within l (allowed_fields kind) = true →
  assoc "id" l = Some (CStr (co_id c)) → assoc "title" l = CStr <$> co_title c →
  assoc "description" l = CStr <$> co_description c → common_ok c →
  contribution_common kind (Some (CObj (present l))) path = Ok (present l, c).
Proof.
  intros Hk Hid Ht Hd Hc. unfold contribution_common. cbn [object mbind result_bind].
  rewrite only_keys_present by done. cbn [mbind result_bind].
  pose proof (keys_within_NoDup _ _ Hk) as Hnd.
  rewrite field_present, Hid, parsed_back by done. cbn [mbind result_bind].
  rewrite (optional_back contribution_text CStr (λ _, True) _ _ "title" (co_title c)),
    (optional_back contribution_text CStr (λ _, True) _ _ "description" (co_description c)).
  - cbn. by destruct c.
  - by rewrite field_present.
  - by destruct (co_description c).
  - by rewrite field_present.
  - by destruct (co_title c).
Qed.

(** The members a reader of an object has read. *)
Ltac open_binds H := repeat apply bind_Ok in H as (? & ? & H).

(** The same after [contribution_common]. *)
Ltac open_common H Hv :=
  let r := fresh "r" in let c := fresh "c" in let Hc := fresh "Hc" in let Hr := fresh "Hr" in
  apply bind_Ok in H as ([r c] & Hc & H); apply contribution_common_ok in Hc as [Hr Hc];
  [|exact Hv]; cbn [fst snd] in H; open_binds H.

(** What an optional member that was read satisfies. *)
Ltac optional_fact :=
  match goal with
  | Hr : plain (Some (CObj ?r)), H : optional ?p ?r _ _ = Ok ?o |- from_option _ _ ?o =>
      exact (optional_ok p _ _ _ _ _ _ Hr H)
  end.

(** Enters the reader of a contribution on an object that is written out. *)
Ltac enter_common c :=
  rewrite (contribution_common_back _ _ c) by (reflexivity || (vm_compute; reflexivity) || eassumption);
  cbn [mbind result_bind fst snd].

Ltac read_member := unfold description_member, id_member, title_member; read_field.

(** Reads back the optional member [key]. *)
Ltac back_optional p key o :=
  rewrite (optional_back p _ _ _ _ key o) by (first [by read_field | done]);
  cbn [mbind result_bind].

(** * Roles, prompts, agents, task types *)

Definition role_ok (r : RoleContribution) : Prop :=
  common_ok (ro_common r) ∧ from_option references_ok True (ro_capabilities r) ∧
  from_option descriptive_ok True (ro_responsibilities r).

#[export] Instance role_parses : Parses role_contribution role_json role_ok.
Proof.
  split.
  - intros v path a H Hv. open_common H Hv. inv_ok. split; [done|]. split; optional_fact.
  - intros [c caps duties] path (Hc & Hcaps & Hd). unfold role_contribution, role_json. cbn in *.
    enter_common c. back_optional (referenceList "capability") "capabilities" caps.
    by back_optional descriptiveList "responsibilities" duties.
Qed.

Definition prompt_ok (p : PromptContribution) : Prop :=
  common_ok (pm_common p) ∧ from_option (λ s, s ≠ "") True (pm_text p).

#[export] Instance prompt_parses : Parses prompt_contribution prompt_json prompt_ok.
Proof.
  split.
  - intros v path a H Hv. open_common H Hv. inv_ok. split; [done|]. optional_fact.
  - intros [c body] path [Hc Hb]. unfold prompt_contribution, prompt_json. cbn in *.
    enter_common c. by back_optional nonEmptyString "text" body.
Qed.

Definition agent_ok (a : AgentContribution) : Prop :=
  common_ok (ag_common a) ∧ from_option local True (ag_role a) ∧
  from_option references_ok True (ag_prompts a) ∧ from_option references_ok True (ag_knowledge a) ∧
  from_option references_ok True (ag_capabilities a).

#[export] Instance agent_parses : Parses agent_contribution agent_json agent_ok.
Proof.
  split.
  - intros v path a H Hv. open_common H Hv. inv_ok. split; [done|]. repeat split; optional_fact.
  - intros [c role texts known caps] path (Hc & Hr & Ht & Hk & Hcaps).
    unfold agent_contribution, agent_json. cbn in *. enter_common c.
    back_optional local_id "role" role. back_optional (referenceList "prompt") "prompts" texts.
    back_optional (referenceList "knowledge") "knowledge" known.
    by back_optional (referenceList "capability") "capabilities" caps.
Qed.

#[export] Instance task_type_parses : Parses task_type_contribution contribution_json common_ok.
Proof.
  split.
  - intros v path a H Hv. open_common H Hv. by inv_ok.
  - intros c path Hc. unfold task_type_contribution, contribution_json. by enter_common c.
Qed.

(** * Capabilities *)

Definition operation_ok (o : CapabilityOperation) : Prop :=
  (String.length (op_operation o) <=? maximumOperationNameLength) &&
  is_operation_name (op_operation o) = true.

#[export] Instance operation_parses : Parses capability_operation operation_json operation_ok.
Proof.
  unfold capability_operation, operation_ok. split.
  - intros v path a H Hv. apply bind_Ok in H as (r & ->%object_Ok & H).
    apply bind_Ok in H as (u & _ & H). apply bind_Ok in H as (operation & Ho & H).
    assert (op_operation a = operation) as ->.
    { repeat case_match; by inv_ok. }
    exact (parsed_ok _ _ _ Ho (plain_field _ _ Hv)).
  - intros [operation m] path Ho. cbn in *. unfold operation_json.
    rewrite keys_present; [|reflexivity|by repeat constructor]. cbn [mbind result_bind].
    read_field. cbn [op_operation]. rewrite (parsed_back (Parses := matching_parses _ _ _)) by done. by destruct m.
Qed.

(** Operations with different names, in their order. *)
Definition operations_ok : list CapabilityOperation → Prop :=
  keyed_list maximumCapabilityOperations operation_ok op_operation.

#[export] Instance operations_parses :
  Parses capability_operations (λ l, CArr (operation_json <$> l)) operations_ok.
Proof.
  exact (keyed_parses capability_operation operation_json operation_ok op_operation _ _ _ _ _
    (λ _ _, eq_refl)).
Qed.

Definition capability_ok (k : CapabilityContribution) : Prop :=
  common_ok (ca_common k) ∧ from_option (λ x, operations_ok x.1) True (ca_contract k).

Lemma requirement_back r path :
  capability_requirement (Some (CStr (requirement_name r))) path = Ok r.
Proof. by destruct r. Qed.

#[export] Instance requirement_parses :
  Parses capability_requirement (λ r, CStr (requirement_name r)) (λ _, True).
Proof. split; [done|]. intros r path _. apply requirement_back. Qed.

#[export] Instance capability_parses : Parses capability_contribution capability_json capability_ok.
Proof.
  unfold capability_contribution, capabilityContract, declared_operations. split.
  - intros v path a H Hv. open_common H Hv. inv_ok. split; [done|]. cbn.
    match goal with H : match field _ _ with _ => _ end = Ok _ |- _ => rename H into Ho end.
    pose proof (plain_field _ "operations" Hr) as Hf.
    destruct (field "operations" r) as [w|]; inv_ok; [|done].
    by eapply (parsed_ok (Parses := operations_parses)).
  - intros [c [[l req]|]] path [Hc Hl]; unfold capability_json; cbn in *; enter_common c.
    + back_optional capability_requirement "requirement" (Some req). read_field. cbn.
      by rewrite (parsed_back (Parses := operations_parses)).
    + back_optional capability_requirement "requirement" (@None CapabilityRequirement).
      by read_field.
Qed.

(** * Knowledge *)

Definition schema_field_ok (f : KnowledgeSchemaField) : Prop :=
  local (kf_field f) ∧ knowledge_text_ok (kf_description f).

#[export] Instance schema_field_parses : Parses schema_field schema_field_json schema_field_ok.
Proof.
  unfold schema_field. split.
  - intros v path a H Hv. apply bind_Ok in H as (r & ->%object_Ok & H).
    apply bind_Ok in H as (u & _ & H). apply bind_Ok in H as (name & Hn & H).
    apply bind_Ok in H as (d & Hd & H). inv_ok. split.
    + exact (parsed_ok _ _ _ Hn (plain_field _ _ Hv)).
    + exact (parsed_ok _ _ _ Hd (plain_field _ _ Hv)).
  - intros [name d] path [Hn Hd]. cbn in *. unfold schema_field_json.
    rewrite keys_present; [|reflexivity|by repeat constructor]. cbn [mbind result_bind].
    read_field. rewrite (parsed_back (Parses := local_id_parses)) by done. cbn [mbind result_bind].
    by rewrite (parsed_back (Parses := knowledge_text_parses)).
Qed.

Definition knowledge_schema_ok : list KnowledgeSchemaField → Prop :=
  keyed_list maximumKnowledgeSchemaFields schema_field_ok kf_field.

#[export] Instance knowledge_schema_parses :
  Parses knowledgeSchema (λ l, CArr (schema_field_json <$> l)) knowledge_schema_ok.
Proof.
  exact (keyed_parses schema_field schema_field_json schema_field_ok kf_field _ _ _ _ _
    (λ _ _, eq_refl)).
Qed.

Definition seeds_ok : list string → Prop := set_ok maximumKnowledgeSeeds knowledge_text_ok.

(** The same reader without the sort. *)
Definition distinct_seeds (value : option cjson) (path : string) : outcome (list string) :=
  items ← boundedArray maximumKnowledgeSeeds (at_least_one "seed")
            (at_most maximumKnowledgeSeeds "seed entries") value path;
  seeds ← map_entries boundedKnowledgeText path 0 items;
  throw_if (has_duplicates seeds) (failure invalid_contribution path "duplicate seed");;
  Ok seeds.

Lemma bind_assoc {A B C} (m : outcome A) (f : A → outcome B) (g : B → outcome C) :
  ((m ≫= f) ≫= g) = (m ≫= λ a, f a ≫= g).
Proof. by destruct m. Qed.

Lemma result_bind_ext {A B} (m : outcome A) (f g : A → outcome B) :
  (∀ a, f a = g a) → (m ≫= f) = (m ≫= g).
Proof. intros H. destruct m; [apply H|done]. Qed.

(** Two readers that differ in where the sort is. *)
Ltac same_reader :=
  intros; rewrite ?bind_assoc; apply result_bind_ext; intros; rewrite ?bind_assoc;
  apply result_bind_ext; intros; rewrite ?bind_assoc; by apply result_bind_ext.

#[export] Instance seeds_parses : Parses knowledgeSeeds text_array seeds_ok.
Proof.
  apply (sorted_parses distinct_seeds).
  - exact (distinct_parses boundedKnowledgeText knowledge_text_ok _ _ _ _ _ _ (λ _ _, eq_refl)).
  - unfold knowledgeSeeds, distinct_seeds. same_reader.
Qed.

Definition categories_ok : list string → Prop := set_ok maximumKnowledgeRetrievalCategories local.

Definition distinct_categories (value : option cjson) (path : string) : outcome (list string) :=
  items ← boundedArray maximumKnowledgeRetrievalCategories (at_least_one "category")
            (at_most maximumKnowledgeRetrievalCategories "category entries") value path;
  parsed ← map_entries local_id path 0 items;
  throw_if (has_duplicates parsed) (failure invalid_contribution path "duplicate category");;
  Ok parsed.

#[export] Instance categories_parses : Parses retrieval_categories text_array categories_ok.
Proof.
  apply (sorted_parses distinct_categories).
  - exact (distinct_parses local_id local _ _ _ _ _ _ (λ _ _, eq_refl)).
  - unfold retrieval_categories, distinct_categories. same_reader.
Qed.

Definition results_ok (n : number) : Prop :=
  is_integer n && negb (num_lt n 1) && negb (num_gt n maximumKnowledgeRetrievalResults) = true.

#[export] Instance results_parses : Parses retrieval_results CNum results_ok.
Proof.
  split.
  - intros v path a H _. unfold retrieval_results in H. destruct v as [[]|]; try done.
    by case_match; inv_ok.
  - intros a path H. unfold retrieval_results, results_ok in *. by rewrite H.
Qed.

(** Guidance with at least one member. *)
Definition retrieval_ok (r : KnowledgeRetrievalGuidance) : Prop :=
  from_option results_ok True (kr_maxResults r) ∧ from_option knowledge_text_ok True (kr_hint r) ∧
  from_option categories_ok True (kr_categories r) ∧
  (is_Some (kr_maxResults r) ∨ is_Some (kr_hint r) ∨ is_Some (kr_categories r)).

Lemma optional_present {A} (p : option cjson → string → outcome A) r path key o v :
  optional p r path key = Ok o → field key r = Some v → is_Some o.
Proof. unfold optional. intros H Hf. rewrite Hf in H. inv_ok. by eexists. Qed.

Lemma field_Some key v (r : record) : (key, v) ∈ r → is_Some (field key r).
Proof.
  unfold field, ActionSimulation.get_member. intros H. destruct (List.find _ r) eqn:Hf; [by eexists|].
  pose proof (List.find_none _ _ Hf _ (proj1 (list_elem_of_In _ _) H)) as Hn. cbn in Hn.
  by rewrite bool_decide_eq_true_2 in Hn.
Qed.

#[export] Instance retrieval_parses : Parses knowledgeRetrieval retrieval_json retrieval_ok.
Proof.
  unfold knowledgeRetrieval. split.
  - intros v path a H Hv. apply bind_Ok in H as (r & ->%object_Ok & H).
    apply bind_Ok in H as (u & Hk%only_keys_Ok & H). rewrite throw_if_bind_Ok in H.
    destruct H as [Hn H]. apply bind_Ok in H as (m & Hm & H). apply bind_Ok in H as (l & Hl & H).
    apply bind_Ok in H as (h & Hh & H). inv_ok. rename Hv into Hr.
    split; [optional_fact|]. split; [optional_fact|]. split; [optional_fact|]. cbn.
    destruct r as [|[key w] r]; [done|]. apply Forall_cons in Hk as [Hk _].
    destruct (field_Some key w ((key, w) :: r)) as [x Hx]; [by left|].
    cbn in Hk. set_unfold. destruct Hk as [->|[->|[->|[]]]].
    + left. by eapply optional_present.
    + right. left. by eapply optional_present.
    + right. right. by eapply optional_present.
  - intros [m h l] path (Hm & Hh & Hl & Hany). cbn in *. unfold retrieval_json.
    rewrite only_keys_present by reflexivity. cbn [mbind result_bind kr_categories kr_hint kr_maxResults].
    assert ((length (present [("categories", text_array <$> l); ("hint", CStr <$> h);
      ("maxResults", CNum <$> m)]) =? 0) = false) as ->.
    { destruct m, h, l; try done. by destruct Hany as [[]|[[]|[]]]. }
    cbn [throw_if mbind result_bind]. back_optional retrieval_results "maxResults" m.
    back_optional retrieval_categories "categories" l.
    by back_optional boundedKnowledgeText "hint" h.
Qed.

Definition knowledge_ok (k : KnowledgeContribution) : Prop :=
  common_ok (kn_common k) ∧ from_option local True (kn_category k) ∧
  from_option knowledge_schema_ok True (kn_schema k) ∧ from_option seeds_ok True (kn_seeds k) ∧
  from_option retrieval_ok True (kn_retrieval k).

#[export] Instance knowledge_parses : Parses knowledge_contribution knowledge_json knowledge_ok.
Proof.
  split.
  - intros v path a H Hv. open_common H Hv. inv_ok. split; [done|]. repeat split; optional_fact.
  - intros [c category schema seeds retrieval] path (Hc & Hcat & Hsc & Hse & Hr).
    unfold knowledge_contribution, knowledge_json. cbn in *. enter_common c.
    back_optional local_id "category" category. back_optional knowledgeSchema "schema" schema.
    back_optional knowledgeSeeds "seeds" seeds.
    by back_optional knowledgeRetrieval "retrieval" retrieval.
Qed.

(** * Policies *)

Definition policy_operations_ok : list string → Prop :=
  distinct_list maximumPolicyStageOperations
    (λ s, (String.length s <=? maximumPolicyOperationLength) && is_policy_operation s = true).

#[export] Instance policyOperations_parses :
  Parses policyOperations text_array policy_operations_ok.
Proof.
  exact (distinct_parses _ _ _ _ _ _ _ (matching_parses _ _ _) (λ _ _, eq_refl)).
Qed.

(** A clause says something, and an independent approval is an approval. *)
Definition clause_ok (c : PolicyStageClause) : Prop :=
  local (cl_stage c) ∧
  cl_requiresIndependentApproval c && negb (cl_requiresApproval c) = false ∧
  from_option references_ok True (cl_requiresDifferentAgentFrom c) ∧
  from_option policy_operations_ok True (cl_operations c) ∧
  negb (cl_requiresApproval c) && negb (cl_requiresIndependentApproval c) &&
    bool_decide (cl_requiresDifferentAgentFrom c = None) && bool_decide (cl_operations c = None) =
    false.

Lemma stage_clause_ok seen v path a :
  stage_clause seen v path = Ok a → plain v → clause_ok a ∧ cl_stage a ∉ seen.
Proof.
  unfold stage_clause. intros H Hv. apply bind_Ok in H as (r & ->%object_Ok & H).
  apply bind_Ok in H as (u & _ & H). apply bind_Ok in H as (stage & Hs & H).
  rewrite throw_if_bind_Ok in H. destruct H as [Hseen%includes_false H].
  rewrite throw_if_bind_Ok in H. destruct H as [_ H].
  rewrite throw_if_bind_Ok in H. destruct H as [_ H].
  rewrite throw_if_bind_Ok in H. destruct H as [Hi H].
  apply bind_Ok in H as (d & Hd & H). apply bind_Ok in H as (o & Ho & H).
  rewrite throw_if_bind_Ok in H. destruct H as [He [= <-]]. rename Hv into Hr.
  split; [|done]. split; [exact (parsed_ok _ _ _ Hs (plain_field _ _ Hr))|].
  split; [done|]. split; [optional_fact|]. split; [optional_fact|done].
Qed.

Lemma stage_clause_back seen c path :
  clause_ok c → cl_stage c ∉ seen → stage_clause seen (Some (clause_json c)) path = Ok c.
Proof.
  destruct c as [stage approval independent different operations]. unfold clause_ok.
  cbn [cl_stage cl_requiresApproval cl_requiresIndependentApproval cl_requiresDifferentAgentFrom
    cl_operations]. intros (Hs & Hi & Hd & Ho & He) Hseen.
  unfold stage_clause, clause_json, bad_flag.
  cbn [object mbind result_bind cl_stage cl_requiresApproval cl_requiresIndependentApproval
    cl_requiresDifferentAgentFrom cl_operations].
  rewrite only_keys_present by reflexivity. cbn [mbind result_bind].
  read_field. rewrite (parsed_back (Parses := local_id_parses)) by done. cbn [mbind result_bind].
  rewrite (proj2 (includes_false _ _) Hseen). cbn [throw_if mbind result_bind].
  assert (∀ b, (match flag b with None => false | v => negb (is_true v) end) = false) as Hbad
    by (by intros []).
  assert (∀ b, is_true (flag b) = b) as Hflag by (by intros []).
  rewrite !Hbad, !Hflag, Hi. cbn [throw_if mbind result_bind].
  back_optional (referenceList "stage") "requiresDifferentAgentFrom" different.
  back_optional policyOperations "operations" operations. by rewrite He.
Qed.

Lemma stage_clauses_ok seen path i items l :
  stage_clauses seen path i items = Ok l → Forall (λ v, plain (Some v)) items →
  Forall clause_ok l ∧ NoDup (cl_stage <$> l) ∧ (∀ c, c ∈ l → cl_stage c ∉ seen) ∧
  length l = length items.
Proof.
  intros H Hi. revert seen i l H. induction Hi as [|v items Hv Hi IH]; intros seen i l H;
    cbn [stage_clauses] in H.
  - inv_ok. repeat split; [constructor..|by intros ? ?%elem_of_nil].
  - apply bind_Ok in H as (c & Hc & H). apply bind_Ok in H as (cs & Hcs & H). inv_ok.
    destruct (stage_clause_ok _ _ _ _ Hc Hv) as [Hok Hseen].
    destruct (IH _ _ _ Hcs) as (Hl & Hd & Hout & Hlen). repeat split.
    + by constructor.
    + cbn. constructor; [|done]. intros (d & Heq & Hd')%list_elem_of_fmap.
      apply (Hout d Hd'). rewrite <- Heq. by left.
    + intros d [->|Hd']%elem_of_cons; [done|]. specialize (Hout d Hd'). set_solver.
    + cbn. by rewrite Hlen.
Qed.

Lemma stage_clauses_back seen path i l :
  Forall clause_ok l → NoDup (cl_stage <$> l) → (∀ c, c ∈ l → cl_stage c ∉ seen) →
  stage_clauses seen path i (clause_json <$> l) = Ok l.
Proof.
  intros Hl. revert seen i. induction Hl as [|c l Hc Hl IH]; intros seen i Hd Hout; [done|].
  rewrite fmap_cons in Hd. apply NoDup_cons in Hd as [Hn Hd]. rewrite fmap_cons. cbn [stage_clauses].
  rewrite stage_clause_back; [|done|apply Hout; by left]. cbn [mbind result_bind].
  rewrite IH; [done|done|]. intros d Hd' [Heq|Hin]%elem_of_cons.
  - apply Hn. rewrite <- Heq. apply list_elem_of_fmap. by exists d.
  - apply (Hout d); [by right|done].
Qed.

Definition clauses_ok (l : list PolicyStageClause) : Prop :=
  l ≠ [] ∧ Forall clause_ok l ∧ NoDup (cl_stage <$> l).

#[export] Instance policy_stages_parses :
  Parses policy_stages (λ l, CArr (clause_json <$> l)) clauses_ok.
Proof.
  unfold policy_stages. split.
  - intros v path l H Hv. apply bind_Ok in H as (items & ->%array_Ok & H).
    rewrite throw_if_bind_Ok in H. destruct H as [Hn%Nat.eqb_neq H].
    destruct (stage_clauses_ok _ _ _ _ _ H (plain_items _ Hv)) as (Hl & Hd & _ & Hlen).
    split; [|done]. intros ->. by rewrite <- Hlen in Hn.
  - intros l path (Hne & Hl & Hd). cbn [array mbind result_bind]. rewrite length_fmap.
    destruct l as [|c l]; [done|]. cbn [length Nat.eqb throw_if mbind result_bind].
    apply stage_clauses_back; [done..|]. by intros ? ? ?%elem_of_nil.
Qed.

(** A policy with a target is enforced or has clauses. *)
Definition typed_policy_ok (t : TypedPolicy) : Prop :=
  local (tp_workflow t) ∧ (tp_enforced t = true ∨ is_Some (tp_stages t)) ∧
  from_option clauses_ok True (tp_stages t).

Definition policy_ok (p : PolicyContribution) : Prop :=
  common_ok (po_common p) ∧ from_option typed_policy_ok True (po_typed p).

Lemma policyContribution_ok r path t :
  policyContribution r path = Ok t → plain (Some (CObj r)) → from_option typed_policy_ok True t.
Proof.
  unfold policyContribution. intros H Hr. destruct (field "workflow" r) as [v|] eqn:Hw.
  2: { rewrite throw_if_bind_Ok in H. by destruct H as [_ [= <-]]. }
  apply bind_Ok in H as (w & Hl & H). rewrite throw_if_bind_Ok in H. destruct H as [_ H].
  rewrite throw_if_bind_Ok in H. destruct H as [Hb H]. apply bind_Ok in H as (l & Hs & H). inv_ok.
  cbn. split; [|split; [|cbn; optional_fact]].
  - pose proof (plain_field _ "workflow" Hr) as Hf. rewrite Hw in Hf. exact (parsed_ok _ _ _ Hl Hf).
  - cbn. apply andb_false_iff in Hb as [Hb|Hb]; apply bool_decide_eq_false in Hb.
    + left. by rewrite bool_decide_eq_false_2.
    + right. destruct (field "stages" r) as [x|] eqn:Hx; [|done]. by eapply optional_present.
Qed.

Lemma policy_back p path : policy_ok p → policy_contribution (Some (policy_json p)) path = Ok p.
Proof.
  intros [Hc Ht]. destruct p as [c [[workflow enforced stages]|]]; cbn in Hc, Ht.
  - destruct Ht as (Hw & Hor & Hs). cbn in Hw, Hor, Hs.
    unfold policy_contribution, policy_json, enforcement_json.
    cbn [po_common po_typed tp_workflow tp_enforced tp_stages mbind option_bind fmap option_fmap option_map].
    enter_common c. unfold policyContribution. read_member.
    rewrite (parsed_back (Parses := local_id_parses)) by done. cbn [mbind result_bind].
    assert ((match (if enforced then Some (CStr "enforced") else None) with
             | None => false
             | Some (CStr s) => negb (bool_decide (s = "enforced"))
             | Some _ => true
             end) = false) as -> by (by destruct enforced).
    cbn [throw_if mbind result_bind].
    assert (bool_decide ((if enforced then Some (CStr "enforced") else None) = None) &&
      bool_decide ((λ l, CArr (clause_json <$> l)) <$> stages = None) = false) as ->.
    { destruct enforced; [done|]. destruct stages; [done|]. by destruct Hor as [|[]]. }
    cbn [throw_if mbind result_bind]. back_optional policy_stages "stages" stages.
    by destruct enforced.
  - unfold policy_contribution, policy_json. cbn [po_common po_typed mbind option_bind fmap option_fmap option_map].
    enter_common c. unfold policyContribution. by read_member.
Qed.

#[export] Instance policy_parses : Parses policy_contribution policy_json policy_ok.
Proof.
  split; [|intros; by apply policy_back].
  intros v path a H Hv. unfold policy_contribution in H.
  apply bind_Ok in H as ([r c] & Hc & H). apply contribution_common_ok in Hc as [Hr Hc]; [|done].
  apply bind_Ok in H as (t & Ht & H). inv_ok. split; [done|]. by eapply policyContribution_ok.
Qed.

(** * Artifact and evidence types *)

Definition media_ok : list string → Prop :=
  set_ok maximumArtifactMediaTypes
    (λ s, (String.length s <=? maximumMediaTypeLength) && is_media_type s = true).

#[export] Instance media_parses : Parses media_types text_array media_ok.
Proof.
  unfold media_types. split.
  - intros v path l H Hv. apply bind_Ok in H as (items & ->%array_Ok & H).
    rewrite throw_if_bind_Ok in H. destruct H as [Hn H].
    apply orb_false_iff in Hn as [Hn1%Nat.eqb_neq Hn2%Nat.ltb_ge].
    apply bind_Ok in H as (parsed & Hp & [Hd ->]%sortedUnique_Ok).
    destruct (map_entries_ok _ CStr _ _ _ _ _ (plain_items _ Hv) Hp) as [Hl Hlen].
    apply set_sorted. split; [|done]. unfold sized. rewrite Hlen. lia.
  - intros l path ([Hs1 Hs2] & Hl & Hset). cbn [text_array array mbind result_bind].
    rewrite length_fmap, (proj2 (Nat.eqb_neq _ _)), (proj2 (Nat.ltb_ge _ _)) by lia.
    cbn [orb throw_if mbind result_bind].
    rewrite (map_entries_back _ CStr _ (Parses0 := matching_parses _ _ _)) by done.
    cbn [mbind result_bind]. by apply sortedUnique_set.
Qed.

Definition artifact_ok (a : ArtifactTypeContribution) : Prop :=
  common_ok (ar_common a) ∧ from_option media_ok True (ar_mediaTypes a) ∧
  from_option (λ n, within 1 maximumArtifactTypeBytes n = true) True (ar_maximumBytes a) ∧
  from_option contract_ok True (ar_contentSchema a).

#[export] Instance artifact_parses : Parses artifact_contribution artifact_json artifact_ok.
Proof.
  split.
  - intros v path a H Hv. open_common H Hv. inv_ok. split; [done|]. repeat split; optional_fact.
  - intros [c media bytes schema] path (Hc & Hm & Hb & Hs).
    unfold artifact_contribution, artifact_json. cbn in *. enter_common c.
    back_optional media_types "mediaTypes" media.
    back_optional (boundedInteger 1 maximumArtifactTypeBytes) "maximumBytes" bytes.
    by back_optional contractSchema "contentSchema" schema.
Qed.

Definition evidence_ok (e : EvidenceTypeContribution) : Prop :=
  common_ok (ev_common e) ∧ from_option local True (ev_subject e) ∧
  from_option contract_ok True (ev_payloadSchema e).

#[export] Instance evidence_parses : Parses evidence_contribution evidence_json evidence_ok.
Proof.
  split.
  - intros v path a H Hv. open_common H Hv. inv_ok. split; [done|]. repeat split; optional_fact.
  - intros [c subject schema] path (Hc & Hs & Hp). unfold evidence_contribution, evidence_json.
    cbn in *. enter_common c. back_optional local_id "subject" subject.
    by back_optional contractSchema "payloadSchema" schema.
Qed.

(** * Validators *)

Definition adapter_id_ok (s : string) : Prop :=
  (String.length s <=? maximumValidatorAdapterIdLength) && is_adapter_id s = true.

Lemma adapter_ok v path a :
  validator_adapter v path = Ok a → plain v → adapter_id_ok a.1 ∧ is_version a.2 = true.
Proof.
  unfold validator_adapter. intros H Hv. apply bind_Ok in H as (r & ->%object_Ok & H).
  apply bind_Ok in H as (u & _ & H). apply bind_Ok in H as (id & Hid & H).
  apply bind_Ok in H as (version & Hver & H). inv_ok. split.
  - exact (parsed_ok _ _ _ Hid (plain_field _ _ Hv)).
  - exact (parsed_ok _ _ _ Hver (plain_field _ _ Hv)).
Qed.

Lemma adapter_back v path :
  adapter_id_ok (tv_adapter_id v) → is_version (tv_adapter_version v) = true →
  validator_adapter (Some (adapter_json v)) path = Ok (tv_adapter_id v, tv_adapter_version v).
Proof.
  intros Hi Hv. unfold validator_adapter, adapter_json. cbn [object mbind result_bind].
  rewrite only_keys_present by reflexivity. cbn [mbind result_bind]. read_field.
  by rewrite !(parsed_back (Parses := matching_parses _ _ _)).
Qed.

#[export] Instance input_parses : Parses validator_input input_json (λ i, local (in_id i)).
Proof.
  unfold validator_input. split.
  - intros v path a H Hv. apply bind_Ok in H as (r & ->%object_Ok & H).
    apply bind_Ok in H as (u & _ & H). apply bind_Ok in H as (k & _ & H).
    apply bind_Ok in H as (id & Hid & H). inv_ok. exact (parsed_ok _ _ _ Hid (plain_field _ _ Hv)).
  - intros [k id] path Hid. cbn [in_id] in Hid. unfold input_json. cbn [in_kind in_id object mbind result_bind].
    rewrite keys_present; [|reflexivity|by repeat constructor]. cbn [mbind result_bind]. read_field.
    rewrite (parsed_back (Parses := local_id_parses)) by done. by destruct k.
Qed.

Definition accepts_ok (l : list ValidatorInputReference) : Prop :=
  sized maximumValidatorAccepts l ∧ Forall (λ i, local (in_id i)) l ∧ NoDup (input_key <$> l).

#[export] Instance accepts_parses :
  Parses validator_accepts (λ l, CArr (input_json <$> l)) accepts_ok.
Proof.
  unfold validator_accepts. split.
  - intros v path l H Hv. apply bind_Ok in H as (items & ->%array_Ok & H).
    rewrite throw_if_bind_Ok in H. destruct H as [Hn H].
    apply orb_false_iff in Hn as [Hn1%Nat.eqb_neq Hn2%Nat.ltb_ge].
    apply bind_Ok in H as (parsed & Hp & H). rewrite throw_if_bind_Ok, has_duplicates_false in H.
    destruct H as [Hd [= ->]].
    destruct (map_entries_ok validator_input _ _ _ _ _ _ (plain_items _ Hv) Hp) as [Hl Hlen].
    split; [|done]. unfold sized. rewrite Hlen. lia.
  - intros l path ([Hs1 Hs2] & Hl & Hd). cbn [array mbind result_bind].
    rewrite length_fmap, (proj2 (Nat.eqb_neq _ _)), (proj2 (Nat.ltb_ge _ _)) by lia.
    cbn [orb throw_if mbind result_bind]. rewrite (map_entries_back validator_input _ _) by done.
    cbn [mbind result_bind]. by rewrite (proj2 (has_duplicates_false _) Hd).
Qed.

Definition typed_validator_ok (v : TypedValidator) : Prop :=
  adapter_id_ok (tv_adapter_id v) ∧ is_version (tv_adapter_version v) = true ∧
  accepts_ok (tv_accepts v) ∧ contract_ok (tv_inputSchema v) ∧ local (tv_produces v) ∧
  contract_ok (tv_outputSchema v) ∧ within 1 maximumValidatorTimeoutMs (tv_timeoutMs v) = true ∧
  within 1 maximumValidatorInputBytes (tv_maxInputBytes v) = true ∧
  within 1 maximumValidatorOutputBytes (tv_maxOutputBytes v) = true.

Definition validator_ok (x : ValidatorContribution) : Prop :=
  common_ok (va_common x) ∧ from_option typed_validator_ok True (va_typed x).

Lemma validatorContract_ok r path t :
  validatorContract r path = Ok t → plain (Some (CObj r)) → from_option typed_validator_ok True t.
Proof.
  unfold validatorContract. intros H Hr. destruct (field "adapter" r) as [w|] eqn:Hw.
  2: { case_match; by inv_ok. }
  apply bind_Ok in H as (u & _ & H). apply bind_Ok in H as (adapter & Ha & H).
  apply bind_Ok in H as (accepts & Hacc & H). rewrite throw_if_bind_Ok in H. destruct H as [_ H].
  apply bind_Ok in H as (i & Hi & H). apply bind_Ok in H as (p & Hp & H).
  apply bind_Ok in H as (o & Ho & H). apply bind_Ok in H as (t1 & H1 & H).
  apply bind_Ok in H as (t2 & H2 & H). apply bind_Ok in H as (t3 & H3 & H). inv_ok.
  pose proof (plain_field _ "adapter" Hr) as Hf. rewrite Hw in Hf.
  destruct (adapter_ok _ _ _ Ha Hf) as [Ha1 Ha2]. cbn.
  split; [done|]. split; [done|].
  split; [exact (parsed_ok _ _ _ Hacc (plain_field _ _ Hr))|].
  split; [exact (parsed_ok _ _ _ Hi (plain_field _ _ Hr))|].
  split; [exact (parsed_ok _ _ _ Hp (plain_field _ _ Hr))|].
  split; [exact (parsed_ok _ _ _ Ho (plain_field _ _ Hr))|].
  split; [exact (parsed_ok _ _ _ H1 (plain_field _ _ Hr))|].
  split; [exact (parsed_ok _ _ _ H2 (plain_field _ _ Hr))|].
  exact (parsed_ok _ _ _ H3 (plain_field _ _ Hr)).
Qed.

Lemma has_keys_present l required path code :
  bool_decide (NoDup l.*1) = true → Forall (λ key, is_Some (assoc key l)) required →
  has_keys (present l) required path code = Ok tt.
Proof.
  intros Hl Hr. apply has_keys_Ok. eapply Forall_impl; [exact Hr|].
  intros key [v Hv]. rewrite field_written, Hv by done. done.
Qed.

Lemma typed_validator_back c v path :
  typed_validator_ok v →
  match validator_json {| va_common := c; va_typed := Some v |} with
  | CObj r => validatorContract r path = Ok (Some v)
  | _ => False
  end.
Proof.
  destruct v as [aid aver accepts inp produces out t1 t2 t3].
  intros (Hid & Hver & Hacc & Hi & Hp & Ho & H1 & H2 & H3). unfold validator_json.
  cbn [va_common va_typed fmap option_fmap option_map]. unfold validatorContract.
  read_member. rewrite has_keys_present; [|reflexivity|by repeat constructor].
  cbn [mbind result_bind]. rewrite adapter_back by done. cbn [mbind result_bind].
  rewrite (parsed_back (Parses := accepts_parses)) by done. cbn [mbind result_bind].
  rewrite bool_decide_eq_true_2 by done. cbn [negb throw_if mbind result_bind].
  rewrite (parsed_back (Parses := contractSchema_parses)) by done. cbn [mbind result_bind].
  rewrite (parsed_back (Parses := local_id_parses)) by done. cbn [mbind result_bind].
  rewrite (parsed_back (Parses := contractSchema_parses)) by done. cbn [mbind result_bind].
  by rewrite !(parsed_back (Parses := boundedInteger_parses _ _)).
Qed.

#[export] Instance validator_parses : Parses validator_contribution validator_json validator_ok.
Proof.
  split.
  - intros v path a H Hv. unfold validator_contribution in H.
    apply bind_Ok in H as ([r c] & Hc & H). apply contribution_common_ok in Hc as [Hr Hc]; [|done].
    apply bind_Ok in H as (t & Ht & H). inv_ok. split; [done|]. by eapply validatorContract_ok.
  - intros [c [v|]] path [Hc Hv]; unfold validator_contribution.
    + pose proof (typed_validator_back c v path Hv) as Hb. unfold validator_json in *.
      cbn [va_common va_typed] in *. enter_common c. by rewrite Hb.
    + unfold validator_json. cbn [va_common va_typed fmap option_fmap option_map].
      enter_common c. unfold validatorContract. read_member. cbn [validatorTypedMembers List.find].
      by read_member.
Qed.

(** * Workflows *)

Definition stage_ok (s : WorkflowStage) : Prop :=
  local (st_id s) ∧ local (st_role s) ∧ from_option descriptive_ok True (st_checks s).

#[export] Instance stage_parses : Parses workflow_stage stage_json stage_ok.
Proof.
  unfold workflow_stage. split.
  - intros v path a H Hr. apply bind_Ok in H as (r & ->%object_Ok & H).
    apply bind_Ok in H as (u1 & _ & H). apply bind_Ok in H as (u2 & _ & H).
    apply bind_Ok in H as (id & Hid & H). apply bind_Ok in H as (role & Hrole & H).
    apply bind_Ok in H as (t & _ & H). apply bind_Ok in H as (o & _ & H).
    apply bind_Ok in H as (l & Hl & H). inv_ok.
    split; [exact (parsed_ok _ _ _ Hid (plain_field _ _ Hr))|].
    split; [exact (parsed_ok _ _ _ Hrole (plain_field _ _ Hr))|]. cbn. optional_fact.
  - intros [id role t o l] path (Hid & Hrole & Hl). cbn [st_id st_role st_checks] in *.
    unfold stage_json. cbn [st_id st_role st_title st_objective st_checks object mbind result_bind].
    rewrite only_keys_present by reflexivity. cbn [mbind result_bind].
    rewrite has_keys_present; [|reflexivity|by repeat constructor]. cbn [mbind result_bind].
    read_field. rewrite (parsed_back (Parses := local_id_parses)) by done. cbn [mbind result_bind].
    rewrite (parsed_back (Parses := local_id_parses)) by done. cbn [mbind result_bind].
    assert (∀ x : option string, from_option (λ _, True) True x) as Htrue by (by intros []).
    back_optional contribution_text "title" t. back_optional contribution_text "objective" o.
    by back_optional descriptiveList "checks" l.
Qed.

Definition workflow_ok (w : WorkflowContribution) : Prop :=
  common_ok (wf_common w) ∧ local (wf_taskType w) ∧
  from_option references_ok True (wf_additionalTaskTypes w) ∧
  Forall stage_ok (wf_stages w) ∧ NoDup (st_id <$> wf_stages w).

#[export] Instance workflow_parses : Parses workflow_contribution workflow_json workflow_ok.
Proof.
  unfold workflow_contribution. split.
  - intros v path a H Hv. apply bind_Ok in H as ([r c] & Hc & H).
    apply contribution_common_ok in Hc as [Hr Hc]; [|done]. cbn [fst snd] in H.
    apply bind_Ok in H as (items & Hi%array_Ok & H). apply bind_Ok in H as (l & Hl & H).
    rewrite throw_if_bind_Ok, has_duplicates_false in H. destruct H as [Hd H].
    apply bind_Ok in H as (t & Ht & H). apply bind_Ok in H as (o & Ho & H). inv_ok.
    pose proof (plain_field _ "stages" Hr) as Hf. rewrite Hi in Hf.
    destruct (map_entries_ok workflow_stage _ _ _ _ _ _ (plain_items _ Hf) Hl) as [Hok _].
    split; [done|]. split; [exact (parsed_ok _ _ _ Ht (plain_field _ _ Hr))|].
    split; [cbn; optional_fact|done].
  - intros [c t o l] path (Hc & Ht & Ho & Hl & Hd).
    cbn [wf_common wf_taskType wf_additionalTaskTypes wf_stages] in *. unfold workflow_json.
    cbn [wf_common wf_taskType wf_additionalTaskTypes wf_stages]. enter_common c. read_member.
    cbn [array mbind result_bind]. rewrite (map_entries_back workflow_stage _ _) by done.
    cbn [mbind result_bind]. rewrite (proj2 (has_duplicates_false _) Hd).
    cbn [throw_if mbind result_bind].
    rewrite (parsed_back (Parses := local_id_parses)) by done. cbn [mbind result_bind].
    by back_optional (referenceList "task type") "additionalTaskTypes" o.
Qed.

End ContributionLaws.
