(* ===== verification/ManifestLaws.v ===== *)
(** The whole Domain Pack manifest: its sections, the references between them,
    and what [validateDomainPackManifest] returns.  [contributions_ok] says what
    each entry is, [linked] that every reference resolves; a manifest that meets
    both is validated as itself. *)
From S2P Require Import Prelude Errors Json ActionModel PolicyModel Text Members PackSchema PackManifest PackCanonical PackLaws SchemaLaws ContributionLaws.
Import Canonical Policy Text Members PackSchema PackManifest PackCanonical PackLaws SchemaLaws ContributionLaws.

Module ManifestLaws.

(** * Sections *)

Definition core_ok (c : CoreContractCompatibility) : Prop :=
  negb (is_safe_integer (minInclusive c)) || num_lt (minInclusive c) 0 ||
  negb (is_safe_integer (maxExclusive c)) || negb (number_ltb (minInclusive c) (maxExclusive c)) =
  false.

Lemma core_ok_parsed v c : parseCoreContractCompatibility v = Ok c → core_ok c.
Proof.
  unfold parseCoreContractCompatibility. intros H. apply bind_Ok in H as (r & _ & H).
  apply bind_Ok in H as (u & _ & H). repeat case_match; try done.
  rewrite throw_if_bind_Ok in H. by destruct H as [Hc [= <-]].
Qed.

Lemma core_back c : core_ok c → parseCoreContractCompatibility (Some (core_json c)) = Ok c.
Proof.
  intros Hc. unfold parseCoreContractCompatibility, core_json. cbn [object mbind result_bind].
  rewrite keys_present; [|reflexivity|by repeat constructor]. cbn [mbind result_bind]. read_field.
  unfold core_ok in Hc. rewrite Hc. by destruct c.
Qed.

Definition dependency_ok (d : DomainPackDependency) : Prop :=
  is_pack_id (dep_id d) = true ∧ is_version (dep_version d) = true ∧
  is_digest (dep_manifestDigest d) = true.

#[export] Instance dependency_parses : Parses dependency dependency_json dependency_ok.
Proof.
  unfold dependency. split.
  - intros v path d H Hv. apply bind_Ok in H as (r & ->%object_Ok & H).
    apply bind_Ok in H as (u & _ & H).
    destruct (parsed_dependency r) as [d'|[]] eqn:Hd; try done. injection H as ->.
    unfold parsed_dependency in Hd. apply bind_Ok in Hd as (a & Ha & Hd).
    apply bind_Ok in Hd as (b & Hb & Hd). apply bind_Ok in Hd as (c & Hc & Hd). inv_ok.
    split; [exact (parsed_ok (Parses := matching_parses _ _ _) _ _ _ Ha (plain_field _ _ Hv))|].
    split; [exact (parsed_ok (Parses := matching_parses _ _ _) _ _ _ Hb (plain_field _ _ Hv))|].
    exact (parsed_ok (Parses := matching_parses _ _ _) _ _ _ Hc (plain_field _ _ Hv)).
  - intros [a b c] path (Ha & Hb & Hc). cbn [dep_id dep_version dep_manifestDigest] in *.
    unfold dependency_json. cbn [dep_id dep_version dep_manifestDigest object mbind result_bind].
    rewrite keys_present; [|reflexivity|by repeat constructor]. cbn [mbind result_bind].
    unfold parsed_dependency, parseDomainPackId, parseDomainPackVersion, parseManifestDigest, parse_digest.
    read_field. by rewrite !(parsed_back (Parses := matching_parses _ _ _)).
Qed.

(** Entries with different identifiers. *)
Definition entries_ok {A} (ok : A → Prop) (id_of : A → string) (l : list A) : Prop :=
  Forall ok l ∧ NoDup (id_of <$> l).

Section sections.
  Context {A} (parse : option cjson → string → outcome A) (q : A → cjson) (ok : A → Prop).
  Context (kind : ContributionKind) (id_of : A → string) `{!Parses parse q ok}.

Lemma section_ok source l :
  section kind parse id_of source = Ok l → plain (Some (CObj source)) → entries_ok ok id_of l.
Proof.
  unfold section. intros H Hs. apply bind_Ok in H as (items & Hi%array_Ok & H).
  apply bind_Ok in H as (parsed & Hp & H). rewrite throw_if_bind_Ok, has_duplicates_false in H.
  destruct H as [Hd [= ->]]. pose proof (plain_field _ (kind_name kind) Hs) as Hf. rewrite Hi in Hf.
  destruct (map_entries_ok parse q ok _ _ _ _ (plain_items _ Hf) Hp) as [Hl _]. by split.
Qed.

Lemma section_back source l :
  field (kind_name kind) source = Some (CArr (q <$> l)) → entries_ok ok id_of l →
  section kind parse id_of source = Ok l.
Proof.
  unfold section. intros -> [Hl Hd]. cbn [array mbind result_bind].
  rewrite (map_entries_back parse q ok) by done. cbn [mbind result_bind].
  by rewrite (proj2 (has_duplicates_false _) Hd).
Qed.

End sections.

Lemma dependencies_ok v l : dependencies v = Ok l → plain v → entries_ok dependency_ok dep_id l.
Proof.
  unfold dependencies. intros H Hv. apply bind_Ok in H as (items & ->%array_Ok & H).
  apply bind_Ok in H as (parsed & Hp & H). rewrite throw_if_bind_Ok, has_duplicates_false in H.
  destruct H as [Hd [= ->]].
  destruct (map_entries_ok dependency _ _ _ _ _ _ (plain_items _ Hv) Hp) as [Hl _]. by split.
Qed.

Lemma dependencies_back l :
  entries_ok dependency_ok dep_id l → dependencies (Some (CArr (dependency_json <$> l))) = Ok l.
Proof.
  intros [Hl Hd]. unfold dependencies. cbn [array mbind result_bind].
  rewrite (map_entries_back dependency _ _) by done. cbn [mbind result_bind].
  by rewrite (proj2 (has_duplicates_false _) Hd).
Qed.

(** What the entries of each section are. *)
Record contributions_ok (c : DomainPackContributions) : Prop := {
  ok_roles : entries_ok role_ok role_id (c_roles c);
  ok_taskTypes : entries_ok common_ok co_id (c_taskTypes c);
  ok_workflows : entries_ok workflow_ok workflow_id (c_workflows c);
  ok_agents : entries_ok agent_ok agent_id (c_agents c);
  ok_artifactTypes : entries_ok artifact_ok artifact_id (c_artifactTypes c);
  ok_evidenceTypes : entries_ok evidence_ok evidence_id (c_evidenceTypes c);
  ok_policies : entries_ok policy_ok policy_id (c_policies c);
  ok_knowledge : entries_ok knowledge_ok knowledge_id (c_knowledge c);
  ok_capabilities : entries_ok capability_ok capability_id (c_capabilities c);
  ok_prompts : entries_ok prompt_ok prompt_id (c_prompts c);
  ok_validators : entries_ok validator_ok validator_id (c_validators c)
}.

Lemma read_contributions_ok source c :
  read_contributions source = Ok c → plain (Some (CObj source)) → contributions_ok c.
Proof.
  unfold read_contributions. intros H Hs.
  apply bind_Ok in H as (l1 & H1 & H). apply bind_Ok in H as (l2 & H2 & H).
  apply bind_Ok in H as (l3 & H3 & H). apply bind_Ok in H as (l4 & H4 & H).
  apply bind_Ok in H as (l5 & H5 & H). apply bind_Ok in H as (l6 & H6 & H).
  apply bind_Ok in H as (l7 & H7 & H). apply bind_Ok in H as (l8 & H8 & H).
  apply bind_Ok in H as (l9 & H9 & H). apply bind_Ok in H as (l10 & H10 & H).
  apply bind_Ok in H as (l11 & H11 & H). injection H as <-.
  split; cbn; match goal with
  | H : section ?k ?p ?i _ = Ok ?l |- entries_ok _ _ ?l => exact (section_ok p _ _ k i _ _ H Hs)
  end.
Qed.

Lemma read_contributions_back c :
  contributions_ok c →
  match contributions_json c with
  | CObj source => keys source (kind_name <$> contributionKinds) "contributions" invalid_contribution
                     = Ok tt ∧ read_contributions source = Ok c
  | _ => False
  end.
Proof.
  intros []. unfold contributions_json. split.
  - apply keys_present; [reflexivity|by repeat constructor].
  - unfold read_contributions.
    repeat match goal with
    | |- context [section ?k ?p ?i _] =>
        erewrite (section_back p _ _ k i); [|unfold section_json; by read_field|eassumption];
        cbn [mbind result_bind]
    end. by destruct c.
Qed.

(** * References *)

Lemma check_references_Ok refused path i l u :
  check_references refused path i l = Ok u ↔ Forall (λ x, refused x = None) l.
Proof.
  revert i. induction l as [|x l IH]; intros i; cbn.
  - destruct u. split; [constructor|done].
  - rewrite Forall_cons. destruct (refused x) as [message|] eqn:Hx; [naive_solver|].
    rewrite IH. naive_solver.
Qed.

(** A list of references that is a set none of which is refused. *)
Definition linked_list (refused : string → option string) (l : list string) : Prop :=
  ordered compare_text l ∧ Forall (λ x, refused x = None) l.

Lemma settle_list_Ok refused path key l l' :
  settle_list refused path key l = Ok l' →
  from_option (linked_list refused) True l' ∧ l' = as_set <$> l.
Proof.
  unfold settle_list. destruct l as [l|]; [|by intros [= <-]]. intros H.
  apply bind_Ok in H as (u & Hu%check_references_Ok & [= <-]). split; [|done]. split.
  - apply ordered_sort, _.
  - unfold as_set. by rewrite sort_by_perm.
Qed.

Lemma settle_list_back refused path key l :
  from_option (linked_list refused) True l → settle_list refused path key l = Ok l.
Proof.
  unfold settle_list. destruct l as [l|]; [|done]. intros [Ho Hl].
  rewrite (proj2 (check_references_Ok refused _ 0 l tt) Hl). cbn. by rewrite <- Ho at 2.
Qed.

(** A pass over the entries of a section: what holds of its results ([ok]),
    what it keeps ([kept]), and that it changes nothing the second time. *)
Section settling.
  Context {A} (f : A → string → outcome A) (ok : A → Prop) (kept : A → A → Prop).
  Context (Hok : ∀ a path a', f a path = Ok a' → ok a' ∧ kept a a').
  Context (Hback : ∀ a path, ok a → f a path = Ok a).

Lemma settle_entries_Ok path i l l' :
  settle f path i l = Ok l' → Forall ok l' ∧ Forall2 kept l l'.
Proof using Hok.
  revert i l'. induction l as [|a l IH]; intros i l' H; cbn [settle] in H.
  - inv_ok. split; constructor.
  - apply bind_Ok in H as (b & Hb & H). apply bind_Ok in H as (bs & Hbs & H). inv_ok.
    destruct (Hok _ _ _ Hb) as [Hb1 Hb2]. destruct (IH _ _ Hbs) as [H1 H2]. split; by constructor.
Qed.

Lemma settle_entries_back path i l : Forall ok l → settle f path i l = Ok l.
Proof using Hback.
  intros Hl. revert i. induction Hl as [|a l Ha Hl IH]; intros i; [done|].
  cbn [settle]. rewrite Hback by done. cbn [mbind result_bind]. by rewrite IH.
Qed.

End settling.

(** What a pass keeps of the entries of a section. *)
Lemma entries_kept {A} (ok : A → Prop) (id_of : A → string) (kept : A → A → Prop) l l' :
  (∀ a a', kept a a' → ok a → ok a' ∧ id_of a' = id_of a) →
  Forall2 kept l l' → entries_ok ok id_of l → entries_ok ok id_of l' ∧ id_of <$> l' = id_of <$> l.
Proof.
  intros Hk H2 [Hl Hd].
  assert (Forall ok l' ∧ id_of <$> l' = id_of <$> l) as [H1 Heq]; [|split; [split; [done|by rewrite Heq]|done]].
  clear Hd. induction H2 as [|a a' l l' Ha H2 IH]; [done|]. apply Forall_cons in Hl as [Hoka Hl].
  destruct (Hk _ _ Ha Hoka) as [Hoka' Hid]. destruct (IH Hl) as [H1 Heq].
  split; [by constructor|]. rewrite !fmap_cons. by f_equal.
Qed.

(** The same members, in the order of a set. *)
Definition same_set (l l' : option (list string)) : Prop := l' = as_set <$> l.

Lemma references_same_set l l' :
  same_set l l' → from_option references_ok True l → from_option references_ok True l'.
Proof.
  unfold same_set, references_ok. intros ->. destruct l as [l|]; [|done]. cbn.
  apply distinct_list_perm. symmetry. apply sort_by_perm.
Qed.

(** ** Roles *)

Definition role_linked (declared : list string) (r : RoleContribution) : Prop :=
  from_option (linked_list (undeclared declared (not_declared "capability"))) True (ro_capabilities r).

Definition role_kept (r r' : RoleContribution) : Prop :=
  ro_common r' = ro_common r ∧ same_set (ro_capabilities r) (ro_capabilities r') ∧
  ro_responsibilities r' = ro_responsibilities r.

Lemma settle_role_Ok declared r path r' :
  settle_role declared r path = Ok r' → role_linked declared r' ∧ role_kept r r'.
Proof.
  unfold settle_role. intros H. apply bind_Ok in H as (l & Hl%settle_list_Ok & H). inv_ok.
  destruct Hl as [Hl ->]. done.
Qed.

Lemma settle_role_back declared r path :
  role_linked declared r → settle_role declared r path = Ok r.
Proof. unfold settle_role. intros H. rewrite settle_list_back by done. by destruct r. Qed.

Lemma role_kept_ok r r' : role_kept r r' → role_ok r → role_ok r' ∧ role_id r' = role_id r.
Proof.
  unfold role_ok, role_id. intros (Hc & Hs & Hd) (Ho & Hl & Hr). rewrite Hc, Hd.
  split; [|done]. split; [done|]. split; [|done]. by eapply references_same_set.
Qed.

(** ** Agents *)

Definition agent_linked (roleSets : gmap string (list string))
    (prompt_ids knowledge_ids capability_ids : list string) (a : AgentContribution) : Prop :=
  let roleSet := ag_role a ≫= (roleSets !!.) in
  (is_Some (ag_role a) → is_Some roleSet) ∧
  from_option (linked_list (undeclared prompt_ids (not_declared "prompt"))) True (ag_prompts a) ∧
  from_option (linked_list (undeclared knowledge_ids (not_declared "knowledge"))) True
    (ag_knowledge a) ∧
  (is_Some (ag_capabilities a) → is_Some roleSet) ∧
  from_option (linked_list (refused_capability capability_ids (default [] roleSet))) True
    (ag_capabilities a).

Definition agent_kept (a a' : AgentContribution) : Prop :=
  ag_common a' = ag_common a ∧ ag_role a' = ag_role a ∧ same_set (ag_prompts a) (ag_prompts a') ∧
  same_set (ag_knowledge a) (ag_knowledge a') ∧ same_set (ag_capabilities a) (ag_capabilities a').

(** A reference that is there needs what it refers to. *)
Lemma needs_role {A B} (o : option A) (r : option B) :
  negb (bool_decide (o = None)) && bool_decide (r = None) = false ↔ (is_Some o → is_Some r).
Proof.
  rewrite <- !not_eq_None_Some. destruct o as [a|], r as [b|]; cbn; naive_solver.
Qed.

Lemma settle_agent_Ok sets ps ks cs a path a' :
  settle_agent sets ps ks cs a path = Ok a' → agent_linked sets ps ks cs a' ∧ agent_kept a a'.
Proof.
  unfold settle_agent, agent_linked. intros H.
  change (match ag_role a with None => None | Some role => sets !! role end)
    with (ag_role a ≫= (sets !!.)) in H.
  rewrite throw_if_bind_Ok, needs_role in H. destruct H as [Hr H].
  apply bind_Ok in H as (l1 & [H1 ->]%settle_list_Ok & H).
  apply bind_Ok in H as (l2 & [H2 ->]%settle_list_Ok & H).
  rewrite throw_if_bind_Ok, needs_role in H. destruct H as [Hc H].
  apply bind_Ok in H as (l3 & [H3 ->]%settle_list_Ok & H). inv_ok. cbn.
  split; [|done]. split; [done|]. split; [done|]. split; [done|]. split; [|done].
  intros Hs. apply Hc. by destruct (ag_capabilities a); [eexists|destruct Hs].
Qed.

Lemma settle_agent_back sets ps ks cs a path :
  agent_linked sets ps ks cs a → settle_agent sets ps ks cs a path = Ok a.
Proof.
  unfold settle_agent, agent_linked. intros (Hr & H1 & H2 & Hc & H3).
  change (match ag_role a with None => None | Some role => sets !! role end)
    with (ag_role a ≫= (sets !!.)).
  rewrite (proj2 (needs_role _ _) Hr). cbn [throw_if mbind result_bind].
  rewrite settle_list_back by done. cbn [mbind result_bind].
  rewrite settle_list_back by done. cbn [mbind result_bind].
  rewrite (proj2 (needs_role _ _) Hc). cbn [throw_if mbind result_bind].
  rewrite settle_list_back by done. by destruct a.
Qed.

Lemma agent_kept_ok a a' : agent_kept a a' → agent_ok a → agent_ok a' ∧ agent_id a' = agent_id a.
Proof.
  unfold agent_ok, agent_id. intros (Hc & Hr & Hp & Hk & Hs) (Ho & Hrole & H1 & H2 & H3).
  rewrite Hc, Hr. split; [|done]. split; [done|]. split; [done|].
  split; [by eapply references_same_set|]. split; by eapply references_same_set.
Qed.

(** ** Workflows *)

Definition workflow_linked (task_ids : list string) (w : WorkflowContribution) : Prop :=
  from_option (linked_list (refused_route (wf_taskType w) task_ids)) True
    (wf_additionalTaskTypes w).

Definition workflow_kept (w w' : WorkflowContribution) : Prop :=
  wf_common w' = wf_common w ∧ wf_taskType w' = wf_taskType w ∧ wf_stages w' = wf_stages w ∧
  same_set (wf_additionalTaskTypes w) (wf_additionalTaskTypes w').

Lemma settle_workflow_Ok ids w path w' :
  settle_workflow ids w path = Ok w' → workflow_linked ids w' ∧ workflow_kept w w'.
Proof.
  unfold settle_workflow. intros H. apply bind_Ok in H as (l & [Hl ->]%settle_list_Ok & H). by inv_ok.
Qed.

Lemma settle_workflow_back ids w path :
  workflow_linked ids w → settle_workflow ids w path = Ok w.
Proof. unfold settle_workflow. intros H. rewrite settle_list_back by done. by destruct w. Qed.

Lemma workflow_kept_ok w w' :
  workflow_kept w w' → workflow_ok w → workflow_ok w' ∧ workflow_id w' = workflow_id w.
Proof.
  unfold workflow_ok, workflow_id. intros (Hc & Ht & Hs & Ha) (Ho & Hty & Hadd & Hst & Hd).
  rewrite Hc, Ht, Hs. split; [|done]. split; [done|]. split; [done|]. split; [|done].
  by eapply references_same_set.
Qed.

(** ** Policies *)

Definition clause_linked (order : list string) (c : PolicyStageClause) : Prop :=
  match index_of (cl_stage c) order with
  | None => False
  | Some at_ =>
      from_option (linked_list (refused_target order at_)) True (cl_requiresDifferentAgentFrom c) ∧
      from_option (ordered compare_text) True (cl_operations c)
  end.

Definition clause_kept (c c' : PolicyStageClause) : Prop :=
  cl_stage c' = cl_stage c ∧ cl_requiresApproval c' = cl_requiresApproval c ∧
  cl_requiresIndependentApproval c' = cl_requiresIndependentApproval c ∧
  same_set (cl_requiresDifferentAgentFrom c) (cl_requiresDifferentAgentFrom c') ∧
  same_set (cl_operations c) (cl_operations c').

Lemma settle_clause_Ok order c path c' :
  settle_clause order c path = Ok c' → clause_linked order c' ∧ clause_kept c c'.
Proof.
  unfold settle_clause, clause_linked. destruct (index_of (cl_stage c) order) as [at_|] eqn:Hat;
    [|done]. intros H. apply bind_Ok in H as (l & [Hl ->]%settle_list_Ok & H). inv_ok. cbn.
  rewrite Hat. split; [|done]. split; [done|]. destruct (cl_operations c); [|done]. cbn.
  apply ordered_sort, _.
Qed.

Lemma settle_clause_back order c path :
  clause_linked order c → settle_clause order c path = Ok c.
Proof.
  unfold settle_clause, clause_linked. destruct (index_of _ _) as [at_|]; [|done]. intros [Hd Ho].
  rewrite settle_list_back by done. destruct c as [stage a i d [o|]]; [|done].
  cbn in *. unfold as_set. by rewrite Ho.
Qed.

Lemma clause_kept_ok c c' : clause_kept c c' → clause_ok c → clause_ok c'.
Proof.
  unfold clause_ok. intros (Hs & Ha & Hi & Hd & Ho) (H1 & H2 & H3 & H4 & H5).
  rewrite Hs, Ha, Hi. split; [done|]. split; [done|].
  split; [by eapply references_same_set|]. unfold same_set in Hd, Ho. split.
  - rewrite Ho. destruct (cl_operations c); [|done]. cbn in *.
    eapply distinct_list_perm; [|exact H4]. symmetry. apply sort_by_perm.
  - rewrite Hd, Ho. by destruct (cl_operations c), (cl_requiresDifferentAgentFrom c).
Qed.

#[export] Instance compare_clauses_comparator : Comparator compare_clauses.
Proof. exact (compare_by_comparator cl_stage). Qed.

Definition clauses_linked (order : list string) (l : list PolicyStageClause) : Prop :=
  ordered compare_clauses l ∧ Forall (clause_linked order) l.

Lemma settle_clauses_Ok order path l l' :
  settle_clauses order path l = Ok l' → from_option clauses_ok True l →
  from_option (clauses_linked order) True l' ∧ from_option clauses_ok True l' ∧
  (is_Some l → is_Some l').
Proof.
  unfold settle_clauses. destruct l as [l|]; [|by intros [= <-]]. intros H (Hne & Hl & Hd).
  apply bind_Ok in H as (s & Hs & H). inv_ok. cbn.
  destruct (settle_entries_Ok _ _ _ (settle_clause_Ok order) _ _ _ _ Hs) as [Hlinked Hkept].
  assert (Forall clause_ok s ∧ cl_stage <$> s = cl_stage <$> l) as [Hok Hst].
  { clear -Hkept Hl. induction Hkept as [|c c' l s Hc Hkept IH]; [done|].
    apply Forall_cons in Hl as [Hc' Hl]. destruct (IH Hl) as [H1 H2].
    split; [constructor; [by eapply clause_kept_ok|done]|]. rewrite !fmap_cons, H2.
    by destruct Hc as [-> _]. }
  split; [|split; [|by eexists]].
  - split; [apply ordered_sort, _|]. by rewrite sort_by_perm.
  - split; [|split].
    + intros Hnil. apply (f_equal length) in Hnil. rewrite sort_by_length in Hnil.
      rewrite <- (Forall2_length _ _ _ Hkept) in Hnil. by destruct l.
    + by rewrite sort_by_perm.
    + rewrite sort_by_perm, Hst. done.
Qed.

Lemma settle_clauses_back order path l :
  from_option (clauses_linked order) True l → settle_clauses order path l = Ok l.
Proof.
  unfold settle_clauses. destruct l as [l|]; [|done]. intros [Ho Hl].
  rewrite (settle_entries_back _ (clause_linked order)); [|intros; by apply settle_clause_back|done].
  cbn. by rewrite Ho.
Qed.

(** A policy names a workflow of the manifest, and its clauses fit the stages. *)
Definition policy_linked (stages : gmap string (list string)) (p : PolicyContribution) : Prop :=
  match po_typed p with
  | None => True
  | Some t =>
      match stages !! tp_workflow t with
      | None => False
      | Some order => from_option (clauses_linked order) True (tp_stages t)
      end
  end.

(** The workflows the policies govern. *)
Definition governed (l : list PolicyContribution) : list string :=
  omap (λ p, tp_workflow <$> po_typed p) l.

Lemma settle_policy_Ok stages seen t path t' :
  settle_policy stages seen t path = Ok t' → typed_policy_ok t →
  policy_linked stages {| po_common := Build_Contribution "" None None; po_typed := Some t' |} ∧
  typed_policy_ok t' ∧ tp_workflow t' = tp_workflow t ∧ tp_workflow t ∉ seen.
Proof.
  unfold settle_policy, policy_linked. cbn [po_typed].
  destruct (stages !! tp_workflow t) as [order|] eqn:Hw; [|done]. intros H (Hloc & Hor & Hst).
  rewrite throw_if_bind_Ok, includes_false in H. destruct H as [Hseen H].
  apply bind_Ok in H as (l & Hl & H). inv_ok. cbn [tp_workflow tp_stages]. rewrite Hw.
  destruct (settle_clauses_Ok _ _ _ _ Hl Hst) as (H1 & H2 & H3).
  split; [done|]. split; [|done]. split; [done|]. split; [|done]. cbn.
  destruct Hor as [Hor|Hor]; [by left|right; by apply H3].
Qed.

Lemma settle_policies_Ok stages seen path i l l' :
  settle_policies stages seen path i l = Ok l' → Forall policy_ok l →
  Forall (policy_linked stages) l' ∧ Forall policy_ok l' ∧ policy_id <$> l' = policy_id <$> l ∧
  NoDup (governed l') ∧ (∀ w, w ∈ governed l' → w ∉ seen).
Proof.
  revert seen i l'. induction l as [|p l IH]; intros seen i l' H Hl; cbn [settle_policies] in H.
  - inv_ok. repeat split; try constructor. by intros ? ?%elem_of_nil.
  - apply Forall_cons in Hl as [Hp Hl]. destruct p as [c [t|]]; cbn [po_typed po_common] in H.
    + apply bind_Ok in H as (t' & Ht & H). apply bind_Ok in H as (s & Hs & H). inv_ok.
      destruct Hp as [Hc Hok]. cbn in Hc, Hok.
      destruct (settle_policy_Ok _ _ _ _ _ Ht Hok) as (Hlink & Hok' & Hw & Hseen).
      destruct (IH _ _ _ Hs Hl) as (H1 & H2 & H3 & H4 & H5).
      split; [by constructor|]. split; [by constructor|]. split; [by rewrite !fmap_cons, H3|].
      unfold governed in *. cbn [omap list_omap po_typed fmap option_fmap option_map]. rewrite Hw. split.
      * constructor; [|done]. intros Hin. apply (H5 _ Hin). by left.
      * intros w [->|Hin]%elem_of_cons; [done|]. specialize (H5 w Hin). set_solver.
    + apply bind_Ok in H as (s & Hs & H). inv_ok. destruct (IH _ _ _ Hs Hl) as (H1 & H2 & H3 & H4 & H5).
      split; [by constructor|]. split; [by constructor|]. split; [by rewrite !fmap_cons, H3|done].
Qed.

Lemma settle_policies_back stages seen path i l :
  Forall (policy_linked stages) l → NoDup (governed l) → (∀ w, w ∈ governed l → w ∉ seen) →
  settle_policies stages seen path i l = Ok l.
Proof.
  intros Hl. revert seen i. induction Hl as [|p l Hp Hl IH]; intros seen i Hd Hs; [done|].
  cbn [settle_policies]. unfold governed in *. destruct p as [c [t|]]; cbn [po_typed] in *.
  - cbn [omap list_omap po_typed fmap option_fmap option_map] in Hd, Hs.
    apply NoDup_cons in Hd as [Hn Hd]. unfold policy_linked in Hp. cbn [po_typed] in Hp.
    unfold settle_policy. destruct (stages !! tp_workflow t) as [order|]; [|done].
    rewrite (proj2 (includes_false _ _) (Hs _ (list_elem_of_here _ _))).
    cbn [throw_if mbind result_bind]. rewrite settle_clauses_back by done. cbn [mbind result_bind].
    rewrite IH; [by destruct t|done|]. intros w Hw [->|Hin]%elem_of_cons; [done|].
    apply (Hs w); [by right|done].
  - cbn in Hd, Hs. by rewrite IH.
Qed.

(** ** Evidence types and validators *)

Definition evidence_linked (artifact_ids : list string) (e : EvidenceTypeContribution) : Prop :=
  from_option (.∈ artifact_ids) True (ev_subject e).

Lemma settle_evidence_Ok ids e path e' :
  settle_evidence ids e path = Ok e' → evidence_linked ids e' ∧ e = e'.
Proof.
  unfold settle_evidence, evidence_linked. destruct (ev_subject e) as [s|] eqn:Hs.
  - rewrite throw_if_bind_Ok. intros [Hin%negb_false_iff%includes_spec [= <-]]. by rewrite Hs.
  - intros [= <-]. by rewrite Hs.
Qed.

Lemma settle_evidence_back ids e path :
  evidence_linked ids e → settle_evidence ids e path = Ok e.
Proof.
  unfold settle_evidence, evidence_linked. destruct (ev_subject e); [|done]. cbn. intros H.
  by rewrite (proj2 (includes_spec _ _) H).
Qed.

#[export] Instance compare_inputs_comparator : Comparator compare_inputs.
Proof.
  assert (∀ a b, (compare_text a b <= 0)%Z → (compare_text b a <= 0)%Z → a = b) as Hanti
    by exact compare_text_antisym.
  assert (∀ a b, compare_text a b = 0%Z → a = b) as Heq by (intros a b; apply compare_text_eq0).
  assert (∀ a, compare_text a a = 0%Z) as Hrefl by (intros a; by apply compare_text_eq0).
  split; unfold compare_inputs, or_else.
  - intros x y. destruct (Z.eqb_spec (compare_text (input_kind_name (in_kind x)) (input_kind_name (in_kind y))) 0) as [H|H].
    + rewrite (Heq _ _ H), Hrefl. cbn. apply cmp_total.
    + intros Hp. pose proof (cmp_total _ _ Hp) as Hle.
      destruct (Z.eqb_spec (compare_text (input_kind_name (in_kind y)) (input_kind_name (in_kind x))) 0) as [H'|_]; [|done].
      by rewrite (Heq _ _ H'), Hrefl in H.
  - intros x y z.
    destruct (Z.eqb_spec (compare_text (input_kind_name (in_kind x)) (input_kind_name (in_kind y))) 0) as [Hxy|Hxy].
    + rewrite (Heq _ _ Hxy). case_match; [|done]. apply cmp_trans.
    + destruct (Z.eqb_spec (compare_text (input_kind_name (in_kind y)) (input_kind_name (in_kind z))) 0) as [Hyz|Hyz].
      * rewrite <- (Heq _ _ Hyz). by destruct (Z.eqb_spec (compare_text (input_kind_name (in_kind x)) (input_kind_name (in_kind y))) 0).
      * intros H1 H2. pose proof (cmp_trans _ _ _ H1 H2) as H3.
        destruct (Z.eqb_spec (compare_text (input_kind_name (in_kind x)) (input_kind_name (in_kind z))) 0) as [Hxz|_]; [|done].
        rewrite <- (Heq _ _ Hxz) in H2. by rewrite (Hanti _ _ H1 H2), Hrefl in Hxy.
Qed.

(** An input a validator accepts is declared. *)
Definition input_declared (artifact_ids evidence_ids : list string) (i : ValidatorInputReference)
    : Prop :=
  in_id i ∈ (if bool_decide (in_kind i = input_artifact) then artifact_ids else evidence_ids).

Definition validator_linked (artifact_ids evidence_ids : list string) (x : ValidatorContribution)
    : Prop :=
  from_option (λ v, ordered compare_inputs (tv_accepts v) ∧
    Forall (input_declared artifact_ids evidence_ids) (tv_accepts v) ∧
    tv_produces v ∈ evidence_ids) True (va_typed x).

Lemma check_inputs_Ok aids eids path i l u :
  check_inputs aids eids path i l = Ok u ↔ Forall (input_declared aids eids) l.
Proof.
  revert i. induction l as [|x l IH]; intros i; cbn [check_inputs].
  - destruct u. split; [constructor|done].
  - rewrite Forall_cons, throw_if_bind_Ok, negb_false_iff, includes_spec, IH. done.
Qed.

Definition validator_kept (x x' : ValidatorContribution) : Prop :=
  validator_ok x → validator_ok x' ∧ validator_id x' = validator_id x.

Lemma settle_validator_Ok aids eids x path x' :
  settle_validator aids eids x path = Ok x' → validator_linked aids eids x' ∧ validator_kept x x'.
Proof.
  unfold settle_validator, validator_linked, validator_kept, validator_ok. intros H.
  destruct (va_typed x) as [v|] eqn:Hv.
  2: { injection H as <-. by rewrite Hv. }
  apply bind_Ok in H as (u & Hu%check_inputs_Ok & H). rewrite throw_if_bind_Ok in H.
  destruct H as [Hp%negb_false_iff%includes_spec [= <-]]. cbn. split.
  - split; [apply ordered_sort, _|]. split; [by rewrite sort_by_perm|done].
  - intros (Hc & H1 & H2 & (Hs & Hl & Hd) & H4). split; [|done]. split; [done|].
    split; [done|]. split; [done|]. split; [|done]. cbn. split; [|split].
    + eapply sized_perm; [|exact Hs]. symmetry. apply sort_by_perm.
    + by rewrite sort_by_perm.
    + by rewrite sort_by_perm.
Qed.

Lemma settle_validator_back aids eids x path :
  validator_linked aids eids x → settle_validator aids eids x path = Ok x.
Proof.
  unfold settle_validator, validator_linked. destruct x as [c [v|]]; [|done]. cbn [va_typed].
  intros (Ho & Hl & Hp). rewrite (proj2 (check_inputs_Ok aids eids _ 0 _ tt) Hl).
  cbn [mbind result_bind]. rewrite (proj2 (includes_spec _ _) Hp). cbn. rewrite Ho. by destruct v.
Qed.

(** ** The whole manifest *)

(** Every reference resolves, and every set is in its one order. *)
Record linked (c : DomainPackContributions) : Prop := {
  linked_roles : Forall (role_linked (capability_id <$> c_capabilities c)) (c_roles c);
  linked_agents :
    Forall (agent_linked (role_sets (c_roles c)) (prompt_id <$> c_prompts c)
              (knowledge_id <$> c_knowledge c) (capability_id <$> c_capabilities c)) (c_agents c);
  linked_workflows : Forall (workflow_linked (co_id <$> c_taskTypes c)) (c_workflows c);
  linked_policies : Forall (policy_linked (workflow_stages (c_workflows c))) (c_policies c);
  linked_governed : NoDup (governed (c_policies c));
  linked_evidence :
    Forall (evidence_linked (artifact_id <$> c_artifactTypes c)) (c_evidenceTypes c);
  linked_validators :
    Forall (validator_linked (artifact_id <$> c_artifactTypes c)
              (evidence_id <$> c_evidenceTypes c)) (c_validators c)
}.

Lemma settle_contributions_Ok c c' :
  settle_contributions c = Ok c' → contributions_ok c → contributions_ok c' ∧ linked c'.
Proof.
  unfold settle_contributions. intros H [].
  apply bind_Ok in H as (rs & Hrs & H). apply bind_Ok in H as (ags & Hags & H).
  apply bind_Ok in H as (ws & Hws & H). apply bind_Ok in H as (ps & Hps & H).
  apply bind_Ok in H as (evs & Hevs & H). apply bind_Ok in H as (vs & Hvs & H). injection H as <-.
  apply (settle_entries_Ok _ _ _ (settle_role_Ok _)) in Hrs as [Lr Kr].
  apply (settle_entries_Ok _ _ _ (settle_agent_Ok _ _ _ _)) in Hags as [La Ka].
  apply (settle_entries_Ok _ _ _ (settle_workflow_Ok _)) in Hws as [Lw Kw].
  apply settle_policies_Ok in Hps as (Lp & Kp & Ip & Gp & _); [|by destruct ok_policies0].
  apply (settle_entries_Ok _ _ _ (settle_evidence_Ok _)) in Hevs as [Le Ke].
  apply (settle_entries_Ok _ _ _ (settle_validator_Ok _ _)) in Hvs as [Lv Kv].
  apply list_eq_Forall2 in Ke as <-.
  destruct (entries_kept _ role_id _ _ _ role_kept_ok Kr) as [Er _]; [done|].
  destruct (entries_kept _ agent_id _ _ _ agent_kept_ok Ka) as [Ea _]; [done|].
  destruct (entries_kept _ workflow_id _ _ _ workflow_kept_ok Kw) as [Ew _]; [done|].
  destruct (entries_kept validator_ok validator_id _ _ _ (λ x x' Hk, Hk) Kv) as [Ev _]; [done|].
  split; split; cbn; try done. split; [done|]. rewrite Ip. by destruct ok_policies0.
Qed.

Lemma settle_contributions_back c : linked c → settle_contributions c = Ok c.
Proof.
  intros []. unfold settle_contributions.
  rewrite (settle_entries_back _ _ (settle_role_back _)) by done. cbn [mbind result_bind].
  rewrite (settle_entries_back _ _ (settle_agent_back _ _ _ _)) by done. cbn [mbind result_bind].
  rewrite (settle_entries_back _ _ (settle_workflow_back _)) by done. cbn [mbind result_bind].
  rewrite settle_policies_back; [|done|done|by intros ? _ ?%elem_of_nil]. cbn [mbind result_bind].
  rewrite (settle_entries_back _ _ (settle_evidence_back _)) by done. cbn [mbind result_bind].
  rewrite (settle_entries_back _ _ (settle_validator_back _ _)) by done. by destruct c.
Qed.

(** What a validated manifest is. *)
Record manifest_ok (m : DomainPackManifest) : Prop := {
  ok_id : is_pack_id (m_id m) = true;
  ok_version : is_version (m_version m) = true;
  ok_digest : is_digest (m_manifestDigest m) = true;
  ok_core : core_ok (m_coreContract m);
  ok_dependencies : entries_ok dependency_ok dep_id (m_dependencies m);
  ok_contributions : contributions_ok (m_contributions m);
  ok_linked : linked (m_contributions m)
}.

Lemma validate_ok v m :
  unique_members v = true → validateDomainPackManifest v = Ok m → manifest_ok m.
Proof.
  intros Hv. change (plain (Some v)) in Hv. unfold validateDomainPackManifest. intros H.
  apply bind_Ok in H as (r & Hr%object_Ok & H). rewrite Hr in Hv. clear Hr v.
  rewrite throw_if_bind_Ok in H. destruct H as [_ H]. apply bind_Ok in H as (u1 & _ & H).
  apply bind_Ok in H as (metadata & _ & H). apply bind_Ok in H as (u2 & _ & H).
  apply bind_Ok in H as (source & Hs%object_Ok & H). apply bind_Ok in H as (u3 & _ & H).
  apply bind_Ok in H as (given & Hg & H). apply bind_Ok in H as (c & Hc & H).
  apply bind_Ok in H as (id & Hid & H). apply bind_Ok in H as (version & Hver & H).
  apply bind_Ok in H as (dg & Hdg & H). apply bind_Ok in H as (core & Hcore & H).
  apply bind_Ok in H as (name & _ & H). apply bind_Ok in H as (d & _ & H).
  apply bind_Ok in H as (deps & Hdeps & H). injection H as <-.
  pose proof (plain_field _ "contributions" Hv) as Hsource. rewrite Hs in Hsource.
  destruct (settle_contributions_Ok _ _ Hc (read_contributions_ok _ _ Hg Hsource)) as [Hok Hl].
  split; cbn; [| | | | |done|done].
  - exact (parsed_ok (Parses := matching_parses _ _ _) _ _ _ Hid (plain_field _ _ Hv)).
  - exact (parsed_ok (Parses := matching_parses _ _ _) _ _ _ Hver (plain_field _ _ Hv)).
  - exact (parsed_ok (Parses := matching_parses _ _ _) _ _ _ Hdg (plain_field _ _ Hv)).
  - by eapply core_ok_parsed.
  - exact (dependencies_ok _ _ Hdeps (plain_field _ _ Hv)).
Qed.

Lemma validate_back m : manifest_ok m → validateDomainPackManifest (manifest_json m) = Ok m.
Proof.
  intros []. unfold manifest_json, object_json, validateDomainPackManifest.
  cbn [object mbind result_bind]. read_field. cbn [schema_one bool_decide negb throw_if mbind result_bind].
  rewrite keys_present; [|reflexivity|by repeat constructor]. cbn [mbind result_bind].
  unfold metadata_json. cbn [object mbind result_bind].
  rewrite keys_present; [|reflexivity|by repeat constructor]. cbn [mbind result_bind].
  pose proof (read_contributions_back _ ok_contributions0) as Hc. unfold contributions_json in *.
  cbn [object mbind result_bind]. destruct Hc as [Hk Hr]. rewrite Hk. cbn [mbind result_bind].
  rewrite Hr. cbn [mbind result_bind]. rewrite settle_contributions_back by done.
  cbn [mbind result_bind].
  unfold parseDomainPackId, parseDomainPackVersion, parseManifestDigest, parse_digest.
  repeat (rewrite (parsed_back (Parses := matching_parses _ _ _)) by done; cbn [mbind result_bind]).
  rewrite core_back by done. cbn [mbind result_bind]. read_field.
  cbn [text mbind result_bind]. rewrite dependencies_back by done. by destruct m.
Qed.

End ManifestLaws.
