(* ===== verification/PackDigest.v ===== *)
(** The canonical text of a Domain Pack manifest: that it exists for every
    validated manifest, and that it says exactly what the manifest contains, up
    to the order of the entries of a section and the digest it declares. *)
From S2P Require Import Prelude Errors Json ActionModel PolicyModel Text Members PackSchema PackManifest PackCanonical PackLaws SchemaLaws ContributionLaws ManifestLaws.
Import Canonical Policy Text Members PackSchema PackManifest PackCanonical PackLaws SchemaLaws ContributionLaws ManifestLaws.

Module PackDigest.

(** * The serializer on sorted values *)

(** The members of every object are in ascending order. *)
Fixpoint sorted_members (value : cjson) : bool :=
  match value with
  | CArr items => forallb sorted_members items
  | CObj members =>
      bool_decide (sort_by compare_text members.*1 = members.*1) &&
      forallb (λ m, sorted_members m.2) members
  | _ => true
  end.

Lemma sequence_total {A} (l : list A) : sequence (map Ok l) = Ok l.
Proof. induction l as [|a l IH]; [done|]. cbn. by rewrite IH. Qed.

Lemma sequence_map {A B} (f : A → outcome B) (g : A → B) (l : list A) :
  (∀ a, a ∈ l → f a = Ok (g a)) → sequence (map f l) = Ok (map g l).
Proof.
  intros H. rewrite <- sequence_total, map_map. f_equal. apply map_ext_in.
  intros a Ha. apply H. by apply list_elem_of_In.
Qed.

#[export] Instance compare_key_comparator {A} : Comparator (compare_key (A := A)).
Proof. exact (compare_by_comparator fst). Qed.

(** A list whose keys are in order is in order. *)
Lemma sort_keys_id {A} (l : list (string * A)) :
  sort_by compare_text l.*1 = l.*1 → sort_by compare_key l = l.
Proof.
  intros Hl. apply sort_by_id.
  pose proof (sort_by_sorted compare_text l.*1) as Hs. rewrite Hl in Hs. clear Hl.
  induction l as [|x l IH]; [constructor|]. rewrite fmap_cons in Hs.
  apply StronglySorted_cons in Hs as [Hx Hs]. constructor; [by apply IH|].
  apply Forall_forall. intros y Hy. rewrite Forall_forall in Hx. apply (Hx y.1).
  apply list_elem_of_fmap. by exists y.
Qed.

Section serializer.
  Context `{ShowNumber}.

Lemma jcs_sorted v :
  sorted_members v = true → plain_numbers v = true → canonicalizeJcsJson v = Ok (stringify v).
Proof.
  induction v as [|b|n|s|l IH|l IH] using cjson_nested_ind; intros Hs Hn; try done.
  - cbn in *. by apply andb_prop in Hn as [-> _].
  - simpl in Hs, Hn. rewrite Forall_forallb, Forall_forall in Hs, Hn. rewrite Forall_forall in IH.
    cbn [canonicalizeJcsJson]. rewrite (sequence_map _ stringify); [done|]. auto.
  - simpl in Hs, Hn. apply andb_prop in Hs as [Hk%bool_decide_eq_true Hs].
    rewrite Forall_forallb, Forall_forall in Hs, Hn. rewrite Forall_forall in IH.
    cbn [canonicalizeJcsJson].
    assert (map (λ m, (m.1, canonicalizeJcsJson m.2)) l = map (λ m, (m.1, Ok (stringify m.2))) l) as ->.
    { apply map_ext_in. intros m Hm%list_elem_of_In. f_equal. auto. }
    rewrite (sort_keys_id (map _ l)).
    2: { assert ((map (λ m, (m.1, Ok (stringify m.2) : outcome string)) l).*1 = l.*1) as ->; [|done].
         clear. induction l; cbn; by f_equal. }
    rewrite map_map. by rewrite (sequence_map _ (λ m, quote m.1 +:+ ":" +:+ stringify m.2)).
Qed.

End serializer.

(** * Manifests are tidy *)

(** Every object's members are in ascending order and none is named like an
    array index, and no value is more than [levels] inside. *)
Fixpoint tidy (levels : nat) (value : cjson) {struct value} : bool :=
  match value with
  | CArr items =>
      match levels with
      | 0 => match items with [] => true | _ => false end
      | S inner => forallb (tidy inner) items
      end
  | CObj members =>
      bool_decide (NoDup members.*1) && bool_decide (sort_by compare_text members.*1 = members.*1) &&
      forallb (λ key, negb (is_array_index key)) members.*1 &&
      match levels with
      | 0 => match members with [] => true | _ => false end
      | S inner => forallb (λ m, tidy inner m.2) members
      end
  | _ => true
  end.

(** The names of an object, and the values inside it. *)
Definition tidy_keys (names : list string) : bool :=
  bool_decide (NoDup names) && bool_decide (sort_by compare_text names = names) &&
  forallb (λ key, negb (is_array_index key)) names.

Definition tidy_inside (levels : nat) (l : record) : bool :=
  match levels with
  | 0 => match l with [] => true | _ => false end
  | S inner => forallb (λ m, tidy inner m.2) l
  end.

Lemma tidy_CObj levels l : tidy levels (CObj l) = tidy_keys l.*1 && tidy_inside levels l.
Proof. by destruct levels. Qed.

Lemma tidy_sorted levels v : tidy levels v = true → sorted_members v = true.
Proof.
  revert levels. induction v as [|b|n|s|l IH|l IH] using cjson_nested_ind; intros levels H; try done;
    rewrite Forall_forall in IH.
  - destruct levels as [|levels]; cbn [tidy sorted_members] in *; [by destruct l|].
    rewrite Forall_forallb, Forall_forall in H |- *. eauto.
  - rewrite tidy_CObj in H. apply andb_prop in H as [Hk Hl]. cbn [sorted_members]. unfold tidy_keys in Hk.
    apply andb_prop in Hk as [Hk _]. apply andb_prop in Hk as [_ ->]. cbn [andb].
    destruct levels as [|levels]; [by destruct l|]. cbn [tidy_inside] in Hl.
    rewrite Forall_forallb, Forall_forall in Hl |- *. eauto.
Qed.

Lemma StronglySorted_sublist {A} (R : relation A) l k :
  l `sublist_of` k → StronglySorted R k → StronglySorted R l.
Proof.
  induction 1 as [|x l k Hl IH|x l k Hl IH]; intros Hs; [done| |].
  - apply StronglySorted_cons in Hs as [Hx Hs]. constructor; [by apply IH|].
    rewrite Forall_forall in *. intros y Hy. apply Hx. by eapply elem_of_sublist.
  - apply StronglySorted_cons in Hs as [_ Hs]. by apply IH.
Qed.

(** Tidy, or absent. *)
Definition tidy_value (levels : nat) (v : option cjson) : bool := from_option (tidy levels) true v.

Lemma tidy_keys_sublist names names' :
  names' `sublist_of` names → tidy_keys names = true → tidy_keys names' = true.
Proof.
  unfold tidy_keys. rewrite !andb_true_iff, !bool_decide_eq_true, !Forall_forallb, !Forall_forall.
  intros Hs [[Hd Ho] Hi]. split; [split|].
  - by eapply sublist_NoDup.
  - apply sort_by_id. eapply StronglySorted_sublist; [exact Hs|]. rewrite <- Ho. apply sort_by_sorted, _.
  - intros key Hk. apply Hi. by eapply elem_of_sublist.
Qed.

Lemma tidy_present n l :
  tidy_keys l.*1 = true → Forall (λ m, tidy_value n m.2 = true) l →
  tidy (S n) (CObj (present l)) = true.
Proof.
  intros Hk Hl. rewrite tidy_CObj. apply andb_true_intro. split.
  - exact (tidy_keys_sublist _ _ (present_keys l) Hk).
  - clear Hk. cbn [tidy_inside]. induction Hl as [|[k [v|]] l Hv Hl IH]; [done| |done].
    change (present ((k, Some v) :: l)) with ((k, v) :: present l).
    cbn [forallb snd]. cbn in Hv. by rewrite Hv, IH.
Qed.

Lemma tidy_option {A} n (f : A → cjson) (ok : A → Prop) o :
  (∀ a, ok a → tidy n (f a) = true) → from_option ok True o → tidy_value n (f <$> o) = true.
Proof. intros Hf Ho. destruct o; [by apply Hf|done]. Qed.

Lemma tidy_option_leaf {A} n (f : A → cjson) o :
  (∀ a, tidy n (f a) = true) → tidy_value n (f <$> o) = true.
Proof. intros Hf. destruct o; [apply Hf|done]. Qed.

Lemma tidy_items {A} n (f : A → cjson) (ok : A → Prop) l :
  (∀ a, ok a → tidy n (f a) = true) → Forall ok l → tidy (S n) (CArr (f <$> l)) = true.
Proof.
  intros Hf Hl. cbn [tidy]. induction Hl as [|a l Ha Hl IH]; [done|].
  rewrite fmap_cons. cbn [forallb]. by rewrite Hf, IH.
Qed.

(** A list of objects each of which is tidy. *)
Lemma tidy_list {A} n (f : A → cjson) (l : list A) :
  (∀ a, tidy n (f a) = true) → tidy (S n) (CArr (f <$> l)) = true.
Proof. intros Hf. apply (tidy_items n f (λ _, True)); [auto|]. by induction l; constructor. Qed.

Lemma tidy_texts n l : tidy (S n) (text_array l) = true.
Proof. exact (tidy_list n CStr l (λ _, eq_refl)). Qed.

Create HintDb tidy.
#[local] Hint Resolve tidy_texts : tidy.
#[local] Hint Extern 1 (tidy_value _ (_ <$> _) = true) =>
  apply tidy_option_leaf; intros; reflexivity || apply tidy_texts : tidy.
#[local] Hint Extern 2 (tidy_value _ _ = true) => reflexivity : tidy.

(** An object that is written out, member by member. *)
Ltac tidy_object :=
  unfold description_member, id_member, title_member;
  apply tidy_present; [vm_compute; reflexivity|
    repeat apply Forall_cons_2; try apply Forall_nil_2; cbn [fst snd]];
  auto with tidy.

(** A property name is no array index. *)
Lemma property_name_no_index name : property_name_ok name = true → is_array_index name = false.
Proof.
  unfold property_name_ok, is_property_name, matches_head_tail, is_array_index, is_decimal.
  intros [H _]%andb_prop. destruct name as [|c s]; [done|].
  repeat (apply andb_prop in H as [H _]). revert H.
  by destruct c as [[] [] [] [] [] [] [] []].
Qed.

Lemma tidy_schema levels n s : schema_ok levels s → tidy (2 * levels + n) (schema_json s) = true.
Proof.
  revert n s. induction levels as [|levels IH]; intros n s H; [done|].
  replace (2 * S levels + n) with (S (S (2 * levels + n))) by lia.
  destruct s as [low high|integer low high| |values|items low high|properties required];
    cbn [schema_ok schema_json] in *.
  - tidy_object.
  - tidy_object.
  - tidy_object.
  - tidy_object. apply tidy_texts.
  - destruct H as [_ H]. tidy_object. cbn [tidy_value from_option].
    replace (S (2 * levels + n)) with (2 * levels + S n) by lia. by apply IH.
  - destruct H as (_ & Hnames & [Hd Ho] & H & _). tidy_object.
    assert ((map (λ p, (p.1, schema_json p.2)) properties).*1 = properties.*1) as Hkeys.
    { clear. induction properties; cbn; by f_equal. }
    cbn [tidy_value from_option]. rewrite tidy_CObj. apply andb_true_intro. split.
    + unfold tidy_keys. rewrite Hkeys, !andb_true_iff, !bool_decide_eq_true, Forall_forallb. split; [done|].
      eapply Forall_impl; [exact Hnames|]. intros x Hx. by rewrite (property_name_no_index x Hx).
    + cbn [tidy_inside]. clear -H IH. induction H as [|p l Hp H IHl]; [done|]. cbn [map forallb snd]. by rewrite IH.
Qed.

Lemma tidy_contract n s : contract_ok s → tidy (8 + n) (schema_json s) = true.
Proof. intros [H _]. by apply (tidy_schema 4). Qed.

#[local] Hint Extern 1 (tidy_value _ (schema_json <$> _) = true) =>
  eapply tidy_option; [apply tidy_contract|eassumption] : tidy.

Lemma tidy_contribution n c : tidy (S (S n)) (contribution_json c) = true.
Proof. unfold contribution_json. tidy_object. Qed.

Lemma tidy_role n r : tidy (S (S n)) (role_json r) = true.
Proof. unfold role_json. tidy_object. Qed.

Lemma tidy_prompt n r : tidy (S (S n)) (prompt_json r) = true.
Proof. unfold prompt_json. tidy_object. Qed.

Lemma tidy_agent n r : tidy (S (S n)) (agent_json r) = true.
Proof. unfold agent_json. tidy_object. Qed.

Lemma tidy_operation n o : tidy (S (S n)) (operation_json o) = true.
Proof. unfold operation_json. tidy_object. Qed.

Lemma tidy_capability n k : tidy (4 + n) (capability_json k) = true.
Proof.
  unfold capability_json. tidy_object.
  apply tidy_option_leaf. intros x. apply tidy_list, tidy_operation.
Qed.

Lemma tidy_stage n x : tidy (S (S n)) (stage_json x) = true.
Proof. unfold stage_json. tidy_object. Qed.

Lemma tidy_workflow n w : tidy (4 + n) (workflow_json w) = true.
Proof. unfold workflow_json. tidy_object. apply tidy_list, tidy_stage. Qed.

Lemma tidy_clause n c : tidy (S (S n)) (clause_json c) = true.
Proof.
  unfold clause_json. tidy_object.
  - by destruct (cl_requiresApproval c).
  - by destruct (cl_requiresIndependentApproval c).
Qed.

Lemma tidy_policy n p : tidy (4 + n) (policy_json p) = true.
Proof.
  unfold policy_json. tidy_object.
  - destruct (po_typed p) as [t|]; [|done]. cbn. unfold enforcement_json. by destruct (tp_enforced t).
  - destruct (po_typed p) as [t|]; [|done]. apply tidy_option_leaf. intros l.
    apply tidy_list, tidy_clause.
Qed.

Lemma tidy_schema_field n f : tidy (S (S n)) (schema_field_json f) = true.
Proof. unfold schema_field_json. tidy_object. Qed.

Lemma tidy_retrieval n r : tidy (S (S n)) (retrieval_json r) = true.
Proof. unfold retrieval_json. tidy_object. Qed.

Lemma tidy_knowledge n k : tidy (4 + n) (knowledge_json k) = true.
Proof.
  unfold knowledge_json. tidy_object.
  - apply tidy_option_leaf. intros r. apply tidy_retrieval.
  - apply tidy_option_leaf. intros l. apply tidy_list, tidy_schema_field.
Qed.

Lemma tidy_artifact n a : artifact_ok a → tidy (9 + n) (artifact_json a) = true.
Proof. intros (_ & _ & _ & Hs). unfold artifact_json. tidy_object. Qed.

Lemma tidy_evidence n e : evidence_ok e → tidy (9 + n) (evidence_json e) = true.
Proof. intros (_ & _ & Hs). unfold evidence_json. tidy_object. Qed.

Lemma tidy_input n i : tidy (S (S n)) (input_json i) = true.
Proof. unfold input_json. tidy_object. Qed.

Lemma tidy_validator n x : validator_ok x → tidy (9 + n) (validator_json x) = true.
Proof.
  intros [_ Hv]. unfold validator_json. destruct (va_typed x) as [v|]; [|tidy_object]. cbn in Hv.
  destruct Hv as (_ & _ & _ & Hi & _ & Ho & _). tidy_object;
    cbn [tidy_value from_option fmap option_fmap option_map].
  - apply tidy_list, tidy_input.
  - by apply tidy_contract.
  - by apply tidy_contract.
Qed.

Lemma tidy_dependency n d : tidy (S (S n)) (dependency_json d) = true.
Proof. unfold dependency_json. tidy_object. Qed.

Lemma tidy_contributions n c : contributions_ok c → tidy (11 + n) (contributions_json c) = true.
Proof.
  intros []. unfold contributions_json, section_json. tidy_object;
    cbn [tidy_value from_option].
  - apply tidy_list, tidy_agent.
  - eapply tidy_items; [apply tidy_artifact|by destruct ok_artifactTypes0].
  - apply tidy_list, tidy_capability.
  - eapply tidy_items; [apply tidy_evidence|by destruct ok_evidenceTypes0].
  - apply tidy_list, tidy_knowledge.
  - apply tidy_list, tidy_policy.
  - apply tidy_list, tidy_prompt.
  - apply tidy_list, tidy_role.
  - apply tidy_list, tidy_contribution.
  - eapply tidy_items; [apply tidy_validator|by destruct ok_validators0].
  - apply tidy_list, tidy_workflow.
Qed.

Lemma tidy_object_json n digest m :
  contributions_ok (m_contributions m) → (∀ k, tidy_value k digest = true) →
  tidy (12 + n) (object_json digest m) = true.
Proof.
  intros Hc Hd. unfold object_json. tidy_object; cbn [tidy_value from_option].
  - by apply tidy_contributions.
  - apply tidy_list, tidy_dependency.
Qed.

(** * What the canonical text says *)

Lemma NoDup_id_inj {A} (id_of : A → string) l x y :
  NoDup (id_of <$> l) → x ∈ l → y ∈ l → id_of x = id_of y → x = y.
Proof.
  induction l as [|a l IH]; [by intros _ ?%elem_of_nil|]. rewrite fmap_cons, NoDup_cons.
  intros [Ha Hl] Hx Hy Heq. apply elem_of_cons in Hx as [->|Hx], Hy as [->|Hy]; [done| | |by apply IH].
  - destruct Ha. rewrite Heq. apply list_elem_of_fmap. by exists y.
  - destruct Ha. rewrite <- Heq. apply list_elem_of_fmap. by exists x.
Qed.

Lemma by_id_perm {A} (id_of : A → string) l l' :
  NoDup (id_of <$> l) → by_id id_of l = by_id id_of l' ↔ l ≡ₚ l'.
Proof.
  intros Hd. unfold by_id. split.
  - intros Heq. rewrite <- (sort_by_perm (λ a b, compare_text (id_of a) (id_of b)) l), Heq.
    apply sort_by_perm.
  - intros Hp. apply (sort_by_perm_eq (compare_by id_of)); [done|].
    intros x y Hx Hy H1 H2. apply (NoDup_id_inj id_of l); [done..|]. by apply compare_text_antisym.
Qed.

Lemma entries_by_id {A} (ok : A → Prop) (id_of : A → string) l :
  entries_ok ok id_of l → entries_ok ok id_of (by_id id_of l).
Proof. unfold entries_ok, by_id. intros [H1 H2]. by rewrite sort_by_perm. Qed.

(** What a reader reads back determines what was written. *)
Lemma written_inj {A} (p : option cjson → string → outcome A) q ok `{!Parses p q ok} l l' :
  Forall ok l → Forall ok l' → CArr (q <$> l) = CArr (q <$> l') → l = l'.
Proof.
  intros Hl Hl' [= Heq]. pose proof (map_entries_back p q ok "" 0 l Hl) as H1.
  pose proof (map_entries_back p q ok "" 0 l' Hl') as H2. congruence.
Qed.

Lemma section_perm {A} (p : option cjson → string → outcome A) q ok id_of `{!Parses p q ok} l l' :
  entries_ok ok id_of l → entries_ok ok id_of l' →
  CArr (q <$> by_id id_of l) = CArr (q <$> by_id id_of l') → l ≡ₚ l'.
Proof.
  intros Hl Hl' Heq. apply (by_id_perm id_of); [by destruct Hl|].
  eapply (written_inj p q ok); [..|done]; by apply entries_by_id.
Qed.

(** The same object has the same members. *)
Lemma present_inj l l' key :
  bool_decide (NoDup l.*1) = true → bool_decide (NoDup l'.*1) = true →
  CObj (present l) = CObj (present l') → assoc key l = assoc key l'.
Proof.
  intros Hl Hl' [= Heq]. by rewrite <- (field_written l), <- (field_written l'), Heq.
Qed.

(** Reads the member [key] of two equal objects. *)
Ltac member_eq H key H' :=
  pose proof H as H'; apply (present_inj _ _ key) in H';
  [|vm_compute; reflexivity|vm_compute; reflexivity];
  cbn [assoc String.eqb Ascii.eqb Bool.eqb kind_name] in H'; apply (inj Some) in H'.

(** The sections of two pieces of content, compared one by one. *)
Definition same_sections (c d : DomainPackContributions) : Prop :=
  c_roles c ≡ₚ c_roles d ∧ c_taskTypes c ≡ₚ c_taskTypes d ∧ c_workflows c ≡ₚ c_workflows d ∧
  c_agents c ≡ₚ c_agents d ∧ c_artifactTypes c ≡ₚ c_artifactTypes d ∧
  c_evidenceTypes c ≡ₚ c_evidenceTypes d ∧ c_policies c ≡ₚ c_policies d ∧
  c_knowledge c ≡ₚ c_knowledge d ∧ c_capabilities c ≡ₚ c_capabilities d ∧
  c_prompts c ≡ₚ c_prompts d ∧ c_validators c ≡ₚ c_validators d.

Lemma contributions_inj c d :
  contributions_ok c → contributions_ok d →
  contributions_json (sort_contributions c) = contributions_json (sort_contributions d) →
  same_sections c d.
Proof.
  intros [] [] H. unfold contributions_json, section_json in H.
  member_eq H "roles" H1. member_eq H "taskTypes" H2. member_eq H "workflows" H3.
  member_eq H "agents" H4. member_eq H "artifactTypes" H5. member_eq H "evidenceTypes" H6.
  member_eq H "policies" H7. member_eq H "knowledge" H8. member_eq H "capabilities" H9.
  member_eq H "prompts" H10. member_eq H "validators" H11. clear H.
  split; [by apply (section_perm role_contribution role_json role_ok role_id)|].
  split; [by apply (section_perm task_type_contribution contribution_json common_ok co_id)|].
  split; [by apply (section_perm workflow_contribution workflow_json workflow_ok workflow_id)|].
  split; [by apply (section_perm agent_contribution agent_json agent_ok agent_id)|].
  split; [by apply (section_perm artifact_contribution artifact_json artifact_ok artifact_id)|].
  split; [by apply (section_perm evidence_contribution evidence_json evidence_ok evidence_id)|].
  split; [by apply (section_perm policy_contribution policy_json policy_ok policy_id)|].
  split; [by apply (section_perm knowledge_contribution knowledge_json knowledge_ok knowledge_id)|].
  split; [by apply (section_perm capability_contribution capability_json capability_ok capability_id)|].
  split; [by apply (section_perm prompt_contribution prompt_json prompt_ok prompt_id)|].
  by apply (section_perm validator_contribution validator_json validator_ok validator_id).
Qed.

Lemma contributions_same c d :
  contributions_ok c → same_sections c d → sort_contributions c = sort_contributions d.
Proof.
  intros [] (H1 & H2 & H3 & H4 & H5 & H6 & H7 & H8 & H9 & H10 & H11). unfold sort_contributions.
  f_equal; by apply by_id_perm; [match goal with H : entries_ok _ _ ?l |- NoDup (_ <$> ?l) => destruct H end|].
Qed.

(** The same manifest up to the order of its entries and its digest. *)
Record same_content (m n : DomainPackManifest) : Prop := {
  same_id : m_id m = m_id n;
  same_version : m_version m = m_version n;
  same_core : m_coreContract m = m_coreContract n;
  same_name : m_name m = m_name n;
  same_description : m_description m = m_description n;
  same_dependencies : m_dependencies m ≡ₚ m_dependencies n;
  same_contributions : same_sections (m_contributions m) (m_contributions n)
}.

Lemma normalized_same m n : manifest_ok m → manifest_ok n → normalized m = normalized n ↔ same_content m n.
Proof.
  intros [? ? ? Hcore Hdeps Hc ?] [? ? ? Hcore' Hdeps' Hc' ?]. split.
  - intros H. unfold normalized, object_json in H.
    member_eq H "contributions" H1. member_eq H "coreContract" H2. member_eq H "dependencies" H3.
    member_eq H "id" H4. member_eq H "metadata" H5. member_eq H "version" H6. clear H.
    cbn [sort_manifest m_contributions m_coreContract m_dependencies m_id m_version m_name
      m_description metadata_json] in *.
    unfold metadata_json in H5. member_eq H5 "name" H7. member_eq H5 "description" H8.
    split; [congruence|congruence| |cbn in H7; congruence|cbn in H8; congruence| |].
    + pose proof (core_back _ Hcore) as E1. pose proof (core_back _ Hcore') as E2. congruence.
    + by apply (section_perm dependency dependency_json dependency_ok dep_id).
    + by apply contributions_inj.
  - intros [H1 H2 H3 H4 H5 H6 H7]. unfold normalized, object_json, metadata_json, sort_manifest.
    cbn [m_contributions m_coreContract m_dependencies m_id m_version m_name m_description].
    rewrite H1, H2, H3, H4, H5, (contributions_same _ _ Hc H7).
    by rewrite (proj2 (by_id_perm dep_id _ _ (proj2 Hdeps)) H6).
Qed.

Section text.
  Context `{ShowNumberLaws}.

Lemma canonicalize_Ok m :
  manifest_ok m → plain_numbers (normalized m) = true →
  canonicalizeDomainPackManifest m = Ok (stringify (normalized m)).
Proof.
  intros Hm Hn. unfold canonicalizeDomainPackManifest. rewrite validate_back by done.
  cbn [mbind result_bind]. apply jcs_sorted; [|done]. apply (tidy_sorted 12), tidy_object_json; [|done].
  destruct Hm as [_ _ _ _ _ [] _]. split; cbn; by apply entries_by_id.
Qed.

Lemma canonical_text_inj m n :
  manifest_ok m → manifest_ok n → plain_numbers (normalized m) = true →
  plain_numbers (normalized n) = true →
  stringify (normalized m) = stringify (normalized n) ↔ same_content m n.
Proof.
  intros Hm Hn Hpm Hpn. rewrite <- (normalized_same m n) by done. split; [|by intros ->].
  intros Heq. apply (stringify_plain_inj _ _ "" ""); try done. by rewrite Heq.
Qed.

End text.

End PackDigest.
