(* ===== verification/StrictJson.v ===== *)
(** The strict JSON reader of Domain Pack manifests, and the manifest read from
    bytes.  Models [StrictJsonReader], [parseDomainPackManifest] and
    [verifyDomainPackManifest] of
    [packages/domain-pack-contracts/src/manifest.ts].

    The reader's position is the text that is left.  Its recursion is bounded by
    a fuel, which [read] chooses from the length of the text; a reading that ran
    out of fuel is [None], and [StrictJsonLaws] shows that none does.  What the
    language does with the text of a number ([Number]) and of a string literal
    ([JSON.parse]) and the UTF-8 decoder are parameters. *)
From S2P Require Import Prelude Errors Json ActionModel PolicyModel Text Members PackSchema PackManifest PackCanonical.
Import Canonical Policy Text Members PackSchema PackManifest PackCanonical.

Module StrictJson.

(** [Number(text)] on the text of a JSON number. *)
Class ReadNumber := read_number : string → number.

(** [JSON.parse(text)] on the text of a string literal; [None] if it throws. *)
Class ReadLiteral := read_literal : string → option string.

(** A step of the reader: the text that is left, a refusal, or no fuel. *)
Definition reader (A : Type) : Type := string → option (outcome (A * string)).

#[global] Instance reader_ret : MRet reader := λ A a s, Some (Ok (a, s)).
#[global] Instance reader_bind : MBind reader := λ A B f m s,
  match m s with
  | Some (Ok (a, s')) => f a s'
  | Some (Throw e) => Some (Throw e)
  | None => None
  end.

Definition refuse {A} (message : string) : reader A :=
  λ _, Some (Throw (failure "malformed_input" "$" message)).

Definition exhausted {A} : reader A := λ _, None.

(** [this.source[this.index]] *)
Definition peek : reader (option Ascii.ascii) := λ s,
  Some (Ok (match s with EmptyString => None | String c _ => Some c end, s)).

(** [this.source[this.index++]] *)
Definition next : reader (option Ascii.ascii) := λ s,
  Some (Ok (match s with EmptyString => (None, s) | String c rest => (Some c, rest) end)).

(** * Characters and numbers *)

Definition comma : Ascii.ascii := Eval cbv in Ascii.ascii_of_nat 44.
Definition colon : Ascii.ascii := Eval cbv in Ascii.ascii_of_nat 58.
Definition zero : Ascii.ascii := Eval cbv in Ascii.ascii_of_nat 48.
Definition minus : Ascii.ascii := Eval cbv in Ascii.ascii_of_nat 45.
Definition open_bracket : Ascii.ascii := Eval cbv in Ascii.ascii_of_nat 91.
Definition close_bracket : Ascii.ascii := Eval cbv in Ascii.ascii_of_nat 93.
Definition open_brace : Ascii.ascii := Eval cbv in Ascii.ascii_of_nat 123.
Definition close_brace : Ascii.ascii := Eval cbv in Ascii.ascii_of_nat 125.

(** A blank, a tab or the end of a line. *)
Definition is_blank (c : Ascii.ascii) : bool :=
  match Ascii.nat_of_ascii c with 32 | 9 | 10 | 13 => true | _ => false end.

Fixpoint skip_blanks (s : string) : string :=
  match s with
  | String c rest => if is_blank c then skip_blanks rest else s
  | EmptyString => s
  end.

Definition space : reader unit := λ s, Some (Ok (tt, skip_blanks s)).

(** The longest start of [p] characters, and the rest. *)
Fixpoint span (p : Ascii.ascii → bool) (s : string) : string * string :=
  match s with
  | String c rest => if p c then let (a, b) := span p rest in (String c a, b) else ("", s)
  | EmptyString => ("", "")
  end.

(** Zero, or digits that do not start with zero. *)
Definition integer_part (s : string) : option (string * string) :=
  match s with
  | String c rest =>
      if Ascii.eqb c zero then Some (String c "", rest)
      else if is_digit c then let (a, b) := span is_digit rest in Some (String c a, b)
      else None
  | EmptyString => None
  end.

(** An optional minus sign and an integer part. *)
Definition signed_part (s : string) : option (string * string) :=
  match s with
  | String c rest =>
      if Ascii.eqb c minus then (λ x, (String c x.1, x.2)) <$> integer_part rest else integer_part s
  | EmptyString => None
  end.

(** [head], then at least one digit; otherwise nothing. *)
Definition with_digits (head rest s : string) : string * string :=
  match span is_digit rest with
  | (EmptyString, _) => ("", s)
  | (digits, after) => (head +:+ digits, after)
  end.

(** A point and digits, or nothing. *)
Definition fraction (s : string) : string * string :=
  match s with
  | String c rest => if Ascii.eqb c dot then with_digits (String c "") rest s else ("", s)
  | EmptyString => ("", s)
  end.

(** [e] or [E], a sign or none, and digits; or nothing. *)
Definition exponent (s : string) : string * string :=
  match s with
  | String c rest =>
      if one_of "eE" c then
        match rest with
        | String sign rest' =>
            if one_of "+-" sign then with_digits (String c (String sign "")) rest' s
            else with_digits (String c "") rest s
        | EmptyString => ("", s)
        end
      else ("", s)
  | EmptyString => ("", s)
  end.

(** The number a text starts with, and the rest. *)
Definition number_text (s : string) : option (string * string) :=
  match signed_part s with
  | None => None
  | Some (a, s1) =>
      let (b, s2) := fraction s1 in
      let (c, s3) := exponent s2 in
      Some (a +:+ b +:+ c, s3)
  end.

(** The pattern of an integer, on the whole text. *)
Definition integer_text (text : string) : bool :=
  match signed_part text with Some (_, rest) => bool_decide (rest = "") | None => false end.

(** [this.index += n] *)
Fixpoint advance (n : nat) (s : string) : string :=
  match n, s with S n, String _ rest => advance n rest | _, _ => s end.

Definition words : list (string * cjson) :=
  [("true", CBool true); ("false", CBool false); ("null", CNull)].

(** The loop of [quoted], from after the opening quote: what stands before the
    closing one, and what follows it. *)
Fixpoint scan (escaped : bool) (s : string) : outcome (string * string) :=
  match s with
  | EmptyString => Throw (failure "malformed_input" "$" "unterminated JSON string")
  | String c rest =>
      if negb escaped && Ascii.eqb c dquote then Ok ("", rest)
      else if negb escaped && (Ascii.nat_of_ascii c <? 32) then
        Throw (failure "malformed_input" "$" "unescaped control character")
      else
        r ← scan (negb escaped && Ascii.eqb c backslash) rest;
        Ok (String c r.1, r.2)
  end.

Section reading.
  Context `{ReadNumber} `{ReadLiteral}.

(** [quoted]; the quote it stands at is not looked at again. *)
Definition quoted : reader string := λ s,
  match s with
  | EmptyString => refuse "unterminated JSON string" s
  | String _ rest =>
      match scan false rest with
      | Throw e => Some (Throw e)
      | Ok (body, after) =>
          match read_literal (String dquote (body +:+ String dquote "")) with
          | None => refuse "invalid JSON string escape" s
          | Some text => Some (Ok (text, after))
          end
      end
  end.

(** The end of [value]: a number, or nothing that is JSON.  [total] is the
    length of the whole text. *)
Definition numeral (total : nat) : reader cjson := λ s,
  match number_text s with
  | None => refuse ("invalid JSON at offset " +:+ show_Z (Z.of_nat (total - String.length s))) s
  | Some (text, after) =>
      let n := read_number text in
      if negb (is_finite n) || (integer_text text && negb (is_safe_integer n)) then
        refuse "number is outside interoperable JSON range" s
      else Some (Ok (CNum n, after))
  end.

(** The words, then the numbers. *)
Definition scalar (total : nat) : reader cjson := λ s,
  match List.find (λ w, starts_with s w.1) words with
  | Some (word, value) =>
      Some (Ok (value, advance (String.length word) s))
  | None => numeral total s
  end.

Definition maximumDepth : nat := 128.

(** [value], and the loops of [object] and [array]. *)
Fixpoint value (total fuel depth : nat) {struct fuel} : reader cjson :=
  match fuel with
  | 0 => exhausted
  | S fuel =>
      if maximumDepth <? depth then refuse "JSON nesting limit exceeded"
      else
        space;;
        c ← peek;
        if bool_decide (c = Some open_brace) then
          next;; space;;
          d ← peek;
          if bool_decide (d = Some close_brace) then next;; mret (CObj [])
          else l ← members total fuel (S depth) []; mret (CObj (own_order l))
        else if bool_decide (c = Some open_bracket) then
          next;; space;;
          d ← peek;
          if bool_decide (d = Some close_bracket) then next;; mret (CArr [])
          else l ← elements total fuel (S depth); mret (CArr l)
        else if bool_decide (c = Some dquote) then
          text ← quoted; mret (CStr text)
        else scalar total
  end
with members (total fuel depth : nat) (result : list (string * cjson)) {struct fuel}
    : reader (list (string * cjson)) :=
  match fuel with
  | 0 => exhausted
  | S fuel =>
      space;;
      c ← peek;
      if negb (bool_decide (c = Some dquote)) then refuse "object key must be a string"
      else
        key ← quoted;
        if includes key result.*1 then refuse ("duplicate JSON member " +:+ key)
        else
          space;;
          c ← next;
          if negb (bool_decide (c = Some colon)) then refuse "expected colon"
          else
            v ← value total fuel depth;
            space;;
            separator ← next;
            if bool_decide (separator = Some close_brace) then mret (result ++ [(key, v)])
            else if negb (bool_decide (separator = Some comma)) then
              refuse "expected comma or object end"
            else members total fuel depth (result ++ [(key, v)])
  end
with elements (total fuel depth : nat) {struct fuel} : reader (list cjson) :=
  match fuel with
  | 0 => exhausted
  | S fuel =>
      v ← value total fuel depth;
      space;;
      separator ← next;
      if bool_decide (separator = Some close_bracket) then mret [v]
      else if negb (bool_decide (separator = Some comma)) then refuse "expected comma or array end"
      else l ← elements total fuel depth; mret (v :: l)
  end.

(** The whole text. *)
Definition document (total fuel : nat) : reader cjson :=
  v ← value total fuel 0;
  space;;
  c ← peek;
  if bool_decide (c = None) then mret v else refuse "trailing JSON content".

Definition fuel_for (source : string) : nat := 2 * String.length source + 1.

(** [new StrictJsonReader(source).read()]; [None] never happens. *)
Definition read (source : string) : option (outcome cjson) :=
  (λ r, p ← r; Ok p.1) <$> document (String.length source) (fuel_for source) source.

End reading.

(** * Manifests in bytes *)

Section manifests.
  Context `{ShowNumber} `{ReadNumber} `{ReadLiteral} (utf8 : string → option string).
  Context (sha256 : string → string).

Definition byte_order_mark : string :=
  String (Ascii.ascii_of_nat 239) (String (Ascii.ascii_of_nat 187) (String (Ascii.ascii_of_nat 191) "")).

(** The bytes are a string of 8-bit characters; [utf8] is the fatal decoder,
    [None] where it throws. *)
Definition parseDomainPackManifest (bytes : string) : outcome DomainPackManifest :=
  throw_if (starts_with bytes byte_order_mark)
    (failure "malformed_input" "$" "UTF-8 BOM is forbidden");;
  match utf8 bytes with
  | None => Throw (failure "malformed_input" "$" "invalid UTF-8")
  | Some source =>
      match read source with
      | None => Throw ThrownValue
      | Some result => value ← result; validateDomainPackManifest value
      end
  end.

Definition verifyDomainPackManifest (bytes : string) (coreContractVersion : option number)
    : outcome DomainPackManifest :=
  manifest ← parseDomainPackManifest bytes;
  check_manifest sha256 manifest coreContractVersion.

End manifests.

End StrictJson.
