(* ===== verification/StrictJsonRoundtrip.v ===== *)
(** The strict JSON reader reads back what [JSON.stringify] and the RFC 8785
    serializer write. *)
From S2P Require Import Prelude Errors Json ActionModel PolicyModel Text Members PackSchema PackManifest PackCanonical PackLaws StrictJson StrictJsonLaws.
Import Canonical Policy Text Members PackSchema PackManifest PackCanonical PackLaws StrictJson StrictJsonLaws.

Module StrictJsonRoundtrip.

(** * What the language's conversions do *)

(** The text of a number is a JSON number, only an integer is written like one,
    and [Number] reads the number back. *)
Class ReadNumberLaws `{ShowNumber} `{ReadNumber} : Prop := {
  number_text_show n :
    canonical_number n = true → number_text (show_number n) = Some (show_number n, "");
  integer_text_show n :
    canonical_number n = true → integer_text (show_number n) = true → is_integer n = true;
  read_show n : canonical_number n = true → read_number (show_number n) = n
}.

(** [JSON.parse] reads back the literal [JSON.stringify] writes. *)
Class ReadLiteralLaws `{ReadLiteral} : Prop := { read_quote s : read_literal (quote s) = Some s }.

(** * Values that survive *)

(** The members of every object are in the order the language keeps them in. *)
Fixpoint own_value (value : cjson) : bool :=
  match value with
  | CArr items => forallb own_value items
  | CObj members =>
      bool_decide (NoDup members.*1) && bool_decide ((own_order members).*1 = members.*1) &&
      forallb (λ m, own_value m.2) members
  | _ => true
  end.

(** A number that JSON readers agree on. *)
Definition interoperable_number (n : number) : bool :=
  canonical_number n && (negb (is_integer n) || is_safe_integer n).

Fixpoint interoperable (value : cjson) : bool :=
  match value with
  | CNum n => interoperable_number n
  | CArr items => forallb interoperable items
  | CObj members => forallb (λ m, interoperable m.2) members
  | _ => true
  end.

(** How deep the values inside a value are. *)
Fixpoint nesting (value : cjson) : nat :=
  match value with
  | CArr items => foldr max 0 (map (λ v, S (nesting v)) items)
  | CObj members => foldr max 0 (map (λ m, S (nesting m.2)) members)
  | _ => 0
  end.

Lemma own_order_own (l : list (string * cjson)) :
  NoDup l.*1 → (own_order l).*1 = l.*1 → own_order l = l.
Proof.
  intros Hd Hk. symmetry. apply keys_determine; [done|by rewrite own_order_perm|done].
Qed.

Lemma nesting_le {A} (f : A → nat) l x n : x ∈ l → foldr max 0 (map (λ v, S (f v)) l) ≤ n → S (f x) ≤ n.
Proof.
  induction l as [|y l IH]; [by intros ?%elem_of_nil|]. cbn. intros [->|Hx]%elem_of_cons Hn; [lia|].
  apply IH; [done|lia].
Qed.

(** * Characters *)

Lemma kind_not_blank c : kind_of_char c < 7 → is_blank c = false.
Proof.
  intros Hk. apply Nat.ltb_lt in Hk. by destruct c as [[] [] [] [] [] [] [] []].
Qed.

Lemma delimiter_not_blank c : one_of delimiters c = true → is_blank c = false.
Proof. by destruct c as [[] [] [] [] [] [] [] []]. Qed.

Lemma skip_closing r : closing r → skip_blanks r = r.
Proof. destruct r as [|c r]; [done|]. cbn. intros H. by rewrite delimiter_not_blank. Qed.

Lemma scan_escape_char c r :
  scan false (escape_char c +:+ r) = (x ← scan false r; Ok (escape_char c +:+ x.1, x.2)).
Proof.
  destruct c as [[] [] [] [] [] [] [] []]; simpl; change ("" +:+ r) with r;
    by destruct (scan false r) as [[a b]|e].
Qed.

Lemma scan_escape s r : scan false (escape s +:+ String dquote r) = Ok (escape s, r).
Proof.
  induction s as [|c s IH]; [done|]. cbn [escape].
  rewrite string_app_assoc, scan_escape_char, IH. done.
Qed.

(** ** Numbers *)

(** A rest that no number goes on with. *)
Lemma closing_head c r : closing (String c r) →
  is_digit c = false ∧ Ascii.eqb c dot = false ∧ one_of "eE" c = false ∧ one_of "+-" c = false.
Proof. by destruct c as [[] [] [] [] [] [] [] []]. Qed.

(** A rest that does not start with a digit. *)
Definition no_digit (r : string) : Prop :=
  match r with EmptyString => True | String c _ => is_digit c = false end.

Lemma closing_no_digit r : closing r → no_digit r.
Proof. destruct r as [|c r]; [done|]. intros H. by destruct (closing_head _ _ H). Qed.

Lemma span_closing s r :
  no_digit r → span is_digit (s +:+ r) = ((span is_digit s).1, (span is_digit s).2 +:+ r).
Proof.
  intros Hr. induction s as [|c s IH].
  - destruct r as [|c r]; [done|]. change ("" +:+ String c r) with (String c r). cbn [span].
    cbn in Hr. by rewrite Hr.
  - change (String c s +:+ r) with (String c (s +:+ r)). cbn [span].
    destruct (is_digit c); [|done]. rewrite IH. by destruct (span is_digit s).
Qed.

Lemma integer_part_closing s r a b :
  no_digit r → integer_part s = Some (a, b) → integer_part (s +:+ r) = Some (a, b +:+ r).
Proof.
  intros Hr. unfold integer_part. destruct s as [|c s]; [done|].
  change (String c s +:+ r) with (String c (s +:+ r)); cbv beta iota.
  destruct (Ascii.eqb c zero); [by intros [= <- <-]|]. destruct (is_digit c); [|done].
  rewrite span_closing by done. destruct (span is_digit s). by intros [= <- <-].
Qed.

Lemma signed_part_closing s r a b :
  no_digit r → signed_part s = Some (a, b) → signed_part (s +:+ r) = Some (a, b +:+ r).
Proof.
  intros Hr. unfold signed_part. destruct s as [|c s]; [done|].
  change (String c s +:+ r) with (String c (s +:+ r)); cbv beta iota. destruct (Ascii.eqb c minus).
  - destruct (integer_part s) as [[x y]|] eqn:Hi; [|done]. intros [= <- <-].
    by rewrite (integer_part_closing _ _ _ _ Hr Hi).
  - intros H. by apply (integer_part_closing (String c s)).
Qed.

Lemma with_digits_closing head rest s r a b :
  closing r → with_digits head rest s = (a, b) →
  with_digits head (rest +:+ r) (s +:+ r) = (a, b +:+ r).
Proof.
  intros Hr. unfold with_digits. rewrite span_closing by (by apply closing_no_digit).
  destruct (span is_digit rest) as [[|c x] y]; cbn; by intros [= <- <-].
Qed.

Lemma fraction_closing s r a b :
  closing r → fraction s = (a, b) → fraction (s +:+ r) = (a, b +:+ r).
Proof.
  intros Hr. unfold fraction. destruct s as [|c s].
  - intros [= <- <-]. destruct r as [|c r]; [done|]. change ("" +:+ String c r) with (String c r); cbv beta iota.
    by destruct (closing_head _ _ Hr) as (_ & -> & _).
  - change (String c s +:+ r) with (String c (s +:+ r)); cbv beta iota. destruct (Ascii.eqb c dot).
    + by apply (with_digits_closing _ _ (String c s)).
    + by intros [= <- <-].
Qed.

Lemma exponent_closing s r a b :
  closing r → exponent s = (a, b) → exponent (s +:+ r) = (a, b +:+ r).
Proof.
  intros Hr. unfold exponent. destruct s as [|c s].
  - intros [= <- <-]. destruct r as [|c r]; [done|]. change ("" +:+ String c r) with (String c r); cbv beta iota.
    by destruct (closing_head _ _ Hr) as (_ & _ & -> & _).
  - change (String c s +:+ r) with (String c (s +:+ r)); cbv beta iota. destruct (one_of "eE" c); [|by intros [= <- <-]].
    destruct s as [|d s].
    + intros [= <- <-]. destruct r as [|d r]; [done|].
      change ("" +:+ String d r) with (String d r); cbv beta iota.
      destruct (closing_head _ _ Hr) as (Hd & _ & _ & ->). unfold with_digits. cbn [span]. by rewrite Hd.
    + change (String d s +:+ r) with (String d (s +:+ r)); cbv beta iota. destruct (one_of "+-" d).
      * by apply (with_digits_closing _ _ (String c (String d s))).
      * by apply (with_digits_closing _ (String d s) (String c (String d s))).
Qed.

Lemma number_text_closing t r a :
  closing r → number_text t = Some (a, "") → number_text (t +:+ r) = Some (a, r).
Proof.
  intros Hr. unfold number_text. destruct (signed_part t) as [[x1 s1]|] eqn:H1; [|done].
  destruct (fraction s1) as [x2 s2] eqn:H2. destruct (exponent s2) as [x3 s3] eqn:H3.
  intros [= <- ->]. rewrite (signed_part_closing _ _ _ _ (closing_no_digit _ Hr) H1), (fraction_closing _ _ _ _ Hr H2).
  by rewrite (exponent_closing _ _ _ _ Hr H3).
Qed.

(** * Reading what was written *)

Section roundtrip.
  Context `{ShowNumberLaws} `{!ReadNumber} `{!ReadLiteral}.
  Context `{!ReadNumberLaws} `{!ReadLiteralLaws}.

Lemma quoted_quote s r : quoted (quote s +:+ r) = Some (Ok (s, r)).
Proof.
  unfold quoted, quote. change (String dquote (escape s +:+ String dquote "") +:+ r)
    with (String dquote ((escape s +:+ String dquote "") +:+ r)). cbv beta iota.
  rewrite string_app_assoc. change (String dquote "" +:+ r) with (String dquote r).
  rewrite scan_escape. cbv beta iota.
  change (String dquote (escape s +:+ String dquote "")) with (quote s). by rewrite read_quote.
Qed.

Lemma number_char_not_word c s :
  one_of number_chars c = true → List.find (λ w, starts_with (String c s) w.1) words = None.
Proof.
  intros Hc. unfold starts_with. cbn [List.find words fst String.prefix].
  by destruct c as [[] [] [] [] [] [] [] []].
Qed.

Lemma scalar_number total n r :
  interoperable_number n = true → closing r →
  scalar total (show_number n +:+ r) = Some (Ok (CNum n, r)).
Proof.
  intros [Hc Hs]%andb_prop Hr. unfold scalar.
  pose proof (show_number_chars n) as Hchars. pose proof (show_number_nonempty n) as Hne.
  assert (List.find (λ w, starts_with (show_number n +:+ r) w.1) words = None) as ->.
  { destruct (show_number n) as [|c t]; [done|]. cbn in Hchars. apply andb_prop in Hchars as [Hd _].
    by apply (number_char_not_word c (t +:+ r)). }
  unfold numeral. rewrite (number_text_closing _ r _ Hr (number_text_show n Hc)).
  rewrite (read_show n Hc). apply andb_prop in Hc as Hc'. destruct Hc' as [-> _]. cbn [negb orb].
  destruct (integer_text (show_number n)) eqn:Hi; [|done].
  rewrite (integer_text_show n Hc Hi) in Hs. cbn [negb orb] in Hs. by rewrite Hs.
Qed.

(** The first character of a value that is written. *)
Lemma value_head v r :
  ∃ c t, stringify v +:+ r = String c t ∧ skip_blanks (String c t) = String c t ∧
    kind_of_char c = kind v.
Proof.
  destruct (stringify_head v r) as (c & t & Heq & Hk). exists c, t. split; [done|]. split; [|done].
  cbn. rewrite kind_not_blank; [done|]. rewrite Hk. by destruct v as [|[]| | | |]; cbn; lia.
Qed.

(** A value that is not an object, an array or a string. *)
Lemma value_scalar total fuel depth s c t :
  depth ≤ maximumDepth → s = String c t → is_blank c = false →
  c ≠ open_brace → c ≠ open_bracket → c ≠ dquote →
  value total (S fuel) depth s = scalar total s.
Proof.
  intros Hd -> Hb Hb1 Hb2 Hb3. cbn [value]. rewrite (proj2 (Nat.ltb_ge _ _)) by done.
  rewrite space_bind. cbn [skip_blanks]. rewrite Hb, peek_bind.
  rewrite !bool_decide_eq_false_2 by (by intros [= ->]). done.
Qed.

(** The text of a member. *)
Definition member_text (m : string * cjson) : string := quote m.1 +:+ ":" +:+ stringify m.2.

Lemma join_head_length {A} (f : A → string) x l :
  String.length (f x) ≤ String.length (join "," (map f (x :: l))) ∧
  (l ≠ [] → String.length (join "," (map f (x :: l))) =
     String.length (f x) + 1 + String.length (join "," (map f l))).
Proof.
  destruct l as [|y l]; [done|].
  change (join "," (map f (x :: y :: l))) with (f x +:+ "," +:+ join "," (map f (y :: l))).
  rewrite Canonical.string_app_length. change (String.length ("," +:+ join "," (map f (y :: l))))
    with (S (String.length (join "," (map f (y :: l))))). split; [|intros _]; lia.
Qed.

Lemma member_text_length k v :
  String.length (member_text (k, v)) =
    String.length (quote k) + 1 + String.length (stringify v).
Proof.
  unfold member_text. cbn [fst snd]. rewrite Canonical.string_app_length.
  change (String.length (":" +:+ stringify v)) with (S (String.length (stringify v))). lia.
Qed.

(** [v] is read from its text with [fuel] for each of its characters. *)
Definition reads (total : nat) (v : cjson) : Prop := ∀ fuel depth r,
  2 * String.length (stringify v) + 1 ≤ fuel → depth + nesting v ≤ maximumDepth → closing r →
  value total fuel depth (stringify v +:+ r) = Some (Ok (v, r)).

Lemma elements_read total l fuel depth r :
  l ≠ [] → Forall (reads total) l → Forall (λ v, depth + nesting v ≤ maximumDepth) l →
  2 * String.length (join "," (map stringify l)) + 2 ≤ fuel →
  elements total fuel depth (join "," (map stringify l) +:+ String close_bracket r) =
    Some (Ok (l, r)).
Proof.
  intros Hne Hl Hn. revert fuel Hne. induction Hl as [|v l Hv Hl IH]; intros fuel Hne Hf; [done|].
  apply Forall_cons in Hn as [Hnv Hn]. rewrite (join_cons stringify close_bracket).
  destruct fuel as [|fuel]; [lia|]. rewrite elements_S. unfold element_round.
  assert (String.length (stringify v) ≤ String.length (join "," (map stringify (v :: l)))) as Hlen.
  { apply join_head_length. }
  rewrite (reader_run _ _ _ v (rest_of stringify close_bracket l r)).
  2: { apply Hv; [lia|done|]. by apply rest_of_closing. }
  rewrite space_bind, skip_closing by (by apply rest_of_closing).
  destruct l as [|w l]; [done|]. cbn [rest_of].
  set (rest := join "," (map stringify (w :: l)) +:+ String close_bracket r).
  change ("," +:+ rest) with (String comma rest). subst rest.
  rewrite next_cons, (bool_decide_eq_false_2 (Some comma = Some close_bracket)) by done.
  rewrite bool_decide_eq_true_2 by done. cbn [negb].
  rewrite (reader_run _ _ _ (w :: l) r); [done|]. apply IH; [done|done|].
  rewrite (proj2 (join_head_length stringify v (w :: l))) in Hf by done. lia.
Qed.

Lemma members_read total l acc fuel depth r :
  l ≠ [] → Forall (λ m, reads total m.2) l →
  Forall (λ m, depth + nesting m.2 ≤ maximumDepth) l → NoDup (acc.*1 ++ l.*1) →
  2 * String.length (join "," (map member_text l)) + 2 ≤ fuel →
  members total fuel depth acc (join "," (map member_text l) +:+ String close_brace r) =
    Some (Ok (acc ++ l, r)).
Proof.
  intros Hne Hl. revert fuel acc Hne.
  induction Hl as [|[k v] l Hv Hl IH]; intros fuel acc Hne Hn Hd Hf; [done|].
  apply Forall_cons in Hn as [Hnv Hn]. cbn [snd] in Hv, Hnv.
  rewrite (join_cons member_text close_brace).
  destruct fuel as [|fuel]; [lia|]. rewrite members_S. unfold member_round.
  assert (String.length (quote k) + 1 + String.length (stringify v) ≤
    String.length (join "," (map member_text ((k, v) :: l)))) as Hlen.
  { rewrite <- member_text_length. apply join_head_length. }
  set (rest := rest_of member_text close_brace l r).
  unfold member_text at 1. cbn [fst snd]. rewrite !string_app_assoc.
  assert (∀ t, skip_blanks (quote k +:+ t) = quote k +:+ t) as Hq by done.
  rewrite space_bind, Hq, peek_bind. cbv beta iota.
  change (quote k +:+ ":" +:+ stringify v +:+ rest)
    with (String dquote ((escape k +:+ String dquote "") +:+ ":" +:+ stringify v +:+ rest)).
  cbv beta iota. rewrite bool_decide_eq_true_2 by done. cbn [negb].
  change (String dquote ((escape k +:+ String dquote "") +:+ ":" +:+ stringify v +:+ rest))
    with (quote k +:+ String colon (stringify v +:+ rest)).
  rewrite (reader_run _ _ _ _ _ (quoted_quote k _)).
  assert (includes k acc.*1 = false) as ->.
  { apply includes_false. intros Hin. cbn [fmap list_fmap fst] in Hd. apply NoDup_app in Hd as (_ & Hd & _).
    apply (Hd k Hin). by left. }
  rewrite space_bind. cbn [skip_blanks is_blank Ascii.nat_of_ascii]. change (is_blank colon) with false.
  cbv beta iota. rewrite next_cons, bool_decide_eq_true_2 by done. cbn [negb].
  rewrite (reader_run _ _ _ v rest).
  2: { apply Hv; [|done|by apply rest_of_closing]. lia. }
  subst rest. rewrite space_bind, skip_closing by (by apply rest_of_closing).
  destruct l as [|w l]; [done|]. cbn [rest_of].
  set (rest := join "," (map member_text (w :: l)) +:+ String close_brace r).
  change ("," +:+ rest) with (String comma rest). subst rest.
  rewrite next_cons, (bool_decide_eq_false_2 (Some comma = Some close_brace)) by done.
  rewrite bool_decide_eq_true_2 by done. cbn [negb].
  rewrite IH; [by rewrite <- app_assoc|done|done| |].
  - rewrite fmap_app, <- app_assoc. exact Hd.
  - rewrite (proj2 (join_head_length member_text (k, v) (w :: l))) in Hf by done. lia.
Qed.

Lemma word_read total w v fuel depth r :
  (w, v) ∈ words → depth + 0 ≤ maximumDepth →
  value total (S fuel) depth (w +:+ r) = Some (Ok (v, r)).
Proof.
  rewrite Nat.add_0_r. intros Hw Hd.
  assert (∃ c t, w +:+ r = String c t ∧ is_blank c = false ∧ c ≠ open_brace ∧ c ≠ open_bracket ∧
    c ≠ dquote ∧ scalar total (w +:+ r) = Some (Ok (v, r))) as (c & t & Heq & Hb & Hb1 & Hb2 & Hb3 & Hs).
  { assert (∀ x, starts_with (x +:+ r) x = true) as Hp by (intros x; apply prefix_iff; by exists r).
    unfold words in Hw. set_unfold in Hw. destruct Hw as [[= -> ->]|[[= -> ->]|[[= -> ->]|[]]]];
      eexists _, _; do 5 (split; [done|]); unfold scalar; cbn [List.find words fst].
    - by rewrite Hp.
    - change (starts_with ("false" +:+ r) "true") with false. by rewrite Hp.
    - change (starts_with ("null" +:+ r) "true") with false.
      change (starts_with ("null" +:+ r) "false") with false. by rewrite Hp. }
  by rewrite (value_scalar _ _ _ _ _ _ Hd Heq Hb Hb1 Hb2 Hb3).
Qed.

Lemma array_read total l fuel depth r :
  Forall (λ v, own_value v = true → interoperable v = true → reads total v) l →
  own_value (CArr l) = true → interoperable (CArr l) = true →
  2 * String.length (stringify (CArr l)) + 1 ≤ S fuel → depth + nesting (CArr l) ≤ maximumDepth →
  value total (S fuel) depth (stringify (CArr l) +:+ r) = Some (Ok (CArr l, r)).
Proof.
  intros IH Ho Hi Hf Hd. cbn [own_value interoperable] in Ho, Hi.
  rewrite Forall_forallb, Forall_forall in Ho, Hi. rewrite Forall_forall in IH.
  set (body := join "," (map stringify l)). cbn [stringify] in Hf |- *. fold body in Hf |- *.
  change (String.length ("[" +:+ body +:+ "]")) with (S (String.length (body +:+ "]"))) in Hf.
  rewrite Canonical.string_app_length in Hf. cbn [String.length] in Hf.
  change (("[" +:+ body +:+ "]") +:+ r) with (String open_bracket ((body +:+ "]") +:+ r)).
  rewrite string_app_assoc. change ("]" +:+ r) with (String close_bracket r).
  cbn [value]. rewrite (proj2 (Nat.ltb_ge _ _)) by lia.
  rewrite space_bind, peek_bind. change (skip_blanks (String open_bracket (body +:+ String close_bracket r)))
    with (String open_bracket (body +:+ String close_bracket r)). cbv beta iota.
  rewrite (bool_decide_eq_false_2 (Some open_bracket = Some open_brace)) by done.
  rewrite bool_decide_eq_true_2 by done. rewrite next_cons, space_bind, peek_bind.
  destruct l as [|v l]; [done|].
  destruct (value_head v (rest_of stringify close_bracket l r)) as (c & t & Heq & Hb & Hk).
  assert (body +:+ String close_bracket r = String c t) as Hbody
    by (subst body; by rewrite (join_cons stringify close_bracket)).
  rewrite Hbody, Hb. cbv beta iota. rewrite bool_decide_eq_false_2.
  2: { intros [= ->]. by destruct v as [|[]| | | |]. }
  rewrite <- Hbody, (reader_run _ _ _ (v :: l) r); [done|].
  apply elements_read; [done| | |fold body; lia].
  - apply Forall_forall. auto.
  - apply Forall_forall. intros x Hx. pose proof (nesting_le nesting _ x _ Hx (Nat.le_refl _)).
    cbn [nesting] in Hd. lia.
Qed.

Lemma object_read total l fuel depth r :
  Forall (λ m, own_value m.2 = true → interoperable m.2 = true → reads total m.2) l →
  own_value (CObj l) = true → interoperable (CObj l) = true →
  2 * String.length (stringify (CObj l)) + 1 ≤ S fuel → depth + nesting (CObj l) ≤ maximumDepth →
  value total (S fuel) depth (stringify (CObj l) +:+ r) = Some (Ok (CObj l, r)).
Proof.
  intros IH Ho Hi Hf Hd. cbn [own_value interoperable] in Ho, Hi.
  apply andb_prop in Ho as [Hkeys Ho]. apply andb_prop in Hkeys as [Hnd Hkeys].
  apply bool_decide_eq_true in Hnd, Hkeys.
  rewrite Forall_forallb, Forall_forall in Ho, Hi. rewrite Forall_forall in IH.
  set (body := join "," (map member_text l)).
  assert (stringify (CObj l) = "{" +:+ body +:+ "}") as Htext by done. rewrite Htext in Hf |- *.
  change (String.length ("{" +:+ body +:+ "}")) with (S (String.length (body +:+ "}"))) in Hf.
  rewrite Canonical.string_app_length in Hf. cbn [String.length] in Hf.
  change (("{" +:+ body +:+ "}") +:+ r) with (String open_brace ((body +:+ "}") +:+ r)).
  rewrite string_app_assoc. change ("}" +:+ r) with (String close_brace r).
  cbn [value]. rewrite (proj2 (Nat.ltb_ge _ _)) by lia.
  rewrite space_bind, peek_bind. change (skip_blanks (String open_brace (body +:+ String close_brace r)))
    with (String open_brace (body +:+ String close_brace r)). cbv beta iota.
  rewrite bool_decide_eq_true_2 by done. rewrite next_cons, space_bind, peek_bind.
  destruct l as [|[k v] l]; [done|].
  assert (∃ t, body +:+ String close_brace r = String dquote t) as [t Hbody].
  { subst body. rewrite (join_cons member_text close_brace). by eexists. }
  rewrite Hbody. change (skip_blanks (String dquote t)) with (String dquote t). cbv beta iota.
  rewrite bool_decide_eq_false_2 by done.
  rewrite <- Hbody, (reader_run _ _ _ ((k, v) :: l) r).
  { unfold mret, reader_ret. by rewrite own_order_own. }
  apply members_read; [done| | |done|fold body; lia].
  - apply Forall_forall. auto.
  - apply Forall_forall. intros x Hx.
    pose proof (nesting_le (λ m, nesting m.2) _ x _ Hx (Nat.le_refl _)).
    cbn [nesting] in Hd. lia.
Qed.

Lemma all_read total v :
  own_value v = true → interoperable v = true → reads total v.
Proof.
  unfold reads.
  induction v as [|b|n|s|l IH|l IH] using cjson_nested_ind; intros Ho Hi fuel depth r Hf Hd Hr;
    (destruct fuel as [|fuel]; [lia|]).
  - apply (word_read total "null"); [unfold words; set_solver|done].
  - destruct b; [apply (word_read total "true")|apply (word_read total "false")];
      (unfold words; set_solver) || done.
  - destruct (value_head (CNum n) r) as (c & t & Heq & Hb & Hk).
    rewrite (value_scalar total fuel depth _ c t); [by apply scalar_number|cbn in Hd; lia|done|..].
    + apply kind_not_blank. rewrite Hk. cbn. lia.
    + by intros ->.
    + by intros ->.
    + by intros ->.
  - cbn [value stringify]. rewrite (proj2 (Nat.ltb_ge _ _)) by (cbn in Hd; lia).
    rewrite space_bind, peek_bind. change (skip_blanks (quote s +:+ r)) with (quote s +:+ r).
    change (match quote s +:+ r with EmptyString => None | String c _ => Some c end) with (Some dquote).
    rewrite (bool_decide_eq_false_2 (Some dquote = Some open_brace)) by done.
    rewrite (bool_decide_eq_false_2 (Some dquote = Some open_bracket)) by done.
    rewrite bool_decide_eq_true_2 by done. by rewrite (reader_run _ _ _ _ _ (quoted_quote s r)).
  - by apply array_read.
  - by apply object_read.
Qed.

(** Every value that the language keeps, is not too deep and has interoperable
    numbers is read back from its text. *)
Lemma read_stringify v :
  own_value v = true → interoperable v = true → nesting v ≤ maximumDepth →
  read (stringify v) = Some (Ok v).
Proof.
  intros Ho Hi Hn. unfold read, document, fuel_for.
  pose proof (all_read (String.length (stringify v)) v Ho Hi
    (2 * String.length (stringify v) + 1) 0 "" (Nat.le_refl _) Hn I) as Hv.
  assert (stringify v +:+ "" = stringify v) as Hnil.
  { clear. induction (stringify v) as [|c s IH]; [done|]. apply (f_equal (String c) IH). }
  rewrite Hnil in Hv. by rewrite (reader_run _ _ _ _ _ Hv).
Qed.

End roundtrip.

(** * Conversions that meet the laws *)

Definition decimal_value (s : string) : Z :=
  match s with
  | String c rest => if Ascii.eqb c minus then (- digits_value rest)%Z else digits_value s
  | EmptyString => 0%Z
  end.

Fixpoint read_bits (s : string) : list bool :=
  match s with
  | EmptyString => []
  | String c EmptyString => []
  | String c rest => Ascii.eqb c (Ascii.ascii_of_nat 49) :: read_bits rest
  end.

(** The inverse of [decimal_number]. *)
Definition read_decimal : ReadNumber := λ s,
  match span (λ c, negb (Ascii.eqb c dot)) s with
  | (a, EmptyString) => NInt (decimal_value a)
  | (a, String _ b) => NFrac (decimal_value a) (read_bits b)
  end.

Fixpoint unescape (fuel : nat) (s : string) : option string :=
  match fuel with
  | 0 => None
  | S fuel =>
      match unescape_char s with
      | Some (c, rest) => String c <$> unescape fuel rest
      | None => if bool_decide (s = String dquote "") then Some "" else None
      end
  end.

(** [JSON.parse] on the literals [quote] writes. *)
Definition read_escaped : ReadLiteral := λ s,
  match s with
  | String c rest => if Ascii.eqb c dquote then unescape (String.length rest) rest else None
  | EmptyString => None
  end.

Lemma escape_char_length c : 1 ≤ String.length (escape_char c).
Proof. apply Nat.leb_le. by destruct c as [[] [] [] [] [] [] [] []]. Qed.

Lemma unescape_escaped fuel s :
  String.length (escape s) + 1 ≤ fuel → unescape fuel (escape s +:+ String dquote "") = Some s.
Proof.
  revert fuel. induction s as [|c s IH]; intros fuel Hf; (destruct fuel as [|fuel]; [cbn in Hf; lia|]).
  - done.
  - cbn [escape] in Hf |- *. rewrite Canonical.string_app_length in Hf.
    pose proof (escape_char_length c). cbn [unescape].
    rewrite string_app_assoc, unescape_escape, IH by lia. done.
Qed.

#[export] Instance read_escaped_laws : ReadLiteralLaws (H := read_escaped).
Proof.
  split. intros s. unfold read_literal, read_escaped, quote.
  change (Ascii.eqb dquote dquote) with true. cbv iota. apply unescape_escaped.
  by rewrite Canonical.string_app_length.
Qed.

(** ** Decimal numbers *)

Lemma pretty_char_digit x :
  (x < 10)%N → is_digit (pretty_N_char x) = true ∧
    Z.of_nat (Ascii.nat_of_ascii (pretty_N_char x) - 48) = Z.of_N x.
Proof.
  intros Hx. assert (x ∈ [0; 1; 2; 3; 4; 5; 6; 7; 8; 9]%N) as Hin.
  { rewrite !elem_of_cons. lia. }
  repeat (apply elem_of_cons in Hin as [->|Hin]; [done|]). by apply elem_of_nil in Hin.
Qed.

(** The value of digits after a prefix of value [z]. *)
Definition digits_after (z : Z) (s : string) : Z :=
  foldl (λ z c, 10 * z + Z.of_nat (Ascii.nat_of_ascii c - 48))%Z z (String.list_ascii_of_string s).

Lemma pretty_go_value x s : digits_after 0 (pretty_N_go x s) = digits_after (Z.of_N x) s.
Proof.
  revert s. induction (N.lt_wf_0 x) as [x _ IH]; intros s.
  assert (x = 0 ∨ 0 < x)%N as [->|Hx] by lia; [done|].
  rewrite pretty_N_go_step, IH by (done || by apply N.div_lt). unfold digits_after. cbn [String.list_ascii_of_string foldl].
  f_equal. destruct (pretty_char_digit (x `mod` 10)) as [_ ->]; [by apply N.mod_lt|].
  rewrite (N.div_mod x 10) at 3 by done. lia.
Qed.

Lemma pretty_go_digits x s :
  string_all is_digit s = true → string_all is_digit (pretty_N_go x s) = true.
Proof.
  revert s. induction (N.lt_wf_0 x) as [x _ IH]; intros s Hs.
  assert (x = 0 ∨ 0 < x)%N as [->|Hx] by lia; [done|].
  rewrite pretty_N_go_step by done. apply IH; [by apply N.div_lt|]. cbn.
  by rewrite (proj1 (pretty_char_digit (x `mod` 10) ltac:(by apply N.mod_lt))).
Qed.

(** The first digit of a positive number is not zero. *)
Lemma pretty_go_head x s :
  (0 < x)%N → ∃ c t, pretty_N_go x s = String c t ∧ Ascii.eqb c zero = false.
Proof.
  revert s. induction (N.lt_wf_0 x) as [x _ IH]; intros s Hx.
  rewrite pretty_N_go_step by done.
  destruct (N.eq_0_gt_0_cases (x `div` 10)) as [H0|H0].
  - rewrite H0. change (pretty_N_go 0 ?t) with t. eexists _, _. split; [done|].
    assert (x `mod` 10 ≠ 0)%N as Hm.
    { intros Hm. pose proof (N.div_mod x 10 ltac:(done)) as Hdm. rewrite H0, Hm in Hdm. lia. }
    pose proof (N.mod_lt x 10 ltac:(done)) as Hlt. revert Hm Hlt.
    generalize (x `mod` 10)%N. intros y Hm Hlt.
    assert (y ∈ [1; 2; 3; 4; 5; 6; 7; 8; 9]%N) as Hin by (rewrite !elem_of_cons; lia).
    repeat (apply elem_of_cons in Hin as [->|Hin]; [done|]). by apply elem_of_nil in Hin.
  - by apply IH; [apply N.div_lt|].
Qed.

Lemma span_all p s : string_all p s = true → span p s = (s, "").
Proof.
  induction s as [|c s IH]; [done|]. cbn. intros [-> Hs]%andb_prop. by rewrite IH.
Qed.

Lemma pretty_integer (x : N) :
  integer_part (pretty x) = Some (pretty x, "") ∧ digits_value (pretty x) = Z.of_N x ∧
  (∃ c t, pretty x = String c t ∧ is_digit c = true).
Proof.
  unfold pretty, pretty_N. case_decide as Hx; [subst; split_and!; [done|done|by eexists _, _]|].
  assert (0 < x)%N as Hpos by lia.
  pose proof (pretty_go_digits x "" eq_refl) as Hd.
  destruct (pretty_go_head x "" Hpos) as (c & t & Heq & Hc). rewrite Heq in Hd |- *.
  cbn in Hd. apply andb_prop in Hd as [Hc' Ht]. split; [|split].
  - unfold integer_part. rewrite Hc, Hc'. by rewrite (span_all _ _ Ht).
  - rewrite <- Heq. exact (pretty_go_value x "").
  - by eexists _, _.
Qed.

Lemma show_Z_signed z :
  signed_part (show_Z z) = Some (show_Z z, "") ∧ decimal_value (show_Z z) = z.
Proof.
  unfold show_Z. destruct z as [|p|p]; [done| |].
  - change (pretty (Z.pos p)) with (pretty (N.pos p)).
    destruct (pretty_integer (N.pos p)) as (Hi & Hv & c & t & Heq & Hc). unfold signed_part, decimal_value.
    rewrite Heq in *. assert (Ascii.eqb c minus = false) as ->.
    { by destruct c as [[] [] [] [] [] [] [] []]. }
    split; [done|]. by rewrite Hv.
  - change (pretty (Z.neg p)) with (String minus (pretty (N.pos p))).
    destruct (pretty_integer (N.pos p)) as (Hi & Hv & _). unfold signed_part, decimal_value.
    change (Ascii.eqb minus minus) with true. cbv iota. rewrite Hi, Hv. split; [done|]. cbn. lia.
Qed.

Lemma print_digits_all l : string_all is_digit (print_digits l) = true.
Proof. induction l as [|[] l IH]; [done|..]; cbn; exact IH. Qed.

Lemma read_print_bits l : read_bits (print_digits l) = l.
Proof.
  induction l as [|b l IH]; [done|]. pose proof (print_digits_nonempty l) as Hne.
  destruct b; cbn; destruct (print_digits l) eqn:Hd; try done; cbn; by rewrite <- IH.
Qed.

Lemma span_dot z r :
  span (λ c, negb (Ascii.eqb c dot)) (show_Z z +:+ r) =
    let (a, b) := span (λ c, negb (Ascii.eqb c dot)) r in (show_Z z +:+ a, b).
Proof.
  pose proof (proj1 (show_Z_printed z)) as Hc. induction (show_Z z) as [|c s IH].
  - change ("" +:+ r) with r. by destruct (span _ r).
  - cbn in Hc. apply andb_prop in Hc as [Hc Hs]. specialize (IH Hs).
    change (String c s +:+ r) with (String c (s +:+ r)). cbn [span].
    assert (negb (Ascii.eqb c dot) = true) as -> by (by destruct c as [[] [] [] [] [] [] [] []]).
    rewrite IH. by destruct (span _ r).
Qed.

Lemma string_app_nil (s : string) : s +:+ "" = s.
Proof. induction s as [|c s IH]; [done|]. apply (f_equal (String c) IH). Qed.

#[export] Instance read_decimal_laws :
  ReadNumberLaws (H := decimal_number) (H0 := read_decimal).
Proof.
  assert (∀ f d, signed_part (show_Z f +:+ "." +:+ print_digits d) =
    Some (show_Z f, "." +:+ print_digits d)) as Hfrac.
  { intros f d. exact (signed_part_closing _ ("." +:+ print_digits d) _ _ eq_refl (proj1 (show_Z_signed f))). }
  split; intros [z| |f d| |] Hn; try done; unfold show_number, decimal_number.
  - unfold number_text. rewrite (proj1 (show_Z_signed z)). cbn. by rewrite string_app_nil.
  - unfold number_text. rewrite Hfrac. unfold fraction, with_digits.
    change ("." +:+ print_digits d) with (String dot (print_digits d)). cbv iota beta.
    rewrite (span_all is_digit) by apply print_digits_all. change (Ascii.eqb dot dot) with true. cbv iota.
    pose proof (print_digits_nonempty d). destruct (print_digits d) as [|c t]; [done|].
    cbn [exponent]. by rewrite string_app_nil.
  - unfold integer_text. by rewrite Hfrac.
  - unfold read_number, read_decimal. rewrite <- (string_app_nil (show_Z z)), span_dot. cbn.
    rewrite string_app_nil. by rewrite (proj2 (show_Z_signed z)).
  - unfold read_number, read_decimal. rewrite span_dot.
    change ("." +:+ print_digits d) with (String dot (print_digits d)). cbn [span].
    change (negb (Ascii.eqb dot dot)) with false. cbv iota beta.
    by rewrite string_app_nil, (proj2 (show_Z_signed f)), read_print_bits.
Qed.

End StrictJsonRoundtrip.
