(* ===== verification/PackVerify.v ===== *)
(** Domain Pack manifests as bytes: a validated manifest is a value that the
    strict reader reads back, and what a verified manifest has been checked for. *)
From S2P Require Import Prelude Errors Json ActionModel PolicyModel Text Members PackSchema PackManifest PackCanonical PackLaws SchemaLaws ContributionLaws ManifestLaws PackDigest StrictJson StrictJsonLaws StrictJsonRoundtrip.
Import Canonical Policy Text Members PackSchema PackManifest PackCanonical PackLaws SchemaLaws ContributionLaws ManifestLaws PackDigest StrictJson StrictJsonLaws StrictJsonRoundtrip.

Module PackVerify.

(** * Tidy values are read back *)

Lemma no_index_own (l : list (string * cjson)) :
  Forall (λ m, is_array_index m.1 = false) l → own_order l = l.
Proof.
  intros Hl. unfold own_order. induction Hl as [|m l Hm Hl IH]; [done|].
  rewrite !filter_cons, decide_False, decide_True by congruence.
  destruct (sort_by compare_index (filter (λ p, is_array_index p.1 = true) l)) as [|x s] eqn:Hs.
  - cbn in *. by rewrite IH.
  - assert (x ∈ filter (λ p, is_array_index p.1 = true) l) as Hx.
    { rewrite <- (sort_by_elem_of compare_index), Hs. by left. }
    apply list_elem_of_filter in Hx as [H1 H2]. rewrite Forall_forall in Hl.
    by rewrite (Hl x H2) in H1.
Qed.

Lemma tidy_own levels v : tidy levels v = true → own_value v = true.
Proof.
  revert levels. induction v as [|b|n|s|l IH|l IH] using cjson_nested_ind; intros levels H; try done;
    rewrite Forall_forall in IH.
  - destruct levels as [|levels]; cbn [tidy own_value] in *; [by destruct l|].
    rewrite Forall_forallb, Forall_forall in H |- *. eauto.
  - rewrite tidy_CObj in H. apply andb_prop in H as [Hk Hl]. unfold tidy_keys in Hk.
    apply andb_prop in Hk as [Hk Hi]. apply andb_prop in Hk as [Hd _]. cbn [own_value].
    rewrite Hd, no_index_own, bool_decide_eq_true_2; [|done|].
    + cbn [andb]. destruct levels as [|levels]; [by destruct l|]. cbn [tidy_inside] in Hl.
      rewrite Forall_forallb, Forall_forall in Hl |- *. eauto.
    + rewrite Forall_forallb, Forall_fmap in Hi. eapply Forall_impl; [exact Hi|].
      intros m Hm. by apply negb_true_iff.
Qed.

Lemma foldr_max_le {A} (f : A → nat) l n :
  (∀ x, x ∈ l → S (f x) ≤ n) → foldr max 0 (map (λ v, S (f v)) l) ≤ n.
Proof.
  induction l as [|x l IH]; intros H; cbn; [lia|].
  pose proof (H x ltac:(by left)). specialize (IH (λ y Hy, H y ltac:(by right))). lia.
Qed.

Lemma tidy_nesting levels v : tidy levels v = true → nesting v ≤ levels.
Proof.
  revert levels. induction v as [|b|n|s|l IH|l IH] using cjson_nested_ind; intros levels H;
    try (cbn; lia); rewrite Forall_forall in IH.
  - destruct levels as [|levels]; cbn [tidy nesting] in *; [destruct l; [cbn; lia|done]|].
    rewrite Forall_forallb, Forall_forall in H. apply foldr_max_le. intros x Hx.
    specialize (IH x Hx _ (H x Hx)). lia.
  - rewrite tidy_CObj in H. apply andb_prop in H as [_ Hl]. cbn [nesting].
    destruct levels as [|levels]; [destruct l; [cbn; lia|done]|]. cbn [tidy_inside] in Hl.
    rewrite Forall_forallb, Forall_forall in Hl. apply (foldr_max_le (λ m, nesting m.2)).
    intros x Hx. specialize (IH x Hx _ (Hl x Hx)). lia.
Qed.

(** * Numbers *)

Lemma interoperable_plain v : interoperable v = true → plain_numbers v = true.
Proof.
  induction v as [|b|n|s|l IH|l IH] using cjson_nested_ind; intros H; try done;
    [by apply andb_prop in H as [H _]| |];
    cbn [interoperable plain_numbers] in *; rewrite Forall_forallb, Forall_forall in H |- *;
    rewrite Forall_forall in IH; eauto.
Qed.

(** A predicate on the values inside an object, on the members written out. *)
Definition inside (p : cjson → bool) (l : list (string * option cjson)) : bool :=
  forallb (λ m, from_option p true m.2) l.

Lemma forallb_present p l : forallb (λ m, p m.2) (present l) = inside p l.
Proof.
  unfold inside. induction l as [|[k [v|]] l IH]; [done| |done].
  change (present ((k, Some v) :: l)) with ((k, v) :: present l). cbn. by rewrite IH.
Qed.

Lemma forallb_by_id {A} (p : cjson → bool) (f : A → cjson) (id_of : A → string) l :
  forallb p (f <$> by_id id_of l) = forallb p (f <$> l).
Proof.
  apply eq_bool_prop_intro. rewrite !Is_true_true, !Forall_forallb, !Forall_fmap.
  unfold by_id. by rewrite sort_by_perm.
Qed.

Lemma plain_normalized m : plain_numbers (normalized m) = plain_numbers (manifest_json m).
Proof.
  unfold normalized, manifest_json, object_json. cbn [plain_numbers]. rewrite !forallb_present.
  unfold inside. cbn [forallb snd from_option].
  f_equal; [|cbn [plain_numbers sort_manifest m_dependencies]; by rewrite forallb_by_id].
  unfold contributions_json, section_json. cbn [plain_numbers]. rewrite !forallb_present.
  unfold inside. cbn [forallb snd from_option plain_numbers sort_manifest m_contributions
    sort_contributions c_roles c_taskTypes c_workflows c_agents c_artifactTypes c_evidenceTypes
    c_policies c_knowledge c_capabilities c_prompts c_validators].
  by rewrite !forallb_by_id.
Qed.

(** * Publishing *)

(** The manifest with another declared digest. *)
Definition with_digest (d : string) (m : DomainPackManifest) : DomainPackManifest :=
  {| m_id := m_id m; m_version := m_version m; m_manifestDigest := d;
     m_coreContract := m_coreContract m; m_name := m_name m; m_description := m_description m;
     m_dependencies := m_dependencies m; m_contributions := m_contributions m |}.

Lemma with_digest_ok d m : is_digest d = true → manifest_ok m → manifest_ok (with_digest d m).
Proof. intros Hd []. by split. Qed.

Lemma with_digest_normalized d m : normalized (with_digest d m) = normalized m.
Proof. done. Qed.

Lemma with_digest_interoperable d m :
  interoperable (manifest_json (with_digest d m)) = interoperable (manifest_json m).
Proof.
  unfold manifest_json, object_json. cbn [interoperable]. by rewrite !forallb_present.
Qed.

Lemma digest_is_digest sha256 t : is_sha256_hex (sha256 t) = true → is_digest (digest sha256 t) = true.
Proof.
  intros H. unfold is_digest, digest. apply andb_true_intro. split.
  - apply prefix_iff. by eexists.
  - assert (∀ n s, String.length s ≤ n → String.substring 0 n s = s) as Hsub.
    { clear. induction n as [|n IH]; intros [|c s]; cbn; intros Hn; try done; [lia|].
      f_equal. apply IH. lia. }
    change (String.substring 7 (String.length ("sha256:" +:+ sha256 t)) ("sha256:" +:+ sha256 t))
      with (String.substring 0 (S (S (S (S (S (S (S (String.length (sha256 t))))))))) (sha256 t)).
    rewrite Hsub by lia. done.
Qed.

Section verified.
  Context `{ShowNumberLaws} `{!ReadNumber} `{!ReadLiteral}.
  Context (utf8 : string → option string) (sha256 : string → string).

(** What a verified manifest has been checked for. *)
Lemma verified_Ok bytes version m :
  verifyDomainPackManifest utf8 sha256 bytes version = Ok m →
  manifest_ok m ∧ computeManifestDigest sha256 m = Ok (m_manifestDigest m) ∧
  from_option (λ v, checkCoreContract (m_coreContract m) v = Ok tt) True version.
Proof.
  unfold verifyDomainPackManifest, parseDomainPackManifest, check_manifest. intros Hb.
  apply bind_Ok in Hb as (k & Hk & Hb). apply bind_Ok in Hb as (d & Hd & Hb).
  rewrite throw_if_bind_Ok in Hb. destruct Hb as [He Hb].
  apply negb_false_iff, bool_decide_eq_true in He. subst d.
  apply bind_Ok in Hb as ([] & Hv & [= ->]). split; [|split; [done|by destruct version]].
  rewrite throw_if_bind_Ok in Hk. destruct Hk as [_ Hk]. destruct (utf8 bytes) as [source|]; [|done].
  destruct (read source) as [[v|e]|] eqn:Hr; [|done|done]. cbn in Hk.
  eapply validate_ok; [|exact Hk]. by eapply read_unique.
Qed.

Context `{!ReadNumberLaws} `{!ReadLiteralLaws}.

Lemma manifest_read_back m :
  manifest_ok m → interoperable (manifest_json m) = true →
  read (stringify (manifest_json m)) = Some (Ok (manifest_json m)).
Proof.
  intros Hm Hi. assert (tidy 12 (manifest_json m) = true) as Ht.
  { apply (tidy_object_json 0); [by destruct Hm|done]. }
  apply read_stringify; [by eapply tidy_own|done|]. apply tidy_nesting in Ht.
  unfold maximumDepth. lia.
Qed.

End verified.

End PackVerify.
