(* ===== verification/PackSafety.v ===== *)
(** What a validated Domain Pack manifest guarantees: its references resolve, an
    agent stays within its role, a policy fits its workflow, and its digest pins
    its content. *)
From S2P Require Import Prelude Errors Json ActionModel PolicyModel Text Members PackSchema PackManifest PackCanonical PackLaws SchemaLaws ContributionLaws ManifestLaws PackDigest StrictJson StrictJsonLaws StrictJsonRoundtrip PackVerify.
Import Canonical Policy Text Members PackSchema PackManifest PackCanonical PackLaws SchemaLaws ContributionLaws ManifestLaws PackDigest StrictJson StrictJsonLaws StrictJsonRoundtrip PackVerify.

Module PackSafety.

(** * What the links mean *)

Lemma undeclared_None known message x : undeclared known message x = None ↔ x ∈ known.
Proof. unfold undeclared. rewrite <- includes_spec. destruct (includes x known); naive_solver. Qed.

Lemma refused_capability_None declared roleSet x :
  refused_capability declared roleSet x = None ↔ x ∈ declared ∧ x ∈ roleSet.
Proof.
  unfold refused_capability. rewrite <- !includes_spec.
  destruct (includes x declared), (includes x roleSet); naive_solver.
Qed.

(** The capabilities a role declares. *)
Definition role_capabilities (r : RoleContribution) : list string := default [] (ro_capabilities r).

Lemma role_sets_Some l role caps :
  role_sets l !! role = Some caps → ∃ r, r ∈ l ∧ role_id r = role ∧ role_capabilities r = caps.
Proof.
  unfold role_sets. intros H%map_of_pairs_Some. apply list_elem_of_fmap in H as (r & [= -> ->] & Hr).
  by exists r.
Qed.

Lemma workflow_stages_Some l w order :
  workflow_stages l !! w = Some order →
  ∃ x, x ∈ l ∧ workflow_id x = w ∧ order = st_id <$> wf_stages x.
Proof.
  unfold workflow_stages. intros H%map_of_pairs_Some.
  apply list_elem_of_fmap in H as (x & [= -> ->] & Hx). by exists x.
Qed.

Lemma index_of_Some x l i : index_of x l = Some i → l !! i = Some x.
Proof.
  unfold index_of. destruct (list_find _ l) as [[j y]|] eqn:Hf; [|done]. intros [= <-].
  apply list_find_Some in Hf as (Hl & -> & _). done.
Qed.

Lemma refused_target_None order at_ x :
  refused_target order at_ x = None → ∃ before, before < at_ ∧ order !! before = Some x.
Proof.
  unfold refused_target. destruct (index_of x order) as [b|] eqn:Hb; [|done].
  destruct (Nat.ltb_spec b at_) as [Hlt|]; [|done]. intros _. exists b. split; [done|].
  by apply index_of_Some.
Qed.

Lemma governed_inj l p q t u :
  NoDup (governed l) → p ∈ l → q ∈ l → po_typed p = Some t → po_typed q = Some u →
  tp_workflow t = tp_workflow u → p = q.
Proof.
  unfold governed. induction l as [|a l IH]; [by intros _ ?%elem_of_nil|].
  intros Hd Hp Hq Ht Hu Heq.
  assert (∀ r v, r ∈ l → po_typed r = Some v → tp_workflow v ∈ omap (λ p, tp_workflow <$> po_typed p) l) as Hin.
  { intros r v Hr Hv. apply list_elem_of_omap. exists r. by rewrite Hv. }
  apply elem_of_cons in Hp as [->|Hp], Hq as [->|Hq]; [done| | |].
  - cbn in Hd. rewrite Ht in Hd. cbn in Hd. apply NoDup_cons in Hd as [Hn _]. destruct Hn.
    rewrite Heq. by eapply Hin.
  - cbn in Hd. rewrite Hu in Hd. cbn in Hd. apply NoDup_cons in Hd as [Hn _]. destruct Hn.
    rewrite <- Heq. by eapply Hin.
  - apply IH; [|done..]. cbn in Hd. destruct (tp_workflow <$> po_typed a); [|done].
    by apply NoDup_cons in Hd as [_ Hd].
Qed.

(** * Properties *)

(** A validated manifest, written as JSON and validated again, is the
    same manifest: nothing it accepts, defaults or sorts changes the second
    time. *)
Theorem validated_manifest_stable v m :
  unique_members v = true → validateDomainPackManifest v = Ok m →
  validateDomainPackManifest (manifest_json m) = Ok m.
Proof. intros Hv H. apply validate_back. by eapply validate_ok. Qed.

(** C4: in a validated manifest every capability an agent requests is one
    that the manifest declares and that the agent's own role declares; an agent
    that requests capabilities has a role, and the role is in the manifest. *)
Theorem agents_stay_within_roles v m a :
  unique_members v = true → validateDomainPackManifest v = Ok m →
  a ∈ c_agents (m_contributions m) →
  (∀ role, ag_role a = Some role →
     ∃ r, r ∈ c_roles (m_contributions m) ∧ role_id r = role) ∧
  (∀ caps x, ag_capabilities a = Some caps → x ∈ caps →
     x ∈ capability_id <$> c_capabilities (m_contributions m) ∧
     ∃ r, r ∈ c_roles (m_contributions m) ∧ ag_role a = Some (role_id r) ∧ x ∈ role_capabilities r).
Proof.
  intros Hv H Ha. destruct (validate_ok _ _ Hv H) as [_ _ _ _ _ _ [_ Hl _ _ _ _ _]].
  rewrite Forall_forall in Hl. destruct (Hl a Ha) as (Hrole & _ & _ & Hneeds & Hcaps). split.
  - intros role Hr. rewrite Hr in Hrole. destruct Hrole as [caps Hc]; [by eexists|].
    apply role_sets_Some in Hc as (r & Hin & Hid & _). by exists r.
  - intros caps x Hc Hx. rewrite Hc in Hneeds, Hcaps. destruct Hneeds as [set Hset]; [by eexists|].
    rewrite Hset in Hcaps. destruct Hcaps as [_ Hcaps]. rewrite Forall_forall in Hcaps.
    apply Hcaps, refused_capability_None in Hx as [Hdecl Hin]. split; [done|].
    destruct (ag_role a) as [role|]; [|done].
    apply role_sets_Some in Hset as (r & Hr & <- & <-). by exists r.
Qed.

(** C29: in a validated manifest a policy that targets a workflow targets one
    of the manifest, no other policy targets the same workflow, each clause is
    about a stage of it, and whoever the clause keeps apart from the stage acts
    in an earlier stage. *)
Theorem policies_fit_workflows v m p t :
  unique_members v = true → validateDomainPackManifest v = Ok m →
  p ∈ c_policies (m_contributions m) → po_typed p = Some t →
  (∀ q u, q ∈ c_policies (m_contributions m) → po_typed q = Some u →
     tp_workflow u = tp_workflow t → q = p) ∧
  ∃ w, w ∈ c_workflows (m_contributions m) ∧ workflow_id w = tp_workflow t ∧
    ∀ clauses cl, tp_stages t = Some clauses → cl ∈ clauses →
      ∃ at_, (st_id <$> wf_stages w) !! at_ = Some (cl_stage cl) ∧
        ∀ apart x, cl_requiresDifferentAgentFrom cl = Some apart → x ∈ apart →
          ∃ before, before < at_ ∧ (st_id <$> wf_stages w) !! before = Some x.
Proof.
  intros Hv H Hp Ht. destruct (validate_ok _ _ Hv H) as [_ _ _ _ _ _ [_ _ _ Hl Hg _ _]]. split.
  - intros q u Hq Hu Heq. by eapply governed_inj.
  - rewrite Forall_forall in Hl. specialize (Hl p Hp). unfold policy_linked in Hl. rewrite Ht in Hl.
    destruct (workflow_stages _ !! _) as [order|] eqn:Ho; [|done].
    apply workflow_stages_Some in Ho as (w & Hw & Hid & ->). exists w. split; [done|]. split; [done|].
    intros clauses cl Hc Hcl. rewrite Hc in Hl. destruct Hl as [_ Hl].
    rewrite Forall_forall in Hl. specialize (Hl cl Hcl). unfold clause_linked in Hl.
    destruct (index_of (cl_stage cl) _) as [at_|] eqn:Hat; [|done]. destruct Hl as [Hl _].
    exists at_. split; [by apply index_of_Some|]. intros apart x Ha Hx. rewrite Ha in Hl.
    destruct Hl as [_ Hl]. rewrite Forall_forall in Hl. by apply refused_target_None, Hl.
Qed.

(** C38: a schema a contract accepts is at most four levels deep, holds at
    most 256 schemas, and is read as itself when it is written back. *)
Theorem accepted_schema_bounded v path s :
  from_option unique_members true v = true → contractSchema v path = Ok s →
  schema_depth s ≤ 4 ∧ (schema_nodes s <= 256)%Z ∧
  ∀ path', contractSchema (Some (schema_json s)) path' = Ok s.
Proof.
  intros Hv H. pose proof (parsed_ok (Parses := contractSchema_parses) _ _ _ H Hv) as Hok.
  split; [by apply schema_ok_depth, Hok|]. split; [apply Hok|].
  intros path'. by apply (parsed_back (Parses := contractSchema_parses)).
Qed.

(** C3: the declared digest of a verified pack pins its content.  Two byte
    strings that verify declare the same digest exactly when the manifests in
    them agree in everything but the order of the entries of their sections and
    the digest itself.  The hash does not collide on the two canonical texts,
    and no number is [-0], which JSON writes as [0]. *)
Theorem verified_digest_pins_content `{ShowNumberLaws} `{!ReadNumber} `{!ReadLiteral}
    (utf8 : string → option string) (sha256 : string → string) bytes bytes' version version' m n :
  verifyDomainPackManifest utf8 sha256 bytes version = Ok m →
  verifyDomainPackManifest utf8 sha256 bytes' version' = Ok n →
  plain_numbers (manifest_json m) = true → plain_numbers (manifest_json n) = true →
  (sha256 (stringify (normalized m)) = sha256 (stringify (normalized n)) →
   stringify (normalized m) = stringify (normalized n)) →
  m_manifestDigest m = m_manifestDigest n ↔ same_content m n.
Proof.
  intros (Hm & Dm & _)%verified_Ok (Hn & Dn & _)%verified_Ok Pm Pn Hsha.
  rewrite <- plain_normalized in Pm, Pn. rewrite <- (canonical_text_inj m n) by done.
  unfold computeManifestDigest in Dm, Dn. rewrite canonicalize_Ok in Dm, Dn by done.
  cbn [mbind result_bind] in Dm, Dn.
  assert (∀ a b : string, (Ok a : outcome string) = Ok b → a = b) as Hok by (by intros a b [= ->]).
  apply Hok in Dm, Dn. rewrite <- Dm, <- Dn.
  unfold digest. split.
  - intros [= Heq]. by apply Hsha.
  - by intros ->.
Qed.

(** C28: publishing works.  A validated manifest has a digest; with that
    digest declared and written as JSON it is a pack that verifies, and the
    manifest that verification returns is the one that was published.  The
    numbers are ones that JSON readers agree on, and the bytes are those of the
    text. *)
Theorem published_manifest_verifies `{ShowNumberLaws} `{!ReadNumber} `{!ReadLiteral}
    `{!ReadNumberLaws} `{!ReadLiteralLaws}
    (utf8 : string → option string) (sha256 : string → string) v m :
  unique_members v = true → validateDomainPackManifest v = Ok m →
  interoperable (manifest_json m) = true → (∀ t, is_sha256_hex (sha256 t) = true) →
  ∃ d, computeManifestDigest sha256 m = Ok d ∧
    ∀ bytes, utf8 bytes = Some (stringify (manifest_json (with_digest d m))) →
      starts_with bytes byte_order_mark = false →
      verifyDomainPackManifest utf8 sha256 bytes None = Ok (with_digest d m).
Proof.
  intros Hv Hm Hi Hsha. apply validate_ok in Hm; [|done].
  assert (∀ k, manifest_ok k → interoperable (manifest_json k) = true →
    computeManifestDigest sha256 k = Ok (digest sha256 (stringify (normalized k)))) as Hdigest.
  { intros k Hk Ik. unfold computeManifestDigest. rewrite canonicalize_Ok; [done|done|].
    rewrite plain_normalized. by apply interoperable_plain. }
  eexists. split; [by apply Hdigest|]. intros bytes Hb Hbom. set (d := digest _ _) in *.
  assert (manifest_ok (with_digest d m)) as Hp by (apply with_digest_ok; [by apply digest_is_digest|done]).
  assert (interoperable (manifest_json (with_digest d m)) = true) as Ip
    by (by rewrite with_digest_interoperable).
  unfold verifyDomainPackManifest, parseDomainPackManifest. rewrite Hbom, Hb.
  cbn [throw_if mbind result_bind]. rewrite manifest_read_back by done. cbn [mbind result_bind].
  rewrite validate_back by done. cbn [mbind result_bind]. unfold check_manifest.
  rewrite Hdigest, with_digest_normalized by done. cbn [mbind result_bind].
  by rewrite bool_decide_eq_true_2.
Qed.

(** The strict reader ends on every text, with a value or a refusal, and
    no object of a value it returns has the same member twice. *)
Theorem strict_reader_answers `{ReadNumber} `{ReadLiteral} source :
  ∃ r, read source = Some r ∧ ∀ v, r = Ok v → unique_members v = true.
Proof.
  destruct (read_total source) as [r Hr]. exists r. split; [done|]. intros v ->.
  by eapply read_unique.
Qed.

(** C30: the strict reader returns exactly the value a text was written from,
    for every value of at most 128 levels whose numbers JSON readers agree on. *)
Theorem strict_reader_reads_back `{ShowNumberLaws} `{!ReadNumber} `{!ReadLiteral}
    `{!ReadNumberLaws} `{!ReadLiteralLaws} v :
  own_value v = true → interoperable v = true → nesting v ≤ 128 →
  read (stringify v) = Some (Ok v).
Proof. intros. by apply read_stringify. Qed.

(** * Witnesses *)

Definition sample_digest : string :=
  "aaaaaaaaaaaaaaaaaaaaaaaaaaaaaaaaaaaaaaaaaaaaaaaaaaaaaaaaaaaaaaaa".

Definition entry (id : string) (more : record) : cjson := CObj (("id", CStr id) :: more).

Definition sample_schema : cjson :=
  CObj [("type", CStr "object");
        ("properties", CObj [("total", CObj [("type", CStr "integer"); ("minimum", CNum (NInt 0))]);
                             ("items", CObj [("type", CStr "array");
                                             ("items", CObj [("type", CStr "string")])])]);
        ("required", text_array ["total"])].

(** A manifest with an agent, a workflow and its policy, and a validator. *)
Definition sample_manifest (agents : list cjson) : cjson :=
  CObj [("schemaVersion", CNum (NInt 1)); ("id", CStr "org.example"); ("version", CStr "1.0.0");
        ("manifestDigest", CStr ("sha256:" +:+ sample_digest));
        ("coreContract", CObj [("minInclusive", CNum (NInt 1)); ("maxExclusive", CNum (NInt 2))]);
        ("metadata", CObj [("name", CStr "Example"); ("description", CStr "A pack")]);
        ("dependencies", CArr []);
        ("contributions", CObj [
          ("roles", CArr [entry "writer" [("capabilities", text_array ["read"; "edit"])]]);
          ("taskTypes", CArr [entry "review" []]);
          ("workflows", CArr [entry "flow" [("taskType", CStr "review");
            ("stages", CArr [entry "draft" [("role", CStr "writer")];
                             entry "check" [("role", CStr "writer")]])]]);
          ("agents", CArr agents);
          ("artifactTypes", CArr [entry "report" []]);
          ("evidenceTypes", CArr [entry "proof" [("subject", CStr "report")]]);
          ("policies", CArr [entry "four-eyes" [("workflow", CStr "flow");
            ("stages", CArr [CObj [("stage", CStr "check"); ("requiresApproval", CBool true);
                                   ("requiresDifferentAgentFrom", text_array ["draft"])]])]]);
          ("knowledge", CArr []);
          ("capabilities", CArr [entry "read" []; entry "edit" []]);
          ("prompts", CArr []);
          ("validators", CArr [entry "totals" [
            ("adapter", CObj [("id", CStr "totals"); ("version", CStr "1.0.0")]);
            ("accepts", CArr [CObj [("kind", CStr "artifactTypes"); ("id", CStr "report")]]);
            ("inputSchema", sample_schema); ("produces", CStr "proof");
            ("outputSchema", sample_schema); ("failurePolicy", CStr "fail_closed");
            ("timeoutMs", CNum (NInt 1000)); ("maxInputBytes", CNum (NInt 1000));
            ("maxOutputBytes", CNum (NInt 1000))]])])].

Definition sample_agents : list cjson :=
  [entry "ada" [("role", CStr "writer"); ("capabilities", text_array ["edit"])]; entry "bob" []].

(** What a validation returned, where it returned something. *)
Definition result_of {A} (r : outcome A) (d : A) : A := match r with Ok a => a | Throw _ => d end.

Definition no_contributions : DomainPackContributions :=
  {| c_roles := []; c_taskTypes := []; c_workflows := []; c_agents := []; c_artifactTypes := [];
     c_evidenceTypes := []; c_policies := []; c_knowledge := []; c_capabilities := [];
     c_prompts := []; c_validators := [] |}.

Definition no_manifest : DomainPackManifest :=
  {| m_id := ""; m_version := ""; m_manifestDigest := "";
     m_coreContract := {| minInclusive := NInt 0; maxExclusive := NInt 1 |}; m_name := "";
     m_description := ""; m_dependencies := []; m_contributions := no_contributions |}.

Definition sample (agents : list cjson) : DomainPackManifest :=
  result_of (validateDomainPackManifest (sample_manifest agents)) no_manifest.

Lemma result_of_ok {A} (r : outcome A) d : is_ok r = true → r = Ok (result_of r d).
Proof. by destruct r. Qed.

Lemma sample_plain : unique_members (sample_manifest sample_agents) = true.
Proof. by vm_compute. Qed.

Lemma sample_valid :
  validateDomainPackManifest (sample_manifest sample_agents) = Ok (sample sample_agents).
Proof. apply result_of_ok. by vm_compute. Qed.

Lemma validated_manifest_stable_witness :
  validateDomainPackManifest (manifest_json (sample sample_agents)) = Ok (sample sample_agents).
Proof. exact (validated_manifest_stable _ _ sample_plain sample_valid). Defined.

Definition sample_agent : AgentContribution :=
  {| ag_common := {| co_id := "ada"; co_title := None; co_description := None |};
     ag_role := Some "writer"; ag_prompts := None; ag_knowledge := None;
     ag_capabilities := Some ["edit"] |}.

Lemma agents_stay_within_roles_witness :
  ∃ r, r ∈ c_roles (m_contributions (sample sample_agents)) ∧
    ag_role sample_agent = Some (role_id r) ∧ "edit" ∈ role_capabilities r.
Proof.
  assert (sample_agent ∈ c_agents (m_contributions (sample sample_agents))) as Ha
    by (apply list_elem_of_In; vm_compute; by left).
  destruct (agents_stay_within_roles _ _ _ sample_plain sample_valid Ha) as [_ H].
  exact (proj2 (H ["edit"] "edit" eq_refl (list_elem_of_here _ _))).
Defined.

Definition sample_clause : PolicyStageClause :=
  {| cl_stage := "check"; cl_requiresApproval := true; cl_requiresIndependentApproval := false;
     cl_requiresDifferentAgentFrom := Some ["draft"]; cl_operations := None |}.

Definition sample_typed : TypedPolicy :=
  {| tp_workflow := "flow"; tp_enforced := false; tp_stages := Some [sample_clause] |}.

Definition sample_policy : PolicyContribution :=
  {| po_common := {| co_id := "four-eyes"; co_title := None; co_description := None |};
     po_typed := Some sample_typed |}.

Lemma policies_fit_workflows_witness :
  ∃ w at_ before, w ∈ c_workflows (m_contributions (sample sample_agents)) ∧
    (st_id <$> wf_stages w) !! at_ = Some "check" ∧ before < at_ ∧
    (st_id <$> wf_stages w) !! before = Some "draft".
Proof.
  assert (sample_policy ∈ c_policies (m_contributions (sample sample_agents))) as Hp
    by (apply list_elem_of_In; vm_compute; by left).
  destruct (policies_fit_workflows _ _ _ sample_typed sample_plain sample_valid Hp eq_refl)
    as [_ (w & Hw & _ & Hc)].
  destruct (Hc [sample_clause] sample_clause eq_refl (list_elem_of_here _ _)) as (i & Hi & Hx).
  destruct (Hx ["draft"] "draft" eq_refl (list_elem_of_here _ _)) as (b & Hb & Hd).
  exists w, i, b. done.
Defined.

Lemma accepted_schema_bounded_witness :
  ∃ s, contractSchema (Some sample_schema) "schema" = Ok s ∧ schema_depth s ≤ 4 ∧
    schema_depth s = 3.
Proof.
  assert (from_option unique_members true (Some sample_schema) = true) as Hu by by vm_compute.
  eexists. split; [vm_compute; reflexivity|]. split; [|reflexivity].
  refine (proj1 (accepted_schema_bounded (Some sample_schema) "schema" _ Hu _)).
  vm_compute. reflexivity.
Defined.

(** [sample_agents] and the same in another order, as published bytes. *)
Definition sample_bytes (agents : list cjson) : string :=
  stringify (H := decimal_number) (manifest_json (sample agents)).

Lemma sample_verified :
  verifyDomainPackManifest (H := decimal_number) (H0 := read_decimal) (H1 := read_escaped)
    Some (λ _, sample_digest) (sample_bytes sample_agents) None = Ok (sample sample_agents).
Proof. vm_compute. reflexivity. Qed.

Lemma sample_verified_reversed :
  verifyDomainPackManifest (H := decimal_number) (H0 := read_decimal) (H1 := read_escaped)
    Some (λ _, sample_digest) (sample_bytes (reverse sample_agents)) None = Ok (sample (reverse sample_agents)).
Proof. vm_compute. reflexivity. Qed.

Lemma sample_numbers :
  plain_numbers (manifest_json (sample sample_agents)) = true ∧
  plain_numbers (manifest_json (sample (reverse sample_agents))) = true ∧
  interoperable (manifest_json (sample sample_agents)) = true.
Proof. by vm_compute. Qed.

(** Both write the same canonical text and declare the same digest. *)
Lemma sample_texts :
  stringify (H := decimal_number) (normalized (sample sample_agents)) =
    stringify (H := decimal_number) (normalized (sample (reverse sample_agents))) ∧
  m_manifestDigest (sample sample_agents) = m_manifestDigest (sample (reverse sample_agents)).
Proof. split; vm_compute; reflexivity. Qed.

(** Two verified packs whose agents come in different orders. *)
Lemma sample_pair : ∃ bytes bytes' m n,
  verifyDomainPackManifest (H := decimal_number) (H0 := read_decimal) (H1 := read_escaped)
    Some (λ _, sample_digest) bytes None = Ok m ∧
  verifyDomainPackManifest (H := decimal_number) (H0 := read_decimal) (H1 := read_escaped)
    Some (λ _, sample_digest) bytes' None = Ok n ∧
  plain_numbers (manifest_json m) = true ∧ plain_numbers (manifest_json n) = true ∧
  stringify (H := decimal_number) (normalized m) = stringify (H := decimal_number) (normalized n) ∧
  m_manifestDigest m = m_manifestDigest n ∧
  agent_id <$> c_agents (m_contributions m) = ["ada"; "bob"] ∧
  agent_id <$> c_agents (m_contributions n) = ["bob"; "ada"].
Proof.
  exists (sample_bytes sample_agents), (sample_bytes (reverse sample_agents)),
    (sample sample_agents), (sample (reverse sample_agents)).
  refine (conj sample_verified (conj sample_verified_reversed _)).
  refine (conj (proj1 sample_numbers) (conj (proj1 (proj2 sample_numbers)) _)).
  refine (conj (proj1 sample_texts) (conj (proj2 sample_texts) _)).
  split; vm_compute; reflexivity.
Qed.

Lemma verified_digest_pins_content_witness : ∃ m n,
  same_content m n ∧ agent_id <$> c_agents (m_contributions m) = ["ada"; "bob"] ∧
  agent_id <$> c_agents (m_contributions n) = ["bob"; "ada"].
Proof.
  destruct sample_pair as (x & y & m & n & Hm & Hn & Pm & Pn & Ht & Hd & Am & An).
  exists m, n. refine (conj _ (conj Am An)).
  exact (proj1 (verified_digest_pins_content (H := decimal_number) _ _ _ _ _ _ _ _ Hm Hn Pm Pn
    (λ _, Ht)) Hd).
Defined.

Lemma sample_opens d :
  starts_with (stringify (H := decimal_number) (manifest_json (with_digest d (sample sample_agents))))
    byte_order_mark = false.
Proof. reflexivity. Qed.

Lemma sample_hex (t : string) : is_sha256_hex sample_digest = true.
Proof. by vm_compute. Qed.

(** A manifest with all that publishing asks for. *)
Lemma sample_source : ∃ v m,
  unique_members v = true ∧ validateDomainPackManifest v = Ok m ∧
  interoperable (manifest_json m) = true ∧ own_value (manifest_json m) = true ∧
  nesting (manifest_json m) ≤ 128 ∧ agent_id <$> c_agents (m_contributions m) = ["ada"; "bob"] ∧
  ∀ d, starts_with (stringify (H := decimal_number) (manifest_json (with_digest d m)))
         byte_order_mark = false.
Proof.
  exists (sample_manifest sample_agents), (sample sample_agents).
  refine (conj sample_plain (conj sample_valid (conj (proj2 (proj2 sample_numbers)) _))).
  split; [by vm_compute|]. split; [apply Nat.leb_le; by vm_compute|].
  split; [vm_compute; reflexivity|]. exact sample_opens.
Qed.

Lemma published_manifest_verifies_witness : ∃ m bytes d,
  agent_id <$> c_agents (m_contributions m) = ["ada"; "bob"] ∧
  verifyDomainPackManifest (H := decimal_number) (H0 := read_decimal) (H1 := read_escaped) Some
    (λ _, sample_digest) bytes None = Ok (with_digest d m).
Proof.
  destruct sample_source as (v & m & Hv & Hm & Hi & _ & _ & Ha & Hs).
  destruct (published_manifest_verifies (H := decimal_number) (H1 := read_decimal)
    (H2 := read_escaped) Some (λ _, sample_digest) v m Hv Hm Hi sample_hex) as (d & _ & H).
  exists m, (stringify (H := decimal_number) (manifest_json (with_digest d m))), d.
  refine (conj Ha _). apply H; [reflexivity|apply Hs].
Defined.

Lemma strict_reader_reads_back_witness : ∃ v,
  nesting v ≤ 128 ∧
  read (H := read_decimal) (H0 := read_escaped) (stringify (H := decimal_number) v) = Some (Ok v).
Proof.
  destruct sample_source as (v & m & _ & _ & Hi & Ho & Hn & _).
  exists (manifest_json m). refine (conj Hn _).
  exact (strict_reader_reads_back (H := decimal_number) (H1 := read_decimal)
    (H2 := read_escaped) _ Ho Hi Hn).
Defined.

End PackSafety.
