(* ===== verification/FilesystemPath.v ===== *)
(** Paths of the filesystem connector: which relative paths it accepts, where
    they lead below a registered root, which prefixes they match and which are
    sensitive.  Models [packages/filesystem-connector/src/filesystem-path.ts]
    and [sensitive-paths.ts] on a POSIX host, the platforms the connector runs
    on; [isAbsolute], [resolve] and [relative] of [node:path] are defined for
    what these files use of them, with a root that is absolute. *)
From S2P Require Import Prelude Errors Json Text.
Import Text.

Module FilesystemPath.

Definition slash : Ascii.ascii := Eval cbv in Ascii.ascii_of_nat 47.
Definition backslash : Ascii.ascii := Ascii.ascii_of_nat 92.

Abbreviation split := (split_on slash).

(** * filesystem-path.ts *)

Record FilesystemPathLimits := { maxPathBytes : Z; maxPathSegments : Z }.

(** [/[\u0000-\u001f\u007f]/]; no code unit below 256 is a surrogate. *)
Definition unsafe_control (c : Ascii.ascii) : bool :=
  let n := Ascii.nat_of_ascii c in (n <? 32) || (n =? 127).

Definition encoded_next (s : string) : bool :=
  match s with
  | String a (String b _) =>
      bool_decide (a = Ascii.ascii_of_nat 50) && one_of "ef" (Canonical.lower b) ||
      bool_decide (a = Ascii.ascii_of_nat 53) && one_of "c" (Canonical.lower b)
  | _ => false
  end.

(** [/%(?:2e|2f|5c)/i] *)
Fixpoint encodedSeparatorOrDot (s : string) : bool :=
  match s with
  | EmptyString => false
  | String c rest =>
      bool_decide (c = Ascii.ascii_of_nat 37) && encoded_next rest || encodedSeparatorOrDot rest
  end.

Definition numbered (name : string) : list string :=
  (λ n, name +:+ n) <$> ["1"; "2"; "3"; "4"; "5"; "6"; "7"; "8"; "9"].

(** [windowsReservedName], on a text without line breaks. *)
Definition windowsReservedName (segment : string) : bool :=
  let l := to_lower segment in
  existsb (λ name, bool_decide (l = name) || starts_with l (name +:+ "."))
    (["con"; "prn"; "aux"; "nul"] ++ numbered "com" ++ numbered "lpt").

(** [isAbsolute] and [win32.isAbsolute] of [node:path]. *)
Definition isAbsolute (path : string) : bool := starts_with path "/".

Definition separator (c : Ascii.ascii) : bool := one_of "/" c || bool_decide (c = backslash).

Definition win32_isAbsolute (path : string) : bool :=
  match path with
  | EmptyString => false
  | String a rest =>
      separator a ||
      match rest with
      | String b (String c _) =>
          (is_lower a || is_upper a) && bool_decide (b = Ascii.ascii_of_nat 58) && separator c
      | _ => false
      end
  end.

Definition unsafe_text (value : string) : bool :=
  (String.length value =? 0) || isAbsolute value || win32_isAbsolute value ||
  starts_with value "/" || ends_with value "/" || has_char backslash value ||
  string_some unsafe_control value || encodedSeparatorOrDot value.

Definition unsafe_segment (segment : string) : bool :=
  (String.length segment =? 0) || bool_decide (segment = ".") || bool_decide (segment = "..") ||
  has_char (Ascii.ascii_of_nat 58) segment || ends_with segment "." || ends_with segment " " ||
  windowsReservedName segment.

Definition normalizeRelativePath (value : string) (limits : FilesystemPathLimits)
    (allowRoot : bool) : outcome string :=
  if allowRoot && bool_decide (value = "") then Ok ""
  else
    throw_if (unsafe_text value) InvalidRelativePathError;;
    let segments := split value in
    throw_if ((maxPathSegments limits <? Z.of_nat (length segments))%Z ||
              existsb unsafe_segment segments ||
              (maxPathBytes limits <? utf8_length value)%Z) InvalidRelativePathError;;
    Ok (join "/" segments).

(** The segments of an absolute path, as [resolve] of [node:path] leaves them. *)
Definition push_segment (l : list string) (s : string) : list string :=
  if bool_decide (s = "") || bool_decide (s = ".") then l
  else if bool_decide (s = "..") then take (length l - 1) l
  else l ++ [s].

Definition normal_segments (path : string) : list string := foldl push_segment [] (split path).

(** [resolve(root, ...parts)] *)
Definition resolve (root : string) (parts : list string) : string :=
  "/" +:+ join "/" (foldl push_segment (normal_segments root) parts).

Fixpoint common (a b : list string) : nat :=
  match a, b with
  | x :: a', y :: b' => if decide (x = y) then S (common a' b') else 0
  | _, _ => 0
  end.

(** [relative(from, to)] *)
Definition relative (from to : string) : string :=
  let a := normal_segments from in
  let b := normal_segments to in
  let n := common a b in
  join "/" (replicate (length a - n) ".." ++ drop n b).

Definition resolveContainedPath (root path : string) : outcome string :=
  let candidate := if bool_decide (path = "") then root else resolve root (split path) in
  let relation := relative root candidate in
  if bool_decide (relation = "") then Ok candidate
  else
    throw_if (bool_decide (relation = "..") || starts_with relation "../" || isAbsolute relation)
      PathOutsideRootError;;
    Ok candidate.

Definition pathMatchesPrefix (path prefix : string) : bool :=
  bool_decide (path = prefix) || starts_with path (prefix +:+ "/").

Definition pathCanContainPrefix (path prefix : string) : bool :=
  bool_decide (path = "") || pathMatchesPrefix prefix path.

Inductive AllowedPathClassification := inside_allowed | ancestor_of_allowed | path_denied.

#[global] Instance classification_eq_dec : EqDecision AllowedPathClassification.
Proof. solve_decision. Defined.

Definition classifyAllowedPath (path : string) (allowedPrefixes : option (list string))
    : AllowedPathClassification :=
  match allowedPrefixes with
  | None => inside_allowed
  | Some l =>
      if existsb (pathMatchesPrefix path) l then inside_allowed
      else if existsb (pathCanContainPrefix path) l then ancestor_of_allowed
      else path_denied
  end.

(** * sensitive-paths.ts *)

Definition sensitiveSegments : list string := [".ai-office"; ".git"; ".ssh"; ".aws"; ".kube"].
Definition sensitiveBasenames : list string :=
  [".npmrc"; ".pypirc"; ".netrc"; "credentials"; "credentials.json"; "secrets"; "secrets.json";
   "id_rsa"; "id_ed25519"; ".git-credentials"; "git-credentials"].
Definition sensitiveExtensions : list string := [".pem"; ".key"; ".p12"; ".pfx"].

Definition isSensitiveFilesystemSegment (segment : string) : bool :=
  let l := to_lower segment in
  starts_with l ".ai-office-txn-" || includes l sensitiveSegments || bool_decide (l = ".env") ||
  starts_with l ".env." || includes l sensitiveBasenames ||
  existsb (ends_with l) sensitiveExtensions.

(** [segment === ".config" && segments[index + 1] === "gcloud"] at some index *)
Fixpoint gcloud_config (segments : list string) : bool :=
  match segments with
  | a :: (b :: _) as rest =>
      bool_decide (a = ".config") && bool_decide (b = "gcloud") || gcloud_config rest
  | _ => false
  end.

Definition isBuiltInSensitiveFilesystemPath (path : string) : bool :=
  let segments := to_lower <$> filter (λ s, s ≠ "") (split path) in
  existsb isSensitiveFilesystemSegment segments || gcloud_config segments.

Definition isSensitiveFilesystemPath (path : string) (additionalDeniedPrefixes : list string)
    : bool :=
  let l := to_lower path in
  isBuiltInSensitiveFilesystemPath l ||
  existsb (λ prefix, pathMatchesPrefix l (to_lower prefix)) additionalDeniedPrefixes.

(** * Lemmas *)

Definition no_slash (s : string) : bool := free_of slash s.

Lemma join_split s : join "/" (split s) = s.
Proof. exact (join_split_on slash s). Qed.

Lemma split_segments s : Forall (λ x, no_slash x = true) (split s).
Proof. exact (split_on_segments slash s). Qed.

Lemma split_join l : l ≠ [] → Forall (λ x, no_slash x = true) l → split (join "/" l) = l.
Proof. exact (split_on_join slash l). Qed.

Lemma split_app_slash a b : split (a +:+ "/" +:+ b) = split a ++ split b.
Proof. exact (split_on_app slash a b). Qed.

(** Matching a prefix is the prefix order on the segments. *)
Lemma pathMatchesPrefix_spec path prefix :
  pathMatchesPrefix path prefix = true ↔ split prefix `prefix_of` split path.
Proof.
  unfold pathMatchesPrefix, starts_with. rewrite orb_true_iff, bool_decide_eq_true, prefix_iff. split.
  - intros [->|[r ->]]; [done|]. rewrite Canonical.string_app_assoc, split_app_slash. by eexists.
  - intros [l Hl]. rewrite <- (join_split path), <- (join_split prefix), Hl.
    destruct l as [|x l]; [left; by rewrite app_nil_r|right].
    exists (join "/" (x :: l)). rewrite join_app_sep by (done || apply split_nonempty).
    by rewrite Canonical.string_app_assoc.
Qed.

#[export] Instance pathMatchesPrefix_decision path prefix :
  Decision (pathMatchesPrefix path prefix = true).
Proof. apply _. Defined.

(** ** Absolute paths *)

(** A segment that names an entry of the directory it is in. *)
Record entry_name (s : string) : Prop := {
  en_nonempty : s ≠ "";
  en_not_dot : s ≠ ".";
  en_not_dotdot : s ≠ "..";
  en_no_slash : no_slash s = true
}.

Lemma push_entry l s : entry_name s → push_segment l s = l ++ [s].
Proof. intros []. unfold push_segment. by rewrite !bool_decide_eq_false_2. Qed.

Lemma push_entries l k : Forall entry_name k → foldl push_segment l k = l ++ k.
Proof.
  intros Hk. revert l. induction Hk as [|s k Hs _ IH]; intros l; simpl.
  - by rewrite app_nil_r.
  - by rewrite push_entry, IH, <- app_assoc.
Qed.

Lemma push_segment_normal l s :
  Forall entry_name l → no_slash s = true → Forall entry_name (push_segment l s).
Proof.
  intros Hl Hs. unfold push_segment.
  destruct (bool_decide (s = "")) eqn:H1; simpl; [done|].
  destruct (bool_decide (s = ".")) eqn:H2; [done|].
  destruct (bool_decide (s = "..")) eqn:H3; [by apply Forall_take|].
  apply bool_decide_eq_false in H1, H2, H3. apply Forall_app. split; [done|].
  by repeat constructor.
Qed.

Lemma push_segments_normal l k :
  Forall entry_name l → Forall (λ s, no_slash s = true) k → Forall entry_name (foldl push_segment l k).
Proof.
  intros Hl Hk. revert l Hl. induction Hk as [|s k Hs _ IH]; intros l Hl; simpl; [done|].
  by apply IH, push_segment_normal.
Qed.

Lemma normal_segments_normal path : Forall entry_name (normal_segments path).
Proof. apply push_segments_normal; [done|apply split_segments]. Qed.

Lemma entries_no_slash l : Forall entry_name l → Forall (λ s, no_slash s = true) l.
Proof. intros Hl. eapply Forall_impl; [exact Hl|]. by intros s []. Qed.

Lemma normal_segments_absolute l :
  Forall entry_name l → normal_segments ("/" +:+ join "/" l) = l.
Proof.
  intros Hl. unfold normal_segments. change (split ("/" +:+ join "/" l)) with ("" :: split (join "/" l)).
  simpl. destruct l as [|x l]; [done|].
  rewrite split_join by (done || by apply entries_no_slash). by rewrite push_entries.
Qed.

Lemma normal_segments_resolve root parts :
  Forall (λ s, no_slash s = true) parts →
  normal_segments (resolve root parts) = foldl push_segment (normal_segments root) parts.
Proof.
  intros Hp. apply normal_segments_absolute, push_segments_normal; [|done].
  apply normal_segments_normal.
Qed.

Lemma common_prefix a b : common a b = length a ↔ a `prefix_of` b.
Proof.
  revert b. induction a as [|x a IH]; intros [|y b]; simpl.
  - split; [intros _; apply prefix_nil|done].
  - split; [intros _; apply prefix_nil|done].
  - split; [done|]. by intros ?%prefix_nil_not.
  - destruct (decide (x = y)) as [->|Hne].
    + split.
      * intros [= H]. by apply prefix_cons, IH.
      * intros H%prefix_cons_inv_2. f_equal. by apply IH.
    + split; [done|]. by intros ?%prefix_cons_inv_1.
Qed.

Lemma common_length a b : common a b ≤ length a.
Proof.
  revert b. induction a as [|x a IH]; intros [|y b]; simpl; try lia.
  destruct (decide (x = y)); [|lia]. specialize (IH b). lia.
Qed.

Lemma join_entries_nil l : Forall (λ s, s ≠ "") l → join "/" l = "" → l = [].
Proof.
  intros Hl. destruct Hl as [|x l Hx Hl]; [done|]. destruct l as [|y l]; simpl; [done|].
  by destruct x.
Qed.

(** [relation] leaves the root exactly when its segments start with [..]. *)
Lemma leaves_root relation :
  bool_decide (relation = "..") || starts_with relation "../" = true ↔
  [".."] `prefix_of` split relation.
Proof. apply (pathMatchesPrefix_spec relation ".."). Qed.

Lemma relative_segments a b :
  Forall entry_name b → let out := replicate (length a - common a b) ".." ++ drop (common a b) b in
  out ≠ [] → split (join "/" out) = out.
Proof.
  intros Hb out Hne. apply split_join; [done|]. apply Forall_app. split.
  - by apply Forall_replicate.
  - by apply entries_no_slash, Forall_drop.
Qed.

(** A candidate that is not refused lies below the root. *)
Lemma contained_below root path c :
  resolveContainedPath root path = Ok c → normal_segments root `prefix_of` normal_segments c.
Proof.
  unfold resolveContainedPath. set (cand := if bool_decide (path = "") then _ else _).
  assert (Forall (λ s, s ≠ "") (replicate (length (normal_segments root) -
    common (normal_segments root) (normal_segments cand)) ".." ++
    drop (common (normal_segments root) (normal_segments cand)) (normal_segments cand))) as Hne.
  { apply Forall_app. split; [by apply Forall_replicate|]. apply Forall_drop.
    eapply Forall_impl; [apply normal_segments_normal|]. by intros s []. }
  pose proof (common_length (normal_segments root) (normal_segments cand)) as Hlen.
  case_bool_decide as Hrel.
  - intros [= <-]. apply join_entries_nil in Hrel; [|done]. apply app_nil in Hrel as [Hr _].
    apply common_prefix. destruct (length (normal_segments root) - _) eqn:E; [lia|done].
  - rewrite throw_if_bind_Ok. intros [Hno [= <-]]. apply orb_false_iff in Hno as [Hno _].
    apply common_prefix. apply not_true_iff_false in Hno. rewrite leaves_root in Hno.
    unfold relative in Hno, Hrel. rewrite relative_segments in Hno.
    + destruct (length (normal_segments root) - _) eqn:E; [lia|]. destruct Hno. by eexists.
    + apply normal_segments_normal.
    + intros Hnil. by rewrite Hnil in Hrel.
Qed.

Lemma unsafe_segments_entries value :
  existsb unsafe_segment (split value) = false → Forall entry_name (split value).
Proof.
  intros Hs. pose proof (split_segments value) as Hns.
  rewrite Canonical.existsb_false in Hs. apply Forall_forall. intros s Hin.
  rewrite Forall_forall in Hns. specialize (Hs s Hin). unfold unsafe_segment in Hs.
  repeat apply orb_false_iff in Hs as [Hs ?]. apply Nat.eqb_neq in Hs.
  repeat match goal with Hb : bool_decide _ = false |- _ => apply bool_decide_eq_false in Hb end.
  constructor; try done; [by intros ->|by apply Hns].
Qed.

Lemma normalizeRelativePath_Ok value limits allowRoot p :
  normalizeRelativePath value limits allowRoot = Ok p →
  p = value ∧ (p = "" ∧ allowRoot = true ∨ p ≠ "" ∧ Forall entry_name (split p)).
Proof.
  unfold normalizeRelativePath. destruct (allowRoot && bool_decide (value = "")) eqn:Hroot.
  - intros [= <-]. apply andb_prop in Hroot as [-> ->%bool_decide_eq_true]. auto.
  - rewrite !throw_if_bind_Ok. intros (Hu & Hs & [= <-]). rewrite join_split. split; [done|]. right.
    apply orb_false_iff in Hs as [Hs _]. apply orb_false_iff in Hs as [_ Hs].
    split; [|by apply unsafe_segments_entries]. intros ->. by vm_compute in Hu.
Qed.

(** A relative path that every limit on its size lets through. *)
Definition safe_path (value : string) : bool :=
  negb (unsafe_text value) && negb (existsb unsafe_segment (split value)).

Lemma normalizeRelativePath_iff value limits allowRoot p :
  normalizeRelativePath value limits allowRoot = Ok p ↔
  p = value ∧ ((allowRoot = true ∧ value = "") ∨
    (safe_path value = true ∧ (Z.of_nat (length (split value)) <= maxPathSegments limits)%Z ∧
     (utf8_length value <= maxPathBytes limits)%Z)).
Proof.
  unfold normalizeRelativePath, safe_path. destruct (allowRoot && bool_decide (value = "")) eqn:Hroot.
  - apply andb_prop in Hroot as [-> ->%bool_decide_eq_true]. split; [intros [= <-]; auto|].
    by intros [-> _].
  - rewrite !throw_if_bind_Ok, join_split, !orb_false_iff, !Z.ltb_ge.
    rewrite andb_true_iff, !negb_true_iff.
    assert (¬ (allowRoot = true ∧ value = "")) as Hnot.
    { intros [-> ->]. by vm_compute in Hroot. }
    split.
    + intros (Hu & ((Hs & Hseg) & Hb) & [= <-]). auto.
    + intros (-> & [?|((Hu & Hseg) & Hs & Hb)]); [done|]. auto.
Qed.

Lemma filter_entries l : Forall entry_name l → filter (λ s, s ≠ "") l = l.
Proof. induction 1 as [|s l [] _ IH]; [done|]. rewrite filter_cons_True by done. by rewrite IH. Qed.

Lemma relative_self root : relative root root = "".
Proof.
  unfold relative. assert (common (normal_segments root) (normal_segments root) =
    length (normal_segments root)) as -> by (by apply common_prefix).
  by rewrite Nat.sub_diag, drop_all.
Qed.

Lemma relative_below root c l :
  normal_segments c = normal_segments root ++ l → relative root c = join "/" l.
Proof.
  intros Hc. unfold relative. rewrite Hc.
  assert (common (normal_segments root) (normal_segments root ++ l) =
    length (normal_segments root)) as -> by (apply common_prefix; by eexists).
  by rewrite Nat.sub_diag, drop_app_length.
Qed.

(** A path of entry names resolves to that entry below the root. *)
Lemma contained_entries root value :
  value ≠ "" → Forall entry_name (split value) →
  ∃ c, resolveContainedPath root value = Ok c ∧
    normal_segments c = normal_segments root ++ split value.
Proof.
  intros Hne He. unfold resolveContainedPath. rewrite (bool_decide_eq_false_2 (value = "")) by done.
  assert (normal_segments (resolve root (split value)) = normal_segments root ++ split value) as Hc.
  { rewrite normal_segments_resolve by apply split_segments. apply push_entries, He. }
  exists (resolve root (split value)). split; [|done].
  rewrite (relative_below _ _ _ Hc), join_split, bool_decide_eq_false_2 by done.
  rewrite throw_if_bind_Ok. split; [|done]. apply orb_false_iff. split.
  - apply not_true_iff_false. rewrite leaves_root. intros [k Hk]. rewrite Hk in He.
    apply Forall_app in He as [He _]. by apply Forall_singleton in He as [_ _ [] _].
  - destruct value as [|a value]; [done|]. apply not_true_iff_false. intros Ha.
    unfold isAbsolute, starts_with in Ha. apply prefix_iff in Ha as [r [= -> ->]].
    simpl in He. apply Forall_cons in He as [[[] _ _ _] _]. done.
Qed.

(** C32: a relative path that is accepted is kept as it is and leads below the
    registered root, to the entry its segments name; and no path at all is
    resolved to a place outside the root. *)
Theorem accepted_paths_stay_inside root value limits allowRoot p :
  normalizeRelativePath value limits allowRoot = Ok p →
  p = value ∧ Forall entry_name (filter (λ s, s ≠ "") (split p)) ∧
  (∃ c, resolveContainedPath root p = Ok c ∧
     normal_segments c = normal_segments root ++ filter (λ s, s ≠ "") (split p)) ∧
  ∀ path c, resolveContainedPath root path = Ok c →
    normal_segments root `prefix_of` normal_segments c.
Proof.
  intros [-> [[-> _]|[Hne He]]]%normalizeRelativePath_Ok; (split; [done|]).
  - split; [by constructor|]. split; [|intros path c; apply contained_below].
    exists root. split; [|by rewrite app_nil_r].
    unfold resolveContainedPath. simpl. by rewrite relative_self.
  - rewrite (filter_entries _ He). split; [done|].
    split; [by apply contained_entries|intros path c; apply contained_below].
Qed.

Lemma accepted_paths_stay_inside_witness :
  normalizeRelativePath "docs/plan.md" {| maxPathBytes := 4096; maxPathSegments := 64 |} false =
    Ok "docs/plan.md" ∧
  ∃ c, resolveContainedPath "/srv/project" "docs/plan.md" = Ok c ∧
    normal_segments c = ["srv"; "project"; "docs"; "plan.md"].
Proof.
  assert (normalizeRelativePath "docs/plan.md" {| maxPathBytes := 4096; maxPathSegments := 64 |} false =
    Ok "docs/plan.md") as H by (vm_compute; reflexivity).
  split; [exact H|].
  destruct (accepted_paths_stay_inside "/srv/project" _ _ _ _ H) as (_ & _ & (c & Hc & Hs) & _).
  exists c. split; [exact Hc|]. exact Hs.
Defined.

End FilesystemPath.
