(* ===== verification/FilesystemPolicy.v ===== *)
(** What a filesystem action may do: the arguments of an operation, the
    constraints of a grant and of a resource, and the handler that combines
    them for the policy engine.  Models
    [packages/filesystem-connector/src/filesystem-arguments.ts] and
    [filesystem-constraints.ts].

    A constraint value and the arguments are stored JSON objects; an operation
    is the name of a connector operation, never a member every object has. *)
From S2P Require Import Prelude Errors Json ActionModel PolicyModel Text FilesystemPath.
Import Canonical Policy Text FilesystemPath.

Module FilesystemPolicy.

(** * Limits *)

Inductive maximum :=
| MaxFileBytes | MaxOutputBytes | MaxResults | MaxVisitedEntries | MaxVisitedFiles
| MaxVisitedDirectories | MaxDepth | MaxPathBytes | MaxPathSegments | MaxDiffBytes
| MaxInlineContentBytes.

#[global] Instance maximum_eq_dec : EqDecision maximum.
Proof. solve_decision. Defined.

Definition maximum_name (f : maximum) : string :=
  match f with
  | MaxFileBytes => "maxFileBytes" | MaxOutputBytes => "maxOutputBytes"
  | MaxResults => "maxResults" | MaxVisitedEntries => "maxVisitedEntries"
  | MaxVisitedFiles => "maxVisitedFiles" | MaxVisitedDirectories => "maxVisitedDirectories"
  | MaxDepth => "maxDepth" | MaxPathBytes => "maxPathBytes"
  | MaxPathSegments => "maxPathSegments" | MaxDiffBytes => "maxDiffBytes"
  | MaxInlineContentBytes => "maxInlineContentBytes"
  end.

Definition filesystemHardLimits (f : maximum) : Z :=
  match f with
  | MaxFileBytes => 1024 * 1024 | MaxOutputBytes => 48 * 1024 | MaxResults => 1000
  | MaxVisitedEntries => 10000 | MaxVisitedFiles => 5000 | MaxVisitedDirectories => 1000
  | MaxDepth => 8 | MaxPathBytes => 1024 | MaxPathSegments => 128
  | MaxDiffBytes => 48 * 1024 | MaxInlineContentBytes => 16 * 1024
  end%Z.

Definition maximumFields : list maximum :=
  [MaxFileBytes; MaxOutputBytes; MaxResults; MaxVisitedEntries; MaxVisitedFiles;
   MaxVisitedDirectories; MaxDepth; MaxPathBytes; MaxPathSegments; MaxDiffBytes;
   MaxInlineContentBytes].

Definition constraintFields : list string :=
  ["allowedPathPrefixes"; "deniedPathPrefixes"; "allowedExtensions"] ++
  (maximum_name <$> maximumFields) ++ ["allowMutation"].

(** The limits on a path among some limits. *)
Definition path_limits (limits : maximum → Z) : FilesystemPathLimits :=
  {| maxPathBytes := limits MaxPathBytes; maxPathSegments := limits MaxPathSegments |}.

Definition hard_path_limits : FilesystemPathLimits := path_limits filesystemHardLimits.

(** [normalizeCanonicalJson] of an object, which is an object. *)
Definition canonical_record (value : record) : outcome record :=
  normalized ← normalizeCanonicalJson (embed 0 (CObj value));
  match normalized with CObj members => Ok members | _ => Ok [] end.

(** * filesystem-arguments.ts *)

Definition allowedFields (operation : string) : option (list string) :=
  (λ p, p.2) <$> List.find (λ p, bool_decide (p.1 = operation))
    [("filesystem.list", ["path"; "recursive"]);
     ("filesystem.read", ["path"]);
     ("filesystem.search", ["path"; "query"; "caseSensitive"]);
     ("filesystem.create", ["path"; "content"]);
     ("filesystem.write", ["path"; "content"]);
     ("filesystem.move", ["sourcePath"; "destinationPath"]);
     ("filesystem.delete", ["path"])].

Definition unknown_fields (known : list string) (value : record) : list string :=
  sort_by compare_text (filter (λ key, key ∉ known) value.*1).

Definition assertFields (operation : string) (value : record) : outcome unit :=
  match allowedFields operation with
  | None => Throw (CapabilityValidationError ("Unsupported operation: " +:+ operation))
  | Some allowed =>
      let unknown := unknown_fields allowed value in
      throw_if (0 <? length unknown)
        (CapabilityValidationError ("Unsupported filesystem argument fields: " +:+ join ", " unknown))
  end.

Definition text (value : option cjson) (fieldName : string) : outcome string :=
  match value with
  | Some (CStr s) =>
      throw_if (String.length s =? 0)
        (CapabilityValidationError (fieldName +:+ " must be a non-empty string"));;
      Ok s
  | _ => Throw (CapabilityValidationError (fieldName +:+ " must be a non-empty string"))
  end.

Definition path_argument (value : option cjson) (fieldName : string) : outcome string :=
  s ← text value fieldName;
  normalizeRelativePath s hard_path_limits false.

(** No code unit below 256 is a surrogate. *)
Definition content (value : option cjson) : outcome string :=
  match value with
  | Some (CStr s) =>
      throw_if (has_char (Ascii.ascii_of_nat 0) s) FilesystemBinaryFileError;;
      throw_if (filesystemHardLimits MaxInlineContentBytes <? utf8_length s)%Z
        (CapabilityValidationError "inline content exceeds the byte limit");;
      Ok s
  | _ => Throw (CapabilityValidationError "content must be a string")
  end.

(** The [path] of a directory operation. *)
Definition directory_path (value : option cjson) : outcome string :=
  match value with
  | None | Some (CStr "") => Ok ""
  | Some _ => path_argument value "path"
  end.

Definition line_break (s : string) : bool :=
  has_char (Ascii.ascii_of_nat 13) s || has_char (Ascii.ascii_of_nat 10) s.

Definition normalizeFilesystemArguments (operation : string) (value : record) : outcome record :=
  assertFields operation value;;
  result ←
    (if bool_decide (operation = "filesystem.list") then
       throw_if (negb (valid_flag (field "recursive" value)))
         (CapabilityValidationError "recursive must be boolean");;
       path ← directory_path (field "path" value);
       Ok [("path", CStr path);
           ("recursive", CBool (default false (as_bool (field "recursive" value))))]
     else if bool_decide (operation = "filesystem.search") then
       query ← text (field "query" value) "query";
       throw_if (line_break query) (CapabilityValidationError "query must be a single line");;
       throw_if (1024 <? utf8_length query)%Z
         (CapabilityValidationError "query exceeds the byte limit");;
       throw_if (negb (valid_flag (field "caseSensitive" value)))
         (CapabilityValidationError "caseSensitive must be boolean");;
       path ← directory_path (field "path" value);
       Ok [("path", CStr path); ("query", CStr query);
           ("caseSensitive", CBool (default true (as_bool (field "caseSensitive" value))))]
     else if bool_decide (operation = "filesystem.move") then
       sourcePath ← path_argument (field "sourcePath" value) "sourcePath";
       destinationPath ← path_argument (field "destinationPath" value) "destinationPath";
       Ok [("sourcePath", CStr sourcePath); ("destinationPath", CStr destinationPath)]
     else if bool_decide (operation = "filesystem.create") ||
             bool_decide (operation = "filesystem.write") then
       path ← path_argument (field "path" value) "path";
       text ← content (field "content" value);
       Ok [("path", CStr path); ("content", CStr text)]
     else
       path ← path_argument (field "path" value) "path";
       Ok [("path", CStr path)]);
  canonical_record result.

(** * filesystem-constraints.ts *)

Record FilesystemConstraints := {
  fs_allowedPathPrefixes : option (list string);
  fs_deniedPathPrefixes : option (list string);
  fs_allowedExtensions : option (list string);
  fs_max : maximum → option number;
  fs_allowMutation : option bool
}.

Record EffectiveFilesystemConstraints := {
  ef_allowedPathPrefixes : option (list string);
  ef_deniedPathPrefixes : list string;
  ef_allowedExtensions : option (list string);
  ef_max : maximum → number;
  ef_allowMutation : bool
}.

(** Effective constraints are constraints with nothing left open. *)
Definition as_constraints (e : EffectiveFilesystemConstraints) : FilesystemConstraints :=
  {| fs_allowedPathPrefixes := ef_allowedPathPrefixes e;
     fs_deniedPathPrefixes := Some (ef_deniedPathPrefixes e);
     fs_allowedExtensions := ef_allowedExtensions e;
     fs_max := λ f, Some (ef_max e f);
     fs_allowMutation := Some (ef_allowMutation e) |}.

Definition text_item (item : cjson) : option string :=
  match item with CStr s => Some s | _ => None end.

Definition stringList (value : option cjson) (fieldName : string)
    : outcome (option (list string)) :=
  match value with
  | None => Ok None
  | Some v =>
      match (match v with CArr items => mapM text_item items | _ => None end) with
      | Some l => Ok (Some l)
      | None => Throw (InvalidFilesystemConstraintsError (fieldName +:+ " must be a string array"))
      end
  end.

Definition normalizedPrefixes (value : option cjson) (fieldName : string)
    : outcome (option (list string)) :=
  given ← stringList value fieldName;
  match given with
  | None => Ok None
  | Some l =>
      match map_result (λ path, normalizeRelativePath path hard_path_limits false) l with
      | Ok paths => Ok (Some (sorted_unique paths))
      | Throw InvalidRelativePathError =>
          Throw (InvalidFilesystemConstraintsError (fieldName +:+ " contains an invalid path"))
      | Throw e => Throw e
      end
  end.

Definition alphanumeric (c : Ascii.ascii) : bool := is_lower c || is_upper c || is_digit c.

(** [/^\.[a-z0-9][a-z0-9._-]*$/iu] *)
Definition is_extension (s : string) : bool :=
  match s with
  | String dot (String c rest) =>
      one_of "." dot && alphanumeric c && string_all (λ c, alphanumeric c || one_of "._-" c) rest
  | _ => false
  end.

Definition normalizedExtensions (value : option cjson) : outcome (option (list string)) :=
  given ← stringList value "allowedExtensions";
  match given with
  | None => Ok None
  | Some l =>
      throw_if (existsb (λ extension, negb (is_extension extension) || has_char slash extension) l)
        (InvalidFilesystemConstraintsError "allowedExtensions contains an invalid extension");;
      Ok (Some (sorted_unique (to_lower <$> l)))
  end.

Definition parse (value : record) : outcome FilesystemConstraints :=
  let unknown := unknown_fields constraintFields value in
  throw_if (0 <? length unknown)
    (InvalidFilesystemConstraintsError
       ("Unsupported filesystem constraint fields: " +:+ join ", " unknown));;
  allowed ← normalizedPrefixes (field "allowedPathPrefixes" value) "allowedPathPrefixes";
  denied ← normalizedPrefixes (field "deniedPathPrefixes" value) "deniedPathPrefixes";
  extensions ← normalizedExtensions (field "allowedExtensions" value);
  map_result (λ f, throw_if (negb (valid_bytes (field (maximum_name f) value)))
    (InvalidFilesystemConstraintsError
       (maximum_name f +:+ " must be a non-negative safe integer"))) maximumFields;;
  throw_if (negb (valid_flag (field "allowMutation" value)))
    (InvalidFilesystemConstraintsError "allowMutation must be boolean");;
  Ok {| fs_allowedPathPrefixes := allowed;
        fs_deniedPathPrefixes := denied;
        fs_allowedExtensions := extensions;
        fs_max := λ f, as_number (field (maximum_name f) value);
        fs_allowMutation := as_bool (field "allowMutation" value) |}.

Definition text_array (l : list string) : cjson := CArr (CStr <$> l).

Definition maximum_member (c : FilesystemConstraints) (f : maximum) : record :=
  optional_field (maximum_name f) (CNum <$> fs_max c f).

(** The members of the object a constraint value is. *)
Definition members (c : FilesystemConstraints) : record :=
  optional_field "allowedPathPrefixes" (text_array <$> fs_allowedPathPrefixes c) ++
  optional_field "deniedPathPrefixes" (text_array <$> fs_deniedPathPrefixes c) ++
  optional_field "allowedExtensions" (text_array <$> fs_allowedExtensions c) ++
  mjoin (maximum_member c <$> maximumFields) ++
  optional_field "allowMutation" (CBool <$> fs_allowMutation c).

Definition normalizeFilesystemConstraints (value : record) : outcome record :=
  parsed ← parse value;
  canonical_record (members parsed).

Definition intersectPrefixes (left right : list string) : list string :=
  sorted_unique (mjoin ((λ first, mjoin ((λ second,
    if pathMatchesPrefix first second then [first]
    else if pathMatchesPrefix second first then [second] else []) <$> right)) <$> left)).

Definition intersectExact (left right : list string) : list string :=
  sort_by compare_text (List.filter (λ value, includes value right) left).

(** [combinedAllowed], for the field [get] and its intersection. *)
Definition combinedAllowed (get : FilesystemConstraints → option (list string))
    (intersect : list string → list string → list string) (values : list FilesystemConstraints)
    : option (list string) :=
  match omap get values with
  | [] => None
  | first :: rest => Some (foldl intersect first rest)
  end.

Definition operationPaths (operation : string) (arguments : js) : list string :=
  if bool_decide (operation = "filesystem.move")
  then omap string_of [get_prop "sourcePath" arguments; get_prop "destinationPath" arguments]
  else omap string_of [get_prop "path" arguments].

Definition satisfiesEffectivePathLimits (path : string) (limits : maximum → Z) (allowRoot : bool)
    : bool :=
  match normalizeRelativePath path (path_limits limits) allowRoot with
  | Ok p => bool_decide (p = path)
  | Throw _ => false
  end.

(** [s.lastIndexOf(c)] *)
Fixpoint last_index (c : Ascii.ascii) (s : string) : option nat :=
  match s with
  | EmptyString => None
  | String d rest =>
      match last_index c rest with
      | Some i => Some (S i)
      | None => if decide (d = c) then Some 0 else None
      end
  end.

Definition dot : Ascii.ascii := Eval cbv in Ascii.ascii_of_nat 46.

Definition fileExtension (path : string) : string :=
  let basename := default "" (last (split path)) in
  match last_index dot basename with
  | Some (S i) => to_lower (String.substring (S i) (String.length basename) basename)
  | _ => ""
  end.

Definition parseEffectiveFilesystemConstraints (value : record)
    : outcome EffectiveFilesystemConstraints :=
  parsed ← parse value;
  map_result (λ f, throw_if (bool_decide (fs_max parsed f = None))
    (InvalidFilesystemConstraintsError
       ("Effective filesystem constraints are missing " +:+ maximum_name f))) maximumFields;;
  match fs_deniedPathPrefixes parsed, fs_allowMutation parsed with
  | Some denied, Some allowMutation =>
      Ok {| ef_allowedPathPrefixes := fs_allowedPathPrefixes parsed;
            ef_deniedPathPrefixes := denied;
            ef_allowedExtensions := fs_allowedExtensions parsed;
            ef_max := λ f, default (NInt 0) (fs_max parsed f);
            ef_allowMutation := allowMutation |}
  | _, _ => Throw (InvalidFilesystemConstraintsError
                     "Effective filesystem constraints are incomplete")
  end.

(** ** The handler *)

Definition effective_of (resource : FilesystemConstraints) (grants : list FilesystemConstraints)
    : EffectiveFilesystemConstraints :=
  let all := resource :: grants in
  {| ef_allowedPathPrefixes := combinedAllowed fs_allowedPathPrefixes intersectPrefixes all;
     ef_deniedPathPrefixes :=
       sorted_unique (mjoin ((λ c, default [] (fs_deniedPathPrefixes c)) <$> all));
     ef_allowedExtensions := combinedAllowed fs_allowedExtensions intersectExact all;
     ef_max := λ f, foldl num_min (NInt (filesystemHardLimits f)) (omap (λ c, fs_max c f) all);
     ef_allowMutation :=
       forallb (λ c, bool_decide (fs_allowMutation c = Some true)) grants &&
       negb (bool_decide (fs_allowMutation resource = Some false)) |}.

Definition directory_operation (operation : string) : bool :=
  includes operation ["filesystem.list"; "filesystem.search"].

(** The loop over the paths, for one of them. *)
Definition path_reasons (operation : string) (e : EffectiveFilesystemConstraints) (path : string)
    : list string :=
  let directoryCapable := directory_operation operation in
  if negb (satisfiesEffectivePathLimits path (λ f, number_value (ef_max e f)) directoryCapable) then
    ["filesystem path exceeds effective path limits"]
  else
    let classification := classifyAllowedPath path (ef_allowedPathPrefixes e) in
    reason_if (bool_decide (classification = path_denied) ||
               (negb directoryCapable && negb (bool_decide (classification = inside_allowed))))
      "filesystem path is outside allowed prefixes" ++
    reason_if (existsb (pathMatchesPrefix path) (ef_deniedPathPrefixes e))
      "filesystem path is denied".

Definition empty_list (l : option (list string)) : bool :=
  match l with Some [] => true | _ => false end.

Definition request_reasons (operation : string) (arguments : js)
    (e : EffectiveFilesystemConstraints) : list string :=
  let paths := operationPaths operation arguments in
  reason_if (empty_list (ef_allowedPathPrefixes e))
    "filesystem allowed path intersection is empty" ++
  reason_if (empty_list (ef_allowedExtensions e))
    "filesystem allowed extension intersection is empty" ++
  reason_if ((length paths =? 0) && negb (directory_operation operation))
    "filesystem operation requires a normalized path" ++
  mjoin (path_reasons operation e <$> paths) ++
  reason_if (match ef_allowedExtensions e with
             | None => false
             | Some l => negb (directory_operation operation) &&
                         existsb (λ path, negb (includes (fileExtension path) l)) paths
             end)
    "filesystem extension is not allowed" ++
  reason_if (starts_with operation "filesystem." &&
             negb (includes operation ["filesystem.list"; "filesystem.read"; "filesystem.search"]) &&
             negb (ef_allowMutation e))
    "filesystem mutation is not allowed".

(** [FilesystemConstraintHandler.combineAndValidate], inside its [try]. *)
Definition combine (operation : string) (arguments : js) (values : list record)
    (resourceConfiguration : record) : outcome ConnectorConstraintResult :=
  resource ← parse resourceConfiguration;
  grants ← map_result parse values;
  let effective := effective_of resource grants in
  let reasons := request_reasons operation arguments effective in
  normalized ← canonical_record (members (as_constraints effective));
  Ok {| cr_ok := length reasons =? 0; cr_effectiveConstraints := normalized;
        cr_reasons := reasons |}.

(** [error instanceof Error ? error.message : …] *)
Definition invalid_reason (e : error) : string :=
  match e with ThrownValue => "invalid filesystem constraints" | _ => error_message e end.

Definition filesystem_combineAndValidate : ConnectorConstraintEvaluator :=
  λ operation arguments values resourceConfiguration,
  match combine operation arguments values resourceConfiguration with
  | Ok r => Ok r
  | Throw e =>
      Ok {| cr_ok := false; cr_effectiveConstraints := []; cr_reasons := [invalid_reason e] |}
  end.

Definition FilesystemConstraintHandler : ConnectorConstraintHandler :=
  {| ch_connector := "filesystem"; ch_combineAndValidate := filesystem_combineAndValidate |}.

End FilesystemPolicy.
