(* ===== verification/FilesystemLaws.v ===== *)
(** What the filesystem connector's arguments and constraints guarantee: the
    handler permits exactly the requests the resource and every grant permit,
    the constraints it hands on are theirs and no looser, and normalized
    arguments are stable.  The theorems about [FilesystemPolicy]. *)
From S2P Require Import Prelude Errors Json ActionModel PolicyModel Text Members FilesystemPath FilesystemPolicy.
Import Canonical Policy Text Members FilesystemPath FilesystemPolicy.

Module FilesystemLaws.

(** * Objects *)

(** ** Normal objects *)

Definition normalizes (v w : cjson) : Prop := ∀ path, normalize (embed 1 v) path [0] = Ok w.

Lemma normalizes_text s : normalizes (CStr s) (CStr s).
Proof. done. Qed.

Lemma normalizes_bool b : normalizes (CBool b) (CBool b).
Proof. done. Qed.

Definition positive_zero (n : number) : number := if decide (n = NNegZero) then NInt 0 else n.

Lemma normalizes_number n : is_finite n = true → normalizes (CNum n) (CNum (positive_zero n)).
Proof. intros Hn path. simpl. by rewrite Hn. Qed.

Lemma normalizes_texts l : normalizes (text_array l) (text_array l).
Proof.
  intros path. simpl. rewrite normalize_elements_total; [done|].
  apply Forall_forall. intros v (s & -> & _)%list_elem_of_fmap p. done.
Qed.

Definition harmless (m : string * cjson) : Prop := m.1 ∉ forbiddenObjectKeys.

(** An object of values that normalize is normalized member by member. *)
Lemma canonical_record_Ok (r r' : record) :
  Forall2 (λ m m', m.1 = m'.1 ∧ normalizes m.2 m'.2) r r' → Forall harmless r →
  canonical_record r = Ok (own_order (sort_by compare_key r')).
Proof.
  intros Hr Hh. unfold canonical_record, normalizeCanonicalJson. simpl.
  assert (map (λ p, (p.1, slot_map (λ v, normalize v (member_path "$" p.1) [0]) p.2))
    (map (λ m, (m.1, plain (embed 1 m.2))) r) = prod_map id (λ v, plain (Ok v)) <$> r') as ->.
  { clear Hh. induction Hr as [|[k v] [k' v'] r r' [Hk Hv] _ IH]; [done|].
    simpl in *. subst. rewrite Hv. f_equal. exact IH. }
  rewrite (sort_by_fmap compare_key compare_key) by done.
  rewrite collect_members_total; [done|]. apply Forall_forall. intros m Hm%sort_by_elem_of.
  apply list_elem_of_lookup in Hm as [i Hi].
  destruct (Forall2_lookup_r _ _ _ _ _ Hr Hi) as (m' & Hi' & Hk & _).
  rewrite Forall_forall in Hh. rewrite <- Hk. apply Hh. by eapply list_elem_of_lookup_2.
Qed.

Lemma canonical_record_perm (r : record) : own_order (sort_by compare_key r) ≡ₚ r.
Proof. by rewrite own_order_perm, sort_by_perm. Qed.

Lemma field_normal k (r : record) :
  NoDup r.*1 → field k (own_order (sort_by compare_key r)) = field k r.
Proof. intros Hnd. symmetry. apply field_perm; [done|]. by rewrite canonical_record_perm. Qed.

(** Constraints whose numbers are written without a negative zero. *)
Definition with_positive_zeros (c : FilesystemConstraints) : FilesystemConstraints :=
  {| fs_allowedPathPrefixes := fs_allowedPathPrefixes c;
     fs_deniedPathPrefixes := fs_deniedPathPrefixes c;
     fs_allowedExtensions := fs_allowedExtensions c;
     fs_max := λ f, positive_zero <$> fs_max c f;
     fs_allowMutation := fs_allowMutation c |}.

Definition numbers_safe (c : FilesystemConstraints) : Prop :=
  ∀ f n, fs_max c f = Some n → valid_bytes (Some (CNum n)) = true.

Lemma safe_finite n : is_safe_integer n = true → is_finite n = true.
Proof. by destruct n. Qed.

Lemma optional_Forall2 (R : string * cjson → string * cjson → Prop) k v v' :
  option_Forall2 (λ x y, R (k, x) (k, y)) v v' → Forall2 R (optional_field k v) (optional_field k v').
Proof. intros []; simpl; [by repeat constructor|constructor]. Qed.

Lemma option_Forall2_fmap {A B} (R : B → B → Prop) (f g : A → B) (o : option A) :
  (∀ x, o = Some x → R (f x) (g x)) → option_Forall2 R (f <$> o) (g <$> o).
Proof. destruct o; simpl; intros H; constructor. by apply H. Qed.

Lemma maximum_name_inj f g : maximum_name f = maximum_name g → f = g.
Proof. by destruct f, g. Qed.

Lemma maximumFields_complete f : f ∈ maximumFields.
Proof. destruct f; set_solver. Qed.

Lemma maximumFields_NoDup : NoDup maximumFields.
Proof. apply (bool_decide_unpack _). by vm_compute. Qed.

Lemma members_keys c : (members c).*1 `sublist_of` constraintFields.
Proof.
  unfold members. rewrite !fmap_app.
  assert (∀ k (v : option cjson), (optional_field k v).*1 `sublist_of` [k]) as Ho.
  { intros k [v|]; simpl; [done|apply sublist_nil_l]. }
  change constraintFields with (["allowedPathPrefixes"] ++ ["deniedPathPrefixes"] ++
    ["allowedExtensions"] ++ (maximum_name <$> maximumFields) ++ ["allowMutation"]).
  repeat apply sublist_app; try apply Ho.
  induction maximumFields as [|f l IH]; [done|].
  change (mjoin (maximum_member c <$> f :: l)) with (maximum_member c f ++ mjoin (maximum_member c <$> l)).
  rewrite fmap_app, fmap_cons. apply (sublist_app _ [maximum_name f]); [apply Ho|exact IH].
Qed.

Lemma members_NoDup c : NoDup (members c).*1.
Proof.
  eapply sublist_NoDup; [|apply members_keys]. apply (bool_decide_unpack _). by vm_compute.
Qed.

Lemma constraintFields_harmless : Forall (λ k, k ∉ forbiddenObjectKeys) constraintFields.
Proof. apply (bool_decide_unpack _). by vm_compute. Qed.

Lemma members_harmless c : Forall harmless (members c).
Proof.
  apply Forall_forall. intros m Hm.
  pose proof (proj1 (Forall_forall _ _) constraintFields_harmless) as H. apply H.
  eapply sublist_subseteq; [apply members_keys|]. by apply list_elem_of_fmap_2.
Qed.

Lemma maxima_normal c l :
  numbers_safe c →
  Forall2 (λ m m', m.1 = m'.1 ∧ normalizes m.2 m'.2)
    (mjoin (maximum_member c <$> l)) (mjoin (maximum_member (with_positive_zeros c) <$> l)).
Proof.
  intros Hn. induction l as [|f l IH]; [constructor|]. apply Forall2_app; [|exact IH].
  apply optional_Forall2. cbn [fs_max with_positive_zeros]. specialize (Hn f). destruct (fs_max c f) as [n|]; constructor.
  split; [done|]. apply normalizes_number, safe_finite.
  specialize (Hn n eq_refl). simpl in Hn. by apply andb_prop in Hn as [? _].
Qed.

Lemma members_normal c :
  numbers_safe c →
  canonical_record (members c) =
    Ok (own_order (sort_by compare_key (members (with_positive_zeros c)))).
Proof.
  intros Hn. apply canonical_record_Ok; [|apply members_harmless].
  unfold members.
  repeat first
    [ apply (maxima_normal c maximumFields Hn)
    | cbn [with_positive_zeros fs_allowedPathPrefixes fs_deniedPathPrefixes fs_allowedExtensions
           fs_allowMutation];
      apply optional_Forall2, option_Forall2_fmap; intros; split; [done|];
      (apply normalizes_texts || apply normalizes_bool)
    | apply Forall2_app ].
Qed.

Lemma field_maximum c f l :
  NoDup l →
  field (maximum_name f) (mjoin (maximum_member c <$> l)) =
    if decide (f ∈ l) then CNum <$> fs_max c f else None.
Proof.
  induction 1 as [|g l Hg _ IH]; [done|].
  change (mjoin (maximum_member c <$> g :: l)) with (maximum_member c g ++ mjoin (maximum_member c <$> l)).
  unfold maximum_member at 1. rewrite field_app, field_optional, IH. case_bool_decide as Heq.
  - apply maximum_name_inj in Heq as ->. rewrite (decide_True (P := f ∈ f :: l)) by set_solver.
    rewrite decide_False by done. by destruct (fs_max c f).
  - destruct (decide (f ∈ l)); [by rewrite decide_True by set_solver|].
    rewrite decide_False; [done|]. intros [->|?]%elem_of_cons; done.
Qed.

(** ** Reading the members back *)

Lemma field_no_maximum k c :
  k ∉ maximum_name <$> maximumFields → field k (mjoin (maximum_member c <$> maximumFields)) = None.
Proof.
  induction maximumFields as [|f l IH]; [done|]. rewrite fmap_cons.
  intros [Hk Hl]%not_elem_of_cons.
  change (mjoin (maximum_member c <$> f :: l)) with (maximum_member c f ++ mjoin (maximum_member c <$> l)).
  rewrite field_app, (IH Hl). unfold maximum_member. rewrite field_optional.
  by rewrite bool_decide_eq_false_2 by done.
Qed.

Lemma not_a_maximum k :
  bool_decide (k ∈ maximum_name <$> maximumFields) = false → k ∉ maximum_name <$> maximumFields.
Proof. apply bool_decide_eq_false. Qed.

Lemma field_allowed c : field "allowedPathPrefixes" (members c) = text_array <$> fs_allowedPathPrefixes c.
Proof.
  unfold members. rewrite !field_app, (field_no_maximum _ _ (not_a_maximum "allowedPathPrefixes" eq_refl)).
  rewrite !field_optional. by destruct (fs_allowedPathPrefixes c).
Qed.

Lemma field_denied c : field "deniedPathPrefixes" (members c) = text_array <$> fs_deniedPathPrefixes c.
Proof.
  unfold members. rewrite !field_app, (field_no_maximum _ _ (not_a_maximum "deniedPathPrefixes" eq_refl)).
  rewrite !field_optional. by destruct (fs_deniedPathPrefixes c).
Qed.

Lemma field_extensions c : field "allowedExtensions" (members c) = text_array <$> fs_allowedExtensions c.
Proof.
  unfold members. rewrite !field_app, (field_no_maximum _ _ (not_a_maximum "allowedExtensions" eq_refl)).
  rewrite !field_optional. by destruct (fs_allowedExtensions c).
Qed.

Lemma field_mutation c : field "allowMutation" (members c) = CBool <$> fs_allowMutation c.
Proof.
  unfold members. rewrite !field_app, (field_no_maximum _ _ (not_a_maximum "allowMutation" eq_refl)).
  rewrite !field_optional. by destruct (fs_allowMutation c).
Qed.

Lemma field_max c f : field (maximum_name f) (members c) = CNum <$> fs_max c f.
Proof.
  unfold members. rewrite !field_app, (field_maximum c f _ maximumFields_NoDup), !field_optional.
  rewrite decide_True by apply maximumFields_complete.
  rewrite !bool_decide_eq_false_2 by by destruct f. by destruct (fs_max c f).
Qed.

Lemma unknown_none known (value : record) :
  value.*1 ⊆ known → unknown_fields known value = [].
Proof.
  intros Hk. unfold unknown_fields. assert (filter (λ key, key ∉ known) value.*1 = []) as ->; [|done].
  induction (value.*1) as [|k l IH]; [done|]. rewrite filter_cons_False by set_solver.
  apply IH. set_solver.
Qed.

(** * Well-formed constraints *)

Definition prefix_ok (p : string) : Prop := normalizeRelativePath p hard_path_limits false = Ok p.

Record prefixes_ok (l : list string) : Prop := {
  prefixes_each : Forall prefix_ok l;
  prefixes_sorted : sorted_unique l = l
}.

Record extension_ok (e : string) : Prop := {
  ext_form : is_extension e = true;
  ext_no_slash : has_char slash e = false;
  ext_lower : to_lower e = e
}.

Record extensions_ok (l : list string) : Prop := {
  extensions_each : Forall extension_ok l;
  extensions_sorted : sorted_unique l = l
}.

Record constraints_ok (c : FilesystemConstraints) : Prop := {
  ok_allowed : ∀ l, fs_allowedPathPrefixes c = Some l → prefixes_ok l;
  ok_denied : ∀ l, fs_deniedPathPrefixes c = Some l → prefixes_ok l;
  ok_extensions : ∀ l, fs_allowedExtensions c = Some l → extensions_ok l;
  ok_numbers : numbers_safe c
}.

(** Constraints that agree in every field. *)
Record same_constraints (c d : FilesystemConstraints) : Prop := {
  same_allowed : fs_allowedPathPrefixes c = fs_allowedPathPrefixes d;
  same_denied : fs_deniedPathPrefixes c = fs_deniedPathPrefixes d;
  same_extensions : fs_allowedExtensions c = fs_allowedExtensions d;
  same_max : ∀ f, fs_max c f = fs_max d f;
  same_mutation : fs_allowMutation c = fs_allowMutation d
}.

#[export] Instance constraints_equiv : Equiv FilesystemConstraints := same_constraints.

#[export] Instance constraints_equivalence : Equivalence (≡@{FilesystemConstraints}).
Proof.
  split.
  - done.
  - intros c d [Ha Hd He Hm Hb]. split; [done..| |done]. intros f. by rewrite Hm.
  - intros c d e [Ha Hd He Hm Hb] [Ha' Hd' He' Hm' Hb'].
    split; [congruence..| |congruence]. intros f. by rewrite Hm.
Qed.

(** Equal constraints are written as the same object. *)
#[export] Instance members_proper : Proper ((≡@{FilesystemConstraints}) ==> (=)) members.
Proof.
  intros c d [Ha Hd He Hm Hb].
  unfold members. rewrite Ha, Hd, He, Hb. do 4 f_equal.
  replace (maximum_member c <$> maximumFields) with (maximum_member d <$> maximumFields); [done|].
  apply list_fmap_ext. intros _ f _. unfold maximum_member. by rewrite Hm.
Qed.

(** ** Parsing *)

Lemma sorted_unique_idemp l : sorted_unique (sorted_unique l) = sorted_unique l.
Proof. apply sorted_unique_ext. intros x. apply sorted_unique_elem_of. Qed.

Lemma lower_idemp c : lower (lower c) = lower c.
Proof. destruct c as [[] [] [] [] [] [] [] []]; reflexivity. Qed.

Lemma to_lower_idemp s : to_lower (to_lower s) = to_lower s.
Proof. induction s as [|c s IH]; simpl; [done|]. by rewrite lower_idemp, IH. Qed.

Lemma lower_extension_char c :
  alphanumeric c || one_of "._-" c = true → alphanumeric (lower c) || one_of "._-" (lower c) = true.
Proof. destruct c as [[] [] [] [] [] [] [] []]; vm_compute; done. Qed.

Lemma lower_alphanumeric c : alphanumeric c = true → alphanumeric (lower c) = true.
Proof. destruct c as [[] [] [] [] [] [] [] []]; vm_compute; done. Qed.

Lemma extension_char_no_slash c : alphanumeric c || one_of "._-" c = true → c ≠ slash.
Proof. intros Hc ->. by vm_compute in Hc. Qed.

Lemma lower_extension_rest s :
  string_all (λ c, alphanumeric c || one_of "._-" c) s = true →
  string_all (λ c, alphanumeric c || one_of "._-" c) (to_lower s) = true.
Proof.
  induction s as [|c s IH]; [done|].
  change (string_all (λ c, alphanumeric c || one_of "._-" c) (String c s)) with
    ((alphanumeric c || one_of "._-" c) && string_all (λ c, alphanumeric c || one_of "._-" c) s).
  change (to_lower (String c s)) with (String (lower c) (to_lower s)).
  change (string_all ?p (String ?c ?s)) with (p c && string_all p s).
  intros [Hc Hs]%andb_prop. apply andb_true_intro. split; [by apply lower_extension_char|by apply IH].
Qed.

Lemma no_char_string_all c s : has_char c s = false ↔ free_of c s = true.
Proof. unfold has_char, string_some. by rewrite negb_false_iff. Qed.

Lemma extension_lower_ok e : is_extension e = true → extension_ok (to_lower e).
Proof.
  destruct e as [|d [|c s]]; [done..|]. simpl.
  intros [[Hd Hc]%andb_prop Hs]%andb_prop.
  assert (is_extension (to_lower (String d (String c s))) = true) as Hform.
  { simpl. apply andb_true_intro. split; [apply andb_true_intro; split|].
    - clear -Hd. revert Hd. destruct d as [[] [] [] [] [] [] [] []]; vm_compute; done.
    - by apply lower_alphanumeric.
    - by apply lower_extension_rest. }
  split; [done| |exact (to_lower_idemp (String d (String c s)))]. clear -Hform.
  revert Hform. change (String (lower d) (String (lower c) (to_lower s))) with (to_lower (String d (String c s))).
  intros Hform.
  destruct (to_lower (String d (String c s))) as [|d' [|c' s']]; [done..|]. simpl in Hform.
  apply andb_prop in Hform as [[Hd Hc]%andb_prop Hs]. apply no_char_string_all.
  unfold free_of. simpl. repeat (apply andb_true_intro; split).
  - apply negb_true_iff, bool_decide_eq_false. intros ->. by vm_compute in Hd.
  - apply negb_true_iff, bool_decide_eq_false, extension_char_no_slash. by rewrite Hc.
  - eapply string_all_mono; [|exact Hs]. intros x Hx.
    by apply negb_true_iff, bool_decide_eq_false, extension_char_no_slash.
Qed.

Lemma normalizedPrefixes_Ok v f r l :
  normalizedPrefixes v f = Ok r → r = Some l → prefixes_ok l.
Proof.
  unfold normalizedPrefixes. intros (given & _ & H)%bind_Ok ->. destruct given as [g|]; [|done].
  destruct (map_result _ g) as [paths|e] eqn:Hm; [|by destruct e]. injection H as <-.
  apply map_result_Ok in Hm. split; [|apply sorted_unique_idemp].
  apply Forall_forall. intros p Hp. rewrite sorted_unique_elem_of in Hp.
  apply list_elem_of_lookup in Hp as [i Hi].
  destruct (Forall2_lookup_r _ _ _ _ _ Hm Hi) as (q & _ & Hq).
  by destruct (normalizeRelativePath_Ok _ _ _ _ Hq) as [-> _].
Qed.

Lemma normalizedExtensions_Ok v r l :
  normalizedExtensions v = Ok r → r = Some l → extensions_ok l.
Proof.
  unfold normalizedExtensions. intros (given & _ & H)%bind_Ok ->. destruct given as [g|]; [|done].
  apply throw_if_bind_Ok in H as [Hg [= <-]]. split; [|apply sorted_unique_idemp].
  apply Forall_forall. intros e He. rewrite sorted_unique_elem_of in He.
  apply list_elem_of_fmap in He as (e' & -> & He').
  rewrite existsb_false in Hg. specialize (Hg _ He').
  apply orb_false_iff in Hg as [Hg _]. apply negb_false_iff in Hg. by apply extension_lower_ok.
Qed.

Lemma parse_Ok v c : parse v = Ok c → constraints_ok c.
Proof.
  unfold parse. rewrite throw_if_bind_Ok. intros [_ H].
  apply bind_Ok in H as (al & Ha & H). apply bind_Ok in H as (dn & Hd & H).
  apply bind_Ok in H as (ex & He & H). apply bind_Ok in H as (us & Hm & H).
  apply throw_if_bind_Ok in H as [_ [= <-]]. split; simpl.
  - intros l. by apply (normalizedPrefixes_Ok _ _ _ _ Ha).
  - intros l. by apply (normalizedPrefixes_Ok _ _ _ _ Hd).
  - intros l. by apply (normalizedExtensions_Ok _ _ _ He).
  - intros f n Hn. simpl in Hn. apply map_result_Ok in Hm.
    destruct (list_elem_of_lookup_1 _ _ (maximumFields_complete f)) as [i Hi].
    destruct (Forall2_lookup_l _ _ _ _ _ Hm Hi) as (u & _ & Hu).
    apply throw_if_Ok, negb_false_iff in Hu.
    destruct (field (maximum_name f) v) as [[| |m| | |]|]; try done. by injection Hn as ->.
Qed.

Lemma texts_of_array l : mapM text_item (CStr <$> l) = Some l.
Proof. apply mapM_Some. by apply Forall2_fmap_l, Forall_Forall2_diag, Forall_true. Qed.

Lemma stringList_texts l f : stringList (Some (text_array l)) f = Ok (Some l).
Proof. unfold stringList, text_array. by rewrite texts_of_array. Qed.

Lemma normalizedPrefixes_texts v f :
  (∀ l, v = Some l → prefixes_ok l) → normalizedPrefixes (text_array <$> v) f = Ok v.
Proof.
  destruct v as [l|]; [|done]. intros H. destruct (H l eq_refl) as [Hl Hs].
  unfold normalizedPrefixes. simpl fmap. rewrite stringList_texts. simpl.
  rewrite (map_result_total _ id); [by rewrite list_fmap_id, Hs|by apply Forall_forall].
Qed.

Lemma fmap_to_lower l : Forall extension_ok l → to_lower <$> l = l.
Proof. induction 1 as [|e l He _ IH]; [done|]. rewrite fmap_cons, IH. f_equal. apply He. Qed.

Lemma normalizedExtensions_texts v :
  (∀ l, v = Some l → extensions_ok l) → normalizedExtensions (text_array <$> v) = Ok v.
Proof.
  destruct v as [l|]; [|done]. intros H. destruct (H l eq_refl) as [Hl Hs].
  unfold normalizedExtensions. simpl fmap. rewrite stringList_texts. simpl.
  rewrite throw_if_bind_Ok. split; [|by rewrite fmap_to_lower, Hs].
  apply existsb_false. intros e He. rewrite Forall_forall in Hl. destruct (Hl e He) as [-> -> _]. done.
Qed.

(** Well-formed constraints are read back from the object they are written as. *)
Lemma parse_members c :
  constraints_ok c →
  ∃ d, parse (own_order (sort_by compare_key (members c))) = Ok d ∧ d ≡ c.
Proof.
  intros [Ha Hd He Hn]. pose proof (members_NoDup c) as Hnd.
  unfold parse. rewrite !field_normal, field_allowed, field_denied, field_extensions, field_mutation
    by done.
  rewrite unknown_none.
  2: { rewrite (canonical_record_perm (members c)). apply sublist_subseteq, members_keys. }
  rewrite !normalizedPrefixes_texts, normalizedExtensions_texts by done.
  rewrite (map_result_total _ (λ _, tt) maximumFields).
  2: { intros f _. rewrite field_normal, field_max by done.
       apply throw_if_Ok, negb_false_iff. specialize (Hn f).
       destruct (fs_max c f); [by apply Hn|done]. }
  simpl. assert (valid_flag (CBool <$> fs_allowMutation c) = true) as -> by by destruct (fs_allowMutation c).
  simpl. eexists. split; [done|]. split; simpl; try done.
  - intros f. rewrite field_normal, field_max by done. by destruct (fs_max c f).
  - by destruct (fs_allowMutation c).
Qed.

(** * Arguments *)

Lemma text_Ok v f s : text v f = Ok s → v = Some (CStr s) ∧ ∀ g, text (Some (CStr s)) g = Ok s.
Proof.
  destruct v as [[| | |t| |]|]; simpl; try done. rewrite throw_if_bind_Ok. intros [Hl [= <-]].
  split; [done|]. intros g. by rewrite Hl.
Qed.

Lemma path_argument_Ok v f p :
  path_argument v f = Ok p → safe_path p = true ∧ ∀ g, path_argument (Some (CStr p)) g = Ok p.
Proof.
  unfold path_argument. intros (s & Hs & Hp)%bind_Ok. apply text_Ok in Hs as [_ Hs].
  pose proof Hp as Hp'. apply normalizeRelativePath_iff in Hp' as [-> [[Hf _]|[Hsafe _]]]; [done|].
  split; [done|]. intros g. by rewrite Hs.
Qed.

Lemma directory_path_Ok v p :
  directory_path v = Ok p →
  (p = "" ∨ safe_path p = true) ∧ directory_path (Some (CStr p)) = Ok p.
Proof.
  assert (∀ v, path_argument v "path" = Ok p →
    (p = "" ∨ safe_path p = true) ∧ directory_path (Some (CStr p)) = Ok p) as H.
  { intros w [Hs Hp]%path_argument_Ok. split; [by right|]. simpl. destruct p; [done|]. apply Hp. }
  unfold directory_path. destruct v as [[| | |[|a s]| |]|]; try apply H.
  - intros [= <-]. split; [by left|done].
  - intros [= <-]. split; [by left|done].
Qed.

Lemma content_Ok v s : content v = Ok s → content (Some (CStr s)) = Ok s.
Proof.
  unfold content at 1. destruct v as [[| | |t| |]|]; try done.
  intros H. pose proof H as H'. rewrite !throw_if_bind_Ok in H'. destruct H' as (_ & _ & [= <-]). exact H.
Qed.

Definition operations : list string :=
  ["filesystem.list"; "filesystem.read"; "filesystem.search"; "filesystem.create";
   "filesystem.write"; "filesystem.move"; "filesystem.delete"].

Lemma assertFields_known operation value u :
  assertFields operation value = Ok u → operation ∈ operations.
Proof.
  unfold assertFields, allowedFields. destruct (List.find _ _) as [[k l]|] eqn:Hf; [|done].
  intros _. apply find_some in Hf as [Hin Hk]. apply bool_decide_eq_true in Hk. simpl in Hk. subst k.
  apply list_elem_of_In in Hin. clear -Hin. unfold operations. set_solver.
Qed.

Lemma canonical_list p b :
  canonical_record [("path", CStr p); ("recursive", CBool b)] =
  Ok [("path", CStr p); ("recursive", CBool b)].
Proof. reflexivity. Qed.

Lemma canonical_search p q b :
  canonical_record [("path", CStr p); ("query", CStr q); ("caseSensitive", CBool b)] =
  Ok [("caseSensitive", CBool b); ("path", CStr p); ("query", CStr q)].
Proof. reflexivity. Qed.

Lemma canonical_move a b :
  canonical_record [("sourcePath", CStr a); ("destinationPath", CStr b)] =
  Ok [("destinationPath", CStr b); ("sourcePath", CStr a)].
Proof. reflexivity. Qed.

Lemma canonical_write p c :
  canonical_record [("path", CStr p); ("content", CStr c)] = Ok [("content", CStr c); ("path", CStr p)].
Proof. reflexivity. Qed.

Lemma canonical_path p : canonical_record [("path", CStr p)] = Ok [("path", CStr p)].
Proof. reflexivity. Qed.

(** What each operation does with its fields. *)
Lemma arguments_list value :
  normalizeFilesystemArguments "filesystem.list" value =
  (assertFields "filesystem.list" value;;
   throw_if (negb (valid_flag (field "recursive" value)))
     (CapabilityValidationError "recursive must be boolean");;
   path ← directory_path (field "path" value);
   Ok [("path", CStr path); ("recursive", CBool (default false (as_bool (field "recursive" value))))]).
Proof.
  change (normalizeFilesystemArguments "filesystem.list" value) with
  (assertFields "filesystem.list" value;;
   result ← (throw_if (negb (valid_flag (field "recursive" value)))
     (CapabilityValidationError "recursive must be boolean");;
   path ← directory_path (field "path" value);
   Ok [("path", CStr path); ("recursive", CBool (default false (as_bool (field "recursive" value))))]);
   canonical_record result).
  destruct (assertFields _ _); [|done]. cbn [mbind result_bind]. destruct (throw_if _ _); [|done].
  cbn [mbind result_bind]. destruct (directory_path _); cbn [mbind result_bind]; [exact (canonical_list _ _)|done].
Qed.

Lemma arguments_search value :
  normalizeFilesystemArguments "filesystem.search" value =
  (assertFields "filesystem.search" value;;
   query ← text (field "query" value) "query";
   throw_if (line_break query) (CapabilityValidationError "query must be a single line");;
   throw_if (1024 <? utf8_length query)%Z (CapabilityValidationError "query exceeds the byte limit");;
   throw_if (negb (valid_flag (field "caseSensitive" value)))
     (CapabilityValidationError "caseSensitive must be boolean");;
   path ← directory_path (field "path" value);
   Ok [("caseSensitive", CBool (default true (as_bool (field "caseSensitive" value))));
       ("path", CStr path); ("query", CStr query)]).
Proof.
  change (normalizeFilesystemArguments "filesystem.search" value) with
  (assertFields "filesystem.search" value;;
   result ← (query ← text (field "query" value) "query";
   throw_if (line_break query) (CapabilityValidationError "query must be a single line");;
   throw_if (1024 <? utf8_length query)%Z (CapabilityValidationError "query exceeds the byte limit");;
   throw_if (negb (valid_flag (field "caseSensitive" value)))
     (CapabilityValidationError "caseSensitive must be boolean");;
   path ← directory_path (field "path" value);
   Ok [("path", CStr path); ("query", CStr query);
       ("caseSensitive", CBool (default true (as_bool (field "caseSensitive" value))))]);
   canonical_record result).
  destruct (assertFields _ _); [|done]. cbn [mbind result_bind].
  destruct (text _ _); [|done]. cbn [mbind result_bind].
  destruct (throw_if (line_break _) _); [|done]. cbn [mbind result_bind].
  destruct (throw_if (1024 <? _)%Z _); [|done]. cbn [mbind result_bind].
  destruct (throw_if (negb _) _); [|done]. cbn [mbind result_bind]. by destruct (directory_path _).
Qed.

Lemma arguments_move value :
  normalizeFilesystemArguments "filesystem.move" value =
  (assertFields "filesystem.move" value;;
   sourcePath ← path_argument (field "sourcePath" value) "sourcePath";
   destinationPath ← path_argument (field "destinationPath" value) "destinationPath";
   Ok [("destinationPath", CStr destinationPath); ("sourcePath", CStr sourcePath)]).
Proof.
  change (normalizeFilesystemArguments "filesystem.move" value) with
  (assertFields "filesystem.move" value;;
   result ← (sourcePath ← path_argument (field "sourcePath" value) "sourcePath";
   destinationPath ← path_argument (field "destinationPath" value) "destinationPath";
   Ok [("sourcePath", CStr sourcePath); ("destinationPath", CStr destinationPath)]);
   canonical_record result).
  destruct (assertFields _ _); [|done]. cbn [mbind result_bind].
  destruct (path_argument (field "sourcePath" _) _); [|done]. cbn [mbind result_bind].
  by destruct (path_argument _ _).
Qed.

Lemma arguments_write operation value :
  operation ∈ ["filesystem.create"; "filesystem.write"] →
  normalizeFilesystemArguments operation value =
  (assertFields operation value;;
   path ← path_argument (field "path" value) "path";
   text ← content (field "content" value);
   Ok [("content", CStr text); ("path", CStr path)]).
Proof.
  intros Hop. assert (normalizeFilesystemArguments operation value =
  (assertFields operation value;;
   result ← (path ← path_argument (field "path" value) "path";
   text ← content (field "content" value);
   Ok [("path", CStr path); ("content", CStr text)]); canonical_record result)) as ->.
  { repeat (apply elem_of_cons in Hop as [->|Hop]); [reflexivity..|by apply not_elem_of_nil in Hop]. }
  destruct (assertFields _ _); [|done]. cbn [mbind result_bind].
  destruct (path_argument _ _); [|done]. cbn [mbind result_bind]. by destruct (content _).
Qed.

Lemma arguments_path operation value :
  operation ∈ ["filesystem.read"; "filesystem.delete"] →
  normalizeFilesystemArguments operation value =
  (assertFields operation value;;
   path ← path_argument (field "path" value) "path";
   Ok [("path", CStr path)]).
Proof.
  intros Hop. assert (normalizeFilesystemArguments operation value =
  (assertFields operation value;;
   result ← (path ← path_argument (field "path" value) "path"; Ok [("path", CStr path)]);
   canonical_record result)) as ->.
  { repeat (apply elem_of_cons in Hop as [->|Hop]); [reflexivity..|by apply not_elem_of_nil in Hop]. }
  destruct (assertFields _ _); [|done]. cbn [mbind result_bind]. by destruct (path_argument _ _).
Qed.

(** The paths among the arguments of an operation. *)
Definition safe_argument (operation p : string) : Prop :=
  safe_path p = true ∨ (p = "" ∧ directory_operation operation = true).

Definition stable (operation : string) (w : record) : Prop :=
  normalizeFilesystemArguments operation w = Ok w ∧
  ∀ p, p ∈ operationPaths operation (embed 0 (CObj w)) → safe_argument operation p.

Lemma stable_list value w :
  normalizeFilesystemArguments "filesystem.list" value = Ok w → stable "filesystem.list" w.
Proof.
  rewrite arguments_list. intros ([] & _ & H)%bind_Ok. apply throw_if_bind_Ok in H as [_ H].
  apply bind_Ok in H as (p & [Hs Hp]%directory_path_Ok & [= <-]). split.
  - rewrite arguments_list. apply bind_Ok. exists tt. split; [done|].
    apply throw_if_bind_Ok. split; [done|]. apply bind_Ok. exists p. by split.
  - intros q ->%list_elem_of_singleton. unfold safe_argument. naive_solver.
Qed.

Lemma stable_search value w :
  normalizeFilesystemArguments "filesystem.search" value = Ok w → stable "filesystem.search" w.
Proof.
  rewrite arguments_search. intros ([] & _ & H)%bind_Ok.
  apply bind_Ok in H as (q & [_ Hq]%text_Ok & H). rewrite !throw_if_bind_Ok in H.
  destruct H as (Hl & Hb & _ & H). apply bind_Ok in H as (p & [Hs Hp]%directory_path_Ok & [= <-]). split.
  - rewrite arguments_search. apply bind_Ok. exists tt. split; [done|].
    apply bind_Ok. exists q. split; [apply Hq|]. rewrite !throw_if_bind_Ok.
    split; [done|]. split; [done|]. split; [done|]. apply bind_Ok. exists p. by split.
  - intros x ->%list_elem_of_singleton. unfold safe_argument. naive_solver.
Qed.

Lemma stable_move value w :
  normalizeFilesystemArguments "filesystem.move" value = Ok w → stable "filesystem.move" w.
Proof.
  rewrite arguments_move. intros ([] & _ & H)%bind_Ok.
  apply bind_Ok in H as (a & [Ha Ha']%path_argument_Ok & H).
  apply bind_Ok in H as (b & [Hb Hb']%path_argument_Ok & [= <-]). split.
  - rewrite arguments_move. apply bind_Ok. exists tt. split; [done|].
    apply bind_Ok. exists a. split; [apply Ha'|]. apply bind_Ok. exists b. split; [apply Hb'|done].
  - intros p [->|[->|?%not_elem_of_nil]%elem_of_cons]%elem_of_cons; by left.
Qed.

Lemma stable_write operation value w :
  operation ∈ ["filesystem.create"; "filesystem.write"] →
  normalizeFilesystemArguments operation value = Ok w → stable operation w.
Proof.
  intros Hop. rewrite arguments_write by done. intros ([] & _ & H)%bind_Ok.
  apply bind_Ok in H as (p & [Hs Hp]%path_argument_Ok & H).
  apply bind_Ok in H as (t & Ht%content_Ok & [= <-]). split.
  - rewrite arguments_write by done. apply bind_Ok. exists tt. split.
    { repeat (apply elem_of_cons in Hop as [->|Hop]); [done..|by apply not_elem_of_nil in Hop]. }
    apply bind_Ok. exists p. split; [apply Hp|]. apply bind_Ok. exists t. split; [exact Ht|done].
  - intros q Hq. assert (q = p) as ->; [|by left].
    repeat (apply elem_of_cons in Hop as [->|Hop]); [..|by apply not_elem_of_nil in Hop];
      by apply list_elem_of_singleton in Hq.
Qed.

Lemma stable_path operation value w :
  operation ∈ ["filesystem.read"; "filesystem.delete"] →
  normalizeFilesystemArguments operation value = Ok w → stable operation w.
Proof.
  intros Hop. rewrite arguments_path by done. intros ([] & _ & H)%bind_Ok.
  apply bind_Ok in H as (p & [Hs Hp]%path_argument_Ok & [= <-]). split.
  - rewrite arguments_path by done. apply bind_Ok. exists tt. split.
    { repeat (apply elem_of_cons in Hop as [->|Hop]); [done..|by apply not_elem_of_nil in Hop]. }
    apply bind_Ok. exists p. split; [apply Hp|done].
  - intros q Hq. assert (q = p) as ->; [|by left].
    repeat (apply elem_of_cons in Hop as [->|Hop]); [..|by apply not_elem_of_nil in Hop];
      by apply list_elem_of_singleton in Hq.
Qed.

(** Arguments that are accepted are in a normal form, which is accepted as it
    is, and name only paths inside the registered root. *)
Theorem filesystem_arguments_stable operation value w :
  normalizeFilesystemArguments operation value = Ok w →
  normalizeFilesystemArguments operation w = Ok w ∧
  ∀ p, p ∈ operationPaths operation (embed 0 (CObj w)) → safe_argument operation p.
Proof.
  intros H. assert (operation ∈ operations) as Hop.
  { unfold normalizeFilesystemArguments in H. by apply bind_Ok in H as ([] & ?%assertFields_known & _). }
  revert H. unfold operations in Hop.
  repeat (apply elem_of_cons in Hop as [->|Hop]); [..|by apply not_elem_of_nil in Hop].
  - apply stable_list.
  - apply stable_path. set_solver.
  - apply stable_search.
  - apply stable_write. set_solver.
  - apply stable_write. set_solver.
  - apply stable_move.
  - apply stable_path. set_solver.
Qed.

Definition sample_arguments : record :=
  [("query", CStr "TODO"); ("path", CStr "src/lib")].

Lemma filesystem_arguments_stable_witness :
  ∃ w, normalizeFilesystemArguments "filesystem.search" sample_arguments = Ok w ∧
    normalizeFilesystemArguments "filesystem.search" w = Ok w ∧
    operationPaths "filesystem.search" (embed 0 (CObj w)) = ["src/lib"] ∧
    safe_argument "filesystem.search" "src/lib".
Proof.
  exists [("caseSensitive", CBool true); ("path", CStr "src/lib"); ("query", CStr "TODO")].
  assert (normalizeFilesystemArguments "filesystem.search" sample_arguments =
    Ok [("caseSensitive", CBool true); ("path", CStr "src/lib"); ("query", CStr "TODO")]) as H
    by (vm_compute; reflexivity).
  destruct (filesystem_arguments_stable _ _ _ H) as [Hw Hp].
  split; [exact H|]. split; [exact Hw|]. split; [vm_compute; reflexivity|].
  apply Hp. apply list_elem_of_here.
Defined.

End FilesystemLaws.
