(* ===== verification/FilesystemPermission.v ===== *)
(** What the filesystem connector's constraint handler permits: exactly the
    requests the resource and every grant permit, whatever the order of the
    grants, under effective constraints that are theirs and no looser.  The
    theorems about the handler of [FilesystemPolicy]. *)
From S2P Require Import Prelude Errors Json ActionModel PolicyModel Text Members FilesystemPath FilesystemPolicy FilesystemLaws.
Import Canonical Policy Text Members FilesystemPath FilesystemPolicy FilesystemLaws.

Module FilesystemPermission.

(** * Specification *)

(** [p] is [q] or lies below it. *)
Definition below (p q : string) : Prop := split q `prefix_of` split p.

(** The path [p] is in the allowed prefixes [l], if there are any. *)
Definition covered (l : list string) (p : string) : Prop := ∃ q, q ∈ l ∧ below p q.

Definition allows (c : FilesystemConstraints) (p : string) : Prop :=
  ∀ l, fs_allowedPathPrefixes c = Some l → covered l p.

Definition allows_extension (c : FilesystemConstraints) (e : string) : Prop :=
  ∀ l, fs_allowedExtensions c = Some l → e ∈ l.

Definition within (c : FilesystemConstraints) (f : maximum) (n : Z) : Prop :=
  ∀ m, fs_max c f = Some m → (n <= number_value m)%Z.

Definition denies (c : FilesystemConstraints) (p : string) : Prop :=
  ∃ q, q ∈ default [] (fs_deniedPathPrefixes c) ∧ below p q.

Definition reading (operation : string) : Prop :=
  operation = "filesystem.list" ∨ operation = "filesystem.read" ∨ operation = "filesystem.search".

#[export] Instance reading_decision operation : Decision (reading operation).
Proof. unfold reading. apply _. Defined.

(** A path that all constraints let an operation use; a directory operation
    may also use a directory above a place they allow, and the root. *)
Record path_permitted (all : list FilesystemConstraints) (directory : bool) (p : string) : Prop := {
  pp_limits : (directory = true ∧ p = "") ∨
    (safe_path p = true ∧
     ∀ f n, (f, n) ∈ [(MaxPathSegments, Z.of_nat (length (split p))); (MaxPathBytes, utf8_length p)] →
       (n <= filesystemHardLimits f)%Z ∧ ∀ c, c ∈ all → within c f n);
  pp_allowed :
    if directory then ∃ q, (p = "" ∨ below q p) ∧ ∀ c, c ∈ all → allows c q
    else ∀ c, c ∈ all → allows c p;
  pp_not_denied : ∀ c, c ∈ all → ¬ denies c p
}.

Record request_permitted (operation : string) (paths : list string)
    (resource : FilesystemConstraints) (grants : list FilesystemConstraints) : Prop := {
  rp_somewhere : ∃ q, ∀ c, c ∈ resource :: grants → allows c q;
  rp_some_extension : ∃ e, ∀ c, c ∈ resource :: grants → allows_extension c e;
  rp_has_path : directory_operation operation = true ∨ paths ≠ [];
  rp_paths : ∀ p, p ∈ paths → path_permitted (resource :: grants) (directory_operation operation) p;
  rp_extensions : directory_operation operation = false →
    ∀ p c, p ∈ paths → c ∈ resource :: grants → allows_extension c (fileExtension p);
  rp_mutation : starts_with operation "filesystem." = true → ¬ reading operation →
    fs_allowMutation resource ≠ Some false ∧ ∀ c, c ∈ grants → fs_allowMutation c = Some true
}.

(** * Lemmas *)

Lemma matches_below p q : pathMatchesPrefix p q = true ↔ below p q.
Proof. apply pathMatchesPrefix_spec. Qed.

Lemma below_refl p : below p p.
Proof. unfold below. reflexivity. Qed.

Lemma below_trans p q r : below p q → below q r → below p r.
Proof. unfold below. intros ??. by etrans. Qed.

Lemma below_total p q r : below p q → below p r → below q r ∨ below r q.
Proof. unfold below. intros Hq Hr. destruct (prefix_weak_total _ _ _ Hq Hr); auto. Qed.

(** ** Intersections *)

Lemma intersectPrefixes_elem a b p :
  p ∈ intersectPrefixes a b ↔ (p ∈ a ∧ covered b p) ∨ (p ∈ b ∧ covered a p).
Proof.
  unfold intersectPrefixes. rewrite sorted_unique_elem_of, list_elem_of_join.
  setoid_rewrite list_elem_of_fmap. unfold covered. split.
  - intros (l & Hp & x & -> & Hx). apply list_elem_of_join in Hp as (l & Hp & Hl).
    apply list_elem_of_fmap in Hl as (y & -> & Hy). revert Hp.
    destruct (pathMatchesPrefix x y) eqn:Hxy.
    + intros ->%list_elem_of_singleton. left. split; [done|]. exists y. by rewrite <- matches_below.
    + destruct (pathMatchesPrefix y x) eqn:Hyx; [|by intros ?%not_elem_of_nil].
      intros ->%list_elem_of_singleton. right. split; [done|]. exists x. by rewrite <- matches_below.
  - assert (∀ x y, x ∈ a → y ∈ b → p ∈ (if pathMatchesPrefix x y then [x]
      else if pathMatchesPrefix y x then [y] else []) → ∃ l, p ∈ l ∧ ∃ x, l = mjoin ((λ second,
        if pathMatchesPrefix x second then [x] else if pathMatchesPrefix second x then [second] else [])
        <$> b) ∧ x ∈ a) as Hin.
    { intros x y Hx Hy Hp. eexists. split; [|by exists x]. apply list_elem_of_join.
      eexists. split; [exact Hp|]. apply list_elem_of_fmap. by exists y. }
    intros [[Hp (y & Hy & Hpy)]|[Hp (x & Hx & Hxp)]].
    + apply (Hin p y); [done..|]. rewrite (proj2 (matches_below p y) Hpy). by left.
    + apply (Hin x p); [done..|]. rewrite (proj2 (matches_below p x) Hxp).
      destruct (pathMatchesPrefix x p) eqn:Hxp'; [|by left].
      apply matches_below in Hxp'. apply list_elem_of_singleton.
      rewrite <- (join_split p), <- (join_split x). f_equal.
      by apply (anti_symm prefix).
Qed.

Lemma intersectPrefixes_covered a b p :
  covered (intersectPrefixes a b) p ↔ covered a p ∧ covered b p.
Proof.
  unfold covered at 1. setoid_rewrite intersectPrefixes_elem. split.
  - intros (q & [[Hq (r & Hr & Hqr)]|[Hq (r & Hr & Hqr)]] & Hpq).
    + split; [by exists q|]. exists r. split; [done|]. by eapply below_trans.
    + split; [|by exists q]. exists r. split; [done|]. by eapply below_trans.
  - intros [(x & Hx & Hpx) (y & Hy & Hpy)].
    destruct (below_total p x y Hpx Hpy) as [Hxy|Hyx].
    + exists x. split; [|done]. left. split; [done|]. by exists y.
    + exists y. split; [|done]. right. split; [done|]. by exists x.
Qed.

(** The first two lists may be replaced by their intersection. *)
Lemma covered_cons first l rest p :
  (∀ k, k ∈ intersectPrefixes first l :: rest → covered k p) ↔
  (∀ k, k ∈ first :: l :: rest → covered k p).
Proof.
  rewrite <- !Forall_forall, !Forall_cons. rewrite intersectPrefixes_covered. tauto.
Qed.

Lemma fold_covered first rest p :
  covered (foldl intersectPrefixes first rest) p ↔ ∀ l, l ∈ first :: rest → covered l p.
Proof.
  revert first. induction rest as [|l rest IH]; intros first; simpl.
  - split; [by intros H l ->%list_elem_of_singleton|]. intros H. apply H. by left.
  - by rewrite IH, covered_cons.
Qed.

Lemma fold_elem first rest p :
  p ∈ foldl intersectPrefixes first rest ↔
  (∃ l, l ∈ first :: rest ∧ p ∈ l) ∧ ∀ l, l ∈ first :: rest → covered l p.
Proof.
  revert first. induction rest as [|l rest IH]; intros first; simpl.
  - split; [|by intros [(l & ->%list_elem_of_singleton & ?) _]].
    intros Hp. split; [exists first; split; [by left|done]|].
    intros l ->%list_elem_of_singleton. exists p. split; [done|apply below_refl].
  - rewrite IH, covered_cons. split; intros [(k & Hk & Hp) Hall]; (split; [|done]).
    + apply elem_of_cons in Hk as [->|Hk].
      * apply intersectPrefixes_elem in Hp as [[Hp _]|[Hp _]]; [exists first|exists l]; set_solver.
      * exists k. set_solver.
    + assert (covered first p ∧ covered l p) as [Hf Hl] by (split; apply Hall; set_solver).
      apply elem_of_cons in Hk as [->|Hk]; [|apply elem_of_cons in Hk as [->|Hk]].
      * exists (intersectPrefixes first l). split; [by left|]. apply intersectPrefixes_elem. auto.
      * exists (intersectPrefixes first l). split; [by left|]. apply intersectPrefixes_elem. auto.
      * exists k. split; [by right|done].
Qed.

Lemma fold_prefixes_sorted first rest :
  sorted_unique first = first →
  sorted_unique (foldl intersectPrefixes first rest) = foldl intersectPrefixes first rest.
Proof.
  revert first. induction rest as [|l rest IH]; intros first Hf; simpl; [done|].
  apply IH, sorted_unique_idemp.
Qed.

Lemma intersectExact_elem a b e : e ∈ intersectExact a b ↔ e ∈ a ∧ e ∈ b.
Proof.
  unfold intersectExact. rewrite sort_by_elem_of, list_elem_of_In, List.filter_In.
  by rewrite <- list_elem_of_In, includes_spec.
Qed.

Lemma fold_exact_elem first rest e :
  e ∈ foldl intersectExact first rest ↔ ∀ l, l ∈ first :: rest → e ∈ l.
Proof.
  revert first. induction rest as [|l rest IH]; intros first; simpl.
  - split; [by intros H l ->%list_elem_of_singleton|]. intros H. apply H. by left.
  - rewrite IH, <- !(Forall_forall (λ l, e ∈ l)), !Forall_cons, intersectExact_elem. tauto.
Qed.

Lemma intersectExact_sorted a b :
  sorted_unique a = a → sorted_unique (intersectExact a b) = intersectExact a b.
Proof.
  intros Ha. unfold intersectExact, sorted_unique at 1.
  assert (NoDup (List.filter (λ value, includes value b) a)) as Hnd.
  { apply NoDup_ListNoDup, List.NoDup_filter, NoDup_ListNoDup. rewrite <- Ha. apply sorted_unique_NoDup. }
  rewrite (sort_text_perm _ (List.filter (λ value, includes value b) a)); [done|].
  apply NoDup_Permutation; [apply unique_NoDup|done|].
  intros x. by rewrite unique_elem_of, sort_by_elem_of.
Qed.

Lemma fold_exact_sorted first rest :
  sorted_unique first = first →
  sorted_unique (foldl intersectExact first rest) = foldl intersectExact first rest.
Proof.
  revert first. induction rest as [|l rest IH]; intros first Hf; simpl; [done|].
  by apply IH, intersectExact_sorted.
Qed.

(** ** The combined lists *)

Section combined.
  Context (read : FilesystemConstraints → option (list string))
    (intersect : list string → list string → list string) (all : list FilesystemConstraints).

Lemma combined_None :
  combinedAllowed read intersect all = None ↔ ∀ c, c ∈ all → read c = None.
Proof.
  unfold combinedAllowed. split.
  - destruct (omap read all) as [|l ls] eqn:Ho; [|done]. intros _ c Hc.
    destruct (read c) as [l|] eqn:Hl; [|done].
    assert (l ∈ omap read all) as Hin by (apply list_elem_of_omap; eauto).
    rewrite Ho in Hin. by apply not_elem_of_nil in Hin.
  - intros H. destruct (omap read all) as [|l ls] eqn:Ho; [done|].
    assert (l ∈ omap read all) as Hin by (rewrite Ho; by left).
    apply list_elem_of_omap in Hin as (c & Hc & Hl). by rewrite H in Hl.
Qed.

(** What holds of the combined list exactly when it holds of every list, holds
    of the combined list exactly when it holds of what every constraint gives. *)
Lemma combined_all (P : list string → Prop) :
  (∀ first rest, P (foldl intersect first rest) ↔ ∀ l, l ∈ first :: rest → P l) →
  (∀ l, combinedAllowed read intersect all = Some l → P l) ↔
  ∀ c, c ∈ all → ∀ l, read c = Some l → P l.
Proof.
  intros HP. unfold combinedAllowed.
  assert ((∀ l, l ∈ omap read all → P l) ↔ ∀ c, c ∈ all → ∀ l, read c = Some l → P l) as <-.
  { setoid_rewrite list_elem_of_omap. naive_solver. }
  destruct (omap read all) as [|first rest].
  - split; [|done]. by intros _ l ?%not_elem_of_nil.
  - rewrite <- HP. split; [|by intros H l [= <-]]. intros H. by apply H.
Qed.

Lemma combined_Some l :
  combinedAllowed read intersect all = Some l →
  ∃ first rest, l = foldl intersect first rest ∧
    ∀ k, k ∈ first :: rest → ∃ c, c ∈ all ∧ read c = Some k.
Proof.
  unfold combinedAllowed. destruct (omap read all) as [|first rest] eqn:Ho; [done|].
  intros [= <-]. exists first, rest. split; [done|]. rewrite <- Ho.
  by intros k (c & Hc & Hk)%list_elem_of_omap; eauto.
Qed.

End combined.

Lemma combined_allows all p :
  (∀ l, combinedAllowed fs_allowedPathPrefixes intersectPrefixes all = Some l → covered l p) ↔
  ∀ c, c ∈ all → allows c p.
Proof. apply (combined_all _ _ _ (λ l, covered l p)). intros. apply fold_covered. Qed.

Lemma combined_extensions all e :
  (∀ l, combinedAllowed fs_allowedExtensions intersectExact all = Some l → e ∈ l) ↔
  ∀ c, c ∈ all → allows_extension c e.
Proof. apply (combined_all _ _ _ (λ l, e ∈ l)). intros. apply fold_exact_elem. Qed.

(** Two lists without an order of their own are equal when they have the same
    elements. *)
Lemma combined_perm read intersect all all' (R : list (list string) → string → Prop) :
  all ≡ₚ all' →
  (∀ c l, c ∈ all → read c = Some l → sorted_unique l = l) →
  (∀ first rest, sorted_unique first = first →
     sorted_unique (foldl intersect first rest) = foldl intersect first rest) →
  (∀ first rest x, x ∈ foldl intersect first rest ↔ R (first :: rest) x) →
  (∀ k k' x, k ≡ₚ k' → R k x → R k' x) →
  combinedAllowed read intersect all = combinedAllowed read intersect all'.
Proof.
  intros Hp Hsort Hfold HR Hperm.
  assert (omap read all ≡ₚ omap read all') as Ho by by rewrite Hp.
  assert (∀ l, l ∈ omap read all → sorted_unique l = l) as Hs.
  { intros l (c & Hc & Hl)%list_elem_of_omap. by apply (Hsort c). }
  unfold combinedAllowed. destruct (omap read all) as [|a l], (omap read all') as [|b k]; try done.
  - by apply Permutation_nil_cons in Ho.
  - by apply symmetry, Permutation_nil_cons in Ho.
  - f_equal. assert (b ∈ a :: l) as Hb by (rewrite Ho; by left).
    rewrite <- (Hfold a l), <- (Hfold b k) by (apply Hs; done || by left).
    apply sorted_unique_ext. intros x. rewrite !HR.
    split; [by apply Hperm|by apply Hperm; symmetry].
Qed.

Lemma combined_prefixes_perm all all' :
  Forall constraints_ok all → all ≡ₚ all' →
  combinedAllowed fs_allowedPathPrefixes intersectPrefixes all =
  combinedAllowed fs_allowedPathPrefixes intersectPrefixes all'.
Proof.
  intros Hok Hp. rewrite Forall_forall in Hok.
  apply (combined_perm _ _ _ _ (λ k x, (∃ l, l ∈ k ∧ x ∈ l) ∧ ∀ l, l ∈ k → covered l x)); try done.
  - intros c l Hc Hl. by destruct (ok_allowed _ (Hok c Hc) l Hl).
  - apply fold_prefixes_sorted.
  - apply fold_elem.
  - intros k k' x Hk [(l & Hl & Hx) Hall]. setoid_rewrite <- Hk. eauto.
Qed.

Lemma combined_extensions_perm all all' :
  Forall constraints_ok all → all ≡ₚ all' →
  combinedAllowed fs_allowedExtensions intersectExact all =
  combinedAllowed fs_allowedExtensions intersectExact all'.
Proof.
  intros Hok Hp. rewrite Forall_forall in Hok.
  apply (combined_perm _ _ _ _ (λ k x, ∀ l, l ∈ k → x ∈ l)); try done.
  - intros c l Hc Hl. by destruct (ok_extensions _ (Hok c Hc) l Hl).
  - apply fold_exact_sorted.
  - apply fold_exact_elem.
  - intros k k' x Hk. by setoid_rewrite Hk.
Qed.

(** ** The effective constraints *)

Section effective.
  Context (resource : FilesystemConstraints) (grants : list FilesystemConstraints)
    (Hok : Forall constraints_ok (resource :: grants)).

#[local] Abbreviation all := (resource :: grants).
#[local] Abbreviation e := (effective_of resource grants).

Lemma effective_denied p :
  p ∈ ef_deniedPathPrefixes e ↔ ∃ c, c ∈ all ∧ p ∈ default [] (fs_deniedPathPrefixes c).
Proof.
  unfold effective_of, ef_deniedPathPrefixes. rewrite sorted_unique_elem_of, list_elem_of_join.
  setoid_rewrite list_elem_of_fmap. naive_solver.
Qed.

Lemma effective_denies p :
  existsb (pathMatchesPrefix p) (ef_deniedPathPrefixes e) = true ↔ ∃ c, c ∈ all ∧ denies c p.
Proof.
  rewrite existsb_spec. setoid_rewrite effective_denied. setoid_rewrite matches_below.
  unfold denies. naive_solver.
Qed.

Lemma hard_limit_safe f : is_safe_integer (NInt (filesystemHardLimits f)) = true.
Proof. by destruct f. Qed.

Lemma maxima_safe f :
  Forall integral (NInt (filesystemHardLimits f) :: omap (λ c, fs_max c f) all).
Proof using Hok.
  constructor; [apply hard_limit_safe|]. apply Forall_forall.
  intros n (c & Hc & Hn)%list_elem_of_omap. rewrite Forall_forall in Hok.
  pose proof (ok_numbers _ (Hok c Hc) f n Hn) as H. by apply andb_prop in H as [? _].
Qed.

Lemma effective_max f n :
  (n <= number_value (ef_max e f))%Z ↔
  (n <= filesystemHardLimits f)%Z ∧ ∀ c, c ∈ all → within c f n.
Proof using Hok.
  cbn [ef_max effective_of]. pose proof (maxima_safe f) as Hs.
  destruct (foldl_min_spec _ _ Hs) as [Hin Hle]. rewrite Forall_forall in Hs. split.
  - intros Hn. split.
    + etrans; [exact Hn|]. apply (rank_value _ (NInt (filesystemHardLimits f)));
        [by apply Hs|apply Hs; by left|apply Hle; by left].
    + intros c Hc m Hm. assert (m ∈ omap (λ c, fs_max c f) all) as Hmin
        by (apply list_elem_of_omap; eauto).
      etrans; [exact Hn|]. apply rank_value; [by apply Hs|apply Hs; by right|apply Hle; by right].
  - intros [Hh Hc]. apply elem_of_cons in Hin as [->|Hin]; [done|].
    apply list_elem_of_omap in Hin as (c & Hcin & Hm). by apply (Hc c).
Qed.

Lemma effective_number f : valid_bytes (Some (CNum (ef_max e f))) = true.
Proof using Hok.
  cbn [ef_max effective_of]. pose proof (maxima_safe f) as Hs.
  destruct (foldl_min_spec _ _ Hs) as [Hin _]. apply elem_of_cons in Hin as [->|Hin].
  - by destruct f.
  - apply list_elem_of_omap in Hin as (c & Hc & Hn). rewrite Forall_forall in Hok.
    by apply (ok_numbers _ (Hok c Hc) f).
Qed.

Lemma effective_ok : constraints_ok (as_constraints e).
Proof using Hok.
  pose proof (proj1 (Forall_forall _ _) Hok) as Hall. split; cbn [as_constraints fs_allowedPathPrefixes
    fs_deniedPathPrefixes fs_allowedExtensions fs_max].
  - intros l (first & rest & -> & Hin)%combined_Some.
    assert (∀ k, k ∈ first :: rest → prefixes_ok k) as Hp.
    { intros k (c & Hc & Hk)%Hin. by apply (ok_allowed _ (Hall c Hc)). }
    split; [|apply fold_prefixes_sorted, Hp; by left].
    apply Forall_forall. intros p [(k & Hk & Hpk) _]%fold_elem.
    destruct (Hp k Hk) as [Heach _]. rewrite Forall_forall in Heach. by apply Heach.
  - intros l [= <-]. split; [|apply sorted_unique_idemp]. apply Forall_forall.
    intros p (c & Hc & Hp)%effective_denied.
    destruct (fs_deniedPathPrefixes c) as [k|] eqn:Hk; [|by apply not_elem_of_nil in Hp].
    destruct (ok_denied _ (Hall c Hc) k Hk) as [Heach _]. rewrite Forall_forall in Heach. by apply Heach.
  - intros l (first & rest & -> & Hin)%combined_Some.
    assert (∀ k, k ∈ first :: rest → extensions_ok k) as Hp.
    { intros k (c & Hc & Hk)%Hin. by apply (ok_extensions _ (Hall c Hc)). }
    split; [|apply fold_exact_sorted, Hp; by left].
    apply Forall_forall. intros x Hx. rewrite fold_exact_elem in Hx.
    destruct (Hp first) as [Heach _]; [by left|]. rewrite Forall_forall in Heach.
    apply Heach, Hx. by left.
  - intros f n [= <-]. apply (effective_number f).
Qed.

Lemma effective_mutation :
  ef_allowMutation e = true ↔
  fs_allowMutation resource ≠ Some false ∧ ∀ c, c ∈ grants → fs_allowMutation c = Some true.
Proof.
  cbn [ef_allowMutation effective_of]. rewrite andb_true_iff, Forall_forallb, Forall_forall,
    negb_true_iff, bool_decide_eq_false. setoid_rewrite bool_decide_eq_true. tauto.
Qed.

(** ** One path *)

Lemma limits_permit p allowRoot :
  satisfiesEffectivePathLimits p (λ f, number_value (ef_max e f)) allowRoot = true ↔
  (allowRoot = true ∧ p = "") ∨
  (safe_path p = true ∧
   ∀ f n, (f, n) ∈ [(MaxPathSegments, Z.of_nat (length (split p))); (MaxPathBytes, utf8_length p)] →
     (n <= filesystemHardLimits f)%Z ∧ ∀ c, c ∈ all → within c f n).
Proof using Hok.
  unfold satisfiesEffectivePathLimits.
  assert ((∀ f n, (f, n) ∈ [(MaxPathSegments, Z.of_nat (length (split p))); (MaxPathBytes, utf8_length p)] →
     (n <= filesystemHardLimits f)%Z ∧ ∀ c, c ∈ all → within c f n) ↔
    (Z.of_nat (length (split p)) <= number_value (ef_max e MaxPathSegments))%Z ∧
    (utf8_length p <= number_value (ef_max e MaxPathBytes))%Z) as ->.
  { rewrite !effective_max. split.
    - intros H. split; apply H; set_solver.
    - intros [H1 H2] f n [[= -> ->]|[[= -> ->]|?%not_elem_of_nil]%elem_of_cons]%elem_of_cons; done. }
  destruct (normalizeRelativePath p _ allowRoot) as [q|err] eqn:Hn.
  - apply normalizeRelativePath_iff in Hn as [-> Hn]. rewrite bool_decide_eq_true. simpl in Hn. tauto.
  - split; [done|]. intros H. assert (normalizeRelativePath p
      (path_limits (λ f, number_value (ef_max e f))) allowRoot = Ok p) as Hok'.
    { apply normalizeRelativePath_iff. split; [done|]. simpl. tauto. }
    congruence.
Qed.

Lemma classify_inside p :
  classifyAllowedPath p (ef_allowedPathPrefixes e) = inside_allowed ↔ ∀ c, c ∈ all → allows c p.
Proof.
  rewrite <- combined_allows. unfold classifyAllowedPath, effective_of, ef_allowedPathPrefixes.
  destruct (combinedAllowed _ _ _) as [l|]; [|by split].
  assert (existsb (pathMatchesPrefix p) l = true ↔ covered l p) as Hc.
  { rewrite existsb_spec. unfold covered. by setoid_rewrite matches_below. }
  destruct (existsb (pathMatchesPrefix p) l).
  - split; [|done]. intros _ k [= <-]. by apply Hc.
  - split; [by case_match|]. intros H. by apply Hc in H; [|done].
Qed.

Lemma classify_denied p :
  classifyAllowedPath p (ef_allowedPathPrefixes e) ≠ path_denied ↔
  ∃ q, (p = "" ∨ below q p) ∧ ∀ c, c ∈ all → allows c q.
Proof.
  setoid_rewrite <- combined_allows. unfold classifyAllowedPath, effective_of, ef_allowedPathPrefixes.
  destruct (combinedAllowed _ _ _) as [l|].
  2: { split; [|done]. intros _. exists p. split; [right; apply below_refl|done]. }
  assert (∀ q, (∀ k, Some l = Some k → covered k q) ↔ covered l q) as Hl.
  { intros q. split; [intros H; by apply H|by intros H k [= <-]]. }
  setoid_rewrite Hl. clear Hl.
  destruct (existsb (pathMatchesPrefix p) l) eqn:Hin.
  { apply existsb_spec in Hin as (x & Hx & Hpx%matches_below). split; [|done]. intros _.
    exists p. split; [right; apply below_refl|by exists x]. }
  destruct (existsb (pathCanContainPrefix p) l) eqn:Hanc.
  - split; [|done]. intros _. apply existsb_spec in Hanc as (x & Hx & Hc). exists x. split.
    + apply orb_true_iff in Hc as [->%bool_decide_eq_true|Hc]; [by left|right]. by apply matches_below.
    + exists x. split; [done|apply below_refl].
  - split; [done|]. intros (q & Hq & x & Hx & Hqx). exfalso. rewrite existsb_false in Hin, Hanc.
    specialize (Hin x Hx). specialize (Hanc x Hx). unfold pathCanContainPrefix in Hanc.
    apply orb_false_iff in Hanc as [Hne%bool_decide_eq_false Hanc].
    destruct Hq as [|Hqp]; [done|]. destruct (below_total q x p Hqx Hqp) as [H|H];
      apply matches_below in H; congruence.
Qed.

Lemma path_reasons_nil operation p :
  path_reasons operation e p = [] ↔ path_permitted all (directory_operation operation) p.
Proof using Hok.
  unfold path_reasons. set (dir := directory_operation operation).
  destruct (satisfiesEffectivePathLimits p _ dir) eqn:Hlim; simpl.
  2: { split; [done|]. intros [H _ _]. apply limits_permit in H. congruence. }
  rewrite app_nil, !reason_if_nil, orb_false_iff, bool_decide_eq_false, classify_denied.
  rewrite <- (not_true_iff_false (existsb _ _)), effective_denies. split.
  - intros [[Hd Hi] Hn]. split; [by apply limits_permit| |naive_solver].
    destruct dir; [done|]. simpl in Hi. apply negb_false_iff, bool_decide_eq_true in Hi.
    by apply classify_inside.
  - intros [_ Ha Hn]. split; [|naive_solver]. destruct dir; simpl; [done|].
    split; [|by apply negb_false_iff, bool_decide_eq_true, classify_inside].
    exists p. split; [right; apply below_refl|done].
Qed.

(** ** The request *)

Lemma empty_prefixes :
  empty_list (ef_allowedPathPrefixes e) = false ↔ ∃ q, ∀ c, c ∈ all → allows c q.
Proof.
  setoid_rewrite <- combined_allows. cbn [ef_allowedPathPrefixes effective_of].
  destruct (combinedAllowed _ _ _) as [[|x l]|]; simpl.
  - split; [done|]. intros [q Hq]. destruct (Hq [] eq_refl) as (y & Hy & _).
    by apply not_elem_of_nil in Hy.
  - split; [|done]. intros _. exists x. intros k [= <-]. exists x.
    split; [by left|apply below_refl].
  - split; [|done]. intros _. by exists "".
Qed.

Lemma empty_extensions :
  empty_list (ef_allowedExtensions e) = false ↔ ∃ x, ∀ c, c ∈ all → allows_extension c x.
Proof.
  setoid_rewrite <- combined_extensions. cbn [ef_allowedExtensions effective_of].
  destruct (combinedAllowed _ _ _) as [[|x l]|]; simpl.
  - split; [done|]. intros [q Hq]. specialize (Hq [] eq_refl). by apply not_elem_of_nil in Hq.
  - split; [|done]. intros _. exists x. intros k [= <-]. by left.
  - split; [|done]. intros _. by exists "".
Qed.

Lemma extension_refused operation paths :
  (match ef_allowedExtensions e with
   | None => false
   | Some l => negb (directory_operation operation) &&
               existsb (λ path, negb (includes (fileExtension path) l)) paths
   end) = false ↔
  (directory_operation operation = false →
   ∀ p c, p ∈ paths → c ∈ all → allows_extension c (fileExtension p)).
Proof.
  assert ((directory_operation operation = false →
     ∀ p c, p ∈ paths → c ∈ all → allows_extension c (fileExtension p)) ↔
    (directory_operation operation = false → ∀ p, p ∈ paths →
     ∀ l, ef_allowedExtensions e = Some l → fileExtension p ∈ l)) as ->.
  { cbn [ef_allowedExtensions effective_of]. split.
    - intros H Hd p Hp. apply combined_extensions. intros c. by apply H.
    - intros H Hd p c Hp Hc. revert c Hc. apply combined_extensions, H; done. }
  destruct (ef_allowedExtensions e) as [l|]; [|done].
  rewrite andb_false_iff, negb_false_iff, existsb_false. split.
  - intros [Hd|H] Hd' p Hp k [= <-]; [congruence|].
    by apply (includes_spec (fileExtension p)), negb_false_iff, H.
  - intros H. destruct (directory_operation operation); [by left|right].
    intros p Hp. by apply negb_false_iff, includes_spec, (H eq_refl p Hp).
Qed.

Lemma request_reasons_nil operation arguments :
  request_reasons operation arguments e = [] ↔
  request_permitted operation (operationPaths operation arguments) resource grants.
Proof using Hok.
  unfold request_reasons. set (paths := operationPaths operation arguments).
  rewrite !app_nil, !reason_if_nil, empty_prefixes, empty_extensions, extension_refused.
  assert (mjoin (path_reasons operation e <$> paths) = [] ↔
    ∀ p, p ∈ paths → path_permitted all (directory_operation operation) p) as ->.
  { setoid_rewrite <- path_reasons_nil. clear. induction paths as [|p l IH].
    - split; [|done]. by intros _ p ?%not_elem_of_nil.
    - change (mjoin (path_reasons operation e <$> p :: l)) with
        (path_reasons operation e p ++ mjoin (path_reasons operation e <$> l)).
      rewrite app_nil, IH, <- !Forall_forall, Forall_cons. done. }
  assert ((length paths =? 0) && negb (directory_operation operation) = false ↔
    directory_operation operation = true ∨ paths ≠ []) as ->.
  { rewrite andb_false_iff, negb_false_iff, Nat.eqb_neq, length_zero_iff_nil. tauto. }
  assert (starts_with operation "filesystem." &&
    negb (includes operation ["filesystem.list"; "filesystem.read"; "filesystem.search"]) &&
    negb (ef_allowMutation e) = false ↔
    (starts_with operation "filesystem." = true → ¬ reading operation →
     ef_allowMutation e = true)) as ->.
  { rewrite !andb_false_iff, !negb_false_iff, includes_spec.
    assert (reading operation ↔ operation ∈ ["filesystem.list"; "filesystem.read"; "filesystem.search"]) as <-.
    { unfold reading. set_solver. }
    destruct (starts_with operation "filesystem."), (ef_allowMutation e);
      destruct (decide (reading operation)); naive_solver. }
  rewrite effective_mutation. split; [intros (?&?&?&?&?&?); by split|intros []; tauto].
Qed.

End effective.

(** ** The handler *)

Definition parsed (values : list record) (configuration : record)
    (resource : FilesystemConstraints) (grants : list FilesystemConstraints) : Prop :=
  parse configuration = Ok resource ∧ map_result parse values = Ok grants.

Lemma parsed_ok values configuration resource grants :
  parsed values configuration resource grants → Forall constraints_ok (resource :: grants).
Proof.
  intros [Hr Hg%map_result_Ok]. constructor; [by eapply parse_Ok|].
  apply Forall_forall. intros c Hc. apply list_elem_of_lookup in Hc as [i Hi].
  destruct (Forall2_lookup_r _ _ _ _ _ Hg Hi) as (v & _ & Hv). by eapply parse_Ok.
Qed.

(** The object the effective constraints are written as. *)
Definition effective_object (resource : FilesystemConstraints) (grants : list FilesystemConstraints)
    : record :=
  own_order (sort_by compare_key
    (members (with_positive_zeros (as_constraints (effective_of resource grants))))).

Lemma combine_parsed operation arguments values configuration resource grants :
  parsed values configuration resource grants →
  combine operation arguments values configuration =
    Ok {| cr_ok := length (request_reasons operation arguments (effective_of resource grants)) =? 0;
          cr_effectiveConstraints := effective_object resource grants;
          cr_reasons := request_reasons operation arguments (effective_of resource grants) |}.
Proof.
  intros Hp. pose proof (ok_numbers _ (effective_ok _ _ (parsed_ok _ _ _ _ Hp))) as Hn.
  destruct Hp as [Hr Hg]. unfold combine. rewrite Hr. cbn -[members canonical_record effective_of].
  rewrite Hg. cbn -[members canonical_record effective_of]. by rewrite (members_normal _ Hn).
Qed.

Lemma combine_cases operation arguments values configuration :
  (∃ resource grants, parsed values configuration resource grants) ∨
  (∃ err, combine operation arguments values configuration = Throw err) ∧
  ∀ resource grants, ¬ parsed values configuration resource grants.
Proof.
  unfold parsed, combine. destruct (parse configuration) as [c|err] eqn:Hc.
  - destruct (map_result parse values) as [gs|err] eqn:Hg; [by left; eauto|].
    right. split; [by eexists|]. by intros resource grants [_ ?].
  - right. split; [by eexists|]. by intros resource grants [? _].
Qed.

Lemma handler_ok_spec operation arguments values configuration r :
  filesystem_combineAndValidate operation arguments values configuration = Ok r →
  cr_ok r = true ↔
  ∃ resource grants, parsed values configuration resource grants ∧
    request_permitted operation (operationPaths operation arguments) resource grants.
Proof.
  unfold filesystem_combineAndValidate.
  destruct (combine_cases operation arguments values configuration)
    as [(resource & grants & Hp)|[[err ->] Hno]].
  - rewrite (combine_parsed _ _ _ _ _ _ Hp). intros [= <-]. cbn [cr_ok].
    rewrite Nat.eqb_eq, length_zero_iff_nil, request_reasons_nil by by eapply parsed_ok.
    split; [by eauto|]. intros (resource' & grants' & [Hr' Hg'] & Hperm).
    destruct Hp as [Hr Hg]. rewrite Hr in Hr'. rewrite Hg in Hg'. by simplify_eq.
  - intros [= <-]. cbn [cr_ok]. split; [done|]. intros (resource & grants & Hp & _).
    by destruct (Hno resource grants).
Qed.

Lemma parsed_perm values values' configuration resource grants :
  values ≡ₚ values' → parsed values configuration resource grants →
  ∃ grants', parsed values' configuration resource grants' ∧ grants ≡ₚ grants'.
Proof.
  intros Hp [Hr Hg%map_result_Ok]. destruct (Permutation_Forall2 Hp Hg) as (grants' & ? & ?).
  exists grants'. split; [|done]. split; [done|by apply map_result_Ok].
Qed.

Lemma path_permitted_perm all all' dir p :
  all ≡ₚ all' → path_permitted all dir p → path_permitted all' dir p.
Proof.
  intros Hp [Hl Ha Hn]. split; [|destruct dir|]; by setoid_rewrite <- Hp.
Qed.

Lemma request_permitted_perm operation paths resource grants grants' :
  grants ≡ₚ grants' → request_permitted operation paths resource grants →
  request_permitted operation paths resource grants'.
Proof.
  intros Hp [H1 H2 H3 H4 H5 H6].
  assert (resource :: grants ≡ₚ resource :: grants') as Hall by by rewrite Hp.
  split; [by setoid_rewrite <- Hall..|done| |by setoid_rewrite <- Hall|by setoid_rewrite <- Hp].
  intros p ?. apply (path_permitted_perm _ _ _ _ Hall). by apply H4.
Qed.

Lemma effective_perm resource grants grants' :
  Forall constraints_ok (resource :: grants) → grants ≡ₚ grants' →
  as_constraints (effective_of resource grants) ≡ as_constraints (effective_of resource grants').
Proof.
  intros Hok Hp. assert (resource :: grants ≡ₚ resource :: grants') as Hall by by rewrite Hp.
  split; cbn [as_constraints effective_of fs_allowedPathPrefixes fs_deniedPathPrefixes
    fs_allowedExtensions fs_max fs_allowMutation ef_allowedPathPrefixes ef_deniedPathPrefixes
    ef_allowedExtensions ef_max ef_allowMutation].
  - by apply combined_prefixes_perm.
  - f_equal. apply sorted_unique_ext. intros x. by rewrite Hall.
  - by apply combined_extensions_perm.
  - intros f. f_equal. apply foldl_min_perm; [by apply maxima_safe|]. constructor. by rewrite Hall.
  - do 2 f_equal. apply Bool.eq_iff_eq_true. rewrite !Forall_forallb. by rewrite Hp.
Qed.

Lemma with_positive_zeros_proper c d : c ≡ d → with_positive_zeros c ≡ with_positive_zeros d.
Proof. intros [Ha Hd He Hm Hb]. split; try done. intros f. simpl. by rewrite Hm. Qed.

(** What the engine relies on: an answer to every request, whatever the order
    of the grants. *)
#[export] Instance filesystem_handler_laws : ConstraintHandlerLaws filesystem_combineAndValidate.
Proof.
  split.
  - intros operation arguments cs configuration _. unfold filesystem_combineAndValidate.
    destruct (combine _ _ _ _); by eexists.
  - intros operation arguments cs cs' configuration r r' Hp Hr Hr'. split.
    + apply Bool.eq_iff_eq_true.
      rewrite (handler_ok_spec _ _ _ _ _ Hr), (handler_ok_spec _ _ _ _ _ Hr').
      split; intros (resource & grants & Hparse & Hperm).
      * destruct (parsed_perm _ _ _ _ _ Hp Hparse) as (grants' & Hparse' & Hg).
        exists resource, grants'. split; [done|]. by apply (request_permitted_perm _ _ _ grants).
      * destruct (parsed_perm _ _ _ _ _ (symmetry Hp) Hparse) as (grants' & Hparse' & Hg).
        exists resource, grants'. split; [done|]. by apply (request_permitted_perm _ _ _ grants).
    + intros Ht. pose proof (proj1 (handler_ok_spec _ _ _ _ _ Hr) Ht) as (resource & grants & Hpa & Hperm).
      destruct (parsed_perm _ _ _ _ _ Hp Hpa) as (grants' & Hpa' & Hg).
      pose proof (parsed_ok _ _ _ _ Hpa) as Hok. pose proof (parsed_ok _ _ _ _ Hpa') as Hok'.
      unfold filesystem_combineAndValidate in Hr, Hr'.
      rewrite (combine_parsed _ _ _ _ _ _ Hpa) in Hr. rewrite (combine_parsed _ _ _ _ _ _ Hpa') in Hr'.
      rewrite (proj2 (request_reasons_nil _ _ Hok _ _) Hperm) in Hr.
      rewrite (proj2 (request_reasons_nil _ _ Hok' _ _)) in Hr'
        by by apply (request_permitted_perm _ _ _ grants).
      injection Hr as <-. injection Hr' as <-. f_equal. unfold effective_object.
      by rewrite (with_positive_zeros_proper _ _ (effective_perm _ _ _ Hok Hg)).
Qed.

(** ** Normalized constraints *)

Lemma with_positive_zeros_ok c : constraints_ok c → constraints_ok (with_positive_zeros c).
Proof.
  intros [Ha Hd He Hn]. split; try done. intros f n. simpl. specialize (Hn f).
  destruct (fs_max c f) as [m|]; [|done]. intros [= <-]. specialize (Hn m eq_refl).
  by destruct m.
Qed.

Lemma with_positive_zeros_idemp c : with_positive_zeros (with_positive_zeros c) ≡ with_positive_zeros c.
Proof. split; try done. intros f. simpl. by destruct (fs_max c f) as [[]|]. Qed.

Lemma positive_zero_value n : number_value (positive_zero n) = number_value n.
Proof. by destruct n. Qed.

(** Constraints that permit and refuse the same. *)
Record same_meaning (c d : FilesystemConstraints) : Prop := {
  mean_allows p : allows c p ↔ allows d p;
  mean_extensions x : allows_extension c x ↔ allows_extension d x;
  mean_denies p : denies c p ↔ denies d p;
  mean_within f n : within c f n ↔ within d f n;
  mean_mutation : fs_allowMutation c = fs_allowMutation d
}.

Lemma same_meaning_zeros c d : d ≡ with_positive_zeros c → same_meaning d c.
Proof.
  intros [Ha Hd He Hm Hb]. simpl in *. split; unfold allows, allows_extension, denies, within.
  - by rewrite Ha.
  - by rewrite He.
  - by rewrite Hd.
  - intros f n. rewrite Hm. destruct (fs_max c f) as [m|]; simpl; [|done].
    pose proof (positive_zero_value m) as Hv. split; intros H k [= <-].
    + rewrite <- Hv. by apply H.
    + rewrite Hv. by apply H.
  - done.
Qed.

(** Written constraints are read back with their meaning. *)
Lemma read_back c :
  constraints_ok c →
  ∃ d, parse (own_order (sort_by compare_key (members (with_positive_zeros c)))) = Ok d ∧
    d ≡ with_positive_zeros c.
Proof. intros Hc. by apply parse_members, with_positive_zeros_ok. Qed.

Lemma normalize_constraints_Ok v w :
  normalizeFilesystemConstraints v = Ok w ↔
  ∃ c, parse v = Ok c ∧ w = own_order (sort_by compare_key (members (with_positive_zeros c))).
Proof.
  unfold normalizeFilesystemConstraints. rewrite bind_Ok. split.
  - intros (c & Hc & H). exists c. split; [done|].
    rewrite (members_normal _ (ok_numbers _ (parse_Ok _ _ Hc))) in H. congruence.
  - intros (c & Hc & ->). exists c. split; [done|].
    apply members_normal, ok_numbers. by eapply parse_Ok.
Qed.

(** Writing what was read from normal constraints changes nothing. *)
Lemma normalize_constraints_idempotent v w :
  normalizeFilesystemConstraints v = Ok w → normalizeFilesystemConstraints w = Ok w.
Proof.
  rewrite !normalize_constraints_Ok. intros (c & Hc & ->).
  destruct (read_back c (parse_Ok _ _ Hc)) as (d & Hd & Heq). exists d. split; [done|].
  do 2 f_equal. apply members_proper. symmetry.
  rewrite <- (with_positive_zeros_idemp c). by apply with_positive_zeros_proper.
Qed.

Lemma effective_readable e v d :
  parse v = Ok d → d ≡ with_positive_zeros (as_constraints e) →
  ∃ e', parseEffectiveFilesystemConstraints v = Ok e' ∧ as_constraints e' ≡ d.
Proof.
  intros Hv [Ha Hd He Hm Hb]. unfold parseEffectiveFilesystemConstraints. rewrite Hv.
  cbn [mbind result_bind].
  rewrite (map_result_total _ (λ _, tt) maximumFields).
  2: { intros f _. rewrite Hm. done. }
  simpl in Hd, Hb. simpl. rewrite Hd, Hb. eexists. split; [done|].
  split; simpl; try done. intros f. by rewrite Hm.
Qed.

Lemma effective_denies_spec resource grants p :
  denies (as_constraints (effective_of resource grants)) p ↔
  ∃ c, c ∈ resource :: grants ∧ denies c p.
Proof.
  rewrite <- effective_denies, existsb_spec. unfold denies. by setoid_rewrite matches_below.
Qed.

Lemma effective_within resource grants f n :
  Forall constraints_ok (resource :: grants) →
  within (as_constraints (effective_of resource grants)) f n ↔
  (n <= filesystemHardLimits f)%Z ∧ ∀ c, c ∈ resource :: grants → within c f n.
Proof.
  intros Hok. rewrite <- effective_max by done. unfold within at 1. simpl.
  split; [intros H; by apply H|by intros H m [= <-]].
Qed.

(** Constraints no looser than the resource's, any grant's or the connector's
    own, and no exactly_binding than all of them together. *)
Record exactly_binding (e : EffectiveFilesystemConstraints) (resource : FilesystemConstraints)
    (grants : list FilesystemConstraints) : Prop := {
  eb_allows p : allows (as_constraints e) p ↔ ∀ c, c ∈ resource :: grants → allows c p;
  eb_extensions x :
    allows_extension (as_constraints e) x ↔ ∀ c, c ∈ resource :: grants → allows_extension c x;
  eb_denies p : denies (as_constraints e) p ↔ ∃ c, c ∈ resource :: grants ∧ denies c p;
  eb_within f n : within (as_constraints e) f n ↔
    (n <= filesystemHardLimits f)%Z ∧ ∀ c, c ∈ resource :: grants → within c f n;
  eb_mutation : ef_allowMutation e = true ↔
    fs_allowMutation resource ≠ Some false ∧ ∀ c, c ∈ grants → fs_allowMutation c = Some true
}.

(** What the handler hands on is read back as constraints that mean what the
    resource and the grants mean together. *)
Lemma effective_binding operation arguments values configuration r resource grants :
  filesystem_combineAndValidate operation arguments values configuration = Ok r →
  parse configuration = Ok resource → map_result parse values = Ok grants →
  ∃ e, parseEffectiveFilesystemConstraints (cr_effectiveConstraints r) = Ok e ∧
    exactly_binding e resource grants.
Proof.
  intros Hr Hc Hg. assert (parsed values configuration resource grants) as Hp by done.
  pose proof (parsed_ok _ _ _ _ Hp) as Hok. unfold filesystem_combineAndValidate in Hr.
  rewrite (combine_parsed _ _ _ _ _ _ Hp) in Hr. injection Hr as <-. cbn [cr_effectiveConstraints].
  destruct (read_back _ (effective_ok _ _ Hok)) as (d & Hd & Heq).
  destruct (effective_readable _ _ _ Hd Heq) as (e & He & Hsame).
  exists e. split; [done|].
  destruct (same_meaning_zeros _ _ (Equivalence_Transitive _ _ _ Hsame Heq)) as [Ha Hx Hn Hw Hm].
  split.
  - intros p. rewrite Ha. apply combined_allows.
  - intros x. rewrite Hx. apply combined_extensions.
  - intros p. rewrite Hn. apply effective_denies_spec.
  - intros f n. rewrite Hw. by apply effective_within.
  - rewrite <- effective_mutation. simpl in Hm. injection Hm as ->. done.
Qed.

(** * Theorems *)

(** C27: a filesystem request is accepted exactly when the resource's configuration
    and the constraints of every grant parse and each of them permits it: the
    paths within everyone's prefixes, extensions and size limits, denied by
    none, and a mutation allowed by every grant and not excluded by the
    resource. *)
Theorem filesystem_permits_exactly operation arguments values configuration :
  ∃ r, filesystem_combineAndValidate operation arguments values configuration = Ok r ∧
    (cr_ok r = true ↔
     ∃ resource grants, parse configuration = Ok resource ∧
       Forall2 (λ v c, parse v = Ok c) values grants ∧
       request_permitted operation (operationPaths operation arguments) resource grants).
Proof.
  destruct (filesystem_combineAndValidate operation arguments values configuration) as [r|e] eqn:Hr.
  - exists r. split; [done|]. rewrite (handler_ok_spec _ _ _ _ _ Hr). unfold parsed.
    setoid_rewrite map_result_Ok. naive_solver.
  - unfold filesystem_combineAndValidate in Hr. by destruct (combine _ _ _ _).
Qed.

(** ** Samples and witnesses *)

Definition sample_configuration : record :=
  [("allowedPathPrefixes", CArr [CStr "src"; CStr "docs"])].

Definition sample_values : list record :=
  [[("allowedPathPrefixes", CArr [CStr "src/lib"; CStr "docs"]); ("maxFileBytes", CNum (NInt 2048));
    ("allowMutation", CBool true)];
   [("deniedPathPrefixes", CArr [CStr "src/lib/private"]); ("allowedExtensions", CArr [CStr ".TS"]);
    ("allowMutation", CBool true)]].

Definition sample_write (path : string) : js :=
  embed 0 (CObj [("content", CStr "x"); ("path", CStr path)]).

Definition sample_answer (path : string) : outcome ConnectorConstraintResult :=
  filesystem_combineAndValidate "filesystem.write" (sample_write path) sample_values sample_configuration.

Example sample_accepted : cr_reasons <$> sample_answer "src/lib/a.ts" = Ok [].
Proof. vm_compute. reflexivity. Qed.

Example sample_refused :
  cr_reasons <$> sample_answer "src/lib/private/a.md" =
    Ok ["filesystem path is denied"; "filesystem extension is not allowed"].
Proof. vm_compute. reflexivity. Qed.

End FilesystemPermission.
