(* ===== verification/UnifiedDiff.v ===== *)
(** The diff a simulated file mutation shows to the person who approves it.
    Models [packages/filesystem-connector/src/unified-diff.ts].  The calls are
    synchronous, so an abort signal does not change during one of them. *)
From S2P Require Import Prelude Errors Json Text FilesystemPath.
Import Text FilesystemPath.

Module UnifiedDiff.

Definition newline : Ascii.ascii := Eval cbv in Ascii.ascii_of_nat 10.
Definition carriage_return : Ascii.ascii := Eval cbv in Ascii.ascii_of_nat 13.

Definition minus_sign : Ascii.ascii := Eval cbv in Ascii.ascii_of_nat 45.
Definition plus_sign : Ascii.ascii := Eval cbv in Ascii.ascii_of_nat 43.

Abbreviation nl := (String newline "").

(** [value.replaceAll("\r\n", "\n")] *)
Fixpoint unix_lines (value : string) : string :=
  match value with
  | EmptyString => ""
  | String a rest =>
      match rest with
      | String b rest' =>
          if decide (a = carriage_return ∧ b = newline) then String newline (unix_lines rest')
          else String a (unix_lines rest)
      | EmptyString => String a ""
      end
  end.

Record SplitText := { lines : list string; finalNewline : bool }.

Definition splitText (value : string) : SplitText :=
  let normalized := unix_lines value in
  let finalNewline := ends_with normalized nl in
  let body := if finalNewline then String.substring 0 (String.length normalized - 1) normalized
              else normalized in
  {| lines := if String.length body =? 0 then [] else split_on newline body;
     finalNewline := finalNewline |}.

Definition range (count : nat) : string :=
  if count =? 1 then "1" else "1," +:+ show_Z (Z.of_nat count).

Definition throwIfAborted (aborted : bool) : outcome unit :=
  throw_if aborted FilesystemOperationAbortedError.

Record DiffInput := {
  oldPath : option string;
  newPath : option string;
  oldContent : string;
  newContent : string;
  maxBytes : Z;
  aborted : bool
}.

Definition no_newline_marker : string := "\ No newline at end of file".

(** One side's lines, as the loop over them leaves them. *)
Definition side (aborted : bool) (sign : Ascii.ascii) (t : SplitText) : outcome (list string) :=
  shown ← map_result (λ line, throwIfAborted aborted;; Ok (String sign line)) (lines t);
  Ok (shown ++ if negb (finalNewline t) && (0 <? length (lines t)) then [no_newline_marker] else []).

Definition header (input : DiffInput) (oldText newText : SplitText) : list string :=
  ["--- " +:+ match oldPath input with None => "/dev/null" | Some p => "a/" +:+ p end;
   "+++ " +:+ match newPath input with None => "/dev/null" | Some p => "b/" +:+ p end;
   "@@ -" +:+ range (length (lines oldText)) +:+ " +" +:+ range (length (lines newText)) +:+ " @@"].

Definition createUnifiedDiff (input : DiffInput) : outcome string :=
  throwIfAborted (aborted input);;
  if bool_decide (oldPath input = newPath input) && bool_decide (oldContent input = newContent input)
  then Ok ""
  else
    let oldText := splitText (oldContent input) in
    let newText := splitText (newContent input) in
    removed ← side (aborted input) minus_sign oldText;
    added ← side (aborted input) plus_sign newText;
    let diff := join nl (header input oldText newText ++ removed ++ added) +:+ nl in
    throw_if (maxBytes input <? utf8_length diff)%Z FilesystemDiffTooLargeError;;
    Ok diff.

Definition combineUnifiedDiffs (diffs : list string) (maxBytes : Z) (aborted : bool)
    : outcome string :=
  throwIfAborted aborted;;
  let combined := join "" (filter (λ diff, diff ≠ "") diffs) in
  throw_if (maxBytes <? utf8_length combined)%Z FilesystemDiffTooLargeError;;
  Ok combined.

(** * Reading a diff *)

(** The lines under a sign, without it, and what follows them. *)
Fixpoint take_lines (sign : Ascii.ascii) (l : list string) : list string * list string :=
  match l with
  | String c s :: rest =>
      if decide (c = sign) then let r := take_lines sign rest in (s :: r.1, r.2) else ([], l)
  | _ => ([], l)
  end.

Definition take_marker (l : list string) : bool * list string :=
  match l with
  | m :: rest => if decide (m = no_newline_marker) then (true, rest) else (false, l)
  | [] => (false, [])
  end.

(** The content that some lines and their marker stand for. *)
Definition content_of (l : list string) (marked : bool) : string :=
  match l with [] => "" | _ => join nl l +:+ if marked then "" else nl end.

(** The two contents a reader of a diff sees. *)
Definition read_diff (diff : string) : string * string :=
  let body := drop 3 (split_on newline diff) in
  let old := take_lines minus_sign body in
  let old_marker := take_marker old.2 in
  let new := take_lines plus_sign old_marker.2 in
  let new_marker := take_marker new.2 in
  (content_of old.1 old_marker.1, content_of new.1 new_marker.1).

(** What a diff shows of a content: its lines, whatever their ends; a content
    that is one empty line is shown as an empty file. *)
Definition shown (value : string) : string :=
  if decide (unix_lines value = nl) then "" else unix_lines value.

(** * Lemmas *)

Lemma ends_with_char s c :
  ends_with s (String c "") = true → s = String.substring 0 (String.length s - 1) s +:+ String c "".
Proof.
  unfold ends_with. intros [Hl H%bool_decide_eq_true]%andb_prop.
  induction s as [|a s IH]; [done|]. destruct s as [|b s]; [simpl in *; by f_equal|].
  change (String.length (String a (String b s)) - 1) with (S (String.length s)).
  change (String a (String b s) =
    String a (String.substring 0 (String.length s) (String b s) +:+ String c "")).
  f_equal. simpl in IH. rewrite Nat.sub_0_r in IH. apply IH; [done|]. exact H.
Qed.

Lemma split_lines l :
  l ≠ [] → Forall (λ x, free_of newline x = true) l →
  split_on newline (join nl l +:+ nl) = l ++ [""].
Proof.
  intros Hne Hl. destruct l as [|x l]; [done|].
  replace (join nl (x :: l) +:+ nl) with (join nl ((x :: l) ++ [""])).
  - apply split_on_join; [done|]. apply Forall_app. split; [done|by repeat constructor].
  - by rewrite (join_app_sep nl (x :: l) [""]) by done.
Qed.

Lemma free_app c a b : free_of c (a +:+ b) = free_of c a && free_of c b.
Proof. apply Canonical.string_all_app. Qed.

Lemma free_cons c a s : free_of c (String a s) = negb (bool_decide (a = c)) && free_of c s.
Proof. done. Qed.

Lemma printed_free z : free_of newline (show_Z z) = true.
Proof.
  destruct (Canonical.show_Z_printed z) as [H _]. eapply Canonical.string_all_mono; [|exact H].
  intros c Hc. apply negb_true_iff, bool_decide_eq_false. intros ->. by vm_compute in Hc.
Qed.

Lemma range_free n : free_of newline (range n) = true.
Proof. unfold range. case_match; [done|]. rewrite free_app, printed_free. done. Qed.

Lemma safe_path_free p : safe_path p = true → free_of newline p = true.
Proof.
  intros [Hu _]%andb_prop. apply negb_true_iff in Hu. unfold unsafe_text in Hu.
  apply orb_false_iff in Hu as [[_ Hu]%orb_false_iff _]. unfold string_some in Hu.
  apply negb_false_iff in Hu. eapply Canonical.string_all_mono; [|exact Hu].
  intros c Hc. apply negb_true_iff, bool_decide_eq_false. intros ->. by vm_compute in Hc.
Qed.

(** ** Reading the lines of a side *)

Definition stops (sign : Ascii.ascii) (l : list string) : Prop :=
  match l with String c _ :: _ => c ≠ sign | _ => True end.

Lemma take_lines_all sign l rest :
  stops sign rest → take_lines sign ((String sign <$> l) ++ rest) = (l, rest).
Proof.
  intros Hs. induction l as [|s l IH].
  - simpl. destruct rest as [|[|c s] rest]; simpl in *; [done..|]. by rewrite decide_False.
  - simpl. rewrite decide_True by done. change (list_fmap _ _ (String sign) l) with (String sign <$> l) || idtac.
    rewrite IH. done.
Qed.

Definition marker_if (b : bool) : list string := if b then [no_newline_marker] else [].

Lemma take_marker_if b rest :
  (∀ m l, rest = m :: l → m ≠ no_newline_marker) → take_marker (marker_if b ++ rest) = (b, rest).
Proof.
  intros Hr. destruct b; unfold marker_if; cbn [app take_marker].
  - by rewrite decide_True.
  - destruct rest as [|m l]; [done|]. cbn [take_marker]. rewrite decide_False; [done|]. by apply (Hr m l).
Qed.

Definition marked (t : SplitText) : bool := negb (finalNewline t) && (0 <? length (lines t)).

Lemma side_Ok a sign t l :
  side a sign t = Ok l → l = (String sign <$> lines t) ++ marker_if (marked t).
Proof.
  unfold side. intros (k & Hk & [= <-])%bind_Ok. f_equal.
  apply map_result_Ok in Hk. induction Hk as [|s s' l l' Hs _ IH]; [done|].
  apply throw_if_bind_Ok in Hs as [_ [= <-]]. rewrite fmap_cons. by f_equal.
Qed.

Lemma app_empty s : s +:+ "" = s.
Proof. induction s as [|c s IH]; [done|].
  change (String c (s +:+ "") = String c s). by rewrite IH.
Qed.

Lemma splitText_content value :
  content_of (lines (splitText value)) (marked (splitText value)) = shown value.
Proof.
  unfold splitText, shown, marked. cbn [lines finalNewline].
  destruct (ends_with (unix_lines value) nl) eqn:He.
  - apply ends_with_char in He. set (body := String.substring _ _ _) in *.
    destruct body as [|c b] eqn:Hb; rewrite He.
    + rewrite (decide_True (P := "" +:+ nl = nl)) by reflexivity. reflexivity.
    + rewrite decide_False by by destruct b. cbn [String.length Nat.eqb negb andb].
      pose proof (join_split_on newline (String c b)) as Hj. pose proof (split_nonempty newline (String c b)).
      destruct (split_on newline (String c b)) as [|x l]; [done|]. unfold content_of. by rewrite Hj.
  - rewrite decide_False by (intros Heq; rewrite Heq in He; by vm_compute in He).
    destruct (unix_lines value) as [|c b]; [done|]. cbn [String.length Nat.eqb negb andb].
    pose proof (join_split_on newline (String c b)) as Hj. pose proof (split_nonempty newline (String c b)).
    destruct (split_on newline (String c b)) as [|x l]; [done|]. unfold content_of.
    rewrite Hj. apply app_empty.
Qed.

Lemma splitText_free value : Forall (λ x, free_of newline x = true) (lines (splitText value)).
Proof.
  unfold splitText. cbn [lines]. case_match; [constructor|]. apply split_on_segments.
Qed.

Lemma side_free sign t :
  sign ≠ newline → Forall (λ x, free_of newline x = true) (lines t) →
  Forall (λ x, free_of newline x = true) ((String sign <$> lines t) ++ marker_if (marked t)).
Proof.
  intros Hs Ht. apply Forall_app. split.
  - apply Forall_fmap. eapply Forall_impl; [exact Ht|]. intros s Hf. simpl.
    rewrite free_cons, Hf. by rewrite bool_decide_eq_false_2.
  - by destruct (marked t); simpl; repeat constructor.
Qed.

Lemma header_free input t u :
  (∀ p, oldPath input = Some p ∨ newPath input = Some p → safe_path p = true) →
  Forall (λ x, free_of newline x = true) (header input t u).
Proof.
  intros Hp. unfold header. repeat constructor.
  - destruct (oldPath input) as [p|] eqn:E; [|done]. rewrite !free_app, (safe_path_free p) by (apply Hp; auto). done.
  - destruct (newPath input) as [p|] eqn:E; [|done]. rewrite !free_app, (safe_path_free p) by (apply Hp; auto). done.
  - by rewrite !free_app, !range_free.
Qed.

(** Reading the lines of both sides gives them back. *)
Lemma read_sides t u :
  take_lines minus_sign (((String minus_sign <$> lines t) ++ marker_if (marked t)) ++
    ((String plus_sign <$> lines u) ++ marker_if (marked u)) ++ [""]) =
  (lines t, marker_if (marked t) ++ (String plus_sign <$> lines u) ++ marker_if (marked u) ++ [""]) ∧
  take_marker (marker_if (marked t) ++ (String plus_sign <$> lines u) ++ marker_if (marked u) ++ [""]) =
  (marked t, (String plus_sign <$> lines u) ++ marker_if (marked u) ++ [""]) ∧
  take_lines plus_sign ((String plus_sign <$> lines u) ++ marker_if (marked u) ++ [""]) =
  (lines u, marker_if (marked u) ++ [""]) ∧
  take_marker (marker_if (marked u) ++ [""]) = (marked u, [""]).
Proof.
  assert (∀ v, lines v = [] → marked v = false) as Hm.
  { intros v Hv. unfold marked. rewrite Hv. apply andb_false_r. }
  rewrite <- !app_assoc. split_and!.
  - apply take_lines_all. destruct (marked t); [done|]. simpl.
    destruct (lines u) eqn:Hu; [|done]. simpl. by rewrite (Hm u Hu).
  - apply take_marker_if. intros m l. destruct (lines u) as [|x k] eqn:Hu; simpl.
    + rewrite (Hm u Hu). by intros [= <- _].
    + by intros [= <- _].
  - apply take_lines_all. by destruct (marked u).
  - apply take_marker_if. by intros m l [= <- _].
Qed.

Lemma Ok_text (a b : string) : Ok (E := error) a = Ok b → a = b.
Proof. by intros [= ->]. Qed.

(** The diff of a change shows both contents in full, up to how their lines
    end, and is empty only when nothing changes; it never exceeds its limit. *)
Theorem diff_shows_contents input d :
  (∀ p, oldPath input = Some p ∨ newPath input = Some p → safe_path p = true) →
  createUnifiedDiff input = Ok d →
  (d = "" ∧ oldPath input = newPath input ∧ oldContent input = newContent input) ∨
  (read_diff d = (shown (oldContent input), shown (newContent input)) ∧
   (utf8_length d <= maxBytes input)%Z).
Proof.
  intros Hp. unfold createUnifiedDiff, throwIfAborted at 1. rewrite throw_if_bind_Ok. intros [_ H].
  destruct (bool_decide (oldPath input = newPath input) && _) eqn:Hsame.
  { apply andb_prop in Hsame as [?%bool_decide_eq_true ?%bool_decide_eq_true].
    injection H as <-. by left. }
  right. set (t := splitText (oldContent input)) in *. set (u := splitText (newContent input)) in *.
  apply bind_Ok in H as (r & ->%side_Ok & H). apply bind_Ok in H as (a & ->%side_Ok & H).
  apply throw_if_bind_Ok in H as [Hlen%Z.ltb_ge Hd]. apply Ok_text in Hd as <-.
  split; [|exact Hlen].
  unfold read_diff. rewrite split_lines; [|done|].
  2: { apply Forall_app. split; [by apply header_free|]. apply Forall_app.
       split; (apply side_free; [done|apply splitText_free]). }
  change (drop 3 ((header input t u ++ ?x) ++ ?y)) with (x ++ y).
  destruct (read_sides t u) as (H1 & H2 & H3 & H4).
  rewrite <- app_assoc. rewrite H1. cbn [fst snd]. rewrite H2. cbn [fst snd].
  rewrite H3. cbn [fst snd]. rewrite H4. cbn [fst snd].
  unfold t, u. by rewrite !splitText_content.
Qed.

(** ** Samples and witnesses *)

Definition sample_change (old new : string) : DiffInput :=
  {| oldPath := Some "docs/a.md"; newPath := Some "docs/a.md"; oldContent := old;
     newContent := new; maxBytes := 1024; aborted := false |}.

Definition two_lines : string := "one" +:+ nl +:+ "two" +:+ nl.

Lemma diff_shows_contents_witness :
  ∃ d, createUnifiedDiff (sample_change two_lines "one") = Ok d ∧ d ≠ "" ∧
    read_diff d = (two_lines, "one").
Proof.
  destruct (createUnifiedDiff (sample_change two_lines "one")) as [d|e] eqn:Hd;
    [|vm_compute in Hd; discriminate Hd].
  exists d. split; [reflexivity|].
  destruct (diff_shows_contents (sample_change two_lines "one") d) as [(_ & _ & H)|[H _]].
  - intros p [H|H]; injection H as <-; vm_compute; reflexivity.
  - exact Hd.
  - discriminate H.
  - split; [intros ->; discriminate H|]. rewrite H. vm_compute. reflexivity.
Defined.

(** A file whose only line is empty is shown as an empty one: replacing the one
    by the other gives a diff without a changed line. *)
Lemma lone_newline_not_shown :
  createUnifiedDiff (sample_change "" nl) =
    Ok (join nl ["--- a/docs/a.md"; "+++ b/docs/a.md"; "@@ -1,0 +1,0 @@"] +:+ nl).
Proof. vm_compute. reflexivity. Qed.

(** So is a change of the line ends alone: each line is shown replaced by itself. *)
Lemma line_ends_not_shown :
  createUnifiedDiff (sample_change ("one" +:+ String carriage_return nl) ("one" +:+ nl)) =
    Ok (join nl ["--- a/docs/a.md"; "+++ b/docs/a.md"; "@@ -1 +1 @@"; "-one"; "+one"] +:+ nl).
Proof. vm_compute. reflexivity. Qed.

End UnifiedDiff.
