(* ===== verification/FilesystemConnector.v ===== *)
(** The filesystem connector as the registry sees it: its descriptor, how a
    resource is prepared and an action is invoked, the plan of a mutation and
    the registry it is part of.  Models [packages/filesystem-connector/src/]
    [filesystem-descriptor.ts], [filesystem-connector.ts],
    [source-preconditions.ts], [atomic-mutation-plan.ts] and
    [default-connector-registry.ts].

    The host's platform, its file system and its hash are parameters, and so is
    what the sandbox does with an operation it is given. *)
From S2P Require Import Prelude Errors Json ActionModel PolicyModel ConnectorModel Text Members FilesystemPath FilesystemPolicy FilesystemLaws FilesystemPermission.
Import Canonical Policy Connector Text Members FilesystemPath FilesystemPolicy FilesystemLaws FilesystemPermission.

Module FilesystemConnector.

(** * Descriptor *)

Definition filesystem_operation (name : string) (mode : OperationMode) (risk : RiskLevel)
    : ConnectorOperationDescriptor :=
  {| od_operation := "filesystem." +:+ name; od_mode := mode; od_riskLevel := risk;
     od_supportsSimulation := bool_decide (mode = op_mutation); od_supportsExecution := true;
     od_requiresApproval := bool_decide (mode = op_mutation) |}.

Definition filesystemConnectorDescriptor : ConnectorDescriptor :=
  {| cd_id := "filesystem"; cd_version := "2"; cd_supportedResourceTypes := [filesystem_scope];
     cd_operations :=
       [filesystem_operation "list" op_read risk_low;
        filesystem_operation "read" op_read risk_low;
        filesystem_operation "search" op_read risk_low] ++
       ((λ operation, filesystem_operation operation op_mutation risk_medium)
          <$> ["create"; "write"; "move"]) ++
       [filesystem_operation "delete" op_mutation risk_high] |}.

(** * Preconditions and plans *)

Definition absentPrecondition (path : string) : ConnectorFilePrecondition :=
  {| fp_kind := kind_absent; fp_path := path; fp_sha256 := None; fp_size := None |}.

Definition filePreconditionFromMetadata (path sha256 : string) (size : number)
    : ConnectorFilePrecondition :=
  {| fp_kind := kind_file; fp_path := path; fp_sha256 := Some sha256; fp_size := Some size |}.

(** [bytes] is a text of one code unit per byte. *)
Definition filePrecondition (sha256Bytes : string → string) (path bytes : string)
    : ConnectorFilePrecondition :=
  filePreconditionFromMetadata path (sha256Bytes bytes) (NInt (Z.of_nat (String.length bytes))).

Inductive mutation_operation := create | write | move | delete_file.
Inductive strategy :=
| exclusive_sibling_temp_then_rename | same_filesystem_rename | tombstone_then_unlink.

#[global] Instance mutation_operation_eq_dec : EqDecision mutation_operation.
Proof. solve_decision. Defined.

Record MutationInput := {
  mu_operation : mutation_operation;
  mu_sourcePath : option string;
  mu_destinationPath : option string;
  mu_content : option string;
  mu_preconditions : list ConnectorFilePrecondition
}.

Record AtomicMutationPlan := { pl_input : MutationInput; pl_strategy : strategy }.

Definition planAtomicMutation (input : MutationInput) : AtomicMutationPlan :=
  {| pl_input := input;
     pl_strategy :=
       if bool_decide (mu_operation input = move) then same_filesystem_rename
       else if bool_decide (mu_operation input = delete_file) then tombstone_then_unlink
       else exclusive_sibling_temp_then_rename |}.

(** * The connector *)

Record FileStats := { st_symbolicLink : bool; st_directory : bool; st_dev : Z; st_ino : Z }.

(** The host a connector runs on.  [lstatSync n k path] is the answer to the
    [k]-th such call the [n]-th preparation makes; the sandbox answers the
    [n]-th invocation on a root under constraints. *)
Class FilesystemHost := {
  platform : string;
  lstatSync : nat → nat → string → outcome FileStats;
  realpathSync : nat → string → outcome string;
  sandbox_invoke : nat → string → EffectiveFilesystemConstraints → string → record →
    outcome ConnectorInvocationResult;
  sandbox_executeMutation : nat → string → EffectiveFilesystemConstraints → string → record →
    list ActionSimulation.FilePrecondition → outcome ConnectorMutationExecutionResult
}.

Section connector.
  Context `{host : FilesystemHost}.

Definition assertFilesystemPlatform : outcome unit :=
  throw_if (negb (bool_decide (platform = "darwin")) && negb (bool_decide (platform = "linux")))
    UnsupportedFilesystemPlatformError.

Definition prepareResource (n : nat) (input : ConnectorResourceRegistrationInput)
    : outcome PreparedConnectorResource :=
  assertFilesystemPlatform;;
  throw_if (negb (bool_decide (ri_type input = filesystem_scope)))
    (UnsupportedConnectorResourceTypeError "filesystem" (resource_type_name (ri_type input)));;
  match ri_externalRef input with
  | None => Throw (CapabilityValidationError "Filesystem resource root must be an absolute path")
  | Some externalRef =>
      throw_if (negb (isAbsolute externalRef))
        (CapabilityValidationError "Filesystem resource root must be an absolute path");;
      stats ← match lstatSync n 0 externalRef with
              | Ok stats => Ok stats
              | Throw _ => Throw FilesystemEntryNotFoundError
              end;
      throw_if (st_symbolicLink stats) FilesystemSymlinkDeniedError;;
      throw_if (negb (st_directory stats)) FilesystemNotDirectoryError;;
      canonicalRoot ← realpathSync n externalRef;
      canonicalStats ← lstatSync n 1 canonicalRoot;
      throw_if (st_symbolicLink canonicalStats) FilesystemSymlinkDeniedError;;
      throw_if (negb (st_directory canonicalStats)) FilesystemNotDirectoryError;;
      throw_if (negb (st_dev canonicalStats =? st_dev stats)%Z ||
                negb (st_ino canonicalStats =? st_ino stats)%Z) FilesystemSymlinkDeniedError;;
      throw_if (isBuiltInSensitiveFilesystemPath canonicalRoot) SensitiveFilesystemPathError;;
      configuration ← normalizeFilesystemConstraints (ri_configuration input);
      Ok {| pr_externalRef := Some canonicalRoot; pr_configuration := configuration |}
  end.

(** The checks that [invoke] and [executeMutation] share; the root and the
    constraints they give the sandbox. *)
Definition open_sandbox (input : ConnectorInvocation)
    : outcome (string * EffectiveFilesystemConstraints) :=
  assertFilesystemPlatform;;
  let resource := inv_resource input in
  throw_if (negb (bool_decide (sc_provider resource = "filesystem")))
    (UnsupportedConnectorError (sc_provider resource));;
  throw_if (negb (bool_decide (sc_type resource = filesystem_scope)))
    (UnsupportedConnectorResourceTypeError "filesystem" (resource_type_name (sc_type resource)));;
  match sc_externalRef resource with
  | None => Throw (CapabilityValidationError "Filesystem resource has no canonical root")
  | Some root =>
      constraints ← parseEffectiveFilesystemConstraints (inv_effectiveConstraints input);
      Ok (root, constraints)
  end.

Definition invoke (n : nat) (input : ConnectorInvocation) : outcome ConnectorInvocationResult :=
  opened ← open_sandbox input;
  sandbox_invoke n opened.1 opened.2 (inv_operation input) (inv_arguments input).

Definition executeMutation (n : nat) (input : ConnectorMutationInvocation)
    : outcome ConnectorMutationExecutionResult :=
  opened ← open_sandbox (mi_invocation input);
  sandbox_executeMutation n opened.1 opened.2 (inv_operation (mi_invocation input))
    (inv_arguments (mi_invocation input)) (mi_preconditions input).

Definition filesystemConnectorDefinition : ConnectorDefinition :=
  {| cn_descriptor := filesystemConnectorDescriptor;
     cn_constraintHandler := FilesystemConstraintHandler;
     cn_normalizeArguments := normalizeFilesystemArguments;
     cn_normalizeConstraints := normalizeFilesystemConstraints;
     cn_prepareResource := prepareResource;
     cn_invoke := Some invoke;
     cn_executeMutation := Some executeMutation |}.

Definition createDefaultConnectorRegistry `{show : ShowNumber} : outcome ConnectorRegistry :=
  create_registry [fakeConnectorDefinition; filesystemConnectorDefinition].

End connector.

(** * Lemmas *)

Section connector_lemmas.
  Context `{host : FilesystemHost} `{show : ShowNumber}.

(** The registry keeps both definitions, with their operations in order. *)
Lemma default_registry :
  ∃ fake filesystem, createDefaultConnectorRegistry = Ok {| definitions := [fake; filesystem] |} ∧
    connector_id fake = "fake" ∧ connector_id filesystem = "filesystem" ∧
    cn_constraintHandler fake = FakeConnectorConstraintHandler ∧
    cn_constraintHandler filesystem = FilesystemConstraintHandler ∧
    cn_normalizeArguments filesystem = normalizeFilesystemArguments ∧
    cn_normalizeConstraints filesystem = normalizeFilesystemConstraints ∧
    cn_prepareResource filesystem = prepareResource ∧
    cn_invoke filesystem = Some invoke ∧ cn_executeMutation filesystem = Some executeMutation.
Proof. do 2 eexists. split; [reflexivity|]. by split_and!. Qed.

Lemma default_policy r provider definition :
  createDefaultConnectorRegistry = Ok r → getPolicyDefinition r provider = Some definition →
  (provider = "fake" ∧ df_constraintHandler definition = FakeConnectorConstraintHandler) ∨
  (provider = "filesystem" ∧ df_constraintHandler definition = FilesystemConstraintHandler).
Proof.
  destruct default_registry as (fake & fs & -> & Hf & Hs & Hfh & Hsh & _). intros [= <-].
  unfold getPolicyDefinition, getDefinition. simpl. rewrite Hf, Hs.
  case_bool_decide as H1; [intros [= <-]; by left|].
  case_bool_decide as H2; [intros [= <-]; by right|]. done.
Qed.

(** Every handler of the default registry keeps the engine's interface. *)
Lemma default_registry_lawful r :
  createDefaultConnectorRegistry = Ok r → lawful (getPolicyDefinition r).
Proof.
  intros Hr provider definition Hd.
  destruct (default_policy _ _ _ Hr Hd) as [[_ ->]|[_ ->]]; apply _.
Qed.

Lemma evaluate_granted registry input t d :
  evaluate registry input t = Ok d → pd_decision d ≠ deny →
  ∃ definition descriptor result, evaluable registry input t definition descriptor ∧
    matching_grants input (od_riskLevel descriptor) t ≠ [] ∧
    combined input t definition descriptor = Ok result ∧ cr_ok result = true ∧
    pd_effectiveConstraints d = cr_effectiveConstraints result.
Proof.
  intros He Hd. destruct (evaluate_cases registry input t)
    as [(definition & o & Hev & Heq)|(_ & reason & risk & Hno)].
  - rewrite Heq in He. destruct (length _ =? 0) eqn:Hne; [by injection He as <-|].
    apply bind_Ok in He as (result & Hc & [= <-]). exists definition, o, result.
    apply Nat.eqb_neq in Hne. rewrite length_zero_iff_nil in Hne.
    revert Hd. unfold granted. by destruct (cr_ok result).
  - specialize (Hno (pi_grants input)). rewrite with_own_grants, He in Hno. by injection Hno as ->.
Qed.

Lemma open_sandbox_Ok input root e :
  open_sandbox input = Ok (root, e) →
  sc_provider (inv_resource input) = "filesystem" ∧ sc_type (inv_resource input) = filesystem_scope ∧
  sc_externalRef (inv_resource input) = Some root ∧
  parseEffectiveFilesystemConstraints (inv_effectiveConstraints input) = Ok e.
Proof.
  unfold open_sandbox, assertFilesystemPlatform. rewrite !throw_if_bind_Ok.
  intros (_ & Hp%negb_false_iff%bool_decide_eq_true & Ht%negb_false_iff%bool_decide_eq_true & H).
  destruct (sc_externalRef _) as [r|]; [|done].
  apply bind_Ok in H as (e' & He & [= <- <-]). done.
Qed.

Lemma policy_operation r provider definition operation o :
  getPolicyDefinition r provider = Some definition →
  find_operation (cd_operations (df_descriptor definition)) operation = Some o →
  requireOperation r provider operation = Ok o.
Proof.
  unfold getPolicyDefinition, requireOperation, requireDefinition.
  destruct (getDefinition r provider) as [c|]; [|done]. intros [= <-]. simpl. by intros ->.
Qed.

Lemma no_grants (gs : list CapabilityGrant) :
  map_result parse (gr_constraints <$> gs) = Ok [] → gs = [].
Proof. destruct gs as [|g gs]; [done|]. by intros H%map_result_Ok%Forall2_nil_inv_r. Qed.

(** * Theorems *)

(** C26: what the sandbox is given for an action the policy allows on a registered
    file system: an operation the resource and every matching grant permit,
    and constraints that mean what they mean together, so nothing the sandbox
    lets through under them is outside what any of them allows. *)
Theorem filesystem_grants_reach_sandbox r input t d n inv :
  createDefaultConnectorRegistry = Ok r →
  evaluate (getPolicyDefinition r) input t = Ok d → pd_decision d ≠ deny →
  res_provider (pi_resource input) = "filesystem" →
  inv_effectiveConstraints inv = pd_effectiveConstraints d →
  is_ok (open_sandbox inv) = true →
  ∃ o resource grants root e,
    requireOperation r "filesystem" (pi_operation input) = Ok o ∧
    parse (res_configuration (pi_resource input)) = Ok resource ∧
    map_result parse (gr_constraints <$> matching_grants input (od_riskLevel o) t) = Ok grants ∧
    grants ≠ [] ∧
    request_permitted (pi_operation input) (operationPaths (pi_operation input) (pi_arguments input))
      resource grants ∧
    exactly_binding e resource grants ∧
    sc_externalRef (inv_resource inv) = Some root ∧
    invoke n inv = sandbox_invoke n root e (inv_operation inv) (inv_arguments inv) ∧
    ∀ ps, executeMutation n {| mi_invocation := inv; mi_preconditions := ps |} =
      sandbox_executeMutation n root e (inv_operation inv) (inv_arguments inv) ps.
Proof.
  intros Hr He Hd Hprov Hinv Hopen.
  destruct (evaluate_granted _ _ _ _ He Hd) as (definition & o & result & Hev & Hne & Hc & Hok & Heq).
  pose proof (ev_connector _ _ _ _ _ Hev) as Hdef. rewrite Hprov in Hdef.
  destruct (default_policy _ _ _ Hr Hdef) as [[? _]|[_ Hh]]; [done|].
  unfold combined in Hc. rewrite Hh in Hc. cbn [ch_combineAndValidate FilesystemConstraintHandler] in Hc.
  pose proof (proj1 (handler_ok_spec _ _ _ _ _ Hc) Hok) as (resource & grants & [Hp Hg] & Hperm).
  destruct (effective_binding _ _ _ _ _ _ _ Hc Hp Hg) as (e & Hparse & Hbind).
  apply is_ok_spec in Hopen as ([root e'] & Hopen).
  destruct (open_sandbox_Ok _ _ _ Hopen) as (_ & _ & Hroot & He').
  rewrite Hinv, Heq, Hparse in He'. injection He' as <-.
  exists o, resource, grants, root, e.
  split; [exact (policy_operation _ _ _ _ _ Hdef (ev_operation _ _ _ _ _ Hev))|].
  split; [exact Hp|]. split; [exact Hg|].
  split; [intros ->; exact (Hne (no_grants _ Hg))|].
  split; [exact Hperm|]. split; [exact Hbind|]. split; [exact Hroot|]. split.
  - unfold invoke. by rewrite Hopen.
  - intros ps. unfold executeMutation. cbn [mi_invocation mi_preconditions]. by rewrite Hopen.
Qed.

(** A resource that is registered has a canonical root: the place the host says
    the given path leads to, a directory and no link, the same the given path
    names, and not a sensitive one; and its configuration is in normal form. *)
Theorem registered_root_is_canonical n input prepared :
  prepareResource n input = Ok prepared →
  ∃ given stats root, ri_externalRef input = Some given ∧ isAbsolute given = true ∧
    pr_externalRef prepared = Some root ∧ realpathSync n given = Ok root ∧
    lstatSync n 0 given = Ok stats ∧ st_directory stats = true ∧ st_symbolicLink stats = false ∧
    (∃ canonicalStats, lstatSync n 1 root = Ok canonicalStats ∧
       st_directory canonicalStats = true ∧ st_symbolicLink canonicalStats = false ∧
       st_dev canonicalStats = st_dev stats ∧ st_ino canonicalStats = st_ino stats) ∧
    isBuiltInSensitiveFilesystemPath root = false ∧
    normalizeFilesystemConstraints (pr_configuration prepared) = Ok (pr_configuration prepared).
Proof.
  unfold prepareResource, assertFilesystemPlatform. rewrite !throw_if_bind_Ok. intros (_ & _ & H).
  destruct (ri_externalRef input) as [given|]; [|done].
  apply throw_if_bind_Ok in H as [Habs%negb_false_iff H].
  apply bind_Ok in H as (stats & Hstats & H). rewrite !throw_if_bind_Ok in H.
  destruct H as (Hlink & Hdir%negb_false_iff & H).
  destruct (lstatSync n 0 given) as [stats'|] eqn:Hl; [|done]. injection Hstats as ->.
  apply bind_Ok in H as (root & Hroot & H). apply bind_Ok in H as (cs & Hcs & H).
  rewrite !throw_if_bind_Ok in H.
  destruct H as (Hlink' & Hdir'%negb_false_iff & Hsame & Hsens & H).
  apply orb_false_iff in Hsame as [Hdev%negb_false_iff%Z.eqb_eq Hino%negb_false_iff%Z.eqb_eq].
  apply bind_Ok in H as (configuration & Hconf & [= <-]).
  exists given, stats, root. split_and!; try done.
  - by exists cs.
  - by apply (normalize_constraints_idempotent _ _ Hconf).
Qed.

End connector_lemmas.

(** ** Samples and witnesses *)

Definition sample_directory : FileStats :=
  {| st_symbolicLink := false; st_directory := true; st_dev := 1; st_ino := 42 |}.

(** A host on which [/srv/link] leads to [/srv/project]. *)
Definition sample_host : FilesystemHost :=
  {| platform := "linux";
     lstatSync := λ _ _ _, Ok sample_directory;
     realpathSync := λ _ _, Ok "/srv/project";
     sandbox_invoke := λ _ root _ operation _,
       Ok (simulation_result (operation +:+ " in " +:+ root) []);
     sandbox_executeMutation := λ _ _ _ _ _ _, Throw FilesystemEntryNotFoundError |}.

Lemma registered_root_is_canonical_witness :
  ∃ prepared, prepareResource (host := sample_host) 0
    {| ri_type := filesystem_scope; ri_externalRef := Some "/srv/dir/../project";
       ri_configuration := sample_configuration |} = Ok prepared ∧
    pr_externalRef prepared = Some "/srv/project" ∧
    isBuiltInSensitiveFilesystemPath "/srv/project" = false.
Proof.
  destruct (prepareResource (host := sample_host) 0
    {| ri_type := filesystem_scope; ri_externalRef := Some "/srv/dir/../project";
       ri_configuration := sample_configuration |}) as [prepared|e] eqn:Hp;
    [|vm_compute in Hp; discriminate Hp].
  exists prepared. split; [reflexivity|].
  destruct (registered_root_is_canonical (host := sample_host) _ _ _ Hp)
    as (given & stats & root & _ & _ & Hr & Hroot & _ & _ & _ & _ & Hs & _).
  injection Hroot as <-. split; [exact Hr|exact Hs].
Defined.

Definition fs_resource : Resource :=
  {| res_id := "r1"; res_projectId := "p1"; res_type := filesystem_scope;
     res_provider := "filesystem"; res_externalRef := Some "/srv/project"; res_displayName := "R";
     res_configuration := sample_configuration; res_credentialRef := None; res_status := active;
     res_createdAt := Some 1%Z; res_updatedAt := Some 1%Z |}.

Definition fs_grant (id : string) (constraints : record) : CapabilityGrant :=
  {| gr_id := id; gr_projectId := "p1"; gr_principalType := principal_agent;
     gr_principalId := "a1"; gr_resourceId := "r1"; gr_actions := ["filesystem.write"];
     gr_constraints := constraints; gr_validFrom := Some 1%Z; gr_expiresAt := None;
     gr_revokedAt := None; gr_grantedBy := "owner"; gr_reason := "r"; gr_createdAt := Some 1%Z |}.

Definition fs_input : PolicyInput :=
  {| pi_projectId := "p1"; pi_agentId := "a1"; pi_roleIds := []; pi_resource := fs_resource;
     pi_operation := "filesystem.write"; pi_arguments := sample_write "src/lib/a.ts";
     pi_grants := fs_grant "g1" <$> sample_values |}.

Definition fs_invocation (constraints : record) : ConnectorInvocation :=
  {| inv_resource := {| sc_id := "r1"; sc_type := filesystem_scope; sc_provider := "filesystem";
                        sc_externalRef := Some "/srv/project"; sc_configuration := sample_configuration |};
     inv_operation := "filesystem.write";
     inv_arguments := [("content", CStr "x"); ("path", CStr "src/lib/a.ts")];
     inv_effectiveConstraints := constraints |}.

Abbreviation fs_registry :=
  (createDefaultConnectorRegistry (host := sample_host) (show := decimal_number)).

Definition fs_decision (r : ConnectorRegistry) : outcome PolicyDecision :=
  evaluate (H := decimal_number) (getPolicyDefinition r) fs_input (Some 7%Z).

Lemma filesystem_grants_reach_sandbox_witness :
  ∃ r d e, fs_registry = Ok r ∧ fs_decision r = Ok d ∧ pd_decision d = allow_with_approval ∧
    invoke (host := sample_host) 0 (fs_invocation (pd_effectiveConstraints d)) =
      sandbox_invoke (FilesystemHost := sample_host) 0 "/srv/project" e "filesystem.write"
        [("content", CStr "x"); ("path", CStr "src/lib/a.ts")] ∧
    ef_allowMutation e = true.
Proof.
  assert (match fs_registry with
          | Ok r => match fs_decision r with
                    | Ok d => bool_decide (pd_decision d = allow_with_approval) &&
                        is_ok (open_sandbox (host := sample_host) (fs_invocation (pd_effectiveConstraints d)))
                    | Throw _ => false end
          | Throw _ => false end = true) as H by (vm_compute; reflexivity).
  destruct fs_registry as [r|err] eqn:Hr; [|discriminate H].
  destruct (fs_decision r) as [d|err] eqn:Hd; [|discriminate H].
  apply andb_prop in H as [Hallow%bool_decide_eq_true Hopen].
  destruct (filesystem_grants_reach_sandbox (host := sample_host) (show := decimal_number)
    r fs_input (Some 7%Z) d 0 (fs_invocation (pd_effectiveConstraints d)) Hr Hd)
    as (o & resource & grants & root & e & _ & _ & _ & _ & Hperm & Hbind & Hroot & Hinv & _).
  - rewrite Hallow. discriminate.
  - reflexivity.
  - reflexivity.
  - exact Hopen.
  - injection Hroot as <-. exists r, d, e.
    split; [reflexivity|]. split; [exact Hd|]. split; [exact Hallow|]. split; [exact Hinv|].
    apply (eb_mutation _ _ _ Hbind), (rp_mutation _ _ _ _ Hperm).
    + vm_compute. reflexivity.
    + intros [H|[H|H]]; discriminate H.
Defined.

End FilesystemConnector.
