(* ===== verification/AgentModel.v ===== *)
(** Agents: roles, the provenance of an execution, the model assignment frozen
    for a run, and the agent run itself.  Models [role.ts],
    [agent-execution.ts], [agent-run-model.ts] and [agent-run.ts] of
    [packages/domain/src/agent/]. *)
From S2P Require Import Prelude Errors Json ActionModel.
Import Canonical.

(** * Execution provenance *)

Module Provenance.

Inductive execution_kind := simulation | controlled_action | worker.

#[global] Instance execution_kind_eq_dec : EqDecision execution_kind.
Proof. solve_decision. Defined.

Record AgentExecutionProvenance := {
  kind : execution_kind;
  adapterId : string;
  adapterVersion : string;
  inputHash : option string
}.

#[global] Instance AgentExecutionProvenance_eq_dec : EqDecision AgentExecutionProvenance.
Proof. solve_decision. Defined.

Definition kind_name (k : execution_kind) : string :=
  match k with
  | simulation => "simulation" | controlled_action => "controlled_action" | worker => "worker"
  end.

(** [["simulation", "controlled_action", "worker"].includes(kind)] *)
Definition kind_of_name (s : string) : option execution_kind :=
  List.find (λ k, bool_decide (kind_name k = s)) [simulation; controlled_action; worker].

Definition is_alnum_lower (c : Ascii.ascii) : bool := is_lower c || is_digit c.
Definition is_alnum (c : Ascii.ascii) : bool := is_lower c || is_upper c || is_digit c.

Definition valid_adapterId : string → bool :=
  matches_head_tail is_alnum_lower (λ c, is_alnum_lower c || one_of "._-" c) 127.
Definition valid_adapterVersion : string → bool :=
  matches_head_tail is_alnum (λ c, is_alnum c || one_of "._+-" c) 63.

Definition invalid_provenance : error := DomainValidationError "Invalid execution provenance".

(** [record.key] of a JSON object, and the fields a guard has typed. *)
Definition member (key : string) (record : list (string * cjson)) : option cjson :=
  ActionSimulation.get_member key record.
Definition string_member (key : string) (record : list (string * cjson)) : option string :=
  match member key record with Some (CStr s) => Some s | _ => None end.

Definition absent (v : option cjson) : bool := match v with None => true | Some _ => false end.

(** On a JSON value: the props of a stored run, or a literal of the code. *)
Definition parseAgentExecution (value : cjson) : outcome AgentExecutionProvenance :=
  match value with
  | CObj record =>
      match string_member "kind" record ≫= kind_of_name, string_member "adapterId" record,
            string_member "adapterVersion" record with
      | Some k, Some adapter, Some version =>
          let hash := string_member "inputHash" record in
          throw_if (negb (valid_adapterId adapter) || negb (valid_adapterVersion version) ||
              match member "inputHash" record with
              | None => false
              | Some (CStr h) => negb (is_sha256_hex h)
              | Some _ => true
              end ||
              bool_decide (k = worker) && absent (member "inputHash" record) ||
              existsb (λ key, negb (includes key
                ["kind"; "adapterId"; "adapterVersion"; "inputHash"])) record.*1)
            invalid_provenance;;
          Ok {| kind := k; adapterId := adapter; adapterVersion := version; inputHash := hash |}
      | _, _, _ => Throw invalid_provenance
      end
  | _ => Throw invalid_provenance
  end.

End Provenance.

(** * The model assignment of a run *)

Module RunModel.
Import Provenance.

Inductive ModelSelectionSource :=
| project_agent_override | agent_override | role_policy | default_source | legacy_default.

#[global] Instance ModelSelectionSource_eq_dec : EqDecision ModelSelectionSource.
Proof. solve_decision. Defined.

Definition modelSelectionSources : list ModelSelectionSource :=
  [project_agent_override; agent_override; role_policy; default_source; legacy_default].

Definition source_name (s : ModelSelectionSource) : string :=
  match s with
  | project_agent_override => "project_agent_override" | agent_override => "agent_override"
  | role_policy => "role_policy" | default_source => "default" | legacy_default => "legacy_default"
  end.

Record AgentRunModelSelection := {
  policy : string;
  profile : option string;
  modelRef : string;
  providerId : string;
  model : string;
  reasoningEffort : option string;
  maxOutputTokens : option number;
  source : ModelSelectionSource
}.

Inductive AgentRunModelRouting := unrouted | resolved (selection : AgentRunModelSelection).

Definition modelTokenPattern : string → bool :=
  matches_head_tail is_alnum (λ c, is_alnum c || one_of "._-" c) 63.
Definition providerIdPattern : string → bool :=
  matches_head_tail is_lower (λ c, is_alnum_lower c || one_of "_-" c) 31.
Definition providerModelPattern : string → bool :=
  matches_head_tail is_alnum (λ c, is_alnum c || one_of "._:/@+-" c) 127.
Definition reasoningEffortPattern : string → bool :=
  matches_head_tail is_lower (λ c, is_alnum_lower c || one_of "_-" c) 31.
Definition maximumOutputTokens : Z := 10000000.

Definition selectionKeys : list string :=
  ["policy"; "profile"; "modelRef"; "providerId"; "model"; "reasoningEffort"; "maxOutputTokens";
   "source"].

Definition invalid : error := DomainValidationError "Invalid agent run model routing".

Definition record (value : cjson) : outcome (list (string * cjson)) :=
  match value with CObj members => Ok members | _ => Throw invalid end.

Definition exactKeys (value : list (string * cjson)) (keys : list string) : outcome unit :=
  throw_if (negb (length value =? length keys) ||
            existsb (λ key, negb (includes key keys)) value.*1) invalid.

(** [\p{Cc}] *)
Definition is_control (c : Ascii.ascii) : bool :=
  let n := Ascii.nat_of_ascii c in (n <? 32) || ((127 <=? n) && (n <=? 159)).

Definition validPolicy (value : string) : bool :=
  bool_decide (trim value = value) && (0 <? String.length value) &&
  (String.length value <=? 200) && string_all (λ c, negb (is_control c)) value.

(** A field that is [null] or passes [p]; [None] is a refusal. *)
Definition nullable_string (p : string → bool) (v : option cjson) : option (option string) :=
  match v with
  | Some CNull => Some None
  | Some (CStr s) => if p s then Some (Some s) else None
  | _ => None
  end.

Definition nullable_tokens (v : option cjson) : option (option number) :=
  match v with
  | Some CNull => Some None
  | Some (CNum n) =>
      if is_safe_integer n && negb (num_lt n 1) && negb (num_gt n maximumOutputTokens)
      then Some (Some n) else None
  | _ => None
  end.

Definition source_of (v : option string) : option ModelSelectionSource :=
  v ≫= λ s, List.find (λ k, bool_decide (source_name k = s)) modelSelectionSources.

Definition string_where (p : string → bool) (v : option string) : option string :=
  match v with Some s => if p s then Some s else None | None => None end.

(** The last two conditions of [parseSelection]: which sources name a profile. *)
Definition profile_agrees (profile : option string) (s : ModelSelectionSource) : bool :=
  match profile with
  | None => includes s [project_agent_override; agent_override; legacy_default]
  | Some _ => negb (bool_decide (s = legacy_default))
  end.

Definition parseSelection (value : cjson) : outcome AgentRunModelSelection :=
  selection ← record value;
  exactKeys selection selectionKeys;;
  match string_where validPolicy (string_member "policy" selection),
        nullable_string modelTokenPattern (member "profile" selection),
        string_where providerIdPattern (string_member "providerId" selection),
        string_where providerModelPattern (string_member "model" selection),
        nullable_string reasoningEffortPattern (member "reasoningEffort" selection),
        nullable_tokens (member "maxOutputTokens" selection),
        source_of (string_member "source" selection) with
  | Some policy, Some profile, Some providerId, Some model, Some effort, Some tokens, Some src =>
      let ref := providerId +:+ ":" +:+ model in
      throw_if (negb (bool_decide (string_member "modelRef" selection = Some ref)) ||
                negb (profile_agrees profile src)) invalid;;
      Ok {| policy := policy; profile := profile; modelRef := ref; providerId := providerId;
            model := model; reasoningEffort := effort; maxOutputTokens := tokens;
            source := src |}
  | _, _, _, _, _, _, _ => Throw invalid
  end.

Definition parseAgentRunModelRouting (value : cjson) : outcome AgentRunModelRouting :=
  routing ← record value;
  match string_member "status" routing with
  | Some s =>
      if bool_decide (s = "unrouted") then exactKeys routing ["status"];; Ok unrouted
      else if bool_decide (s = "resolved") then
        exactKeys routing ["status"; "selection"];;
        match member "selection" routing with
        | Some v => selection ← parseSelection v; Ok (resolved selection)
        | None => Throw invalid
        end
      else Throw invalid
  | None => Throw invalid
  end.

(** ** The stored form *)

Definition nullable (v : option string) : cjson := match v with None => CNull | Some s => CStr s end.

Definition selection_json (s : AgentRunModelSelection) : cjson :=
  CObj [("policy", CStr (policy s)); ("profile", nullable (profile s));
        ("modelRef", CStr (modelRef s)); ("providerId", CStr (providerId s));
        ("model", CStr (model s)); ("reasoningEffort", nullable (reasoningEffort s));
        ("maxOutputTokens", match maxOutputTokens s with None => CNull | Some n => CNum n end);
        ("source", CStr (source_name (source s)))].

Definition routing_json (r : AgentRunModelRouting) : cjson :=
  match r with
  | unrouted => CObj [("status", CStr "unrouted")]
  | resolved s => CObj [("status", CStr "resolved"); ("selection", selection_json s)]
  end.

(** What a parsed selection satisfies. *)
Record selection_ok (s : AgentRunModelSelection) : Prop := {
  so_policy : validPolicy (policy s) = true;
  so_profile : ∀ p, profile s = Some p → modelTokenPattern p = true;
  so_provider : providerIdPattern (providerId s) = true;
  so_model : providerModelPattern (model s) = true;
  so_ref : modelRef s = providerId s +:+ ":" +:+ model s;
  so_effort : ∀ e, reasoningEffort s = Some e → reasoningEffortPattern e = true;
  so_tokens : ∀ n, maxOutputTokens s = Some n → is_safe_integer n = true ∧
    num_lt n 1 = false ∧ num_gt n maximumOutputTokens = false;
  so_agrees : profile_agrees (profile s) (source s) = true
}.

Definition routing_ok (r : AgentRunModelRouting) : Prop :=
  match r with unrouted => True | resolved s => selection_ok s end.

(** ** Lemmas *)

Lemma source_of_name s : source_of (Some (source_name s)) = Some s.
Proof. by destruct s. Qed.

Lemma string_where_Some p v s : string_where p v = Some s ↔ v = Some s ∧ p s = true.
Proof.
  unfold string_where. destruct v as [x|]; [|naive_solver].
  destruct (p x) eqn:Hp; naive_solver congruence.
Qed.

Lemma nullable_string_Some p v s :
  nullable_string p v = Some (Some s) → p s = true.
Proof. destruct v as [[| | |x| |]|]; simpl; try done. destruct (p x) eqn:Hp; naive_solver. Qed.

Lemma parseSelection_ok v s : parseSelection v = Ok s → selection_ok s.
Proof.
  unfold parseSelection. rewrite bind_Ok. intros (members & _ & H).
  apply bind_Ok in H as (_ & _ & H).
  destruct (string_where validPolicy _) as [pol|] eqn:H1; [|done].
  destruct (nullable_string modelTokenPattern _) as [prof|] eqn:H2; [|done].
  destruct (string_where providerIdPattern _) as [prov|] eqn:H3; [|done].
  destruct (string_where providerModelPattern _) as [mod'|] eqn:H4; [|done].
  destruct (nullable_string reasoningEffortPattern _) as [eff|] eqn:H5; [|done].
  destruct (nullable_tokens _) as [tok|] eqn:H6; [|done].
  destruct (source_of _) as [src|] eqn:H7; [|done].
  apply throw_if_bind_Ok in H as [[_ Ha%negb_false_iff]%orb_false_iff [= <-]].
  apply string_where_Some in H1 as [_ H1], H3 as [_ H3], H4 as [_ H4].
  constructor; simpl; try done.
  - intros p ->. by apply nullable_string_Some in H2.
  - intros p ->. by apply nullable_string_Some in H5.
  - intros n ->. unfold nullable_tokens in H6.
    destruct (member "maxOutputTokens" members) as [[| |m| | |]|]; try done.
    destruct (is_safe_integer m && _ && _) eqn:Hm; [|done]. injection H6 as <-.
    rewrite !andb_true_iff, !negb_true_iff in Hm. by destruct Hm as [[? ?] ?].
Qed.

Lemma nullable_string_json p (v : option string) :
  (∀ s, v = Some s → p s = true) → nullable_string p (Some (nullable v)) = Some v.
Proof. intros H. destruct v as [s|]; [|done]. simpl. by rewrite H. Qed.

Lemma parseSelection_json s : selection_ok s → parseSelection (selection_json s) = Ok s.
Proof.
  intros [H1 H2 H3 H4 H5 H6 H7 H8]. unfold parseSelection.
  change (record (selection_json s)) with (Ok (E := error)
    match selection_json s with CObj m => m | _ => [] end).
  unfold selection_json. cbn [mbind result_bind].
  match goal with |- context [exactKeys ?m ?k] => change (exactKeys m k) with (Ok (E := error) tt) end.
  cbn [mbind result_bind].
  change (string_member "policy" _) with (Some (policy s)).
  change (string_member "providerId" _) with (Some (providerId s)).
  change (string_member "model" _) with (Some (model s)).
  change (string_member "modelRef" _) with (Some (modelRef s)).
  change (string_member "source" _) with (Some (source_name (source s))).
  change (member "profile" _) with (Some (nullable (profile s))).
  change (member "reasoningEffort" _) with (Some (nullable (reasoningEffort s))).
  change (member "maxOutputTokens" _) with
    (Some (match maxOutputTokens s with None => CNull | Some n => CNum n end)).
  unfold string_where. rewrite H1, H3, H4, source_of_name.
  rewrite !nullable_string_json by done.
  assert (nullable_tokens (Some (match maxOutputTokens s with None => CNull | Some n => CNum n end))
    = Some (maxOutputTokens s)) as ->.
  { destruct (maxOutputTokens s) as [n|]; [|done]. destruct (H7 n eq_refl) as (Ha & Hb & Hc).
    simpl. by rewrite Ha, Hb, Hc. }
  rewrite H5, bool_decide_eq_true_2 by done. rewrite H8. simpl. by destruct s; simpl in *; subst.
Qed.

Lemma nullable_string_same p v w :
  nullable_string p (Some (nullable v)) = Some w → w = v.
Proof. destruct v as [s|]; simpl; [|by intros [= <-]]. case_match; [by intros [= <-]|done]. Qed.

Lemma parseSelection_same s s' : parseSelection (selection_json s) = Ok s' → s' = s.
Proof.
  intros H. pose proof (parseSelection_ok _ _ H) as Hok. revert H. unfold parseSelection.
  change (record (selection_json s)) with (Ok (E := error)
    match selection_json s with CObj m => m | _ => [] end).
  unfold selection_json. cbn [mbind result_bind].
  match goal with |- context [exactKeys ?m ?k] => change (exactKeys m k) with (Ok (E := error) tt) end.
  cbn [mbind result_bind].
  change (string_member "policy" _) with (Some (policy s)).
  change (string_member "providerId" _) with (Some (providerId s)).
  change (string_member "model" _) with (Some (model s)).
  change (string_member "modelRef" _) with (Some (modelRef s)).
  change (string_member "source" _) with (Some (source_name (source s))).
  change (member "profile" _) with (Some (nullable (profile s))).
  change (member "reasoningEffort" _) with (Some (nullable (reasoningEffort s))).
  change (member "maxOutputTokens" _) with
    (Some (match maxOutputTokens s with None => CNull | Some n => CNum n end)).
  rewrite source_of_name.
  destruct (string_where validPolicy _) as [pol|] eqn:H1; [|done].
  destruct (nullable_string modelTokenPattern _) as [prof|] eqn:H2; [|done].
  destruct (string_where providerIdPattern _) as [prov|] eqn:H3; [|done].
  destruct (string_where providerModelPattern _) as [mod'|] eqn:H4; [|done].
  destruct (nullable_string reasoningEffortPattern _) as [eff|] eqn:H5; [|done].
  destruct (nullable_tokens _) as [tok|] eqn:H6; [|done].
  apply string_where_Some in H1 as [[= <-] _], H3 as [[= <-] _], H4 as [[= <-] _].
  apply nullable_string_same in H2 as ->, H5 as ->.
  assert (tok = maxOutputTokens s) as ->.
  { destruct (maxOutputTokens s); simpl in H6; [|by injection H6 as <-].
    case_match; [by injection H6 as <-|done]. }
  intros Hif. apply throw_if_bind_Ok in Hif as [[Href _]%orb_false_iff [= <-]].
  apply negb_false_iff, bool_decide_eq_true in Href. injection Href as Href.
  destruct s; simpl in *; congruence.
Qed.

Lemma parse_routing_same r r' : parseAgentRunModelRouting (routing_json r) = Ok r' → r' = r.
Proof.
  destruct r as [|s]; [by intros [= <-]|]. intros H.
  change ((s' ← parseSelection (selection_json s); Ok (E := error) (resolved s')) = Ok r') in H.
  apply bind_Ok in H as (s' & Hs & [= <-]). by rewrite (parseSelection_same _ _ Hs).
Qed.

Lemma parse_routing_json r : routing_ok r → parseAgentRunModelRouting (routing_json r) = Ok r.
Proof.
  destruct r as [|s]; [done|]. intros Hok.
  change (parseAgentRunModelRouting (routing_json (resolved s))) with
    (sel ← parseSelection (selection_json s); Ok (E := error) (resolved sel)).
  by rewrite (parseSelection_json s Hok).
Qed.

(** ** Properties *)

(** The frozen model assignment survives storage: whatever
    [parseAgentRunModelRouting] accepts is well-formed (valid provider, model,
    policy, profile and effort tokens, output tokens between 1 and
    10,000,000, a model reference that is exactly [provider:model], and a
    profile exactly where its source names one), and every well-formed
    assignment is parsed back from its stored form unchanged. *)
Theorem model_routing_roundtrip :
  (∀ v r, parseAgentRunModelRouting v = Ok r → routing_ok r) ∧
  (∀ r, routing_ok r → parseAgentRunModelRouting (routing_json r) = Ok r).
Proof.
  split.
  - intros v r. unfold parseAgentRunModelRouting. rewrite bind_Ok. intros (members & _ & H).
    destruct (string_member "status" members) as [s|]; [|done].
    case_bool_decide; [by inv_ok|]. case_bool_decide; [|done].
    apply bind_Ok in H as (_ & _ & H). destruct (member "selection" members) as [w|]; [|done].
    apply bind_Ok in H as (sel & Hs & [= <-]). by eapply parseSelection_ok.
  - apply parse_routing_json.
Qed.

End RunModel.

(** * Roles *)

Module Role.

Record RoleLimits := {
  maxIterations : number;
  maxCostMicros : Z;
  timeoutSeconds : number
}.

Record RoleProps := {
  id : string;
  projectId : string;
  key : string;
  name : string;
  version : number;
  capabilities : list string;
  tools : list string;
  modelPolicy : string;
  limits : RoleLimits;
  sourcePath : string;
  guidanceText : option string;
  guidanceVersion : option number;
  createdAt : date;
  updatedAt : date
}.

(** [!Number.isSafeInteger(n) || n < 1] *)
Definition not_positive (n : number) : bool := negb (is_safe_integer n) || num_lt n 1.

Definition maximumGuidanceBytes : Z := 65536.

(** [Role.create]; the times of [input] are not read. *)
Definition create (input : RoleProps) (now : date) : outcome RoleProps :=
  throw_if (bool_decide (trim (key input) = "") || bool_decide (trim (name input) = ""))
    (DomainValidationError "Role key and name cannot be empty");;
  throw_if (not_positive (version input))
    (DomainValidationError "Role version must be a positive integer");;
  throw_if (not_positive (maxIterations (limits input)))
    (DomainValidationError "Role max iterations must be a positive integer");;
  throw_if ((maxCostMicros (limits input) <? 0)%Z || not_positive (timeoutSeconds (limits input)))
    (DomainValidationError "Role limits must be non-negative");;
  throw_if (match guidanceText input with
            | Some t => (maximumGuidanceBytes <? utf8_length t)%Z
            | None => false
            end) (DomainValidationError "Role guidance is too large");;
  throw_if (match guidanceVersion input with Some v => not_positive v | None => false end)
    (DomainValidationError "Role guidance version is invalid");;
  Ok {| id := id input; projectId := projectId input; key := trim (key input);
        name := trim (name input); version := version input; capabilities := capabilities input;
        tools := tools input; modelPolicy := modelPolicy input; limits := limits input;
        sourcePath := sourcePath input; guidanceText := guidanceText input;
        guidanceVersion := guidanceVersion input; createdAt := now; updatedAt := now |}.

Definition restore (props : RoleProps) : RoleProps := props.
Definition snapshot (p : RoleProps) : RoleProps := p.

End Role.

(** * Agent runs *)

Module AgentRun.
Import Provenance RunModel.

Inductive AgentRunStatus :=
| queued | preparing | running | reviewing | completed | failed | cancelled.

#[global] Instance AgentRunStatus_eq_dec : EqDecision AgentRunStatus.
Proof. solve_decision. Defined.

Definition status_name (s : AgentRunStatus) : string :=
  match s with
  | queued => "queued" | preparing => "preparing" | running => "running"
  | reviewing => "reviewing" | completed => "completed" | failed => "failed"
  | cancelled => "cancelled"
  end.

Record AgentRunRoleGuidance := { guidance_version : number; guidance_text : string }.

Record AgentRunPersistenceToken := { token_status : AgentRunStatus; token_updatedAt : date }.

(** [AgentActionIntent], and with [J := js] its input. *)
Record AgentActionIntent {J : Type} := {
  intent_resourceId : string;
  intent_operation : string;
  intent_arguments : J
}.
Arguments AgentActionIntent : clear implicits.

(** [J] is the type of the stored action arguments. *)
Record AgentRunProps {J : Type} := {
  id : string;
  projectId : string;
  taskId : string;
  agentId : string;
  pipelineRunId : option string;
  pipelineStageRunId : option string;
  actionIntent : option (AgentActionIntent J);
  roleGuidance : option AgentRunRoleGuidance;
  execution : option AgentExecutionProvenance;
  modelRouting : option AgentRunModelRouting;
  status : AgentRunStatus;
  worktreePath : option string;
  result : option js;
  error : option js;
  createdAt : date;
  startedAt : option date;
  completedAt : option date;
  updatedAt : date;
  persistenceToken : option AgentRunPersistenceToken
}.
Arguments AgentRunProps : clear implicits.

Abbreviation Props := (AgentRunProps cjson).

Definition normalizeRoleGuidance (g : AgentRunRoleGuidance) : outcome AgentRunRoleGuidance :=
  throw_if (Role.not_positive (guidance_version g) ||
            bool_decide (trim (guidance_text g) = "") ||
            (Role.maximumGuidanceBytes <? utf8_length (guidance_text g))%Z)
    (DomainValidationError "Agent run role guidance is invalid");;
  Ok g.

Definition normalizeActionIntent (intent : AgentActionIntent js)
    : outcome (AgentActionIntent cjson) :=
  let resourceId := trim (intent_resourceId intent) in
  let operation := trim (intent_operation intent) in
  throw_if (bool_decide (resourceId = "") || bool_decide (operation = ""))
    (DomainValidationError "Agent action resource and operation cannot be empty");;
  arguments ← normalizeCanonicalJson (intent_arguments intent);
  throw_if (match arguments with CObj _ => false | _ => true end)
    (DomainValidationError "Agent action arguments must be an object");;
  assertNoSensitiveFields arguments "Agent action arguments";;
  Ok {| intent_resourceId := resourceId; intent_operation := operation;
        intent_arguments := arguments |}.

Definition transitions (s : AgentRunStatus) : list AgentRunStatus :=
  match s with
  | queued => [preparing; cancelled]
  | preparing => [running; failed; cancelled]
  | running => [reviewing; completed; failed; cancelled]
  | reviewing => [completed; failed; cancelled]
  | completed | failed | cancelled => []
  end.

(** [v === undefined ? {} : { field: f(v) }] *)
Definition optional_with {A B} (f : A → outcome B) (v : option A) : outcome (option B) :=
  match v with None => Ok None | Some x => y ← f x; Ok (Some y) end.

(** The stored provenance and routing as the JSON their parsers read. *)
Definition provenance_json (e : AgentExecutionProvenance) : cjson :=
  CObj ([("kind", CStr (kind_name (kind e))); ("adapterId", CStr (adapterId e));
         ("adapterVersion", CStr (adapterVersion e))] ++
        match inputHash e with None => [] | Some h => [("inputHash", CStr h)] end).

Definition with_normalized {J K} (p : AgentRunProps J) (intent : option (AgentActionIntent K))
    (guidance : option AgentRunRoleGuidance) (routing : option AgentRunModelRouting)
    (exec : option AgentExecutionProvenance) : AgentRunProps K :=
  {| id := id p; projectId := projectId p; taskId := taskId p; agentId := agentId p;
     pipelineRunId := pipelineRunId p; pipelineStageRunId := pipelineStageRunId p;
     actionIntent := intent; roleGuidance := guidance; execution := exec;
     modelRouting := routing; status := status p; worktreePath := worktreePath p;
     result := result p; error := error p; createdAt := createdAt p; startedAt := startedAt p;
     completedAt := completedAt p; updatedAt := updatedAt p;
     persistenceToken := persistenceToken p |}.

Record create_input := {
  in_id : string;
  in_projectId : string;
  in_taskId : string;
  in_agentId : string;
  in_pipelineRunId : option string;
  in_pipelineStageRunId : option string;
  in_actionIntent : option (AgentActionIntent js);
  in_roleGuidance : option AgentRunRoleGuidance;
  in_modelRouting : option AgentRunModelRouting;
  in_now : date
}.

Definition create (input : create_input) : outcome Props :=
  throw_if (existsb ActionRequest.blank
      [in_id input; in_projectId input; in_taskId input; in_agentId input])
    (DomainValidationError "Agent run identifiers cannot be empty");;
  intent ← optional_with normalizeActionIntent (in_actionIntent input);
  guidance ← optional_with normalizeRoleGuidance (in_roleGuidance input);
  routing ← optional_with (λ r, parseAgentRunModelRouting (routing_json r)) (in_modelRouting input);
  Ok {| id := in_id input; projectId := in_projectId input; taskId := in_taskId input;
        agentId := in_agentId input; pipelineRunId := in_pipelineRunId input;
        pipelineStageRunId := in_pipelineStageRunId input; actionIntent := intent;
        roleGuidance := guidance; execution := None; modelRouting := routing; status := queued;
        worktreePath := None; result := None; error := None; createdAt := in_now input;
        startedAt := None; completedAt := None; updatedAt := in_now input;
        persistenceToken := None |}.

Definition restore (props : AgentRunProps js) : outcome Props :=
  exec ← optional_with (λ e, parseAgentExecution (provenance_json e)) (execution props);
  intent ← optional_with normalizeActionIntent (actionIntent props);
  guidance ← optional_with normalizeRoleGuidance (roleGuidance props);
  routing ← optional_with (λ r, parseAgentRunModelRouting (routing_json r)) (modelRouting props);
  Ok (with_normalized props intent guidance routing exec).

(** [{ ...props, ...details, execution, status, startedAt, completedAt, updatedAt }] *)
Record transition_details := {
  det_worktreePath : option string;
  det_result : option js;
  det_error : option js;
  det_execution : option cjson
}.

Definition no_details : transition_details :=
  {| det_worktreePath := None; det_result := None; det_error := None; det_execution := None |}.

Definition or_keep {A} (v old : option A) : option A := match v with Some x => Some x | None => old end.

Definition is_terminal (s : AgentRunStatus) : bool := includes s [completed; failed; cancelled].

Definition transitioned (p : Props) (s : AgentRunStatus) (now : date) (d : transition_details)
    (exec : option AgentExecutionProvenance) : Props :=
  {| id := id p; projectId := projectId p; taskId := taskId p; agentId := agentId p;
     pipelineRunId := pipelineRunId p; pipelineStageRunId := pipelineStageRunId p;
     actionIntent := actionIntent p; roleGuidance := roleGuidance p; execution := exec;
     modelRouting := modelRouting p; status := s;
     worktreePath := or_keep (det_worktreePath d) (worktreePath p);
     result := or_keep (det_result d) (result p); error := or_keep (det_error d) (error p);
     createdAt := createdAt p;
     startedAt := if bool_decide (s = running) && bool_decide (startedAt p = None)
                  then Some now else startedAt p;
     completedAt := if is_terminal s then Some now else completedAt p;
     updatedAt := now; persistenceToken := persistenceToken p |}.

Definition transition (s : AgentRunStatus) (now : date) (d : transition_details)
    : method Props unit :=
  p ← get;
  refuse_if (negb (includes s (transitions (status p))))
    (DomainValidationError ("Cannot transition agent run from " +:+ status_name (status p)
       +:+ " to " +:+ status_name s));;
  exec ← lift (match det_execution d with
               | None => Ok (execution p)
               | Some v => e ← parseAgentExecution v; Ok (Some e)
               end);
  refuse_if (negb (bool_decide (execution p = None)) && negb (bool_decide (exec = execution p)))
    (DomainValidationError "Run execution provenance is immutable");;
  put (transitioned p s now d exec).

Definition markPersisted : method Props unit :=
  modify (λ p,
    {| id := id p; projectId := projectId p; taskId := taskId p; agentId := agentId p;
       pipelineRunId := pipelineRunId p; pipelineStageRunId := pipelineStageRunId p;
       actionIntent := actionIntent p; roleGuidance := roleGuidance p; execution := execution p;
       modelRouting := modelRouting p; status := status p; worktreePath := worktreePath p;
       result := result p; error := error p; createdAt := createdAt p; startedAt := startedAt p;
       completedAt := completedAt p; updatedAt := updatedAt p;
       persistenceToken := Some {| token_status := status p; token_updatedAt := updatedAt p |} |}).

Definition snapshot (p : Props) : Props := p.

Inductive call :=
| CTransition (s : AgentRunStatus) (d : transition_details)
| CMarkPersisted.

Definition run_call (c : call) (now : date) : method Props unit :=
  match c with CTransition s d => transition s now d | CMarkPersisted => markPersisted end.

Fixpoint run_calls (l : list (call * date)) : method Props unit :=
  match l with
  | [] => mret tt
  | (c, now) :: l' => run_call c now;; run_calls l'
  end.

Definition is_transition (c : call) : bool :=
  match c with CTransition _ _ => true | CMarkPersisted => false end.

(** The run as an ordinary JavaScript value, its arguments unfrozen. *)
Definition stored_intent (i : AgentActionIntent cjson) : AgentActionIntent js :=
  {| intent_resourceId := intent_resourceId i; intent_operation := intent_operation i;
     intent_arguments := embed 0 (intent_arguments i) |}.

Definition stored (p : Props) : AgentRunProps js :=
  with_normalized p (stored_intent <$> actionIntent p) (roleGuidance p) (modelRouting p)
    (execution p).

(** ** Invariants *)

(** A parsed provenance: a worker always names the input it worked on. *)
Definition provenance_ok (e : AgentExecutionProvenance) : Prop :=
  valid_adapterId (adapterId e) = true ∧ valid_adapterVersion (adapterVersion e) = true ∧
  (∀ h, inputHash e = Some h → is_sha256_hex h = true) ∧
  (kind e = worker → inputHash e ≠ None).

Definition intent_ok (i : AgentActionIntent cjson) : Prop :=
  canonical (intent_resourceId i) = true ∧ canonical (intent_operation i) = true ∧
  canonical_json (intent_arguments i) = true ∧
  has_key isSensitiveFieldKey (intent_arguments i) = false ∧
  ∃ members, intent_arguments i = CObj members.

Definition guidance_ok (g : AgentRunRoleGuidance) : Prop := normalizeRoleGuidance g = Ok g.

(** The run's timeline agrees with its status, and what it carries is valid. *)
Record well_formed (p : Props) : Prop := {
  wf_not_started : includes (status p) [queued; preparing] = true → startedAt p = None;
  wf_started : includes (status p) [running; reviewing; completed] = true → startedAt p ≠ None;
  wf_terminal : is_terminal (status p) = true ↔ completedAt p ≠ None;
  wf_execution : ∀ e, execution p = Some e → provenance_ok e;
  wf_intent : ∀ i, actionIntent p = Some i → intent_ok i;
  wf_guidance : ∀ g, roleGuidance p = Some g → guidance_ok g;
  wf_routing : ∀ r, modelRouting p = Some r → routing_ok r
}.

(** ** Lemmas *)

Lemma kind_of_name_spec s k : kind_of_name s = Some k → kind_name k = s.
Proof.
  unfold kind_of_name; simpl. repeat case_bool_decide; naive_solver.
Qed.

Lemma parseAgentExecution_ok v e : parseAgentExecution v = Ok e → provenance_ok e.
Proof.
  unfold parseAgentExecution. destruct v as [| | | | |r]; try done.
  destruct (string_member "kind" r ≫= kind_of_name) as [k|]; [|done].
  destruct (string_member "adapterId" r) as [a|]; [|done].
  destruct (string_member "adapterVersion" r) as [v|]; [|done].
  rewrite throw_if_bind_Ok, !orb_false_iff, !negb_false_iff.
  intros [[[[[Ha Hv] Hh] Hw] _] [= <-]]. unfold provenance_ok, string_member in *. simpl.
  split; [done|]. split; [done|].
  destruct (member "inputHash" r) as [[| | |h| |]|]; simpl in *; try done.
  - apply negb_false_iff in Hh. naive_solver.
  - split; [done|]. intros ->. done.
Qed.

Lemma parseAgentExecution_json e : provenance_ok e → parseAgentExecution (provenance_json e) = Ok e.
Proof.
  intros (Ha & Hv & Hh & Hw). destruct e as [k a v h]; simpl in *.
  destruct h as [h|].
  - specialize (Hh h eq_refl). clear Hw. destruct k; unfold parseAgentExecution; simpl;
      unfold member, ActionSimulation.get_member; simpl; by rewrite Ha, Hv, Hh.
  - destruct k; [| |by destruct Hw]; unfold parseAgentExecution; simpl;
      unfold member, ActionSimulation.get_member; simpl; by rewrite Ha, Hv.
Qed.

Lemma optional_with_Ok {A B} (f : A → outcome B) v w :
  optional_with f v = Ok w ↔
  match v with None => w = None | Some x => ∃ y, f x = Ok y ∧ w = Some y end.
Proof.
  destruct v as [x|]; simpl; [|naive_solver]. rewrite bind_Ok. naive_solver.
Qed.

Lemma optional_with_total {A B} (f : A → outcome B) (g : B → A) v :
  (∀ x, v = Some x → f (g x) = Ok x) → optional_with f (g <$> v) = Ok v.
Proof. intros H. destruct v as [x|]; [|done]. simpl. by rewrite H. Qed.

Lemma optional_with_same {A} (f : A → outcome A) v :
  (∀ x, v = Some x → f x = Ok x) → optional_with f v = Ok v.
Proof. intros H. destruct v as [x|]; [|done]. simpl. by rewrite H. Qed.

Definition unique_intent (i : option (AgentActionIntent js)) : bool :=
  match i with Some i => unique_names (intent_arguments i) | None => true end.

Lemma normalizeActionIntent_ok i j :
  unique_names (intent_arguments i) = true → normalizeActionIntent i = Ok j → intent_ok j.
Proof.
  intros Hu. unfold normalizeActionIntent. rewrite throw_if_bind_Ok, orb_false_iff.
  intros [[Hr%bool_decide_eq_false Ho%bool_decide_eq_false] H].
  apply bind_Ok in H as (args & Ha & H). apply throw_if_bind_Ok in H as [Hobj H].
  apply bind_Ok in H as ([] & Hs & [= <-]). unfold intent_ok; simpl.
  rewrite !canonical_spec, !trim_idemp. split_and!; try done.
  - by eapply normalize_canonical.
  - by eapply assertNoSensitiveFields_Ok.
  - destruct args; naive_solver.
Qed.

Lemma normalizeActionIntent_stored i :
  intent_ok i → normalizeActionIntent (stored_intent i) = Ok i.
Proof.
  intros (Hr & Ho & Hc & Hs & members & Hm). unfold normalizeActionIntent, stored_intent; simpl.
  apply canonical_spec in Hr as [-> Hr], Ho as [-> Ho].
  rewrite !bool_decide_eq_false_2 by done. simpl. unfold normalizeCanonicalJson.
  rewrite normalize_embed by (done || by intros a ?%not_elem_of_nil). simpl.
  rewrite Hm at 1. simpl. rewrite (proj2 (assertNoSensitiveFields_Ok _ _) Hs). simpl.
  by destruct i.
Qed.

Lemma run_transition_Ok s now d p p' :
  transition s now d p = (Ok tt, p') ↔
  s ∈ transitions (status p) ∧
  ∃ exec, match det_execution d with
          | None => exec = execution p
          | Some v => ∃ e, parseAgentExecution v = Ok e ∧ exec = Some e
          end ∧
    (execution p = None ∨ exec = execution p) ∧ p' = transitioned p s now d exec.
Proof.
  unfold transition. rewrite get_bind, refuse_if_bind_Ok, negb_false_iff, includes_spec.
  rewrite action_bind_Ok.
  assert (∀ (exec : option AgentExecutionProvenance),
    (negb (bool_decide (execution p = None)) && negb (bool_decide (exec = execution p))) = false ↔
    (execution p = None ∨ exec = execution p)) as Hg.
  { intros exec. rewrite andb_false_iff, !negb_false_iff, !bool_decide_eq_true. done. }
  split.
  - intros (Hs & exec & p1 & Hexec & H). split; [done|]. exists exec.
    unfold lift in Hexec. injection Hexec as Hexec <-.
    apply refuse_if_bind_Ok in H as [Hi%Hg [= <-]]. split; [|done].
    destruct (det_execution d) as [v|]; [|by injection Hexec].
    apply bind_Ok in Hexec as (e & He & [= <-]). eauto.
  - intros (Hs & exec & Hexec & Hi%Hg & ->). split; [done|]. exists exec, p.
    unfold lift. rewrite refuse_if_bind_Ok. split; [|done]. f_equal.
    destruct (det_execution d) as [v|]; [|by subst].
    destruct Hexec as (e & -> & ->). done.
Qed.

Lemma run_create_well_formed input p :
  unique_intent (in_actionIntent input) = true → create input = Ok p → well_formed p.
Proof.
  intros Hu. unfold create. rewrite throw_if_bind_Ok. intros [_ H].
  apply bind_Ok in H as (intent & Hi%optional_with_Ok & H).
  apply bind_Ok in H as (guidance & Hg%optional_with_Ok & H).
  apply bind_Ok in H as (routing & Hr%optional_with_Ok & [= <-]).
  constructor; simpl; try done.
  - intros i ->. destruct (in_actionIntent input) as [x|]; [|done].
    destruct Hi as (y & Hy & [= <-]). by eapply normalizeActionIntent_ok.
  - intros g ->. destruct (in_roleGuidance input) as [x|]; [|done].
    destruct Hg as (y & Hy & [= <-]). unfold guidance_ok. unfold normalizeRoleGuidance in *.
    apply throw_if_bind_Ok in Hy as [Hb [= <-]]. by rewrite Hb.
  - intros r ->. destruct (in_modelRouting input) as [x|]; [|done].
    destruct Hr as (y & Hy & [= <-]). revert Hy. unfold parseAgentRunModelRouting.
    destruct x as [|sel]; [by intros [= <-]|].
    change (record (routing_json (resolved sel))) with
      (Ok (E := Errors.error) [("status", CStr "resolved"); ("selection", selection_json sel)]).
    intros Hy. change ((sel' ← parseSelection (selection_json sel);
      Ok (E := Errors.error) (resolved sel')) = Ok r) in Hy.
    apply bind_Ok in Hy as (sel' & Hsel & [= <-]). by eapply parseSelection_ok.
Qed.

Lemma run_transition_well_formed s now d p p' :
  well_formed p → transition s now d p = (Ok tt, p') → well_formed p'.
Proof.
  intros [Hn Hs Ht He Hi Hg Hr] (Hst%includes_spec & exec & Hexec & Him & ->)%run_transition_Ok.
  constructor; simpl; try done.
  - intros Hq. destruct (status p), s; try discriminate Hst; try discriminate Hq. by apply Hn.
  - intros Hq. destruct (bool_decide (s = running) && bool_decide (startedAt p = None)) eqn:Hb;
      [done|].
    destruct (status p), s; try discriminate Hst; try discriminate Hq; try (by apply Hs).
    simpl in Hb. by apply bool_decide_eq_false in Hb.
  - destruct (is_terminal s) eqn:Hts; [done|]. split; [done|]. intros Hc. apply Ht in Hc.
    destruct (status p), s; discriminate Hst || discriminate Hc.
  - intros e ->. destruct (det_execution d) as [v|]; [|by apply He].
    destruct Hexec as (e' & He' & [= ->]). by eapply parseAgentExecution_ok.
Qed.

Lemma run_call_well_formed c now p p' :
  well_formed p → run_call c now p = (Ok tt, p') → well_formed p'.
Proof.
  intros Hwf. destruct c as [s d|]; simpl; [by apply run_transition_well_formed|].
  intros [= <-]. by destruct Hwf.
Qed.

Lemma restore_stored_run p : well_formed p → restore (stored p) = Ok p.
Proof.
  intros [_ _ _ He Hi Hg Hr]. unfold restore, stored; simpl.
  rewrite (optional_with_same _ (execution p)) by (intros; by apply parseAgentExecution_json, He). simpl.
  rewrite optional_with_total by (intros; by apply normalizeActionIntent_stored, Hi). simpl.
  rewrite (optional_with_same _ (roleGuidance p)) by (intros; by apply Hg). simpl.
  rewrite (optional_with_same _ (modelRouting p)); [by destruct p|].
  intros r Hr'. by apply parse_routing_json, Hr.
Qed.

(** How many transitions a status has left. *)
Definition rank (s : AgentRunStatus) : nat :=
  match s with queued => 4 | preparing => 3 | running => 2 | reviewing => 1 | _ => 0 end.

Lemma transitions_rank s s' : includes s' (transitions s) = true → rank s' < rank s.
Proof. destruct s, s'; intros H; try discriminate H; simpl; lia. Qed.

(** ** Properties *)

(** The timeline of an agent run: from creation through any transitions
    and persistence marks a run has a start time exactly when it has run, an
    end time exactly when it is terminal, a valid provenance, canonical action
    arguments without sensitive names, and [restore] of its stored form gives
    it back. *)
Theorem agent_run_timeline input p0 l p :
  unique_intent (in_actionIntent input) = true → create input = Ok p0 →
  run_calls l p0 = (Ok tt, p) → well_formed p ∧ restore (stored (snapshot p)) = Ok p.
Proof.
  intros Hu Hc Hr. assert (well_formed p) as Hwf; [|by split; [|apply restore_stored_run]].
  apply run_create_well_formed in Hc; [|done]. revert p0 Hc Hr.
  induction l as [|[c now] l IH]; intros p0 Hwf Hr; simpl in Hr; [by injection Hr as <-|].
  apply action_bind_Ok in Hr as ([] & p1 & H1 & H2). eauto using run_call_well_formed.
Qed.

(** A run ends and keeps its provenance: at most four transitions succeed
    in a row, none from a terminal status, and once the run has an execution
    provenance, no sequence of calls changes it. *)
Theorem agent_run_bounded l p p' :
  run_calls l p = (Ok tt, p') →
  length (filter (λ c, is_transition c.1 = true) l) + rank (status p') ≤ rank (status p) ∧
  (∀ e, execution p = Some e → execution p' = Some e) ∧
  (is_terminal (status p) = true → status p' = status p).
Proof.
  revert p. induction l as [|[c now] l IH]; intros p Hr; simpl in Hr.
  - injection Hr as <-. simpl. split_and!; [lia|done|done].
  - apply action_bind_Ok in Hr as ([] & p1 & H1 & H2).
    destruct (IH p1 H2) as (Hlen & Hex & Hterm). rewrite filter_cons. destruct c as [s d|]; simpl.
    + apply run_transition_Ok in H1 as (Hs%includes_spec & exec & _ & Hi & ->).
      pose proof (transitions_rank _ _ Hs). simpl in *. split_and!; [lia| |].
      * intros e He. apply Hex. destruct Hi as [Hi|Hi]; simpl; congruence.
      * intros Ht. destruct (status p), s; discriminate Hs || discriminate Ht.
    + injection H1 as <-. done.
Qed.

Definition sample_run_input : create_input :=
  {| in_id := "run1"; in_projectId := "p1"; in_taskId := "t1"; in_agentId := "a1";
     in_pipelineRunId := None; in_pipelineStageRunId := None;
     in_actionIntent := Some {| intent_resourceId := " res1"; intent_operation := "fake.read";
       intent_arguments := JObj 0 true false [("target", plain (JStr "x"))] |};
     in_roleGuidance := None; in_modelRouting := Some unrouted; in_now := Some 1%Z |}.

Definition sample_calls : list (call * date) :=
  [(CTransition preparing no_details, Some 2%Z); (CMarkPersisted, Some 2%Z);
   (CTransition running
      {| det_worktreePath := None; det_result := None; det_error := None;
         det_execution := Some (CObj [("kind", CStr "simulation"); ("adapterId", CStr "mock");
                                      ("adapterVersion", CStr "1.0")]) |}, Some 3%Z);
   (CTransition completed no_details, Some 4%Z)].

Lemma agent_run_timeline_witness :
  ∃ p0 p, unique_intent (in_actionIntent sample_run_input) = true ∧
    create sample_run_input = Ok p0 ∧ run_calls sample_calls p0 = (Ok tt, p) ∧
    well_formed p ∧ restore (stored (snapshot p)) = Ok p.
Proof.
  destruct (create sample_run_input) as [p0|e] eqn:Hc; [|by vm_compute in Hc].
  destruct (run_calls sample_calls p0) as [[[]|e] p] eqn:Hr;
    [|exfalso; vm_compute in Hc; injection Hc as <-; by vm_compute in Hr].
  assert (unique_intent (in_actionIntent sample_run_input) = true) as Hu by by vm_compute.
  exists p0, p. split; [exact Hu|]. split; [reflexivity|]. split; [exact Hr|].
  exact (agent_run_timeline sample_run_input p0 sample_calls p Hu Hc Hr).
Defined.

Lemma agent_run_bounded_witness :
  ∃ p0 p, create sample_run_input = Ok p0 ∧ run_calls sample_calls p0 = (Ok tt, p) ∧
    length (filter (λ c, is_transition c.1 = true) sample_calls) + rank (status p)
      ≤ rank (status p0) ∧
    (∀ e, execution p0 = Some e → execution p = Some e) ∧
    (is_terminal (status p0) = true → status p = status p0).
Proof.
  destruct (create sample_run_input) as [p0|e] eqn:Hc; [|by vm_compute in Hc].
  destruct (run_calls sample_calls p0) as [[[]|e] p] eqn:Hr;
    [|exfalso; vm_compute in Hc; injection Hc as <-; by vm_compute in Hr].
  exists p0, p. split; [reflexivity|]. split; [exact Hr|].
  exact (agent_run_bounded sample_calls p0 p Hr).
Defined.

End AgentRun.
