(* ===== verification/RoutingModel.v ===== *)
(** Which model a run is scheduled with: the host's routing configuration and
    the precedence of its rules.  Models
    [packages/application/src/model-routing/model-routing.ts].

    A [ReadonlyMap] of the configuration is a finite map: the routing reads it
    by key only. *)
From S2P Require Import Prelude Errors Json AgentModel.
Import Provenance RunModel.

Module Routing.

(** * Data *)

Record ConcreteModel := {
  cm_modelRef : string;
  cm_providerId : string;
  cm_model : string
}.

Record ModelProfile := {
  mp_concrete : ConcreteModel;
  mp_key : string;
  mp_reasoningEffort : option string;
  mp_maxOutputTokens : option number
}.

Inductive AgentModelOverride :=
| override_profile (profile : string)
| override_model (model : ConcreteModel).

Record ModelRoutingConfiguration := {
  profiles : gmap string ModelProfile;
  policies : gmap string string;
  defaultProfile : option string;
  agentOverrides : gmap string AgentModelOverride;
  projectAgentOverrides : gmap string (gmap string AgentModelOverride);
  legacyDefault : option ConcreteModel
}.

(** The states; their sources, warnings and issues are not read here. *)
Inductive ModelRoutingState :=
| unconfigured
| configured (configuration : ModelRoutingConfiguration)
| misconfigured.

Record AgentModelSubject := {
  s_projectId : string;
  s_agentName : string;
  s_modelPolicy : string
}.

(** * Operations *)

(** The text between double quotes, as the messages' templates put it. *)
Definition in_quotes (s : string) : string :=
  String Canonical.dquote (s +:+ String Canonical.dquote "").

Definition profile_undefined (key : string) (subject : AgentModelSubject) : error :=
  ModelRoutingError "MODEL_PROFILE_UNDEFINED"
    ("Model profile " +:+ in_quotes key +:+ " required by agent " +:+ s_agentName subject
     +:+ " is not defined. No run was scheduled.").

Definition fromProfile (configuration : ModelRoutingConfiguration) (key : string)
    (subject : AgentModelSubject) (source : ModelSelectionSource)
    : outcome AgentRunModelSelection :=
  match profiles configuration !! key with
  | None => Throw (profile_undefined key subject)
  | Some p =>
      Ok {| policy := s_modelPolicy subject; profile := Some (mp_key p);
            modelRef := cm_modelRef (mp_concrete p); providerId := cm_providerId (mp_concrete p);
            model := cm_model (mp_concrete p); reasoningEffort := mp_reasoningEffort p;
            maxOutputTokens := mp_maxOutputTokens p; RunModel.source := source |}
  end.

Definition concrete (m : ConcreteModel) (subject : AgentModelSubject)
    (source : ModelSelectionSource) : AgentRunModelSelection :=
  {| policy := s_modelPolicy subject; profile := None; modelRef := cm_modelRef m;
     providerId := cm_providerId m; model := cm_model m; reasoningEffort := None;
     maxOutputTokens := None; RunModel.source := source |}.

Definition fromOverride (configuration : ModelRoutingConfiguration) (o : AgentModelOverride)
    (subject : AgentModelSubject) (source : ModelSelectionSource)
    : outcome AgentRunModelRouting :=
  selection ← match o with
              | override_profile key => fromProfile configuration key subject source
              | override_model m => Ok (concrete m subject source)
              end;
  Ok (resolved selection).

(** The profile of the role's policy: mapped, or named as the policy. *)
Definition mapped_profile (configuration : ModelRoutingConfiguration)
    (subject : AgentModelSubject) : option string :=
  match policies configuration !! s_modelPolicy subject with
  | Some key => Some key
  | None =>
      if bool_decide (is_Some (profiles configuration !! s_modelPolicy subject))
      then Some (s_modelPolicy subject) else None
  end.

Definition resolveAgentRunModel (state : ModelRoutingState) (subject : AgentModelSubject)
    : outcome AgentRunModelRouting :=
  match state with
  | unconfigured => Ok unrouted
  | misconfigured =>
      Throw (ModelRoutingError "MODEL_ROUTING_MISCONFIGURED"
        "Model routing configuration is invalid; run model:check. No run was scheduled.")
  | configured configuration =>
      match projectAgentOverrides configuration !! s_projectId subject ≫=
              λ overrides, overrides !! s_agentName subject with
      | Some o => fromOverride configuration o subject project_agent_override
      | None =>
      match agentOverrides configuration !! s_agentName subject with
      | Some o => fromOverride configuration o subject agent_override
      | None =>
      match mapped_profile configuration subject with
      | Some key =>
          selection ← fromProfile configuration key subject role_policy; Ok (resolved selection)
      | None =>
      match defaultProfile configuration with
      | Some key =>
          selection ← fromProfile configuration key subject default_source;
          Ok (resolved selection)
      | None =>
      match legacyDefault configuration with
      | Some m => Ok (resolved (concrete m subject legacy_default))
      | None =>
          Throw (ModelRoutingError "MODEL_POLICY_UNRESOLVED"
            ("Model policy " +:+ in_quotes (s_modelPolicy subject) +:+ " of agent "
             +:+ s_agentName subject
             +:+ " has no model profile and no default is configured. No run was scheduled."))
      end end end end end
  end.

(** * The contract *)

(** What a rule asks for: a profile by its key, or a model. *)
Inductive choice := by_profile (key : string) | by_model (m : ConcreteModel).

Definition choice_of_override (o : AgentModelOverride) : choice :=
  match o with override_profile key => by_profile key | override_model m => by_model m end.

(** The five rules in the documented order, each with what it asks for when it
    applies to the subject. *)
Definition rules (c : ModelRoutingConfiguration) (subject : AgentModelSubject)
    : list (ModelSelectionSource * option choice) :=
  [(project_agent_override,
      choice_of_override <$> (projectAgentOverrides c !! s_projectId subject ≫=
                               λ overrides, overrides !! s_agentName subject));
   (agent_override, choice_of_override <$> agentOverrides c !! s_agentName subject);
   (role_policy, by_profile <$> mapped_profile c subject);
   (default_source, by_profile <$> defaultProfile c);
   (legacy_default, by_model <$> legacyDefault c)].

Definition first_applying (c : ModelRoutingConfiguration) (subject : AgentModelSubject)
    : option (ModelSelectionSource * choice) :=
  head (omap (λ r, pair r.1 <$> r.2) (rules c subject)).

(** What the routing loader guarantees of a configured host: a profile is
    filed under its key and every token passes its pattern. *)
Definition concrete_ok (m : ConcreteModel) : Prop :=
  providerIdPattern (cm_providerId m) = true ∧ providerModelPattern (cm_model m) = true ∧
  cm_modelRef m = cm_providerId m +:+ ":" +:+ cm_model m.

Record profile_ok (key : string) (p : ModelProfile) : Prop := {
  po_key : mp_key p = key;
  po_token : modelTokenPattern key = true;
  po_concrete : concrete_ok (mp_concrete p);
  po_effort : ∀ e, mp_reasoningEffort p = Some e → reasoningEffortPattern e = true;
  po_tokens : ∀ n, mp_maxOutputTokens p = Some n → is_safe_integer n = true ∧
    num_lt n 1 = false ∧ num_gt n maximumOutputTokens = false
}.

Record configuration_ok (c : ModelRoutingConfiguration) : Prop := {
  co_profiles : map_Forall profile_ok (profiles c);
  co_overrides : map_Forall (λ _ o, ∀ m, o = override_model m → concrete_ok m)
                   (agentOverrides c);
  co_project_overrides :
    map_Forall (λ _, map_Forall (λ _ o, ∀ m, o = override_model m → concrete_ok m))
      (projectAgentOverrides c);
  co_legacy : ∀ m, legacyDefault c = Some m → concrete_ok m
}.

(** * Lemmas *)

Lemma fromProfile_Ok c key subject src s :
  fromProfile c key subject src = Ok s →
  ∃ p, profiles c !! key = Some p ∧ RunModel.source s = src ∧ policy s = s_modelPolicy subject ∧
    profile s = Some (mp_key p) ∧ providerId s = cm_providerId (mp_concrete p) ∧
    model s = cm_model (mp_concrete p) ∧ modelRef s = cm_modelRef (mp_concrete p) ∧
    reasoningEffort s = mp_reasoningEffort p ∧ maxOutputTokens s = mp_maxOutputTokens p.
Proof.
  unfold fromProfile. destruct (profiles c !! key) as [p|]; [|done].
  intros [= <-]. by exists p.
Qed.

Lemma fromProfile_selection_ok c key subject src s :
  configuration_ok c → src ≠ legacy_default → fromProfile c key subject src = Ok s →
  selection_ok s ↔ validPolicy (s_modelPolicy subject) = true.
Proof.
  intros [Hp _ _ _] Hsrc (p & Hlook & Hs & Hpol & Hprof & Hprov & Hmod & Href & Heff & Htok)%fromProfile_Ok.
  destruct (Hp _ _ Hlook) as [Hkey Htoken (Hc1 & Hc2 & Hc3) Heffort Htokens].
  split; [intros [H _ _ _ _ _ _ _]; congruence|]. intros Hv. constructor.
  - congruence.
  - intros q. rewrite Hprof. intros [= <-]. congruence.
  - congruence.
  - congruence.
  - congruence.
  - intros e. rewrite Heff. apply Heffort.
  - intros n. rewrite Htok. apply Htokens.
  - rewrite Hprof, Hs. simpl. by rewrite bool_decide_eq_false_2.
Qed.

Lemma concrete_selection_ok m subject src :
  concrete_ok m → includes src [project_agent_override; agent_override; legacy_default] = true →
  selection_ok (concrete m subject src) ↔ validPolicy (s_modelPolicy subject) = true.
Proof.
  intros (H1 & H2 & H3) Hsrc. split; [by intros [H _ _ _ _ _ _ _]|].
  intros Hv. by constructor.
Qed.

(** What a rule yields once it is the one that decides. *)
Definition decide_rule (c : ModelRoutingConfiguration) (subject : AgentModelSubject)
    (r : ModelSelectionSource * choice) : outcome AgentRunModelRouting :=
  resolved <$> match r.2 with
               | by_profile key => fromProfile c key subject r.1
               | by_model m => Ok (concrete m subject r.1)
               end.

Lemma bind_resolved (m : outcome AgentRunModelSelection) :
  (s ← m; Ok (E := error) (resolved s)) = resolved <$> m.
Proof. by destruct m. Qed.

Lemma fromOverride_decides c o subject src :
  fromOverride c o subject src = decide_rule c subject (src, choice_of_override o).
Proof. unfold fromOverride, decide_rule. rewrite bind_resolved. by destruct o. Qed.

Lemma resolve_first c subject :
  resolveAgentRunModel (configured c) subject =
  match first_applying c subject with
  | Some r => decide_rule c subject r
  | None => resolveAgentRunModel (configured c) subject
  end.
Proof.
  unfold first_applying, rules, resolveAgentRunModel. cbn [omap list_omap fst snd].
  destruct (projectAgentOverrides c !! s_projectId subject ≫= _) as [o|]; simpl;
    [by apply fromOverride_decides|].
  destruct (agentOverrides c !! s_agentName subject) as [o|]; simpl;
    [by apply fromOverride_decides|].
  destruct (mapped_profile c subject) as [key|]; simpl; [by apply bind_resolved|].
  destruct (defaultProfile c) as [key|]; simpl; [by apply bind_resolved|].
  by destruct (legacyDefault c) as [m|].
Qed.

Lemma first_applying_None c subject :
  first_applying c subject = None →
  ∃ message, resolveAgentRunModel (configured c) subject =
             Throw (ModelRoutingError "MODEL_POLICY_UNRESOLVED" message).
Proof.
  unfold first_applying, rules, resolveAgentRunModel. cbn [omap list_omap fst snd].
  destruct (projectAgentOverrides c !! s_projectId subject ≫= _) as [o|]; [done|].
  destruct (agentOverrides c !! s_agentName subject) as [o|]; [done|].
  destruct (mapped_profile c subject) as [key|]; [done|].
  destruct (defaultProfile c) as [key|]; [done|].
  destruct (legacyDefault c) as [m|]; [done|]. eauto.
Qed.

(** A model that a rule names is one of the configuration. *)
Lemma first_applying_model c subject src m :
  configuration_ok c → first_applying c subject = Some (src, by_model m) →
  concrete_ok m ∧ includes src [project_agent_override; agent_override; legacy_default] = true.
Proof.
  intros [_ Ho Hpo Hl]. unfold first_applying, rules. cbn [omap list_omap fst snd].
  destruct (projectAgentOverrides c !! s_projectId subject) as [os|] eqn:Hos; simpl.
  1: destruct (os !! s_agentName subject) as [o|] eqn:Hso; simpl.
  1: { intros [= <- Hm]. split; [|done]. destruct o; [done|]. injection Hm as ->.
       by eapply (Hpo _ _ Hos _ _ Hso). }
  all: destruct (agentOverrides c !! s_agentName subject) as [o|] eqn:Hao; simpl;
    [intros [= <- Hm]; split; [|done]; destruct o; [done|]; injection Hm as ->;
     by eapply (Ho _ _ Hao)|].
  all: destruct (mapped_profile c subject) as [key|]; [done|].
  all: destruct (defaultProfile c) as [key|]; [done|].
  all: destruct (legacyDefault c) as [m'|] eqn:Hm; [|done]; intros [= <- <-]; split; auto.
Qed.

Lemma first_applying_profile c subject src key :
  first_applying c subject = Some (src, by_profile key) → src ≠ legacy_default.
Proof.
  unfold first_applying, rules. cbn [omap list_omap fst snd].
  destruct (projectAgentOverrides c !! s_projectId subject ≫= _) as [o|]; [by intros [= <- _]|].
  destruct (agentOverrides c !! s_agentName subject) as [o|]; [by intros [= <- _]|].
  destruct (mapped_profile c subject) as [k|]; [by intros [= <- _]|].
  destruct (defaultProfile c) as [k|]; [by intros [= <- _]|].
  by destruct (legacyDefault c).
Qed.

(** * Properties *)

(** The model of a run is decided by the first of the five documented
    rules that applies, and by that one alone: whatever the lower rules hold,
    a rule that names an undefined profile refuses the run instead of falling
    through, no rule at all refuses it too, and on a configuration whose
    entries are valid the assignment is one that [AgentRun.create] stores
    exactly when the role's policy is a valid one. *)
Theorem routing_follows_precedence c subject :
  match first_applying c subject with
  | None => ∃ message, resolveAgentRunModel (configured c) subject =
                       Throw (ModelRoutingError "MODEL_POLICY_UNRESOLVED" message)
  | Some (src, by_profile key) =>
      match profiles c !! key with
      | None => resolveAgentRunModel (configured c) subject = Throw (profile_undefined key subject)
      | Some p => ∃ s, resolveAgentRunModel (configured c) subject = Ok (resolved s) ∧
          source s = src ∧ profile s = Some (mp_key p) ∧ model s = cm_model (mp_concrete p)
      end
  | Some (src, by_model m) =>
      resolveAgentRunModel (configured c) subject = Ok (resolved (concrete m subject src))
  end ∧
  (configuration_ok c → ∀ r, resolveAgentRunModel (configured c) subject = Ok r →
   routing_ok r ↔ validPolicy (s_modelPolicy subject) = true).
Proof.
  pose proof (resolve_first c subject) as Hres.
  destruct (first_applying c subject) as [[src [key|m]]|] eqn:Hf.
  - rewrite Hres. unfold decide_rule. cbn [fst snd]. split.
    + destruct (fromProfile c key subject src) as [s|e] eqn:Hp.
      * pose proof Hp as (p & -> & Hs & _ & Hprof & _ & Hmod & _)%fromProfile_Ok. by exists s.
      * unfold fromProfile in Hp. destruct (profiles c !! key); [done|]. by injection Hp as <-.
    + intros Hok r. destruct (fromProfile c key subject src) as [s|e] eqn:Hp; [|done].
      intros [= <-]. eapply fromProfile_selection_ok; [done| |done].
      by eapply first_applying_profile.
  - rewrite Hres. split; [done|]. intros Hok r [= <-].
    destruct (first_applying_model _ _ _ _ Hok Hf). by apply concrete_selection_ok.
  - destruct (first_applying_None _ _ Hf) as (message & ->). split; [eauto|done].
Qed.

(** ** A sample configuration *)

Definition sample_model : ConcreteModel :=
  {| cm_modelRef := "openai:gpt-5"; cm_providerId := "openai"; cm_model := "gpt-5" |}.

(** One profile, asked for by the policy [coding]; one agent has its own model. *)
Definition sample_configuration : ModelRoutingConfiguration :=
  {| profiles := {["strong" := {| mp_concrete := sample_model; mp_key := "strong";
                                  mp_reasoningEffort := Some "high";
                                  mp_maxOutputTokens := None |}]};
     policies := {["coding" := "strong"]};
     defaultProfile := Some "missing";
     agentOverrides := {["reviewer" := override_model sample_model]};
     projectAgentOverrides := ∅;
     legacyDefault := Some sample_model |}.

Definition sample_subject (agent policy : string) : AgentModelSubject :=
  {| s_projectId := "p1"; s_agentName := agent; s_modelPolicy := policy |}.

Example sample_routing :
  RunModel.source <$> match resolveAgentRunModel (configured sample_configuration)
                              (sample_subject "coder" "coding") with
                      | Ok (resolved s) => Some s | _ => None end = Some role_policy ∧
  resolveAgentRunModel (configured sample_configuration) (sample_subject "coder" "prose") =
    Throw (profile_undefined "missing" (sample_subject "coder" "prose")).
Proof. by vm_compute. Qed.

Lemma sample_configuration_ok : configuration_ok sample_configuration.
Proof.
  constructor.
  - apply map_Forall_singleton. by constructor; try intros e [= <-].
  - apply map_Forall_singleton. intros m [= <-]. done.
  - apply map_Forall_empty.
  - intros m [= <-]. done.
Qed.

Definition sample_selection : AgentRunModelSelection :=
  {| policy := "coding"; profile := Some "strong"; modelRef := "openai:gpt-5";
     providerId := "openai"; model := "gpt-5"; reasoningEffort := Some "high";
     maxOutputTokens := None; RunModel.source := role_policy |}.

(** The third rule decides for an agent without an override. *)
Lemma routing_follows_precedence_witness :
  resolveAgentRunModel (configured sample_configuration) (sample_subject "coder" "coding")
    = Ok (resolved sample_selection) ∧
  (routing_ok (resolved sample_selection) ↔ validPolicy "coding" = true).
Proof.
  split; [reflexivity|].
  exact (proj2 (routing_follows_precedence sample_configuration (sample_subject "coder" "coding"))
           sample_configuration_ok (resolved sample_selection) eq_refl).
Defined.

End Routing.
