(* ===== verification/CostModel.v ===== *)
(** Cost accounting and governance tables.  Models
    [packages/domain/src/cost/cost.ts], [packages/llm-gateway/src/cost-calculator.ts]
    and [packages/domain/src/governance/governance.ts]. *)
From S2P Require Import Prelude Errors.

Module Cost.

(** * Data *)

Inductive Currency := USD | EUR.

#[global] Instance Currency_eq_dec : EqDecision Currency.
Proof. solve_decision. Defined.

Record CostAmount := { micros : Z; currency : Currency }.

Record ModelUsage := {
  inputTokens : number;
  cachedInputTokens : number;
  outputTokens : number;
  reasoningTokens : number
}.

Record ModelUsageBound := { bound_inputTokens : number; bound_outputTokens : number }.

Record BillableTokens := {
  bt_uncachedInputTokens : number;
  bt_cachedInputTokens : number;
  bt_nonReasoningOutputTokens : number;
  bt_reasoningTokens : number
}.

Record ModelPrice := {
  mp_currency : Currency;
  inputPerMillionMicros : Z;
  cachedInputPerMillionMicros : Z;
  outputPerMillionMicros : Z;
  reasoningPerMillionMicros : Z
}.

Record PricingVersion := {
  pv_id : string;
  pv_provider : string;
  pv_model : string;
  pv_currency : Currency;
  pv_inputPerMillionMicros : Z;
  pv_cachedInputPerMillionMicros : Z;
  pv_outputPerMillionMicros : Z;
  pv_reasoningPerMillionMicros : Z;
  pv_effectiveFrom : date;
  pv_effectiveTo : option date
}.

(** * Operations *)

Definition million : Z := 1000000.

(** [!Number.isSafeInteger(value) || value < 0] *)
Definition not_count (n : number) : bool := negb (is_safe_integer n) || num_lt n 0.

(** [BigInt(n)] and [a - b] on safe integers. *)
Definition to_bigint (n : number) : Z := match n with NInt z => z | _ => 0%Z end.
Definition num_sub (a b : number) : number :=
  match a, b with
  | NNegZero, NInt 0 => NNegZero
  | _, _ => NInt (to_bigint a - to_bigint b)
  end.
Definition num_greater (a b : number) : bool := (to_bigint b <? to_bigint a)%Z.

(** The loop over [usageFields], in their order. *)
Fixpoint check_fields (fields : list (string * number)) : outcome unit :=
  match fields with
  | [] => Ok tt
  | (field, value) :: rest =>
      throw_if (not_count value) (InvalidModelUsageError field);; check_fields rest
  end.

Definition usageFields (usage : ModelUsage) : list (string * number) :=
  [("inputTokens", inputTokens usage); ("cachedInputTokens", cachedInputTokens usage);
   ("outputTokens", outputTokens usage); ("reasoningTokens", reasoningTokens usage)].

Definition billableTokens (usage : ModelUsage) : outcome BillableTokens :=
  check_fields (usageFields usage);;
  throw_if (num_greater (cachedInputTokens usage) (inputTokens usage))
    (InvalidModelUsageError "cachedInputTokens");;
  throw_if (num_greater (reasoningTokens usage) (outputTokens usage))
    (InvalidModelUsageError "reasoningTokens");;
  Ok {| bt_uncachedInputTokens := num_sub (inputTokens usage) (cachedInputTokens usage);
        bt_cachedInputTokens := cachedInputTokens usage;
        bt_nonReasoningOutputTokens := num_sub (outputTokens usage) (reasoningTokens usage);
        bt_reasoningTokens := reasoningTokens usage |}.

(** Division of bigints truncates towards zero. *)
Definition calculateCost (usage : ModelUsage) (price : ModelPrice) : outcome CostAmount :=
  tokens ← billableTokens usage;
  Ok {| micros := Z.quot
          (to_bigint (bt_uncachedInputTokens tokens) * inputPerMillionMicros price
           + to_bigint (bt_cachedInputTokens tokens) * cachedInputPerMillionMicros price
           + to_bigint (bt_nonReasoningOutputTokens tokens) * outputPerMillionMicros price
           + to_bigint (bt_reasoningTokens tokens) * reasoningPerMillionMicros price) million;
        currency := mp_currency price |}.

Definition larger (left right : Z) : Z := if (right <? left)%Z then left else right.

Definition calculateMaximumCost (bound : ModelUsageBound) (price : ModelPrice)
    : outcome CostAmount :=
  throw_if (existsb not_count [bound_inputTokens bound; bound_outputTokens bound])
    (RangeError "Usage bounds must be non-negative safe integers");;
  Ok {| micros := Z.quot
          (to_bigint (bound_inputTokens bound) *
             larger (inputPerMillionMicros price) (cachedInputPerMillionMicros price)
           + to_bigint (bound_outputTokens bound) *
             larger (outputPerMillionMicros price) (reasoningPerMillionMicros price)) million;
        currency := mp_currency price |}.

(** Every field of the usage is a count and the details are within their totals. *)
Definition usage_ok (usage : ModelUsage) : Prop :=
  Forall (λ f, not_count f.2 = false) (usageFields usage) ∧
  (to_bigint (cachedInputTokens usage) <= to_bigint (inputTokens usage))%Z ∧
  (to_bigint (reasoningTokens usage) <= to_bigint (outputTokens usage))%Z.

(** * Lemmas *)

Lemma not_count_false n : not_count n = false → (0 <= to_bigint n <= max_safe_integer)%Z.
Proof.
  unfold not_count. destruct n as [z| | | |]; simpl; try done.
  rewrite orb_false_iff, negb_false_iff, andb_true_iff. lia.
Qed.

Lemma check_fields_Ok l : check_fields l = Ok tt ↔ Forall (λ f, not_count f.2 = false) l.
Proof.
  induction l as [|[f v] l IH]; simpl; [done|].
  by rewrite throw_if_bind_Ok, Forall_cons, IH.
Qed.

Lemma to_bigint_sub a b : to_bigint (num_sub a b) = (to_bigint a - to_bigint b)%Z.
Proof. destruct a as [| | | |], b as [[]| | | |]; done. Qed.

Lemma billableTokens_Ok usage t :
  billableTokens usage = Ok t ↔
  usage_ok usage ∧
  t = {| bt_uncachedInputTokens := num_sub (inputTokens usage) (cachedInputTokens usage);
         bt_cachedInputTokens := cachedInputTokens usage;
         bt_nonReasoningOutputTokens := num_sub (outputTokens usage) (reasoningTokens usage);
         bt_reasoningTokens := reasoningTokens usage |}.
Proof.
  unfold billableTokens, usage_ok, num_greater. rewrite bind_Ok. split.
  - intros ([] & Hc%check_fields_Ok & H). rewrite !throw_if_bind_Ok, !Z.ltb_ge in H. naive_solver.
  - intros ((Hc & H1 & H2) & ->). exists tt. rewrite check_fields_Ok. split; [done|].
    by rewrite !throw_if_bind_Ok, !Z.ltb_ge.
Qed.

(** A total split into two parts costs at most the total at the dearer rate. *)
Lemma split_cost_le a b n x y :
  (0 <= a → 0 <= b → a + b <= n → 0 <= larger x y → a * x + b * y <= n * larger x y)%Z.
Proof.
  intros Ha Hb Hn Hl. assert (x <= larger x y ∧ y <= larger x y)%Z as [Hx Hy].
  { unfold larger. case_match; lia. }
  nia.
Qed.

(** Rates are never negative. *)
Definition rates_ok (p : ModelPrice) : Prop :=
  (0 <= inputPerMillionMicros p)%Z ∧ (0 <= cachedInputPerMillionMicros p)%Z ∧
  (0 <= outputPerMillionMicros p)%Z ∧ (0 <= reasoningPerMillionMicros p)%Z.

Definition within_bound (usage : ModelUsage) (bound : ModelUsageBound) : Prop :=
  (to_bigint (inputTokens usage) <= to_bigint (bound_inputTokens bound))%Z ∧
  (to_bigint (outputTokens usage) <= to_bigint (bound_outputTokens bound))%Z.

Lemma larger_pos x y : (0 <= x → 0 <= larger x y)%Z.
Proof. unfold larger. case_match; lia. Qed.

Lemma calculateCost_Ok usage price actual :
  calculateCost usage price = Ok actual → usage_ok usage ∧ currency actual = mp_currency price.
Proof.
  unfold calculateCost. by intros (t & [Hok _]%billableTokens_Ok & [= <-])%bind_Ok.
Qed.

Lemma cost_le_maximum usage bound price actual maximum :
  rates_ok price → within_bound usage bound →
  calculateCost usage price = Ok actual → calculateMaximumCost bound price = Ok maximum →
  (0 <= micros actual <= micros maximum)%Z.
Proof.
  intros (Hi & Hc & Ho & Hr) [Hin Hout] Ha Hm. unfold calculateCost in Ha.
  apply bind_Ok in Ha as (t & [(Hf & Hci & Hro) ->]%billableTokens_Ok & [= <-]).
  unfold calculateMaximumCost in Hm. apply throw_if_bind_Ok in Hm as [Hb [= <-]].
  simpl. rewrite !to_bigint_sub.
  repeat apply Forall_cons in Hf as [?%not_count_false Hf]. simpl in *.
  pose proof (larger_pos _ (cachedInputPerMillionMicros price) Hi).
  pose proof (larger_pos _ (reasoningPerMillionMicros price) Ho).
  split; [apply Z.quot_pos; unfold million; nia|].
  apply Z.quot_le_mono; [unfold million; lia|].
  pose proof (split_cost_le (to_bigint (inputTokens usage) - to_bigint (cachedInputTokens usage))
    (to_bigint (cachedInputTokens usage)) (to_bigint (bound_inputTokens bound))
    (inputPerMillionMicros price) (cachedInputPerMillionMicros price)).
  pose proof (split_cost_le (to_bigint (outputTokens usage) - to_bigint (reasoningTokens usage))
    (to_bigint (reasoningTokens usage)) (to_bigint (bound_outputTokens bound))
    (outputPerMillionMicros price) (reasoningPerMillionMicros price)).
  lia.
Qed.

(** The usage that costs the maximum: all tokens at the dearer rate. *)
Definition dear (x y : Z) (n : number) : number := if (y <? x)%Z then NInt 0 else n.

Definition dearest_usage (bound : ModelUsageBound) (price : ModelPrice) : ModelUsage :=
  {| inputTokens := bound_inputTokens bound;
     cachedInputTokens := dear (inputPerMillionMicros price)
       (cachedInputPerMillionMicros price) (bound_inputTokens bound);
     outputTokens := bound_outputTokens bound;
     reasoningTokens := dear (outputPerMillionMicros price)
       (reasoningPerMillionMicros price) (bound_outputTokens bound) |}.

Lemma dearest_usage_cost bound price maximum :
  calculateMaximumCost bound price = Ok maximum →
  calculateCost (dearest_usage bound price) price = Ok maximum.
Proof.
  unfold calculateMaximumCost. intros [Hb [= <-]]%throw_if_bind_Ok. simpl in Hb.
  rewrite !orb_false_iff in Hb. destruct Hb as (Hbi & Hbo & _).
  unfold calculateCost. apply bind_Ok. eexists.
  pose proof (not_count_false _ Hbi). pose proof (not_count_false _ Hbo).
  split; [apply billableTokens_Ok; split; [|reflexivity]|].
  - unfold usage_ok, usageFields, dearest_usage, dear. simpl.
    split; [repeat (constructor; simpl; [by try case_match|]); constructor|].
    split; case_match; simpl; lia.
  - simpl. rewrite !to_bigint_sub. unfold dear, larger. do 3 f_equal.
    repeat case_match; simpl; lia.
Qed.

(** * Properties *)

(** The reservation covers the bill: for every usage that [calculateCost]
    accepts and whose totals are within the bound, at rates that are not
    negative, its cost is at most [calculateMaximumCost] of the bound, in the
    same currency; and the bound is tight, some usage within it costs exactly
    that much. *)
Theorem maximum_cost_covers usage bound price actual maximum :
  rates_ok price → within_bound usage bound →
  calculateCost usage price = Ok actual → calculateMaximumCost bound price = Ok maximum →
  (0 <= micros actual <= micros maximum)%Z ∧ currency actual = currency maximum ∧
  ∃ dearest, calculateCost dearest price = Ok maximum ∧
    inputTokens dearest = bound_inputTokens bound ∧
    outputTokens dearest = bound_outputTokens bound.
Proof.
  intros Hr Hw Ha Hm. split; [by eapply cost_le_maximum|]. split.
  - apply calculateCost_Ok in Ha as [_ ->]. unfold calculateMaximumCost in Hm.
    by apply throw_if_bind_Ok in Hm as [_ [= <-]].
  - exists (dearest_usage bound price). split; [by apply dearest_usage_cost|done].
Qed.

(** No token is charged twice or lost: [billableTokens] accepts exactly the
    usages made of counts whose details are within their totals, and its four
    buckets are counts that sum to the totals. *)
Theorem billable_partition usage :
  (is_ok (billableTokens usage) = true ↔ usage_ok usage) ∧
  ∀ t, billableTokens usage = Ok t →
    (to_bigint (bt_uncachedInputTokens t) + to_bigint (bt_cachedInputTokens t) =
       to_bigint (inputTokens usage))%Z ∧
    (to_bigint (bt_nonReasoningOutputTokens t) + to_bigint (bt_reasoningTokens t) =
       to_bigint (outputTokens usage))%Z ∧
    (0 <= to_bigint (bt_uncachedInputTokens t) ∧ 0 <= to_bigint (bt_nonReasoningOutputTokens t))%Z.
Proof.
  split.
  - rewrite is_ok_spec. setoid_rewrite billableTokens_Ok. naive_solver.
  - intros t [(Hf & Hc & Hr) ->]%billableTokens_Ok. simpl. rewrite !to_bigint_sub. lia.
Qed.

Definition sample_usage : ModelUsage :=
  {| inputTokens := NInt 900; cachedInputTokens := NInt 400; outputTokens := NInt 300;
     reasoningTokens := NNegZero |}.

Definition sample_bound : ModelUsageBound :=
  {| bound_inputTokens := NInt 1000; bound_outputTokens := NInt 300 |}.

Definition sample_price : ModelPrice :=
  {| mp_currency := EUR; inputPerMillionMicros := 3000000; cachedInputPerMillionMicros := 300000;
     outputPerMillionMicros := 15000000; reasoningPerMillionMicros := 15000000 |}.

Lemma maximum_cost_covers_witness :
  calculateCost sample_usage sample_price = Ok {| micros := 6120; currency := EUR |} ∧
  calculateMaximumCost sample_bound sample_price = Ok {| micros := 7500; currency := EUR |} ∧
  (0 <= 6120 <= 7500)%Z ∧ EUR = EUR ∧
  ∃ dearest, calculateCost dearest sample_price = Ok {| micros := 7500; currency := EUR |} ∧
    inputTokens dearest = bound_inputTokens sample_bound ∧
    outputTokens dearest = bound_outputTokens sample_bound.
Proof.
  split; [by vm_compute|]. split; [by vm_compute|].
  apply (maximum_cost_covers sample_usage sample_bound sample_price
    {| micros := 6120; currency := EUR |} {| micros := 7500; currency := EUR |});
    by vm_compute.
Defined.

End Cost.

(** * Governance *)

Module Governance.

Inductive GovernanceKind := milestone | requirement | adr.

Inductive GovernanceStatus :=
| planned | active | completed | cancelled | archived
| proposed | accepted | implemented | verified | rejected
| deprecated | superseded.

#[global] Instance GovernanceKind_eq_dec : EqDecision GovernanceKind.
Proof. solve_decision. Defined.
#[global] Instance GovernanceStatus_eq_dec : EqDecision GovernanceStatus.
Proof. solve_decision. Defined.

(** [MilestoneStatus], [RequirementStatus] and [AdrStatus]. *)
Definition statuses (kind : GovernanceKind) : list GovernanceStatus :=
  match kind with
  | milestone => [planned; active; completed; cancelled; archived]
  | requirement => [proposed; accepted; implemented; verified; rejected]
  | adr => [proposed; accepted; rejected; deprecated; superseded]
  end.

(** The table, [None] where it has no entry. *)
Definition governanceTransitions (kind : GovernanceKind) (from : GovernanceStatus)
    : option (list GovernanceStatus) :=
  match kind, from with
  | milestone, planned => Some [active; cancelled]
  | milestone, active => Some [completed; cancelled]
  | milestone, completed => Some [archived]
  | milestone, (cancelled | archived) => Some []
  | requirement, proposed => Some [accepted; rejected]
  | requirement, accepted => Some [implemented; rejected]
  | requirement, implemented => Some [verified]
  | requirement, (verified | rejected) => Some []
  | adr, proposed => Some [accepted; rejected]
  | adr, accepted => Some [deprecated; superseded]
  | adr, (rejected | deprecated | superseded) => Some []
  | _, _ => None
  end.

Definition isRequirementEditable (status : GovernanceStatus) : bool :=
  bool_decide (status = proposed).

Definition isGovernanceTransitionAllowed (kind : GovernanceKind) (from to : GovernanceStatus)
    : bool :=
  match governanceTransitions kind from with Some l => includes to l | None => false end.

(** The initial status of a record of each kind. *)
Definition initial (kind : GovernanceKind) : GovernanceStatus :=
  match kind with milestone => planned | _ => proposed end.

Definition edge (kind : GovernanceKind) (a b : GovernanceStatus) : Prop :=
  isGovernanceTransitionAllowed kind a b = true.

End Governance.
