(* ===== verification/BudgetModel.v ===== *)
(** Budgets, reservations and cost events: the SQLite cost repository as
    actions over its tables, each inside its own immediate transaction.  Models
    [packages/storage-sqlite/src/repositories/sqlite-cost.repository.ts] and
    the budget part of [packages/domain/src/cost/cost.ts] and
    [packages/application/src/ports/cost-repository.port.ts].

    Instants are milliseconds; the adapter compares their ISO texts, which
    order the same way from year 0 to 9999.  The foreign keys and ownership
    triggers towards tasks, agents and runs, tables of other components, are
    the parameter [references_exist]. *)
From S2P Require Import Prelude Errors CostModel.
Import Cost.

Module Budget.

(** * Data *)

Inductive BudgetScopeType := scope_project | scope_task | scope_agent | scope_agent_run.
Inductive CostChargeBasis := reported_usage | reserved_envelope.
Inductive reservation_status := active | consumed | released.

#[global] Instance BudgetScopeType_eq_dec : EqDecision BudgetScopeType.
Proof. solve_decision. Defined.
#[global] Instance CostChargeBasis_eq_dec : EqDecision CostChargeBasis.
Proof. solve_decision. Defined.
#[global] Instance reservation_status_eq_dec : EqDecision reservation_status.
Proof. solve_decision. Defined.

Record UsageContext := {
  uc_projectId : string;
  uc_taskId : option string;
  uc_agentId : option string;
  uc_agentRunId : option string;
  uc_purpose : string
}.

Record AuthorizeReservationInput := {
  ar_id : string;
  ar_projectId : string;
  ar_scopeType : BudgetScopeType;
  ar_scopeId : string;
  ar_currency : Currency;
  ar_amountMicros : Z;
  ar_agentRunId : option string;
  ar_now : Z;
  ar_expiresAt : Z
}.

Record RecordUsageAndCostInput := {
  ru_usageId : string;
  ru_costEventId : string;
  ru_context : UsageContext;
  ru_provider : string;
  ru_model : string;
  ru_providerRequestId : option string;
  ru_usage : ModelUsage;
  ru_pricingVersionId : string;
  ru_reservationId : option string;
  ru_reservationIds : option (list string);
  ru_estimated : CostAmount;
  ru_actual : CostAmount;
  ru_chargeBasis : option CostChargeBasis;
  ru_occurredAt : Z
}.

(** Rows of [budget], [budget_reservation], [model_usage] and [cost_event]. *)
Record BudgetRow := {
  b_id : string;
  b_project_id : string;
  b_scope_type : BudgetScopeType;
  b_scope_id : string;
  b_currency : Currency;
  b_limit_micros : Z
}.

Record ReservationRow := {
  r_budget_id : string;
  r_amount_micros : Z;
  r_status : reservation_status;
  r_expires_at : Z;
  r_finalized_at : option Z
}.

Record usage_row := {
  u_id : string;
  u_context : UsageContext;
  u_provider : string;
  u_model : string;
  u_provider_request_id : option string;
  u_usage : ModelUsage;
  u_occurred_at : Z
}.

Record cost_event := {
  ce_id : string;
  ce_project_id : string;
  ce_usage_id : string;
  ce_pricing_version_id : string;
  ce_reservation_id : option string;
  ce_estimated_micros : Z;
  ce_reserved_micros : Z;
  ce_actual_micros : Z;
  ce_overage_micros : Z;
  ce_currency : Currency;
  ce_charge_basis : CostChargeBasis;
  ce_occurred_at : Z
}.

Record cost_db := {
  pricing : list PricingVersion;
  budgets : list BudgetRow;
  reservations : gmap string ReservationRow;
  usages : list usage_row;
  events : list cost_event
}.

Definition set_reservations (f : gmap string ReservationRow → gmap string ReservationRow)
    (d : cost_db) : cost_db :=
  {| pricing := pricing d; budgets := budgets d; reservations := f (reservations d);
     usages := usages d; events := events d |}.

Definition add_usage (u : usage_row) (e : cost_event) (d : cost_db) : cost_db :=
  {| pricing := pricing d; budgets := budgets d; reservations := reservations d;
     usages := usages d ++ [u]; events := events d ++ [e] |}.

(** * Operations *)

(** [safe], [restoredInteger] and [safeCount]; the value itself is exact. *)
Definition safe (value : Z) : outcome Z :=
  throw_if ((value <? 0)%Z || (max_safe_integer <? value)%Z) MonetaryOverflowError;; Ok value.

Definition restoredInteger (value : Z) : outcome Z :=
  throw_if ((max_safe_integer <? Z.abs value)%Z || (value <? 0)%Z) MonetaryOverflowError;;
  Ok value.

Definition safeCount (value : number) : outcome number :=
  throw_if (negb (is_safe_integer value) || num_lt value 0) MonetaryOverflowError;; Ok value.

(** [immediate]: BEGIN IMMEDIATE, COMMIT, or ROLLBACK on a throw. *)
Definition immediate {A} (work : method cost_db A) : method cost_db A := transaction work.

(** [ORDER BY effective_from DESC LIMIT 1] of the versions in force. *)
Definition in_force (provider model : string) (at_ : Z) (p : PricingVersion) : bool :=
  bool_decide (pv_provider p = provider) && bool_decide (pv_model p = model) &&
  (default 0 (pv_effectiveFrom p) <=? at_)%Z &&
  match pv_effectiveTo p with None => true | Some t => (at_ <? default 0 t)%Z end.

Definition latest (l : list PricingVersion) : option PricingVersion :=
  foldl (λ best p, match best with
    | Some b => if (default 0 (pv_effectiveFrom b) <? default 0 (pv_effectiveFrom p))%Z
                then Some p else Some b
    | None => Some p
    end) None l.

Definition restorePricing (p : PricingVersion) : outcome PricingVersion :=
  restoredInteger (pv_inputPerMillionMicros p);;
  restoredInteger (pv_cachedInputPerMillionMicros p);;
  restoredInteger (pv_outputPerMillionMicros p);;
  restoredInteger (pv_reasoningPerMillionMicros p);; Ok p.

Definition sqlite_findPricing (provider model : string) (at_ : Z)
    : method cost_db (option PricingVersion) :=
  d ← get;
  match latest (filter (λ p, in_force provider model at_ p = true) (pricing d)) with
  | None => mret None
  | Some p => v ← lift (restorePricing p); mret (Some v)
  end.

Definition sum_by {A} (f : A → Z) (l : list A) : Z := foldr (λ x s, f x + s)%Z 0%Z l.

(** The usage row a cost event joins to has the budget's scope. *)
Definition in_scope (budget : BudgetRow) (u : usage_row) : bool :=
  let c := u_context u in
  let is_scope v := bool_decide (v = Some (b_scope_id budget)) in
  match b_scope_type budget with
  | scope_project => true
  | scope_task => is_scope (uc_taskId c)
  | scope_agent => is_scope (uc_agentId c)
  | scope_agent_run => is_scope (uc_agentRunId c)
  end.

Definition counts_against (budget : BudgetRow) (d : cost_db) (e : cost_event) : bool :=
  bool_decide (ce_project_id e = b_project_id budget) &&
  bool_decide (ce_currency e = b_currency budget) &&
  existsb (λ u, bool_decide (u_id u = ce_usage_id e) && in_scope budget u) (usages d).

(** The sums before [restoredInteger]. *)
Definition spent_sum (budget : BudgetRow) (d : cost_db) : Z :=
  sum_by ce_actual_micros (filter (λ e, counts_against budget d e = true) (events d)).

Definition is_reserved (budgetId : string) (at_ : Z) (r : ReservationRow) : bool :=
  bool_decide (r_budget_id r = budgetId) && bool_decide (r_status r = active) &&
  (at_ <? r_expires_at r)%Z.

Definition reserved_sum (budgetId : string) (at_ : Z) (d : cost_db) : Z :=
  sum_by r_amount_micros
    (filter (λ r, is_reserved budgetId at_ r = true) (map_to_list (reservations d)).*2).

Definition spentMicros (budget : BudgetRow) (d : cost_db) : outcome Z :=
  restoredInteger (spent_sum budget d).

Definition reservedMicros (budgetId : string) (at_ : Z) (d : cost_db) : outcome Z :=
  restoredInteger (reserved_sum budgetId at_ d).

Definition is_budget (projectId : string) (scope : BudgetScopeType) (scopeId : string)
    (currency : Currency) (b : BudgetRow) : bool :=
  bool_decide (b_project_id b = projectId) && bool_decide (b_scope_type b = scope) &&
  bool_decide (b_scope_id b = scopeId) && bool_decide (b_currency b = currency).

Definition find_budget (v : AuthorizeReservationInput) (d : cost_db) : option BudgetRow :=
  List.find (is_budget (ar_projectId v) (ar_scopeType v) (ar_scopeId v) (ar_currency v))
    (budgets d).

(** [ORDER BY currency] *)
Definition sqlite_listBudgetCurrencies (projectId : string) (scope : BudgetScopeType)
    (scopeId : string) : method cost_db (list Currency) :=
  d ← get;
  mret (filter (λ c, existsb (is_budget projectId scope scopeId c) (budgets d) = true) [EUR; USD]).

(** The checks of one reservation against the tables as they are. *)
Definition authorize (v : AuthorizeReservationInput) (d : cost_db) : outcome BudgetRow :=
  match find_budget v d with
  | None => Throw BudgetNotFoundError
  | Some budget =>
      safe (ar_amountMicros v);;
      spent ← spentMicros budget d;
      reserved ← reservedMicros (b_id budget) (ar_now v) d;
      limit ← restoredInteger (b_limit_micros budget);
      throw_if (limit <? spent + reserved + ar_amountMicros v)%Z BudgetExceededError;;
      Ok budget
  end.

Definition reservation_of (v : AuthorizeReservationInput) (budget : BudgetRow) : ReservationRow :=
  {| r_budget_id := b_id budget; r_amount_micros := ar_amountMicros v; r_status := active;
     r_expires_at := ar_expiresAt v; r_finalized_at := None |}.

(** INSERT INTO budget_reservation. *)
Definition insert_reservation (references_exist : UsageContext → bool)
    (v : AuthorizeReservationInput) (budget : BudgetRow) : method cost_db unit :=
  d ← get;
  refuse_if (bool_decide (is_Some (reservations d !! ar_id v)))
    (SqliteError "UNIQUE constraint failed: budget_reservation.id");;
  refuse_if (negb (references_exist {| uc_projectId := ar_projectId v; uc_taskId := None;
      uc_agentId := None; uc_agentRunId := ar_agentRunId v; uc_purpose := "" |}))
    (SqliteError "FOREIGN KEY constraint failed");;
  put (set_reservations <[ar_id v := reservation_of v budget]> d).

Definition sqlite_authorizeAndReserve (references_exist : UsageContext → bool)
    (v : AuthorizeReservationInput) : method cost_db unit :=
  refuse_if (ar_expiresAt v <=? ar_now v)%Z (ReservationExpiredError (ar_id v));;
  immediate (
    d ← get;
    budget ← lift (authorize v d);
    insert_reservation references_exist v budget).

(** Inserts the authorised rows in order. *)
Definition insert_all (references_exist : UsageContext → bool)
    : list (AuthorizeReservationInput * BudgetRow) → method cost_db unit :=
  fix go rows :=
    match rows with
    | [] => mret tt
    | (v, budget) :: rows => insert_reservation references_exist v budget;; go rows
    end.

(** Every reservation is authorised before the first one is inserted. *)
Definition sqlite_authorizeAndReserveMany (references_exist : UsageContext → bool)
    (input : list AuthorizeReservationInput) : method cost_db unit :=
  match List.find (λ v, (ar_expiresAt v <=? ar_now v)%Z) input with
  | Some invalid => mthrow (ReservationExpiredError (ar_id invalid))
  | None =>
      immediate (
        d ← get;
        rows ← lift (map_result (λ v, budget ← authorize v d; Ok (v, budget)) input);
        insert_all references_exist rows)
  end.

Definition finalize (status : reservation_status) (at_ : Z) (r : ReservationRow)
    : ReservationRow :=
  if bool_decide (r_status r = active) then
    {| r_budget_id := r_budget_id r; r_amount_micros := r_amount_micros r; r_status := status;
       r_expires_at := r_expires_at r; r_finalized_at := Some at_ |}
  else r.

Inductive release_result := was_released | already_released | was_consumed.

Definition sqlite_releaseReservation (id : string) (at_ : Z) : method cost_db release_result :=
  immediate (
    d ← get;
    match reservations d !! id with
    | None => mret already_released
    | Some row =>
        match r_status row with
        | consumed => mret was_consumed
        | released => mret already_released
        | active => put (set_reservations (alter (finalize released at_) id) d);; mret was_released
        end
    end).

Definition sqlite_releaseReservations (ids : list string) (at_ : Z) : method cost_db unit :=
  modify (set_reservations (λ m, foldl (λ m id, alter (finalize released at_) id m) m ids)).

(** [releaseExpiredReservations] *)
Definition sqlite_releaseExpiredReservations (at_ : Z) : method cost_db nat :=
  d ← get;
  let expired (r : ReservationRow) :=
    bool_decide (r_status r = active) && (r_expires_at r <=? at_)%Z in
  put (set_reservations (fmap (λ r, if expired r then finalize released at_ r else r)) d);;
  mret (length (filter (λ r, expired r = true) (map_to_list (reservations d)).*2)).

Inductive recording := recorded | duplicate.

#[global] Instance recording_eq_dec : EqDecision recording.
Proof. solve_decision. Defined.

(** The loop over the reservations: [None] when one is already consumed,
    otherwise the first amount. *)
Fixpoint check_reservations (ids : list string) (occurredAt : Z) (reserved : Z) (d : cost_db)
    : outcome (option Z) :=
  match ids with
  | [] => Ok (Some reserved)
  | id :: ids =>
      match reservations d !! id with
      | None => Throw (ReservationExpiredError id)
      | Some row =>
          throw_if (bool_decide (r_status row = released) || (r_expires_at row <=? occurredAt)%Z)
            (ReservationExpiredError id);;
          if bool_decide (r_status row = consumed) then Ok None
          else
            reserved ← (if (reserved =? 0)%Z then restoredInteger (r_amount_micros row)
                        else Ok reserved);
            check_reservations ids occurredAt reserved d
      end
  end.

(** UPDATE ... SET status='consumed' for each reservation, which must still be
    active. *)
Fixpoint consume_all (ids : list string) (at_ : Z) : method cost_db unit :=
  match ids with
  | [] => mret tt
  | id :: ids =>
      d ← get;
      refuse_if (negb (bool_decide (r_status <$> reservations d !! id = Some active)))
        (ReservationExpiredError id);;
      put (set_reservations (alter (finalize consumed at_) id) d);;
      consume_all ids at_
  end.

Definition is_recorded (v : RecordUsageAndCostInput) (d : cost_db) : bool :=
  existsb (λ u, bool_decide (u_id u = ru_usageId v)) (usages d) ||
  match ru_providerRequestId v with
  | Some request => existsb (λ u, bool_decide (u_provider u = ru_provider v) &&
      bool_decide (u_provider_request_id u = Some request)) (usages d)
  | None => false
  end.

Definition safe_usage (u : ModelUsage) : outcome unit :=
  safeCount (inputTokens u);; safeCount (cachedInputTokens u);;
  safeCount (outputTokens u);; safeCount (reasoningTokens u);; Ok tt.

(** [reservationIds ?? (reservationId === undefined ? [] : [reservationId])] *)
Definition reservation_ids (v : RecordUsageAndCostInput) : list string :=
  match ru_reservationIds v with
  | Some ids => ids
  | None => match ru_reservationId v with Some id => [id] | None => [] end
  end.

Definition overage (v : RecordUsageAndCostInput) (reserved : Z) : Z :=
  match ru_reservationId v with
  | Some _ => if (reserved <? micros (ru_actual v))%Z then (micros (ru_actual v) - reserved)%Z
              else 0%Z
  | None => 0%Z
  end.

Definition usage_row_of (v : RecordUsageAndCostInput) : usage_row :=
  {| u_id := ru_usageId v; u_context := ru_context v; u_provider := ru_provider v;
     u_model := ru_model v; u_provider_request_id := ru_providerRequestId v;
     u_usage := ru_usage v; u_occurred_at := ru_occurredAt v |}.

Definition cost_event_of (v : RecordUsageAndCostInput) (reserved : Z) : cost_event :=
  {| ce_id := ru_costEventId v; ce_project_id := uc_projectId (ru_context v);
     ce_usage_id := ru_usageId v; ce_pricing_version_id := ru_pricingVersionId v;
     ce_reservation_id := ru_reservationId v; ce_estimated_micros := micros (ru_estimated v);
     ce_reserved_micros := reserved; ce_actual_micros := micros (ru_actual v);
     ce_overage_micros := overage v reserved; ce_currency := currency (ru_actual v);
     ce_charge_basis := default reported_usage (ru_chargeBasis v);
     ce_occurred_at := ru_occurredAt v |}.

(** The duplicate-usage trigger repeats the second lookup, so its refusal,
    [DuplicateProviderUsageError], needs another connection. *)
Definition sqlite_recordUsageAndCost (references_exist : UsageContext → bool)
    (v : RecordUsageAndCostInput) : method cost_db recording :=
  immediate (
    d ← get;
    if is_recorded v d then mret duplicate
    else
      checked ← lift (check_reservations (reservation_ids v) (ru_occurredAt v) 0 d);
      match checked with
      | None => mret duplicate
      | Some reserved =>
          lift (safe_usage (ru_usage v));;
          refuse_if (negb (references_exist (ru_context v)))
            (SqliteError "model usage references must belong to the same project");;
          lift (safe (micros (ru_estimated v));; safe reserved;; safe (micros (ru_actual v));;
                safe (overage v reserved));;
          refuse_if (existsb (λ e, bool_decide (ce_id e = ru_costEventId v)) (events d))
            (SqliteError "UNIQUE constraint failed: cost_event.id");;
          put (add_usage (usage_row_of v) (cost_event_of v reserved) d);;
          consume_all (reservation_ids v) (ru_occurredAt v);;
          mret recorded
      end).

(** * The port *)

(** [CostRepository], the operations the gateway calls, with its two optional
    methods; and the status a reservation has in the state of an adapter. *)
Class CostRepository (S : Type) := {
  findPricing : string → string → Z → method S (option PricingVersion);
  listBudgetCurrencies : string → BudgetScopeType → string → method S (list Currency);
  authorizeAndReserve : AuthorizeReservationInput → method S unit;
  authorizeAndReserveMany : option (list AuthorizeReservationInput → method S unit);
  releaseReservation : string → Z → method S release_result;
  releaseReservations : option (list string → Z → method S unit);
  recordUsageAndCost : RecordUsageAndCostInput → method S recording;
  status_of : S → string → option reservation_status;
  events_of : S → list cost_event
}.

#[global] Instance SqliteCostRepository (references_exist : UsageContext → bool)
    : CostRepository cost_db := {|
  findPricing := sqlite_findPricing;
  listBudgetCurrencies := sqlite_listBudgetCurrencies;
  authorizeAndReserve := sqlite_authorizeAndReserve references_exist;
  authorizeAndReserveMany := Some (sqlite_authorizeAndReserveMany references_exist);
  releaseReservation := sqlite_releaseReservation;
  releaseReservations := Some sqlite_releaseReservations;
  recordUsageAndCost := sqlite_recordUsageAndCost references_exist;
  status_of d id := r_status <$> reservations d !! id;
  events_of := events
|}.

End Budget.
