(* ===== verification/BudgetLaws.v ===== *)
(** What the [CostRepository] port promises its clients, as the laws of a type
    class, and the proof that the SQLite adapter keeps them: reservations are
    created, released and consumed as a unit, a refusal changes nothing, and
    every recorded usage leaves exactly one cost event. *)
From S2P Require Import Prelude Errors CostModel BudgetModel.
Import Cost Budget.

Module BudgetLaws.

Section contract.
  Context {S : Type} `{CostRepository S}.
  Implicit Types s : S.

(** The statuses after [s] are those before, except that of [ids]. *)
Definition statuses_become (ids : list string) (st : reservation_status) (s s' : S) : Prop :=
  ∀ id, status_of s' id = if decide (id ∈ ids) then Some st else status_of s id.

Definition absent (ids : list string) (s : S) : Prop := ∀ id, id ∈ ids → status_of s id = None.

Definition reserve_contract (ids : list string) (s : S) (r : outcome unit) (s' : S) : Prop :=
  match r with
  | Ok _ => absent ids s ∧ statuses_become ids active s s' ∧ events_of s' = events_of s
  | Throw _ => s' = s
  end.

Definition release_contract (ids : list string) (s s' : S) : Prop :=
  events_of s' = events_of s ∧
  ∀ id, status_of s' id = if decide (id ∈ ids ∧ status_of s id = Some active)
                          then Some released else status_of s id.

(** The cost event of a recorded usage. *)
Definition event_for (v : RecordUsageAndCostInput) (e : cost_event) : Prop :=
  ce_id e = ru_costEventId v ∧ ce_usage_id e = ru_usageId v ∧
  ce_project_id e = uc_projectId (ru_context v) ∧
  ce_pricing_version_id e = ru_pricingVersionId v ∧
  ce_reservation_id e = ru_reservationId v ∧
  ce_actual_micros e = micros (ru_actual v) ∧ ce_currency e = currency (ru_actual v) ∧
  ce_charge_basis e = default reported_usage (ru_chargeBasis v).

Definition record_contract (v : RecordUsageAndCostInput) (s : S) (r : outcome recording) (s' : S)
    : Prop :=
  match r with
  | Ok recorded =>
      (∀ id, id ∈ reservation_ids v → status_of s id = Some active) ∧
      statuses_become (reservation_ids v) consumed s s' ∧
      ∃ e, event_for v e ∧ events_of s' = events_of s ++ [e]
  | Ok duplicate | Throw _ => s' = s
  end.

End contract.

(** No rate is negative. *)
Definition pricing_ok (p : PricingVersion) : Prop :=
  (0 <= pv_inputPerMillionMicros p)%Z ∧ (0 <= pv_cachedInputPerMillionMicros p)%Z ∧
  (0 <= pv_outputPerMillionMicros p)%Z ∧ (0 <= pv_reasoningPerMillionMicros p)%Z.

Class CostRepositoryLaws (S : Type) `{CostRepository S} : Prop := {
  law_pricing provider model at_ : readonly (findPricing (S := S) provider model at_);
  law_rates provider model at_ (s s' : S) p :
    findPricing provider model at_ s = (Ok (Some p), s') → pricing_ok p;
  law_currencies p scope id : readonly (listBudgetCurrencies (S := S) p scope id);
  law_reserve v (s : S) r s' :
    authorizeAndReserve v s = (r, s') → reserve_contract [ar_id v] s r s';
  law_reserve_many many vs (s : S) r s' :
    authorizeAndReserveMany = Some many → many vs s = (r, s') →
    reserve_contract (ar_id <$> vs) s r s';
  law_release id at_ (s : S) :
    ∃ r s', releaseReservation id at_ s = (Ok r, s') ∧ release_contract [id] s s';
  law_release_many many ids at_ (s : S) :
    releaseReservations = Some many →
    ∃ s', many ids at_ s = (Ok tt, s') ∧ release_contract ids s s';
  law_record v (s : S) r s' : recordUsageAndCost v s = (r, s') → record_contract v s r s'
}.

(** * The SQLite adapter keeps the contract *)

Section sqlite.
  Context (references_exist : UsageContext → bool).

#[local] Instance sqlite_repository : CostRepository cost_db :=
  SqliteCostRepository references_exist.

Lemma immediate_Ok {A} (m : method cost_db A) d a d' :
  immediate m d = (Ok a, d') → m d = (Ok a, d').
Proof. apply transaction_Ok. Qed.

Lemma immediate_Throw {A} (m : method cost_db A) d e d' : immediate m d = (Throw e, d') → d' = d.
Proof. by intros [-> _]%transaction_Throw. Qed.

Abbreviation status d id := (r_status <$> reservations d !! id).

Lemma insert_reservation_Ok v b d u d' :
  insert_reservation references_exist v b d = (Ok u, d') →
  status d (ar_id v) = None ∧
  d' = set_reservations <[ar_id v := reservation_of v b]> d.
Proof.
  unfold insert_reservation. rewrite get_bind.
  intros (Hn & (_ & Hp)%refuse_if_bind_Ok)%refuse_if_bind_Ok.
  apply bool_decide_eq_false, eq_None_not_Some in Hn. injection Hp as _ <-. by rewrite Hn.
Qed.

Lemma statuses_insert v b d :
  ∀ id, status (set_reservations <[ar_id v := reservation_of v b]> d) id =
        if decide (id = ar_id v) then Some active else status d id.
Proof.
  intros id. simpl. case_decide as Hid; [subst; by rewrite lookup_insert_eq|].
  by rewrite lookup_insert_ne.
Qed.

Lemma insert_all_Ok rows d u d' :
  insert_all references_exist rows d = (Ok u, d') →
  (∀ id, id ∈ ar_id <$> rows.*1 → status d id = None) ∧
  (∀ id, status d' id = if decide (id ∈ ar_id <$> rows.*1) then Some active else status d id) ∧
  events d' = events d.
Proof.
  revert d. induction rows as [|[v b] rows IH]; intros d.
  - intros [= _ <-]. split_and!; [by intros id ?%elem_of_nil| |done]. intros id.
    by case_decide as Hid; [apply elem_of_nil in Hid|].
  - cbn [insert_all fmap list_fmap]. intros (u1 & d1 & [Hn ->]%insert_reservation_Ok & Hrest)%action_bind_Ok.
    apply IH in Hrest as (Habs & Hst & Hev). split_and!; [| |done].
    + intros id [->|Hid]%elem_of_cons; [done|]. specialize (Habs id Hid).
      rewrite statuses_insert in Habs. by case_decide.
    + intros id. rewrite Hst, statuses_insert.
      repeat case_decide; set_solver.
Qed.

Lemma release_contract_alter ids at_ d :
  release_contract ids d
    (set_reservations (λ m, foldl (λ m id, alter (finalize released at_) id m) m ids) d).
Proof.
  split; [done|]. simpl. generalize (reservations d). clear d.
  induction ids as [|i ids IH]; intros m id.
  - by case_decide as Hid; [destruct Hid as [?%elem_of_nil _]|].
  - cbn [foldl]. rewrite IH. destruct (decide (id = i)) as [->|Hne].
    + rewrite lookup_alter_eq. destruct (m !! i) as [[? ? [] ? ?]|]; cbn;
        repeat case_decide; set_solver.
    + rewrite lookup_alter_ne by done. repeat case_decide; set_solver.
Qed.

Lemma releaseReservation_total id at_ d :
  ∃ r d', sqlite_releaseReservation id at_ d = (Ok r, d') ∧ release_contract [id] d d'.
Proof.
  pose proof (release_contract_alter [id] at_ d) as Hall. simpl in Hall.
  unfold sqlite_releaseReservation, immediate.
  assert (∀ s', status d id ≠ Some active → s' = d → release_contract [id] d s') as Hsame.
  { intros s' Hst ->. split; [done|]. intros id'. rewrite decide_False; [done|].
    intros [->%list_elem_of_singleton ?]. done. }
  destruct (reservations d !! id) as [row|] eqn:Hrow;
    [destruct (r_status row) eqn:Hst|].
  - eexists was_released, _. unfold transaction. rewrite get_bind. cbn beta.
    rewrite Hrow, Hst. by split.
  - eexists was_consumed, d. unfold transaction. rewrite get_bind. cbn beta.
    rewrite Hrow, Hst. split; [done|]. apply Hsame; [simpl; congruence|done].
  - eexists already_released, d. unfold transaction. rewrite get_bind. cbn beta.
    rewrite Hrow, Hst. split; [done|]. apply Hsame; [simpl; congruence|done].
  - eexists already_released, d. unfold transaction. rewrite get_bind. cbn beta.
    rewrite Hrow. split; [done|]. by apply Hsame.
Qed.

Lemma consume_all_Ok ids at_ d u d' :
  consume_all ids at_ d = (Ok u, d') →
  (∀ id, id ∈ ids → status d id = Some active) ∧
  (∀ id, status d' id = if decide (id ∈ ids) then Some consumed else status d id) ∧
  events d' = events d.
Proof.
  revert d. induction ids as [|i ids IH]; intros d.
  - intros [= _ <-]. split_and!; [by intros id ?%elem_of_nil| |done]. intros id.
    by case_decide as Hid; [apply elem_of_nil in Hid|].
  - cbn [consume_all]. rewrite get_bind. intros [Ha Hrest]%refuse_if_bind_Ok.
    apply negb_false_iff, bool_decide_eq_true in Ha.
    apply action_bind_Ok in Hrest as ([] & d1 & [= <-] & Hrest).
    apply IH in Hrest as (Hact & Hst & Hev). simpl in *.
    assert (∀ id, status (set_reservations (alter (finalize consumed at_) i) d) id =
                  if decide (id = i) then Some consumed else status d id) as Hi.
    { intros id. simpl. case_decide as Hid; [subst|by rewrite lookup_alter_ne].
      rewrite lookup_alter_eq. destruct (reservations d !! i) as [row|]; [|done].
      injection Ha as Ha. unfold finalize. simpl. by rewrite bool_decide_true. }
    split_and!; [| |done].
    + intros id [->|Hid]%elem_of_cons; [done|]. specialize (Hact id Hid).
      pose proof (Hi id) as Hi'. simpl in Hi'. rewrite Hi' in Hact. by case_decide.
    + intros id. rewrite Hst. pose proof (Hi id) as Hi'. simpl in Hi'. rewrite Hi'.
      repeat case_decide; set_solver.
Qed.

Lemma map_result_pairs (f : AuthorizeReservationInput → outcome BudgetRow) vs rows :
  map_result (λ v, budget ← f v; Ok (v, budget)) vs = Ok rows → rows.*1 = vs.
Proof.
  revert rows. induction vs as [|v vs IH]; intros rows; simpl; [by intros [= <-]|].
  intros (r & (b & _ & [= <-])%bind_Ok & (l & Hl & [= <-])%bind_Ok)%bind_Ok.
  rewrite <- (IH l Hl). done.
Qed.

Lemma recordUsageAndCost_contract v d r d' :
  sqlite_recordUsageAndCost references_exist v d = (r, d') → record_contract v d r d'.
Proof.
  unfold sqlite_recordUsageAndCost. destruct r as [r|e].
  - intros (d0 & d1 & [= <- <-] & Hr)%immediate_Ok%action_bind_Ok.
    destruct (is_recorded v d); [by injection Hr as <- <-|].
    apply action_bind_Ok in Hr as (checked & d2 & [= _ <-] & Hr).
    destruct checked as [reserved|]; [|by injection Hr as <- <-].
    apply action_bind_Ok in Hr as ([] & d3 & [= _ <-] & Hr).
    apply refuse_if_bind_Ok in Hr as [_ Hr].
    apply action_bind_Ok in Hr as (z & d4 & [= _ <-] & Hr).
    apply refuse_if_bind_Ok in Hr as [_ Hr].
    apply action_bind_Ok in Hr as ([] & d5 & [= <-] & Hr).
    apply action_bind_Ok in Hr as ([] & d6 & (Ha & Hst & Hev)%consume_all_Ok & [= <- <-]).
    split; [exact Ha|]. split; [exact Hst|].
    exists (cost_event_of v reserved). split; [by repeat split|exact Hev].
  - by intros ->%immediate_Throw.
Qed.

Lemma restoredInteger_Ok z z' : restoredInteger z = Ok z' → (0 <= z)%Z.
Proof.
  unfold restoredInteger. intros [Hz _]%throw_if_bind_Ok. apply orb_false_iff in Hz as [_ Hz].
  lia.
Qed.

Lemma restorePricing_Ok p p' : restorePricing p = Ok p' → pricing_ok p'.
Proof.
  unfold restorePricing.
  intros (? & ?%restoredInteger_Ok & (? & ?%restoredInteger_Ok & (? & ?%restoredInteger_Ok &
    (? & ?%restoredInteger_Ok & [= <-])%bind_Ok)%bind_Ok)%bind_Ok)%bind_Ok. by repeat split.
Qed.

#[export] Instance sqlite_cost_laws : @CostRepositoryLaws cost_db (SqliteCostRepository references_exist).
Proof.
  split; simpl.
  - intros p m t. unfold sqlite_findPricing. apply readonly_bind; [auto with ts|]. intros d.
    case_match; auto with ts.
  - intros p m t d d' v. unfold sqlite_findPricing.
    intros (d0 & d1 & [= <- <-] & Hr)%action_bind_Ok. case_match; [|discriminate].
    apply action_bind_Ok in Hr as (v' & d2 & Hv & [= <- <-]). injection Hv as Hv _.
    by apply restorePricing_Ok in Hv.
  - intros. unfold sqlite_listBudgetCurrencies. auto with ts.
  - intros v d [[]|e] d'.
    + intros [_ Hr]%refuse_if_bind_Ok. apply immediate_Ok in Hr.
      apply action_bind_Ok in Hr as (d0 & d2 & [= <- <-] & Hr).
      apply action_bind_Ok in Hr as (b & d1 & [= _ <-] & Hins).
      pose proof (insert_all_Ok [(v, b)] d tt d') as Hall. simpl in Hall.
      apply Hall. unfold mbind, action_bind. by rewrite Hins.
    + by intros [[= _ <-]|(? & d1 & [= _ <-] & ->%immediate_Throw)]%action_bind_Throw.
  - intros many vs d r d' [= <-]. unfold sqlite_authorizeAndReserveMany.
    case_match; [by intros [= <- <-]|]. destruct r as [u|e].
    + intros (d0 & d2 & [= <- <-] & Hr)%immediate_Ok%action_bind_Ok.
      apply action_bind_Ok in Hr as (rows & d1 & [= Hrows <-] & Hins).
      apply insert_all_Ok in Hins. by rewrite (map_result_pairs _ _ _ Hrows) in Hins.
    + by intros ->%immediate_Throw.
  - intros. apply releaseReservation_total.
  - intros many ids at_ d [= <-]. eexists. split; [done|]. apply release_contract_alter.
  - intros. by apply recordUsageAndCost_contract.
Qed.

End sqlite.

End BudgetLaws.
