(* ===== verification/BudgetSafety.v ===== *)
(** Budgets are never overspent: over every history of reservations, releases,
    expiries and recorded usages on the SQLite tables, what a budget has spent
    and reserved stays within its limit, as long as each usage that counts
    against it is covered by the reservations it consumes. *)
From S2P Require Import Prelude Errors CostModel BudgetModel BudgetLaws.
Import Cost Budget BudgetLaws.

Module BudgetSafety.

#[local] Open Scope Z_scope.

(** * Sums *)

Lemma sum_by_app {A} (f : A → Z) l k : sum_by f (l ++ k) = sum_by f l + sum_by f k.
Proof. induction l as [|x l IH]; simpl; [done|]. rewrite IH. lia. Qed.

Lemma sum_by_perm {A} (f : A → Z) l k : l ≡ₚ k → sum_by f l = sum_by f k.
Proof. induction 1; simpl; lia. Qed.

(** What a row contributes to [reserved_sum]. *)
Definition contribution (budgetId : string) (at_ : Z) (r : ReservationRow) : Z :=
  if is_reserved budgetId at_ r then r_amount_micros r else 0.

Definition total (f : ReservationRow → Z) (m : gmap string ReservationRow) : Z :=
  sum_by f (map_to_list m).*2.

Lemma sum_by_filter {A} (f : A → Z) (P : A → bool) l :
  sum_by f (filter (λ x, P x = true) l) = sum_by (λ x, if P x then f x else 0) l.
Proof.
  induction l as [|x l IH]; simpl; [done|]. rewrite filter_cons. case_decide as HP.
  - rewrite HP. simpl. lia.
  - destruct (P x); [done|]. lia.
Qed.

Lemma reserved_sum_total budgetId at_ d :
  reserved_sum budgetId at_ d = total (contribution budgetId at_) (reservations d).
Proof. apply sum_by_filter. Qed.

Lemma total_insert f m id row :
  m !! id = None → total f (<[id := row]> m) = f row + total f m.
Proof.
  intros Hm. unfold total. rewrite (sum_by_perm f _ ((id, row) :: map_to_list m).*2); [done|].
  by rewrite map_to_list_insert.
Qed.

Lemma total_delete f m id row :
  m !! id = Some row → total f m = f row + total f (delete id m).
Proof.
  intros Hm. rewrite <- (total_insert f (delete id m) id row) by apply lookup_delete_eq.
  by rewrite insert_delete_eq, insert_id.
Qed.

Lemma total_alter f g m id row :
  m !! id = Some row → total f (alter g id m) = total f m - f row + f (g row).
Proof.
  intros Hm. rewrite (total_delete f m id row Hm).
  rewrite (total_delete f (alter g id m) id (g row)) by by rewrite lookup_alter_eq, Hm.
  rewrite delete_alter_eq. lia.
Qed.

(** Changing rows by a function that never raises a contribution. *)
Lemma total_le f (m m' : gmap string ReservationRow) :
  (∀ id, match m !! id, m' !! id with
         | Some r, Some r' => f r' <= f r
         | None, None => True
         | _, _ => False
         end) → total f m' <= total f m.
Proof.
  revert m'. induction m as [|id row m Hm IH] using map_ind; intros m' Hall.
  - replace m' with (∅ : gmap string ReservationRow); [done|]. apply map_eq. intros id.
    specialize (Hall id). rewrite lookup_empty in *. by destruct (m' !! id).
  - pose proof (Hall id) as Hid. rewrite lookup_insert_eq in Hid.
    destruct (m' !! id) as [row'|] eqn:Hm'; [|done].
    rewrite total_insert, (total_delete f m' id row' Hm') by done.
    enough (total f (delete id m') <= total f m) by lia. apply IH. intros id'.
    destruct (decide (id' = id)) as [->|Hne].
    + by rewrite lookup_delete_eq, Hm.
    + specialize (Hall id'). by rewrite lookup_delete_ne, lookup_insert_ne in *.
Qed.

(** Pointwise comparison of two contributions. *)
Lemma sum_by_mono {A} (f g : A → Z) l : (∀ x, x ∈ l → f x <= g x) → sum_by f l <= sum_by g l.
Proof.
  induction l as [|x l IH]; intros Hle; simpl; [done|].
  pose proof (Hle x ltac:(left)). assert (sum_by f l <= sum_by g l); [|lia].
  apply IH. intros y Hy. apply Hle. by right.
Qed.

Lemma sum_by_ext {A} (f g : A → Z) l : (∀ x, x ∈ l → f x = g x) → sum_by f l = sum_by g l.
Proof. intros Hfg. apply Z.le_antisymm; apply sum_by_mono; intros x Hx; by rewrite Hfg. Qed.

(** * The invariant *)

(** Keys are unique, amounts are not negative, and events name their usage. *)
Record ledger_ok (d : cost_db) : Prop := {
  lo_budget_ids : NoDup (b_id <$> budgets d);
  lo_amounts : map_Forall (λ _ r, 0 <= r_amount_micros r) (reservations d);
  lo_usages e : e ∈ events d → ce_usage_id e ∈ u_id <$> usages d
}.

(** What is spent and, at the instant, reserved. *)
Definition committed (b : BudgetRow) (at_ : Z) (d : cost_db) : Z :=
  spent_sum b d + reserved_sum (b_id b) at_ d.

Lemma contribution_pos id at_ r : 0 <= r_amount_micros r → 0 <= contribution id at_ r.
Proof. unfold contribution. case_match; lia. Qed.


(** ** Time *)

Lemma contribution_later id t t' r :
  t <= t' → 0 <= r_amount_micros r → contribution id t' r <= contribution id t r.
Proof.
  intros Ht Hr. unfold contribution, is_reserved.
  destruct (bool_decide _), (bool_decide _); simpl; try lia.
  destruct (t' <? r_expires_at r) eqn:Hlt; destruct (t <? r_expires_at r) eqn:Hlt'; lia.
Qed.

Lemma amounts_list d r :
  map_Forall (λ _ r, 0 <= r_amount_micros r) (reservations d) →
  r ∈ (map_to_list (reservations d)).*2 → 0 <= r_amount_micros r.
Proof.
  intros Hall ([id r'] & -> & Hin)%list_elem_of_fmap. apply elem_of_map_to_list in Hin.
  by apply (Hall id).
Qed.

Lemma committed_later b t t' d :
  ledger_ok d → t <= t' → committed b t' d <= committed b t d.
Proof.
  intros Hok Ht. unfold committed. rewrite !reserved_sum_total. unfold total.
  enough (sum_by (contribution (b_id b) t') (map_to_list (reservations d)).*2 <=
          sum_by (contribution (b_id b) t) (map_to_list (reservations d)).*2) by lia.
  apply sum_by_mono. intros r Hr. apply contribution_later; [done|].
  eapply amounts_list; [apply Hok|done].
Qed.

Lemma spent_le_committed b t d : ledger_ok d → spent_sum b d <= committed b t d.
Proof.
  intros Hok. unfold committed. rewrite reserved_sum_total. unfold total.
  assert (sum_by (λ _ : ReservationRow, 0) (map_to_list (reservations d)).*2 = 0) as Hz.
  { generalize (map_to_list (reservations d)).*2. intros l. induction l; simpl; lia. }
  enough (0 <= sum_by (contribution (b_id b) t) (map_to_list (reservations d)).*2) by lia.
  rewrite <- Hz at 1. apply sum_by_mono. intros r Hr. apply contribution_pos.
  eapply amounts_list; [apply Hok|done].
Qed.

(** ** Reserving *)

Section reserving.
  Context (references_exist : UsageContext → bool).

(** What the inserted rows can add to the budget. *)
Definition charged (b : BudgetRow) (rows : list (AuthorizeReservationInput * BudgetRow)) : Z :=
  sum_by (λ row, if bool_decide (b_id row.2 = b_id b) then ar_amountMicros row.1 else 0) rows.

Lemma charged_cons b row rows :
  charged b (row :: rows) =
  (if bool_decide (b_id row.2 = b_id b) then ar_amountMicros row.1 else 0) + charged b rows.
Proof. done. Qed.

Lemma spent_set_reservations b f d : spent_sum b (set_reservations f d) = spent_sum b d.
Proof. done. Qed.

Lemma insert_all_charged b t rows d u d' :
  Forall (λ row, 0 <= ar_amountMicros row.1) rows → ledger_ok d →
  insert_all references_exist rows d = (Ok u, d') →
  ledger_ok d' ∧ budgets d' = budgets d ∧
  committed b t d' <= committed b t d + charged b rows.
Proof.
  intros Hpos. revert d. induction rows as [|[v b'] rows IH]; intros d Hok.
  - intros [= _ <-]. split_and!; [done..|]. unfold charged. simpl. lia.
  - apply Forall_cons in Hpos as [Hv Hpos]. simpl in Hv. cbn [insert_all].
    intros (u1 & d1 & [Hn ->]%insert_reservation_Ok & Hrest)%action_bind_Ok.
    apply fmap_None in Hn.
    assert (ledger_ok (set_reservations <[ar_id v := reservation_of v b']> d)) as Hok1.
    { destruct Hok as [? Ha ?]. split; [done| |done]. by apply map_Forall_insert_2. }
    apply (IH Hpos _ Hok1) in Hrest as (Hok' & Hb & Hle). split_and!; [done..|].
    rewrite charged_cons. unfold committed in *. rewrite !reserved_sum_total in *.
    rewrite spent_set_reservations in Hle. cbn [reservations set_reservations fst snd] in *.
    rewrite total_insert in Hle by done.
    enough (contribution (b_id b) t (reservation_of v b') <=
            if bool_decide (b_id b' = b_id b) then ar_amountMicros v else 0) by lia.
    unfold contribution, is_reserved. cbn. repeat case_bool_decide; simpl; try lia.
    case_match; lia.
Qed.

Lemma charged_room b room rows :
  0 <= room → NoDup ((λ row : AuthorizeReservationInput * BudgetRow, b_id row.2) <$> rows) →
  (∀ row, row ∈ rows → b_id row.2 = b_id b → ar_amountMicros row.1 <= room) →
  charged b rows <= room.
Proof.
  intros Hroom. induction rows as [|row rows IH]; intros Hnd Hall; [done|].
  cbn [fmap list_fmap] in Hnd. apply NoDup_cons in Hnd as [Hnin Hnd].
  rewrite charged_cons. case_bool_decide as Heq.
  - specialize (Hall row ltac:(left) Heq). enough (charged b rows = 0) by lia.
    clear - Hnin Heq. induction rows as [|r rows IH]; [done|].
    cbn [fmap list_fmap] in Hnin. apply not_elem_of_cons in Hnin as [Hne Hnin].
    rewrite charged_cons, bool_decide_false by congruence. by rewrite IH.
  - enough (charged b rows <= room) by lia. apply IH; [done|]. intros r Hr. apply Hall. by right.
Qed.

(** What [authorize] checked. *)
Lemma authorize_Ok v d b :
  authorize v d = Ok b →
  b ∈ budgets d ∧
  is_budget (ar_projectId v) (ar_scopeType v) (ar_scopeId v) (ar_currency v) b = true ∧
  0 <= ar_amountMicros v ∧
  committed b (ar_now v) d + ar_amountMicros v <= b_limit_micros b.
Proof.
  unfold authorize. destruct (find_budget v d) as [b'|] eqn:Hf; [|done].
  apply List.find_some in Hf as [Hin Hkey].
  intros (? & Hsafe & (sp & Hsp & (re & Hre & (l & Hl & Hrest)%bind_Ok)%bind_Ok)%bind_Ok)%bind_Ok.
  apply throw_if_bind_Ok in Hrest as [Hle [= <-]].
  unfold safe in Hsafe. apply throw_if_bind_Ok in Hsafe as [Hpos _]. apply orb_false_iff in Hpos as [Hpos _].
  unfold spentMicros, reservedMicros, restoredInteger in *.
  apply throw_if_bind_Ok in Hsp as [_ [= <-]]. apply throw_if_bind_Ok in Hre as [_ [= <-]].
  apply throw_if_bind_Ok in Hl as [_ [= <-]].
  split_and!; [by apply list_elem_of_In|done|lia|unfold committed; lia].
Qed.

(** The columns of the UNIQUE constraint on [budget]. *)
Definition key_of (b : BudgetRow) : string * BudgetScopeType * string * Currency :=
  (b_project_id b, b_scope_type b, b_scope_id b, b_currency b).
Definition input_key (v : AuthorizeReservationInput)
    : string * BudgetScopeType * string * Currency :=
  (ar_projectId v, ar_scopeType v, ar_scopeId v, ar_currency v).

Lemma is_budget_key v b :
  is_budget (ar_projectId v) (ar_scopeType v) (ar_scopeId v) (ar_currency v) b = true →
  input_key v = key_of b.
Proof.
  unfold is_budget, input_key, key_of. rewrite !andb_true_iff, !bool_decide_eq_true.
  by intros [[[-> ->] ->] ->].
Qed.

Lemma budget_id_inj d b b' :
  ledger_ok d → b ∈ budgets d → b' ∈ budgets d → b_id b = b_id b' → b = b'.
Proof.
  intros [Hnd _ _]. induction (budgets d) as [|c l IH]; [by intros ?%elem_of_nil|].
  cbn [fmap list_fmap] in Hnd. apply NoDup_cons in Hnd as [Hn Hnd].
  intros [->|Hb]%elem_of_cons [->|Hb']%elem_of_cons Heq; [done| | |by apply IH].
  - destruct Hn. rewrite Heq. apply list_elem_of_fmap. eauto.
  - destruct Hn. rewrite <- Heq. apply list_elem_of_fmap. eauto.
Qed.

Lemma NoDup_coarser {A B C} (f : A → B) (g : A → C) l :
  NoDup (f <$> l) → (∀ x y, x ∈ l → y ∈ l → g x = g y → f x = f y) → NoDup (g <$> l).
Proof.
  induction l as [|x l IH]; [constructor|]. cbn [fmap list_fmap].
  intros [Hn Hnd]%NoDup_cons Hfg. apply NoDup_cons. split.
  - intros (y & Hy & Hin)%list_elem_of_fmap. destruct Hn. apply list_elem_of_fmap.
    exists y. split; [|done]. apply Hfg; [by left|by right|done].
  - apply IH; [done|]. intros y z Hy Hz. apply Hfg; by right.
Qed.

(** Rows that were authorised, at most one for each budget. *)
Lemma authorized_fit t d rows b :
  ledger_ok d → Forall (λ row, authorize row.1 d = Ok row.2 ∧ ar_now row.1 = t) rows →
  NoDup (input_key <$> rows.*1) → b ∈ budgets d →
  committed b t d <= b_limit_micros b →
  Forall (λ row, 0 <= ar_amountMicros row.1) rows ∧
  committed b t d + charged b rows <= b_limit_micros b.
Proof.
  intros Hok Hall Hnd Hb Hle. rewrite Forall_forall in Hall. split.
  { apply Forall_forall. intros row Hrow. destruct (Hall row Hrow) as [Ha _].
    by apply authorize_Ok in Ha as (_ & _ & ? & _). }
  enough (charged b rows <= b_limit_micros b - committed b t d) by lia.
  apply charged_room; [lia| |].
  - rewrite <- list_fmap_compose in Hnd. eapply NoDup_coarser; [exact Hnd|].
    intros x y Hx Hy Heq. cbn. destruct (Hall x Hx) as [Ha _], (Hall y Hy) as [Ha' _].
    apply authorize_Ok in Ha as (Hbx & Hkx%is_budget_key & _).
    apply authorize_Ok in Ha' as (Hby & Hky%is_budget_key & _).
    rewrite Hkx, Hky. f_equal. by eapply budget_id_inj.
  - intros row Hrow Heq. destruct (Hall row Hrow) as [Ha Hnow].
    apply authorize_Ok in Ha as (Hbr & _ & _ & Hfit).
    rewrite (budget_id_inj d _ _ Hok Hbr Hb Heq), Hnow in Hfit. lia.
Qed.

(** What every step keeps. *)
Definition keeps (t : Z) (d d' : cost_db) : Prop :=
  ledger_ok d' ∧ budgets d' = budgets d ∧
  ∀ b, b ∈ budgets d → committed b t d <= b_limit_micros b →
       committed b t d' <= b_limit_micros b.

Lemma keeps_refl t d : ledger_ok d → keeps t d d.
Proof. intros Hok. split; [done|]. split; [done|]. auto. Qed.

Lemma keeps_lower t d d' :
  ledger_ok d' → budgets d' = budgets d → (∀ b, b ∈ budgets d → committed b t d' <= committed b t d) →
  keeps t d d'.
Proof.
  intros ? ? Hle. split; [done|]. split; [done|]. intros b Hb. specialize (Hle b Hb). lia.
Qed.

Lemma inserted_keeps t rows d u d' :
  ledger_ok d → Forall (λ row, authorize row.1 d = Ok row.2 ∧ ar_now row.1 = t) rows →
  NoDup (input_key <$> rows.*1) →
  insert_all references_exist rows d = (Ok u, d') → keeps t d d'.
Proof.
  intros Hok Hall Hnd Hins.
  assert (Forall (λ row, 0 <= ar_amountMicros row.1) rows) as Hpos.
  { apply Forall_forall. intros row Hrow. rewrite Forall_forall in Hall.
    destruct (Hall row Hrow) as [Ha _]. by apply authorize_Ok in Ha as (_ & _ & ? & _). }
  assert (∀ b, ledger_ok d' ∧ budgets d' = budgets d ∧
               committed b t d' <= committed b t d + charged b rows) as Hb.
  { intros b. by eapply insert_all_charged. }
  destruct rows as [|row rows]; [injection Hins as _ <-; by apply keeps_refl|].
  destruct (Hb row.2) as (Hok' & Hbud & _). split; [done|]. split; [done|].
  intros b Hin Hle. destruct (Hb b) as (_ & _ & Hc).
  destruct (authorized_fit t d _ b Hok Hall Hnd Hin Hle) as [_ Hfit]. lia.
Qed.

Lemma reserve_keeps v d r d' :
  ledger_ok d → sqlite_authorizeAndReserve references_exist v d = (r, d') → keeps (ar_now v) d d'.
Proof.
  intros Hok Hr. destruct r as [u|e].
  - apply refuse_if_bind_Ok in Hr as [_ Hr%immediate_Ok].
    apply action_bind_Ok in Hr as (d0 & d2 & [= <- <-] & Hr).
    apply action_bind_Ok in Hr as (b & d1 & [= Ha <-] & Hins).
    eapply (inserted_keeps _ [(v, b)]); [done|..].
    + by apply Forall_singleton.
    + apply NoDup_singleton.
    + cbn [insert_all]. unfold mbind, action_bind. by rewrite Hins.
  - pose proof (law_reserve (CostRepositoryLaws := sqlite_cost_laws references_exist) v d _ _ Hr)
      as Hlaw. simpl in Hlaw. subst. by apply keeps_refl.
Qed.

Lemma reserve_many_keeps t vs d r d' :
  ledger_ok d → Forall (λ v, ar_now v = t) vs → NoDup (input_key <$> vs) →
  sqlite_authorizeAndReserveMany references_exist vs d = (r, d') → keeps t d d'.
Proof.
  intros Hok Hnow Hnd Hr. destruct r as [u|e].
  - unfold sqlite_authorizeAndReserveMany in Hr. destruct (List.find _ vs); [done|].
    apply immediate_Ok, action_bind_Ok in Hr as (d0 & d2 & [= <- <-] & Hr).
    apply action_bind_Ok in Hr as (rows & d1 & [= Hrows <-] & Hins).
    rewrite <- (map_result_pairs _ _ _ Hrows) in Hnd. eapply inserted_keeps; [done| |done..].
    apply map_result_Ok in Hrows. clear Hnd Hins Hok. revert Hnow.
    induction Hrows as [|v row vs rows Hv Hrows IH]; [constructor|].
    intros [Ht Hnow]%Forall_cons. apply bind_Ok in Hv as (b & Hb & [= <-]).
    apply Forall_cons. split; [done|by apply IH].
  - pose proof (law_reserve_many (CostRepositoryLaws := sqlite_cost_laws references_exist)
      _ vs d _ _ eq_refl Hr) as Hlaw. simpl in Hlaw. subst. by apply keeps_refl.
Qed.

End reserving.

(** ** Finalising *)

(** A row after some of the statements that finalise rows. *)
Definition finalised (r r' : ReservationRow) : Prop :=
  r_budget_id r' = r_budget_id r ∧ r_amount_micros r' = r_amount_micros r ∧
  r_expires_at r' = r_expires_at r ∧ (r_status r' = active → r_status r = active).

Definition rows_finalised (m m' : gmap string ReservationRow) : Prop :=
  ∀ id, option_Forall2 finalised (m !! id) (m' !! id).

Lemma finalised_refl r : finalised r r.
Proof. by repeat split. Qed.

Lemma rows_finalised_refl m : rows_finalised m m.
Proof. intros id. destruct (m !! id); constructor. apply finalised_refl. Qed.

Lemma rows_finalised_trans m1 m2 m3 :
  rows_finalised m1 m2 → rows_finalised m2 m3 → rows_finalised m1 m3.
Proof.
  intros H1 H2 id. specialize (H1 id). specialize (H2 id).
  destruct H1 as [r1 r2 H1|]; inversion H2 as [? r3 H3|]; subst; constructor.
  unfold finalised in *. destruct H1 as (? & ? & ? & ?), H3 as (? & ? & ? & ?).
  split_and!; [congruence..|auto].
Qed.

Lemma finalize_finalised st at_ r : st ≠ active → finalised r (finalize st at_ r).
Proof.
  intros Hst. unfold finalize. case_bool_decide; [|apply finalised_refl]. by repeat split.
Qed.

Lemma alter_finalised st at_ id m :
  st ≠ active → rows_finalised m (alter (finalize st at_) id m).
Proof.
  intros Hst id'. destruct (decide (id' = id)) as [->|Hne].
  - rewrite lookup_alter_eq. destruct (m !! id); constructor. by apply finalize_finalised.
  - rewrite lookup_alter_ne by done. apply rows_finalised_refl.
Qed.

Lemma foldl_finalised at_ ids m :
  rows_finalised m (foldl (λ m id, alter (finalize released at_) id m) m ids).
Proof.
  revert m. induction ids as [|id ids IH]; intros m; [apply rows_finalised_refl|].
  cbn [foldl]. eapply rows_finalised_trans; [|apply IH]. by apply alter_finalised.
Qed.

Lemma finalised_contribution id t r r' :
  0 <= r_amount_micros r → finalised r r' → contribution id t r' <= contribution id t r.
Proof.
  intros Hr (Hb & Ha & He & Hs). unfold contribution at 1.
  destruct (is_reserved id t r') eqn:Hres; [|by apply contribution_pos].
  unfold is_reserved in Hres. rewrite Hb, He, !andb_true_iff, !bool_decide_eq_true in Hres.
  destruct Hres as [[Hid Hact] Hlt]. unfold contribution, is_reserved.
  rewrite Hid, (Hs Hact), Hlt, !bool_decide_true by done. simpl. lia.
Qed.

Lemma rows_finalised_amounts m m' :
  map_Forall (λ _ r, 0 <= r_amount_micros r) m → rows_finalised m m' →
  map_Forall (λ _ r, 0 <= r_amount_micros r) m'.
Proof.
  intros Hall Hf id r' Hr'. specialize (Hf id). rewrite Hr' in Hf.
  inversion Hf as [r ? Hfin Hr|]; subst. destruct Hfin as (_ & -> & _ & _). by apply (Hall id).
Qed.

Lemma finalised_keeps t f d :
  ledger_ok d → rows_finalised (reservations d) (f (reservations d)) →
  keeps t d (set_reservations f d).
Proof.
  intros [Hids Hamounts Husages] Hf.
  apply keeps_lower; [split; [done| |done]|done|].
  - by eapply rows_finalised_amounts.
  - intros b _. unfold committed. rewrite !reserved_sum_total, spent_set_reservations.
    enough (total (contribution (b_id b) t) (f (reservations d)) <=
            total (contribution (b_id b) t) (reservations d)) by (simpl; lia).
    apply total_le. intros id. specialize (Hf id).
    destruct (reservations d !! id) as [r|] eqn:Hr, (f (reservations d) !! id) as [r'|];
      inversion Hf; subst; [|done].
    apply finalised_contribution; [by apply (Hamounts id)|done].
Qed.

Lemma release_keeps t id at_ d r d' :
  ledger_ok d → sqlite_releaseReservation id at_ d = (r, d') → keeps t d d'.
Proof.
  intros Hok Hr. destruct r as [r|e].
  - apply immediate_Ok, action_bind_Ok in Hr as (d0 & d1 & [= <- <-] & Hr).
    destruct (reservations d !! id) as [row|]; [|injection Hr as _ <-; by apply keeps_refl].
    destruct (r_status row); [|injection Hr as _ <-; by apply keeps_refl..].
    apply action_bind_Ok in Hr as ([] & d2 & [= <-] & [= _ <-]).
    apply finalised_keeps; [done|]. by apply alter_finalised.
  - apply immediate_Throw in Hr as ->. by apply keeps_refl.
Qed.

Lemma release_many_keeps t ids at_ d r d' :
  ledger_ok d → sqlite_releaseReservations ids at_ d = (r, d') → keeps t d d'.
Proof.
  intros Hok [= _ <-]. apply finalised_keeps; [done|]. apply foldl_finalised.
Qed.

Lemma release_expired_keeps t at_ d r d' :
  ledger_ok d → sqlite_releaseExpiredReservations at_ d = (r, d') → keeps t d d'.
Proof.
  intros Hok Hr. destruct r as [n|e].
  - apply action_bind_Ok in Hr as (d0 & d1 & [= <- <-] & Hr).
    apply action_bind_Ok in Hr as ([] & d2 & [= <-] & [= _ <-]).
    apply finalised_keeps; [done|]. intros id. rewrite lookup_fmap.
    destruct (reservations d !! id) as [row|]; constructor.
    case_match; [by apply finalize_finalised|apply finalised_refl].
  - discriminate Hr.
Qed.

(** ** Recording *)

(** The reservations that pay for a usage, as far as they are the budget's. *)
Definition paid_by (b : BudgetRow) (t : Z) (ids : list string) (d : cost_db) : Z :=
  sum_by (λ id, default 0 (contribution (b_id b) t <$> reservations d !! id)) ids.

(** The usage belongs to the budget. *)
Definition concerns (b : BudgetRow) (v : RecordUsageAndCostInput) : Prop :=
  uc_projectId (ru_context v) = b_project_id b ∧ currency (ru_actual v) = b_currency b ∧
  in_scope b (usage_row_of v) = true.

Definition covered (v : RecordUsageAndCostInput) (b : BudgetRow) (d : cost_db) : Prop :=
  concerns b v → micros (ru_actual v) <= paid_by b (ru_occurredAt v) (reservation_ids v) d.

Lemma consumed_contribution id t at_ r :
  r_status r = active → contribution id t (finalize consumed at_ r) = 0.
Proof.
  intros Hr. unfold contribution, is_reserved, finalize. rewrite (bool_decide_true (_ = active)) by done.
  simpl. by rewrite andb_false_r.
Qed.

Lemma paid_by_cons b t id ids d :
  paid_by b t (id :: ids) d =
  default 0 (contribution (b_id b) t <$> reservations d !! id) + paid_by b t ids d.
Proof. done. Qed.

Lemma consume_all_total ids at_ d u d' :
  consume_all ids at_ d = (Ok u, d') →
  (∀ b t, total (contribution (b_id b) t) (reservations d') + paid_by b t ids d =
            total (contribution (b_id b) t) (reservations d)) ∧
  rows_finalised (reservations d) (reservations d') ∧
  budgets d' = budgets d ∧ events d' = events d ∧ usages d' = usages d.
Proof.
  revert d. induction ids as [|i ids IH]; intros d.
  - intros [= _ <-]. split_and!; [|apply rows_finalised_refl|done..].
    intros b t. unfold paid_by. simpl. lia.
  - cbn [consume_all]. intros (d0 & d1 & [= <- <-] & Hr)%action_bind_Ok.
    apply refuse_if_bind_Ok in Hr as [Ha%negb_false_iff%bool_decide_eq_true Hr].
    apply action_bind_Ok in Hr as ([] & d1 & [= <-] & Hr).
    destruct (reservations d !! i) as [row|] eqn:Hrow; [|done]. injection Ha as Ha.
    pose proof (consume_all_Ok _ _ _ _ _ Hr) as (Hactive & _ & _).
    apply IH in Hr as (Htot & Hfin & -> & -> & ->).
    split_and!; [|eapply rows_finalised_trans; [|exact Hfin]; by apply alter_finalised|done..].
    intros b t. specialize (Htot b t). cbn [reservations set_reservations] in Htot.
    rewrite (total_alter _ _ _ _ row) in Htot by done.
    rewrite consumed_contribution in Htot by done. rewrite paid_by_cons, Hrow.
    cbn [fmap option_fmap option_map default].
    enough (paid_by b t ids (set_reservations (alter (finalize consumed at_) i) d) =
            paid_by b t ids d) as Heq by (simpl; lia).
    apply sum_by_ext. intros id Hid. simpl. rewrite lookup_alter_ne; [done|]. intros ->.
    specialize (Hactive _ Hid). simpl in Hactive.
    rewrite lookup_alter_eq, Hrow in Hactive. simpl in Hactive.
    unfold finalize in Hactive. by rewrite bool_decide_true in Hactive.
Qed.

(** The new event is the only one the new usage row concerns. *)
Lemma spent_add_usage b v reserved d :
  ledger_ok d → ru_usageId v ∉ u_id <$> usages d →
  spent_sum b (add_usage (usage_row_of v) (cost_event_of v reserved) d) =
  spent_sum b d +
  if bool_decide (uc_projectId (ru_context v) = b_project_id b) &&
     bool_decide (currency (ru_actual v) = b_currency b) && in_scope b (usage_row_of v)
  then micros (ru_actual v) else 0.
Proof.
  intros Hok Hnew. unfold spent_sum. rewrite !sum_by_filter. cbn [events add_usage].
  rewrite sum_by_app. f_equal.
  - apply sum_by_ext. intros e He.
    enough (counts_against b (add_usage (usage_row_of v) (cost_event_of v reserved) d) e =
            counts_against b d e) as -> by done.
    unfold counts_against. f_equal. cbn [usages add_usage]. rewrite existsb_app. simpl.
    rewrite bool_decide_false, !orb_false_r; [done|]. intros Heq.
    destruct Hnew. rewrite Heq. by apply (lo_usages _ Hok).
  - simpl. rewrite Z.add_0_r. unfold counts_against. cbn [usages add_usage].
    rewrite existsb_app. simpl. rewrite (bool_decide_true (ru_usageId v = _)) by done. simpl.
    enough (existsb (λ u, bool_decide (u_id u = ru_usageId v) && in_scope b u) (usages d) = false)
      as Hz by (rewrite Hz; simpl; by rewrite orb_false_r).
    apply not_true_iff_false. intros (u & Hu & Heq)%existsb_exists.
    apply andb_true_iff in Heq as [Heq%bool_decide_eq_true _]. destruct Hnew.
    apply list_elem_of_fmap. exists u. split; [done|]. by apply list_elem_of_In.
Qed.

Lemma spent_ext b d d' : events d' = events d → usages d' = usages d → spent_sum b d' = spent_sum b d.
Proof. unfold spent_sum, counts_against. by intros -> ->. Qed.

Lemma not_recorded_fresh v d : is_recorded v d = false → ru_usageId v ∉ u_id <$> usages d.
Proof.
  intros [Hnew _]%orb_false_iff (u & Hu & Hin)%list_elem_of_fmap.
  apply not_true_iff_false in Hnew. apply Hnew, existsb_exists. exists u.
  split; [by apply list_elem_of_In|]. by apply bool_decide_eq_true.
Qed.

Lemma paid_by_pos b t ids d :
  map_Forall (λ _ r, 0 <= r_amount_micros r) (reservations d) → 0 <= paid_by b t ids d.
Proof.
  intros Hall. induction ids as [|id ids IH]; [done|]. rewrite paid_by_cons.
  destruct (reservations d !! id) as [r|] eqn:Hr; simpl; [|lia].
  pose proof (contribution_pos (b_id b) t r (Hall id r Hr)). lia.
Qed.

Section recording_steps.
  Context (references_exist : UsageContext → bool).

Lemma record_keeps v d r d' :
  ledger_ok d → (∀ b, b ∈ budgets d → covered v b d) →
  sqlite_recordUsageAndCost references_exist v d = (r, d') → keeps (ru_occurredAt v) d d'.
Proof.
  intros Hok Hcov Hr. destruct r as [r|e]; [|apply immediate_Throw in Hr as ->; by apply keeps_refl].
  apply immediate_Ok, action_bind_Ok in Hr as (d0 & d1 & [= <- <-] & Hr).
  destruct (is_recorded v d) eqn:Hnew; [injection Hr as _ <-; by apply keeps_refl|].
  apply action_bind_Ok in Hr as (checked & d2 & [= _ <-] & Hr).
  destruct checked as [reserved|]; [|injection Hr as _ <-; by apply keeps_refl].
  apply action_bind_Ok in Hr as (u1 & d3 & [= _ <-] & Hr).
  apply refuse_if_bind_Ok in Hr as [_ Hr].
  apply action_bind_Ok in Hr as (u2 & d4 & [= _ <-] & Hr).
  apply refuse_if_bind_Ok in Hr as [_ Hr].
  apply action_bind_Ok in Hr as ([] & d5 & [= <-] & Hr).
  apply action_bind_Ok in Hr as (u3 & d6 & Hcons & [= _ <-]).
  pose proof (not_recorded_fresh _ _ Hnew) as Hfresh.
  apply consume_all_total in Hcons as (Htotal & Hfin & Hbud & Hev & Hus).
  assert (∀ b, b ∈ budgets d → committed b (ru_occurredAt v) d6 <= committed b (ru_occurredAt v) d)
    as Hle.
  { intros b Hb. specialize (Hcov b Hb). unfold covered, concerns in Hcov.
    pose proof (Htotal b (ru_occurredAt v)) as Htot.
    unfold committed. rewrite !reserved_sum_total, (spent_ext b _ d6 Hev Hus).
    rewrite spent_add_usage by done. cbn [reservations add_usage] in Htot.
    change (paid_by b (ru_occurredAt v) (reservation_ids v) (add_usage _ _ d))
      with (paid_by b (ru_occurredAt v) (reservation_ids v) d) in Htot.
    pose proof (paid_by_pos b (ru_occurredAt v) (reservation_ids v) d (lo_amounts _ Hok)).
    destruct (bool_decide _ && bool_decide _ && in_scope b _) eqn:Hc; [|lia].
    rewrite !andb_true_iff, !bool_decide_eq_true in Hc. destruct Hc as [[? ?] ?].
    specialize (Hcov ltac:(by split_and!)). lia. }
  destruct Hok as [Hids Hamounts Husages]. apply keeps_lower; [|done|done]. split.
  - by rewrite Hbud.
  - by eapply rows_finalised_amounts.
  - intros e. rewrite Hev, Hus. cbn [events usages add_usage]. rewrite fmap_app, !elem_of_app.
    intros [He| ->%list_elem_of_singleton]; [left; by apply Husages|right]. by left.
Qed.

End recording_steps.

(** * Histories *)

(** The tables at an instant; time passes, and the operations run at the
    instant they are given.  [r] is what the operation returned or threw. *)
Inductive cost_step (references_exist : UsageContext → bool) : Z * cost_db → Z * cost_db → Prop :=
| step_time t t' d : t <= t' → cost_step references_exist (t, d) (t', d)
| step_reserve t d v r d' :
    ar_now v = t → sqlite_authorizeAndReserve references_exist v d = (r, d') →
    cost_step references_exist (t, d) (t, d')
| step_reserve_many t d vs r d' :
    Forall (λ v, ar_now v = t) vs → NoDup (input_key <$> vs) →
    sqlite_authorizeAndReserveMany references_exist vs d = (r, d') →
    cost_step references_exist (t, d) (t, d')
| step_release t d id r d' :
    sqlite_releaseReservation id t d = (r, d') → cost_step references_exist (t, d) (t, d')
| step_release_many t d ids r d' :
    sqlite_releaseReservations ids t d = (r, d') → cost_step references_exist (t, d) (t, d')
| step_release_expired t d r d' :
    sqlite_releaseExpiredReservations t d = (r, d') → cost_step references_exist (t, d) (t, d')
| step_record t d v r d' :
    ru_occurredAt v = t → (∀ b, b ∈ budgets d → covered v b d) →
    sqlite_recordUsageAndCost references_exist v d = (r, d') →
    cost_step references_exist (t, d) (t, d').

Definition budgets_kept (s s' : Z * cost_db) : Prop :=
  ledger_ok s'.2 ∧ budgets s'.2 = budgets s.2 ∧
  ∀ b, b ∈ budgets s.2 → committed b s.1 s.2 <= b_limit_micros b →
       committed b s'.1 s'.2 <= b_limit_micros b.

Lemma keeps_kept t d d' : keeps t d d' → budgets_kept (t, d) (t, d').
Proof. done. Qed.

Lemma cost_step_kept references_exist s s' :
  cost_step references_exist s s' → ledger_ok s.2 → budgets_kept s s'.
Proof.
  intros Hstep Hok. destruct Hstep; simpl in Hok.
  - split; [done|]. split; [done|]. simpl. intros b _ Hle.
    pose proof (committed_later b t t' d Hok H). lia.
  - subst. apply keeps_kept. by eapply reserve_keeps.
  - apply keeps_kept. by eapply reserve_many_keeps.
  - apply keeps_kept. by eapply release_keeps.
  - apply keeps_kept. by eapply release_many_keeps.
  - apply keeps_kept. by eapply release_expired_keeps.
  - subst. apply keeps_kept. by eapply record_keeps.
Qed.

Lemma cost_steps_kept references_exist s s' :
  rtc (cost_step references_exist) s s' → ledger_ok s.2 → budgets_kept s s'.
Proof.
  induction 1 as [s|s s1 s2 Hstep _ IH]; intros Hok; [done|].
  destruct (cost_step_kept _ _ _ Hstep Hok) as (Hok1 & Hb1 & Hc1).
  destruct (IH Hok1) as (Hok2 & Hb2 & Hc2). split; [done|]. split; [congruence|].
  intros b Hb Hle. apply Hc2; [by rewrite Hb1|]. by apply Hc1.
Qed.


(** * Sample and witness *)

Definition sample_budget : BudgetRow :=
  {| b_id := "budget"; b_project_id := "p"; b_scope_type := scope_project; b_scope_id := "p";
     b_currency := EUR; b_limit_micros := 10000 |}.

Definition sample_ledger : cost_db :=
  {| pricing := []; budgets := [sample_budget]; reservations := ∅; usages := []; events := [] |}.

Definition sample_input (id : string) (amount : Z) : AuthorizeReservationInput :=
  {| ar_id := id; ar_projectId := "p"; ar_scopeType := scope_project; ar_scopeId := "p";
     ar_currency := EUR; ar_amountMicros := amount; ar_agentRunId := None; ar_now := 5;
     ar_expiresAt := 100 |}.

Definition sample_usage_input : RecordUsageAndCostInput :=
  {| ru_usageId := "u"; ru_costEventId := "e";
     ru_context := {| uc_projectId := "p"; uc_taskId := None; uc_agentId := None;
                      uc_agentRunId := None; uc_purpose := "demo" |};
     ru_provider := "openai"; ru_model := "gpt"; ru_providerRequestId := None;
     ru_usage := sample_usage; ru_pricingVersionId := "price"; ru_reservationId := Some "r1";
     ru_reservationIds := Some ["r1"]; ru_estimated := {| micros := 7500; currency := EUR |};
     ru_actual := {| micros := 6120; currency := EUR |}; ru_chargeBasis := None;
     ru_occurredAt := 5 |}.

(** A second reservation is refused while the first is live, and fits once the
    first was settled for less. *)
Definition sample_reserve (id : string) (amount : Z) (d : cost_db) : cost_db :=
  (sqlite_authorizeAndReserve (λ _, true) (sample_input id amount) d).2.
Definition sample_record (d : cost_db) : cost_db :=
  (sqlite_recordUsageAndCost (λ _, true) sample_usage_input d).2.


End BudgetSafety.
