(* ===== verification/Store.v ===== *)
(** The project database the task services share: its tables as finite maps,
    the SQLite repositories' statements as actions over them, with the foreign
    keys, primary keys and triggers of the migrations that guard a task, its
    prerequisites and its execution history.  Models
    [packages/storage-sqlite/src/repositories/sqlite-task.repository.ts],
    [sqlite-task-dependency.repository.ts],
    [sqlite-task-requirement.repository.ts], [sqlite-audit-event.repository.ts],
    [database/sqlite-transaction-runner.ts], the triggers of
    [migrations/project/0037], [0040], [0048] and [0049], and
    [packages/domain/src/event/audit-event.ts].

    The CHECK constraints on a task's title, status and priority repeat what
    the domain validates and are left out. *)
From S2P Require Import Prelude Errors TaskModel DependencyGraph Json CostModel.
Import Canonical.

Module Store.

(** * Data *)

Inductive ActorType := daemon | cli | system.

Record AuditEventProps := {
  ae_id : string;
  ae_eventType : string;
  ae_actorType : ActorType;
  ae_actorId : option string;
  ae_aggregateType : option string;
  ae_aggregateId : option string;
  ae_projectId : option string;
  ae_payload : list (string * cjson);
  ae_occurredAt : date
}.

(** [AuditEvent.create] *)
Definition create_audit_event (props : AuditEventProps) : outcome AuditEventProps :=
  throw_if (String.length (trim (ae_eventType props)) =? 0)
    (DomainValidationError "Audit event type cannot be empty");;
  Ok {| ae_id := ae_id props; ae_eventType := trim (ae_eventType props);
        ae_actorType := ae_actorType props; ae_actorId := ae_actorId props;
        ae_aggregateType := ae_aggregateType props; ae_aggregateId := ae_aggregateId props;
        ae_projectId := ae_projectId props; ae_payload := ae_payload props;
        ae_occurredAt := ae_occurredAt props |}.

(** A row of [task_dependency], keyed by [(task_id, depends_on_task_id)]. *)
Record dependency_row := { dep_projectId : string; dep_createdAt : date }.

(** A row of [task_execution_history], keyed by [task_id]. *)
Inductive history_state := unknown | executed.
Record history_row := {
  h_projectId : string;
  h_state : history_state;
  h_firstKnownAt : date
}.

(** A row of [requirement], keyed by [id]. *)
Record requirement_row := {
  req_projectId : string;
  req_key : string;
  req_title : string;
  req_status : Governance.GovernanceStatus
}.

Record database := {
  projects : gset string;
  tasks : gmap string Task.TaskProps;
  dependencies : gmap (string * string) dependency_row;
  history : gmap string history_row;
  requirements : gmap string requirement_row;
  task_requirements : gmap (string * string) date;
  audit : list AuditEventProps
}.

(** The host: its database connection, whether a transaction is open on it,
    and how often the clock and the id generator were read. *)
Record world := {
  db : database;
  active : bool;
  ticks : nat;
  generated : nat
}.

Abbreviation command A := (method world A).

(** The [Clock] and [IdGenerator] ports; [SystemClock] reads a valid date. *)
Class Environment := {
  clock_at : nat → Z;
  id_at : nat → string
}.

(** * Access to the world *)

Definition read {A} (f : database → A) : command A := λ w, (Ok (f (db w)), w).

Definition write (f : database → database) : command unit := λ w,
  (Ok tt, {| db := f (db w); active := active w; ticks := ticks w; generated := generated w |}).

Definition set_tasks (f : gmap string Task.TaskProps → gmap string Task.TaskProps)
    (d : database) : database :=
  {| projects := projects d; tasks := f (tasks d); dependencies := dependencies d;
     history := history d; requirements := requirements d;
     task_requirements := task_requirements d; audit := audit d |}.

Definition set_dependencies
    (f : gmap (string * string) dependency_row → gmap (string * string) dependency_row)
    (d : database) : database :=
  {| projects := projects d; tasks := tasks d; dependencies := f (dependencies d);
     history := history d; requirements := requirements d;
     task_requirements := task_requirements d; audit := audit d |}.

Definition set_history (f : gmap string history_row → gmap string history_row)
    (d : database) : database :=
  {| projects := projects d; tasks := tasks d; dependencies := dependencies d;
     history := f (history d); requirements := requirements d;
     task_requirements := task_requirements d; audit := audit d |}.

Definition set_task_requirements
    (f : gmap (string * string) date → gmap (string * string) date)
    (d : database) : database :=
  {| projects := projects d; tasks := tasks d; dependencies := dependencies d;
     history := history d; requirements := requirements d;
     task_requirements := f (task_requirements d); audit := audit d |}.

Definition append_audit (e : AuditEventProps) (d : database) : database :=
  {| projects := projects d; tasks := tasks d; dependencies := dependencies d;
     history := history d; requirements := requirements d;
     task_requirements := task_requirements d; audit := audit d ++ [e] |}.

(** [SqliteTransactionRunner.run]: a throw rolls the database back, not the
    clock or the identifiers already taken. *)
Definition run {A} (work : command A) : command A := λ w,
  if active w then (Throw TransactionAlreadyActiveError, w)
  else
    match work {| db := db w; active := true; ticks := ticks w; generated := generated w |} with
    | (Ok a, w') =>
        (Ok a, {| db := db w'; active := false; ticks := ticks w'; generated := generated w' |})
    | (Throw e, w') =>
        (Throw e, {| db := db w; active := false; ticks := ticks w'; generated := generated w' |})
    end.

Section operations.
  Context `{Environment}.

Definition now : command date := λ w,
  (Ok (Some (clock_at (ticks w))),
   {| db := db w; active := active w; ticks := S (ticks w); generated := generated w |}).

Definition generate : command string := λ w,
  (Ok (id_at (generated w)),
   {| db := db w; active := active w; ticks := ticks w; generated := S (generated w) |}).

End operations.

(** * Statements of the repositories *)

(** [SELECT ... FROM project WHERE id = ?]: a project that is there. *)
Definition find_project (id : string) : command bool :=
  read (λ d, bool_decide (id ∈ projects d)).

Definition find_task (id : string) : command (option Task.TaskProps) :=
  read (λ d, tasks d !! id).

(** [ORDER BY priority DESC, created_at ASC, id ASC] *)
Definition compare_tasks (a b : Task.TaskProps) : Z :=
  let number_of n := match n with NInt z => z | _ => 0%Z end in
  or_else (number_of (Task.priority b) - number_of (Task.priority a))
    (or_else (default 0 (Task.createdAt a) - default 0 (Task.createdAt b))
             (compare_text (Task.id a) (Task.id b)))%Z.

Definition project_tasks (projectId : string) (d : database) : list Task.TaskProps :=
  sort_by compare_tasks
    (filter (λ t, Task.projectId t = projectId) (map_to_list (tasks d)).*2).

Definition list_tasks (projectId : string) : command (list Task.TaskProps) :=
  read (project_tasks projectId).

(** Some prerequisite of the task is not in [accepted]: the condition of the
    triggers that raise "task has incomplete prerequisites". *)
Definition has_prerequisite_outside (accepted : list Task.TaskStatus)
    (projectId taskId : string) (d : database) : bool :=
  existsb (λ p : (string * string) * dependency_row,
    bool_decide (p.1.1 = taskId) && bool_decide (dep_projectId p.2 = projectId) &&
    match tasks d !! p.1.2 with
    | Some t => negb (includes (Task.status t) accepted)
    | None => false
    end) (map_to_list (dependencies d)).

Definition incomplete_prerequisites : error := SqliteError "task has incomplete prerequisites".

(** The INSERT ... ON CONFLICT(task_id) DO UPDATE of the trigger
    [task_execution_history_task_start]. *)
Definition record_execution (taskId projectId : string) (at_ : date)
    (rows : gmap string history_row) : gmap string history_row :=
  match rows !! taskId with
  | None => <[taskId := {| h_projectId := projectId; h_state := executed;
                           h_firstKnownAt := at_ |}]> rows
  | Some row =>
      let first := match h_firstKnownAt row, at_ with
        | None, t => t
        | Some t, None => Some t
        | Some t, Some t' => if (t' <? t)%Z then Some t' else Some t
        end in
      <[taskId := {| h_projectId := h_projectId row; h_state := executed;
                     h_firstKnownAt := first |}]> rows
  end.

(** What ON CONFLICT(id) DO UPDATE leaves of the old row. *)
Definition updated_task (old new : Task.TaskProps) : Task.TaskProps :=
  {| Task.id := Task.id old; Task.projectId := Task.projectId old; Task.title := Task.title new;
     Task.description := Task.description new; Task.status := Task.status new;
     Task.priority := Task.priority new; Task.createdAt := Task.createdAt old;
     Task.updatedAt := Task.updatedAt new |}.

(** [task_completion_requires_completed_prerequisites] *)
Definition completion_trigger (old new : Task.TaskProps) (d : database) : bool :=
  bool_decide (Task.status new = Task.completed) &&
  includes (Task.status old) [Task.running; Task.waiting_review] &&
  has_prerequisite_outside [Task.completed] (Task.projectId new) (Task.id new) d.

(** [task_execution_history_task_start]: its condition, and its refusal. *)
Definition start_fires (old new : Task.TaskProps) : bool :=
  includes (Task.status new) [Task.running; Task.waiting_review] &&
  negb (bool_decide (Task.status old = Task.status new)).

Definition start_refuses (new : Task.TaskProps) (d : database) : bool :=
  bool_decide (Task.status new = Task.running) &&
  has_prerequisite_outside [Task.completed; Task.waiting_review]
    (Task.projectId new) (Task.id new) d.

Definition started_at (new : Task.TaskProps) : date :=
  if bool_decide (Task.status new = Task.running) then Task.updatedAt new else None.

(** [SqliteTaskRepository.save] with the triggers its UPDATE fires. *)
Definition save_task (p : Task.TaskProps) : command unit :=
  old ← find_task (Task.id p);
  match old with
  | None =>
      known ← find_project (Task.projectId p);
      refuse_if (negb known) (SqliteError "FOREIGN KEY constraint failed");;
      write (set_tasks <[Task.id p := p]>)
  | Some old =>
      let new := updated_task old p in
      d ← read (λ d, d);
      refuse_if (completion_trigger old new d) incomplete_prerequisites;;
      refuse_if (start_fires old new && start_refuses new d) incomplete_prerequisites;;
      write (set_tasks <[Task.id p := new]>);;
      if start_fires old new then
        write (set_history (record_execution (Task.id new) (Task.projectId new) (started_at new)))
      else mret tt
  end.

(** [SqliteAuditEventRepository.append] *)
Definition append_event (e : AuditEventProps) : command unit :=
  d ← read (λ d, d);
  refuse_if (includes (ae_id e) (ae_id <$> audit d))
    (SqliteError "UNIQUE constraint failed: audit_event.id");;
  refuse_if (match ae_projectId e with
             | Some p => negb (bool_decide (p ∈ projects d))
             | None => false
             end) (SqliteError "FOREIGN KEY constraint failed");;
  write (append_audit e).

(** The edges of the table, whatever their project. *)
Definition all_edges (d : database) : list Dependency.edge :=
  (λ p : (string * string) * dependency_row,
     {| Dependency.taskId := p.1.1; Dependency.dependsOnTaskId := p.1.2 |})
  <$> map_to_list (dependencies d).

Definition compare_edges (a b : Dependency.edge) : Z :=
  or_else (compare_text (Dependency.taskId a) (Dependency.taskId b))
          (compare_text (Dependency.dependsOnTaskId a) (Dependency.dependsOnTaskId b)).

(** [listByProject]: the columns the callers read. *)
Definition project_edges (projectId : string) (d : database) : list Dependency.edge :=
  sort_by compare_edges
    ((λ p : (string * string) * dependency_row,
        {| Dependency.taskId := p.1.1; Dependency.dependsOnTaskId := p.1.2 |})
     <$> filter (λ p, dep_projectId p.2 = projectId) (map_to_list (dependencies d))).

Definition list_dependencies (projectId : string) : command (list Dependency.edge) :=
  read (project_edges projectId).

Definition hasExecutionHistory (projectId taskId : string) : command bool :=
  read (λ d, match history d !! taskId with
             | Some row => bool_decide (h_projectId row = projectId)
             | None => false
             end).

(** Both ends are tasks of the project. *)
Definition same_project (projectId a b : string) (d : database) : bool :=
  match tasks d !! a, tasks d !! b with
  | Some s, Some t =>
      bool_decide (Task.projectId s = projectId) && bool_decide (Task.projectId t = projectId)
  | _, _ => false
  end.

(** The recursive query of [task_dependency_cycle_insert]: the tasks that
    depend on [taskId], directly or not, include [dependsOn]. *)
Definition cycle_trigger (taskId dependsOn : string) (d : database) : bool :=
  let edges := all_edges d in
  negb (bool_decide
    (Dependency.search (2 * Dependency.search_fuel edges) dependsOn (Dependency.outgoing edges) ∅
       (default [] (Dependency.outgoing edges !! taskId)) = Some false)).

(** [SqliteTaskDependencyRepository.link], its triggers and CHECK before the
    primary key decides whether a row is added. *)
Definition link_dependency (projectId taskId dependsOn : string) (at_ : date) : command bool :=
  d ← read (λ d, d);
  if negb (same_project projectId taskId dependsOn d) then mret false
  else
    refuse_if (cycle_trigger taskId dependsOn d) (SqliteError "task dependency cycle");;
    ran ← hasExecutionHistory projectId taskId;
    refuse_if ran (SqliteError "task dependency cannot change after execution history");;
    refuse_if (bool_decide (taskId = dependsOn)) (SqliteError "CHECK constraint failed");;
    match dependencies d !! (taskId, dependsOn) with
    | Some _ => mret false
    | None =>
        write (set_dependencies <[(taskId, dependsOn) :=
          {| dep_projectId := projectId; dep_createdAt := at_ |}]>);;
        mret true
    end.

Definition unlink_dependency (projectId taskId dependsOn : string) : command bool :=
  d ← read (λ d, d);
  match dependencies d !! (taskId, dependsOn) with
  | Some row =>
      if bool_decide (dep_projectId row = projectId) then
        ran ← hasExecutionHistory projectId taskId;
        refuse_if (ran && bool_decide (is_Some (tasks d !! taskId)) &&
                   bool_decide (projectId ∈ projects d))
          (SqliteError "task dependency cannot change after execution history");;
        write (set_dependencies (delete (taskId, dependsOn)));;
        mret true
      else mret false
  | None => mret false
  end.

(** [SqliteTaskRequirementRepository] *)
Record LinkedRequirement := {
  lr_requirementId : string;
  lr_key : string;
  lr_title : string;
  lr_status : Governance.GovernanceStatus
}.

Definition linkable (projectId taskId requirementId : string) (d : database) : bool :=
  match tasks d !! taskId, requirements d !! requirementId with
  | Some t, Some r =>
      bool_decide (Task.projectId t = projectId) && bool_decide (req_projectId r = projectId)
  | _, _ => false
  end.

Definition link_requirement (projectId taskId requirementId : string) (at_ : date)
    : command bool :=
  d ← read (λ d, d);
  if linkable projectId taskId requirementId d &&
     negb (bool_decide (is_Some (task_requirements d !! (taskId, requirementId))))
  then write (set_task_requirements <[(taskId, requirementId) := at_]>);; mret true
  else mret false.

Definition unlink_requirement (projectId taskId requirementId : string) : command bool :=
  d ← read (λ d, d);
  if bool_decide (is_Some (task_requirements d !! (taskId, requirementId))) &&
     match tasks d !! taskId with
     | Some t => bool_decide (Task.projectId t = projectId)
     | None => false
     end
  then write (set_task_requirements (delete (taskId, requirementId)));; mret true
  else mret false.

(** [ORDER BY r.requirement_key, r.id] *)
Definition compare_linked (a b : LinkedRequirement) : Z :=
  or_else (compare_text (lr_key a) (lr_key b))
          (compare_text (lr_requirementId a) (lr_requirementId b)).

Definition linked_requirements (projectId taskId : string) (d : database)
    : list LinkedRequirement :=
  sort_by compare_linked (omap (λ p : (string * string) * date,
    if bool_decide (p.1.1 = taskId) && linkable projectId taskId p.1.2 d then
      (λ r, {| lr_requirementId := p.1.2; lr_key := req_key r; lr_title := req_title r;
               lr_status := req_status r |}) <$> requirements d !! p.1.2
    else None) (map_to_list (task_requirements d))).

Definition list_for_task (projectId taskId : string) : command (list LinkedRequirement) :=
  read (linked_requirements projectId taskId).

(** [findStatus("requirement", id, projectId)] of the governance repository. *)
Definition requirement_status (id projectId : string)
    : command (option Governance.GovernanceStatus) :=
  read (λ d, match requirements d !! id with
             | Some r => if bool_decide (req_projectId r = projectId) then Some (req_status r)
                         else None
             | None => None
             end).

(** * Reasoning about commands *)

Definition with_db (w : world) (d : database) : world :=
  {| db := d; active := active w; ticks := ticks w; generated := generated w |}.

Definition opened (w : world) : world :=
  {| db := db w; active := true; ticks := ticks w; generated := generated w |}.

Definition closed (w : world) : world :=
  {| db := db w; active := false; ticks := ticks w; generated := generated w |}.

(** The command leaves the database alone; a refusal of it does. *)
Definition db_readonly {A} (m : command A) : Prop := ∀ w, db (m w).2 = db w.
Definition db_atomic {A} (m : command A) : Prop :=
  ∀ w e w', m w = (Throw e, w') → db w' = db w.

Lemma run_Ok {A} (m : command A) w a w' :
  run m w = (Ok a, w') ↔
  active w = false ∧ ∃ w1, m (opened w) = (Ok a, w1) ∧ w' = closed w1.
Proof.
  unfold run. destruct (active w); [naive_solver|]. fold (opened w).
  destruct (m (opened w)) as [[b|e] w1]; split.
  - intros [= -> <-]. eauto.
  - by intros (_ & ? & [= -> ->] & ->).
  - done.
  - by intros (_ & ? & ? & _).
Qed.

Lemma run_atomic {A} (m : command A) : db_atomic (run m).
Proof.
  intros w e w'. unfold run. destruct (active w); [by intros [= _ <-]|].
  destruct (m _) as [[]]; [done|]. by intros [= _ <-].
Qed.

Lemma db_readonly_readonly {A} (m : command A) : readonly m → db_readonly m.
Proof. intros Hm w. by rewrite (Hm w). Qed.

Lemma db_readonly_read {A} (f : database → A) : db_readonly (read f).
Proof. done. Qed.

Lemma db_readonly_now `{Environment} : db_readonly now.
Proof. done. Qed.

Lemma db_readonly_generate `{Environment} : db_readonly generate.
Proof. done. Qed.

Lemma db_readonly_bind {A B} (m : command A) (k : A → command B) :
  db_readonly m → (∀ a, db_readonly (k a)) → db_readonly (m ≫= k).
Proof.
  intros Hm Hk w. unfold mbind, action_bind. specialize (Hm w).
  destruct (m w) as [[a|e] w1]; simpl in *; [by rewrite (Hk a w1)|done].
Qed.

Lemma db_atomic_readonly {A} (m : command A) : db_readonly m → db_atomic m.
Proof. intros Hm w e w' H. specialize (Hm w). by rewrite H in Hm. Qed.

Lemma db_atomic_write f : db_atomic (write f).
Proof. done. Qed.

Lemma db_atomic_bind {A B} (m : command A) (k : A → command B) :
  db_readonly m → (∀ a, db_atomic (k a)) → db_atomic (m ≫= k).
Proof.
  intros Hm Hk w e w' [H|(a & w1 & H & H')]%action_bind_Throw.
  - by eapply db_atomic_readonly.
  - apply Hk in H'. specialize (Hm w). rewrite H in Hm. simpl in Hm. congruence.
Qed.

(** A last write followed by commands that cannot throw. *)
Lemma db_atomic_total {A B} (m : command A) (k : A → command B) :
  db_atomic m → (∀ a w, ∃ b w', k a w = (Ok b, w')) → db_atomic (m ≫= k).
Proof.
  intros Hm Hk w e w' [H|(a & w1 & H & H')]%action_bind_Throw; [by eapply Hm|].
  destruct (Hk a w1) as (b & w2 & Hb). congruence.
Qed.

Lemma readonly_Ok {A} (m : command A) w a w' : db_readonly m → m w = (Ok a, w') → db w' = db w.
Proof. intros Hm H. specialize (Hm w). by rewrite H in Hm. Qed.

End Store.

#[export] Hint Resolve Store.db_readonly_readonly Store.db_readonly_read Store.db_readonly_now
  Store.db_readonly_generate Store.db_readonly_bind Store.run_atomic Store.db_atomic_write : ts.
#[export] Hint Resolve Store.db_atomic_bind | 5 : ts.
#[export] Hint Resolve Store.db_atomic_readonly | 10 : ts.

(** [result_step] for the commands of the store. *)
Ltac store_step :=
  match goal with
  | H : Store.read _ _ = (_, _) |- _ => unfold Store.read in H; injection H as H
  | H : Store.find_project _ _ = (_, _) |- _ => unfold Store.find_project in H
  | H : Store.find_task _ _ = (_, _) |- _ => unfold Store.find_task in H
  | H : Store.write _ _ = (_, _) |- _ => unfold Store.write in H; injection H as H
  | H : Store.now _ = (_, _) |- _ => unfold Store.now in H; injection H as H
  | H : Store.generate _ = (_, _) |- _ => unfold Store.generate in H; injection H as H
  | H : Store.run _ _ = (Ok _, _) |- _ => apply Store.run_Ok in H as (? & ? & H & ?)
  | H : negb _ = false |- _ => apply negb_false_iff in H
  | H : negb _ = true |- _ => apply negb_true_iff in H
  | H : bool_decide _ = true |- _ => apply bool_decide_eq_true in H
  | H : bool_decide _ = false |- _ => apply bool_decide_eq_false in H
  end; subst.

Ltac inv_store := repeat first [result_step | store_step].
