(* ===== verification/RunStore.v ===== *)
(** The part of the project database that agent runs live in: roles, agents,
    runs with their events, task locks, pipeline runs and the job outbox, on
    top of the tables of [Store].  Models
    [packages/storage-sqlite/src/repositories/sqlite-agent-runtime.repository.ts],
    the reads of [sqlite-pipeline-run.repository.ts],
    [packages/application/src/ports/agent-runtime-repository.port.ts] and the
    triggers of [migrations/project/0009], [0016], [0020], [0027], [0030],
    [0033], [0034], [0048] and [0049] that guard a run.

    A JSON column holds the value whose text the code writes, with its type
    where the code casts it, and a time column the milliseconds of the text,
    which order alike for the years 0 to 9999.  The CHECK constraints repeat
    what the domain validates and are left out. *)
From S2P Require Import Prelude Errors TaskModel DependencyGraph PipelineModel Json.
From S2P Require Import AgentModel Store.
Import Canonical Provenance RunModel.

Module RunStore.

(** * JSON columns *)

(** [Date.prototype.toISOString] *)
Definition iso (d : date) : outcome Z :=
  match d with Some z => Ok z | None => Throw (RangeError "Invalid Date") end.

(** [value?.toISOString() ?? null] *)
Definition iso_or_null (d : option date) : outcome (option Z) :=
  match d with None => Ok None | Some d => z ← iso d; Ok (Some z) end.

(** What [JSON.parse] reads back of a number [JSON.stringify] wrote. *)
Definition json_number (n : number) : cjson :=
  match n with
  | NNegZero => CNum (NInt 0)
  | _ => if is_finite n then CNum n else CNull
  end.

(** [JSON.parse(JSON.stringify(value))], with [None] where [JSON.stringify]
    yields [undefined].  An accessor or a property that is not enumerable is
    read as absent. *)
Fixpoint json_value (ancestors : list nat) (value : js) : outcome (option cjson) :=
  match value with
  | JNull => Ok (Some CNull)
  | JUndefined => Ok None
  | JBool b => Ok (Some (CBool b))
  | JNum n => Ok (Some (json_number n))
  | JStr s => Ok (Some (CStr s))
  | JTypeof kind =>
      throw_if (bool_decide (kind = "bigint")) (TypeError "Do not know how to serialize a BigInt");;
      Ok None
  | JArr id _ _ items =>
      throw_if (includes id ancestors) (TypeError "Converting circular structure to JSON");;
      elements ← (fix go l :=
        match l with
        | [] => Ok []
        | s :: l =>
            v ← match s with plain v => json_value (id :: ancestors) v | _ => Ok None end;
            vs ← go l; Ok (default CNull v :: vs)
        end) items;
      Ok (Some (CArr elements))
  | JObj id _ _ props =>
      throw_if (includes id ancestors) (TypeError "Converting circular structure to JSON");;
      members ← (fix go l :=
        match l with
        | [] => Ok []
        | (k, s) :: l =>
            v ← match s with plain v => json_value (id :: ancestors) v | _ => Ok None end;
            vs ← go l; Ok (match v with Some v => (k, v) :: vs | None => vs end)
        end) props;
      Ok (Some (CObj members))
  end.

(** [value === undefined ? null : JSON.stringify(value)] *)
Definition json_column (value : option js) : outcome (option cjson) :=
  match value with None => Ok None | Some v => json_value [] v end.

Section stable.
  Context `{ShowNumber}.

(** [stableJson]; a [bigint] was refused before by the column it goes to. *)
Fixpoint stableJson (value : js) : string :=
  match value with
  | JNull | JUndefined | JTypeof _ => "null"
  | JBool b => if b then "true" else "false"
  | JNum n => stringify (json_number n)
  | JStr s => quote s
  | JArr _ _ _ items =>
      "[" +:+ join "," (map (λ s, match s with plain v => stableJson v | _ => "" end) items)
      +:+ "]"
  | JObj _ _ _ props =>
      "{" +:+ join "," (map (λ m, quote m.1 +:+ ":" +:+ m.2)
        (sort_by compare_key
          ((fix go l :=
              match l with
              | [] => []
              | (k, plain v) :: l => (k, stableJson v) :: go l
              | _ :: l => go l
              end) props))) +:+ "}"
  end.

(** [stableJson(value ?? null)] *)
Definition stable_or_null (value : option js) : string := stableJson (default JNull value).

End stable.

Definition intent_js (i : AgentRun.AgentActionIntent cjson) : js :=
  embed 0 (CObj [("resourceId", CStr (AgentRun.intent_resourceId i));
                 ("operation", CStr (AgentRun.intent_operation i));
                 ("arguments", AgentRun.intent_arguments i)]).

Definition routing_js (r : AgentRunModelRouting) : js := embed 0 (routing_json r).

Definition guidance_js (g : AgentRun.AgentRunRoleGuidance) : js :=
  embed 0 (CObj [("version", CNum (AgentRun.guidance_version g));
                 ("text", CStr (AgentRun.guidance_text g))]).

Definition execution_js (e : AgentExecutionProvenance) : js :=
  embed 0 (AgentRun.provenance_json e).

(** * Tables *)

Record Agent := {
  ag_id : string;
  ag_projectId : string;
  ag_roleId : string;
  ag_name : string;
  ag_enabled : bool;
  ag_createdAt : date;
  ag_updatedAt : date
}.

#[global] Instance RoleLimits_eq_dec : EqDecision Role.RoleLimits.
Proof. solve_decision. Defined.

(** A row of [agent_run], keyed by [id]. *)
Record RunRow := {
  r_project_id : string;
  r_task_id : string;
  r_agent_id : string;
  r_action_intent : option (AgentRun.AgentActionIntent cjson);
  r_pipeline_run_id : option string;
  r_pipeline_stage_run_id : option string;
  r_status : AgentRun.AgentRunStatus;
  r_worktree_path : option string;
  r_result_json : option cjson;
  r_error_json : option cjson;
  r_created_at : Z;
  r_started_at : option Z;
  r_completed_at : option Z;
  r_updated_at : Z;
  r_execution : option AgentExecutionProvenance;
  r_model_routing : option AgentRunModelRouting;
  r_role_guidance : option AgentRun.AgentRunRoleGuidance
}.

(** A row of [agent_run_event]: its [id] is the run and the status. *)
Record RunEventRow := {
  ev_run_id : string;
  ev_status : AgentRun.AgentRunStatus;
  ev_hasResult : bool;
  ev_hasError : bool;
  ev_execution : option AgentExecutionProvenance;
  ev_modelRouting : option AgentRunModelRouting;
  ev_ownerId : option string;
  ev_occurred_at : Z
}.

(** A row of [task_lock], keyed by [task_id]; [run_id] is unique too. *)
Record LockRow := { l_run_id : string; l_acquired_at : Z; l_expires_at : Z }.

Inductive QueueJobType := orchestrate_pipeline | execute_agent_run.
#[global] Instance QueueJobType_eq_dec : EqDecision QueueJobType.
Proof. solve_decision. Defined.

Inductive aggregate_type := agg_pipeline_run | agg_agent_run.
#[global] Instance aggregate_type_eq_dec : EqDecision aggregate_type.
Proof. solve_decision. Defined.

(** A row of [job_outbox]. *)
Record OutboxRow := {
  ob_id : string;
  ob_projectId : string;
  ob_jobType : QueueJobType;
  ob_aggregateType : aggregate_type;
  ob_aggregateId : string;
  ob_pipelineStageRunId : option string;
  ob_dedupeKey : string;
  ob_payload : list (string * cjson);
  ob_availableAt : Z;
  ob_attemptCount : nat;
  ob_dispatchedAt : option Z;
  ob_createdAt : Z
}.

Record tables := {
  base : Store.database;
  roles : gmap string Role.RoleProps;
  agents : gmap string Agent;
  runs : gmap string RunRow;
  run_events : list RunEventRow;
  locks : gmap string LockRow;
  pipelines : gmap string PipelineRun.Run;
  overrides : list PipelineRun.OverrideRecord;
  outbox : list OutboxRow;
  manifests : list PipelineRun.OfficeManifestRevision
}.

Record world := {
  db : tables;
  active : bool;
  ticks : nat;
  generated : nat
}.

Abbreviation command A := (method world A).

(** ** Access *)

Definition with_tables (w : world) (d : tables) : world :=
  {| db := d; active := active w; ticks := ticks w; generated := generated w |}.

Definition read {A} (f : tables → A) : command A := λ w, (Ok (f (db w)), w).
Definition write (f : tables → tables) : command unit := λ w, (Ok tt, with_tables w (f (db w))).

Definition set_base (f : Store.database → Store.database) (d : tables) : tables :=
  {| base := f (base d); roles := roles d; agents := agents d; runs := runs d;
     run_events := run_events d; locks := locks d; pipelines := pipelines d;
     overrides := overrides d; outbox := outbox d; manifests := manifests d |}.
Definition set_roles (f : gmap string Role.RoleProps → gmap string Role.RoleProps)
    (d : tables) : tables :=
  {| base := base d; roles := f (roles d); agents := agents d; runs := runs d;
     run_events := run_events d; locks := locks d; pipelines := pipelines d;
     overrides := overrides d; outbox := outbox d; manifests := manifests d |}.
Definition set_agents (f : gmap string Agent → gmap string Agent) (d : tables) : tables :=
  {| base := base d; roles := roles d; agents := f (agents d); runs := runs d;
     run_events := run_events d; locks := locks d; pipelines := pipelines d;
     overrides := overrides d; outbox := outbox d; manifests := manifests d |}.
Definition set_runs (f : gmap string RunRow → gmap string RunRow) (d : tables) : tables :=
  {| base := base d; roles := roles d; agents := agents d; runs := f (runs d);
     run_events := run_events d; locks := locks d; pipelines := pipelines d;
     overrides := overrides d; outbox := outbox d; manifests := manifests d |}.
Definition set_run_events (f : list RunEventRow → list RunEventRow) (d : tables) : tables :=
  {| base := base d; roles := roles d; agents := agents d; runs := runs d;
     run_events := f (run_events d); locks := locks d; pipelines := pipelines d;
     overrides := overrides d; outbox := outbox d; manifests := manifests d |}.
Definition set_locks (f : gmap string LockRow → gmap string LockRow) (d : tables) : tables :=
  {| base := base d; roles := roles d; agents := agents d; runs := runs d;
     run_events := run_events d; locks := f (locks d); pipelines := pipelines d;
     overrides := overrides d; outbox := outbox d; manifests := manifests d |}.
Definition set_pipelines (f : gmap string PipelineRun.Run → gmap string PipelineRun.Run)
    (d : tables) : tables :=
  {| base := base d; roles := roles d; agents := agents d; runs := runs d;
     run_events := run_events d; locks := locks d; pipelines := f (pipelines d);
     overrides := overrides d; outbox := outbox d; manifests := manifests d |}.
Definition set_overrides
    (f : list PipelineRun.OverrideRecord → list PipelineRun.OverrideRecord)
    (d : tables) : tables :=
  {| base := base d; roles := roles d; agents := agents d; runs := runs d;
     run_events := run_events d; locks := locks d; pipelines := pipelines d;
     overrides := f (overrides d); outbox := outbox d; manifests := manifests d |}.
Definition set_outbox (f : list OutboxRow → list OutboxRow) (d : tables) : tables :=
  {| base := base d; roles := roles d; agents := agents d; runs := runs d;
     run_events := run_events d; locks := locks d; pipelines := pipelines d;
     overrides := overrides d; outbox := f (outbox d); manifests := manifests d |}.

(** A command of the task services on the same database and host. *)
Definition store_world (w : world) : Store.world :=
  {| Store.db := base (db w); Store.active := active w; Store.ticks := ticks w;
     Store.generated := generated w |}.

Definition on_base {A} (m : Store.command A) : command A := λ w,
  let '(r, s) := m (store_world w) in
  (r, {| db := set_base (λ _, Store.db s) (db w); active := Store.active s;
         ticks := Store.ticks s; generated := Store.generated s |}).

(** [SqliteTransactionRunner.run] on all the tables. *)
Definition run {A} (work : command A) : command A := λ w,
  if active w then (Throw TransactionAlreadyActiveError, w)
  else
    match work {| db := db w; active := true; ticks := ticks w; generated := generated w |} with
    | (Ok a, w') =>
        (Ok a, {| db := db w'; active := false; ticks := ticks w'; generated := generated w' |})
    | (Throw e, w') =>
        (Throw e, {| db := db w; active := false; ticks := ticks w'; generated := generated w' |})
    end.

(** [database.transaction(work)()]: a transaction of its own, or a savepoint
    of the open one. *)
Definition savepoint {A} (work : command A) : command A := λ w,
  match work w with
  | (Ok a, w') => (Ok a, w')
  | (Throw e, w') => (Throw e, with_tables w' (db w))
  end.

Section operations.
  Context `{Store.Environment}.

Definition now : command date := λ w,
  (Ok (Some (Store.clock_at (ticks w))),
   {| db := db w; active := active w; ticks := S (ticks w); generated := generated w |}).

Definition generate : command string := λ w,
  (Ok (Store.id_at (generated w)),
   {| db := db w; active := active w; ticks := ticks w; generated := S (generated w) |}).

End operations.

(** * Roles and agents *)

Definition foreign_key : error := SqliteError "FOREIGN KEY constraint failed".
Definition unique_failed (column : string) : error :=
  SqliteError ("UNIQUE constraint failed: " +:+ column).

Definition known_project (id : string) (d : tables) : bool :=
  bool_decide (id ∈ Store.projects (base d)).

(** The row of [role] with the key of the INSERT's conflict target. *)
Definition role_by_key (projectId key : string) (d : tables) : option (string * Role.RoleProps) :=
  List.find (λ p : string * Role.RoleProps,
      bool_decide (Role.projectId p.2 = projectId) && bool_decide (Role.key p.2 = key))
    (map_to_list (roles d)).

(** The values the INSERT binds: guidance columns are not null. *)
Definition role_row (v : Role.RoleProps) (created updated : Z) : Role.RoleProps :=
  {| Role.id := Role.id v; Role.projectId := Role.projectId v; Role.key := Role.key v;
     Role.name := Role.name v; Role.version := Role.version v;
     Role.capabilities := Role.capabilities v; Role.tools := Role.tools v;
     Role.modelPolicy := Role.modelPolicy v; Role.limits := Role.limits v;
     Role.sourcePath := Role.sourcePath v;
     Role.guidanceText := Some (default "" (Role.guidanceText v));
     Role.guidanceVersion := Some (default (NInt 1) (Role.guidanceVersion v));
     Role.createdAt := Some created; Role.updatedAt := Some updated |}.

(** What ON CONFLICT(project_id, role_key) DO UPDATE keeps of the old row. *)
Definition updated_role (old new : Role.RoleProps) : Role.RoleProps :=
  {| Role.id := Role.id old; Role.projectId := Role.projectId old; Role.key := Role.key old;
     Role.name := Role.name new; Role.version := Role.version new;
     Role.capabilities := Role.capabilities new; Role.tools := Role.tools new;
     Role.modelPolicy := Role.modelPolicy new; Role.limits := Role.limits new;
     Role.sourcePath := Role.sourcePath new; Role.guidanceText := Role.guidanceText new;
     Role.guidanceVersion := Role.guidanceVersion new; Role.createdAt := Role.createdAt old;
     Role.updatedAt := Role.updatedAt new |}.

Definition saveRole (role : Role.RoleProps) : command unit :=
  let v := Role.snapshot role in
  created ← lift (iso (Role.createdAt v));
  updated ← lift (iso (Role.updatedAt v));
  let new := role_row v created updated in
  d ← read (λ d, d);
  match role_by_key (Role.projectId v) (Role.key v) d with
  | Some (id, old) => write (set_roles <[id := updated_role old new]>)
  | None =>
      refuse_if (bool_decide (is_Some (roles d !! Role.id v))) (unique_failed "role.id");;
      refuse_if (negb (known_project (Role.projectId v) d)) foreign_key;;
      write (set_roles <[Role.id v := new]>)
  end.

(** [parseStoredRoleLimits] *)
Definition parseStoredRoleLimits (limits : Role.RoleLimits) : outcome Role.RoleLimits :=
  throw_if (negb (is_safe_integer (Role.maxIterations limits)) ||
            negb (is_safe_integer (Role.timeoutSeconds limits)))
    (DomainValidationError "Stored role limits are invalid");;
  throw_if (num_lt (Role.maxIterations limits) 1 || num_lt (Role.timeoutSeconds limits) 1 ||
            (Role.maxCostMicros limits <? 0)%Z)
    (DomainValidationError "Stored role limits are invalid");;
  Ok limits.

Definition restoreRole (row : Role.RoleProps) : outcome Role.RoleProps :=
  limits ← parseStoredRoleLimits (Role.limits row);
  Ok (Role.restore
    {| Role.id := Role.id row; Role.projectId := Role.projectId row; Role.key := Role.key row;
       Role.name := Role.name row; Role.version := Role.version row;
       Role.capabilities := Role.capabilities row; Role.tools := Role.tools row;
       Role.modelPolicy := Role.modelPolicy row; Role.limits := limits;
       Role.sourcePath := Role.sourcePath row;
       Role.guidanceText := match Role.guidanceText row with
                            | Some t => if bool_decide (t = "") then None else Some t
                            | None => None
                            end;
       Role.guidanceVersion := Role.guidanceVersion row;
       Role.createdAt := Role.createdAt row; Role.updatedAt := Role.updatedAt row |}).

Definition findRole (id projectId : string) : command (option Role.RoleProps) :=
  row ← read (λ d, roles d !! id);
  match row with
  | Some r =>
      if bool_decide (Role.projectId r = projectId)
      then role ← lift (restoreRole r); mret (Some role) else mret None
  | None => mret None
  end.

Definition compare_roles (a b : Role.RoleProps) : Z :=
  or_else (compare_text (Role.key a) (Role.key b)) (compare_text (Role.id a) (Role.id b)).

Definition listRoles (projectId : string) : command (list Role.RoleProps) :=
  rows ← read (λ d, sort_by compare_roles
                      (filter (λ r, Role.projectId r = projectId) (map_to_list (roles d)).*2));
  lift (map_result restoreRole rows).

Definition agent_by_name (projectId name : string) (d : tables) : option (string * Agent) :=
  List.find (λ p : string * Agent,
      bool_decide (ag_projectId p.2 = projectId) && bool_decide (ag_name p.2 = name))
    (map_to_list (agents d)).

(** The triggers [agent_role_same_project_insert] and [_update]. *)
Definition role_same_project (roleId projectId : string) (d : tables) : bool :=
  match roles d !! roleId with
  | Some r => bool_decide (Role.projectId r = projectId)
  | None => false
  end.

Definition updated_agent (old new : Agent) : Agent :=
  {| ag_id := ag_id old; ag_projectId := ag_projectId old; ag_roleId := ag_roleId new;
     ag_name := ag_name old; ag_enabled := ag_enabled new; ag_createdAt := ag_createdAt old;
     ag_updatedAt := ag_updatedAt new |}.

Definition saveAgent (value : Agent) : command unit :=
  lift (iso (ag_createdAt value));;
  lift (iso (ag_updatedAt value));;
  d ← read (λ d, d);
  refuse_if (negb (role_same_project (ag_roleId value) (ag_projectId value) d))
    (SqliteError "agent role must belong to the same project");;
  match agent_by_name (ag_projectId value) (ag_name value) d with
  | Some (id, old) => write (set_agents <[id := updated_agent old value]>)
  | None =>
      refuse_if (bool_decide (is_Some (agents d !! ag_id value))) (unique_failed "agent.id");;
      refuse_if (negb (known_project (ag_projectId value) d)) foreign_key;;
      write (set_agents <[ag_id value := value]>)
  end.

Definition findAgent (id : string) : command (option Agent) := read (λ d, agents d !! id).

Definition compare_agents (a b : Agent) : Z :=
  or_else (compare_text (ag_name a) (ag_name b)) (compare_text (ag_id a) (ag_id b)).

Definition listAgents (projectId : string) : command (list Agent) :=
  read (λ d, sort_by compare_agents
               (filter (λ a, ag_projectId a = projectId) (map_to_list (agents d)).*2)).

(** * Pipeline runs, as the agent runtime reads them *)

Definition run_is_active (p : PipelineRun.Run) : bool :=
  match PipelineRun.status p with PipelineRun.run_active => true | _ => false end.

Definition stage_is_active (s : PipelineRun.StageRun) : bool :=
  match PipelineRun.sr_status s with PipelineRun.stage_active => true | _ => false end.

(** [ORDER BY created_at DESC LIMIT 1]; one run of a task is active at most. *)
Definition active_pipelines (taskId projectId : string) (d : tables) : list PipelineRun.Run :=
  sort_by (λ a b, (default 0 (PipelineRun.createdAt b) - default 0 (PipelineRun.createdAt a))%Z)
    (filter (λ p, run_is_active p = true)
       (filter (λ p, PipelineRun.projectId p = projectId)
          (filter (λ p, PipelineRun.taskId p = taskId) (map_to_list (pipelines d)).*2))).

Definition findActiveByTask (taskId projectId : string) : command (option PipelineRun.Run) :=
  read (λ d, head (active_pipelines taskId projectId d)).

(** A method of the aggregate that only reads. *)
Definition current_stage (p : PipelineRun.Run) : command (option PipelineRun.StageRun) :=
  lift (PipelineRun.currentStage p).1.

(** The stage row that a run bound to it would have to name: the joined rows of
    [pipeline_run] and [pipeline_stage_run] in the triggers' subquery. *)
Definition stage_at (p : PipelineRun.Run) : option PipelineRun.StageRun :=
  List.find (λ s, PipelineRun.sr_stageIndex s =? PipelineRun.currentStageIndex p)
    (PipelineRun.stages p).

(** [agent_run_pipeline_binding_valid] of 0020, whose subquery the trigger of
    0034 repeats with the stage. *)
Definition binding_current (row : RunRow) (pipelineId : string) (d : tables) : bool :=
  match pipelines d !! pipelineId with
  | Some p =>
      bool_decide (PipelineRun.projectId p = r_project_id row) &&
      bool_decide (PipelineRun.taskId p = r_task_id row) && run_is_active p &&
      match stage_at p with
      | Some s =>
          stage_is_active s &&
          bool_decide (PipelineRun.sr_assignedAgentId s = Some (r_agent_id row)) &&
          bool_decide (r_pipeline_stage_run_id row = Some (PipelineRun.sr_id s))
      | None => false
      end
  | None => false
  end.

Definition stage_exists (stageRunId : string) (d : tables) : bool :=
  existsb (λ p : string * PipelineRun.Run,
      existsb (λ s, bool_decide (PipelineRun.sr_id s = stageRunId)) (PipelineRun.stages p.2))
    (map_to_list (pipelines d)).

(** * Runs *)

Section runs.
  Context `{ShowNumber}.

(** The values [saveRun] binds, in the order it computes them. *)
Definition row_of_run (v : AgentRun.Props) : outcome RunRow :=
  result ← json_column (AgentRun.result v);
  error ← json_column (AgentRun.error v);
  created ← iso (AgentRun.createdAt v);
  started ← iso_or_null (AgentRun.startedAt v);
  completed ← iso_or_null (AgentRun.completedAt v);
  updated ← iso (AgentRun.updatedAt v);
  Ok {| r_project_id := AgentRun.projectId v; r_task_id := AgentRun.taskId v;
        r_agent_id := AgentRun.agentId v; r_action_intent := AgentRun.actionIntent v;
        r_pipeline_run_id := AgentRun.pipelineRunId v;
        r_pipeline_stage_run_id := AgentRun.pipelineStageRunId v;
        r_status := AgentRun.status v; r_worktree_path := AgentRun.worktreePath v;
        r_result_json := result; r_error_json := error; r_created_at := created;
        r_started_at := started; r_completed_at := completed; r_updated_at := updated;
        r_execution := AgentRun.execution v; r_model_routing := AgentRun.modelRouting v;
        r_role_guidance := AgentRun.roleGuidance v |}.

(** The function [run]: the row as [AgentRun.restore] takes it. *)
Definition props_of_row (id : string) (row : RunRow) : AgentRun.AgentRunProps js :=
  {| AgentRun.id := id; AgentRun.projectId := r_project_id row;
     AgentRun.taskId := r_task_id row; AgentRun.agentId := r_agent_id row;
     AgentRun.pipelineRunId := r_pipeline_run_id row;
     AgentRun.pipelineStageRunId := r_pipeline_stage_run_id row;
     AgentRun.actionIntent := AgentRun.stored_intent <$> r_action_intent row;
     AgentRun.roleGuidance := r_role_guidance row; AgentRun.execution := r_execution row;
     AgentRun.modelRouting := r_model_routing row; AgentRun.status := r_status row;
     AgentRun.worktreePath := r_worktree_path row;
     AgentRun.result := embed 0 <$> r_result_json row;
     AgentRun.error := embed 0 <$> r_error_json row;
     AgentRun.createdAt := Some (r_created_at row); AgentRun.startedAt := Some <$> r_started_at row;
     AgentRun.completedAt := Some <$> r_completed_at row;
     AgentRun.updatedAt := Some (r_updated_at row);
     AgentRun.persistenceToken :=
       Some {| AgentRun.token_status := r_status row;
               AgentRun.token_updatedAt := Some (r_updated_at row) |} |}.

Definition run_of_row (id : string) (row : RunRow) : outcome AgentRun.Props :=
  AgentRun.optional_with (λ e, parseAgentExecution (AgentRun.provenance_json e))
    (r_execution row);;
  AgentRun.optional_with (λ r, parseAgentRunModelRouting (routing_json r))
    (r_model_routing row);;
  AgentRun.restore (props_of_row id row).

(** [canPersistAgentRunTransition] *)
Definition persisted_transitions (s : AgentRun.AgentRunStatus) : list AgentRun.AgentRunStatus :=
  match s with
  | AgentRun.queued => [AgentRun.preparing; AgentRun.running; AgentRun.reviewing;
                        AgentRun.completed; AgentRun.failed; AgentRun.cancelled]
  | AgentRun.preparing => [AgentRun.running; AgentRun.reviewing; AgentRun.completed;
                           AgentRun.failed; AgentRun.cancelled]
  | AgentRun.running => [AgentRun.reviewing; AgentRun.completed; AgentRun.failed;
                         AgentRun.cancelled]
  | AgentRun.reviewing => [AgentRun.completed; AgentRun.failed; AgentRun.cancelled]
  | _ => []
  end.

Definition canPersistAgentRunTransition (previous next : AgentRun.AgentRunStatus) : bool :=
  bool_decide (previous = next) || includes next (persisted_transitions previous).

Definition active_run_statuses : list AgentRun.AgentRunStatus :=
  [AgentRun.queued; AgentRun.preparing; AgentRun.running; AgentRun.reviewing].

(** The BEFORE INSERT triggers, which fire before ON CONFLICT is decided. *)
Definition run_ownership (row : RunRow) (d : tables) : bool :=
  match Store.tasks (base d) !! r_task_id row, agents d !! r_agent_id row with
  | Some t, Some a =>
      bool_decide (Task.projectId t = r_project_id row) &&
      bool_decide (ag_projectId a = r_project_id row)
  | _, _ => false
  end.

Definition binding_valid (row : RunRow) (d : tables) : bool :=
  match r_pipeline_run_id row with
  | None => true
  | Some p => binding_current row p d
  end.

Definition before_insert (row : RunRow) (d : tables) : outcome unit :=
  throw_if (negb (run_ownership row d))
    (SqliteError "agent run references must belong to the same project");;
  throw_if (negb (binding_valid row d))
    (SqliteError "agent run pipeline stage binding is not currently assigned").

(** [task_execution_history_agent_run] *)
Definition insert_refuses (row : RunRow) (d : tables) : bool :=
  includes (r_status row) active_run_statuses &&
  Store.has_prerequisite_outside [Task.completed; Task.waiting_review]
    (r_project_id row) (r_task_id row) (base d).

Definition record_run_start (row : RunRow) : Store.database → Store.database :=
  Store.set_history
    (Store.record_execution (r_task_id row) (r_project_id row) (Some (r_created_at row))).

(** [agent_run_claim_requires_prerequisites] *)
Definition claim_refuses (old new : RunRow) (d : tables) : bool :=
  bool_decide (r_status old = AgentRun.queued) &&
  includes (r_status new) [AgentRun.preparing; AgentRun.running; AgentRun.reviewing] &&
  Store.has_prerequisite_outside [Task.completed; Task.waiting_review]
    (r_project_id new) (r_task_id new) (base d).

(** [agent_run_execution_immutable] *)
Definition execution_refuses (old new : RunRow) : bool :=
  negb (bool_decide (r_execution old = None)) &&
  negb (bool_decide (r_execution new = r_execution old)).

(** An UPDATE of the row [id] with the triggers on the columns it sets. *)
Definition update_run (id : string) (old new : RunRow) : command unit :=
  d ← read (λ d, d);
  refuse_if (claim_refuses old new d) Store.incomplete_prerequisites;;
  refuse_if (execution_refuses old new)
    (SqliteError "agent run execution provenance is immutable");;
  write (set_runs <[id := new]>).

(** The primary key of [agent_run_event]. *)
Definition event_recorded (runId : string) (s : AgentRun.AgentRunStatus) (d : tables) : bool :=
  existsb (λ e, bool_decide (ev_run_id e = runId) && bool_decide (ev_status e = s))
    (run_events d).

(** [INSERT] and [INSERT OR IGNORE INTO agent_run_event] *)
Definition insert_run_event (e : RunEventRow) : command unit :=
  d ← read (λ d, d);
  refuse_if (event_recorded (ev_run_id e) (ev_status e) d) (unique_failed "agent_run_event.id");;
  write (set_run_events (λ l, l ++ [e])).

Definition insert_or_ignore_run_event (e : RunEventRow) : command unit :=
  d ← read (λ d, d);
  if event_recorded (ev_run_id e) (ev_status e) d then mret tt
  else write (set_run_events (λ l, l ++ [e])).

Definition appendRunEvent (v : AgentRun.Props) (row : RunRow) (inserted : bool) : command unit :=
  insert_or_ignore_run_event
    {| ev_run_id := AgentRun.id v; ev_status := AgentRun.status v;
       ev_hasResult := match AgentRun.result v with Some _ => true | None => false end;
       ev_hasError := match AgentRun.error v with Some _ => true | None => false end;
       ev_execution := AgentRun.execution v;
       ev_modelRouting := if inserted then AgentRun.modelRouting v else None;
       ev_ownerId := None; ev_occurred_at := r_updated_at row |}.

Definition conflict (v : AgentRun.Props) : error :=
  AgentRunPersistenceConflictError (AgentRun.id v).

(** The fields that no save may change; [new] holds the times of [v]. *)
Definition same_identity (current v : AgentRun.Props) (old new : RunRow) : bool :=
  bool_decide (AgentRun.projectId current = AgentRun.projectId v) &&
  bool_decide (AgentRun.taskId current = AgentRun.taskId v) &&
  bool_decide (AgentRun.agentId current = AgentRun.agentId v) &&
  bool_decide (AgentRun.pipelineRunId current = AgentRun.pipelineRunId v) &&
  bool_decide (AgentRun.pipelineStageRunId current = AgentRun.pipelineStageRunId v) &&
  bool_decide (stable_or_null (intent_js <$> AgentRun.actionIntent current) =
               stable_or_null (intent_js <$> AgentRun.actionIntent v)) &&
  bool_decide (stable_or_null (routing_js <$> AgentRun.modelRouting current) =
               stable_or_null (routing_js <$> AgentRun.modelRouting v)) &&
  bool_decide (stable_or_null (guidance_js <$> AgentRun.roleGuidance current) =
               stable_or_null (guidance_js <$> AgentRun.roleGuidance v)) &&
  bool_decide (r_created_at old = r_created_at new).

Definition same_mutable_state (current v : AgentRun.Props) (old new : RunRow) : bool :=
  bool_decide (AgentRun.worktreePath current = AgentRun.worktreePath v) &&
  bool_decide (stable_or_null (AgentRun.result current) = stable_or_null (AgentRun.result v)) &&
  bool_decide (stable_or_null (AgentRun.error current) = stable_or_null (AgentRun.error v)) &&
  bool_decide (r_started_at old = r_started_at new) &&
  bool_decide (r_completed_at old = r_completed_at new) &&
  bool_decide (stable_or_null (execution_js <$> AgentRun.execution current) =
               stable_or_null (execution_js <$> AgentRun.execution v)) &&
  bool_decide (r_updated_at old = r_updated_at new).

(** The token must be that of the stored row. *)
Definition token_matches (v : AgentRun.Props) (old : RunRow) : bool :=
  match AgentRun.persistenceToken v with
  | Some t => bool_decide (AgentRun.token_status t = r_status old) &&
              bool_decide (AgentRun.token_updatedAt t = Some (r_updated_at old))
  | None => false
  end.

(** The columns the UPDATE of [saveRun] sets. *)
Definition advanced_row (old new : RunRow) : RunRow :=
  {| r_project_id := r_project_id old; r_task_id := r_task_id old; r_agent_id := r_agent_id old;
     r_action_intent := r_action_intent old; r_pipeline_run_id := r_pipeline_run_id old;
     r_pipeline_stage_run_id := r_pipeline_stage_run_id old; r_status := r_status new;
     r_worktree_path := r_worktree_path new; r_result_json := r_result_json new;
     r_error_json := r_error_json new; r_created_at := r_created_at old;
     r_started_at := r_started_at new; r_completed_at := r_completed_at new;
     r_updated_at := r_updated_at new; r_execution := r_execution new;
     r_model_routing := r_model_routing old; r_role_guidance := r_role_guidance old |}.

(** [value.markPersisted()] *)
Definition mark (v : AgentRun.Props) : AgentRun.Props := (AgentRun.markPersisted v).2.

(** [saveRun]; the caller's object afterwards is the one returned. *)
Definition saveRun (value : AgentRun.Props) : command AgentRun.Props :=
  let v := AgentRun.snapshot value in
  savepoint (
    new ← lift (row_of_run v);
    d ← read (λ d, d);
    lift (before_insert new d);;
    match runs d !! AgentRun.id v with
    | None =>
        refuse_if (match r_pipeline_stage_run_id new with
                   | Some stage => negb (stage_exists stage d)
                   | None => false
                   end) foreign_key;;
        write (set_runs <[AgentRun.id v := new]>);;
        refuse_if (insert_refuses new d) Store.incomplete_prerequisites;;
        write (set_base (record_run_start new));;
        appendRunEvent v new true
    | Some old =>
        current ← lift (run_of_row (AgentRun.id v) old);
        refuse_if (negb (same_identity current v old new)) (conflict v);;
        if bool_decide (AgentRun.status current = AgentRun.status v) then
          refuse_if (negb (same_mutable_state current v old new)) (conflict v)
        else
          refuse_if (negb (token_matches v old) ||
              negb (canPersistAgentRunTransition (r_status old) (AgentRun.status v)) ||
              (r_updated_at new <? r_updated_at old)%Z) (conflict v);;
          update_run (AgentRun.id v) old (advanced_row old new);;
          appendRunEvent v new false
    end);;
  mret (mark value).

Definition findRun (id : string) : command (option AgentRun.Props) :=
  row ← read (λ d, runs d !! id);
  match row with
  | Some r => run ← lift (run_of_row id r); mret (Some run)
  | None => mret None
  end.

(** [ORDER BY created_at, id] and [ORDER BY updated_at, id] *)
Definition compare_created (a b : string * RunRow) : Z :=
  or_else (r_created_at a.2 - r_created_at b.2)%Z (compare_text a.1 b.1).
Definition compare_updated (a b : string * RunRow) : Z :=
  or_else (r_updated_at a.2 - r_updated_at b.2)%Z (compare_text a.1 b.1).

Definition project_runs (projectId : string) (d : tables) : list (string * RunRow) :=
  filter (λ p, r_project_id p.2 = projectId) (map_to_list (runs d)).

Definition restore_runs (rows : list (string * RunRow)) : outcome (list AgentRun.Props) :=
  map_result (λ p, run_of_row p.1 p.2) rows.

Definition listRuns (projectId : string) : command (list AgentRun.Props) :=
  rows ← read (λ d, sort_by compare_created (project_runs projectId d));
  lift (restore_runs rows).

Definition listQueuedRuns (projectId : string) (limit : nat) : command (list AgentRun.Props) :=
  rows ← read (λ d, take limit (sort_by compare_created
           (filter (λ p, r_status p.2 = AgentRun.queued) (project_runs projectId d))));
  lift (restore_runs rows).

Definition listRecoverableRuns (projectId : string) : command (list AgentRun.Props) :=
  rows ← read (λ d, sort_by compare_updated
           (filter (λ p, includes (r_status p.2)
                           [AgentRun.preparing; AgentRun.running; AgentRun.reviewing] = true)
              (project_runs projectId d)));
  lift (restore_runs rows).

Definition events_of (runId : string) (d : tables) : list RunEventRow :=
  filter (λ e, ev_run_id e = runId) (run_events d).

Definition listRunEvents (runId : string) : command (list RunEventRow) :=
  read (events_of runId).

(** [json_extract(payload_json, '$.ownerId')] of the event [preparing]. *)
Definition executionOwner (runId : string) : command (option string) :=
  read (λ d, match List.find (λ e, bool_decide (ev_status e = AgentRun.preparing))
                     (events_of runId d) with
             | Some e => ev_ownerId e
             | None => None
             end).

(** ** Admission *)

Record RunAuthority := {
  au_taskStatus : Task.TaskStatus;
  au_taskUpdatedAt : date;
  au_agentRoleId : string;
  au_agentUpdatedAt : date;
  au_roleId : string;
  au_roleKey : string;
  au_roleVersion : number;
  au_roleLimits : Role.RoleLimits;
  au_roleUpdatedAt : date;
  au_pipelineId : option string;
  au_pipelineStageRunId : option string;
  au_pipelineVersion : option Z
}.

Record RunAdmission := {
  ra_runId : string;
  ra_ownerId : option string;
  ra_now : date;
  ra_authority : option RunAuthority
}.

(** Whether the task has an active pipeline run, in any project or in the
    run's. *)
Definition has_active_pipeline (ok : PipelineRun.Run → bool) (taskId : string) (d : tables)
    : bool :=
  existsb (λ p : string * PipelineRun.Run,
      bool_decide (PipelineRun.taskId p.2 = taskId) && run_is_active p.2 && ok p.2)
    (map_to_list (pipelines d)).

(** The joined rows of task, agent, role and unexpired lock that both the
    admission and the acceptance of a result look for. *)
Definition authority_current (id : string) (row : RunRow) (taskStatus : Task.TaskStatus)
    (taskUpdatedAt : Z) (agentRoleId : string) (agentUpdatedAt : Z) (roleId roleKey : string)
    (roleVersion : number) (roleLimits : Role.RoleLimits) (roleUpdatedAt at_ : Z)
    (d : tables) : bool :=
  match Store.tasks (base d) !! r_task_id row, agents d !! r_agent_id row with
  | Some t, Some a =>
      bool_decide (Task.projectId t = r_project_id row) &&
      bool_decide (ag_projectId a = r_project_id row) &&
      bool_decide (Task.status t = taskStatus) &&
      bool_decide (Task.updatedAt t = Some taskUpdatedAt) && ag_enabled a &&
      bool_decide (ag_roleId a = agentRoleId) &&
      bool_decide (ag_updatedAt a = Some agentUpdatedAt) &&
      match roles d !! ag_roleId a with
      | Some ro =>
          bool_decide (Role.projectId ro = ag_projectId a) && bool_decide (Role.id ro = roleId) &&
          bool_decide (Role.key ro = roleKey) && bool_decide (Role.version ro = roleVersion) &&
          bool_decide (Role.limits ro = roleLimits) &&
          bool_decide (Role.updatedAt ro = Some roleUpdatedAt)
      | None => false
      end &&
      match locks d !! r_task_id row with
      | Some l => bool_decide (l_run_id l = id) && (at_ <? l_expires_at l)%Z
      | None => false
      end
  | _, _ => false
  end.

(** The last condition of the admission query: no pipeline, or the one
    observed, at the observed version, in the stage the run is bound to. *)
Definition admission_pipeline (row : RunRow) (a : RunAuthority) (d : tables) : bool :=
  (bool_decide (au_pipelineId a = None) && bool_decide (r_pipeline_run_id row = None) &&
   bool_decide (r_pipeline_stage_run_id row = None) &&
   negb (has_active_pipeline (λ _, true) (r_task_id row) d)) ||
  match au_pipelineId a, au_pipelineVersion a, au_pipelineStageRunId a with
  | Some p, Some version, Some stageRunId =>
      match pipelines d !! p with
      | Some pr =>
          bool_decide (r_pipeline_run_id row = Some p) &&
          bool_decide (PipelineRun.taskId pr = r_task_id row) &&
          bool_decide (PipelineRun.projectId pr = r_project_id row) &&
          bool_decide (PipelineRun.version pr = version) && run_is_active pr &&
          match stage_at pr with
          | Some s =>
              bool_decide (r_pipeline_stage_run_id row = Some (PipelineRun.sr_id s)) &&
              bool_decide (PipelineRun.sr_id s = stageRunId) && stage_is_active s &&
              bool_decide (PipelineRun.sr_assignedAgentId s = Some (r_agent_id row)) &&
              match agents d !! r_agent_id row with
              | Some ag => match roles d !! ag_roleId ag with
                           | Some ro => bool_decide (PipelineRun.sr_roleId s = Role.key ro)
                           | None => false
                           end
              | None => false
              end
          | None => false
          end
      | None => false
      end
  | _, _, _ => false
  end.

Definition admission_valid (id : string) (row : RunRow) (a : RunAuthority) (taskAt agentAt roleAt
    at_ : Z) (d : tables) : bool :=
  authority_current id row (au_taskStatus a) taskAt (au_agentRoleId a) agentAt (au_roleId a)
    (au_roleKey a) (au_roleVersion a) (au_roleLimits a) roleAt at_ d &&
  admission_pipeline row a d.

Definition not_eligible : js :=
  embed 0 (CObj [("code", CStr "RUN_NOT_ELIGIBLE");
                 ("message", CStr "Run authority is no longer eligible")]).

(** The columns the UPDATE of [admitQueuedRun] sets. *)
Definition admitted_row (old : RunRow) (s : AgentRun.AgentRunStatus) (at_ : Z)
    (completed : option Z) (error : option cjson) : RunRow :=
  {| r_project_id := r_project_id old; r_task_id := r_task_id old; r_agent_id := r_agent_id old;
     r_action_intent := r_action_intent old; r_pipeline_run_id := r_pipeline_run_id old;
     r_pipeline_stage_run_id := r_pipeline_stage_run_id old; r_status := s;
     r_worktree_path := r_worktree_path old; r_result_json := r_result_json old;
     r_error_json := error; r_created_at := r_created_at old;
     r_started_at := r_started_at old; r_completed_at := completed; r_updated_at := at_;
     r_execution := r_execution old; r_model_routing := r_model_routing old;
     r_role_guidance := r_role_guidance old |}.

(** [releaseTaskLock]: [DELETE FROM task_lock WHERE run_id=?] *)
Definition lock_of (runId : string) (d : tables) : option (string * LockRow) :=
  List.find (λ p : string * LockRow, bool_decide (l_run_id p.2 = runId)) (map_to_list (locks d)).

Definition releaseTaskLock (runId : string) : command bool :=
  found ← read (lock_of runId);
  write (set_locks (filter (λ p, l_run_id p.2 ≠ runId)));;
  mret (bool_decide (is_Some found)).

Definition on_run (p : AgentRun.Props) (m : method AgentRun.Props unit)
    : command AgentRun.Props :=
  match m p with
  | (Ok _, p') => mret p'
  | (Throw e, _) => mthrow e
  end.

Definition admitQueuedRun (input : RunAdmission) : command (option AgentRun.Props) :=
  let id := ra_runId input in
  savepoint (
    d ← read (λ d, d);
    match runs d !! id with
    | None => mret None
    | Some row =>
        if negb (bool_decide (r_status row = AgentRun.queued)) then mret None else
        accepted ← match ra_authority input with
          | None => mret false
          | Some a =>
              taskAt ← lift (iso (au_taskUpdatedAt a));
              agentAt ← lift (iso (au_agentUpdatedAt a));
              roleAt ← lift (iso (au_roleUpdatedAt a));
              at_ ← lift (iso (ra_now input));
              mret (admission_valid id row a taskAt agentAt roleAt at_ d)
          end;
        value ← lift (run_of_row id row);
        snapshot ← on_run value (AgentRun.transition
          (if accepted : bool then AgentRun.preparing else AgentRun.cancelled) (ra_now input)
          (if accepted : bool then AgentRun.no_details
           else {| AgentRun.det_worktreePath := None; AgentRun.det_result := None;
                   AgentRun.det_error := Some not_eligible; AgentRun.det_execution := None |}));
        at_ ← lift (iso (ra_now input));
        completed ← lift (iso_or_null (AgentRun.completedAt snapshot));
        error ← lift (json_column (AgentRun.error snapshot));
        update_run id row (admitted_row row (AgentRun.status snapshot) at_ completed error);;
        insert_run_event
          {| ev_run_id := id; ev_status := AgentRun.status snapshot; ev_hasResult := false;
             ev_hasError := negb accepted; ev_execution := None; ev_modelRouting := None;
             ev_ownerId := ra_ownerId input; ev_occurred_at := at_ |};;
        (if accepted : bool then mret tt else releaseTaskLock id;; mret tt);;
        mret (Some (mark snapshot))
    end).

(** ** Worker results *)

Record FencePipeline := {
  fp_id : string;
  fp_stageRunId : string;
  fp_version : Z;
  fp_currentStageIndex : nat;
  fp_stageId : string;
  fp_stageRoleId : string;
  fp_assignedAgentId : string
}.

Record WorkerAuthorityFence := {
  wf_runId : string;
  wf_projectId : string;
  wf_taskId : string;
  wf_taskStatus : Task.TaskStatus;
  wf_taskUpdatedAt : date;
  wf_agentId : string;
  wf_agentRoleId : string;
  wf_agentUpdatedAt : date;
  wf_roleId : string;
  wf_roleKey : string;
  wf_roleVersion : number;
  wf_roleLimits : Role.RoleLimits;
  wf_roleUpdatedAt : date;
  wf_pipeline : option FencePipeline;
  wf_execution : AgentExecutionProvenance
}.

Definition fence_pipeline (row : RunRow) (f : option FencePipeline) (d : tables) : bool :=
  match f with
  | None =>
      negb (has_active_pipeline (λ p, bool_decide (PipelineRun.projectId p = r_project_id row))
              (r_task_id row) d)
  | Some f =>
      match pipelines d !! fp_id f with
      | Some pr =>
          bool_decide (PipelineRun.projectId pr = r_project_id row) &&
          bool_decide (PipelineRun.taskId pr = r_task_id row) && run_is_active pr &&
          bool_decide (PipelineRun.version pr = fp_version f) &&
          bool_decide (PipelineRun.currentStageIndex pr = fp_currentStageIndex f) &&
          match stage_at pr with
          | Some s =>
              bool_decide (PipelineRun.sr_stageId s = fp_stageId f) &&
              bool_decide (PipelineRun.sr_id s = fp_stageRunId f) &&
              bool_decide (r_pipeline_stage_run_id row = Some (PipelineRun.sr_id s)) &&
              bool_decide (PipelineRun.sr_roleId s = fp_stageRoleId f) && stage_is_active s &&
              bool_decide (PipelineRun.sr_assignedAgentId s = Some (fp_assignedAgentId f))
          | None => false
          end
      | None => false
      end
  end.

(** The WHERE clause of the query; [updated] is the caller's copy's time. *)
Definition fence_valid (row : RunRow) (f : WorkerAuthorityFence)
    (updated taskAt agentAt roleAt at_ : Z) (d : tables) : bool :=
  bool_decide (r_project_id row = wf_projectId f) && bool_decide (r_task_id row = wf_taskId f) &&
  bool_decide (r_agent_id row = wf_agentId f) && bool_decide (r_status row = AgentRun.running) &&
  bool_decide (r_updated_at row = updated) &&
  bool_decide (r_execution row = Some (wf_execution f)) &&
  authority_current (wf_runId f) row (wf_taskStatus f) taskAt (wf_agentRoleId f) agentAt
    (wf_roleId f) (wf_roleKey f) (wf_roleVersion f) (wf_roleLimits f) roleAt at_ d &&
  fence_pipeline row (wf_pipeline f) d.

(** The columns the UPDATE of [acceptWorkerResult] sets. *)
Definition reviewing_row (old : RunRow) (result : option cjson) (at_ : Z) : RunRow :=
  {| r_project_id := r_project_id old; r_task_id := r_task_id old; r_agent_id := r_agent_id old;
     r_action_intent := r_action_intent old; r_pipeline_run_id := r_pipeline_run_id old;
     r_pipeline_stage_run_id := r_pipeline_stage_run_id old; r_status := AgentRun.reviewing;
     r_worktree_path := r_worktree_path old; r_result_json := result;
     r_error_json := r_error_json old; r_created_at := r_created_at old;
     r_started_at := r_started_at old; r_completed_at := r_completed_at old;
     r_updated_at := at_; r_execution := r_execution old;
     r_model_routing := r_model_routing old; r_role_guidance := r_role_guidance old |}.

Definition acceptWorkerResult (f : WorkerAuthorityFence) (run : AgentRun.Props) (result : js)
    (acceptedAt : date) : command bool :=
  at_ ← lift (iso acceptedAt);
  savepoint (
    updated ← lift (iso (AgentRun.updatedAt (AgentRun.snapshot run)));
    taskAt ← lift (iso (wf_taskUpdatedAt f));
    agentAt ← lift (iso (wf_agentUpdatedAt f));
    roleAt ← lift (iso (wf_roleUpdatedAt f));
    d ← read (λ d, d);
    match runs d !! wf_runId f with
    | None => mret false
    | Some row =>
        if negb (fence_valid row f updated taskAt agentAt roleAt at_ d) then mret false else
        stored ← lift (json_column (Some result));
        update_run (wf_runId f) row (reviewing_row row stored at_);;
        insert_run_event
          {| ev_run_id := wf_runId f; ev_status := AgentRun.reviewing; ev_hasResult := true;
             ev_hasError := false; ev_execution := None; ev_modelRouting := None;
             ev_ownerId := None; ev_occurred_at := at_ |};;
        mret true
    end).

(** ** Task locks *)

Definition findTaskLock (taskId : string) : command (option LockRow) :=
  read (λ d, locks d !! taskId).

(** The EXISTS condition of [acquireTaskLock] and [renewTaskLock]. *)
Definition run_alive (runId : string) (d : tables) : bool :=
  match runs d !! runId with
  | Some r => includes (r_status r) active_run_statuses
  | None => false
  end.

Definition acquireTaskLock (taskId runId : string) (acquiredAt expiresAt : date)
    : command bool :=
  acquired ← lift (iso acquiredAt);
  expires ← lift (iso expiresAt);
  d ← read (λ d, d);
  if negb (run_alive runId d &&
           match runs d !! runId with
           | Some r => bool_decide (r_task_id r = taskId)
           | None => false
           end) then mret false else
  let new := {| l_run_id := runId; l_acquired_at := acquired; l_expires_at := expires |} in
  match locks d !! taskId with
  | None =>
      refuse_if (bool_decide (is_Some (lock_of runId d))) (unique_failed "task_lock.run_id");;
      write (set_locks <[taskId := new]>);; mret true
  | Some l =>
      if (l_expires_at l <=? acquired)%Z then
        refuse_if (negb (bool_decide (l_run_id l = runId)) &&
                   bool_decide (is_Some (lock_of runId d))) (unique_failed "task_lock.run_id");;
        write (set_locks <[taskId := new]>);; mret true
      else mret false
  end.

Definition renewTaskLock (runId : string) (at_ newExpiresAt : date) : command bool :=
  if date_leb newExpiresAt at_ then mret false else
  expires ← lift (iso newExpiresAt);
  at_ ← lift (iso at_);
  d ← read (λ d, d);
  match lock_of runId d with
  | Some (taskId, l) =>
      if (at_ <? l_expires_at l)%Z && run_alive runId d then
        write (set_locks <[taskId := {| l_run_id := runId; l_acquired_at := l_acquired_at l;
                                        l_expires_at := expires |}]>);; mret true
      else mret false
  | None => mret false
  end.

End runs.

(** * Stepping through a command *)

Lemma read_bind {A B} (f : tables → A) (k : A → command B) w :
  (read f ≫= k) w = k (f (db w)) w.
Proof. done. Qed.

Lemma write_bind {B} (f : tables → tables) (k : unit → command B) w :
  (write f ≫= k) w = k tt (with_tables w (f (db w))).
Proof. done. Qed.

End RunStore.
