(* ===== verification/ActionStore.v ===== *)
(** The part of the project database that controlled actions live in:
    resources, capability grants, action requests, simulations, approvals and
    executions, next to the tables of [RunStore].  Models
    [packages/storage-sqlite/src/repositories/sqlite-capability-policy.repository.ts],
    [sqlite-controlled-execution.repository.ts], their two ports, and the
    triggers and constraints of [migrations/project/0013], [0014], [0020] and
    [0021] on these tables.

    A time column holds the instant of the ISO text the code writes, a JSON
    column the value of the text.  Left out are the CHECK constraints that
    repeat what the services and aggregates validate.  Where several triggers
    refuse a row, SQLite does not say which of them reports it. *)
From S2P Require Import Prelude Errors PipelineModel Json ActionModel PolicyModel AgentModel Store RunStore.
Import Canonical Policy.

Module ActionStore.

(** * Data *)

Abbreviation Request := ActionRequest.Props.
Abbreviation Simulation :=
  (ActionSimulation.ActionSimulationProps (list ActionSimulation.FilePrecondition)).
Abbreviation Approval := ActionApproval.ActionApprovalProps.
Abbreviation Execution := ActionExecution.ActionExecutionProps.

Record tables := {
  resources : gmap string Resource;
  grants : gmap string CapabilityGrant;
  requests : gmap string Request;
  simulations : gmap string Simulation;
  approvals : gmap string Approval;
  executions : gmap string Execution
}.

(** What the host asked connectors to do outside the process: it is not part
    of the database, and no transaction takes it back. *)
Inductive effect :=
| prepared (projectId : string)
| invoked (actionRequestId : string)
| mutated (actionRequestId : string).

#[global] Instance effect_eq_dec : EqDecision effect.
Proof. solve_decision. Defined.

Record world := {
  host : RunStore.world;
  caps : tables;
  effects : list effect
}.

Abbreviation command A := (method world A).

(** ** Access *)

Definition with_caps (w : world) (c : tables) : world :=
  {| host := host w; caps := c; effects := effects w |}.

Definition on_host (f : RunStore.world → RunStore.world) (w : world) : world :=
  {| host := f (host w); caps := caps w; effects := effects w |}.

(** A command on the other tables of the database. *)
Definition on_runs {A} (m : RunStore.command A) : command A := λ w,
  let '(r, h) := m (host w) in (r, on_host (λ _, h) w).

Definition write (f : tables → tables) : command unit := λ w,
  (Ok tt, with_caps w (f (caps w))).

Definition record_effect (e : effect) : command nat := λ w,
  (Ok (length (effects w)),
   {| host := host w; caps := caps w; effects := effects w ++ [e] |}).

Definition set_resources (f : gmap string Resource → gmap string Resource) (d : tables) : tables :=
  {| resources := f (resources d); grants := grants d; requests := requests d;
     simulations := simulations d; approvals := approvals d; executions := executions d |}.
Definition set_grants (f : gmap string CapabilityGrant → gmap string CapabilityGrant)
    (d : tables) : tables :=
  {| resources := resources d; grants := f (grants d); requests := requests d;
     simulations := simulations d; approvals := approvals d; executions := executions d |}.
Definition set_requests (f : gmap string Request → gmap string Request) (d : tables) : tables :=
  {| resources := resources d; grants := grants d; requests := f (requests d);
     simulations := simulations d; approvals := approvals d; executions := executions d |}.
Definition set_simulations (f : gmap string Simulation → gmap string Simulation)
    (d : tables) : tables :=
  {| resources := resources d; grants := grants d; requests := requests d;
     simulations := f (simulations d); approvals := approvals d; executions := executions d |}.
Definition set_approvals (f : gmap string Approval → gmap string Approval) (d : tables) : tables :=
  {| resources := resources d; grants := grants d; requests := requests d;
     simulations := simulations d; approvals := f (approvals d); executions := executions d |}.
Definition set_executions (f : gmap string Execution → gmap string Execution) (d : tables)
    : tables :=
  {| resources := resources d; grants := grants d; requests := requests d;
     simulations := simulations d; approvals := approvals d; executions := f (executions d) |}.

Definition set_active (b : bool) (h : RunStore.world) : RunStore.world :=
  {| RunStore.db := RunStore.db h; RunStore.active := b; RunStore.ticks := RunStore.ticks h;
     RunStore.generated := RunStore.generated h |}.

(** [SqliteTransactionRunner.run] on the whole database. *)
Definition run {A} (work : command A) : command A := λ w,
  if RunStore.active (host w) then (Throw TransactionAlreadyActiveError, w)
  else
    match work (on_host (set_active true) w) with
    | (Ok a, w') => (Ok a, on_host (set_active false) w')
    | (Throw e, w') =>
        (Throw e,
         {| host := set_active false (RunStore.with_tables (host w') (RunStore.db (host w)));
            caps := caps w; effects := effects w' |})
    end.

(** The first row that satisfies [p], in the order of the primary key. *)
Definition find_row {V} (p : V → bool) (m : gmap string V) : option V :=
  snd <$> List.find (λ kv : string * V, p kv.2) (map_to_list m).

(** [JSON.parse(JSON.stringify(v))] *)
Fixpoint json_text (v : cjson) : cjson :=
  match v with
  | CNum n => RunStore.json_number n
  | CArr items => CArr (json_text <$> items)
  | CObj members => CObj ((λ m, (m.1, json_text m.2)) <$> members)
  | _ => v
  end.

Definition plain_error (message : string) : error := ForeignError "Error" message.

Definition parseRecord (stored : cjson) : outcome record :=
  normalized ← normalizeCanonicalJson (embed 0 stored);
  match normalized with
  | CObj members => Ok members
  | _ => Throw (plain_error "Stored capability JSON is not an object")
  end.

(** A key among the ones the schema's triggers refuse: [lower] and [replace]
    of SQL keep every other character. *)
Definition sql_lower (c : Ascii.ascii) : Ascii.ascii :=
  if is_upper c then Ascii.ascii_of_nat (Ascii.nat_of_ascii c + 32) else c.

Fixpoint sql_field_key (key : string) : string :=
  match key with
  | EmptyString => ""
  | String c rest =>
      if one_of "_- " c then sql_field_key rest else String (sql_lower c) (sql_field_key rest)
  end.

Definition prototype_key (key : string) : bool := includes key forbiddenObjectKeys.

Definition forbidden_key (key : string) : bool :=
  prototype_key key || includes (sql_field_key key) sensitiveFieldNames.

(** [length(trim(s)) = 0] in SQL, whose [trim] removes spaces only. *)
Definition sql_blank (s : string) : bool := string_all (one_of " ") s.

Definition by_created {V} (created : V → date) (id : V → string) (a b : V) : Z :=
  or_else (default 0 (created a) - default 0 (created b))%Z (compare_text (id a) (id b)).

(** * Resources *)

Definition restored_resource (r : Resource) : outcome Resource :=
  configuration ← parseRecord (CObj (res_configuration r));
  Ok {| res_id := res_id r; res_projectId := res_projectId r; res_type := res_type r;
        res_provider := res_provider r; res_externalRef := res_externalRef r;
        res_displayName := res_displayName r; res_configuration := configuration;
        res_credentialRef := None; res_status := res_status r;
        res_createdAt := res_createdAt r; res_updatedAt := res_updatedAt r |}.

(** The row written: [credential_ref] is NULL. *)
Definition resource_row (r : Resource) : Resource :=
  {| res_id := res_id r; res_projectId := res_projectId r; res_type := res_type r;
     res_provider := res_provider r; res_externalRef := res_externalRef r;
     res_displayName := res_displayName r;
     res_configuration := (λ m, (m.1, json_text m.2)) <$> res_configuration r;
     res_credentialRef := None; res_status := res_status r;
     res_createdAt := res_createdAt r; res_updatedAt := res_updatedAt r |}.

(** The CHECK constraints on [provider], [type] and [external_ref] of 0013. *)
Definition provider_check (r : Resource) : bool :=
  bool_decide (res_type r = filesystem_scope) &&
  (bool_decide (res_provider r = "fake") ||
   bool_decide (res_provider r = "filesystem") &&
   match res_externalRef r with Some s => negb (sql_blank s) | None => false end).

Definition check_failed : error := SqliteError "CHECK constraint failed".

Definition saveResource (value : Resource) : command unit :=
  lift (RunStore.iso (res_createdAt value));;
  lift (RunStore.iso (res_updatedAt value));;
  w ← get;
  let row := resource_row value in
  refuse_if (has_key forbidden_key (CObj (res_configuration row)))
    (SqliteError "resource configuration contains a forbidden field");;
  refuse_if (negb (provider_check row)) check_failed;;
  refuse_if (bool_decide (is_Some (resources (caps w) !! res_id row)))
    (RunStore.unique_failed "resources.id");;
  refuse_if (negb (RunStore.known_project (res_projectId row) (RunStore.db (host w))))
    RunStore.foreign_key;;
  write (set_resources <[res_id row := row]>).

Definition findResource (id : string) : command (option Resource) :=
  w ← get;
  match resources (caps w) !! id with
  | Some r => v ← lift (restored_resource r); mret (Some v)
  | None => mret None
  end.

Definition project_resources (projectId : string) (d : tables) : list Resource :=
  sort_by (by_created res_createdAt res_id)
    (filter (λ r, res_projectId r = projectId) (map_to_list (resources d)).*2).

Definition listResources (projectId : string) : command (list Resource) :=
  w ← get; lift (map_result restored_resource (project_resources projectId (caps w))).

Definition disabled_resource (r : Resource) (at_ : date) : Resource :=
  {| res_id := res_id r; res_projectId := res_projectId r; res_type := res_type r;
     res_provider := res_provider r; res_externalRef := res_externalRef r;
     res_displayName := res_displayName r; res_configuration := res_configuration r;
     res_credentialRef := res_credentialRef r; res_status := disabled;
     res_createdAt := res_createdAt r; res_updatedAt := at_ |}.

Definition disableResource (id projectId : string) (at_ : date) : command bool :=
  lift (RunStore.iso at_);;
  w ← get;
  match resources (caps w) !! id with
  | Some r =>
      if bool_decide (res_projectId r = projectId) && bool_decide (res_status r = active)
      then write (set_resources <[id := disabled_resource r at_]>);; mret true
      else mret false
  | None => mret false
  end.

(** * Grants *)

Definition with_constraints (g : CapabilityGrant) (c : record) : CapabilityGrant :=
  {| gr_id := gr_id g; gr_projectId := gr_projectId g; gr_principalType := gr_principalType g;
     gr_principalId := gr_principalId g; gr_resourceId := gr_resourceId g;
     gr_actions := gr_actions g; gr_constraints := c; gr_validFrom := gr_validFrom g;
     gr_expiresAt := gr_expiresAt g; gr_revokedAt := gr_revokedAt g;
     gr_grantedBy := gr_grantedBy g; gr_reason := gr_reason g; gr_createdAt := gr_createdAt g |}.

Definition restored_grant (g : CapabilityGrant) : outcome CapabilityGrant :=
  constraints ← parseRecord (CObj (gr_constraints g));
  Ok (with_constraints g constraints).

(** [capability_grant_principal_ownership_insert] *)
Definition principal_owned (g : CapabilityGrant) (d : RunStore.tables) : bool :=
  match gr_principalType g with
  | principal_agent =>
      match RunStore.agents d !! gr_principalId g with
      | Some a => bool_decide (RunStore.ag_projectId a = gr_projectId g)
      | None => false
      end
  | principal_role =>
      match RunStore.roles d !! gr_principalId g with
      | Some r => bool_decide (Role.projectId r = gr_projectId g)
      | None => false
      end
  | _ => true
  end.

Definition resource_in_project (resourceId projectId : string) (d : tables) : bool :=
  match resources d !! resourceId with
  | Some r => bool_decide (res_projectId r = projectId)
  | None => false
  end.

Definition saveGrant (value : CapabilityGrant) : command unit :=
  lift (RunStore.iso (gr_validFrom value));;
  lift (RunStore.iso_or_null (gr_expiresAt value));;
  lift (RunStore.iso_or_null (gr_revokedAt value));;
  lift (RunStore.iso (gr_createdAt value));;
  w ← get;
  let row := with_constraints value ((λ m, (m.1, json_text m.2)) <$> gr_constraints value) in
  refuse_if (has_key prototype_key (CObj (gr_constraints row)))
    (SqliteError "capability constraints contain a forbidden field");;
  refuse_if (negb (principal_owned row (RunStore.db (host w))))
    (SqliteError "capability principal must belong to the same project");;
  refuse_if (bool_decide (is_Some (grants (caps w) !! gr_id row)))
    (RunStore.unique_failed "capability_grants.id");;
  refuse_if (negb (resource_in_project (gr_resourceId row) (gr_projectId row) (caps w)))
    RunStore.foreign_key;;
  write (set_grants <[gr_id row := row]>).

Definition findGrant (id : string) : command (option CapabilityGrant) :=
  w ← get;
  match grants (caps w) !! id with
  | Some g => v ← lift (restored_grant g); mret (Some v)
  | None => mret None
  end.

Definition project_grants (projectId : string) (resourceId : option string) (d : tables)
    : list CapabilityGrant :=
  sort_by (by_created gr_createdAt gr_id)
    (filter (λ g, from_option (λ r, bool_decide (gr_resourceId g = r)) true resourceId = true)
       (filter (λ g, gr_projectId g = projectId) (map_to_list (grants d)).*2)).

Definition listGrants (projectId : string) (resourceId : option string)
    : command (list CapabilityGrant) :=
  w ← get; lift (map_result restored_grant (project_grants projectId resourceId (caps w))).

Definition revoked_grant (g : CapabilityGrant) (at_ : date) : CapabilityGrant :=
  {| gr_id := gr_id g; gr_projectId := gr_projectId g; gr_principalType := gr_principalType g;
     gr_principalId := gr_principalId g; gr_resourceId := gr_resourceId g;
     gr_actions := gr_actions g; gr_constraints := gr_constraints g;
     gr_validFrom := gr_validFrom g; gr_expiresAt := gr_expiresAt g; gr_revokedAt := Some at_;
     gr_grantedBy := gr_grantedBy g; gr_reason := gr_reason g; gr_createdAt := gr_createdAt g |}.

Definition revokeGrant (id projectId : string) (at_ : date) : command bool :=
  lift (RunStore.iso at_);;
  w ← get;
  match grants (caps w) !! id with
  | Some g =>
      if bool_decide (gr_projectId g = projectId) && bool_decide (gr_revokedAt g = None) then
        refuse_if (date_ltb at_ (gr_createdAt g))
          (SqliteError "capability grant revocation is immutable");;
        write (set_grants <[id := revoked_grant g at_]>);; mret true
      else mret false
  | None => mret false
  end.

(** * Action requests *)

Import ActionRequest.

Definition request_row (p : Request) : Request :=
  with_fields p (json_text (normalizedArguments p)) (json_text (effectiveConstraints p))
    (status p) (createdAt p) (updatedAt p).

(** [action(row)] *)
Definition restored_request (p : Request) : outcome Request :=
  arguments ← parseRecord (normalizedArguments p);
  constraints ← parseRecord (effectiveConstraints p);
  restore (with_fields p (embed 0 (CObj arguments)) (embed 0 (CObj constraints))
             (status p) (createdAt p) (updatedAt p)).

(** [action_request_connector_matches_resource] *)
Definition connector_matches (p : Request) (d : tables) : bool :=
  match resources d !! resourceId p with
  | Some r => bool_decide (res_projectId r = projectId p) &&
              bool_decide (res_provider r = connector p)
  | None => false
  end.

(** [action_request_pipeline_binding_valid] of 0021 *)
Definition pipeline_binding_valid (p : Request) (d : RunStore.tables) : bool :=
  match pipelineRunId p, pipelineStageRunId p with
  | None, None => true
  | Some runId, Some stageRunId =>
      match RunStore.pipelines d !! runId with
      | Some pr =>
          bool_decide (PipelineRun.projectId pr = projectId p) && RunStore.run_is_active pr &&
          existsb (λ s, bool_decide (PipelineRun.sr_id s = stageRunId) &&
                        match PipelineRun.sr_status s with
                        | PipelineRun.stage_active | PipelineRun.stage_awaiting_approval => true
                        | _ => false
                        end) (PipelineRun.stages pr)
      | None => false
      end
  | _, _ => false
  end.

(** [action_request_agent_run_binding_valid] *)
Definition agent_run_binding_valid (p : Request) (d : RunStore.tables) : bool :=
  match agentRunId p with
  | None => true
  | Some id =>
      match RunStore.runs d !! id with
      | Some r =>
          bool_decide (RunStore.r_project_id r = projectId p) &&
          bool_decide (RunStore.r_agent_id r = agentId p) &&
          bool_decide (RunStore.r_pipeline_run_id r = pipelineRunId p)
      | None => false
      end
  end.

(** The CHECK constraints on the connector and the hash of 0014. *)
Definition connector_check (p : Request) : bool :=
  bool_decide (connector p = "fake") && bool_decide (connectorVersion p = "1") ||
  bool_decide (connector p = "filesystem") && includes (connectorVersion p) ["1"; "2"].

Definition agent_in_project (agentId projectId : string) (d : RunStore.tables) : bool :=
  match RunStore.agents d !! agentId with
  | Some a => bool_decide (RunStore.ag_projectId a = projectId)
  | None => false
  end.

Definition insertActionRequest (value : Request) : command unit :=
  lift (RunStore.iso (createdAt value));;
  lift (RunStore.iso (updatedAt value));;
  w ← get;
  let row := request_row value in
  refuse_if (has_key forbidden_key (normalizedArguments row) ||
             has_key prototype_key (effectiveConstraints row))
    (SqliteError "action request JSON contains a forbidden field");;
  refuse_if (negb (bool_decide (status row = requested)))
    (SqliteError "action request must start requested");;
  refuse_if (negb (connector_matches row (caps w)))
    (SqliteError "action connector must match resource provider");;
  refuse_if (negb (pipeline_binding_valid row (RunStore.db (host w))))
    (SqliteError "action request pipeline binding is inconsistent");;
  refuse_if (negb (agent_run_binding_valid row (RunStore.db (host w))))
    (SqliteError "action request agent-run binding is inconsistent");;
  refuse_if (bool_decide (is_Some (requests (caps w) !! id row)))
    (RunStore.unique_failed "action_requests.id");;
  refuse_if (negb (connector_check row) || negb (is_sha256_hex (payloadHash row))) check_failed;;
  refuse_if (negb (agent_in_project (agentId row) (projectId row) (RunStore.db (host w))))
    RunStore.foreign_key;;
  write (set_requests <[id row := row]>).

Definition findActionRequest (id : string) : command (option Request) :=
  w ← get;
  match requests (caps w) !! id with
  | Some p => v ← lift (restored_request p); mret (Some v)
  | None => mret None
  end.

Definition project_requests (project : string) (d : tables) : list Request :=
  sort_by (by_created createdAt id)
    (filter (λ p, projectId p = project) (map_to_list (requests d)).*2).

Definition listActionRequests (project : string) : command (list Request) :=
  w ← get; lift (map_result restored_request (project_requests project (caps w))).

(** ** Transitions *)

Definition simulation_of (actionRequestId project : string) (d : tables) : option Simulation :=
  find_row (λ s, bool_decide (ActionSimulation.actionRequestId s = actionRequestId) &&
                 bool_decide (ActionSimulation.projectId s = project)) (simulations d).

Definition approval_of (actionRequestId project : string) (d : tables) : option Approval :=
  find_row (λ a, bool_decide (ActionApproval.actionRequestId a = actionRequestId) &&
                 bool_decide (ActionApproval.projectId a = project)) (approvals d).

Definition execution_of (actionRequestId project : string) (d : tables) : option Execution :=
  find_row (λ e, bool_decide (ActionExecution.actionRequestId e = actionRequestId) &&
                 bool_decide (ActionExecution.projectId e = project)) (executions d).

Definition read_operations : list string :=
  ["filesystem.list"; "filesystem.read"; "filesystem.search"].
Definition mutation_operations : list string :=
  ["filesystem.create"; "filesystem.write"; "filesystem.move"; "filesystem.delete"].
Definition fake_mutations : list string := ["fake.write"; "fake.delete"; "fake.admin"].

Definition is_filesystem (p : Request) (versions : list string) : bool :=
  bool_decide (connector p = "filesystem") && includes (connectorVersion p) versions.

Definition is_fake (p : Request) : bool :=
  bool_decide (connector p = "fake") && bool_decide (connectorVersion p = "1").

(** [EXISTS (SELECT 1 FROM action_approvals ... AND status = s)] *)
Definition approval_is (p : Request) (s : ActionApproval.ActionApprovalStatus) (d : tables) : bool :=
  existsb (λ kv : string * Approval,
      bool_decide (ActionApproval.projectId kv.2 = projectId p) &&
      bool_decide (ActionApproval.actionRequestId kv.2 = id p) &&
      bool_decide (ActionApproval.status kv.2 = s)) (map_to_list (approvals d)).

Definition execution_is (p : Request) (s : ActionExecution.ActionExecutionStatus) (d : tables)
    : bool :=
  existsb (λ kv : string * Execution,
      bool_decide (ActionExecution.projectId kv.2 = projectId p) &&
      bool_decide (ActionExecution.actionRequestId kv.2 = id p) &&
      bool_decide (ActionExecution.status kv.2 = s)) (map_to_list (executions d)).

(** The executions that end a request with the status [s]. *)
Definition execution_status (s : ActionStatus) : option ActionExecution.ActionExecutionStatus :=
  match s with
  | completed => Some ActionExecution.completed
  | failed => Some ActionExecution.failed
  | execution_unknown => Some ActionExecution.execution_unknown
  | _ => None
  end.

(** The condition of [action_request_status_transition] of 0014. *)
Definition transition_allowed (p : Request) (s : ActionStatus) (d : tables) : bool :=
  match status p, s with
  | requested, denied => bool_decide (decision p = deny)
  | requested, authorized => negb (bool_decide (decision p = deny))
  | authorized, executing =>
      bool_decide (decision p = allow) && is_filesystem p ["1"; "2"] &&
      includes (operation p) read_operations
  | authorized, simulating =>
      is_filesystem p ["1"] &&
        (bool_decide (decision p = allow_simulation_only) &&
         includes (operation p) ["filesystem.create"; "filesystem.write"; "filesystem.move"] ||
         bool_decide (decision p = allow_with_approval) &&
         bool_decide (operation p = "filesystem.delete")) ||
      is_filesystem p ["2"] && bool_decide (decision p = allow_with_approval) &&
        includes (operation p) mutation_operations ||
      is_fake p &&
        (bool_decide (decision p = allow_simulation_only) &&
         bool_decide (operation p = "fake.write") ||
         bool_decide (decision p = allow_with_approval) &&
         includes (operation p) ["fake.delete"; "fake.admin"])
  | simulating, simulated | simulating, failed =>
      is_filesystem p ["1"; "2"] && includes (operation p) mutation_operations ||
      is_fake p && includes (operation p) fake_mutations
  | simulated, approval_pending =>
      bool_decide (decision p = allow_with_approval) &&
      (is_filesystem p ["1"] && bool_decide (operation p = "filesystem.delete") ||
       is_fake p && includes (operation p) ["fake.delete"; "fake.admin"] ||
       is_filesystem p ["2"] && includes (operation p) mutation_operations &&
       approval_is p ActionApproval.pending d)
  | approval_pending, rejected =>
      is_filesystem p ["2"] && approval_is p ActionApproval.rejected d
  | approval_pending, executing =>
      is_filesystem p ["2"] && bool_decide (decision p = allow_with_approval) &&
      includes (operation p) mutation_operations &&
      approval_is p ActionApproval.approved d && execution_is p ActionExecution.executing d
  | executing, _ =>
      match execution_status s with
      | Some e =>
          negb (bool_decide (s = execution_unknown)) && is_filesystem p ["1"; "2"] &&
            includes (operation p) read_operations ||
          is_filesystem p ["2"] && includes (operation p) mutation_operations &&
            execution_is p e d
      | None => false
      end
  | _, _ => false
  end.

(** [action_request_simulation_requires_artifact] *)
Definition has_artifact (p : Request) (d : tables) : bool :=
  existsb (λ kv : string * Simulation,
      bool_decide (ActionSimulation.actionRequestId kv.2 = id p) &&
      bool_decide (ActionSimulation.projectId kv.2 = projectId p) &&
      bool_decide (ActionSimulation.authorizationPayloadHash kv.2 = payloadHash p) &&
      bool_decide (ActionSimulation.connector kv.2 = connector p) &&
      bool_decide (ActionSimulation.connectorVersion kv.2 = connectorVersion p) &&
      bool_decide (ActionSimulation.operation kv.2 = operation p)) (map_to_list (simulations d)).

Definition with_status (p : Request) (s : ActionStatus) (at_ : date) : Request :=
  with_fields p (normalizedArguments p) (effectiveConstraints p) s (createdAt p) at_.

Definition transitionActionRequest (actionId project : string) (expected s : ActionStatus)
    (at_ : date) : command bool :=
  lift (RunStore.iso at_);;
  w ← get;
  match requests (caps w) !! actionId with
  | Some p =>
      if bool_decide (projectId p = project) && bool_decide (status p = expected) then
        refuse_if (negb (bool_decide (s = status p)) && negb (transition_allowed p s (caps w)))
          (SqliteError "invalid action request status transition");;
        refuse_if (bool_decide (status p = simulating) && bool_decide (s = simulated) &&
                   negb (has_artifact p (caps w)))
          (SqliteError "simulated action requires a matching artifact");;
        refuse_if (date_ltb at_ (updatedAt p))
          (SqliteError "action request timestamp cannot move backwards");;
        refuse_if (bool_decide (s = status p) && negb (bool_decide (at_ = updatedAt p)))
          (SqliteError "action request timestamp requires a status transition");;
        write (set_requests <[actionId := with_status p s at_]>);;
        mret true
      else mret false
  | None => mret false
  end.

(** * Simulations *)

(** [simulation(row)] *)
Definition restored_simulation (s : Simulation) : outcome Simulation :=
  checks ← ActionSimulation.normalizeFilePreconditions
    (embed 0 (CArr (ActionSimulation.to_json <$> ActionSimulation.preconditions s)));
  ActionSimulation.create
    {| ActionSimulation.id := ActionSimulation.id s;
       ActionSimulation.projectId := ActionSimulation.projectId s;
       ActionSimulation.actionRequestId := ActionSimulation.actionRequestId s;
       ActionSimulation.authorizationPayloadHash := ActionSimulation.authorizationPayloadHash s;
       ActionSimulation.connector := ActionSimulation.connector s;
       ActionSimulation.connectorVersion := ActionSimulation.connectorVersion s;
       ActionSimulation.operation := ActionSimulation.operation s;
       ActionSimulation.preconditions := embed 0 (CArr (ActionSimulation.to_json <$> checks));
       ActionSimulation.diff := ActionSimulation.diff s;
       ActionSimulation.diffSha256 := ActionSimulation.diffSha256 s;
       ActionSimulation.artifactSha256 := ActionSimulation.artifactSha256 s;
       ActionSimulation.createdAt := ActionSimulation.createdAt s |}.

(** [action_simulation_matches_action] *)
Definition simulation_matches (s : Simulation) (d : tables) : bool :=
  match requests d !! ActionSimulation.actionRequestId s with
  | Some p =>
      bool_decide (projectId p = ActionSimulation.projectId s) &&
      bool_decide (payloadHash p = ActionSimulation.authorizationPayloadHash s) &&
      bool_decide (connector p = ActionSimulation.connector s) &&
      bool_decide (connectorVersion p = ActionSimulation.connectorVersion s) &&
      bool_decide (operation p = ActionSimulation.operation s) &&
      bool_decide (status p = simulating)
  | None => false
  end.

(** [INSERT OR IGNORE]: a key that is taken leaves the table as it is.
    [action_simulation_preconditions_safe] repeats what the aggregate
    validates. *)
Definition insertActionSimulation (s : Simulation) : command bool :=
  lift (RunStore.iso (ActionSimulation.createdAt s));;
  w ← get;
  refuse_if (negb (simulation_matches s (caps w)))
    (SqliteError "simulation must match a simulating action request");;
  if bool_decide (is_Some (simulations (caps w) !! ActionSimulation.id s)) ||
     bool_decide (is_Some (simulation_of (ActionSimulation.actionRequestId s)
                             (ActionSimulation.projectId s) (caps w)))
  then mret false
  else write (set_simulations <[ActionSimulation.id s := s]>);; mret true.

Definition findActionSimulationByAction (actionRequestId project : string)
    : command (option Simulation) :=
  w ← get;
  match simulation_of actionRequestId project (caps w) with
  | Some s => v ← lift (restored_simulation s); mret (Some v)
  | None => mret None
  end.

(** * Approvals *)

(** [action_approval_matches_action] *)
Definition approval_matches (a : Approval) (d : tables) : bool :=
  match requests d !! ActionApproval.actionRequestId a,
        simulations d !! ActionApproval.simulationId a with
  | Some p, Some s =>
      bool_decide (projectId p = ActionApproval.projectId a) &&
      bool_decide (ActionSimulation.projectId s = projectId p) &&
      bool_decide (ActionSimulation.actionRequestId s = id p) &&
      bool_decide (status p = simulated) && bool_decide (decision p = allow_with_approval) &&
      bool_decide (payloadHash p = ActionApproval.actionPayloadHash a) &&
      bool_decide (connector p = ActionApproval.connector a) &&
      bool_decide (connectorVersion p = ActionApproval.connectorVersion a) &&
      bool_decide (operation p = ActionApproval.operation a) &&
      bool_decide (ActionSimulation.artifactSha256 s = ActionApproval.simulationArtifactHash a)
  | _, _ => false
  end.

(** The CHECK constraints on the connector and the decision of 0014. *)
Definition approval_check (a : Approval) : bool :=
  bool_decide (ActionApproval.connector a = "filesystem") &&
  bool_decide (ActionApproval.connectorVersion a = "2") &&
  includes (ActionApproval.operation a) mutation_operations &&
  match ActionApproval.status a, ActionApproval.decidedAt a, ActionApproval.actor a with
  | ActionApproval.pending, None, None => true
  | ActionApproval.pending, _, _ => false
  | _, Some t, Some who =>
      negb (sql_blank who) && negb (date_ltb t (ActionApproval.requestedAt a))
  | _, _, _ => false
  end.

(** [INSERT OR IGNORE], which skips a row that fails a CHECK constraint too. *)
Definition insertApproval (a : Approval) : command bool :=
  lift (RunStore.iso (ActionApproval.requestedAt a));;
  lift (RunStore.iso_or_null (ActionApproval.decidedAt a));;
  w ← get;
  refuse_if (negb (approval_matches a (caps w)))
    (SqliteError "approval must match a simulated action artifact");;
  if negb (approval_check a) ||
     bool_decide (is_Some (approvals (caps w) !! ActionApproval.id a)) ||
     bool_decide (is_Some (approval_of (ActionApproval.actionRequestId a)
                             (ActionApproval.projectId a) (caps w)))
  then mret false
  else write (set_approvals <[ActionApproval.id a := a]>);; mret true.

Definition findApprovalByAction (actionRequestId project : string) : command (option Approval) :=
  w ← get;
  match approval_of actionRequestId project (caps w) with
  | Some a => v ← lift (ActionApproval.restore a); mret (Some v)
  | None => mret None
  end.

(** [action_approval_status_transition] *)
Definition approval_decidable (a : Approval) (s : ActionApproval.ActionApprovalStatus)
    (decidedAt : date) (who : string) : bool :=
  bool_decide (ActionApproval.status a = ActionApproval.pending) &&
  negb (bool_decide (s = ActionApproval.pending)) &&
  negb (date_ltb decidedAt (ActionApproval.requestedAt a)) && negb (sql_blank who).

Definition transitionApproval (approvalId project : string)
    (expected s : ActionApproval.ActionApprovalStatus) (decidedAt : date) (who : string)
    : command bool :=
  lift (RunStore.iso decidedAt);;
  w ← get;
  match approvals (caps w) !! approvalId with
  | Some a =>
      if bool_decide (ActionApproval.projectId a = project) &&
         bool_decide (ActionApproval.status a = expected) then
        refuse_if (negb (approval_decidable a s decidedAt who))
          (SqliteError "invalid action approval transition");;
        write (set_approvals <[approvalId := ActionApproval.with_decision a s
                 (ActionApproval.requestedAt a) (Some decidedAt) (Some who)]>);;
        mret true
      else mret false
  | None => mret false
  end.

(** * Executions *)

(** [action_execution_matches_approval] *)
Definition execution_matches (e : Execution) (d : tables) : bool :=
  match requests d !! ActionExecution.actionRequestId e,
        approvals d !! ActionExecution.approvalId e with
  | Some p, Some a =>
      bool_decide (projectId p = ActionExecution.projectId e) &&
      bool_decide (ActionApproval.projectId a = projectId p) &&
      bool_decide (ActionApproval.actionRequestId a = id p) &&
      bool_decide (status p = approval_pending) && is_filesystem p ["2"] &&
      includes (operation p) mutation_operations &&
      bool_decide (ActionApproval.status a = ActionApproval.approved) &&
      bool_decide (ActionApproval.simulationId a = ActionExecution.simulationId e)
  | _, _ => false
  end.

(** The CHECK constraints on the outcome and the result hash of 0014. *)
Definition execution_check (e : Execution) : bool :=
  match ActionExecution.resultHash e with None => true | Some h => is_sha256_hex h end &&
  match ActionExecution.status e with
  | ActionExecution.executing =>
      bool_decide (ActionExecution.completedAt e = None) &&
      bool_decide (ActionExecution.failureCode e = None) &&
      bool_decide (ActionExecution.resultHash e = None)
  | ActionExecution.completed =>
      negb (bool_decide (ActionExecution.completedAt e = None)) &&
      bool_decide (ActionExecution.failureCode e = None)
  | _ =>
      negb (bool_decide (ActionExecution.completedAt e = None)) &&
      match ActionExecution.failureCode e with Some c => negb (sql_blank c) | None => false end
  end.

Definition simulation_known (simulationId project : string) (d : tables) : bool :=
  match simulations d !! simulationId with
  | Some s => bool_decide (ActionSimulation.projectId s = project)
  | None => false
  end.

Definition insertExecution (e : Execution) : command bool :=
  lift (RunStore.iso (ActionExecution.startedAt e));;
  lift (RunStore.iso_or_null (ActionExecution.completedAt e));;
  w ← get;
  refuse_if (negb (execution_matches e (caps w)))
    (SqliteError "execution must match an approved action");;
  if negb (execution_check e) ||
     bool_decide (is_Some (executions (caps w) !! ActionExecution.id e)) ||
     bool_decide (is_Some (execution_of (ActionExecution.actionRequestId e)
                             (ActionExecution.projectId e) (caps w)))
  then mret false
  else
    refuse_if (negb (simulation_known (ActionExecution.simulationId e)
                       (ActionExecution.projectId e) (caps w))) RunStore.foreign_key;;
    write (set_executions <[ActionExecution.id e := e]>);; mret true.

Definition findExecutionByAction (actionRequestId project : string)
    : command (option Execution) :=
  w ← get;
  match execution_of actionRequestId project (caps w) with
  | Some e => v ← lift (ActionExecution.restore e); mret (Some v)
  | None => mret None
  end.

(** [action_execution_status_transition] *)
Definition execution_finishable (e : Execution) (s : ActionExecution.ActionExecutionStatus)
    (completedAt : date) (failureCode : option string) : bool :=
  bool_decide (ActionExecution.status e = ActionExecution.executing) &&
  negb (date_ltb completedAt (ActionExecution.startedAt e)) &&
  match s, failureCode with
  | ActionExecution.completed, None => true
  | ActionExecution.failed, Some c | ActionExecution.execution_unknown, Some c =>
      negb (sql_blank c)
  | _, _ => false
  end.

Definition transitionExecution (executionId project : string)
    (expected s : ActionExecution.ActionExecutionStatus) (completedAt : date)
    (failureCode resultHash : option string) : command bool :=
  lift (RunStore.iso completedAt);;
  w ← get;
  match executions (caps w) !! executionId with
  | Some e =>
      if bool_decide (ActionExecution.projectId e = project) &&
         bool_decide (ActionExecution.status e = expected) then
        refuse_if (negb (execution_finishable e s completedAt failureCode))
          (SqliteError "invalid action execution transition");;
        let row := ActionExecution.with_outcome e s (ActionExecution.startedAt e)
                     (Some completedAt) failureCode resultHash in
        refuse_if (negb (execution_check row)) check_failed;;
        write (set_executions <[executionId := row]>);;
        mret true
      else mret false
  | None => mret false
  end.

End ActionStore.
