(* ===== verification/TaskServices.v ===== *)
(** The application services that change tasks, as commands over the project
    database.  Models [record-audit-event.ts], [create-task.ts],
    [update-task.ts], [manage-task-lifecycle.ts],
    [manage-task-dependencies.ts], [task-requirement-progress.ts],
    [record-task-completion.ts] and [manage-task-requirements.ts] of
    [packages/application/src/commands/], one Section or Module each. *)
From S2P Require Import Prelude Errors TaskModel DependencyGraph Json CostModel Store.
Import Canonical Store.

Module TaskServices.

Section services.
  Context `{Environment}.

(** * RecordAuditEvent *)

Record audit_input := {
  ai_eventType : string;
  ai_actorType : ActorType;
  ai_actorId : option string;
  ai_aggregateType : option string;
  ai_aggregateId : option string;
  ai_projectId : option string;
  ai_payload : option (list (string * cjson))
}.

Definition record_audit_event (input : audit_input) : command string :=
  id ← generate;
  at_ ← now;
  event ← lift (create_audit_event
    {| ae_id := id; ae_eventType := ai_eventType input; ae_actorType := ai_actorType input;
       ae_actorId := ai_actorId input; ae_aggregateType := ai_aggregateType input;
       ae_aggregateId := ai_aggregateId input; ae_projectId := ai_projectId input;
       ae_payload := default [] (ai_payload input); ae_occurredAt := at_ |});
  append_event event;;
  mret (ae_id event).

(** What the task services pass: the actor is the operator's CLI identity and
    the aggregate is the task. *)
Definition task_event (type actorId projectId taskId : string)
    (payload : list (string * cjson)) : audit_input :=
  {| ai_eventType := type; ai_actorType := cli; ai_actorId := Some actorId;
     ai_aggregateType := Some "task"; ai_aggregateId := Some taskId;
     ai_projectId := Some projectId; ai_payload := Some payload |}.

(** * Looking a task up *)

(** [requireTask] of the lifecycle service, repeated inline in
    [UpdateTask] and [RecordTaskCompletion]: a task of another project reads
    as absent. *)
Definition require_project_task (projectId taskId : string) : command Task.TaskProps :=
  known ← find_project projectId;
  refuse_if (negb known) (ProjectNotFoundError projectId);;
  task ← find_task taskId;
  match task with
  | Some t =>
      if bool_decide (Task.projectId t = projectId) then mret t
      else mthrow (TaskNotFoundError taskId)
  | None => mthrow (TaskNotFoundError taskId)
  end.

(** A method of the aggregate that a repository returned: the object is the
    caller's own copy until it is saved. *)
Definition on_task (t : Task.TaskProps) (m : method Task.TaskProps unit)
    : command Task.TaskProps :=
  match m t with
  | (Ok _, t') => mret t'
  | (Throw e, _) => mthrow e
  end.

(** * CreateTask *)

Record create_task_input := {
  ct_projectId : string;
  ct_title : string;
  ct_description : option string;
  ct_priority : option number
}.

Definition create_task (input : create_task_input) : command string :=
  known ← find_project (ct_projectId input);
  refuse_if (negb known) (ProjectNotFoundError (ct_projectId input));;
  id ← generate;
  at_ ← now;
  task ← lift (Task.create
    {| Task.in_id := id; Task.in_projectId := ct_projectId input;
       Task.in_title := ct_title input; Task.in_description := ct_description input;
       Task.in_priority := ct_priority input; Task.in_now := at_ |});
  save_task task;;
  mret (Task.id (Task.snapshot task)).

(** * UpdateTask *)

Record update_task_input := {
  ut_projectId : string;
  ut_taskId : string;
  ut_actorId : string;
  ut_description : option string;
  ut_priority : option number
}.

Record update_task_result := {
  utr_taskId : string;
  utr_description : string;
  utr_priority : number;
  utr_updatedAt : date
}.

Definition update_task (input : update_task_input) : command update_task_result :=
  run (
    task ← require_project_task (ut_projectId input) (ut_taskId input);
    at_ ← now;
    let previousPriority := Task.priority task in
    changed ← match ut_priority input with
              | Some p => on_task task (Task.updatePriority p at_)
              | None => mret task
              end;
    changed ← match ut_description input with
              | Some d => on_task changed (Task.updateDescription d at_)
              | None => mret changed
              end;
    let snapshot := Task.snapshot changed in
    save_task changed;;
    match ut_description input with
    | Some _ =>
        record_audit_event (task_event "task.description_updated" (ut_actorId input)
          (Task.projectId snapshot) (Task.id snapshot) [("descriptionUpdated", CBool true)]);;
        mret tt
    | None => mret tt
    end;;
    match ut_priority input with
    | Some _ =>
        record_audit_event (task_event "task.priority_updated" (ut_actorId input)
          (Task.projectId snapshot) (Task.id snapshot)
          [("from", CNum previousPriority); ("to", CNum (Task.priority snapshot))]);;
        mret tt
    | None => mret tt
    end;;
    mret {| utr_taskId := Task.id snapshot; utr_description := default "" (Task.description snapshot);
            utr_priority := Task.priority snapshot; utr_updatedAt := Task.updatedAt snapshot |}).

(** * Prerequisites *)

(** [new Map(allTasks.map((item) => [id, status]))] *)
Definition statuses_of (l : list Task.TaskProps) : gmap string Task.TaskStatus :=
  map_of_pairs ((λ t, (Task.id t, Task.status t)) <$> l).

(** [edges.filter((edge) => edge.taskId === taskId).map((edge) => edge.dependsOnTaskId)] *)
Definition prerequisites_of (taskId : string) (edges : list Dependency.edge) : list string :=
  Dependency.dependsOnTaskId <$> filter (λ e, Dependency.taskId e = taskId) edges.

Definition is_completion (r : Dependency.requirement) : bool :=
  match r with Dependency.at_completion => true | Dependency.at_start => false end.

Definition assertTaskPrerequisitesComplete (projectId taskId : string)
    (r : Dependency.requirement) : command unit :=
  allTasks ← list_tasks projectId;
  edges ← list_dependencies projectId;
  blockedBy ← lift (Dependency.blockingPrerequisites (prerequisites_of taskId edges)
                      (statuses_of allTasks) r);
  refuse_if (0 <? length blockedBy)
    (TaskPrerequisiteIncompleteError taskId
       ((λ b, (Dependency.blockerId b, Task.status_name (Dependency.blockerStatus b)))
        <$> blockedBy) (is_completion r)).

(** * ManageTaskLifecycle *)

Inductive operation := start | submit_review | complete | block | unblock | fail | cancel.

#[global] Instance operation_eq_dec : EqDecision operation.
Proof. solve_decision. Defined.

Definition operation_name (op : operation) : string :=
  match op with
  | start => "start" | submit_review => "submit-review" | complete => "complete"
  | block => "block" | unblock => "unblock" | fail => "fail" | cancel => "cancel"
  end.

(** The entries of [taskLifecycleOperations], in their order. *)
Definition operations : list operation :=
  [start; submit_review; complete; block; unblock; fail; cancel].

Definition operation_command (op : operation) : string := "task:" +:+ operation_name op.

Definition operation_to (op : operation) : Task.TaskStatus :=
  match op with
  | start => Task.running | submit_review => Task.waiting_review | complete => Task.completed
  | block => Task.blocked | unblock => Task.pending | fail => Task.failed
  | cancel => Task.cancelled
  end.

Definition lifecycleMutations (op : operation) : date → method Task.TaskProps unit :=
  match op with
  | start => Task.start | submit_review => Task.submitForReview | complete => Task.complete
  | block => Task.block | unblock => Task.unblock | fail => Task.fail | cancel => Task.cancel
  end.

Definition reasonRequiredOperations : list operation := [block; fail].
Definition reasonAcceptedOperations : list operation := [block; fail; cancel].

(** [new Map(entries)] keeps the last operation of a target. *)
Definition operationsByTarget (to : Task.TaskStatus) : option operation :=
  List.find (λ op, bool_decide (operation_to op = to)) (reverse operations).

Record AvailableTaskTransition := {
  at_to : Task.TaskStatus;
  at_operation : operation;
  at_command : string;
  at_terminal : bool
}.

Record TaskTransitionReport := {
  tr_taskId : string;
  tr_projectId : string;
  tr_title : string;
  tr_status : Task.TaskStatus;
  tr_terminal : bool;
  tr_allowed : list AvailableTaskTransition;
  tr_terminalStatuses : list Task.TaskStatus
}.

(** The operation is read with a non-null assertion, so a target without one
    would raise a [TypeError]. *)
Definition available_transition (to : Task.TaskStatus) : outcome AvailableTaskTransition :=
  match operationsByTarget to with
  | Some op => Ok {| at_to := to; at_operation := op; at_command := operation_command op;
                     at_terminal := Task.isTerminalTaskStatus to |}
  | None => Throw (TypeError "undefined operation")
  end.

Definition transitions (projectId taskId : string) : command TaskTransitionReport :=
  task ← require_project_task projectId taskId;
  let snapshot := Task.snapshot task in
  allowed ← lift (map_result available_transition
                    (Task.allowedTaskTransitions (Task.status snapshot)));
  mret {| tr_taskId := Task.id snapshot; tr_projectId := Task.projectId snapshot;
          tr_title := Task.title snapshot; tr_status := Task.status snapshot;
          tr_terminal := Task.isTerminalTaskStatus (Task.status snapshot);
          tr_allowed := allowed; tr_terminalStatuses := Task.terminalTaskStatuses |}.

Record TaskLifecycleRequest := {
  lr_operation : operation;
  lr_projectId : string;
  lr_taskId : string;
  lr_actorId : string;
  lr_reason : option string
}.

Definition resolveReason (op : operation) (value : option string) : outcome (option string) :=
  match value with
  | None =>
      throw_if (includes op reasonRequiredOperations)
        (DomainValidationError ("Task " +:+ operation_name op +:+ " requires a reason"));;
      Ok None
  | Some v =>
      throw_if (negb (includes op reasonAcceptedOperations))
        (DomainValidationError ("Task " +:+ operation_name op +:+ " does not accept a reason"));;
      Some <$> Task.normalizeTaskReason v (operation_name op +:+ " reason")
  end.

Definition status_payload (op : operation) (from to : Task.TaskStatus) (reason : option string)
    : list (string * cjson) :=
  [("operation", CStr (operation_name op)); ("from", CStr (Task.status_name from));
   ("to", CStr (Task.status_name to))] ++
  match reason with Some r => [("reason", CStr r)] | None => [] end.

(** [perform]; [guarded] says whether a dependency repository is configured. *)
Definition perform (guarded : bool) (request : TaskLifecycleRequest) : command Task.TaskStatus :=
  let op := lr_operation request in
  reason ← lift (resolveReason op (lr_reason request));
  task ← require_project_task (lr_projectId request) (lr_taskId request);
  (if guarded && includes op [start; complete] then
     assertTaskPrerequisitesComplete (lr_projectId request) (lr_taskId request)
       (if bool_decide (op = start) then Dependency.at_start else Dependency.at_completion)
   else mret tt);;
  let from := Task.status (Task.snapshot task) in
  at_ ← now;
  moved ← on_task task (lifecycleMutations op at_);
  let after := Task.snapshot moved in
  save_task moved;;
  record_audit_event (task_event "task.status_changed" (lr_actorId request)
    (Task.projectId after) (Task.id after) (status_payload op from (Task.status after) reason));;
  mret (Task.status after).

(** [apply]: one transition, one transaction. *)
Definition apply (guarded : bool) (request : TaskLifecycleRequest) : command Task.TaskStatus :=
  run (perform guarded request).

(** [applyWithinCurrentTransaction] *)
Definition applyWithinCurrentTransaction := perform.

(** The optional [runCancellation] collaborator:
    [cancelTaskRuns projectId taskId actorId reason]. *)
Abbreviation run_cancellation := (option (string → string → string → string → command unit)).

(** [cancel]: the runs are cancelled after the transition has committed. *)
Definition cancel_task (guarded : bool) (runs : run_cancellation)
    (projectId taskId actorId : string) (reason : option string) : command Task.TaskStatus :=
  status ← apply guarded {| lr_operation := cancel; lr_projectId := projectId;
                            lr_taskId := taskId; lr_actorId := actorId; lr_reason := reason |};
  match runs with
  | Some cancelTaskRuns =>
      cancelTaskRuns projectId taskId actorId (default "Task cancelled" reason)
  | None => mret tt
  end;;
  mret status.

(** * ManageTaskDependencies *)

Definition require_dependency_task (projectId taskId : string) : command Task.TaskProps :=
  known ← find_project projectId;
  refuse_if (negb known) (ProjectNotFoundError projectId);;
  task ← find_task taskId;
  let missing := TaskDependencyError
    ("Task " +:+ taskId +:+ " does not exist in project " +:+ projectId) in
  match task with
  | Some t => if bool_decide (Task.projectId t = projectId) then mret t else mthrow missing
  | None => mthrow missing
  end.

Definition assertEditable (projectId taskId : string) : command unit :=
  task ← require_dependency_task projectId taskId;
  refuse_if (negb (includes (Task.status task) [Task.pending; Task.blocked]))
    (TaskDependencyError "Prerequisites can change only before task execution begins");;
  ran ← hasExecutionHistory projectId taskId;
  refuse_if ran (TaskDependencyError
    "Prerequisites cannot change after task execution begins or when lifetime history is unknown").

Record dependency_input := {
  di_projectId : string;
  di_taskId : string;
  di_dependsOnTaskId : string;
  di_actorId : string
}.

Definition dependency_payload (dependsOn : string) : list (string * cjson) :=
  [("dependsOnTaskId", CStr dependsOn)].

Definition link (input : dependency_input) : command bool :=
  run (
    assertEditable (di_projectId input) (di_taskId input);;
    require_dependency_task (di_projectId input) (di_dependsOnTaskId input);;
    edges ← list_dependencies (di_projectId input);
    if includes {| Dependency.taskId := di_taskId input;
                   Dependency.dependsOnTaskId := di_dependsOnTaskId input |} edges
    then mret false
    else
      lift (Dependency.assertAcyclicDependency (di_taskId input) (di_dependsOnTaskId input) edges);;
      at_ ← now;
      created ← link_dependency (di_projectId input) (di_taskId input)
                  (di_dependsOnTaskId input) at_;
      refuse_if (negb created) (TaskDependencyError "Task dependency changed during linkage");;
      record_audit_event (task_event "task.dependency_linked" (di_actorId input)
        (di_projectId input) (di_taskId input) (dependency_payload (di_dependsOnTaskId input)));;
      mret created).

Definition unlink (input : dependency_input) : command bool :=
  run (
    assertEditable (di_projectId input) (di_taskId input);;
    require_dependency_task (di_projectId input) (di_dependsOnTaskId input);;
    removed ← unlink_dependency (di_projectId input) (di_taskId input) (di_dependsOnTaskId input);
    (if removed : bool then
       record_audit_event (task_event "task.dependency_unlinked" (di_actorId input)
         (di_projectId input) (di_taskId input)
         (dependency_payload (di_dependsOnTaskId input)));;
       mret tt
     else mret tt);;
    mret removed).

Record TaskDependencyReadiness := {
  rd_taskId : string;
  rd_status : Task.TaskStatus;
  rd_runnable : bool;
  rd_blockedBy : list Dependency.BlockingPrerequisite
}.

Definition readiness (projectId taskId : string) : command TaskDependencyReadiness :=
  task ← require_dependency_task projectId taskId;
  allTasks ← list_tasks projectId;
  edges ← list_dependencies projectId;
  blockedBy ← lift (Dependency.blockingPrerequisites (prerequisites_of taskId edges)
                      (statuses_of allTasks) Dependency.at_start);
  let status := Task.status (Task.snapshot task) in
  mret {| rd_taskId := taskId; rd_status := status;
          rd_runnable := Task.isTaskRunnable status && (length blockedBy =? 0);
          rd_blockedBy := blockedBy |}.

End services.

(** * Progress across linked requirements *)

Record RequirementProgress := {
  rp_total : Z;
  rp_verified : Z;
  rp_terminal : Z;
  rp_open : Z
}.

#[global] Instance RequirementProgress_eq_dec : EqDecision RequirementProgress.
Proof. solve_decision. Defined.

Definition terminalRequirementStatuses : list Governance.GovernanceStatus :=
  [Governance.verified; Governance.rejected].

Definition isTerminalRequirementStatus (status : Governance.GovernanceStatus) : bool :=
  includes status terminalRequirementStatuses.

(** [counts.reduce((sum, value) => sum + (keep ? value.count : 0), 0)]; the
    counts are exact integers. *)
Definition sum_counts (keep : Governance.GovernanceStatus → bool)
    (counts : list (Governance.GovernanceStatus * Z)) : Z :=
  foldl (λ sum value, sum + if keep value.1 then value.2 else 0)%Z 0%Z counts.

Definition requirementProgressFromCounts (counts : list (Governance.GovernanceStatus * Z))
    : RequirementProgress :=
  let total := sum_counts (λ _, true) counts in
  let terminal := sum_counts isTerminalRequirementStatus counts in
  {| rp_total := total;
     rp_verified := sum_counts (λ s, bool_decide (s = Governance.verified)) counts;
     rp_terminal := terminal; rp_open := (total - terminal)%Z |}.

Definition requirementProgress (statuses : list Governance.GovernanceStatus)
    : RequirementProgress :=
  requirementProgressFromCounts ((λ s, (s, 1%Z)) <$> statuses).

(** * RecordTaskCompletion *)

Inductive TaskCompletionRecordKind := historical_correction | lifecycle_transition | no_change.

Record TaskCompletionRecordPlan := {
  cp_projectId : string;
  cp_taskId : string;
  cp_title : string;
  cp_status : Task.TaskStatus;
  cp_resultingStatus : Task.TaskStatus;
  cp_kind : TaskCompletionRecordKind;
  cp_available : bool;
  cp_refusalReason : option string;
  cp_suggestedCommand : option string;
  cp_evidence : RequirementProgress;
  cp_reason : string;
  cp_planHash : option string
}.

Record completion_input := {
  ci_projectId : string;
  ci_taskId : string;
  ci_actorId : string;
  ci_reason : string
}.

Record TaskCompletionRecordResult := {
  cr_taskId : string;
  cr_from : Task.TaskStatus;
  cr_to : Task.TaskStatus;
  cr_planHash : string
}.

Definition progress_json (p : RequirementProgress) : cjson :=
  CObj [("total", CNum (NInt (rp_total p))); ("verified", CNum (NInt (rp_verified p)));
        ("terminal", CNum (NInt (rp_terminal p))); ("open", CNum (NInt (rp_open p)))].

(** The object literal that [completionPlanHash] hashes. *)
Definition completion_attestation (projectId taskId : string) (from : Task.TaskStatus)
    (reason : string) (evidence : RequirementProgress) : cjson :=
  CObj [("kind", CStr "task_completion_record"); ("to", CStr "completed");
        ("projectId", CStr projectId); ("taskId", CStr taskId);
        ("from", CStr (Task.status_name from)); ("reason", CStr reason);
        ("evidence", progress_json evidence)].

(** [createHash("sha256").update(text, "utf8").digest("hex")]: the parameter
    [sha256]. *)
Definition completionPlanHash `{ShowNumber} (sha256 : string → string)
    (projectId taskId : string) (from : Task.TaskStatus) (reason : string)
    (evidence : RequirementProgress) : outcome string :=
  text ← canonicalStringify
           (embed 0 (completion_attestation projectId taskId from reason evidence));
  Ok (sha256 text).

Section completion.
  Context `{Environment} `{ShowNumber} (sha256 : string → string).

Definition buildPlan (input : completion_input)
    : command (TaskCompletionRecordPlan * Task.TaskProps) :=
  reason ← lift (Task.normalizeTaskReason (ci_reason input) "completion record reason");
  task ← require_project_task (ci_projectId input) (ci_taskId input);
  let snapshot := Task.snapshot task in
  linked ← list_for_task (ci_projectId input) (ci_taskId input);
  let evidence := requirementProgress (lr_status <$> linked) in
  let status := Task.status snapshot in
  let refusalReason := Task.historicalCompletionRefusal status in
  let available := match refusalReason with None => true | Some _ => false end in
  let kind := if available then historical_correction
              else if Task.isTaskTransitionAllowed status Task.completed
              then lifecycle_transition else no_change in
  planHash ← lift (if available then
      Some <$> completionPlanHash sha256 (ci_projectId input) (Task.id snapshot) status
                 reason evidence
    else Ok None);
  mret ({| cp_projectId := ci_projectId input; cp_taskId := Task.id snapshot;
           cp_title := Task.title snapshot; cp_status := status;
           cp_resultingStatus := if available then Task.completed else status;
           cp_kind := kind; cp_available := available; cp_refusalReason := refusalReason;
           cp_suggestedCommand :=
             match kind with lifecycle_transition => Some "task:complete" | _ => None end;
           cp_evidence := evidence; cp_reason := reason; cp_planHash := planHash |}, task).

Definition plan (input : completion_input) : command TaskCompletionRecordPlan :=
  built ← buildPlan input; mret built.1.

Definition completion_payload (p : TaskCompletionRecordPlan) (planHash : string)
    : list (string * cjson) :=
  [("operation", CStr "record-completion"); ("from", CStr (Task.status_name (cp_status p)));
   ("to", CStr "completed"); ("reason", CStr (cp_reason p)); ("correction", CBool true);
   ("evidence", progress_json (cp_evidence p)); ("planHash", CStr planHash)].

Definition record (input : completion_input) (approvedPlanHash : string)
    : command TaskCompletionRecordResult :=
  run (
    built ← buildPlan input;
    let p := built.1 in
    match cp_planHash p with
    | Some planHash =>
        refuse_if (negb (bool_decide (planHash = approvedPlanHash))) TaskCompletionApprovalError;;
        let from := cp_status p in
        at_ ← now;
        task ← on_task built.2 (Task.recordHistoricalCompletion at_);
        save_task task;;
        record_audit_event (task_event "task.completion_recorded" (ci_actorId input)
          (cp_projectId p) (cp_taskId p) (completion_payload p planHash));;
        mret {| cr_taskId := cp_taskId p; cr_from := from; cr_to := Task.completed;
                cr_planHash := planHash |}
    | None => mthrow TaskCompletionApprovalError
    end).

End completion.

(** * ManageTaskRequirements *)

Section requirements.
  Context `{Environment}.

Record requirement_input := {
  ri_projectId : string;
  ri_taskId : string;
  ri_requirementId : string;
  ri_actorId : string
}.

Definition requireBothEnds (input : requirement_input) : command unit :=
  require_project_task (ri_projectId input) (ri_taskId input);;
  status ← requirement_status (ri_requirementId input) (ri_projectId input);
  match status with
  | Some _ => mret tt
  | None => mthrow (RequirementNotFoundError (ri_requirementId input))
  end.

Definition requirement_event (type : string) (input : requirement_input) : audit_input :=
  task_event type (ri_actorId input) (ri_projectId input) (ri_taskId input)
    [("requirementId", CStr (ri_requirementId input))].

Definition link_to_requirement (input : requirement_input) : command bool :=
  requireBothEnds input;;
  run (
    at_ ← now;
    created ← link_requirement (ri_projectId input) (ri_taskId input)
                (ri_requirementId input) at_;
    (if created : bool then
       record_audit_event (requirement_event "task.requirement_linked" input);; mret tt
     else mret tt);;
    mret created).

Definition unlink_from_requirement (input : requirement_input) : command bool :=
  requireBothEnds input;;
  run (
    removed ← unlink_requirement (ri_projectId input) (ri_taskId input)
                (ri_requirementId input);
    (if removed : bool then
       record_audit_event (requirement_event "task.requirement_unlinked" input);; mret tt
     else mret tt);;
    mret removed).

Definition requirements_of_task (projectId taskId : string) : command (list LinkedRequirement) :=
  require_project_task projectId taskId;;
  list_for_task projectId taskId.

End requirements.

(** * The commands of the host *)

(** One request to the services, as the CLI composes them: with a dependency
    repository configured. *)
Inductive request :=
| RCreate (input : create_task_input)
| RUpdate (input : update_task_input)
| RLifecycle (input : TaskLifecycleRequest)
| RLink (input : dependency_input)
| RUnlink (input : dependency_input)
| RRecord (input : completion_input) (approved : string)
| RLinkRequirement (input : requirement_input)
| RUnlinkRequirement (input : requirement_input).

Definition ignoring {A} (m : command A) : command unit := m;; mret tt.

Section host.
  Context `{Environment} `{ShowNumber} (sha256 : string → string).

Definition serve (r : request) : command unit :=
  match r with
  | RCreate input => ignoring (create_task input)
  | RUpdate input => ignoring (update_task input)
  | RLifecycle input => ignoring (apply true input)
  | RLink input => ignoring (link input)
  | RUnlink input => ignoring (unlink input)
  | RRecord input approved => ignoring (record sha256 input approved)
  | RLinkRequirement input => ignoring (link_to_requirement input)
  | RUnlinkRequirement input => ignoring (unlink_from_requirement input)
  end.

(** The requests are served one after the other; a refusal does not stop the
    host. *)
Definition serve_all (l : list request) (w : world) : world :=
  foldl (λ w r, (serve r w).2) w l.

End host.

End TaskServices.
