(* ===== verification/RunHistory.v ===== *)
(** What the database makes of a run however many callers hold copies of it:
    the calls of the agent runtime repository in any order, by any callers,
    with any arguments, interleaved with any change elsewhere in the database.
    The theorems are about every such history: stored runs only advance, the
    event log retells their path, stale copies write nothing, a run is
    admitted once, and a task is worked on under one lease at a time. *)
From S2P Require Import Prelude Errors TaskModel PipelineModel Json AgentModel Store RunStore.
Import Canonical Provenance RunModel RunStore.

Module RunHistory.

Abbreviation precedes := (λ s s', s' ∈ persisted_transitions s).

Section history.
  Context `{ShowNumber}.

(** * Calls and histories *)

Inductive call :=
| CSave (v : AgentRun.Props)
| CAdmit (input : RunAdmission)
| CAccept (f : WorkerAuthorityFence) (run : AgentRun.Props) (result : js) (at_ : date)
| CAcquire (taskId runId : string) (at_ expires : date)
| CRenew (runId : string) (at_ expires : date)
| CRelease (runId : string).

Inductive answer :=
| ASaved (v : AgentRun.Props)
| AAdmitted (v : option AgentRun.Props)
| AFlag (b : bool).

Definition perform (c : call) : command answer :=
  match c with
  | CSave v => v' ← saveRun v; mret (ASaved v')
  | CAdmit input => v ← admitQueuedRun input; mret (AAdmitted v)
  | CAccept f run result at_ => b ← acceptWorkerResult f run result at_; mret (AFlag b)
  | CAcquire t r a e => b ← acquireTaskLock t r a e; mret (AFlag b)
  | CRenew r a e => b ← renewTaskLock r a e; mret (AFlag b)
  | CRelease r => b ← releaseTaskLock r; mret (AFlag b)
  end.

(** A change by the other services: tasks, agents, roles, pipelines, outbox. *)
Definition elsewhere (d d' : tables) : Prop :=
  runs d' = runs d ∧ run_events d' = run_events d ∧ locks d' = locks d.

Inductive label := Did (c : call) (r : outcome answer) | Elsewhere.

Inductive step : tables → label → tables → Prop :=
| step_call c w r w' : perform c w = (r, w') → step (db w) (Did c r) (db w')
| step_elsewhere d d' : elsewhere d d' → step d Elsewhere d'.

(** A history in whose every state [P] holds. *)
Inductive trace (P : tables → Prop) : tables → list label → tables → Prop :=
| trace_nil d : P d → trace P d [] d
| trace_cons d l d' ls d'' :
    P d → step d l d' → trace P d' ls d'' → trace P d (l :: ls) d''.

Abbreviation history := (trace (λ _, True)).

(** * What each call does to the tables *)

Definition add_event (e : RunEventRow) (d : tables) : tables :=
  if event_recorded (ev_run_id e) (ev_status e) d then d
  else set_run_events (λ l, l ++ [e]) d.

(** The row may become the other one: the same run, further along, with the
    execution provenance it had. *)
Record advances (old new : RunRow) : Prop := {
  adv_project : r_project_id new = r_project_id old;
  adv_task : r_task_id new = r_task_id old;
  adv_agent : r_agent_id new = r_agent_id old;
  adv_intent : r_action_intent new = r_action_intent old;
  adv_pipeline : r_pipeline_run_id new = r_pipeline_run_id old;
  adv_stage : r_pipeline_stage_run_id new = r_pipeline_stage_run_id old;
  adv_created : r_created_at new = r_created_at old;
  adv_routing : r_model_routing new = r_model_routing old;
  adv_guidance : r_role_guidance new = r_role_guidance old;
  adv_status : r_status new ∈ persisted_transitions (r_status old);
  adv_execution : r_execution old ≠ None → r_execution new = r_execution old
}.

(** The tables of runs and events change in one of three ways. *)
Inductive run_change (id : string) (d d' : tables) : Prop :=
| change_none : runs d' = runs d → run_events d' = run_events d → run_change id d d'
| change_insert row e :
    runs d !! id = None → runs d' = <[id := row]> (runs d) →
    ev_run_id e = id → ev_status e = r_status row →
    run_events d' = run_events (add_event e d) → run_change id d d'
| change_advance old new e :
    runs d !! id = Some old → advances old new → runs d' = <[id := new]> (runs d) →
    ev_run_id e = id → ev_status e = r_status new →
    run_events d' = run_events (add_event e d) → run_change id d d'.

(** The run a call is about. *)
Definition call_run (c : call) : string :=
  match c with
  | CSave v => AgentRun.id v
  | CAdmit input => ra_runId input
  | CAccept f _ _ _ => wf_runId f
  | CAcquire _ r _ _ | CRenew r _ _ | CRelease r => r
  end.

Lemma savepoint_Ok {A} (m : command A) w a w' : savepoint m w = (Ok a, w') → m w = (Ok a, w').
Proof. unfold savepoint. destruct (m w) as [[b|e] w1]; naive_solver. Qed.

Lemma savepoint_Throw {A} (m : command A) w e w' : savepoint m w = (Throw e, w') → db w' = db w.
Proof. unfold savepoint. destruct (m w) as [[b|e'] w1]; [done|]. by intros [= _ <-]. Qed.

Lemma lift_bind_Throw {A B} (r : outcome A) (k : A → command B) w e w' :
  (lift r ≫= k) w = (Throw e, w') → w' = w ∨ ∃ a, r = Ok a ∧ k a w = (Throw e, w').
Proof.
  unfold mbind, action_bind, lift. destruct r as [a|e']; [eauto|]. intros [= _ <-]. by left.
Qed.

Lemma update_run_Ok id old new w a w' :
  update_run id old new w = (Ok a, w') →
  execution_refuses old new = false ∧ claim_refuses old new (db w) = false ∧
  w' = with_tables w (set_runs <[id := new]> (db w)).
Proof.
  unfold update_run. rewrite read_bind, refuse_if_bind_Ok. intros [Hc Hr].
  apply refuse_if_bind_Ok in Hr as [He Hr]. unfold write in Hr. by injection Hr as <- <-.
Qed.

Lemma appendRunEvent_Ok v row b w a w' :
  appendRunEvent v row b w = (Ok a, w') →
  ∃ e, ev_run_id e = AgentRun.id v ∧ ev_status e = AgentRun.status v ∧
    w' = with_tables w (add_event e (db w)).
Proof.
  unfold appendRunEvent, insert_or_ignore_run_event, add_event. rewrite read_bind.
  set (e := {| ev_run_id := _ |}). cbn [ev_run_id ev_status e]. intros Hw. exists e.
  split; [done|]. split; [done|]. cbn [ev_run_id ev_status e].
  destruct (event_recorded _ _ _).
  - injection Hw as _ <-. by destruct w.
  - unfold write in Hw. by injection Hw as _ <-.
Qed.

Lemma insert_run_event_Ok e w a w' :
  insert_run_event e w = (Ok a, w') →
  event_recorded (ev_run_id e) (ev_status e) (db w) = false ∧
  w' = with_tables w (add_event e (db w)).
Proof.
  unfold insert_run_event, add_event. rewrite read_bind, refuse_if_bind_Ok. intros [-> Hw].
  unfold write in Hw. by injection Hw as _ <-.
Qed.

Lemma run_events_add_event e d d' :
  run_events d = run_events d' → run_events (add_event e d) = run_events (add_event e d').
Proof.
  intros He. unfold add_event, event_recorded. rewrite He.
  destruct (existsb _ _); [done|]. simpl. by rewrite He.
Qed.

Lemma execution_kept old new :
  execution_refuses old new = false → r_execution old ≠ None → r_execution new = r_execution old.
Proof.
  unfold execution_refuses. rewrite andb_false_iff, !negb_false_iff, !bool_decide_eq_true.
  naive_solver.
Qed.

Lemma run_of_row_spec id row p :
  run_of_row id row = Ok p →
  AgentRun.id p = id ∧ AgentRun.projectId p = r_project_id row ∧
  AgentRun.taskId p = r_task_id row ∧ AgentRun.agentId p = r_agent_id row ∧
  AgentRun.pipelineRunId p = r_pipeline_run_id row ∧
  AgentRun.pipelineStageRunId p = r_pipeline_stage_run_id row ∧
  AgentRun.status p = r_status row ∧ AgentRun.updatedAt p = Some (r_updated_at row) ∧
  AgentRun.persistenceToken p = AgentRun.persistenceToken (props_of_row id row).
Proof.
  unfold run_of_row, AgentRun.restore. rewrite bind_Ok. intros (_ & _ & H1).
  apply bind_Ok in H1 as (_ & _ & H1). apply bind_Ok in H1 as (? & _ & H1).
  apply bind_Ok in H1 as (? & _ & H1). apply bind_Ok in H1 as (? & _ & H1).
  apply bind_Ok in H1 as (? & _ & H1). by injection H1 as <-.
Qed.

Lemma row_of_run_spec v row :
  row_of_run v = Ok row →
  r_project_id row = AgentRun.projectId v ∧ r_task_id row = AgentRun.taskId v ∧
  r_agent_id row = AgentRun.agentId v ∧ r_pipeline_run_id row = AgentRun.pipelineRunId v ∧
  r_pipeline_stage_run_id row = AgentRun.pipelineStageRunId v ∧
  r_status row = AgentRun.status v ∧ AgentRun.updatedAt v = Some (r_updated_at row).
Proof.
  unfold row_of_run. rewrite bind_Ok. intros (? & _ & H1).
  apply bind_Ok in H1 as (? & _ & H1). apply bind_Ok in H1 as (? & _ & H1).
  apply bind_Ok in H1 as (? & _ & H1). apply bind_Ok in H1 as (? & _ & H1).
  apply bind_Ok in H1 as (u & Hu & H1). injection H1 as <-. simpl.
  destruct (AgentRun.updatedAt v); [|done]. by injection Hu as ->.
Qed.

Lemma can_persist_advances s s' :
  canPersistAgentRunTransition s s' = true → s' ≠ s → s' ∈ persisted_transitions s.
Proof.
  unfold canPersistAgentRunTransition. rewrite orb_true_iff, bool_decide_eq_true, includes_spec.
  naive_solver.
Qed.

(** ** [saveRun] *)

(** A save that changes a stored run carries its token and agrees with its
    identity; every other one on a stored run changes nothing. *)
Lemma saveRun_Ok v w v' w' :
  saveRun v w = (Ok v', w') →
  v' = mark v ∧ ∃ new, row_of_run v = Ok new ∧ before_insert new (db w) = Ok tt ∧
  match runs (db w) !! AgentRun.id v with
  | None => insert_refuses new (db w) = false ∧ ∃ e, ev_run_id e = AgentRun.id v ∧
      ev_status e = AgentRun.status v ∧
      db w' = add_event e (set_base (record_run_start new)
                (set_runs <[AgentRun.id v := new]> (db w)))
  | Some old =>
      ∃ current, run_of_row (AgentRun.id v) old = Ok current ∧
      same_identity current v old new = true ∧
      (db w' = db w ∧ AgentRun.status v = r_status old ∨
       ∃ e, ev_run_id e = AgentRun.id v ∧ ev_status e = AgentRun.status v ∧
        AgentRun.status v ≠ r_status old ∧ token_matches v old = true ∧
        canPersistAgentRunTransition (r_status old) (AgentRun.status v) = true ∧
        execution_refuses old (advanced_row old new) = false ∧
        (r_updated_at old ≤ r_updated_at new)%Z ∧
        db w' = add_event e (set_runs <[AgentRun.id v := advanced_row old new]> (db w)))
  end.
Proof.
  unfold saveRun, AgentRun.snapshot. intros (u & w1 & Hs & Hr)%action_bind_Ok.
  injection Hr as <- <-. split; [done|]. apply savepoint_Ok in Hs.
  apply lift_bind_Ok in Hs as (new & Hnew & Hs). rewrite read_bind in Hs.
  apply lift_bind_Ok in Hs as ([] & Hb & Hs). exists new. split; [done|]. split; [done|].
  destruct (runs (db w) !! AgentRun.id v) as [old|].
  - apply lift_bind_Ok in Hs as (current & Hcur & Hs). exists current. split; [done|].
    apply refuse_if_bind_Ok in Hs as [Hid%negb_false_iff Hs]. split; [done|].
    apply run_of_row_spec in Hcur as (_ & _ & _ & _ & _ & _ & Hst & _).
    case_bool_decide as Heq.
    + left. unfold refuse_if, lift in Hs. injection Hs as _ <-. split; congruence.
    + right. apply refuse_if_bind_Ok in Hs as [Hg Hs].
      apply orb_false_iff in Hg as [[Htok%negb_false_iff Hcan%negb_false_iff]%orb_false_iff Ht].
      apply action_bind_Ok in Hs as ([] & w2 & (Hex & _ & ->)%update_run_Ok & Hs).
      apply appendRunEvent_Ok in Hs as (e & He1 & He2 & ->). exists e. simpl.
      split_and!; try done; [congruence|lia].
  - apply refuse_if_bind_Ok in Hs as [_ Hs]. rewrite write_bind in Hs.
    apply refuse_if_bind_Ok in Hs as [Hr Hs]. split; [done|]. rewrite write_bind in Hs.
    apply appendRunEvent_Ok in Hs as (e & He1 & He2 & ->). eauto.
Qed.

Lemma saveRun_Throw v w e w' : saveRun v w = (Throw e, w') → db w' = db w.
Proof.
  unfold saveRun. intros [Hs|(u & w1 & _ & Hs)]%action_bind_Throw; [|done].
  by apply savepoint_Throw in Hs.
Qed.

Lemma saveRun_change v w r w' : saveRun v w = (r, w') → run_change (AgentRun.id v) (db w) (db w').
Proof.
  destruct r as [v'|e]; [|by intros ->%saveRun_Throw; constructor].
  intros (-> & new & Hnew & Hb & Hcase)%saveRun_Ok.
  pose proof Hnew as (_ & _ & _ & _ & _ & Hst & _)%row_of_run_spec.
  destruct (runs (db w) !! AgentRun.id v) as [old|] eqn:Hold.
  - destruct Hcase as (current & _ & _ & [[-> _]|(e & He1 & He2 & Hne & _ & Hcan & Hex & _ & ->)]);
      [by constructor|].
    eapply (change_advance _ _ _ old (advanced_row old new) e); try done.
    + constructor; try done; simpl.
      * rewrite Hst. by apply can_persist_advances.
      * by apply execution_kept.
    + unfold add_event. by destruct (event_recorded _ _ _).
    + simpl. congruence.
    + by apply run_events_add_event.
  - destruct Hcase as (_ & e & He1 & He2 & ->).
    eapply (change_insert _ _ _ new e); try done.
    + unfold add_event. by destruct (event_recorded _ _ _).
    + congruence.
    + by apply run_events_add_event.
Qed.

(** ** [admitQueuedRun] *)

(** Removing the lock of a refused run leaves runs and events alone. *)
Lemma releaseTaskLock_Ok id w b w' :
  releaseTaskLock id w = (Ok b, w') →
  b = bool_decide (is_Some (lock_of id (db w))) ∧
  w' = with_tables w (set_locks (filter (λ p, l_run_id p.2 ≠ id)) (db w)).
Proof. unfold releaseTaskLock. rewrite read_bind, write_bind. by intros [= <- <-]. Qed.

Lemma on_run_Ok p m w p' w' : on_run p m w = (Ok p', w') → w' = w ∧ m p = (Ok tt, p').
Proof.
  unfold on_run. destruct (m p) as [[[]|e] q]; [|done]. by intros [= -> ->].
Qed.

Lemma admitQueuedRun_Ok input w o w' :
  admitQueuedRun input w = (Ok o, w') →
  match o with
  | None => w' = w ∧ ∀ row, runs (db w) !! ra_runId input = Some row → r_status row ≠ AgentRun.queued
  | Some v =>
      ∃ row (accepted : bool) at_ completed error e,
        runs (db w) !! ra_runId input = Some row ∧ r_status row = AgentRun.queued ∧
        AgentRun.id v = ra_runId input ∧ AgentRun.taskId v = r_task_id row ∧
        ra_now input = Some at_ ∧
        AgentRun.status v = (if accepted then AgentRun.preparing else AgentRun.cancelled) ∧
        (accepted = true → ∃ a taskAt agentAt roleAt, ra_authority input = Some a ∧
           admission_valid (ra_runId input) row a taskAt agentAt roleAt at_ (db w) = true) ∧
        let new := admitted_row row (AgentRun.status v) at_ completed error in
        claim_refuses row new (db w) = false ∧
        ev_run_id e = ra_runId input ∧ ev_status e = AgentRun.status v ∧
        event_recorded (ev_run_id e) (ev_status e) (db w) = false ∧
        ∃ w1, w1 = with_tables w (add_event e (set_runs <[ra_runId input := new]> (db w))) ∧
          if accepted then w' = w1 else ∃ b, releaseTaskLock (ra_runId input) w1 = (Ok b, w')
  end.
Proof.
  unfold admitQueuedRun. intros Hs%savepoint_Ok. rewrite read_bind in Hs.
  destruct (runs (db w) !! ra_runId input) as [row|] eqn:Hrow; [|by injection Hs as <- <-].
  case_bool_decide as Hq; simpl in Hs; [|by injection Hs as <- <-; split; [|intros ? [= <-]]].
  apply action_bind_Ok in Hs as (accepted & w1 & Hacc & Hs).
  assert (w1 = w ∧ (accepted = true → ∃ a taskAt agentAt roleAt at_, ra_authority input = Some a ∧
     ra_now input = Some at_ ∧
     admission_valid (ra_runId input) row a taskAt agentAt roleAt at_ (db w) = true)) as [-> Hauth].
  { destruct (ra_authority input) as [a|]; [|by injection Hacc as <- <-].
    apply lift_bind_Ok in Hacc as (t1 & _ & Hacc). apply lift_bind_Ok in Hacc as (t2 & _ & Hacc).
    apply lift_bind_Ok in Hacc as (t3 & _ & Hacc). apply lift_bind_Ok in Hacc as (t4 & H4 & Hacc).
    injection Hacc as <- <-. split; [done|]. intros Hv. exists a, t1, t2, t3, t4.
    destruct (ra_now input); [|done]. injection H4 as <-. done. }
  clear Hacc. apply lift_bind_Ok in Hs as (value & Hval & Hs).
  apply action_bind_Ok in Hs as (snap & w2 & (-> & Htr)%on_run_Ok & Hs).
  apply lift_bind_Ok in Hs as (at_ & Hat & Hs). apply lift_bind_Ok in Hs as (completed & _ & Hs).
  apply lift_bind_Ok in Hs as (err & _ & Hs).
  apply action_bind_Ok in Hs as ([] & w3 & (_ & Hclaim & ->)%update_run_Ok & Hs).
  apply action_bind_Ok in Hs as ([] & w4 & (Hnew & ->)%insert_run_event_Ok & Hs).
  cbn [db with_tables] in Hs.
  apply action_bind_Ok in Hs as ([] & w5 & Hrel & Hs). injection Hs as <- <-.
  apply run_of_row_spec in Hval as (Hid & _ & Htask & _ & _ & _ & _).
  apply AgentRun.run_transition_Ok in Htr as (_ & exec & _ & _ & ->).
  destruct (ra_now input) as [now|]; [|done]. injection Hat as ->.
  match type of Hnew with
  | event_recorded (ev_run_id ?e) _ _ = _ => exists row, accepted, at_, completed, err, e
  end. cbv zeta. split_and!; try done.
  - intros Ha. destruct (Hauth Ha) as (a & t1 & t2 & t3 & t4 & ? & [= ->] & ?). eauto 8.
  - refine (ex_intro _ _ (conj eq_refl _)). destruct accepted.
    + by injection Hrel as <-.
    + apply action_bind_Ok in Hrel as (b & w6 & Hrel & Hr). injection Hr as <-. eauto.
Qed.

Lemma admitQueuedRun_Throw input w e w' :
  admitQueuedRun input w = (Throw e, w') → db w' = db w.
Proof. by intros ?%savepoint_Throw. Qed.

Lemma releaseTaskLock_tables id w b w' :
  releaseTaskLock id w = (Ok b, w') →
  runs (db w') = runs (db w) ∧ run_events (db w') = run_events (db w).
Proof.
  by intros [_ ->]%releaseTaskLock_Ok.
Qed.

Lemma admitQueuedRun_change input w r w' :
  admitQueuedRun input w = (r, w') → run_change (ra_runId input) (db w) (db w').
Proof.
  destruct r as [[v|]|e]; [|by intros [-> _]%admitQueuedRun_Ok; constructor
                           |by intros ->%admitQueuedRun_Throw; constructor].
  intros (row & accepted & at_ & completed & err & e & Hrow & Hq & _ & _ & _ & Hst & _ & _ &
          He1 & He2 & _ & w1 & -> & Hw)%admitQueuedRun_Ok.
  set (new := admitted_row row (AgentRun.status v) at_ completed err) in *.
  assert (advances row new) as Hadv.
  { constructor; try done; simpl. rewrite Hq, Hst. apply includes_spec. by destruct accepted. }
  assert (runs (db w') = <[ra_runId input := new]> (runs (db w)) ∧
    run_events (db w') = run_events (add_event e (db w))) as [Hr1 Hr2].
  { assert (∀ d, runs (add_event e d) = runs d) as Hadd
      by (intros d; unfold add_event; by destruct (event_recorded _ _ _)).
    assert (runs (add_event e (set_runs <[ra_runId input := new]> (db w))) =
            <[ra_runId input := new]> (runs (db w)) ∧
            run_events (add_event e (set_runs <[ra_runId input := new]> (db w))) =
            run_events (add_event e (db w))) as [Ha Hb].
    { split; [by rewrite Hadd|by apply run_events_add_event]. }
    destruct accepted; [by subst w'|]. destruct Hw as (b & Hw).
    apply releaseTaskLock_tables in Hw as [-> ->]. done. }
  by eapply (change_advance _ _ _ row new e).
Qed.

(** ** [acceptWorkerResult] *)

Lemma acceptWorkerResult_Ok f run result acceptedAt w b w' :
  acceptWorkerResult f run result acceptedAt w = (Ok b, w') →
  if b then ∃ row at_ updated taskAt agentAt roleAt stored e,
    runs (db w) !! wf_runId f = Some row ∧ acceptedAt = Some at_ ∧
    fence_valid row f updated taskAt agentAt roleAt at_ (db w) = true ∧
    ev_run_id e = wf_runId f ∧ ev_status e = AgentRun.reviewing ∧
    w' = with_tables w (add_event e
           (set_runs <[wf_runId f := reviewing_row row stored at_]> (db w)))
  else w' = w.
Proof.
  unfold acceptWorkerResult. intros (at_ & Hat & Hs)%lift_bind_Ok.
  assert (acceptedAt = Some at_) as -> by (destruct acceptedAt; [by injection Hat as ->|done]).
  apply savepoint_Ok in Hs. apply lift_bind_Ok in Hs as (u & _ & Hs).
  apply lift_bind_Ok in Hs as (t1 & _ & Hs). apply lift_bind_Ok in Hs as (t2 & _ & Hs).
  apply lift_bind_Ok in Hs as (t3 & _ & Hs). rewrite read_bind in Hs.
  destruct (runs (db w) !! wf_runId f) as [row|] eqn:Hrow; [|by injection Hs as <- <-].
  destruct (fence_valid _ _ _ _ _ _ _ _) eqn:Hf; simpl in Hs; [|by injection Hs as <- <-].
  apply lift_bind_Ok in Hs as (stored & _ & Hs).
  apply action_bind_Ok in Hs as ([] & w3 & (_ & _ & ->)%update_run_Ok & Hs).
  apply action_bind_Ok in Hs as ([] & w4 & (Hnew & ->)%insert_run_event_Ok & Hs).
  injection Hs as <- <-.
  match type of Hnew with
  | event_recorded (ev_run_id ?e) _ _ = _ => by exists row, at_, u, t1, t2, t3, stored, e
  end.
Qed.

Lemma acceptWorkerResult_Throw f run result acceptedAt w e w' :
  acceptWorkerResult f run result acceptedAt w = (Throw e, w') → db w' = db w.
Proof.
  unfold acceptWorkerResult. intros [Hs|(at_ & w1 & Hl & Hs)]%action_bind_Throw.
  - unfold lift in Hs. by injection Hs as _ <-.
  - unfold lift in Hl. injection Hl as _ <-. by apply savepoint_Throw in Hs.
Qed.

Lemma fence_running row f u t1 t2 t3 at_ d :
  fence_valid row f u t1 t2 t3 at_ d = true → r_status row = AgentRun.running.
Proof. unfold fence_valid. rewrite !andb_true_iff, !bool_decide_eq_true. tauto. Qed.

Lemma acceptWorkerResult_change f run result acceptedAt w r w' :
  acceptWorkerResult f run result acceptedAt w = (r, w') →
  run_change (wf_runId f) (db w) (db w').
Proof.
  destruct r as [[]|e]; [|by intros ->%acceptWorkerResult_Ok; constructor
                         |by intros ->%acceptWorkerResult_Throw; constructor].
  intros (row & at_ & u & t1 & t2 & t3 & stored & e & Hrow & -> & Hf & He1 & He2 & ->)%acceptWorkerResult_Ok.
  eapply (change_advance _ _ _ row (reviewing_row row stored at_) e); try done.
  - constructor; try done; simpl. rewrite (fence_running _ _ _ _ _ _ _ _ Hf).
    by apply includes_spec.
  - simpl. unfold add_event. by destruct (event_recorded _ _ _).
  - simpl. by apply run_events_add_event.
Qed.

(** ** Locks *)

Lemma lock_of_Some id d t l :
  lock_of id d = Some (t, l) → locks d !! t = Some l ∧ l_run_id l = id.
Proof.
  unfold lock_of. intros [Hin Hid]%List.find_some. apply bool_decide_eq_true in Hid.
  apply list_elem_of_In, elem_of_map_to_list in Hin. done.
Qed.

Lemma lock_of_None id d t l : lock_of id d = None → locks d !! t = Some l → l_run_id l ≠ id.
Proof.
  unfold lock_of. intros Hn Ht Hid.
  assert (In (t, l) (map_to_list (locks d))) as Hin
    by by apply list_elem_of_In, elem_of_map_to_list.
  apply (List.find_none _ _ Hn) in Hin. by apply bool_decide_eq_false in Hin.
Qed.

Lemma acquireTaskLock_Ok t r a e w b w' :
  acquireTaskLock t r a e w = (Ok b, w') →
  if b then ∃ acquired expires row, a = Some acquired ∧ e = Some expires ∧
    runs (db w) !! r = Some row ∧ r_task_id row = t ∧
    includes (r_status row) active_run_statuses = true ∧
    w' = with_tables w (set_locks <[t := {| l_run_id := r; l_acquired_at := acquired;
                                            l_expires_at := expires |}]> (db w)) ∧
    match locks (db w) !! t with
    | None => lock_of r (db w) = None
    | Some l => (l_expires_at l ≤ acquired)%Z ∧ (l_run_id l = r ∨ lock_of r (db w) = None)
    end
  else w' = w.
Proof.
  unfold acquireTaskLock. intros (acquired & Ha & Hs)%lift_bind_Ok.
  apply lift_bind_Ok in Hs as (expires & He & Hs). rewrite read_bind in Hs.
  assert (a = Some acquired) as -> by (destruct a; [by injection Ha as ->|done]).
  assert (e = Some expires) as -> by (destruct e; [by injection He as ->|done]).
  destruct (run_alive r (db w) && _) eqn:Hal; simpl in Hs; [|by injection Hs as <- <-].
  apply andb_true_iff in Hal as [Hal Ht]. unfold run_alive in Hal.
  destruct (runs (db w) !! r) as [row|]; [|done]. apply bool_decide_eq_true in Ht.
  assert (∀ o : option (string * LockRow), bool_decide (is_Some o) = false → o = None) as Hnone.
  { intros o Ho%bool_decide_eq_false. by apply eq_None_not_Some. }
  destruct (locks (db w) !! t) as [l|].
  - destruct (l_expires_at l <=? acquired)%Z eqn:Hle; [|by injection Hs as <- <-].
    apply refuse_if_bind_Ok in Hs as [Hu Hs]. rewrite write_bind in Hs. injection Hs as <- <-.
    exists acquired, expires, row. split_and!; try done; [lia|].
    apply andb_false_iff in Hu as [Hu|Hu]; [left|right; by apply Hnone].
    by apply negb_false_iff, bool_decide_eq_true in Hu.
  - apply refuse_if_bind_Ok in Hs as [Hu Hs]. rewrite write_bind in Hs. injection Hs as <- <-.
    exists acquired, expires, row. split_and!; try done. by apply Hnone.
Qed.

Lemma renewTaskLock_Ok r a e w b w' :
  renewTaskLock r a e w = (Ok b, w') →
  if b then ∃ t l expires, lock_of r (db w) = Some (t, l) ∧
    w' = with_tables w (set_locks <[t := {| l_run_id := r; l_acquired_at := l_acquired_at l;
                                            l_expires_at := expires |}]> (db w))
  else w' = w.
Proof.
  unfold renewTaskLock. destruct (date_leb e a); [by intros [= <- <-]|].
  intros (expires & _ & Hs)%lift_bind_Ok. apply lift_bind_Ok in Hs as (at_ & _ & Hs).
  rewrite read_bind in Hs. destruct (lock_of r (db w)) as [[t l]|]; [|by injection Hs as <- <-].
  destruct ((at_ <? l_expires_at l)%Z && _); [|by injection Hs as <- <-].
  rewrite write_bind in Hs. injection Hs as <- <-. eauto.
Qed.

(** A lock call that throws changes nothing. *)
Lemma lock_calls_Throw c w e w' :
  match c with CAcquire _ _ _ _ | CRenew _ _ _ | CRelease _ => True | _ => False end →
  perform c w = (Throw e, w') → db w' = db w.
Proof.
  intros Hc Hs. destruct c as [| | |t r a e'|r a e'|r]; try done; simpl in Hs;
    (apply action_bind_Throw in Hs as [Hs|(? & ? & _ & Hs)]; [|done]).
  - unfold acquireTaskLock in Hs. do 2 (apply lift_bind_Throw in Hs as [->|(? & _ & Hs)]; [done|]).
    rewrite read_bind in Hs. case_match; [done|]. case_match; [case_match; [|done]|];
      apply lift_bind_Throw in Hs as [->|(? & _ & Hs)]; done.
  - unfold renewTaskLock in Hs. case_match; [done|].
    do 2 (apply lift_bind_Throw in Hs as [->|(? & _ & Hs)]; [done|]).
    rewrite read_bind in Hs. destruct (lock_of _ _) as [[t l]|]; [|done]. by case_match.
Qed.

Lemma lock_calls_runs c w r w' :
  match c with CAcquire _ _ _ _ | CRenew _ _ _ | CRelease _ => True | _ => False end →
  perform c w = (r, w') → runs (db w') = runs (db w) ∧ run_events (db w') = run_events (db w).
Proof.
  intros Hc Hs. destruct r as [a|e]; [|by rewrite (lock_calls_Throw _ _ _ _ Hc Hs)].
  destruct c as [| | |t r a' e|r a' e|r]; try done; simpl in Hs;
    apply action_bind_Ok in Hs as (x & w1 & Hs & Hr); injection Hr as <- <-.
  - apply acquireTaskLock_Ok in Hs. destruct x; [|by subst].
    by destruct Hs as (? & ? & ? & _ & _ & _ & _ & _ & -> & _).
  - apply renewTaskLock_Ok in Hs. destruct x; [|by subst]. by destruct Hs as (? & ? & ? & _ & ->).
  - by apply releaseTaskLock_tables in Hs.
Qed.

(** ** A call as a whole *)

Lemma call_change c w r w' : perform c w = (r, w') → run_change (call_run c) (db w) (db w').
Proof.
  intros Hs. destruct c as [v|i|f run res a|t r1 a e|r1 a e|r1];
    try (by apply lock_calls_runs in Hs as [? ?]; [constructor|done]).
  all: destruct r as [r|e]; simpl in Hs;
    [apply action_bind_Ok in Hs as (x & w1 & Hs & Hr); injection Hr as <- <-
    |apply action_bind_Throw in Hs as [Hs|(? & ? & _ & Hs)]; [|done]].
  all: by first [eapply saveRun_change | eapply admitQueuedRun_change
                |eapply acceptWorkerResult_change].
Qed.

(** * Rows over a history *)

Definition evolves (old new : RunRow) : Prop := new = old ∨ advances old new.

Lemma persisted_trans s1 s2 s3 :
  s2 ∈ persisted_transitions s1 → s3 ∈ persisted_transitions s2 →
  s3 ∈ persisted_transitions s1.
Proof.
  rewrite <- !includes_spec. by destruct s1, s2; try (intros ? [=]); destruct s3.
Qed.

Lemma advances_trans r1 r2 r3 : advances r1 r2 → advances r2 r3 → advances r1 r3.
Proof.
  intros [] []. constructor; try congruence; [by eapply persisted_trans|].
  intros Hne. rewrite adv_execution1; [auto|]. rewrite adv_execution0; auto.
Qed.

Lemma evolves_trans r1 r2 r3 : evolves r1 r2 → evolves r2 r3 → evolves r1 r3.
Proof.
  intros [->|H12] [->|H23]; [by left|by right|by right|right; by eapply advances_trans].
Qed.

Lemma step_row d l d' id row :
  step d l d' → runs d !! id = Some row → ∃ row', runs d' !! id = Some row' ∧ evolves row row'.
Proof.
  intros [c w r w' Hc|d1 d2 (Hr & _ & _)] Hrow;
    [|exists row; rewrite Hr; split; [done|by left]].
  destruct (call_change _ _ _ _ Hc) as [Hr _|new e Hnone Hr _ _ _|old new e Hold Hadv Hr _ _ _].
  - exists row. rewrite Hr. split; [done|by left].
  - exists row. rewrite Hr, lookup_insert_ne by congruence. split; [done|by left].
  - rewrite Hr. destruct (decide (call_run c = id)) as [<-|Hne].
    + exists new. rewrite lookup_insert_eq. split; [done|]. right. congruence.
    + exists row. rewrite lookup_insert_ne by done. split; [done|by left].
Qed.

Lemma trace_row P d ls d' id row :
  trace P d ls d' → runs d !! id = Some row →
  ∃ row', runs d' !! id = Some row' ∧ evolves row row'.
Proof.
  intros Ht. revert row. induction Ht as [d _|d l d' ls d'' _ Hs _ IH]; intros row Hrow.
  - exists row. split; [done|by left].
  - destruct (step_row _ _ _ _ _ Hs Hrow) as (row1 & Hrow1 & He1).
    destruct (IH _ Hrow1) as (row2 & Hrow2 & He2). exists row2. split; [done|].
    by eapply evolves_trans.
Qed.

Lemma no_transition_after_end s :
  AgentRun.is_terminal s = true → persisted_transitions s = [].
Proof. by destruct s. Qed.

Lemma evolves_terminal old new :
  evolves old new → AgentRun.is_terminal (r_status old) = true → new = old.
Proof.
  intros [->|[]] Ht; [done|]. rewrite no_transition_after_end in adv_status0 by done.
  by apply elem_of_nil in adv_status0.
Qed.

Lemma persisted_rank s s' :
  s' ∈ persisted_transitions s → AgentRun.rank s' < AgentRun.rank s.
Proof.
  rewrite <- includes_spec. destruct s, s'; intros Hi; try discriminate Hi; simpl; lia.
Qed.

(** ** The event log *)

Definition statuses_of (id : string) (d : tables) : list AgentRun.AgentRunStatus :=
  ev_status <$> events_of id d.

(** The events of a run are its statuses in the order it went through them;
    a run that is not stored has none. *)
Definition log_ok (d : tables) : Prop := ∀ id,
  match runs d !! id with
  | Some row => ∃ l, statuses_of id d = l ++ [r_status row] ∧
                     StronglySorted precedes (l ++ [r_status row])
  | None => statuses_of id d = []
  end.

Lemma event_recorded_spec id s d :
  event_recorded id s d = true ↔ s ∈ statuses_of id d.
Proof.
  unfold event_recorded, statuses_of, events_of. rewrite existsb_exists, list_elem_of_fmap. split.
  - intros (e & Hin & Hb). rewrite andb_true_iff, !bool_decide_eq_true in Hb.
    destruct Hb as [Hid Hs]. exists e. split; [done|]. apply list_elem_of_filter.
    by rewrite list_elem_of_In.
  - intros (e & -> & [Hid Hin]%list_elem_of_filter). exists e. rewrite <- list_elem_of_In.
    split; [done|]. by rewrite andb_true_iff, !bool_decide_eq_true.
Qed.

Lemma statuses_of_add id e d :
  event_recorded (ev_run_id e) (ev_status e) d = false →
  statuses_of id (add_event e d) =
  statuses_of id d ++ (if bool_decide (ev_run_id e = id) then [ev_status e] else []).
Proof.
  intros Hr. unfold statuses_of, events_of, add_event. rewrite Hr. simpl.
  rewrite filter_app, fmap_app, filter_cons. case_bool_decide as Hid; rewrite ?decide_True, ?decide_False by done; done.
Qed.

Lemma statuses_of_ext id d d' : run_events d = run_events d' → statuses_of id d = statuses_of id d'.
Proof. unfold statuses_of, events_of. by intros ->. Qed.

Lemma sorted_last_not_in l s s' :
  StronglySorted precedes (l ++ [s]) → s' ∈ persisted_transitions s → s' ∉ l ++ [s].
Proof.
  intros Hs Hp%persisted_rank Hin.
  assert (∀ x, x ∈ l ++ [s] → AgentRun.rank s ≤ AgentRun.rank x) as Hmin; [|by apply Hmin in Hin; lia].
  clear s' Hp Hin. intros x Hx. induction l as [|y l IH]; simpl in *.
  - apply list_elem_of_singleton in Hx as ->. lia.
  - apply StronglySorted_inv in Hs as [Hs Hy]. rewrite Forall_forall in Hy.
    apply elem_of_cons in Hx as [->|Hx]; [|by apply IH].
    assert (s ∈ persisted_transitions y) as ?%persisted_rank; [|lia].
    apply Hy, elem_of_app. right. by apply list_elem_of_singleton.
Qed.

Lemma sorted_snoc l s s' :
  StronglySorted precedes (l ++ [s]) → s' ∈ persisted_transitions s →
  StronglySorted precedes ((l ++ [s]) ++ [s']).
Proof.
  intros Hs Hp. induction l as [|y l IH]; simpl in *.
  - constructor; [by repeat constructor|]. by repeat constructor.
  - apply StronglySorted_inv in Hs as [Hs Hy]. constructor; [by apply IH|].
    apply Forall_app. split; [done|]. constructor; [|done].
    apply Forall_app in Hy as [_ Hy]. inversion Hy; subst. by eapply persisted_trans.
Qed.

Lemma step_log_ok d l d' : log_ok d → step d l d' → log_ok d'.
Proof.
  intros Hok Hs. revert Hok. destruct Hs as [c w r w' Hc|d1 d2 (Hr & He & _)];
    intros Hok id; specialize (Hok id);
    [|by rewrite Hr, (statuses_of_ext id d2 d1 He)].
  destruct (call_change _ _ _ _ Hc) as [Hr He|new e Hnone Hr He1 He2 He|old new e Hold Hadv Hr He1 He2 He].
  - by rewrite Hr, (statuses_of_ext id _ (db w) He).
  - rewrite Hr, (statuses_of_ext id _ _ He). destruct (decide (call_run c = id)) as [<-|Hne].
    + rewrite Hnone in Hok. rewrite lookup_insert_eq, statuses_of_add, Hok, He1, He2.
      * rewrite bool_decide_true by done. exists []. split; [done|]. by repeat constructor.
      * apply not_true_iff_false. rewrite event_recorded_spec, He1, Hok. apply not_elem_of_nil.
    + rewrite lookup_insert_ne by done. unfold add_event.
      destruct (event_recorded (ev_run_id e) (ev_status e) (db w)) eqn:Hrec; [done|].
      pose proof (statuses_of_add id e (db w) Hrec) as Ha. unfold add_event in Ha.
      rewrite Hrec in Ha. rewrite Ha, bool_decide_false by congruence. by rewrite app_nil_r.
  - rewrite Hr, (statuses_of_ext id _ _ He). destruct (decide (call_run c = id)) as [<-|Hne].
    + rewrite Hold in Hok. destruct Hok as (l0 & Hl & Hs). destruct Hadv.
      rewrite lookup_insert_eq, statuses_of_add, Hl, He1, He2.
      * rewrite bool_decide_true by done. eexists. split; [done|]. by apply sorted_snoc.
      * apply not_true_iff_false. rewrite event_recorded_spec, He1, He2, Hl.
        by apply sorted_last_not_in.
    + rewrite lookup_insert_ne by done. unfold add_event.
      destruct (event_recorded (ev_run_id e) (ev_status e) (db w)) eqn:Hrec; [done|].
      pose proof (statuses_of_add id e (db w) Hrec) as Ha. unfold add_event in Ha.
      rewrite Hrec in Ha. rewrite Ha, bool_decide_false by congruence. by rewrite app_nil_r.
Qed.

Lemma sorted_length l : StronglySorted precedes l → length l ≤ 5.
Proof.
  intros Hs. assert (∀ s l, StronglySorted precedes (s :: l) → length l ≤ AgentRun.rank s) as Hr.
  { clear. intros s l. revert s. induction l as [|s' l IH]; intros s [Hs Hf]%StronglySorted_inv;
      simpl; [lia|]. specialize (IH s' Hs). inversion Hf as [|? ? Hp _]; subst.
    apply persisted_rank in Hp. lia. }
  destruct l as [|s l]; simpl; [lia|]. specialize (Hr s l Hs). destruct s; simpl in Hr; lia.
Qed.

(** ** Leases *)

Definition holds (t r : string) (d : tables) : Prop :=
  ∃ l, locks d !! t = Some l ∧ l_run_id l = r.

(** How run [r] stops holding the lock of task [t]: it is released, or another
    run takes it over at a time its lease has expired. *)
Definition lease_ends (t r : string) (d : tables) (l : label) : Prop :=
  l = Did (CRelease r) (Ok (AFlag true)) ∨
  ∃ r' at_ expires lease, l = Did (CAcquire t r' (Some at_) expires) (Ok (AFlag true)) ∧
    locks d !! t = Some lease ∧ l_run_id lease = r ∧ (l_expires_at lease ≤ at_)%Z.

Definition started (id : string) (d : tables) : Prop :=
  ∃ row, runs d !! id = Some row ∧ r_status row ≠ AgentRun.queued.

Lemma evolves_not_queued old new :
  evolves old new → r_status old ≠ AgentRun.queued → r_status new ≠ AgentRun.queued.
Proof.
  intros [->|[]] Hq; [done|]. intros Hn. rewrite Hn in adv_status0.
  apply includes_spec in adv_status0. by destruct (r_status old).
Qed.

Lemma step_started d l d' id : step d l d' → started id d → started id d'.
Proof.
  intros Hs (row & Hrow & Hq). destruct (step_row _ _ _ _ _ Hs Hrow) as (row' & Hrow' & He).
  exists row'. split; [done|]. by eapply evolves_not_queued.
Qed.

Lemma runs_add_event e d : runs (add_event e d) = runs d.
Proof. unfold add_event. by destruct (event_recorded _ _ _). Qed.

Lemma perform_Throw c w e w' : perform c w = (Throw e, w') → db w' = db w.
Proof.
  intros Hs. destruct c; try (by eapply lock_calls_Throw in Hs); simpl in Hs;
    (apply action_bind_Throw in Hs as [Hs|(? & ? & _ & Hs)]; [|done]).
  - by eapply saveRun_Throw.
  - by eapply admitQueuedRun_Throw.
  - by eapply acceptWorkerResult_Throw.
Qed.

Lemma locks_add_event e d : locks (add_event e d) = locks d.
Proof. unfold add_event. by destruct (event_recorded _ _ _). Qed.

Lemma saveRun_locks v w r w' : saveRun v w = (r, w') → locks (db w') = locks (db w).
Proof.
  destruct r as [v'|e]; [|by intros ->%saveRun_Throw].
  intros (_ & new & _ & _ & Hc)%saveRun_Ok. destruct (runs (db w) !! _) as [old|].
  - destruct Hc as (? & _ & _ & [[-> _]|(e & _ & _ & _ & _ & _ & _ & _ & ->)]); [done|].
    by rewrite locks_add_event.
  - destruct Hc as (_ & e & _ & _ & ->). by rewrite locks_add_event.
Qed.

Lemma holds_filter r r' t d :
  holds t r d → r' ≠ r → holds t r (set_locks (filter (λ p, l_run_id p.2 ≠ r')) d).
Proof.
  intros (l & Hl & Hr) Hne. exists l. split; [|done]. simpl.
  apply map_lookup_filter_Some. split; [done|]. simpl. congruence.
Qed.

(** While a run that was started holds the lock, only the end of its lease
    takes it away. *)
Lemma step_holds d l d' t r :
  step d l d' → started r d → holds t r d → holds t r d' ∨ lease_ends t r d l.
Proof.
  intros Hs (row & Hrow & Hq) Hh. destruct Hs as [c w a w' Hc|d1 d2 (_ & _ & Hl)];
    [|left; unfold holds; by rewrite Hl].
  destruct a as [a|e].
  2: { left. by rewrite (perform_Throw _ _ _ _ Hc). }
  destruct c; simpl in Hc; apply action_bind_Ok in Hc as (x & w1 & Hc & Ha); injection Ha as <- <-.
  - left. apply saveRun_locks in Hc. unfold holds. by rewrite Hc.
  - left. apply admitQueuedRun_Ok in Hc. destruct x as [v|]; [|by destruct Hc as [-> _]].
    destruct Hc as (row1 & accepted & at_ & completed & err & e & Hrow1 & Hq1 & _ & _ & _ & _ & _ &
      _ & _ & _ & _ & w2 & -> & Hw).
    assert (∀ f e, holds t r (add_event e (set_runs f (db w)))) as Hadd.
    { intros f e'. unfold holds. by rewrite locks_add_event. }
    destruct accepted; [subst w1; apply Hadd|]. destruct Hw as (b & [_ ->]%releaseTaskLock_Ok).
    apply holds_filter; [apply Hadd|]. intros Heq. apply Hq. congruence.
  - left. apply acceptWorkerResult_Ok in Hc. destruct x; [|by subst].
    destruct Hc as (? & ? & ? & ? & ? & ? & ? & ? & _ & _ & _ & _ & _ & ->). unfold holds. simpl.
    by rewrite locks_add_event.
  - apply acquireTaskLock_Ok in Hc. destruct x; [|by subst; left].
    destruct Hc as (acquired & ex & row1 & -> & -> & _ & _ & _ & -> & Hl).
    destruct Hh as (l & Hlock & Hlr). destruct (decide (taskId = t)) as [->|Hne].
    + right. right. rewrite Hlock in Hl. destruct Hl as [Hle _]. by exists runId, acquired, (Some ex), l.
    + left. exists l. split; [|done]. simpl. by rewrite lookup_insert_ne.
  - left. apply renewTaskLock_Ok in Hc. destruct x; [|by subst].
    destruct Hc as (t' & l' & ex & [Hl' Hr']%lock_of_Some & ->). destruct Hh as (l & Hl & Hlr).
    destruct (decide (t' = t)) as [->|Hne].
    + eexists. simpl. rewrite lookup_insert_eq. split; [done|]. simpl. congruence.
    + exists l. simpl. by rewrite lookup_insert_ne.
  - apply releaseTaskLock_Ok in Hc as [-> ->]. destruct (decide (runId = r)) as [->|Hne].
    + right. left. destruct (lock_of r (db w)) as [[t' l']|] eqn:Ho; [done|].
      destruct Hh as (l & Hl & Hlr). by destruct (lock_of_None _ _ _ _ Ho Hl).
    + left. by apply holds_filter.
Qed.

Lemma trace_holds P d ls d' t r :
  trace P d ls d' → started r d → holds t r d →
  holds t r d' ∨ ∃ ls1 dm l ls2, ls = ls1 ++ l :: ls2 ∧ trace P d ls1 dm ∧ lease_ends t r dm l.
Proof.
  induction 1 as [d HP|d l d1 ls d2 HP Hs _ IH]; intros Hst Hh; [by left|].
  destruct (step_holds _ _ _ _ _ Hs Hst Hh) as [Hh'|He].
  - destruct (IH (step_started _ _ _ _ Hs Hst) Hh') as [?|(ls1 & dm & l' & ls2 & -> & Ht & He)];
      [by left|].
    right. exists (l :: ls1), dm, l', ls2. split; [done|]. split; [by econstructor|done].
  - right. exists [], d, l, ls. split; [done|]. split; [by constructor|done].
Qed.

Lemma authority_lock id row ts tat ar aat r rk rv rl rat at_ d :
  authority_current id row ts tat ar aat r rk rv rl rat at_ d = true →
  ∃ l, locks d !! r_task_id row = Some l ∧ l_run_id l = id ∧ (at_ < l_expires_at l)%Z.
Proof.
  unfold authority_current. destruct (Store.tasks (base d) !! _); [|done].
  destruct (agents d !! _); [|done]. rewrite !andb_true_iff. intros [_ Hl].
  destruct (locks d !! r_task_id row) as [l|]; [|done]. exists l.
  apply andb_true_iff in Hl as [?%bool_decide_eq_true ?]. split_and!; [done|done|lia].
Qed.

Lemma trace_started P d ls d' id : trace P d ls d' → started id d → started id d'.
Proof. induction 1 as [d _|d l d1 ls d2 _ Hs _ IH]; intros Hst; eauto using step_started. Qed.

(** An admission answers with a run that was queued. *)
Lemma admitted_queued d i v d' :
  step d (Did (CAdmit i) (Ok (AAdmitted (Some v)))) d' →
  AgentRun.id v = ra_runId i ∧ ¬ started (AgentRun.id v) d ∧ started (AgentRun.id v) d'.
Proof.
  intros Hs. inversion Hs as [c w r w' Hc|]; subst; clear Hs. simpl in Hc.
  apply action_bind_Ok in Hc as (x & w1 & Hc & Ha). injection Ha as -> <-.
  pose proof (admitQueuedRun_change _ _ _ _ Hc) as Hch.
  apply admitQueuedRun_Ok in Hc as (row & accepted & at_ & completed & err & e & Hrow & Hq & Hid &
    _ & _ & _ & _ & _ & _ & _ & Hnew & w2 & -> & Hw).
  split; [done|]. rewrite Hid. split; [intros (row' & Hrow' & Hq'); congruence|].
  destruct Hch as [Hr He|new e' Hnone|old new e' Hold Hadv Hr _ _ _]; [|congruence|].
  - exfalso. assert (run_events (db w1) = run_events (db w) ++ [e]) as Hev.
    { transitivity (run_events (add_event e (db w))); [|unfold add_event; by rewrite Hnew].
      destruct accepted; [subst w1; by apply run_events_add_event|].
      destruct Hw as (b & [_ ->]%releaseTaskLock_tables). by apply run_events_add_event. }
    rewrite He in Hev. apply (f_equal length) in Hev. rewrite length_app in Hev. simpl in Hev. lia.
  - exists new. rewrite Hr, lookup_insert_eq. split; [done|].
    intros Hnq. destruct Hadv. rewrite Hnq in adv_status0. apply includes_spec in adv_status0.
    by destruct (r_status old).
Qed.

(** A run admitted to [preparing] held the unexpired lock of its task. *)
Lemma admitted_holds d i v d' :
  step d (Did (CAdmit i) (Ok (AAdmitted (Some v)))) d' → AgentRun.status v = AgentRun.preparing →
  holds (AgentRun.taskId v) (AgentRun.id v) d ∧ holds (AgentRun.taskId v) (AgentRun.id v) d'.
Proof.
  intros Hs. inversion Hs as [c w r w' Hc|]; subst; clear Hs. simpl in Hc.
  apply action_bind_Ok in Hc as (x & w1 & Hc & Ha). injection Ha as -> <-.
  apply admitQueuedRun_Ok in Hc as (row & accepted & at_ & completed & err & e & Hrow & Hq & Hid &
    Htask & _ & Hst & Hacc & _ & _ & _ & _ & w2 & -> & Hw).
  intros Hp. destruct accepted; [|congruence]. destruct (Hacc eq_refl) as (a & t1 & t2 & t3 & _ & Hv).
  apply andb_true_iff in Hv as [(l & Hl & Hlr & _)%authority_lock _]. subst w1.
  split; exists l; simpl; rewrite ?locks_add_event; (split; [rewrite Htask; exact Hl|rewrite Hid; exact Hlr]).
Qed.

(** * Properties *)

(** C5: in every history of the runtime's calls, whoever makes them and
    whatever stale or foreign copies they pass, a stored run only advances: the
    event log lists the statuses it went through, each after the previous one
    in the persisted transition order and at most five in all, the last being
    the stored status; later its identity, routing, guidance and provenance are
    those stored, and once it is terminal its row never changes again. *)
Theorem run_history_only_advances d0 ls d ls' d' id row :
  runs d0 = ∅ → run_events d0 = [] → history d0 ls d → history d ls' d' →
  runs d !! id = Some row →
  (∃ path, statuses_of id d = path ++ [r_status row] ∧
     StronglySorted precedes (path ++ [r_status row]) ∧ length path ≤ 4) ∧
  ∃ row', runs d' !! id = Some row' ∧ evolves row row' ∧
    (AgentRun.is_terminal (r_status row) = true → row' = row).
Proof.
  intros Hr0 He0 Ht Ht' Hrow. split.
  - assert (log_ok d) as Hok.
    { assert (log_ok d0) as Hok0.
      { intros i. rewrite Hr0, lookup_empty. unfold statuses_of, events_of. by rewrite He0. }
      clear Hr0 He0 Hrow Ht'. induction Ht as [|d l d1 ls d2 _ Hs _ IH]; [done|].
      by eapply IH, step_log_ok. }
    specialize (Hok id). rewrite Hrow in Hok. destruct Hok as (path & Hp & Hs).
    exists path. split; [done|]. split; [done|]. apply sorted_length in Hs.
    rewrite length_app in Hs. simpl in Hs. lia.
  - destruct (trace_row _ _ _ _ _ _ Ht' Hrow) as (row' & Hrow' & He). exists row'.
    split; [done|]. split; [done|]. by apply evolves_terminal.
Qed.

(** C21: no lost update: a copy of a run whose stored status has moved on since
    it was loaded, whatever transitions it went through in memory, writes
    nothing; and while the stored status has not moved the row is the one that
    was loaded. *)
Theorem stale_copy_writes_nothing d ls w id row copy row' v r w' :
  history d ls (db w) → runs d !! id = Some row → run_of_row id row = Ok copy →
  runs (db w) !! id = Some row' → AgentRun.id v = id →
  AgentRun.persistenceToken v = AgentRun.persistenceToken copy → saveRun v w = (r, w') →
  if bool_decide (r_status row' = r_status row) then row' = row else db w' = db w.
Proof.
  intros Ht Hrow Hcopy Hrow' Hid Htok Hs. subst id.
  destruct (trace_row _ _ _ _ _ _ Ht Hrow) as (row1 & Hrow1 & He).
  assert (row1 = row') as -> by congruence. case_bool_decide as Heq.
  - destruct He as [?|[]]; [done|]. rewrite Heq in adv_status0.
    apply persisted_rank in adv_status0. lia.
  - destruct r as [v'|e]; [|by eapply saveRun_Throw].
    apply saveRun_Ok in Hs as (_ & new & _ & _ & Hc). rewrite Hrow' in Hc.
    destruct Hc as (? & _ & _ & [[? _]|(e & _ & _ & _ & Hm & _)]); [done|].
    apply run_of_row_spec in Hcopy as (_ & _ & _ & _ & _ & _ & _ & _ & Hct).
    unfold token_matches in Hm. rewrite Htok, Hct in Hm. simpl in Hm.
    apply andb_true_iff in Hm as [Hm%bool_decide_eq_true _]. congruence.
Qed.

(** A run is admitted at most once: after an admission that answered with
    the run, accepted or refused, every later admission of it by any host
    answers that there is nothing to admit and changes nothing. *)
Theorem run_admitted_once d1 i v d2 ls d3 i' r d4 :
  step d1 (Did (CAdmit i) (Ok (AAdmitted (Some v)))) d2 → history d2 ls d3 →
  ra_runId i' = ra_runId i → step d3 (Did (CAdmit i') r) d4 →
  r = Ok (AAdmitted None) ∧ d4 = d3.
Proof.
  intros Hs Ht Hi Hs'. destruct (admitted_queued _ _ _ _ Hs) as (Hid & _ & Hst).
  destruct (trace_started _ _ _ _ _ Ht Hst) as (row & Hrow & Hq). rewrite Hid in Hrow.
  inversion Hs' as [c w a w' Hc|]; subst; clear Hs'. simpl in Hc. rewrite <- Hi in Hrow.
  assert (admitQueuedRun i' w = (Ok None, w)) as Ha.
  { unfold admitQueuedRun, savepoint. rewrite read_bind, Hrow.
    by rewrite bool_decide_false by done. }
  unfold mbind, action_bind in Hc. rewrite Ha in Hc. by injection Hc as <- <-.
Qed.


(** ** Runs whose pipeline stage has been left *)

Definition left_behind (id : string) (d : tables) : Prop :=
  ∃ row, runs d !! id = Some row ∧ binding_valid row d = false.

Definition in_flight (s : AgentRun.AgentRunStatus) : bool :=
  includes s [AgentRun.preparing; AgentRun.running; AgentRun.reviewing].

Lemma binding_valid_ext a b d :
  r_project_id a = r_project_id b → r_task_id a = r_task_id b → r_agent_id a = r_agent_id b →
  r_pipeline_run_id a = r_pipeline_run_id b →
  r_pipeline_stage_run_id a = r_pipeline_stage_run_id b → binding_valid a d = binding_valid b d.
Proof. unfold binding_valid, binding_current. by intros -> -> -> -> ->. Qed.

Lemma same_identity_binding v current old new d :
  run_of_row (AgentRun.id v) old = Ok current → row_of_run v = Ok new →
  same_identity current v old new = true → binding_valid new d = binding_valid old d.
Proof.
  intros (_ & H1 & H2 & H3 & H4 & H5 & _)%run_of_row_spec
    (N1 & N2 & N3 & N4 & N5 & _)%row_of_run_spec.
  unfold same_identity. rewrite !andb_true_iff, !bool_decide_eq_true.
  intros [[[[[[[[? ?] ?] ?] ?] _] _] _] _]. apply binding_valid_ext; congruence.
Qed.

Lemma left_behind_save v w : left_behind (AgentRun.id v) (db w) → ∃ e, (saveRun v w).1 = Throw e.
Proof.
  intros (row & Hrow & Hb). destruct (saveRun v w) as [[v'|e] w'] eqn:Hs; [|by exists e].
  exfalso. apply saveRun_Ok in Hs as (_ & new & Hnew & Hbi & Hc). rewrite Hrow in Hc.
  destruct Hc as (current & Hcur & Hid & _).
  unfold before_insert in Hbi. apply throw_if_bind_Ok in Hbi as [_ Hbi].
  apply throw_if_Ok, negb_false_iff in Hbi.
  rewrite (same_identity_binding _ _ _ _ _ Hcur Hnew Hid) in Hbi. congruence.
Qed.

Lemma step_in_flight d l d' id row :
  step d l d' → left_behind id d → runs d !! id = Some row → in_flight (r_status row) = true →
  ∃ row', runs d' !! id = Some row' ∧ in_flight (r_status row') = true.
Proof.
  intros Hs Hleft Hrow Hfl.
  destruct Hs as [c w r w' Hc|d1 d2 (Hr & _)]; [|exists row; by rewrite Hr].
  destruct (decide (call_run c = id)) as [<-|Hid].
  2: { exists row. split; [|done].
       by destruct (call_change _ _ _ _ Hc) as [-> _|new e Hnone -> _ _ _|old new e Hold Hadv -> _ _ _];
         [|rewrite lookup_insert_ne..]. }
  destruct c as [v|i|f run res at_|t r1 a e|r1 a e|r1]; simpl in Hleft, Hrow |- *;
    try (by apply lock_calls_runs in Hc as [Hr _]; [exists row; by rewrite Hr|done]);
    (destruct r as [r|e]; simpl in Hc;
      [apply action_bind_Ok in Hc as (x & w1 & Hc & Ha); injection Ha as <- <-
      |apply action_bind_Throw in Hc as [Hc|(? & ? & _ & Hc)]; [|done]]).
  - apply left_behind_save in Hleft as (e & Hthrow). by rewrite Hc in Hthrow.
  - exists row. by rewrite (saveRun_Throw _ _ _ _ Hc).
  - apply admitQueuedRun_Ok in Hc. destruct x as [v|]; [|destruct Hc as [-> _]; by exists row].
    destruct Hc as (row1 & ? & ? & ? & ? & ? & Hrow1 & Hq & _).
    assert (row1 = row) as -> by congruence. by rewrite Hq in Hfl.
  - exists row. by rewrite (admitQueuedRun_Throw _ _ _ _ Hc).
  - apply acceptWorkerResult_Ok in Hc. destruct x; [|subst; by exists row].
    destruct Hc as (row1 & ? & ? & ? & ? & ? & ? & ? & _ & _ & _ & _ & _ & ->).
    eexists. simpl. unfold add_event. destruct (event_recorded _ _ _); simpl;
      rewrite lookup_insert_eq; by split.
  - exists row. by rewrite (acceptWorkerResult_Throw _ _ _ _ _ _ _ Hc).
Qed.

(** A run whose pipeline stage has been left while it was in flight never
    ends: the binding triggers fire before the INSERT of [saveRun] finds that
    the row exists, so as long as the stage it is bound to is not the current
    one every save of the run is refused, by whomever and with whatever
    values, and no call of the runtime makes its row terminal. *)
Theorem displaced_run_never_ends d ls w id row :
  trace (left_behind id) d ls (db w) → runs d !! id = Some row →
  in_flight (r_status row) = true →
  (∀ v, AgentRun.id v = id → ∃ e, (saveRun v w).1 = Throw e) ∧
  ∃ row', runs (db w) !! id = Some row' ∧ in_flight (r_status row') = true.
Proof.
  intros Ht Hrow Hfl. split.
  - intros v <-. apply left_behind_save. clear Hrow Hfl. by induction Ht.
  - revert row Hrow Hfl. induction Ht as [d _|d l d1 ls d2 HP Hs _ IH]; intros row Hrow Hfl.
    + by exists row.
    + destruct (step_in_flight _ _ _ _ _ Hs HP Hrow Hfl) as (row1 & Hrow1 & Hfl1). by eapply IH.
Qed.

(** ** Playing a list of calls *)

Fixpoint play (cs : list call) (w : world) : world :=
  match cs with
  | [] => w
  | c :: cs => play cs (perform c w).2
  end.

Fixpoint labels (cs : list call) (w : world) : list label :=
  match cs with
  | [] => []
  | c :: cs => Did c (perform c w).1 :: labels cs (perform c w).2
  end.

Lemma step_perform c w : step (db w) (Did c (perform c w).1) (db (perform c w).2).
Proof. constructor. by destruct (perform c w). Qed.

Lemma play_history cs w : history (db w) (labels cs w) (db (play cs w)).
Proof.
  revert w. induction cs as [|c cs IH]; intros w; simpl; [by constructor|].
  econstructor; [done|apply step_perform|apply IH].
Qed.

End history.

(** * Samples *)

#[local] Existing Instance decimal_number.

Abbreviation history := (trace (λ _, True)).

Definition sample_role : Role.RoleProps :=
  {| Role.id := "ro1"; Role.projectId := "p1"; Role.key := "engineer"; Role.name := "Engineer";
     Role.version := NInt 1; Role.capabilities := []; Role.tools := []; Role.modelPolicy := "default";
     Role.limits := {| Role.maxIterations := NInt 5; Role.maxCostMicros := 100;
                       Role.timeoutSeconds := NInt 60 |};
     Role.sourcePath := "roles/engineer.md"; Role.guidanceText := Some ""; 
     Role.guidanceVersion := Some (NInt 1); Role.createdAt := Some 1%Z; Role.updatedAt := Some 1%Z |}.

Definition sample_agent : Agent :=
  {| ag_id := "a1"; ag_projectId := "p1"; ag_roleId := "ro1"; ag_name := "dev"; ag_enabled := true;
     ag_createdAt := Some 1%Z; ag_updatedAt := Some 1%Z |}.

Definition sample_task : Task.TaskProps :=
  {| Task.id := "t1"; Task.projectId := "p1"; Task.title := "Build"; Task.description := None;
     Task.status := Task.pending; Task.priority := NInt 1; Task.createdAt := Some 1%Z;
     Task.updatedAt := Some 1%Z |}.

Definition sample_tables : tables :=
  {| base := {| Store.projects := {["p1"]}; Store.tasks := {["t1" := sample_task]};
                Store.dependencies := ∅; Store.history := ∅; Store.requirements := ∅;
                Store.task_requirements := ∅; Store.audit := [] |};
     roles := {["ro1" := sample_role]}; agents := {["a1" := sample_agent]}; runs := ∅;
     run_events := []; locks := ∅; pipelines := ∅; overrides := []; outbox := [];
     manifests := [] |}.

Definition sample_world : world :=
  {| db := sample_tables; active := false; ticks := 0; generated := 0 |}.

Definition sample_run (id : string) : AgentRun.Props :=
  {| AgentRun.id := id; AgentRun.projectId := "p1"; AgentRun.taskId := "t1";
     AgentRun.agentId := "a1"; AgentRun.pipelineRunId := None; AgentRun.pipelineStageRunId := None;
     AgentRun.actionIntent := None; AgentRun.roleGuidance := None; AgentRun.execution := None;
     AgentRun.modelRouting := Some unrouted; AgentRun.status := AgentRun.queued;
     AgentRun.worktreePath := None; AgentRun.result := None; AgentRun.error := None;
     AgentRun.createdAt := Some 10%Z; AgentRun.startedAt := None; AgentRun.completedAt := None;
     AgentRun.updatedAt := Some 10%Z; AgentRun.persistenceToken := None |}.

Definition sample_admission (id : string) (at_ : Z) : RunAdmission :=
  {| ra_runId := id; ra_ownerId := Some "host"; ra_now := Some at_;
     ra_authority := Some
       {| au_taskStatus := Task.pending; au_taskUpdatedAt := Some 1%Z; au_agentRoleId := "ro1";
          au_agentUpdatedAt := Some 1%Z; au_roleId := "ro1"; au_roleKey := "engineer";
          au_roleVersion := NInt 1; au_roleLimits := Role.limits sample_role;
          au_roleUpdatedAt := Some 1%Z; au_pipelineId := None; au_pipelineStageRunId := None;
          au_pipelineVersion := None |} |}.

Definition sample_calls : list call :=
  [CSave (sample_run "r1"); CAcquire "t1" "r1" (Some 10%Z) (Some 100%Z);
   CAdmit (sample_admission "r1" 20)].

Definition admitted_run (i : RunAdmission) (w : world) : AgentRun.Props :=
  match (perform (CAdmit i) w).1 with
  | Ok (AAdmitted (Some v)) => v
  | _ => sample_run ""
  end.

Lemma step_admitted i w :
  (perform (CAdmit i) w).1 = Ok (AAdmitted (Some (admitted_run i w))) →
  step (db w) (Did (CAdmit i) (Ok (AAdmitted (Some (admitted_run i w)))))
    (db (perform (CAdmit i) w).2).
Proof. intros Hr. rewrite <- Hr. apply step_perform. Qed.

(** Run r1 queued and locked, and admitted; then run r2 takes the expired
    lease over. *)
Definition queued_world : world := play (take 2 sample_calls) sample_world.
Definition admitted_world : world := (perform (CAdmit (sample_admission "r1" 20)) queued_world).2.
Definition takeover_calls : list call :=
  [CSave (sample_run "r2"); CAcquire "t1" "r2" (Some 150%Z) (Some 300%Z)].
Definition takeover_world : world := play takeover_calls admitted_world.

Lemma run_history_only_advances_witness :
  ∃ row, runs sample_tables = ∅ ∧ run_events sample_tables = [] ∧
    runs (db queued_world) !! "r1" = Some row ∧
    (∃ path, statuses_of "r1" (db queued_world) = path ++ [r_status row] ∧
       StronglySorted precedes (path ++ [r_status row]) ∧ length path ≤ 4) ∧
    ∃ row', runs (db takeover_world) !! "r1" = Some row' ∧ evolves row row' ∧
      (AgentRun.is_terminal (r_status row) = true → row' = row).
Proof.
  destruct (runs (db queued_world) !! "r1") as [row|] eqn:Hrow; [|by vm_compute in Hrow].
  exists row. split; [reflexivity|]. split; [reflexivity|]. split; [reflexivity|].
  exact (run_history_only_advances (db sample_world) _ (db queued_world) _ (db takeover_world)
    "r1" row eq_refl eq_refl (play_history (take 2 sample_calls) sample_world)
    (play_history (CAdmit (sample_admission "r1" 20) :: takeover_calls) queued_world) Hrow).
Defined.

(** A copy loaded while the run was queued, cancelled by its holder. *)
Definition queued_copy : AgentRun.Props :=
  match (findRun "r1" queued_world).1 with Ok (Some p) => p | _ => sample_run "" end.
Definition cancelled_copy : AgentRun.Props :=
  (AgentRun.transition AgentRun.cancelled (Some 30%Z) AgentRun.no_details queued_copy).2.

Lemma stale_copy_writes_nothing_witness :
  ∃ row row' r w', runs (db queued_world) !! "r1" = Some row ∧
    run_of_row "r1" row = Ok queued_copy ∧
    runs (db takeover_world) !! "r1" = Some row' ∧ saveRun cancelled_copy takeover_world = (r, w') ∧
    if bool_decide (r_status row' = r_status row) then row' = row else db w' = db takeover_world.
Proof.
  destruct (runs (db queued_world) !! "r1") as [row|] eqn:Hrow; [|by vm_compute in Hrow].
  destruct (runs (db takeover_world) !! "r1") as [row'|] eqn:Hrow'; [|by vm_compute in Hrow'].
  destruct (saveRun cancelled_copy takeover_world) as [r w'] eqn:Hs.
  assert (run_of_row "r1" row = Ok queued_copy) as Hcopy.
  { vm_compute in Hrow. injection Hrow as <-. by vm_compute. }
  exists row, row', r, w'. split; [reflexivity|]. split; [exact Hcopy|]. split; [reflexivity|].
  split; [reflexivity|].
  exact (stale_copy_writes_nothing (db queued_world) _ takeover_world "r1" row queued_copy row'
    cancelled_copy r w'
    (play_history (CAdmit (sample_admission "r1" 20) :: takeover_calls) queued_world)
    Hrow Hcopy Hrow' eq_refl eq_refl Hs).
Defined.

Lemma run_admitted_once_witness :
  (perform (CAdmit (sample_admission "r1" 20)) queued_world).1 =
    Ok (AAdmitted (Some (admitted_run (sample_admission "r1" 20) queued_world))) ∧
  (perform (CAdmit (sample_admission "r1" 500)) takeover_world).1 = Ok (AAdmitted None) ∧
  db (perform (CAdmit (sample_admission "r1" 500)) takeover_world).2 = db takeover_world.
Proof.
  assert ((perform (CAdmit (sample_admission "r1" 20)) queued_world).1 =
    Ok (AAdmitted (Some (admitted_run (sample_admission "r1" 20) queued_world)))) as Ha
    by by vm_compute.
  split; [exact Ha|].
  exact (run_admitted_once (db queued_world) (sample_admission "r1" 20) _ (db admitted_world) _
    (db takeover_world) (sample_admission "r1" 500) _ _ (step_admitted _ _ Ha)
    (play_history takeover_calls admitted_world) eq_refl (step_perform _ _)).
Defined.


(** A running run of the first stage of a pipeline that is in its second one. *)
Definition sample_stage (id : string) (i : nat) (s : PipelineRun.PipelineStageRunStatus)
    : PipelineRun.StageRun :=
  {| PipelineRun.sr_id := id; PipelineRun.sr_stageId := id; PipelineRun.sr_stageIndex := i;
     PipelineRun.sr_roleId := "engineer"; PipelineRun.sr_status := s;
     PipelineRun.sr_assignedAgentId := Some "a1"; PipelineRun.sr_assignedAt := Some (Some 2%Z);
     PipelineRun.sr_completedAt := None; PipelineRun.sr_approvedBy := None;
     PipelineRun.sr_approvalDecision := None; PipelineRun.sr_approvalRationale := None;
     PipelineRun.sr_approvedAt := None |}.

Definition sample_pipeline (current : nat) : PipelineRun.Run :=
  {| PipelineRun.id := "pl1"; PipelineRun.projectId := "p1"; PipelineRun.taskId := "t1";
     PipelineRun.manifestRevisionId := "m1"; PipelineRun.manifestRevision := 1;
     PipelineRun.definition := PipelineRun.sample_pipeline;
     PipelineRun.status := PipelineRun.run_active; PipelineRun.currentStageIndex := current;
     PipelineRun.stages :=
       [sample_stage "s1" 0 (if current =? 0 then PipelineRun.stage_active
                             else PipelineRun.stage_completed);
        sample_stage "s2" 1 (if current =? 0 then PipelineRun.stage_pending
                             else PipelineRun.stage_active)];
     PipelineRun.startedBy := "local-operator"; PipelineRun.version := Z.of_nat (2 + current);
     PipelineRun.createdAt := Some 2%Z; PipelineRun.updatedAt := Some 2%Z;
     PipelineRun.completedAt := None; PipelineRun.cancelledAt := None;
     PipelineRun.configurationPin := None |}.

Definition bound_run : AgentRun.Props :=
  {| AgentRun.id := "r1"; AgentRun.projectId := "p1"; AgentRun.taskId := "t1";
     AgentRun.agentId := "a1"; AgentRun.pipelineRunId := Some "pl1";
     AgentRun.pipelineStageRunId := Some "s1"; AgentRun.actionIntent := None;
     AgentRun.roleGuidance := None; AgentRun.execution := None;
     AgentRun.modelRouting := Some unrouted; AgentRun.status := AgentRun.running;
     AgentRun.worktreePath := None; AgentRun.result := None; AgentRun.error := None;
     AgentRun.createdAt := Some 10%Z; AgentRun.startedAt := Some (Some 12%Z);
     AgentRun.completedAt := None; AgentRun.updatedAt := Some 12%Z;
     AgentRun.persistenceToken := None |}.

Definition displaced_world : world :=
  let w := (perform (CSave bound_run)
              (with_tables sample_world
                 (set_pipelines <["pl1" := sample_pipeline 0]> sample_tables))).2 in
  with_tables w (set_pipelines <["pl1" := sample_pipeline 1]> (db w)).

Lemma displaced_run_never_ends_witness :
  ∃ row, runs (db displaced_world) !! "r1" = Some row ∧ left_behind "r1" (db displaced_world) ∧
    in_flight (r_status row) = true ∧
    (∀ v, AgentRun.id v = "r1" → ∃ e, (saveRun v displaced_world).1 = Throw e) ∧
    ∃ row', runs (db displaced_world) !! "r1" = Some row' ∧ in_flight (r_status row') = true.
Proof.
  destruct (runs (db displaced_world) !! "r1") as [row|] eqn:Hrow; [|by vm_compute in Hrow].
  assert (in_flight (r_status row) = true) as Hfl
    by (vm_compute in Hrow; injection Hrow as <-; by vm_compute).
  assert (binding_valid row (db displaced_world) = false) as Hb
    by (vm_compute in Hrow; injection Hrow as <-; by vm_compute).
  assert (left_behind "r1" (db displaced_world)) as Hl by (exists row; split; [exact Hrow|exact Hb]).
  exists row. split; [reflexivity|]. split; [exact Hl|]. split; [exact Hfl|].
  rewrite <- Hrow.
  exact (displaced_run_never_ends (db displaced_world) [] displaced_world "r1" row
    (trace_nil _ _ Hl) Hrow Hfl).
Defined.

End RunHistory.
