(* ===== verification/OutboxModel.v ===== *)
(** The job outbox: delivery intents that a service writes in its own
    transaction, and the dispatcher that publishes them to the job queue.
    Models [packages/storage-sqlite/src/repositories/sqlite-job-outbox.repository.ts],
    [packages/application/src/queue/dispatch-job-outbox.ts], the ports
    [job-outbox-repository.port.ts] and [job-queue.port.ts], and the triggers of
    [migrations/project/0032] and [0034] on the outbox. *)
From S2P Require Import Prelude Errors TaskModel PipelineModel Json AgentModel Store RunStore.
Import Canonical RunStore.

Module Outbox.

(** * SqliteJobOutboxRepository *)

Record append_input := {
  oi_id : string;
  oi_projectId : string;
  oi_jobType : QueueJobType;
  oi_aggregateType : aggregate_type;
  oi_aggregateId : string;
  oi_pipelineStageRunId : option string;
  oi_dedupeKey : string;
  oi_payload : list (string * cjson);
  oi_availableAt : date;
  oi_createdAt : date
}.

(** The stage row [id] of the project, with the pipeline run it belongs to. *)
Definition find_stage (projectId id : string) (d : tables)
    : option (PipelineRun.Run * PipelineRun.StageRun) :=
  head (omap (λ p : string * PipelineRun.Run,
      if bool_decide (PipelineRun.projectId p.2 = projectId) then
        pair p.2 <$> List.find (λ s, bool_decide (PipelineRun.sr_id s = id))
                       (PipelineRun.stages p.2)
      else None) (map_to_list (pipelines d))).

(** [job_outbox_stage_binding_valid] *)
Definition stage_binding_valid (i : append_input) (d : tables) : bool :=
  match oi_pipelineStageRunId i with
  | None => true
  | Some stage =>
      match find_stage (oi_projectId i) stage d with
      | None => false
      | Some (p, s) =>
          match oi_jobType i, oi_aggregateType i with
          | orchestrate_pipeline, agg_pipeline_run =>
              bool_decide (PipelineRun.id p = oi_aggregateId i)
          | execute_agent_run, agg_agent_run =>
              match runs d !! oi_aggregateId i with
              | Some r => bool_decide (r_project_id r = oi_projectId i) &&
                          bool_decide (r_pipeline_stage_run_id r = Some (PipelineRun.sr_id s))
              | None => false
              end
          | _, _ => false
          end
      end
  end.

Section repository.
  Context `{ShowNumber}.

Definition append (i : append_input) : command bool :=
  lift (assertNoSensitiveFields (CObj (oi_payload i)) "Job outbox payload");;
  payload ← lift (normalizeCanonicalJson (embed 0 (CObj (oi_payload i))));
  refuse_if (4096 <? utf8_length (stringify payload))%Z
    (DomainValidationError "Job outbox payload is too large");;
  available ← lift (iso (oi_availableAt i));
  created ← lift (iso (oi_createdAt i));
  d ← read (λ d, d);
  refuse_if (negb (stage_binding_valid i d))
    (SqliteError "job outbox pipeline stage binding is invalid");;
  if existsb (λ o, bool_decide (ob_projectId o = oi_projectId i) &&
                   bool_decide (ob_dedupeKey o = oi_dedupeKey i)) (outbox d)
  then mret false else
  refuse_if (existsb (λ o, bool_decide (ob_id o = oi_id i)) (outbox d))
    (unique_failed "job_outbox.id");;
  refuse_if (negb (known_project (oi_projectId i) d)) foreign_key;;
  write (set_outbox (λ l, l ++
    [{| ob_id := oi_id i; ob_projectId := oi_projectId i; ob_jobType := oi_jobType i;
        ob_aggregateType := oi_aggregateType i; ob_aggregateId := oi_aggregateId i;
        ob_pipelineStageRunId := oi_pipelineStageRunId i; ob_dedupeKey := oi_dedupeKey i;
        ob_payload := match payload with CObj members => members | _ => [] end;
        ob_availableAt := available; ob_attemptCount := 0; ob_dispatchedAt := None;
        ob_createdAt := created |}]));;
  mret true.

End repository.

(** [ORDER BY created_at, id] *)
Definition compare_outbox (a b : OutboxRow) : Z :=
  or_else (ob_createdAt a - ob_createdAt b)%Z (compare_text (ob_id a) (ob_id b)).

Definition check_limit (limit : Z) (message : string) : outcome unit :=
  throw_if ((limit <? 1) || (1000 <? limit))%Z (DomainValidationError message).

Definition is_pending (o : OutboxRow) : bool :=
  match ob_dispatchedAt o with None => true | Some _ => false end.

Definition due (at_ : Z) (o : OutboxRow) : bool :=
  is_pending o && (ob_availableAt o <=? at_)%Z.

Definition due_rows (at_ : Z) (limit : Z) (d : tables) : list OutboxRow :=
  take (Z.to_nat limit) (sort_by compare_outbox (filter (λ o, due at_ o = true) (outbox d))).

Definition pending (at_ : date) (limit : Z) : command (list OutboxRow) :=
  lift (check_limit limit "Outbox limit is invalid");;
  at_ ← lift (iso at_);
  read (due_rows at_ limit).

(** The condition of [replayable]: dispatched work that is still to be done. *)
Definition outstanding (d : tables) (o : OutboxRow) : bool :=
  negb (is_pending o) &&
  match ob_jobType o with
  | execute_agent_run =>
      match runs d !! ob_aggregateId o with
      | Some r => bool_decide (r_project_id r = ob_projectId o) &&
                  bool_decide (r_pipeline_stage_run_id r = ob_pipelineStageRunId o) &&
                  bool_decide (r_status r = AgentRun.queued)
      | None => false
      end
  | orchestrate_pipeline =>
      match pipelines d !! ob_aggregateId o with
      | Some p =>
          bool_decide (PipelineRun.projectId p = ob_projectId o) && run_is_active p &&
          existsb (λ s, bool_decide (ob_pipelineStageRunId o = Some (PipelineRun.sr_id s)) &&
              stage_is_active s &&
              let bound := filter (λ r : string * RunRow,
                  r_pipeline_stage_run_id r.2 = Some (PipelineRun.sr_id s))
                  (project_runs (ob_projectId o) d) in
              ((length bound =? 0) ||
               existsb (λ r, bool_decide (r_status r.2 = AgentRun.completed)) bound))
            (PipelineRun.stages p)
      | None => false
      end
  end.

Definition replayable (limit : Z) : command (list OutboxRow) :=
  lift (check_limit limit "Outbox replay limit is invalid");;
  read (λ d, take (Z.to_nat limit)
               (sort_by compare_outbox (filter (λ o, outstanding d o = true) (outbox d)))).

(** [UPDATE job_outbox SET ... WHERE id=? AND dispatched_at IS NULL] *)
Definition update_pending (id : string) (f : OutboxRow → OutboxRow) (l : list OutboxRow)
    : list OutboxRow :=
  (λ o, if bool_decide (ob_id o = id) && is_pending o then f o else o) <$> l.

Definition has_pending (id : string) (d : tables) : bool :=
  existsb (λ o, bool_decide (ob_id o = id) && is_pending o) (outbox d).

Definition dispatched (at_ : Z) (o : OutboxRow) : OutboxRow :=
  {| ob_id := ob_id o; ob_projectId := ob_projectId o; ob_jobType := ob_jobType o;
     ob_aggregateType := ob_aggregateType o; ob_aggregateId := ob_aggregateId o;
     ob_pipelineStageRunId := ob_pipelineStageRunId o; ob_dedupeKey := ob_dedupeKey o;
     ob_payload := ob_payload o; ob_availableAt := ob_availableAt o;
     ob_attemptCount := ob_attemptCount o; ob_dispatchedAt := Some at_;
     ob_createdAt := ob_createdAt o |}.

Definition failed (at_ : Z) (o : OutboxRow) : OutboxRow :=
  {| ob_id := ob_id o; ob_projectId := ob_projectId o; ob_jobType := ob_jobType o;
     ob_aggregateType := ob_aggregateType o; ob_aggregateId := ob_aggregateId o;
     ob_pipelineStageRunId := ob_pipelineStageRunId o; ob_dedupeKey := ob_dedupeKey o;
     ob_payload := ob_payload o; ob_availableAt := at_;
     ob_attemptCount := S (ob_attemptCount o); ob_dispatchedAt := ob_dispatchedAt o;
     ob_createdAt := ob_createdAt o |}.

Definition markDispatched (id : string) (at_ : date) : command bool :=
  at_ ← lift (iso at_);
  found ← read (has_pending id);
  write (set_outbox (update_pending id (dispatched at_)));;
  mret found.

Definition markFailed (id : string) (at_ : date) : command bool :=
  at_ ← lift (iso at_);
  found ← read (has_pending id);
  write (set_outbox (update_pending id (failed at_)));;
  mret found.

Definition pendingCount : command nat :=
  read (λ d, length (filter (λ o, is_pending o = true) (outbox d))).

(** * DispatchJobOutbox *)

Record QueueJob := {
  qj_type : QueueJobType;
  qj_jobId : string;
  qj_payload : cjson
}.

(** The queue: accepted, or the call was rejected. *)
Class JobQueue (Q : Type) := enqueue : QueueJob → Q → bool * Q.

Definition maxDispatchBatch : Z := 50.
Definition maxBackoffMs : Z := 60000.

(** [replaceAll(from, to)] for single characters. *)
Fixpoint replace_char (from to : Ascii.ascii) (s : string) : string :=
  match s with
  | EmptyString => ""
  | String c s => String (if Ascii.eqb c from then to else c) (replace_char from to s)
  end.

Definition jobId (o : OutboxRow) : string :=
  match ob_jobType o with
  | execute_agent_run => "agent-run-" +:+ ob_aggregateId o
  | orchestrate_pipeline =>
      let stage := default (ob_dedupeKey o) (ob_pipelineStageRunId o) in
      replace_char (Ascii.ascii_of_nat 58) (Ascii.ascii_of_nat 45)
        ("pipeline-orchestration-" +:+ ob_aggregateId o +:+ "-" +:+ stage)
  end.

Definition backoff (attemptCount : nat) : Z :=
  Z.min (1000 * 2 ^ Z.min (Z.max (Z.of_nat attemptCount) 0) 6) maxBackoffMs.

Definition retryAt (now : date) (attemptCount : nat) : date :=
  (λ z, z + backoff attemptCount)%Z <$> now.

Section dispatcher.
  Context `{Store.Environment} {Q : Type} `{JobQueue Q}.

Abbreviation job_command A := (method (world * Q) A).

Definition on_world {A} (m : command A) : job_command A := λ s,
  let '(r, w) := m s.1 in (r, (w, s.2)).

(** Enqueues the record's job: a payload that is not canonical, or a queue that
    rejects the job, is caught by both callers. *)
Definition publish (o : OutboxRow) : job_command bool := λ s,
  match normalizeCanonicalJson (embed 0 (CObj (ob_payload o))) with
  | Throw _ => (Ok false, s)
  | Ok payload =>
      let '(accepted, q) := enqueue {| qj_type := ob_jobType o; qj_jobId := jobId o;
                                       qj_payload := payload |} s.2 in
      (Ok accepted, (s.1, q))
  end.

(** The [catch] covers [markDispatched] too. *)
Definition dispatch_one (o : OutboxRow) : job_command nat :=
  published ← publish o;
  marked ← (if published : bool then λ s,
    match on_world (at_ ← now; markDispatched (ob_id o) at_) s with
    | (Ok b, s') => (Ok (Some (if b : bool then 1 else 0)), s')
    | (Throw _, s') => (Ok None, s')
    end
  else mret None);
  match marked with
  | Some n => mret n
  | None =>
      on_world (at_ ← now; markFailed (ob_id o) (retryAt at_ (ob_attemptCount o)));;
      mret 0
  end.

Fixpoint dispatch_all (l : list OutboxRow) : job_command nat :=
  match l with
  | [] => mret 0
  | o :: l => n ← dispatch_one o; m ← dispatch_all l; mret (n + m)
  end.

Definition dispatch (limit : Z) : job_command nat :=
  l ← on_world (at_ ← now; pending at_ limit);
  dispatch_all l.

Fixpoint replay_all (l : list OutboxRow) : job_command nat :=
  match l with
  | [] => mret 0
  | o :: l => accepted ← publish o; m ← replay_all l; mret ((if accepted : bool then 1 else 0) + m)
  end.

Definition replay (limit : Z) : job_command nat :=
  l ← on_world (replayable limit);
  replay_all l.

(** * Lemmas *)

Lemma backoff_bounds n : (1000 ≤ backoff n ≤ 60000)%Z.
Proof.
  unfold backoff, maxBackoffMs. split; [|lia].
  assert (0 ≤ Z.min (Z.max (Z.of_nat n) 0) 6)%Z as Hn by lia.
  pose proof (Z.pow_pos_nonneg 2 _ ltac:(lia) Hn). lia.
Qed.

(** The queue in state [q] takes the job of the row. *)
Definition accepts (o : OutboxRow) (q : Q) : bool :=
  match normalizeCanonicalJson (embed 0 (CObj (ob_payload o))) with
  | Throw _ => false
  | Ok payload => (enqueue {| qj_type := ob_jobType o; qj_jobId := jobId o;
                              qj_payload := payload |} q).1
  end.

Lemma publish_accepts o w q : ∃ q', publish o (w, q) = (Ok (accepts o q), (w, q')).
Proof.
  unfold publish, accepts. simpl. destruct (normalizeCanonicalJson _) as [payload|e]; [|eauto].
  destruct (enqueue _ q) as [accepted q']. eauto.
Qed.

(** What one pass makes of a row it picked: delivered if the queue took the
    job, to be tried again later if it did not. *)
Definition handled (o o' : OutboxRow) : Prop :=
  ∃ q t, if accepts o q then o' = dispatched (Store.clock_at t) o
         else o' = failed (Store.clock_at t + backoff (ob_attemptCount o))%Z o.

Definition only_outbox (w w' : world) : Prop :=
  db w' = set_outbox (λ _, outbox (db w')) (db w).

Lemma only_outbox_refl w : only_outbox w w.
Proof. unfold only_outbox. by destruct (db w). Qed.

Lemma only_outbox_trans w1 w2 w3 : only_outbox w1 w2 → only_outbox w2 w3 → only_outbox w1 w3.
Proof. unfold only_outbox. intros H12 H23. rewrite H23, H12. done. Qed.

Lemma dispatch_one_spec o w q :
  is_pending o = true → o ∈ outbox (db w) → ∃ n w' q' f,
    dispatch_one o (w, q) = (Ok n, (w', q')) ∧ only_outbox w w' ∧ handled o (f o) ∧
    (∀ x, ob_id (f x) = ob_id x) ∧
    outbox (db w') = update_pending (ob_id o) f (outbox (db w)).
Proof.
  intros Hp Ho. destruct (publish_accepts o w q) as (q1 & Hpub).
  unfold dispatch_one. unfold mbind at 1, action_bind at 1. rewrite Hpub.
  destruct (accepts o q) eqn:Ha.
  - eexists _, _, q1, (dispatched (Store.clock_at (ticks w))). split; [reflexivity|].
    split; [done|]. split; [|done]. exists q, (ticks w). by rewrite Ha.
  - eexists _, _, q1, (failed (Store.clock_at (ticks w) + backoff (ob_attemptCount o))).
    split; [reflexivity|]. split; [done|]. split; [|done]. exists q, (ticks w). by rewrite Ha.
Qed.

Lemma update_pending_ids id f l :
  (∀ x, ob_id (f x) = ob_id x) → ob_id <$> update_pending id f l = ob_id <$> l.
Proof.
  intros Hf. unfold update_pending. rewrite <- list_fmap_compose. apply list_fmap_ext.
  intros i x _. simpl. by case_match.
Qed.

Lemma update_pending_other id f l x : x ∈ l → ob_id x ≠ id → x ∈ update_pending id f l.
Proof.
  intros Hx Hid. apply list_elem_of_fmap. exists x. by rewrite bool_decide_false.
Qed.

Lemma update_pending_self o f l :
  o ∈ l → is_pending o = true → f o ∈ update_pending (ob_id o) f l.
Proof.
  intros Ho Hp. apply list_elem_of_fmap. exists o. by rewrite bool_decide_true, Hp.
Qed.

Lemma NoDup_ids_eq l (x y : OutboxRow) : NoDup (ob_id <$> l) → x ∈ l → y ∈ l → ob_id x = ob_id y → x = y.
Proof.
  intros Hnd Hx Hy He. induction l as [|z l IH]; [by apply elem_of_nil in Hx|].
  simpl in Hnd. apply NoDup_cons in Hnd as [Hz Hnd].
  apply elem_of_cons in Hx as [->|Hx], Hy as [->|Hy]; auto.
  - destruct Hz. rewrite He. by apply list_elem_of_fmap_2.
  - destruct Hz. rewrite <- He. by apply list_elem_of_fmap_2.
Qed.

Lemma dispatch_all_spec l w q :
  NoDup (ob_id <$> outbox (db w)) → NoDup (ob_id <$> l) →
  (∀ o, o ∈ l → is_pending o = true ∧ o ∈ outbox (db w)) →
  ∃ n w' q', dispatch_all l (w, q) = (Ok n, (w', q')) ∧ only_outbox w w' ∧
    ob_id <$> outbox (db w') = ob_id <$> outbox (db w) ∧
    (∀ o, o ∈ outbox (db w) → ob_id o ∉ (ob_id <$> l) → o ∈ outbox (db w')) ∧
    (∀ o, o ∈ l → ∃ o', handled o o' ∧ o' ∈ outbox (db w')).
Proof.
  revert w q. induction l as [|o l IH]; intros w q Hids Hl Hin.
  { exists 0, w, q. split; [done|]. split; [apply only_outbox_refl|]. split; [done|].
    split; [done|]. by intros o ?%elem_of_nil. }
  simpl in Hl. apply NoDup_cons in Hl as [Hol Hl].
  destruct (Hin o (list_elem_of_here _ _)) as [Hp Ho].
  destruct (dispatch_one_spec o w q Hp Ho) as (n & w1 & q1 & f & H1 & Hd1 & Hh & Hf & Hout).
  assert (ob_id <$> outbox (db w1) = ob_id <$> outbox (db w)) as Hids1
    by by rewrite Hout, update_pending_ids.
  destruct (IH w1 q1) as (m & w2 & q2 & H2 & Hd2 & Hids2 & Hkeep & Hdone).
  { by rewrite Hids1. }
  { done. }
  { intros x Hx. destruct (Hin x (list_elem_of_further _ _ _ Hx)) as [Hpx Hox]. split; [done|].
    rewrite Hout. apply update_pending_other; [done|]. intros He. destruct Hol. rewrite <- He.
    by apply list_elem_of_fmap_2. }
  exists (n + m), w2, q2. simpl. unfold mbind, action_bind. rewrite H1, H2.
  split; [done|]. split; [by eapply only_outbox_trans|]. split; [congruence|]. split.
  - intros x Hx Hnot. apply not_elem_of_cons in Hnot as [Hne Hnot]. apply Hkeep; [|done].
    rewrite Hout. by apply update_pending_other.
  - intros x [->|Hx]%elem_of_cons; [|by apply Hdone]. exists (f o). split; [done|].
    apply Hkeep; [|by rewrite Hf]. rewrite Hout. by apply update_pending_self.
Qed.

Lemma due_rows_spec at_ limit d o :
  o ∈ due_rows at_ limit d → due at_ o = true ∧ o ∈ outbox d.
Proof.
  unfold due_rows. intros Ho%elem_of_take. destruct Ho as (i & Ho & _).
  apply list_elem_of_lookup_2 in Ho. rewrite sort_by_elem_of in Ho.
  by apply list_elem_of_filter in Ho.
Qed.

Lemma due_rows_ids at_ limit d :
  NoDup (ob_id <$> outbox d) → NoDup (ob_id <$> due_rows at_ limit d).
Proof.
  intros Hnd. unfold due_rows. rewrite fmap_take. eapply sublist_NoDup, sublist_take.
  rewrite sort_by_perm. by apply NoDup_fmap_filter.
Qed.

(** * Properties *)

(** A dispatch pass always returns, and it touches the outbox only: every
    intent that was due among the first [limit] in order is either recorded as
    dispatched, and then the queue took its job, or scheduled for a retry with
    one more attempt counted, one second to one minute later; every other
    intent is as it was. *)
Theorem dispatch_handles_due_intents limit w q :
  NoDup (ob_id <$> outbox (db w)) → (1 ≤ limit ≤ 1000)%Z →
  ∃ n w' q', dispatch limit (w, q) = (Ok n, (w', q')) ∧
    db w' = set_outbox (λ _, outbox (db w')) (db w) ∧
    ob_id <$> outbox (db w') = ob_id <$> outbox (db w) ∧
    ∀ o, o ∈ outbox (db w) →
      let picked := due_rows (Store.clock_at (ticks w)) limit (db w) in
      (o ∈ picked → ∃ o', handled o o' ∧ o' ∈ outbox (db w')) ∧
      (ob_id o ∉ (ob_id <$> picked) → o ∈ outbox (db w')).
Proof.
  intros Hids Hlim. set (picked := due_rows (Store.clock_at (ticks w)) limit (db w)).
  set (w0 := {| db := db w; active := active w; ticks := S (ticks w); generated := generated w |}).
  destruct (dispatch_all_spec picked w0 q) as (n & w' & q' & Hd & Honly & Hi & Hkeep & Hdone);
    [done|by apply due_rows_ids| |].
  { intros o [Hdue Ho]%due_rows_spec. split; [|done].
    by apply andb_true_iff in Hdue as [? _]. }
  exists n, w', q'. split; [|split_and!; [done|done|by eauto]].
  rewrite <- Hd. unfold dispatch, on_world, pending, check_limit. unfold mbind, action_bind. simpl.
  by destruct (limit <? 1)%Z eqn:?, (1000 <? limit)%Z eqn:?; try lia.
Qed.

End dispatcher.

(** A queue that takes one job and is unreachable afterwards. *)
#[local] Instance sample_queue : JobQueue nat := λ _ n, (n =? 0, S n).
#[local] Instance sample_environment : Store.Environment :=
  {| Store.clock_at := λ n, (1000 + Z.of_nat n)%Z; Store.id_at := λ n, "id" |}.

Definition sample_row (id : string) (created : Z) : OutboxRow :=
  {| ob_id := id; ob_projectId := "p1"; ob_jobType := execute_agent_run;
     ob_aggregateType := agg_agent_run; ob_aggregateId := id; ob_pipelineStageRunId := None;
     ob_dedupeKey := id; ob_payload := [("runId", CStr id)]; ob_availableAt := created;
     ob_attemptCount := 0; ob_dispatchedAt := None; ob_createdAt := created |}.

Definition sample_world : world :=
  {| db := {| base := {| Store.projects := {["p1"]}; Store.tasks := ∅; Store.dependencies := ∅;
                         Store.history := ∅; Store.requirements := ∅;
                         Store.task_requirements := ∅; Store.audit := [] |};
              roles := ∅; agents := ∅; runs := ∅; run_events := []; locks := ∅; pipelines := ∅;
              overrides := [];
              outbox := [sample_row "r2" 20; sample_row "r1" 10; sample_row "r3" 5000]; manifests := [] |};
     active := false; ticks := 0; generated := 0 |}.

Example sample_dispatch :
  (λ o, (ob_id o, ob_dispatchedAt o, ob_availableAt o)) <$>
    outbox (db (dispatch (Q := nat) 10 (sample_world, 0)).2.1) =
  [("r2", None, 2002%Z); ("r1", Some 1001%Z, 10%Z); ("r3", None, 5000%Z)].
Proof. by vm_compute. Qed.

Lemma dispatch_handles_due_intents_witness :
  NoDup (ob_id <$> outbox (db sample_world)) ∧ (1 ≤ 10 ≤ 1000)%Z ∧
  ∃ n w' q', dispatch (Q := nat) 10 (sample_world, 0) = (Ok n, (w', q')) ∧
    db w' = set_outbox (λ _, outbox (db w')) (db sample_world) ∧
    ob_id <$> outbox (db w') = ob_id <$> outbox (db sample_world) ∧
    ∀ o, o ∈ outbox (db sample_world) →
      let picked := due_rows (Store.clock_at (ticks sample_world)) 10 (db sample_world) in
      (o ∈ picked → ∃ o', handled (Q := nat) o o' ∧ o' ∈ outbox (db w')) ∧
      (ob_id o ∉ (ob_id <$> picked) → o ∈ outbox (db w')).
Proof.
  assert (NoDup (ob_id <$> outbox (db sample_world))) as Hn
    by (apply (bool_decide_unpack _); vm_compute; exact I).
  assert (1 ≤ 10 ≤ 1000)%Z as Hl by lia.
  split; [exact Hn|]. split; [exact Hl|].
  exact (dispatch_handles_due_intents 10 sample_world 0 Hn Hl).
Defined.

End Outbox.
