(* ===== verification/PipelineStore.v ===== *)
(** The pipeline runs of the project database: [pipeline_run] with its stage
    rows, its configuration pin and its overrides.  Models
    [packages/storage-sqlite/src/repositories/sqlite-pipeline-run.repository.ts]
    and the triggers of [migrations/project/0020], [0035], [0048] and [0051] on
    these tables, and proves that a save is a compare-and-swap on the version
    which takes every transition of the aggregate and refuses every other. *)
From S2P Require Import Prelude Errors TaskModel PipelineModel Json AgentModel Store RunStore.
Import PipelineRun RunStore.

Module PipelineStore.

(** The stage rows of a run are kept in the order of [stage_index] that the
    repository reads them in, the packs of a pin in the order of [pack_id]. *)

(** * insert *)

(** [pipeline_run_manifest_revision_tuple_insert] *)
Definition manifest_known (p : Run) (d : tables) : bool :=
  existsb (λ r, bool_decide (rv_id r = manifestRevisionId p) &&
                bool_decide (rv_projectId r = projectId p) &&
                bool_decide (rv_revision r = manifestRevision p)) (manifests d).

(** [pipeline_run_active_task_idx] *)
Definition active_for_task (p : Run) (d : tables) : bool :=
  run_is_active p &&
  existsb (λ e : string * Run, run_is_active e.2 && bool_decide (projectId e.2 = projectId p) &&
                               bool_decide (taskId e.2 = taskId p))
    (map_to_list (pipelines d)).

(** [digest GLOB 'sha256:*' AND length(digest) = 71] *)
Definition digest_ok (digest : string) : bool :=
  starts_with digest "sha256:" && (String.length digest =? 71).

(** The CHECK constraints of 0051, which the aggregate does not repeat. *)
Definition pin_ok (pin : ConfigurationPin) : bool :=
  digest_ok (configurationDigest pin) && (1 <=? coreContractVersion pin)%Z &&
  (0 <=? bindingRevision pin)%Z && (0 <=? definitionRevision pin)%Z.

Definition pack_ok (pack : PackIdentity) : bool :=
  negb (bool_decide (pack_id pack = "")) && negb (bool_decide (pack_version pack = "")) &&
  digest_ok (pack_manifestDigest pack).

Definition compare_packs (a b : PackIdentity) : Z := compare_text (pack_id a) (pack_id b).

Definition check_failed : error := SqliteError "CHECK constraint failed".

(** [task_execution_history_pipeline_run] *)
Definition start_refused (p : Run) (d : tables) : bool :=
  run_is_active p &&
  Store.has_prerequisite_outside [Task.completed; Task.waiting_review]
    (projectId p) (taskId p) (base d).

Definition record_pipeline_start (p : Run) (created : Z) : Store.database → Store.database :=
  Store.set_history (Store.record_execution (taskId p) (projectId p) (Some created)).

(** The row of [pipeline_run], its stages and pin not yet written. *)
Definition run_row (p : Run) (pin : option ConfigurationPin) : Run :=
  {| id := id p; projectId := projectId p; taskId := taskId p;
     manifestRevisionId := manifestRevisionId p; manifestRevision := manifestRevision p;
     definition := definition p; status := status p; currentStageIndex := currentStageIndex p;
     stages := []; startedBy := startedBy p; version := version p; createdAt := createdAt p;
     updatedAt := updatedAt p; completedAt := completedAt p; cancelledAt := cancelledAt p;
     configurationPin := pin |}.

Definition insert_run_row (p : Run) : command unit :=
  created ← lift (iso (createdAt p));
  lift (iso (updatedAt p));;
  lift (iso_or_null (completedAt p));;
  lift (iso_or_null (cancelledAt p));;
  d ← read (λ d, d);
  refuse_if (negb (manifest_known p d))
    (SqliteError "pipeline run manifest revision tuple is invalid");;
  refuse_if (match configurationPin p with Some pin => negb (pin_ok pin) | None => false end)
    check_failed;;
  refuse_if (bool_decide (is_Some (pipelines d !! id p))) (unique_failed "pipeline_run.id");;
  refuse_if (active_for_task p d)
    (unique_failed "pipeline_run.project_id, pipeline_run.task_id");;
  refuse_if (negb (known_project (projectId p) d) ||
             negb (bool_decide (is_Some (Store.tasks (base d) !! taskId p)))) foreign_key;;
  write (set_pipelines <[id p := run_row p None]>);;
  refuse_if (start_refused p d) Store.incomplete_prerequisites;;
  write (set_base (record_pipeline_start p created)).

(** [insertConfigurationPackTuples]: the packs of one relation. *)
Definition insert_packs (packs : list PackIdentity) : command unit :=
  refuse_if (negb (forallb pack_ok packs)) check_failed;;
  refuse_if (negb (bool_decide (NoDup (pack_id <$> packs))))
    (unique_failed "pipeline_run_configuration_pack.pack_id").

Definition stored_pin (pin : ConfigurationPin) : ConfigurationPin :=
  {| configurationDigest := configurationDigest pin;
     coreContractVersion := coreContractVersion pin; bindingRevision := bindingRevision pin;
     definitionRevision := definitionRevision pin;
     selectedPacks := sort_by compare_packs (selectedPacks pin);
     resolvedPacks := sort_by compare_packs (resolvedPacks pin) |}.

(** The columns of the pin, its pack tuples and the seal after them. *)
Definition insert_pin (p : Run) : command unit :=
  match configurationPin p with
  | None => mret tt
  | Some pin =>
      insert_packs (selectedPacks pin);;
      insert_packs (resolvedPacks pin);;
      write (set_pipelines <[id p := run_row p (Some (stored_pin pin))]>)
  end.

(** The foreign key [(project_id, assigned_agent_id)], null when unassigned. *)
Definition agent_known (projectId : string) (agentId : option string) (d : tables) : bool :=
  match agentId with
  | None => true
  | Some a => match agents d !! a with
              | Some ag => bool_decide (ag_projectId ag = projectId)
              | None => false
              end
  end.

Definition is_working (s : StageRun) : bool :=
  match sr_status s with stage_active | stage_awaiting_approval => true | _ => false end.

Definition compare_stages (a b : StageRun) : Z :=
  (Z.of_nat (sr_stageIndex a) - Z.of_nat (sr_stageIndex b))%Z.

(** A stage clashes with the rows that are there: the primary key of the table
    and the unique keys within the run. *)
Definition stage_clashes (runId : string) (s : StageRun) (d : tables) : bool :=
  stage_exists (sr_id s) d ||
  match pipelines d !! runId with
  | Some p =>
      existsb (λ t, (sr_stageIndex t =? sr_stageIndex s) ||
                    bool_decide (sr_stageId t = sr_stageId s) ||
                    (is_working s && is_working t)) (stages p)
  | None => false
  end.

Definition check_stage_dates (s : StageRun) : outcome unit :=
  iso_or_null (sr_assignedAt s);; iso_or_null (sr_completedAt s);; iso_or_null (sr_approvedAt s);;
  Ok tt.

Definition insert_stage (runId projectId : string) (s : StageRun) : command unit :=
  lift (check_stage_dates s);;
  d ← read (λ d, d);
  refuse_if (stage_clashes runId s d) (unique_failed "pipeline_stage_run");;
  refuse_if (negb (agent_known projectId (sr_assignedAgentId s) d)) foreign_key;;
  write (set_pipelines
    (alter (λ p, with_stages p (sort_by compare_stages (stages p ++ [s]))) runId)).

Fixpoint insert_stages (runId projectId : string) (l : list StageRun) : command unit :=
  match l with
  | [] => mret tt
  | s :: l => insert_stage runId projectId s;; insert_stages runId projectId l
  end.

Definition insert (p : Run) : command unit :=
  let value := snapshot p in
  insert_run_row value;;
  insert_pin value;;
  insert_stages (id value) (projectId value) (stages value).

(** * Reading *)

Definition findById (runId projectId_ : string) : command (option Run) :=
  read (λ d, match pipelines d !! runId with
             | Some p => if bool_decide (projectId p = projectId_) then Some (restore p) else None
             | None => None
             end).

(** [ORDER BY created_at, id] *)
Definition compare_runs (a b : Run) : Z :=
  or_else (default 0 (createdAt a) - default 0 (createdAt b))%Z (compare_text (id a) (id b)).

Definition project_pipelines (projectId_ : string) (d : tables) : list Run :=
  sort_by compare_runs
    (filter (λ p, projectId p = projectId_) (map_to_list (pipelines d)).*2).

Definition listByProject (projectId : string) : command (list Run) :=
  read (λ d, restore <$> project_pipelines projectId d).

Definition listActiveByProject (projectId : string) : command (list Run) :=
  read (λ d, restore <$> filter (λ p, run_is_active p = true) (project_pipelines projectId d)).

(** * save *)

(** [pipeline_run_status_transition] and [pipeline_run_version_transition] *)
Definition run_update_refuses (old new : Run) : bool :=
  (negb (bool_decide (status new = status old)) && negb (run_is_active old)) ||
  negb (version new =? version old + 1)%Z || negb (date_leb (updatedAt old) (updatedAt new)).

(** The columns [save] sets on the run's row. *)
Definition updated_run (old new : Run) : Run :=
  {| id := id old; projectId := projectId old; taskId := taskId old;
     manifestRevisionId := manifestRevisionId old; manifestRevision := manifestRevision old;
     definition := definition old; status := status new;
     currentStageIndex := currentStageIndex new; stages := stages old;
     startedBy := startedBy old; version := version new; createdAt := createdAt old;
     updatedAt := updatedAt new; completedAt := completedAt new; cancelledAt := cancelledAt new;
     configurationPin := configurationPin old |}.

(** [pipeline_stage_run_status_transition] *)
Definition stage_moves (s : PipelineStageRunStatus) : list PipelineStageRunStatus :=
  match s with
  | stage_pending => [stage_active; stage_cancelled]
  | stage_active => [stage_awaiting_approval; stage_completed; stage_cancelled]
  | stage_awaiting_approval => [stage_completed; stage_cancelled]
  | _ => []
  end.

Definition stage_move_refused (old new : StageRun) : bool :=
  negb (bool_decide (sr_status new = sr_status old)) &&
  negb (includes (sr_status new) (stage_moves (sr_status old))).

(** [pipeline_stage_run_assignment_once] *)
Definition assignment_refused (old new : StageRun) : bool :=
  (negb (bool_decide (sr_assignedAgentId new = sr_assignedAgentId old)) ||
   negb (bool_decide (sr_assignedAt new = sr_assignedAt old))) &&
  (negb (bool_decide (sr_assignedAgentId old = None)) ||
   bool_decide (sr_assignedAgentId new = None) ||
   negb (bool_decide (sr_status old = stage_active))).

(** [pipeline_stage_run_approval_once] *)
Definition approval_refused (old new : StageRun) : bool :=
  (negb (bool_decide (sr_approvedBy new = sr_approvedBy old)) ||
   negb (bool_decide (sr_approvalDecision new = sr_approvalDecision old)) ||
   negb (bool_decide (sr_approvalRationale new = sr_approvalRationale old)) ||
   negb (bool_decide (sr_approvedAt new = sr_approvedAt old))) &&
  (negb (bool_decide (sr_approvedBy old = None)) || bool_decide (sr_approvedBy new = None) ||
   negb (bool_decide (sr_status old = stage_awaiting_approval))).

(** The columns [save] sets on a stage's row. *)
Definition updated_stage (old new : StageRun) : StageRun :=
  {| sr_id := sr_id old; sr_stageId := sr_stageId old; sr_stageIndex := sr_stageIndex old;
     sr_roleId := sr_roleId old; sr_status := sr_status new;
     sr_assignedAgentId := sr_assignedAgentId new; sr_assignedAt := sr_assignedAt new;
     sr_completedAt := sr_completedAt new; sr_approvedBy := sr_approvedBy new;
     sr_approvalDecision := sr_approvalDecision new;
     sr_approvalRationale := sr_approvalRationale new; sr_approvedAt := sr_approvedAt new |}.

Definition stage_named (stageRunId : string) (l : list StageRun) : option StageRun :=
  List.find (λ s, bool_decide (sr_id s = stageRunId)) l.

Definition put_stage (new : StageRun) (l : list StageRun) : list StageRun :=
  (λ s, if bool_decide (sr_id s = sr_id new) then new else s) <$> l.

(** One UPDATE of [pipeline_stage_run], no row of which may match. *)
Definition update_stage (runId projectId : string) (item : StageRun) : command unit :=
  lift (check_stage_dates item);;
  d ← read (λ d, d);
  match pipelines d !! runId ≫= λ p, stage_named (sr_id item) (stages p) with
  | None => mret tt
  | Some old =>
      let new := updated_stage old item in
      refuse_if (stage_move_refused old new)
        (SqliteError "invalid pipeline stage status transition");;
      refuse_if (assignment_refused old new)
        (SqliteError "pipeline stage assignment is immutable");;
      refuse_if (approval_refused old new)
        (SqliteError "pipeline stage approval is immutable");;
      refuse_if (match pipelines d !! runId with
                 | Some p => is_working new &&
                     existsb (λ s, negb (bool_decide (sr_id s = sr_id old)) && is_working s)
                       (stages p)
                 | None => false
                 end) (unique_failed "pipeline_stage_run.pipeline_run_id");;
      refuse_if (negb (agent_known projectId (sr_assignedAgentId new) d)) foreign_key;;
      write (set_pipelines (alter (λ p, with_stages p (put_stage new (stages p))) runId))
  end.

Fixpoint update_stages (runId projectId : string) (l : list StageRun) : command unit :=
  match l with
  | [] => mret tt
  | s :: l => update_stage runId projectId s;; update_stages runId projectId l
  end.

Definition save (p : Run) (expectedVersion : Z) : command bool :=
  let value := snapshot p in
  lift (iso (updatedAt value));;
  lift (iso_or_null (completedAt value));;
  lift (iso_or_null (cancelledAt value));;
  d ← read (λ d, d);
  match pipelines d !! id value with
  | Some old =>
      if bool_decide (projectId old = projectId value) && (version old =? expectedVersion)%Z then
        refuse_if (run_update_refuses old (updated_run old value))
          (SqliteError "invalid pipeline run transition");;
        write (set_pipelines <[id value := updated_run old value]>);;
        update_stages (id value) (projectId value) (stages value);;
        mret true
      else mret false
  | None => mret false
  end.

(** * Overrides *)

Definition appendOverride (r : OverrideRecord) : command unit :=
  lift (iso (ov_createdAt r));;
  d ← read (λ d, d);
  refuse_if (includes (ov_id r) (ov_id <$> overrides d)) (unique_failed "pipeline_override.id");;
  refuse_if (negb (match pipelines d !! ov_pipelineRunId r with
                   | Some p => bool_decide (projectId p = ov_projectId r)
                   | None => false
                   end) ||
             negb (existsb (λ e : string * Run, bool_decide (projectId e.2 = ov_projectId r) &&
                     existsb (λ s, bool_decide (sr_id s = ov_stageRunId r)) (stages e.2))
                     (map_to_list (pipelines d)))) foreign_key;;
  write (set_overrides (λ l, l ++ [r])).

(** [ORDER BY created_at, id] *)
Definition compare_overrides (a b : OverrideRecord) : Z :=
  or_else (default 0 (ov_createdAt a) - default 0 (ov_createdAt b))%Z
    (compare_text (ov_id a) (ov_id b)).

Definition listOverrides (runId projectId : string) : command (list OverrideRecord) :=
  read (λ d, sort_by compare_overrides
    (filter (λ r, ov_projectId r = projectId)
      (filter (λ r, ov_pipelineRunId r = runId) (overrides d)))).

(** * What a save may do *)

(** The fields of a stage's row that are set once and for all. *)
Record stage_evolves (old new : StageRun) : Prop := {
  se_identity : (sr_id new, sr_stageId new, sr_stageIndex new, sr_roleId new) =
                (sr_id old, sr_stageId old, sr_stageIndex old, sr_roleId old);
  se_status : rtc (λ a b, b ∈ stage_moves a) (sr_status old) (sr_status new);
  se_assignment : ∀ a, sr_assignedAgentId old = Some a →
    sr_assignedAgentId new = Some a ∧ sr_assignedAt new = sr_assignedAt old;
  se_approval : ∀ a, sr_approvedBy old = Some a →
    sr_approvedBy new = Some a ∧ sr_approvalDecision new = sr_approvalDecision old ∧
    sr_approvalRationale new = sr_approvalRationale old ∧ sr_approvedAt new = sr_approvedAt old
}.

#[global] Instance stage_evolves_refl : Reflexive stage_evolves.
Proof. intros s. by constructor; try constructor. Qed.

#[global] Instance stage_evolves_trans : Transitive stage_evolves.
Proof.
  intros a b c [I1 S1 A1 P1] [I2 S2 A2 P2]. constructor.
  - congruence.
  - by etrans.
  - intros x Hx. destruct (A1 _ Hx) as [Hb ?], (A2 x) as [? ?]; [done|]. split; congruence.
  - intros x Hx. destruct (P1 _ Hx) as (Hb & ? & ? & ?), (P2 x) as (? & ? & ? & ?); [done|].
    split_and!; congruence.
Qed.

(** What a run is about, which no statement of the repository changes. *)
Definition frozen (p : Run) :=
  (id p, projectId p, taskId p, manifestRevisionId p, manifestRevision p, definition p,
   startedBy p, createdAt p, configurationPin p).

Record run_evolves (old new : Run) : Prop := {
  re_frozen : frozen new = frozen old;
  re_version : version new = (version old + 1)%Z;
  re_status : status new = status old ∨ status old = run_active;
  re_updated : date_leb (updatedAt old) (updatedAt new) = true;
  re_stages : Forall2 stage_evolves (stages old) (stages new)
}.

(** * Lemmas *)

Lemma stage_not_refused old new :
  stage_move_refused old (updated_stage old new) = false →
  assignment_refused old (updated_stage old new) = false →
  approval_refused old (updated_stage old new) = false →
  stage_evolves old (updated_stage old new).
Proof.
  unfold stage_move_refused, assignment_refused, approval_refused. intros Hm Ha Hp. constructor.
  - done.
  - apply andb_false_iff in Hm as [Hm|Hm]; apply negb_false_iff in Hm.
    + apply bool_decide_eq_true in Hm. rewrite Hm. done.
    + apply includes_spec in Hm. by apply rtc_once.
  - intros a Hold. rewrite Hold in Ha. simpl in Ha. rewrite andb_true_r in Ha.
    apply orb_false_iff in Ha as [H1%negb_false_iff%bool_decide_eq_true
      H2%negb_false_iff%bool_decide_eq_true]. split; [|done]. simpl. congruence.
  - intros a Hold. rewrite Hold in Hp. simpl in Hp. rewrite andb_true_r in Hp.
    rewrite !orb_false_iff, !negb_false_iff, !bool_decide_eq_true in Hp.
    destruct Hp as [[[H1 H2] H3] H4]. simpl. split_and!; congruence.
Qed.

(** Two databases that differ in the stages of one run only. *)
Definition only_stages (runId : string) (d d' : tables) : Prop :=
  d' = set_pipelines (λ _, pipelines d') d ∧
  ∃ p l, pipelines d !! runId = Some p ∧ pipelines d' = <[runId := with_stages p l]> (pipelines d) ∧
    Forall2 stage_evolves (stages p) l.

Lemma with_stages_same p : with_stages p (stages p) = p.
Proof. by destruct p. Qed.

Lemma only_stages_refl runId d p : pipelines d !! runId = Some p → only_stages runId d d.
Proof.
  intros Hp. split; [by destruct d|]. exists p, (stages p). split_and!; [done| |].
  - by rewrite with_stages_same, insert_id.
  - by apply Reflexive_instance_0.
Qed.

Lemma only_stages_trans runId d d' d'' :
  only_stages runId d d' → only_stages runId d' d'' → only_stages runId d d''.
Proof.
  intros [E1 (p & l & Hp & Hl & He)] [E2 (p' & l' & Hp' & Hl' & He')]. split.
  - rewrite E2, E1. done.
  - rewrite Hl, lookup_insert_eq in Hp'. injection Hp' as <-. exists p, l'. split_and!; [done| |].
    + rewrite Hl', Hl. by rewrite insert_insert_eq.
    + simpl in He'. by etrans.
Qed.

Lemma stage_named_Some i l s :
  stage_named i l = Some s → sr_id s = i ∧ s ∈ l.
Proof.
  intros [Hin Hid%bool_decide_eq_true]%find_some. split; [done|]. by apply list_elem_of_In.
Qed.

(** Stage identifiers are unique in a run. *)
Lemma same_stage l (a b : StageRun) :
  NoDup (sr_id <$> l) → a ∈ l → b ∈ l → sr_id a = sr_id b → a = b.
Proof.
  intros Hnd [i Hi]%list_elem_of_lookup [j Hj]%list_elem_of_lookup Heq.
  assert (i = j) as ->; [|congruence].
  eapply NoDup_lookup; [exact Hnd| |]; rewrite list_lookup_fmap; [by rewrite Hi|].
  rewrite Hj. simpl. by rewrite Heq.
Qed.

Lemma put_stage_evolves old new l :
  NoDup (sr_id <$> l) → old ∈ l → stage_evolves old new → Forall2 stage_evolves l (put_stage new l).
Proof.
  intros Hnd Hin He. apply Forall2_fmap_r, Forall_Forall2_diag, Forall_forall. intros s Hs. simpl.
  pose proof (se_identity _ _ He) as [= Hid _ _ _].
  case_bool_decide as Hc; [|done]. rewrite Hid in Hc. by rewrite (same_stage l s old).
Qed.

Lemma evolves_ids l l' : Forall2 stage_evolves l l' → sr_id <$> l' = sr_id <$> l.
Proof.
  induction 1 as [|x y l l' Hxy _ IH]; [done|]. simpl. f_equal; [|done].
  by pose proof (se_identity _ _ Hxy) as [= -> _ _ _].
Qed.

Lemma alter_known {A} (f : A → A) (m : gmap string A) i x :
  m !! i = Some x → alter f i m = <[i := f x]> m.
Proof.
  intros Hx. apply map_eq. intros j. destruct (decide (i = j)) as [<-|Hne].
  - by rewrite lookup_alter_eq, Hx, lookup_insert_eq.
  - by rewrite lookup_alter_ne, lookup_insert_ne by done.
Qed.

Lemma update_stage_Ok runId projectId item w w' p :
  pipelines (db w) !! runId = Some p → NoDup (sr_id <$> stages p) →
  update_stage runId projectId item w = (Ok tt, w') → only_stages runId (db w) (db w').
Proof.
  intros Hp Hnd Hu. unfold update_stage in Hu. apply lift_bind_Ok in Hu as ([] & _ & Hu).
  rewrite read_bind, Hp in Hu. simpl in Hu.
  destruct (stage_named (sr_id item) (stages p)) as [old|] eqn:Hn;
    [|injection Hu as <-; by eapply only_stages_refl].
  rewrite !refuse_if_bind_Ok in Hu. destruct Hu as (Hm & Ha & Hap & _ & _ & Hu).
  injection Hu as <-. simpl. split; [done|]. simpl.
  apply stage_named_Some in Hn as [_ Hin].
  exists p, (put_stage (updated_stage old item) (stages p)). split_and!; [done| |].
  - by erewrite alter_known.
  - eapply put_stage_evolves; [done..|]. by apply stage_not_refused.
Qed.

Lemma update_stages_Ok runId projectId items w w' p :
  pipelines (db w) !! runId = Some p → NoDup (sr_id <$> stages p) →
  update_stages runId projectId items w = (Ok tt, w') → only_stages runId (db w) (db w').
Proof.
  revert w p. induction items as [|item items IH]; intros w p Hp Hnd Hu.
  - injection Hu as <-. by eapply only_stages_refl.
  - simpl in Hu. apply action_bind_Ok in Hu as ([] & w1 & Hu1 & Hu).
      pose proof (update_stage_Ok _ _ _ _ _ _ Hp Hnd Hu1) as H1. eapply only_stages_trans; [done|].
    destruct H1 as [_ (p' & l & Hp' & Hl & He)]. assert (p' = p) as -> by congruence.
    eapply IH; [by rewrite Hl, lookup_insert_eq| |done]. simpl. by rewrite (evolves_ids _ _ He).
Qed.


(** The row a save swaps against. *)
Definition expected (p : Run) (v : Z) (d : tables) : Prop :=
  ∃ old, pipelines d !! id p = Some old ∧ projectId old = projectId p ∧ version old = v.

Lemma save_false p v w w' : save p v w = (Ok false, w') → w' = w ∧ ¬ expected p v (db w).
Proof.
  unfold save. intros (? & _ & Hs)%lift_bind_Ok.
  apply lift_bind_Ok in Hs as (? & _ & Hs). apply lift_bind_Ok in Hs as (? & _ & Hs).
  rewrite read_bind in Hs. unfold snapshot, expected in *.
  destruct (pipelines (db w) !! id p) as [old|]; [|injection Hs as <-; split; [done|naive_solver]].
  destruct (bool_decide _ && _) eqn:Hc.
  - rewrite refuse_if_bind_Ok in Hs. destruct Hs as [_ Hs].
    apply action_bind_Ok in Hs as ([] & ? & _ & Hs). by apply action_bind_Ok in Hs as ([] & ? & _ & Hs).
  - injection Hs as <-. split; [done|]. intros (old' & [= <-] & Hp & Hv).
    rewrite bool_decide_true in Hc by done. simpl in Hc. lia.
Qed.

Lemma run_not_refused old p :
  run_update_refuses old (updated_run old p) = false →
  version (updated_run old p) = (version old + 1)%Z ∧
  (status (updated_run old p) = status old ∨ status old = run_active) ∧
  date_leb (updatedAt old) (updatedAt p) = true.
Proof.
  unfold run_update_refuses. rewrite !orb_false_iff, andb_false_iff, !negb_false_iff.
  intros [[Hs Hv%Z.eqb_eq] Hd]. split_and!; [done| |done].
  destruct Hs as [Hs%bool_decide_eq_true|Ha]; [by left|right].
  unfold run_is_active in Ha. by destruct (status old).
Qed.

Lemma save_true p v w w' :
  (∀ old, pipelines (db w) !! id p = Some old → NoDup (sr_id <$> stages old)) →
  save p v w = (Ok true, w') →
  ∃ old new, pipelines (db w) !! id p = Some old ∧ projectId old = projectId p ∧
    version old = v ∧ db w' = set_pipelines <[id p := new]> (db w) ∧ run_evolves old new ∧
    (status new, currentStageIndex new, version new, updatedAt new) =
    (status p, currentStageIndex p, version p, updatedAt p).
Proof.
  unfold save. intros Hnd (? & _ & Hs)%lift_bind_Ok.
  apply lift_bind_Ok in Hs as (? & _ & Hs). apply lift_bind_Ok in Hs as (? & _ & Hs).
  rewrite read_bind in Hs. unfold snapshot in *.
  destruct (pipelines (db w) !! id p) as [old|] eqn:Hold; [|done].
  destruct (bool_decide _ && _) eqn:Hc; [|done].
  apply andb_true_iff in Hc as [Hp%bool_decide_eq_true Hv%Z.eqb_eq].
  rewrite refuse_if_bind_Ok in Hs. destruct Hs as [(Hver & Hst & Hd)%run_not_refused Hs].
  rewrite write_bind in Hs. apply action_bind_Ok in Hs as ([] & w1 & Hu & Hs). injection Hs as <-.
  eapply update_stages_Ok in Hu as [E (old' & l & Hl & Hp' & He)];
    [|by simpl; rewrite lookup_insert_eq|exact (Hnd _ eq_refl)].
  simpl in Hl. rewrite lookup_insert_eq in Hl. injection Hl as <-. simpl in *.
  exists old, (with_stages (updated_run old p) l). split_and!; try done.
  rewrite E, Hp'. unfold set_pipelines. simpl. by rewrite insert_insert_eq.
Qed.

(** ** The transitions of the aggregate pass the triggers *)

(** A stage's new row that no trigger refuses. *)
Record stage_step (x y : StageRun) : Prop := {
  ss_identity : updated_stage x y = y;
  ss_move : stage_move_refused x y = false;
  ss_assignment : assignment_refused x y = false;
  ss_approval : approval_refused x y = false;
  ss_dates : check_stage_dates y = Ok tt
}.

Lemma check_stage_dates_Ok s :
  check_stage_dates s = Ok tt ↔
  sr_assignedAt s ≠ Some None ∧ sr_completedAt s ≠ Some None ∧ sr_approvedAt s ≠ Some None.
Proof.
  unfold check_stage_dates, iso_or_null, iso.
  destruct (sr_assignedAt s) as [[]|], (sr_completedAt s) as [[]|], (sr_approvedAt s) as [[]|];
    simpl; naive_solver.
Qed.

Lemma bool_decide_refl {A} `{EqDecision A} (a : A) : bool_decide (a = a) = true.
Proof. by apply bool_decide_true. Qed.

(** Only the status changes, along the table. *)
Lemma stage_step_status x v :
  v = sr_status x ∨ v ∈ stage_moves (sr_status x) → check_stage_dates x = Ok tt →
  stage_step x (with_stage_status x v).
Proof.
  intros Hv Hd. constructor; [by destruct x| | | |done];
    unfold stage_move_refused, assignment_refused, approval_refused; simpl;
    rewrite ?bool_decide_refl; try done.
  destruct Hv as [->|Hv]; [by rewrite bool_decide_refl|].
  apply andb_false_intro2. by rewrite (proj2 (includes_spec _ _) Hv).
Qed.

Lemma stage_step_refl x : check_stage_dates x = Ok tt → stage_step x x.
Proof.
  intros Hd. replace x with (with_stage_status x (sr_status x)) at 2 by by destruct x.
  apply stage_step_status; auto.
Qed.

Lemma stage_step_assign x a z :
  sr_status x = stage_active → sr_assignedAgentId x = None → check_stage_dates x = Ok tt →
  stage_step x (with_assignment x a (Some z)).
Proof.
  intros Hs Ha Hd. constructor; [by destruct x| | | |].
  - unfold stage_move_refused. simpl. by rewrite bool_decide_refl.
  - unfold assignment_refused. by rewrite Ha, Hs.
  - unfold approval_refused. simpl. by rewrite !bool_decide_refl.
  - apply check_stage_dates_Ok in Hd. apply check_stage_dates_Ok. simpl. naive_solver.
Qed.

Lemma stage_step_complete x z :
  is_working x = true → check_stage_dates x = Ok tt →
  stage_step x (with_completion x (Some z)).
Proof.
  intros Hs Hd. constructor; [by destruct x| | | |].
  - unfold stage_move_refused, is_working in *. simpl. by destruct (sr_status x).
  - unfold assignment_refused. simpl. by rewrite !bool_decide_refl.
  - unfold approval_refused. simpl. by rewrite !bool_decide_refl.
  - apply check_stage_dates_Ok in Hd. apply check_stage_dates_Ok. simpl. naive_solver.
Qed.

(** A decision about a stage that awaits it. *)
Lemma stage_step_decide x y v actor dec text z :
  y = with_decision x v actor dec text (Some z) ∨
  y = with_completion (with_decision x v actor dec text (Some z)) (Some z) →
  sr_status x = stage_awaiting_approval → sr_approvedBy x = None →
  includes (sr_status y) (stage_moves stage_awaiting_approval) = true →
  check_stage_dates x = Ok tt → stage_step x y.
Proof.
  intros Hy Hs Ha Hv Hd. constructor.
  - by destruct x, Hy as [->| ->].
  - unfold stage_move_refused. rewrite Hs, Hv. by rewrite andb_false_r.
  - unfold assignment_refused. destruct Hy as [->| ->]; simpl; by rewrite !bool_decide_refl.
  - unfold approval_refused. rewrite Ha, Hs. by destruct Hy as [->| ->].
  - apply check_stage_dates_Ok in Hd. apply check_stage_dates_Ok.
    destruct Hy as [->| ->]; simpl; naive_solver.
Qed.

Lemma at_current_working p s d : wf p → at_current p s d → is_working s = true.
Proof.
  intros Hwf [Ha Hs _ _]. destruct (wf_stage _ Hwf _ _ Hs) as (_ & Hpos & _).
  unfold position_ok in Hpos. rewrite Ha in Hpos. destruct Hpos as (_ & Hcur & _).
  unfold is_working. by destruct (Hcur eq_refl) as [->| ->].
Qed.

(** A stage after the current one is pending. *)
Lemma later_pending p i x :
  wf p → status p = run_active → currentStageIndex p < i → stages p !! i = Some x →
  sr_status x = stage_pending.
Proof.
  intros Hwf Ha Hi Hx. destruct (wf_stage _ Hwf _ _ Hx) as (_ & Hpos & _).
  unfold position_ok in Hpos. rewrite Ha in Hpos. by apply Hpos.
Qed.

Lemma stage_step_finished p s s' d now i x y :
  wf p → at_current p s d → (check_stage_dates s = Ok tt → stage_step s s') →
  stages p !! i = Some x → stages (finished p s' now) !! i = Some y →
  check_stage_dates x = Ok tt → stage_step x y.
Proof.
  intros Hwf Hat Hss Hx Hy Hd. destruct Hat as [Ha Hs _ _].
  apply finished_lookup in Hy as [[-> ->]|(x' & Hx' & [->|[-> ->]])].
  - assert (x = s) as -> by congruence. auto.
  - assert (x' = x) as -> by congruence. by apply stage_step_refl.
  - assert (x' = x) as -> by congruence. apply stage_step_status; [|done].
    right. rewrite (later_pending _ _ _ Hwf Ha (Nat.lt_succ_diag_r _) Hx). by apply includes_spec.
Qed.

Lemma stage_step_closed x still :
  (∀ v, still v = true → stage_cancelled ∈ stage_moves v) → check_stage_dates x = Ok tt →
  stage_step x (if still (sr_status x) then with_stage_status x stage_cancelled else x).
Proof.
  intros Hst Hd. destruct (still (sr_status x)) eqn:Hs; [|by apply stage_step_refl].
  apply stage_step_status; auto.
Qed.

Lemma transition_stage_step p z c p' i x y :
  wf p → transition p (Some z) c p' → stages p !! i = Some x → stages p' !! i = Some y →
  check_stage_dates x = Ok tt → stage_step x y.
Proof.
  intros Hwf Ht Hx Hy Hd.
  inversion Ht as [s d a Hat Hs Hn|s d a Hat Hs|s d a Hat Hs|s d a r Hat Hs
    |s d a r Hat Hs|s d o a r Hat|a Ha]; subst.
  - apply touched_lookup in Hy as [[-> ->]|Hy].
    + assert (x = s) as -> by (pose proof (ac_stage _ _ _ Hat); congruence).
      by apply stage_step_assign.
    + assert (y = x) as -> by congruence. by apply stage_step_refl.
  - apply touched_lookup in Hy as [[-> ->]|Hy].
    + assert (x = s) as -> by (pose proof (ac_stage _ _ _ Hat); congruence).
      apply stage_step_status; [|done]. right. rewrite Hs. by apply includes_spec.
    + assert (y = x) as -> by congruence. by apply stage_step_refl.
  - eapply stage_step_finished; [done..| |done|done|done].
    intros. apply stage_step_complete; [by eapply at_current_working|done].
  - eapply stage_step_finished; [done..| |done|done|done]. intros Hds.
    destruct (stage_inv_at _ _ _ Hwf Hat) as [_ _ _ _ Hu _].
    eapply stage_step_decide; [by right|done| |done|done]. by apply Hu; rewrite Hs.
  - simpl in Hy. apply list_lookup_fmap_Some in Hy as (x' & -> & Hx').
    rewrite list_lookup_insert_Some in Hx'. destruct Hx' as [(<- & <- & _)|[_ Hx']].
    + assert (x = s) as -> by (pose proof (ac_stage _ _ _ Hat); congruence).
      destruct (stage_inv_at _ _ _ Hwf Hat) as [_ _ _ _ Hu _].
      eapply stage_step_decide; [by left|done| |done|done]. by apply Hu; rewrite Hs.
    + assert (x' = x) as -> by congruence. apply stage_step_closed; [|done].
      intros []; try done. intros _. by apply includes_spec.
  - eapply stage_step_finished; [done..| |done|done|done].
    intros. apply stage_step_complete; [by eapply at_current_working|done].
  - simpl in Hy. apply list_lookup_fmap_Some in Hy as (x' & -> & Hx').
    assert (x' = x) as -> by congruence. apply stage_step_closed; [|done].
    intros []; try done; intros _; by apply includes_spec.
Qed.

(** ** The statements of a save, one stage after the other *)

(** The partial unique index [pipeline_stage_run_one_active_idx]. *)
Definition one_working (l : list StageRun) : Prop :=
  ∀ i j a b, l !! i = Some a → l !! j = Some b → is_working a = true → is_working b = true → i = j.

Lemma stage_named_known l s :
  NoDup (sr_id <$> l) → s ∈ l → stage_named (sr_id s) l = Some s.
Proof.
  intros Hnd Hin. unfold stage_named. destruct (List.find _ l) as [t|] eqn:Hf.
  - apply stage_named_Some in Hf as [Hid Ht]. f_equal. by eapply same_stage.
  - apply list_elem_of_In in Hin. pose proof (find_none _ _ Hf s Hin) as Hx.
    simpl in Hx. by rewrite bool_decide_refl in Hx.
Qed.

Lemma put_stage_app pre o os n :
  NoDup (sr_id <$> pre ++ o :: os) → sr_id n = sr_id o →
  put_stage n (pre ++ o :: os) = pre ++ n :: os.
Proof.
  intros Hnd Hid. unfold put_stage. rewrite fmap_app. simpl. rewrite bool_decide_true by done.
  rewrite fmap_app in Hnd. apply NoDup_app in Hnd as (_ & Hpre & Hos). simpl in *.
  apply NoDup_cons in Hos as [Hos _]. f_equal; [|f_equal].
  - rewrite <- (list_fmap_id pre) at 2. apply list_fmap_ext. intros i s Hs. simpl.
    rewrite bool_decide_false; [done|]. intros He. apply (Hpre (sr_id o)); [|by left].
    apply list_elem_of_fmap. exists s. split; [congruence|by eapply list_elem_of_lookup_2].
  - rewrite <- (list_fmap_id os) at 2. apply list_fmap_ext. intros i s Hs. simpl.
    rewrite bool_decide_false; [done|]. intros He. apply Hos.
    apply list_elem_of_fmap. exists s. split; [congruence|by eapply list_elem_of_lookup_2].
Qed.

Lemma one_working_index l n :
  one_working (put_stage n l) → n ∈ put_stage n l → is_working n = true →
  existsb (λ s, negb (bool_decide (sr_id s = sr_id n)) && is_working s) l = false.
Proof.
  intros Hone [i Hi]%list_elem_of_lookup Hn. apply not_true_is_false.
  intros (s & Hs & [Hid Hw]%andb_true_iff)%existsb_exists.
  apply list_elem_of_In, list_elem_of_lookup in Hs as [j Hj].
  assert (put_stage n l !! j = Some s) as Hj'.
  { unfold put_stage. rewrite list_lookup_fmap, Hj. simpl. by destruct (bool_decide _). }
  assert (i = j) as -> by by eapply Hone. rewrite Hi in Hj'. injection Hj' as <-.
  by rewrite bool_decide_refl in Hid.
Qed.

Lemma update_stage_run runId projectId w p pre o os n :
  pipelines (db w) !! runId = Some p → stages p = pre ++ o :: os →
  NoDup (sr_id <$> stages p) → stage_step o n → one_working (pre ++ n :: os) →
  agent_known projectId (sr_assignedAgentId n) (db w) = true →
  update_stage runId projectId n w =
    (Ok tt, with_tables w (set_pipelines <[runId := with_stages p (pre ++ n :: os)]> (db w))).
Proof.
  intros Hp Hl Hnd [Hu Hm Ha Hap Hd] Hone Hag.
  assert (sr_id n = sr_id o) as Hid by by rewrite <- Hu.
  assert (stage_named (sr_id n) (stages p) = Some o) as Hn.
  { rewrite Hid. apply stage_named_known; [done|]. rewrite Hl. set_solver. }
  rewrite Hl in Hnd. pose proof (put_stage_app _ _ _ _ Hnd Hid) as Hput.
  unfold update_stage. rewrite Hd. unfold lift at 1. unfold mbind at 1, action_bind at 1.
  rewrite read_bind.
  assert ((pipelines (db w) !! runId ≫= λ p, stage_named (sr_id n) (stages p)) = Some o) as ->
    by by rewrite Hp.
  rewrite Hu, Hm, Ha, Hap, Hag, Hp. simpl negb.
  assert (is_working n && existsb (λ s, negb (bool_decide (sr_id s = sr_id o)) && is_working s)
            (stages p) = false) as ->.
  { destruct (is_working n) eqn:Hw; [simpl|done]. rewrite <- Hid. apply one_working_index; [| |done].
    - by rewrite Hl, Hput.
    - rewrite Hl, Hput. set_solver. }
  unfold refuse_if, throw_if, lift, mbind, action_bind, write.
  unfold set_pipelines. simpl. erewrite alter_known by exact Hp. by rewrite Hl, Hput.
Qed.

Lemma update_stages_run runId projectId w p pre os ns :
  pipelines (db w) !! runId = Some p → stages p = pre ++ os →
  NoDup (sr_id <$> stages p) → Forall2 stage_step os ns →
  (∀ k, one_working (pre ++ take k ns ++ drop k os)) →
  Forall (λ n, agent_known projectId (sr_assignedAgentId n) (db w) = true) ns →
  update_stages runId projectId ns w =
    (Ok tt, with_tables w (set_pipelines <[runId := with_stages p (pre ++ ns)]> (db w))).
Proof.
  intros Hp Hl Hnd HF. revert w p pre Hp Hl Hnd.
  induction HF as [|o n os ns Hss HF IH]; intros w p pre Hp Hl Hnd Hone Hag.
  - rewrite app_nil_r in *. simpl. rewrite <- Hl, with_stages_same. unfold mret, action_ret.
    f_equal. destruct w as [[] ? ? ?]. unfold with_tables, set_pipelines. simpl in *.
    by rewrite insert_id.
  - simpl. apply Forall_cons in Hag as [Hag1 Hag].
    assert (sr_id n = sr_id o) as Hid by (destruct Hss as [Hu _ _ _ _]; by rewrite <- Hu).
    assert (one_working (pre ++ n :: os)) as Hone1 by exact (Hone 1).
    unfold mbind at 1, action_bind at 1.
    rewrite (update_stage_run _ _ _ _ _ _ _ _ Hp Hl Hnd Hss Hone1 Hag1).
    rewrite (IH _ (with_stages p (pre ++ n :: os)) (pre ++ [n])).
    + unfold with_tables, set_pipelines. simpl. rewrite insert_insert_eq. by rewrite <- app_assoc.
    + simpl. by rewrite lookup_insert_eq.
    + simpl. by rewrite <- app_assoc.
    + simpl. rewrite fmap_app. simpl. rewrite Hid. by rewrite Hl, fmap_app in Hnd.
    + intros k. rewrite <- app_assoc. exact (Hone (S k)).
    + done.
Qed.

Lemma mixed_lookup {A} k (l l' : list A) i a :
  length l' = length l → (take k l' ++ drop k l) !! i = Some a →
  (i < k ∧ l' !! i = Some a) ∨ (k ≤ i ∧ l !! i = Some a).
Proof.
  intros Hlen. rewrite lookup_app_Some, length_take, lookup_take_Some, lookup_drop.
  intros [[Ha Hi]|[Hi Ha]]; [by left|].
  pose proof (lookup_lt_Some _ _ _ Ha). right. destruct (decide (k ≤ length l')) as [Hk|Hk].
  - split; [lia|]. by replace (k + (i - k `min` length l')) with i in Ha by lia.
  - lia.
Qed.

Lemma working_current p i s :
  wf p → stages p !! i = Some s → is_working s = true → i = currentStageIndex p.
Proof.
  intros Hwf Hs Hw. destruct (wf_stage _ Hwf _ _ Hs) as (_ & Hpos & _). unfold is_working in Hw.
  unfold position_ok in Hpos. destruct (status p).
  - destruct Hpos as (H1 & _ & H3). destruct (Nat.lt_trichotomy i (currentStageIndex p)) as [H|[H|H]].
    + by rewrite H1 in Hw.
    + done.
    + by rewrite H3 in Hw.
  - by rewrite Hpos in Hw.
  - destruct Hpos as (H1 & H3). destruct (decide (i < currentStageIndex p)) as [H|H].
    + by rewrite H1 in Hw.
    + by rewrite H3 in Hw by lia.
Qed.

(** A run moves from one stage to the next with at most one stage at work. *)
Lemma transition_one_working p now c p' k :
  wf p → wf p' → transition p now c p' →
  one_working (take k (stages p') ++ drop k (stages p)).
Proof.
  intros Hwf Hwf' Ht i j a b Ha Hb Hwa Hwb.
  destruct (transition_frame _ _ _ _ Ht) as (_ & _ & _ & Hlen & Hcur & _).
  apply mixed_lookup in Ha as [[Hi Ha]|[Hi Ha]], Hb as [[Hj Hb]|[Hj Hb]]; try done.
  - rewrite (working_current _ _ _ Hwf' Ha Hwa). by rewrite (working_current _ _ _ Hwf' Hb Hwb).
  - pose proof (working_current _ _ _ Hwf' Ha Hwa). pose proof (working_current _ _ _ Hwf Hb Hwb). lia.
  - pose proof (working_current _ _ _ Hwf Ha Hwa). pose proof (working_current _ _ _ Hwf' Hb Hwb). lia.
  - rewrite (working_current _ _ _ Hwf Ha Hwa). by rewrite (working_current _ _ _ Hwf Hb Hwb).
Qed.

Lemma transition_times p now c p' :
  transition p now c p' →
  (completedAt p' = completedAt p ∨ completedAt p' = Some now) ∧
  (cancelledAt p' = cancelledAt p ∨ cancelledAt p' = Some now).
Proof.
  inversion 1; subst; unfold touched, closed, finished; try case_match; simpl; auto.
Qed.

Lemma transition_updated p now c p' :
  transition p now c p' → with_stages (updated_run p p') (stages p') = p'.
Proof.
  intros Ht. destruct (transition_frame _ _ _ _ Ht) as (_ & _ & _ & _ & _ & Hf).
  injection Hf as ? ? ? ? ? ? ? ? ?. destruct p'. unfold updated_run, with_stages. simpl in *.
  by subst.
Qed.

(** A row whose times are valid and whose stages have identifiers of their
    own, as every row the repository wrote. *)
Record row_ok (p : Run) : Prop := {
  ro_wf : wf p;
  ro_ids : NoDup (sr_id <$> stages p);
  ro_stage_dates : Forall (λ s, check_stage_dates s = Ok tt) (stages p);
  ro_created : valid_date (createdAt p) = true;
  ro_updated : valid_date (updatedAt p) = true;
  ro_completed : completedAt p ≠ Some None;
  ro_cancelled : cancelledAt p ≠ Some None
}.

Lemma iso_or_null_valid d : d ≠ Some None → ∃ z, iso_or_null d = Ok z.
Proof. destruct d as [[z|]|]; [by eexists|done|by eexists]. Qed.

Lemma transition_stage_steps p z c p' :
  row_ok p → transition p (Some z) c p' → Forall2 stage_step (stages p) (stages p').
Proof.
  intros [Hwf _ Hd _ _ _ _] Ht. apply Forall2_same_length_lookup_2.
  - by destruct (transition_frame _ _ _ _ Ht) as (_ & _ & _ & -> & _).
  - intros i x y Hx Hy. eapply transition_stage_step; [done..|].
    by apply (Forall_lookup_1 _ _ _ _ Hd Hx).
Qed.

Lemma transition_row_ok p z c p' :
  row_ok p → transition p (Some z) c p' → row_ok p'.
Proof.
  intros Hok Ht. pose proof (transition_stage_steps _ _ _ _ Hok Ht) as Hs.
  destruct Hok as [Hwf Hids Hd Hc Hu Hco Hca].
  destruct (transition_times _ _ _ _ Ht) as [Hco' Hca'].
  destruct (transition_frame _ _ _ _ Ht) as (_ & _ & Hu' & _ & _ & Hf).
  injection Hf as ? ? ? ? ? ? ? Hcr ?. constructor.
  - by eapply transition_wf.
  - replace (sr_id <$> stages p') with (sr_id <$> stages p); [done|].
    clear -Hs. induction Hs as [|x y l l' [Hy _ _ _ _] _ IH]; [done|]. simpl. f_equal; [|done].
    by rewrite <- Hy.
  - clear -Hs. induction Hs as [|x y l l' [_ _ _ _ Hy] _ IH]; by constructor.
  - congruence.
  - by rewrite Hu'.
  - destruct Hco' as [->| ->]; done.
  - destruct Hca' as [->| ->]; done.
Qed.

Lemma save_transition p w c z p' :
  row_ok p → pipelines (db w) !! id p = Some p → transition p (Some z) c p' →
  date_leb (updatedAt p) (Some z) = true →
  Forall (λ s, agent_known (projectId p) (sr_assignedAgentId s) (db w) = true) (stages p') →
  save p' (version p) w = (Ok true, with_tables w (set_pipelines <[id p := p']> (db w))).
Proof.
  intros Hok Hp Ht Hd Hag. pose proof (transition_stage_steps _ _ _ _ Hok Ht) as Hs.
  destruct (transition_row_ok _ _ _ _ Hok Ht) as [Hwf' _ _ _ _ Hco' Hca'].
  destruct Hok as [Hwf Hids _ _ _ _ _].
  destruct (transition_frame _ _ _ _ Ht) as (Ha & Hv & Hu & Hlen & _ & Hf).
  pose proof (transition_updated _ _ _ _ Ht) as Hupd. injection Hf as Hid Hpid _ _ _ _ _ _ _.
  unfold save, snapshot. destruct (iso_or_null_valid _ Hco') as (z1 & ->).
  destruct (iso_or_null_valid _ Hca') as (z2 & ->). rewrite Hu. simpl (iso _).
  unfold lift at 1 2 3. unfold mbind at 1 2 3, action_bind at 1 2 3.
  rewrite read_bind, Hid, Hp, Hpid, bool_decide_refl, Z.eqb_refl. simpl (true && true).
  assert (run_update_refuses p (updated_run p p') = false) as ->.
  { unfold run_update_refuses. simpl. rewrite Hv, Z.eqb_refl, Hu, Hd. unfold run_is_active.
    rewrite Ha. by rewrite andb_false_r. }
  unfold refuse_if, throw_if, lift. unfold mbind at 1, action_bind at 1. rewrite write_bind.
  unfold mbind at 1, action_bind at 1.
  rewrite (update_stages_run _ _ _ (updated_run p p') [] (stages p)); try done.
  - unfold mret, action_ret, with_tables, set_pipelines. simpl. rewrite insert_insert_eq.
    by rewrite Hupd.
  - simpl. by rewrite lookup_insert_eq.
  - intros k. simpl. by eapply transition_one_working.
Qed.

(** * Properties *)

(** C34: a save is a compare-and-swap on the version of the row. Against the
    version it expects it takes every transition of the aggregate that is not
    stamped before the last one, so no trigger is in the aggregate's way, and
    stores exactly the new run. Whatever object a caller saves, a save that
    answers [true] moved the row one version on along the row's own rules (what
    the run is about frozen, statuses forward, an assignment and a decision
    made once), and one that answers [false] expected another version or
    project and wrote nothing. *)
Theorem pipeline_save_swaps p w :
  row_ok p → pipelines (db w) !! id p = Some p →
  (∀ c z p', transition p (Some z) c p' → date_leb (updatedAt p) (Some z) = true →
     Forall (λ s, agent_known (projectId p) (sr_assignedAgentId s) (db w) = true) (stages p') →
     save p' (version p) w = (Ok true, with_tables w (set_pipelines <[id p := p']> (db w)))) ∧
  (∀ q v b w', id q = id p → save q v w = (Ok b, w') →
     if b : bool then
       v = version p ∧ projectId q = projectId p ∧
       ∃ new, db w' = set_pipelines <[id p := new]> (db w) ∧ run_evolves p new ∧
              version new = version q ∧ status new = status q
     else w' = w ∧ (v ≠ version p ∨ projectId q ≠ projectId p)).
Proof.
  intros Hok Hp. split; [intros; by eapply save_transition|].
  intros q v b w' Hid Hs. destruct b.
  - apply save_true in Hs as (old & new & Hold & Hpid & Hv & Hdb & He & Hf).
    + rewrite Hid, Hp in Hold. injection Hold as <-. injection Hf as Hst _ Hver _.
      split_and!; [done|done|]. exists new. by rewrite <- Hid.
    + intros old Hold. rewrite Hid, Hp in Hold. injection Hold as <-. by destruct Hok.
  - apply save_false in Hs as [-> Hne]. split; [done|].
    destruct (decide (version p = v)), (decide (projectId p = projectId q)); auto.
    destruct Hne. exists p. by rewrite Hid.
Qed.

(** ** A sample run *)

Definition sample_stored (calls : list (call * date)) : Run :=
  default sample_final (sample_run calls).

Definition sample_agent (agentId : string) : Agent :=
  {| ag_id := agentId; ag_projectId := "p1"; ag_roleId := "dev"; ag_name := agentId;
     ag_enabled := true; ag_createdAt := Some 0%Z; ag_updatedAt := Some 0%Z |}.

Definition sample_world (p : Run) : world :=
  {| db := {| base := {| Store.projects := {["p1"]}; Store.tasks := ∅; Store.dependencies := ∅;
                         Store.history := ∅; Store.requirements := ∅;
                         Store.task_requirements := ∅; Store.audit := [] |};
              roles := ∅; agents := {["a" := sample_agent "a"]}; runs := ∅; run_events := [];
              locks := ∅; pipelines := {[id p := p]}; overrides := []; outbox := [];
              manifests := [] |};
     active := true; ticks := 0; generated := 0 |}.

(** A save against a version that has passed is no save. *)
Example stale_save :
  let p := sample_stored (take 2 sample_calls) in
  (save (sample_stored (take 1 sample_calls)) 1 (sample_world p)).1 = Ok false.
Proof. by vm_compute. Qed.

Lemma pipeline_save_swaps_witness :
  let p := sample_stored [] in
  let p' := sample_stored (take 1 sample_calls) in
  save p' (version p) (sample_world p) =
    (Ok true, with_tables (sample_world p) (set_pipelines <[id p := p']> (db (sample_world p)))).
Proof.
  intros p p'.
  assert (reachable (λ _, True) p) as Hr by by apply (sample_run_reachable _ []).
  assert (row_ok p) as Hok.
  { constructor; [by eapply reachable_wf|..]; try by vm_compute.
    - by apply (bool_decide_unpack (NoDup _)); vm_compute.
    - by apply (bool_decide_unpack (Forall _ _)); vm_compute. }
  destruct (pipeline_save_swaps p (sample_world p) Hok eq_refl) as [Hsave _].
  apply (Hsave (CAssign "a" "dev") 2%Z).
  - eapply run_call_transition; [apply Hok|]. by vm_compute.
  - by vm_compute.
  - by apply (bool_decide_unpack (Forall _ _)); vm_compute.
Defined.

End PipelineStore.
