(* ===== verification/RunServices.v ===== *)
(** Scheduling and admitting an agent run.  Models
    [packages/application/src/commands/schedule-agent-run.ts],
    [admit-agent-run.ts] and [runtime/run-policy.ts]: which requests create a
    run, what the run freezes of the moment it was scheduled, and that a run
    just scheduled is admitted. *)
From S2P Require Import Prelude Errors TaskModel DependencyGraph PipelineModel Json AgentModel.
From S2P Require Import RoutingModel Store RunStore OutboxModel TaskServices RunHistory.
Import Canonical Provenance RunModel RunStore.

Module RunServices.

(** [taskRunLeaseDurationMs] *)
Definition taskRunLeaseDurationMs : Z := 30 * 60000.

(** The optional collaborators of [ScheduleAgentRun]; the routing is the
    host's. *)
Record Composition := {
  guarded : bool;
  with_pipelines : bool;
  with_outbox : bool;
  modelRouting : Routing.ModelRoutingState
}.

Record schedule_input := {
  si_projectId : string;
  si_taskId : string;
  si_agentId : string;
  si_actionIntent : option (AgentRun.AgentActionIntent js)
}.

Section services.
  Context `{ShowNumber} `{Store.Environment}.

(** * ScheduleAgentRun *)

Definition check_prerequisites (guard : bool) (projectId taskId : string) : command unit :=
  if guard then
    on_base (TaskServices.assertTaskPrerequisitesComplete projectId taskId Dependency.at_start)
  else mret tt.

(** [agent === null || agent.projectId !== input.projectId || !agent.enabled] *)
Definition require_agent (projectId agentId : string) : command Agent :=
  agent ← findAgent agentId;
  match agent with
  | Some a =>
      if bool_decide (ag_projectId a = projectId) && ag_enabled a then mret a
      else mthrow (AgentNotFoundError agentId)
  | None => mthrow (AgentNotFoundError agentId)
  end.

(** The run of the task that is neither completed, failed nor cancelled. *)
Definition occupies (taskId : string) (v : AgentRun.Props) : bool :=
  bool_decide (AgentRun.taskId v = taskId) && negb (AgentRun.is_terminal (AgentRun.status v)).

(** The active pipeline of the task and its current stage, which has to be
    active and assigned to the agent. *)
Definition active_stage (withPipelines : bool) (projectId taskId agentId : string)
    : command (option (PipelineRun.Run * PipelineRun.StageRun)) :=
  pipeline ← (if withPipelines then findActiveByTask taskId projectId else mret None);
  match pipeline with
  | None => mret None
  | Some p =>
      let refused := AgentNotFoundError
        (agentId +:+ " is not assigned to the active pipeline stage") in
      stage ← current_stage p;
      match stage with
      | Some s =>
          if stage_is_active s &&
             bool_decide (PipelineRun.sr_assignedAgentId s = Some agentId)
          then mret (Some (p, s)) else mthrow refused
      | None => mthrow refused
      end
  end.

Definition guidance_of (role : Role.RoleProps) : option AgentRun.AgentRunRoleGuidance :=
  match Role.guidanceText role with
  | Some t =>
      if bool_decide (trim t = "") then None
      else Some {| AgentRun.guidance_text := t;
                   AgentRun.guidance_version := default (Role.version role)
                                                  (Role.guidanceVersion role) |}
  | None => None
  end.

Definition run_payload (p : AgentRun.Props) : list (string * cjson) :=
  [("projectId", CStr (AgentRun.projectId p)); ("runId", CStr (AgentRun.id p))] ++
  match AgentRun.pipelineStageRunId p with
  | Some s => [("pipelineStageRunId", CStr s)]
  | None => []
  end.

Definition run_intent (p : AgentRun.Props) (at_ : date) : Outbox.append_input :=
  {| Outbox.oi_id := "outbox:agent-run:" +:+ AgentRun.id p;
     Outbox.oi_projectId := AgentRun.projectId p; Outbox.oi_jobType := execute_agent_run;
     Outbox.oi_aggregateType := agg_agent_run; Outbox.oi_aggregateId := AgentRun.id p;
     Outbox.oi_pipelineStageRunId := AgentRun.pipelineStageRunId p;
     Outbox.oi_dedupeKey := "agent-run:" +:+ AgentRun.id p; Outbox.oi_payload := run_payload p;
     Outbox.oi_availableAt := at_; Outbox.oi_createdAt := at_ |}.

(** The checks before the transaction. *)
Definition schedule_checks (c : Composition) (input : schedule_input) : command unit :=
  known ← on_base (Store.find_project (si_projectId input));
  refuse_if (negb known) (ProjectNotFoundError (si_projectId input));;
  found ← on_base (Store.find_task (si_taskId input));
  task ← (match found with
          | Some t => if bool_decide (Task.projectId t = si_projectId input) then mret t
                      else mthrow (TaskNotFoundError (si_taskId input))
          | None => mthrow (TaskNotFoundError (si_taskId input))
          end);
  refuse_if (negb (Task.isTaskRunnable (Task.status task))) TaskNotRunnableError;;
  check_prerequisites (guarded c) (si_projectId input) (si_taskId input);;
  existing ← listRuns (si_projectId input);
  refuse_if (existsb (occupies (si_taskId input)) existing)
    (TaskLockActiveError (si_taskId input));;
  require_agent (si_projectId input) (si_agentId input);;
  mret tt.

(** The run as the transaction creates it, from what it reads. *)
Definition new_run (c : Composition) (input : schedule_input) (id : string) (at_ : date)
    (agent : Agent) (role : Role.RoleProps)
    (stage : option (PipelineRun.Run * PipelineRun.StageRun)) : outcome AgentRun.Props :=
  routing ← Routing.resolveAgentRunModel (modelRouting c)
    {| Routing.s_projectId := si_projectId input; Routing.s_agentName := ag_name agent;
       Routing.s_modelPolicy := Role.modelPolicy role |};
  AgentRun.create
    {| AgentRun.in_id := id; AgentRun.in_projectId := si_projectId input;
       AgentRun.in_taskId := si_taskId input; AgentRun.in_agentId := si_agentId input;
       AgentRun.in_pipelineRunId := PipelineRun.id ∘ fst <$> stage;
       AgentRun.in_pipelineStageRunId := PipelineRun.sr_id ∘ snd <$> stage;
       AgentRun.in_actionIntent := si_actionIntent input;
       AgentRun.in_roleGuidance := guidance_of role;
       AgentRun.in_modelRouting := Some routing; AgentRun.in_now := at_ |}.

(** The body of the transaction. *)
Definition schedule_body (c : Composition) (input : schedule_input) (id : string) (at_ : date)
    : command unit :=
  check_prerequisites (guarded c) (si_projectId input) (si_taskId input);;
  agent ← require_agent (si_projectId input) (si_agentId input);
  found ← findRole (ag_roleId agent) (si_projectId input);
  role ← (match found with
          | Some r => mret r
          | None => mthrow (AgentNotFoundError (si_agentId input))
          end);
  stage ← active_stage (with_pipelines c) (si_projectId input) (si_taskId input)
            (si_agentId input);
  created ← lift (new_run c input id at_ agent role stage);
  run ← saveRun created;
  locked ← acquireTaskLock (si_taskId input) (AgentRun.id run) at_
             ((λ z, z + taskRunLeaseDurationMs)%Z <$> at_);
  refuse_if (negb locked) (TaskLockActiveError (si_taskId input));;
  if with_outbox c then Outbox.append (run_intent run at_);; mret tt else mret tt.

Definition schedule (c : Composition) (input : schedule_input) : command string :=
  schedule_checks c input;;
  at_ ← now;
  id ← generate;
  RunStore.run (schedule_body c input id at_);;
  mret id.

(** * AdmitAgentRun *)

(** [catch (error) { if (!(error instanceof TaskPrerequisiteIncompleteError)) throw }] *)
Definition prerequisites_complete (guard : bool) (projectId taskId : string) : command bool :=
  λ w, match check_prerequisites guard projectId taskId w with
       | (Ok _, w') => (Ok true, w')
       | (Throw (TaskPrerequisiteIncompleteError _ _ _), w') => (Ok false, w')
       | (Throw e, w') => (Throw e, w')
       end.

(** [(pipeline?.snapshot().id ?? undefined) === r.pipelineRunId], and the
    stage the run is bound to. *)
Definition same_binding (r : AgentRun.Props) (pipeline : option PipelineRun.Run)
    (stage : option PipelineRun.StageRun) : bool :=
  bool_decide (PipelineRun.id <$> pipeline = AgentRun.pipelineRunId r) &&
  bool_decide (PipelineRun.sr_id <$> stage = AgentRun.pipelineStageRunId r).

Definition stage_serves (r : AgentRun.Props) (role : Role.RoleProps)
    (pipeline : option PipelineRun.Run) (stage : option PipelineRun.StageRun) : bool :=
  match pipeline with
  | None => true
  | Some _ =>
      match stage with
      | Some s =>
          stage_is_active s && bool_decide (PipelineRun.sr_assignedAgentId s = Some (AgentRun.agentId r)) &&
          bool_decide (Role.key role = PipelineRun.sr_roleId s)
      | None => false
      end
  end.

(** The authority the run is to be admitted with, when it is eligible. *)
Definition observed_authority (r : AgentRun.Props) (complete : bool)
    (task : option Task.TaskProps) (agent : option Agent) (role : option Role.RoleProps)
    (pipeline : option PipelineRun.Run) (stage : option PipelineRun.StageRun)
    : option RunAuthority :=
  match task, agent, role with
  | Some t, Some a, Some ro =>
      if bool_decide (Task.projectId t = AgentRun.projectId r) &&
         Task.isTaskRunnable (Task.status t) && complete &&
         bool_decide (ag_projectId a = AgentRun.projectId r) && ag_enabled a &&
         bool_decide (Role.projectId ro = AgentRun.projectId r) &&
         same_binding r pipeline stage && stage_serves r ro pipeline stage
      then Some
        {| au_taskStatus := Task.status t; au_taskUpdatedAt := Task.updatedAt t;
           au_agentRoleId := ag_roleId a; au_agentUpdatedAt := ag_updatedAt a;
           au_roleId := Role.id ro; au_roleKey := Role.key ro; au_roleVersion := Role.version ro;
           au_roleLimits := Role.limits ro; au_roleUpdatedAt := Role.updatedAt ro;
           au_pipelineId := PipelineRun.id <$> pipeline;
           au_pipelineStageRunId := PipelineRun.sr_id <$> stage;
           au_pipelineVersion := PipelineRun.version <$> pipeline |}
      else None
  | _, _, _ => None
  end.

Definition observe (guard : bool) (r : AgentRun.Props) : command (option RunAuthority) :=
  task ← on_base (Store.find_task (AgentRun.taskId r));
  agent ← findAgent (AgentRun.agentId r);
  pipeline ← findActiveByTask (AgentRun.taskId r) (AgentRun.projectId r);
  stage ← (match pipeline with Some p => current_stage p | None => mret None end);
  role ← (match agent with
          | Some a => findRole (ag_roleId a) (AgentRun.projectId r)
          | None => mret None
          end);
  complete ← prerequisites_complete guard (AgentRun.projectId r) (AgentRun.taskId r);
  mret (observed_authority r complete task agent role pipeline stage).

(** [execute]; the refusal names no owner. *)
Definition admit_run (guard : bool) (ownerId : option string) (run : AgentRun.Props)
    : command (option AgentRun.Props) :=
  let r := AgentRun.snapshot run in
  authority ← observe guard r;
  at_ ← now;
  admitQueuedRun
    {| ra_runId := AgentRun.id r;
       ra_ownerId := match authority with Some _ => ownerId | None => None end;
       ra_now := at_; ra_authority := authority |}.

(** * Lemmas *)

Lemma commit_Ok {A} (m : command A) w a w' :
  RunStore.run m w = (Ok a, w') →
  active w = false ∧ ∃ w1, m {| db := db w; active := true; ticks := ticks w;
                                generated := generated w |} = (Ok a, w1) ∧ db w' = db w1.
Proof.
  unfold RunStore.run. destruct (active w); [done|]. destruct (m _) as [[b|e] w1]; [|done].
  intros [= -> <-]. eauto.
Qed.

Lemma run_Throw {A} (m : command A) w e w' : RunStore.run m w = (Throw e, w') → db w' = db w.
Proof.
  unfold RunStore.run. destruct (active w); [by intros [= _ <-]|].
  destruct (m _) as [[b|e'] w1]; [done|]. by intros [= _ <-].
Qed.

(** A command that leaves the tables alone. *)
Definition keeps {A} (m : command A) : Prop := ∀ w, db (m w).2 = db w.

Lemma keeps_bind {A B} (m : command A) (k : A → command B) :
  keeps m → (∀ a, keeps (k a)) → keeps (m ≫= k).
Proof.
  intros Hm Hk w. unfold mbind, action_bind. specialize (Hm w).
  destruct (m w) as [[a|e] w1]; simpl in *; [by rewrite (Hk a w1)|done].
Qed.

Lemma keeps_read {A} (f : tables → A) : keeps (read f).
Proof. done. Qed.

Lemma keeps_readonly {A} (m : command A) : readonly m → keeps m.
Proof. intros Hm w. by rewrite (Hm w). Qed.

Lemma keeps_on_base {A} (m : Store.command A) : Store.db_readonly m → keeps (on_base m).
Proof.
  intros Hm w. unfold on_base. specialize (Hm (store_world w)).
  destruct (m (store_world w)) as [r s]. simpl in *. rewrite Hm. by destruct (db w).
Qed.

Lemma keeps_now : keeps now.
Proof. done. Qed.

Lemma keeps_generate : keeps generate.
Proof. done. Qed.

Lemma keeps_Ok {A} (m : command A) w a w' : keeps m → m w = (Ok a, w') → db w' = db w.
Proof. intros Hm Hw. specialize (Hm w). by rewrite Hw in Hm. Qed.

Lemma prerequisites_readonly projectId taskId r :
  Store.db_readonly (TaskServices.assertTaskPrerequisitesComplete projectId taskId r).
Proof.
  unfold TaskServices.assertTaskPrerequisitesComplete, Store.list_tasks, Store.list_dependencies.
  auto 10 with ts.
Qed.

Lemma keeps_check guard projectId taskId : keeps (check_prerequisites guard projectId taskId).
Proof.
  unfold check_prerequisites. destruct guard; [|by apply keeps_readonly; auto with ts].
  apply keeps_on_base, prerequisites_readonly.
Qed.

Lemma keeps_require_agent projectId agentId : keeps (require_agent projectId agentId).
Proof.
  apply keeps_bind; [apply keeps_read|]. intros [a|]; [|done]. by case_match.
Qed.

Lemma keeps_findRole id projectId : keeps (findRole id projectId).
Proof.
  apply keeps_bind; [apply keeps_read|]. intros [a|]; [|done]. case_match; [|done].
  apply keeps_bind; [done|]. done.
Qed.

Lemma keeps_active_stage b projectId taskId agentId :
  keeps (active_stage b projectId taskId agentId).
Proof.
  apply keeps_bind; [by destruct b|]. intros [p|]; [|done].
  apply keeps_bind; [done|]. intros [s|]; [|done]. by case_match.
Qed.

Lemma keeps_checks c input : keeps (schedule_checks c input).
Proof.
  unfold schedule_checks. apply keeps_bind; [by apply keeps_on_base|]. intros known.
  apply keeps_bind; [done|]. intros _. apply keeps_bind; [by apply keeps_on_base|]. intros found.
  apply keeps_bind; [destruct found; [by case_match|done]|]. intros task.
  apply keeps_bind; [done|]. intros _. apply keeps_bind; [apply keeps_check|]. intros _.
  apply keeps_bind; [by apply keeps_bind|]. intros existing. apply keeps_bind; [done|]. intros _.
  apply keeps_bind; [apply keeps_require_agent|]. done.
Qed.

(** The check of the prerequisites reads tasks and prerequisites only. *)
Definition same_tasks (d d' : tables) : Prop :=
  Store.tasks (base d) = Store.tasks (base d') ∧
  Store.dependencies (base d) = Store.dependencies (base d').

Lemma check_prerequisites_ext guard projectId taskId w w1 w' :
  check_prerequisites guard projectId taskId w = (Ok tt, w1) → same_tasks (db w) (db w') →
  (check_prerequisites guard projectId taskId w').1 = Ok tt.
Proof.
  unfold check_prerequisites. destruct guard; [|done]. intros Hw [Ht Hd].
  unfold on_base, TaskServices.assertTaskPrerequisitesComplete, Store.list_tasks,
    Store.list_dependencies, Store.project_tasks, Store.project_edges, Store.read, lift, refuse_if,
    mbind, action_bind in *. cbn [store_world Store.db] in *. rewrite <- Ht, <- Hd.
  destruct (Dependency.blockingPrerequisites _ _ _) as [l|e]; [|done].
  by destruct (throw_if _ _) as [[]|e].
Qed.

Lemma check_prerequisites_Ok guard projectId taskId w u w' :
  check_prerequisites guard projectId taskId w = (Ok u, w') → w' = w.
Proof.
  unfold check_prerequisites. destruct guard; [|by intros [= _ <-]].
  unfold on_base, TaskServices.assertTaskPrerequisitesComplete, Store.list_tasks,
    Store.list_dependencies, Store.read, lift, refuse_if, mbind, action_bind.
  cbn [store_world Store.db]. destruct (Dependency.blockingPrerequisites _ _ _) as [l|e]; [|done].
  destruct (throw_if _ _) as [[]|e]; [|done]. intros [= _ <-]. destruct w as [[] ? ? ?]. done.
Qed.

Lemma require_agent_Ok projectId agentId w a w' :
  require_agent projectId agentId w = (Ok a, w') →
  w' = w ∧ agents (db w) !! agentId = Some a ∧ ag_projectId a = projectId ∧ ag_enabled a = true.
Proof.
  unfold require_agent, findAgent. rewrite RunStore.read_bind.
  destruct (agents (db w) !! agentId) as [a'|]; [|done].
  destruct (bool_decide _ && _) eqn:Hb; [|done]. intros [= -> <-].
  by apply andb_true_iff in Hb as [?%bool_decide_eq_true ?].
Qed.

Lemma findRole_Ok id projectId w o w' :
  findRole id projectId w = (Ok o, w') →
  w' = w ∧ match o with
           | Some ro => ∃ row, roles (db w) !! id = Some row ∧ Role.projectId row = projectId ∧
                        restoreRole row = Ok ro
           | None => ∀ row, roles (db w) !! id = Some row → Role.projectId row ≠ projectId
           end.
Proof.
  unfold findRole. rewrite RunStore.read_bind. destruct (roles (db w) !! id) as [row|].
  - case_bool_decide as Hp.
    + intros (ro & Hro & Hw)%lift_bind_Ok. injection Hw as <- <-. split; [done|].
      by exists row.
    + intros [= <- <-]. split; [done|]. by intros ? [= <-].
  - by intros [= <- <-].
Qed.

Lemma active_stage_Ok b projectId taskId agentId w o w' :
  active_stage b projectId taskId agentId w = (Ok o, w') →
  w' = w ∧ match o with
           | Some (p, s) => head (active_pipelines taskId projectId (db w)) = Some p ∧
               (PipelineRun.currentStage p).1 = Ok (Some s) ∧ stage_is_active s = true ∧
               PipelineRun.sr_assignedAgentId s = Some agentId
           | None => b = true → head (active_pipelines taskId projectId (db w)) = None
           end.
Proof.
  unfold active_stage, findActiveByTask. destruct b; [|by intros [= <- <-]].
  rewrite RunStore.read_bind.
  destruct (head (active_pipelines taskId projectId (db w))) as [p|]; [|by intros [= <- <-]].
  intros (s & Hs & Hw)%lift_bind_Ok. destruct s as [s|]; [|done].
  destruct (stage_is_active s && _) eqn:Hb; [|done]. injection Hw as <- <-.
  by apply andb_true_iff in Hb as [? ?%bool_decide_eq_true].
Qed.

Lemma restoreRole_Ok row ro :
  restoreRole row = Ok ro →
  Role.id ro = Role.id row ∧ Role.projectId ro = Role.projectId row ∧ Role.key ro = Role.key row ∧
  Role.version ro = Role.version row ∧ Role.limits ro = Role.limits row ∧
  Role.updatedAt ro = Role.updatedAt row ∧ Role.modelPolicy ro = Role.modelPolicy row.
Proof.
  unfold restoreRole, parseStoredRoleLimits. rewrite bind_Ok. intros (l & Hl & [= <-]).
  apply throw_if_bind_Ok in Hl as [_ Hl]. apply throw_if_bind_Ok in Hl as [_ [= <-]]. done.
Qed.

(** What the created run holds. *)
Record run_of_request (c : Composition) (input : schedule_input) (id : string) (at_ : date)
    (agent : Agent) (role : Role.RoleProps)
    (stage : option (PipelineRun.Run * PipelineRun.StageRun)) (p : AgentRun.Props) : Prop := {
  rr_id : AgentRun.id p = id;
  rr_project : AgentRun.projectId p = si_projectId input;
  rr_task : AgentRun.taskId p = si_taskId input;
  rr_agent : AgentRun.agentId p = si_agentId input;
  rr_pipeline : AgentRun.pipelineRunId p = (PipelineRun.id ∘ fst <$> stage);
  rr_stage : AgentRun.pipelineStageRunId p = (PipelineRun.sr_id ∘ snd <$> stage);
  rr_status : AgentRun.status p = AgentRun.queued;
  rr_empty : AgentRun.result p = None ∧ AgentRun.error p = None ∧ AgentRun.startedAt p = None ∧
    AgentRun.completedAt p = None ∧ AgentRun.execution p = None ∧ AgentRun.worktreePath p = None ∧
    AgentRun.persistenceToken p = None;
  rr_times : AgentRun.createdAt p = at_ ∧ AgentRun.updatedAt p = at_;
  rr_guidance : AgentRun.roleGuidance p = guidance_of role;
  rr_routing : ∃ routing, AgentRun.modelRouting p = Some routing ∧
    Routing.resolveAgentRunModel (modelRouting c)
      {| Routing.s_projectId := si_projectId input; Routing.s_agentName := ag_name agent;
         Routing.s_modelPolicy := Role.modelPolicy role |} = Ok routing
}.

Lemma new_run_Ok c input id at_ agent role stage p :
  new_run c input id at_ agent role stage = Ok p →
  run_of_request c input id at_ agent role stage p ∧
  (AgentRun.unique_intent (si_actionIntent input) = true → AgentRun.well_formed p).
Proof.
  unfold new_run. rewrite bind_Ok. intros (routing & Hr & Hc). split.
  2: { intros Hu. refine (AgentRun.run_create_well_formed _ _ _ Hc). exact Hu. }
  unfold AgentRun.create in Hc. cbn -[AgentRun.optional_with] in Hc.
  apply throw_if_bind_Ok in Hc as [_ Hc]. apply bind_Ok in Hc as (intent & _ & Hc).
  apply bind_Ok in Hc as (guidance & Hg%AgentRun.optional_with_Ok & Hc).
  apply bind_Ok in Hc as (routing' & Hrt%AgentRun.optional_with_Ok & Hc).
  injection Hc as <-. destruct Hrt as (r' & Hr' & ->). apply parse_routing_same in Hr' as ->.
  constructor; try done; simpl.
  - destruct (guidance_of role) as [g|]; [|done]. destruct Hg as (g' & Hg & ->).
    unfold AgentRun.normalizeRoleGuidance in Hg. by apply throw_if_bind_Ok in Hg as [_ [= <-]].
  - by exists routing.
Qed.

(** Every stored run of the project's task has ended. *)
Definition task_free (projectId taskId : string) (d : tables) : Prop :=
  ∀ i row, runs d !! i = Some row → r_project_id row = projectId → r_task_id row = taskId →
    AgentRun.is_terminal (r_status row) = true.

Lemma listRuns_free projectId taskId w l w' :
  listRuns projectId w = (Ok l, w') →
  w' = w ∧ (existsb (occupies taskId) l = false → task_free projectId taskId (db w)).
Proof.
  unfold listRuns. rewrite RunStore.read_bind. unfold lift. intros [= Hl <-]. split; [done|].
  intros Hn i row Hrow Hp Ht. unfold restore_runs in Hl. apply map_result_Ok in Hl.
  assert ((i, row) ∈ sort_by compare_created (project_runs projectId (db w))) as Hin.
  { apply sort_by_elem_of, list_elem_of_filter. split; [done|]. by apply elem_of_map_to_list. }
  apply list_elem_of_lookup in Hin as (k & Hk). destruct (Forall2_lookup_l _ _ _ _ _ Hl Hk) as (p & Hpk & Hp').
  simpl in Hp'. apply RunHistory.run_of_row_spec in Hp' as (_ & _ & Htask & _ & _ & _ & Hst & _).
  apply list_elem_of_lookup_2 in Hpk. rewrite existsb_false in Hn. specialize (Hn p Hpk).
  unfold occupies in Hn. rewrite bool_decide_true in Hn by congruence. simpl in Hn.
  apply negb_false_iff in Hn. congruence.
Qed.

Lemma on_base_read {A} (f : Store.database → A) w :
  on_base (Store.read f) w = (Ok (f (base (db w))), w).
Proof. destruct w as [[] ? ? ?]. done. Qed.

Lemma schedule_checks_Ok c input w u w' :
  schedule_checks c input w = (Ok u, w') →
  w' = w ∧ ∃ task, Store.tasks (base (db w)) !! si_taskId input = Some task ∧
    Task.projectId task = si_projectId input ∧ Task.isTaskRunnable (Task.status task) = true ∧
    task_free (si_projectId input) (si_taskId input) (db w).
Proof.
  unfold schedule_checks, Store.find_project, Store.find_task.
  intros (known & w1 & Hk & Hs)%action_bind_Ok. rewrite on_base_read in Hk. injection Hk as <- <-.
  apply refuse_if_bind_Ok in Hs as [_ Hs]. apply action_bind_Ok in Hs as (found & w1 & Hk & Hs).
  rewrite on_base_read in Hk. injection Hk as <- <-.
  destruct (Store.tasks (base (db w)) !! si_taskId input) as [task|]; [|done].
  case_bool_decide as Hp; [|done].
  apply action_bind_Ok in Hs as (t & w1 & Ht & Hs). injection Ht as <- <-.
  apply refuse_if_bind_Ok in Hs as [Hr%negb_false_iff Hs].
  apply action_bind_Ok in Hs as (? & w1 & ->%check_prerequisites_Ok & Hs).
  apply action_bind_Ok in Hs as (l & w1 & [-> Hfree]%(listRuns_free _ (si_taskId input)) & Hs).
  apply refuse_if_bind_Ok in Hs as [Ho Hs].
  apply action_bind_Ok in Hs as (a & w1 & (-> & _)%require_agent_Ok & Hs). injection Hs as _ <-.
  split; [done|]. exists task. split_and!; auto.
Qed.

Lemma append_Ok i w b w' :
  Outbox.append i w = (Ok b, w') → db w' = set_outbox (λ _, outbox (db w')) (db w).
Proof.
  unfold Outbox.append. intros (? & _ & Hs)%lift_bind_Ok.
  apply lift_bind_Ok in Hs as (? & _ & Hs). apply refuse_if_bind_Ok in Hs as [_ Hs].
  apply lift_bind_Ok in Hs as (? & _ & Hs).
  apply lift_bind_Ok in Hs as (? & _ & Hs). rewrite RunStore.read_bind in Hs.
  apply refuse_if_bind_Ok in Hs as [_ Hs]. case_match.
  - injection Hs as _ <-. by destruct (db w).
  - apply refuse_if_bind_Ok in Hs as [_ Hs]. apply refuse_if_bind_Ok in Hs as [_ Hs].
    rewrite RunStore.write_bind in Hs. by injection Hs as _ <-.
Qed.

(** What a schedule leaves in the tables: the run [p], bound to [stage]. *)
Record scheduled (c : Composition) (input : schedule_input) (id : string) (at_ : Z) (agent : Agent)
    (role : Role.RoleProps) (stage : option (PipelineRun.Run * PipelineRun.StageRun))
    (p : AgentRun.Props) (row : RunRow) (d d' : tables) : Prop := {
  sc_request : run_of_request c input id (Some at_) agent role stage p;
  sc_agent : agents d !! si_agentId input = Some agent ∧ ag_projectId agent = si_projectId input ∧
    ag_enabled agent = true;
  sc_role : ∃ stored, roles d !! ag_roleId agent = Some stored ∧
    Role.projectId stored = si_projectId input ∧ restoreRole stored = Ok role;
  sc_stage : match stage with
    | Some (pl, s) =>
        head (active_pipelines (si_taskId input) (si_projectId input) d) = Some pl ∧
        (PipelineRun.currentStage pl).1 = Ok (Some s) ∧ stage_is_active s = true ∧
        PipelineRun.sr_assignedAgentId s = Some (si_agentId input)
    | None => with_pipelines c = true →
        head (active_pipelines (si_taskId input) (si_projectId input) d) = None
    end;
  sc_row : row_of_run p = Ok row;
  sc_new : runs d !! id = None;
  sc_before : before_insert row d = Ok tt;
  sc_prerequisites : insert_refuses row d = false;
  sc_runs : runs d' = <[id := row]> (runs d);
  sc_base : base d' = record_run_start row (base d);
  sc_locks : locks d' = <[si_taskId input :=
    {| l_run_id := id; l_acquired_at := at_; l_expires_at := at_ + taskRunLeaseDurationMs |}]>
    (locks d);
  sc_expired : ∀ l, locks d !! si_taskId input = Some l → (l_expires_at l ≤ at_)%Z;
  sc_events : ∃ e, ev_run_id e = id ∧ ev_status e = AgentRun.queued ∧
    run_events d' = run_events (RunHistory.add_event e d);
  sc_same : agents d' = agents d ∧ roles d' = roles d ∧ pipelines d' = pipelines d
}.

Lemma schedule_body_Ok c input id at_ w u w' :
  task_free (si_projectId input) (si_taskId input) (db w) →
  schedule_body c input id (Some at_) w = (Ok u, w') →
  (check_prerequisites (guarded c) (si_projectId input) (si_taskId input) w).1 = Ok tt ∧
  ∃ agent role stage p row, scheduled c input id at_ agent role stage p row (db w) (db w') ∧
    (AgentRun.unique_intent (si_actionIntent input) = true → AgentRun.well_formed p).
Proof.
  intros Hfree. unfold schedule_body.
  intros ([] & w1 & Hchk & Hs)%action_bind_Ok. split; [by rewrite Hchk|].
  apply check_prerequisites_Ok in Hchk as ->.
  apply action_bind_Ok in Hs as (agent & w1 & (-> & Ha)%require_agent_Ok & Hs).
  apply action_bind_Ok in Hs as (found & w1 & (-> & Hro)%findRole_Ok & Hs).
  destruct found as [role|]; [|done].
  apply action_bind_Ok in Hs as (ro & w1 & Ht & Hs). injection Ht as <- <-.
  apply action_bind_Ok in Hs as (stage & w1 & (-> & Hst)%active_stage_Ok & Hs).
  apply lift_bind_Ok in Hs as (p & [Hp Hwf]%new_run_Ok & Hs).
  apply action_bind_Ok in Hs as (run & w1 & (-> & row & Hrow & Hb & Hsave)%RunHistory.saveRun_Ok & Hs).
  assert (AgentRun.id p = id) as Hid by by destruct Hp.
  assert (AgentRun.id (mark p) = id) as Hid' by done.
  pose proof Hrow as (Hrp & Hrt & _ & _ & _ & Hrs & _)%RunHistory.row_of_run_spec.
  assert (r_status row = AgentRun.queued) as Hq by (destruct Hp; congruence).
  rewrite Hid in Hsave. destruct (runs (db w) !! id) as [old|] eqn:Hold.
  { exfalso. destruct Hsave as (current & Hcur & Hsame & Hcase).
    unfold same_identity in Hsame. rewrite !andb_true_iff, !bool_decide_eq_true in Hsame.
    destruct Hsame as [[[[[[[[H1 H2] _] _] _] _] _] _] _].
    apply RunHistory.run_of_row_spec in Hcur as (_ & C1 & C2 & _).
    assert (AgentRun.is_terminal (r_status old) = true) as Hterm
      by (eapply (Hfree _ _ Hold); destruct Hp; congruence).
    destruct Hcase as [[_ Heq]|(e & _ & _ & _ & Htok & _)].
    - destruct Hp. rewrite <- Heq, rr_status0 in Hterm. done.
    - unfold token_matches in Htok. destruct Hp. destruct rr_empty0 as (_ & _ & _ & _ & _ & _ & Hn).
      by rewrite Hn in Htok. }
  destruct Hsave as (Hins & e & He1 & He2 & Hd1).
  apply action_bind_Ok in Hs as (locked & w2 & Hlock & Hs).
  apply refuse_if_bind_Ok in Hs as [->%negb_false_iff Hs].
  apply RunHistory.acquireTaskLock_Ok in Hlock as
    (acquired & expires & row' & [= <-] & [= <-] & _ & _ & _ & -> & Hl).
  assert (locks (db w1) = locks (db w)) as Hl1 by by rewrite Hd1, RunHistory.locks_add_event.
  assert (runs (db w1) = <[id := row]> (runs (db w))) as Hr1
    by (rewrite Hd1; unfold RunHistory.add_event; by destruct (event_recorded _ _ _)).
  assert (base (db w1) = record_run_start row (base (db w)) ∧ agents (db w1) = agents (db w) ∧
    roles (db w1) = roles (db w) ∧ pipelines (db w1) = pipelines (db w)) as Hrest
    by (rewrite Hd1; unfold RunHistory.add_event; by destruct (event_recorded _ _ _)).
  assert (run_events (db w1) = run_events (RunHistory.add_event e (db w))) as Hev
    by (rewrite Hd1; by apply RunHistory.run_events_add_event).
  clear Hd1. set (d2 := set_locks _ (db w1)) in Hs.
  assert (∃ f, db w' = set_outbox f d2) as (f & ->).
  { destruct (with_outbox c).
    - apply action_bind_Ok in Hs as (b & w3 & Hb3%append_Ok & Hs). injection Hs as _ <-.
      rewrite Hb3. by eexists.
    - injection Hs as _ <-. exists (λ l, l). by destruct d2. }
  exists agent, role, stage, p, row. split; [|done]. destruct Hrest as (? & ? & ? & ?).
  constructor; try done; simpl.
  - by rewrite Hl1, Hid.
  - intros l Hl'. rewrite Hl1, Hl' in Hl. tauto.
  - exists e. split_and!; [done| |done]. destruct Hp; congruence.
Qed.

(** ** Admission of a scheduled run *)

(** What the schema and the repositories keep of the tables: rows are filed
    under their identifiers with valid times, a pipeline run belongs to its
    task's project, its stages are numbered in order, and the event log is that
    of the stored runs. *)
Record tables_ok (d : tables) : Prop := {
  ok_tasks : ∀ id t, Store.tasks (base d) !! id = Some t → is_Some (Task.updatedAt t);
  ok_agents : ∀ id a, agents d !! id = Some a → is_Some (ag_updatedAt a);
  ok_roles : ∀ id r, roles d !! id = Some r → Role.id r = id ∧ is_Some (Role.updatedAt r);
  ok_pipelines : ∀ id p, pipelines d !! id = Some p → PipelineRun.id p = id ∧
    (∀ i s, PipelineRun.stages p !! i = Some s → PipelineRun.sr_stageIndex s = i) ∧
    (∀ t, Store.tasks (base d) !! PipelineRun.taskId p = Some t →
       Task.projectId t = PipelineRun.projectId p);
  ok_log : RunHistory.log_ok d
}.

(** The agent still has the role of the active stage it is assigned to. *)
Definition role_serves_stage (projectId taskId : string) (role : Role.RoleProps) (d : tables)
    : Prop :=
  ∀ pl s, head (active_pipelines taskId projectId d) = Some pl →
    (PipelineRun.currentStage pl).1 = Ok (Some s) → Role.key role = PipelineRun.sr_roleId s.

Lemma active_pipelines_Some taskId projectId d pl :
  head (active_pipelines taskId projectId d) = Some pl →
  (∃ id, pipelines d !! id = Some pl) ∧ PipelineRun.taskId pl = taskId ∧
  PipelineRun.projectId pl = projectId ∧ run_is_active pl = true.
Proof.
  intros Hh. assert (pl ∈ active_pipelines taskId projectId d) as Hin.
  { destruct (active_pipelines _ _ _); [done|]. injection Hh as ->. by left. }
  unfold active_pipelines in Hin. rewrite sort_by_elem_of in Hin.
  apply list_elem_of_filter in Hin as [Ha Hin]. apply list_elem_of_filter in Hin as [Hp Hin].
  apply list_elem_of_filter in Hin as [Ht Hin]. apply list_elem_of_fmap in Hin as ([id p] & -> & Hin).
  apply elem_of_map_to_list in Hin. split; [by exists id|]. done.
Qed.

Lemma active_pipelines_None taskId projectId d id p :
  head (active_pipelines taskId projectId d) = None → pipelines d !! id = Some p →
  PipelineRun.taskId p = taskId → PipelineRun.projectId p = projectId → run_is_active p = false.
Proof.
  intros Hh Hp Ht Hpr. destruct (run_is_active p) eqn:Ha; [|done]. exfalso.
  assert (p ∈ active_pipelines taskId projectId d) as Hin.
  { unfold active_pipelines. rewrite sort_by_elem_of, !list_elem_of_filter. split_and!; try done.
    apply list_elem_of_fmap. exists (id, p). split; [done|]. by apply elem_of_map_to_list. }
  destruct (active_pipelines _ _ _); [by apply elem_of_nil in Hin|done].
Qed.

Lemma current_stage_read pl s :
  (∀ i s', PipelineRun.stages pl !! i = Some s' → PipelineRun.sr_stageIndex s' = i) →
  (PipelineRun.currentStage pl).1 = Ok (Some s) → stage_at pl = Some s.
Proof.
  intros Hidx. unfold PipelineRun.currentStage. rewrite get_bind.
  case_bool_decide; [done|]. destruct (PipelineRun.stages pl !! _) as [s'|] eqn:Hs; [|done].
  intros [= ->]. unfold stage_at.
  destruct (List.find _ _) as [s1|] eqn:Hf.
  - apply List.find_some in Hf as [Hin He%Nat.eqb_eq]. apply list_elem_of_In in Hin.
    apply list_elem_of_lookup in Hin as (i & Hi). specialize (Hidx _ _ Hi). congruence.
  - assert (In s (PipelineRun.stages pl)) as Hin
      by (apply list_elem_of_In; by eapply list_elem_of_lookup_2).
    apply (List.find_none _ _ Hf) in Hin. rewrite (Hidx _ _ Hs), Nat.eqb_refl in Hin. done.
Qed.

Lemma with_token_restores p row :
  AgentRun.well_formed p → row_of_run p = Ok row → AgentRun.result p = None →
  AgentRun.error p = None → ∃ v, run_of_row (AgentRun.id p) row = Ok v ∧
    AgentRun.status v = AgentRun.status p ∧ AgentRun.error v = None ∧
    AgentRun.execution v = AgentRun.execution p ∧ AgentRun.id v = AgentRun.id p ∧
    AgentRun.projectId v = AgentRun.projectId p ∧ AgentRun.taskId v = AgentRun.taskId p ∧
    AgentRun.agentId v = AgentRun.agentId p ∧
    AgentRun.pipelineRunId v = AgentRun.pipelineRunId p ∧
    AgentRun.pipelineStageRunId v = AgentRun.pipelineStageRunId p.
Proof.
  intros Hwf Hrow Hres Herr.
  set (q := {| AgentRun.id := AgentRun.id p; AgentRun.projectId := AgentRun.projectId p;
     AgentRun.taskId := AgentRun.taskId p; AgentRun.agentId := AgentRun.agentId p;
     AgentRun.pipelineRunId := AgentRun.pipelineRunId p;
     AgentRun.pipelineStageRunId := AgentRun.pipelineStageRunId p;
     AgentRun.actionIntent := AgentRun.actionIntent p;
     AgentRun.roleGuidance := AgentRun.roleGuidance p; AgentRun.execution := AgentRun.execution p;
     AgentRun.modelRouting := AgentRun.modelRouting p; AgentRun.status := AgentRun.status p;
     AgentRun.worktreePath := AgentRun.worktreePath p; AgentRun.result := None;
     AgentRun.error := None; AgentRun.createdAt := AgentRun.createdAt p;
     AgentRun.startedAt := AgentRun.startedAt p; AgentRun.completedAt := AgentRun.completedAt p;
     AgentRun.updatedAt := AgentRun.updatedAt p;
     AgentRun.persistenceToken :=
       Some {| AgentRun.token_status := r_status row;
               AgentRun.token_updatedAt := Some (r_updated_at row) |} |}).
  assert (AgentRun.well_formed q) as Hq by (destruct Hwf; by constructor).
  assert (props_of_row (AgentRun.id p) row = AgentRun.stored q) as Heq.
  { unfold row_of_run in Hrow. rewrite Hres, Herr in Hrow. simpl in Hrow.
    apply bind_Ok in Hrow as (created & Hc & Hrow). apply bind_Ok in Hrow as (st & Hst & Hrow).
    apply bind_Ok in Hrow as (co & Hco & Hrow). apply bind_Ok in Hrow as (up & Hup & Hrow).
    subst q. injection Hrow as <-. unfold props_of_row, AgentRun.stored, AgentRun.with_normalized.
    simpl. destruct (AgentRun.createdAt p) as [z|]; [|done]. injection Hc as <-.
    destruct (AgentRun.updatedAt p) as [z'|]; [|done]. injection Hup as <-.
    assert (∀ o v, iso_or_null o = Ok v → Some <$> v = o) as Hiso.
    { intros o v Ho. destruct o as [[z1|]|]; simpl in Ho; [by injection Ho as <-|done|by injection Ho as <-]. }
    by rewrite (Hiso _ _ Hst), (Hiso _ _ Hco). }
  exists q. split; [|done]. unfold run_of_row. rewrite Heq, (AgentRun.restore_stored_run _ Hq).
  assert (r_execution row = AgentRun.execution p ∧ r_model_routing row = AgentRun.modelRouting p) as [-> ->].
  { unfold row_of_run in Hrow. apply bind_Ok in Hrow as (? & _ & Hrow).
    apply bind_Ok in Hrow as (? & _ & Hrow). apply bind_Ok in Hrow as (? & _ & Hrow).
    apply bind_Ok in Hrow as (? & _ & Hrow). apply bind_Ok in Hrow as (? & _ & Hrow).
    apply bind_Ok in Hrow as (? & _ & Hrow). by injection Hrow as <-. }
  destruct Hwf as [_ _ _ Hex _ _ Hrt].
  rewrite (AgentRun.optional_with_same _ (AgentRun.execution p))
    by (intros; by apply AgentRun.parseAgentExecution_json, Hex).
  simpl. rewrite (AgentRun.optional_with_same _ (AgentRun.modelRouting p)); [done|].
  intros r Hr. by apply parse_routing_json, Hrt.
Qed.

(** Admission of a queued run whose authority the query confirms. *)
Lemma admitQueuedRun_accepts i a w row v at_ :
  runs (db w) !! ra_runId i = Some row → r_status row = AgentRun.queued →
  ra_authority i = Some a → ra_now i = Some at_ →
  (∃ taskAt agentAt roleAt, au_taskUpdatedAt a = Some taskAt ∧ au_agentUpdatedAt a = Some agentAt ∧
     au_roleUpdatedAt a = Some roleAt ∧
     admission_valid (ra_runId i) row a taskAt agentAt roleAt at_ (db w) = true) →
  run_of_row (ra_runId i) row = Ok v → AgentRun.error v = None →
  (∀ new, r_project_id new = r_project_id row → r_task_id new = r_task_id row →
     claim_refuses row new (db w) = false) →
  event_recorded (ra_runId i) AgentRun.preparing (db w) = false →
  ∃ v' w', admitQueuedRun i w = (Ok (Some v'), w') ∧ AgentRun.status v' = AgentRun.preparing.
Proof.
  intros Hrow Hq Ha Hn (t1 & t2 & t3 & H1 & H2 & H3 & Hv) Hval Herr Hclaim Hev.
  pose proof Hval as (_ & _ & _ & _ & _ & _ & Hst & _)%RunHistory.run_of_row_spec.
  assert (∃ p, on_run v (AgentRun.transition AgentRun.preparing (Some at_) AgentRun.no_details) w =
     (Ok p, w) ∧ AgentRun.status p = AgentRun.preparing ∧ AgentRun.error p = None ∧
     AgentRun.completedAt p = AgentRun.completedAt v) as (p & Hp & Hps & Hpe & Hpc).
  { unfold on_run. destruct (AgentRun.transition _ _ _ v) as [[[]|e] p] eqn:Ht.
    - apply AgentRun.run_transition_Ok in Ht as (_ & exec & _ & _ & ->). eexists. split; [done|].
      split; [done|]. by simpl; rewrite Herr.
    - exfalso. assert (AgentRun.transition AgentRun.preparing (Some at_) AgentRun.no_details v =
        (Ok tt, AgentRun.transitioned v AgentRun.preparing (Some at_) AgentRun.no_details
                  (AgentRun.execution v))) as Hok; [|congruence].
      apply AgentRun.run_transition_Ok. split; [rewrite Hst, Hq; simpl; by left|].
      exists (AgentRun.execution v). split; [done|]. split; [by right|done]. }
  assert (∃ completed, iso_or_null (AgentRun.completedAt p) = Ok completed) as (completed & Hcomp).
  { rewrite Hpc. unfold run_of_row in Hval. apply bind_Ok in Hval as (_ & _ & Hval).
    apply bind_Ok in Hval as (_ & _ & Hval). unfold AgentRun.restore in Hval.
    apply bind_Ok in Hval as (? & _ & Hval). apply bind_Ok in Hval as (? & _ & Hval).
    apply bind_Ok in Hval as (? & _ & Hval). apply bind_Ok in Hval as (? & _ & Hval).
    injection Hval as <-. simpl. destruct (r_completed_at row); simpl; eauto. }
  unfold admitQueuedRun, savepoint. rewrite RunStore.read_bind, Hrow.
  rewrite bool_decide_true by done. cbn [negb]. rewrite Ha, Hn, H1, H2, H3.
  unfold lift, mret, action_ret, mbind, action_bind. cbn [iso]. rewrite Hv, Hval. cbv beta iota.
  rewrite Hp. cbv beta iota. rewrite Hcomp, Hpe. cbn [json_column].
  unfold update_run, refuse_if, lift, read, write, mbind, action_bind. rewrite Hclaim by done.
  assert (∀ x, execution_refuses row (admitted_row row x at_ completed None) = false) as Hex.
  { intros x. unfold execution_refuses. simpl. rewrite (bool_decide_true (r_execution row = r_execution row)) by done.
    by rewrite andb_false_r. }
  rewrite Hex. cbn [throw_if]. unfold insert_run_event, refuse_if, lift, read, write, mbind, action_bind.
  cbn [ev_run_id ev_status db with_tables]. rewrite Hps.
  assert (∀ f, event_recorded (ra_runId i) AgentRun.preparing (set_runs f (db w)) = false) as Hev'
    by (intros f; exact Hev).
  rewrite Hev'. cbn [throw_if]. eexists _, _. split; [reflexivity|]. done.
Qed.

(** What the admission observes when nothing has changed since. *)
Lemma observe_Ok guard r w task agent role stored stage :
  Store.tasks (base (db w)) !! AgentRun.taskId r = Some task →
  agents (db w) !! AgentRun.agentId r = Some agent →
  roles (db w) !! ag_roleId agent = Some stored → Role.projectId stored = AgentRun.projectId r →
  restoreRole stored = Ok role →
  head (active_pipelines (AgentRun.taskId r) (AgentRun.projectId r) (db w)) =
    (fst <$> stage) →
  (∀ pl s, stage = Some (pl, s) → (PipelineRun.currentStage pl).1 = Ok (Some s)) →
  (check_prerequisites guard (AgentRun.projectId r) (AgentRun.taskId r) w).1 = Ok tt →
  observe guard r w = (Ok (observed_authority r true (Some task) (Some agent) (Some role)
    (fst <$> stage) (snd <$> stage)), w).
Proof.
  intros Ht Ha Hro Hp Hre Hpl Hst Hpre.
  assert (prerequisites_complete guard (AgentRun.projectId r) (AgentRun.taskId r) w = (Ok true, w)) as Hpc.
  { unfold prerequisites_complete. destruct (check_prerequisites _ _ _ w) as [x w'] eqn:Hc.
    simpl in Hpre. subst x. by apply check_prerequisites_Ok in Hc as ->. }
  assert (findRole (ag_roleId agent) (AgentRun.projectId r) w = (Ok (Some role), w)) as Hfr.
  { unfold findRole. rewrite RunStore.read_bind, Hro, bool_decide_true by done.
    unfold mbind, action_bind, lift. by rewrite Hre. }
  unfold observe, findAgent, findActiveByTask, Store.find_task.
  unfold mbind at 1, action_bind at 1. rewrite on_base_read. cbv beta iota.
  rewrite !RunStore.read_bind, Ha, Hpl, Ht. destruct stage as [[pl s]|]; simpl.
  - unfold current_stage. unfold mbind, action_bind at 1, lift at 1. rewrite (Hst _ _ eq_refl).
    cbv beta iota. unfold action_bind. by rewrite Hfr, Hpc.
  - unfold mbind, action_bind, mret, action_ret. by rewrite Hfr, Hpc.
Qed.

(** A copy of the scheduled run as it is loaded again. *)
Record copy_of (input : schedule_input) (id : string)
    (stage : option (PipelineRun.Run * PipelineRun.StageRun)) (copy : AgentRun.Props) : Prop := {
  cp_id : AgentRun.id copy = id;
  cp_project : AgentRun.projectId copy = si_projectId input;
  cp_task : AgentRun.taskId copy = si_taskId input;
  cp_agent : AgentRun.agentId copy = si_agentId input;
  cp_pipeline : AgentRun.pipelineRunId copy = (PipelineRun.id ∘ fst <$> stage);
  cp_stage : AgentRun.pipelineStageRunId copy = (PipelineRun.sr_id ∘ snd <$> stage);
  cp_error : AgentRun.error copy = None
}.

Section scheduled.
  Context {c : Composition} {input : schedule_input} {id : string} {at_ : Z} {agent : Agent}
    {role : Role.RoleProps} {stage : option (PipelineRun.Run * PipelineRun.StageRun)}
    {p : AgentRun.Props} {row : RunRow} {d d' : tables}.
  Context (Hsch : scheduled c input id at_ agent role stage p row d d').

Lemma scheduled_copy :
  AgentRun.well_formed p → ∃ copy, run_of_row id row = Ok copy ∧ copy_of input id stage copy.
Proof.
  intros Hwf. destruct Hsch as [[]]. destruct rr_empty0 as (Hres & Herr & _).
  destruct (with_token_restores p row Hwf ltac:(done) Hres Herr)
    as (copy & Hc & _ & ? & _ & ? & ? & ? & ? & ? & ?).
  rewrite rr_id0 in Hc. exists copy. split; [done|]. constructor; congruence.
Qed.

Lemma scheduled_row :
  r_project_id row = si_projectId input ∧ r_task_id row = si_taskId input ∧
  r_agent_id row = si_agentId input ∧ r_pipeline_run_id row = (PipelineRun.id ∘ fst <$> stage) ∧
  r_pipeline_stage_run_id row = (PipelineRun.sr_id ∘ snd <$> stage) ∧
  r_status row = AgentRun.queued.
Proof.
  destruct Hsch as [[]]. apply RunHistory.row_of_run_spec in sc_row0 as (? & ? & ? & ? & ? & ? & _).
  split_and!; congruence.
Qed.

Lemma scheduled_lock n :
  (n < at_ + taskRunLeaseDurationMs)%Z →
  ∃ l, locks d' !! si_taskId input = Some l ∧ l_run_id l = id ∧ (n < l_expires_at l)%Z.
Proof.
  intros Hn. rewrite (sc_locks _ _ _ _ _ _ _ _ _ _ _ Hsch), lookup_insert_eq. by eexists.
Qed.

Lemma scheduled_pipeline version :
  tables_ok d → with_pipelines c = true →
  (∃ task, Store.tasks (base d) !! si_taskId input = Some task ∧
     Task.projectId task = si_projectId input) →
  role_serves_stage (si_projectId input) (si_taskId input) role d →
  (∀ pl s, stage = Some (pl, s) → version = Some (PipelineRun.version pl)) →
  ∀ a, au_pipelineId a = (PipelineRun.id ∘ fst <$> stage) →
    au_pipelineStageRunId a = (PipelineRun.sr_id ∘ snd <$> stage) → au_pipelineVersion a = version →
    admission_pipeline row a d' = true.
Proof.
  intros Hok Hpl (task & Htask & Htp) Hserves Hver a Ha1 Ha2 Ha3.
  destruct scheduled_row as (Hrp & Hrt & Hra & Hrpl & Hrst & _).
  destruct Hsch as [_ (Hag & _) (stored & Hstored & _ & Hre) Hst _ _ _ _ _ _ _ _ _ (Hda & Hdr & Hdp)].
  unfold admission_pipeline. rewrite Ha1, Ha2, Ha3, Hrpl, Hrst, Hrt, Hrp, Hra.
  destruct stage as [[pl s]|]; simpl.
  - destruct Hst as (Hhead & Hcur & Hact & Hasg).
    pose proof (active_pipelines_Some _ _ _ _ Hhead) as ((pid & Hpid) & Htid & Hprj & Hactive).
    destruct (ok_pipelines _ Hok _ _ Hpid) as (Hid & Hidx & _). subst pid.
    rewrite (Hver _ _ eq_refl), Hdp, Hpid, (current_stage_read _ _ Hidx Hcur), Hda, Hag, Hdr, Hstored.
    rewrite Hactive, Hact.
    pose proof (Hserves _ _ Hhead Hcur) as Hkey.
    apply restoreRole_Ok in Hre as (_ & _ & Hk & _).
    rewrite !bool_decide_true by congruence. done.
  - specialize (Hst Hpl). rewrite orb_false_r. apply negb_true_iff. unfold has_active_pipeline.
    apply existsb_false. intros [pid pl] Hin%elem_of_map_to_list. rewrite Hdp in Hin. simpl.
    rewrite andb_true_r. apply andb_false_iff.
    destruct (decide (PipelineRun.taskId pl = si_taskId input)) as [Ht|Ht];
      [|left; by apply bool_decide_eq_false]. right.
    destruct (ok_pipelines _ Hok _ _ Hin) as (_ & _ & Hproj).
    eapply active_pipelines_None; [done|done|done|]. rewrite <- (Hproj task), Htp; [done|congruence].
Qed.

Lemma scheduled_admissible copy task :
  tables_ok d → with_pipelines c = true → copy_of input id stage copy →
  Store.tasks (base d) !! si_taskId input = Some task → Task.projectId task = si_projectId input →
  Task.isTaskRunnable (Task.status task) = true →
  role_serves_stage (si_projectId input) (si_taskId input) role d →
  ∃ a, observed_authority copy true (Some task) (Some agent) (Some role) (fst <$> stage)
         (snd <$> stage) = Some a ∧
    ∀ n, (n < at_ + taskRunLeaseDurationMs)%Z →
      ∃ t1 t2 t3, au_taskUpdatedAt a = Some t1 ∧ au_agentUpdatedAt a = Some t2 ∧
        au_roleUpdatedAt a = Some t3 ∧ admission_valid id row a t1 t2 t3 n d' = true.
Proof.
  intros Hok Hpl [? Hcp Hct Hca Hcpl Hcst _] Htask Htp Hrun Hserves.
  pose proof Hsch as [_ (Hag & Hagp & Hen) (stored & Hstored & Hsp & Hre) Hst _ _ _ _ _ Hbase _ _ _ (Hda & Hdr & Hdp)].
  pose proof (restoreRole_Ok _ _ Hre) as (Hroi & Hrop & Hrok & Hrov & Hrol & Hrou & _).
  destruct (ok_tasks _ Hok _ _ Htask) as (t1 & Ht1). destruct (ok_agents _ Hok _ _ Hag) as (t2 & Ht2).
  destruct (ok_roles _ Hok _ _ Hstored) as (Hrid & t3 & Ht3).
  eexists. split.
  - unfold observed_authority. rewrite Hcp, Hrun, Hen, Hrop, Hsp, Hagp, Htp.
    rewrite !(bool_decide_true (si_projectId input = _)) by done. simpl.
    assert (same_binding copy (fst <$> stage) (snd <$> stage) = true) as ->.
    { unfold same_binding. rewrite Hcpl, Hcst. rewrite !bool_decide_true by (by destruct stage). done. }
    assert (stage_serves copy role (fst <$> stage) (snd <$> stage) = true) as ->.
    { unfold stage_serves. destruct stage as [[pl s]|]; [|done]. simpl.
      destruct Hst as (Hhead & Hcur & Hact & Hasg). rewrite Hact, Hca, Hasg.
      rewrite !bool_decide_true; [done|by apply (Hserves pl s)|done]. }
    reflexivity.
  - intros n Hn. exists t1, t2, t3. simpl. split; [done|]. split; [done|]. split; [congruence|].
    destruct scheduled_row as (Hrp & Hrt & Hra & _). destruct (scheduled_lock n Hn) as (l & Hl & Hlr & Hle).
    unfold admission_valid. apply andb_true_iff. split.
    + unfold authority_current. simpl. rewrite Hrt, Hra, Hrp, Hbase. simpl.
      rewrite Htask, Hda, Hag, Hdr, Hstored, Hl, Hlr, Hen.
      rewrite !bool_decide_true by congruence. simpl. lia.
    + eapply (scheduled_pipeline (PipelineRun.version <$> (fst <$> stage))); try done.
      * by exists task.
      * intros pl s ->. done.
      * by destruct stage as [[]|].
      * by destruct stage as [[]|].
Qed.

Lemma scheduled_claim new :
  r_project_id new = r_project_id row → r_task_id new = r_task_id row →
  claim_refuses row new d' = false.
Proof.
  intros Hp Ht. unfold claim_refuses.
  destruct scheduled_row as (_ & _ & _ & _ & _ & Hq).
  destruct Hsch as [_ _ _ _ _ _ _ Hins _ Hbase _ _ _ _]. rewrite Hp, Ht, Hbase.
  unfold insert_refuses in Hins. rewrite Hq in Hins. simpl in Hins.
  change (Store.has_prerequisite_outside [Task.completed; Task.waiting_review] (r_project_id row)
            (r_task_id row) (base d) = false) in Hins.
  unfold record_run_start.
  change (Store.has_prerequisite_outside [Task.completed; Task.waiting_review] (r_project_id row)
    (r_task_id row) (Store.set_history _ (base d))) with
    (Store.has_prerequisite_outside [Task.completed; Task.waiting_review] (r_project_id row)
      (r_task_id row) (base d)).
  by rewrite Hins, andb_false_r.
Qed.

Lemma scheduled_not_started :
  tables_ok d → event_recorded id AgentRun.preparing d' = false.
Proof.
  intros Hok. destruct Hsch as [_ _ _ _ _ Hnew _ _ _ _ _ _ (e & He1 & He2 & Hev) _].
  pose proof (ok_log _ Hok id) as Hlog. rewrite Hnew in Hlog.
  apply not_true_iff_false. rewrite RunHistory.event_recorded_spec.
  rewrite (RunHistory.statuses_of_ext id _ _ Hev), RunHistory.statuses_of_add, Hlog, He1, He2.
  - rewrite bool_decide_true by done. simpl. by intros [=]%list_elem_of_singleton.
  - apply not_true_iff_false. rewrite RunHistory.event_recorded_spec, He1, Hlog.
    apply not_elem_of_nil.
Qed.

End scheduled.

Lemma schedule_Ok c input w id w' :
  schedule c input w = (Ok id, w') →
  (∃ task, Store.tasks (base (db w)) !! si_taskId input = Some task ∧
     Task.projectId task = si_projectId input ∧ Task.isTaskRunnable (Task.status task) = true) ∧
  task_free (si_projectId input) (si_taskId input) (db w) ∧
  id = Store.id_at (generated w) ∧
  (∀ w2, same_tasks (db w) (db w2) →
     (check_prerequisites (guarded c) (si_projectId input) (si_taskId input) w2).1 = Ok tt) ∧
  ∃ agent role stage p row,
    scheduled c input id (Store.clock_at (ticks w)) agent role stage p row (db w) (db w') ∧
    (AgentRun.unique_intent (si_actionIntent input) = true → AgentRun.well_formed p).
Proof.
  unfold schedule. intros (u & w1 & Hc & Hs)%action_bind_Ok.
  apply schedule_checks_Ok in Hc as (-> & task & Ht & Hp & Hr & Hfree).
  apply action_bind_Ok in Hs as (at_ & w1 & Hn & Hs). unfold now in Hn. injection Hn as <- <-.
  apply action_bind_Ok in Hs as (id' & w1 & Hg & Hs). unfold generate in Hg. injection Hg as <- <-.
  apply action_bind_Ok in Hs as (u' & w2 & (_ & w3 & Hb & Hdb)%commit_Ok & Hs).
  injection Hs as <- <-. rewrite Hdb.
  apply schedule_body_Ok in Hb as (Hchk & agent & role & stage & p & row & Hsch & Hwf); [|done].
  split; [by exists task|]. split; [done|]. split; [done|]. split.
  - intros w' Hsame. destruct (check_prerequisites _ _ _ _) as [r w4] eqn:He in Hchk.
    simpl in Hchk. subst r. by eapply check_prerequisites_ext.
  - by exists agent, role, stage, p, row.
Qed.

Lemma schedule_Throw c input w e w' : schedule c input w = (Throw e, w') → db w' = db w.
Proof.
  unfold schedule. intros [Hs|(u & w1 & Hc & Hs)]%action_bind_Throw.
  { pose proof (keeps_checks c input w) as Hk. by rewrite Hs in Hk. }
  apply keeps_Ok in Hc; [|apply keeps_checks].
  apply action_bind_Throw in Hs as [Hs|(at_ & w2 & Hn & Hs)]; [done|].
  apply keeps_Ok in Hn; [|apply keeps_now].
  apply action_bind_Throw in Hs as [Hs|(id & w3 & Hg & Hs)]; [done|].
  apply keeps_Ok in Hg; [|apply keeps_generate].
  apply action_bind_Throw in Hs as [Hs|(u' & w4 & _ & Hs)]; [|done].
  apply run_Throw in Hs. congruence.
Qed.

(** * Properties *)


(** A run just scheduled is admitted: on tables that keep the schema's
    invariants, as long as nothing but the clock has changed and the lease has
    not expired, and the agent still has the role of the stage it is assigned
    to, the admission of the stored run answers with the run in [preparing]. *)
Theorem scheduled_run_is_admitted c input w id w' w2 owner :
  tables_ok (db w) → with_pipelines c = true →
  AgentRun.unique_intent (si_actionIntent input) = true →
  schedule c input w = (Ok id, w') → db w2 = db w' →
  (∀ agent role stored, agents (db w) !! si_agentId input = Some agent →
     roles (db w) !! ag_roleId agent = Some stored → restoreRole stored = Ok role →
     role_serves_stage (si_projectId input) (si_taskId input) role (db w)) →
  (Store.clock_at (ticks w2) < Store.clock_at (ticks w) + taskRunLeaseDurationMs)%Z →
  ∃ copy v w3, findRun id w2 = (Ok (Some copy), w2) ∧
    admit_run (guarded c) owner copy w2 = (Ok (Some v), w3) ∧ AgentRun.id v = id ∧
    AgentRun.status v = AgentRun.preparing.
Proof.
  intros Hok Hpl Hu Hs Hdb Hserves Hclock.
  apply schedule_Ok in Hs as ((task & Htask & Htp & Hrun) & _ & _ & Hpre & agent & role & stage & p &
    row & Hsch & Hwf). specialize (Hwf Hu). rewrite <- Hdb in Hsch.
  destruct (scheduled_copy Hsch Hwf) as (copy & Hcopy & Hcp).
  pose proof (scheduled_row Hsch) as (_ & _ & _ & _ & _ & Hq).
  pose proof Hsch as [_ (Hag & _) (stored & Hstored & Hsp & Hre) Hst _ _ _ _ Hruns Hbase _ _ _
                        (Hda & Hdr & Hdp)].
  destruct (scheduled_admissible Hsch copy task Hok Hpl Hcp Htask Htp Hrun
    (Hserves _ _ _ Hag Hstored Hre)) as (authority & Hobs & Hvalid).
  assert (runs (db w2) !! id = Some row) as Hrow by by rewrite Hruns, lookup_insert_eq.
  pose proof Hcp as [Hcid Hcproj Hctask Hcagent _ _ Hcerr].
  assert (observe (guarded c) copy w2 = (Ok (Some authority), w2)) as Hobserve.
  { rewrite <- Hobs. apply (observe_Ok _ _ _ task agent role stored stage); try congruence.
    - by rewrite Hctask, Hbase.
    - rewrite Hctask, Hcproj. unfold active_pipelines. rewrite Hdp.
      destruct stage as [[pl s]|]; [apply Hst|by apply Hst].
    - intros pl s ->. apply Hst.
    - rewrite Hcproj, Hctask. apply Hpre. split; by rewrite Hbase. }
  set (w3 := {| db := db w2; active := active w2; ticks := S (ticks w2); generated := generated w2 |}).
  set (input' := {| ra_runId := AgentRun.id copy; ra_ownerId := owner;
                    ra_now := Some (Store.clock_at (ticks w2)); ra_authority := Some authority |}).
  assert (ra_runId input' = id) as Hid by done.
  destruct (admitQueuedRun_accepts input' authority w3 row copy (Store.clock_at (ticks w2)))
    as (v & w4 & Hadmit & Hv); rewrite ?Hid; try done.
  - by apply Hvalid.
  - intros new. apply (scheduled_claim Hsch).
  - by apply (scheduled_not_started Hsch).
  - exists copy, v, w4. split.
    { unfold findRun. rewrite RunStore.read_bind, Hrow. unfold mbind, action_bind, lift.
      by rewrite Hcopy. }
    split; [|split; [|done]].
    + unfold admit_run, AgentRun.snapshot. unfold mbind, action_bind. rewrite Hobserve. exact Hadmit.
    + apply RunHistory.admitQueuedRun_Ok in Hadmit as (? & ? & ? & ? & ? & ? & _ & _ & Hvid & _).
      congruence.
Qed.

End services.

(** * Samples *)

#[local] Existing Instance decimal_number.
#[local] Instance sample_environment : Store.Environment :=
  {| Store.clock_at := λ n, (1000 + Z.of_nat n)%Z; Store.id_at := λ n, "run" +:+ show_Z (Z.of_nat n) |}.

Definition sample_composition : Composition :=
  {| guarded := true; with_pipelines := true; with_outbox := true;
     modelRouting := Routing.unconfigured |}.

Definition sample_request : schedule_input :=
  {| si_projectId := "p1"; si_taskId := "t1"; si_agentId := "a1"; si_actionIntent := None |}.

Definition scheduled_world : world := (schedule sample_composition sample_request RunHistory.sample_world).2.

Lemma sample_tables_ok : tables_ok RunHistory.sample_tables.
Proof.
  constructor; simpl.
  - by intros id t [<- <-]%lookup_singleton_Some.
  - by intros id a [<- <-]%lookup_singleton_Some.
  - by intros id r [<- <-]%lookup_singleton_Some.
  - by intros id p Hp%lookup_empty_Some.
  - intros id. simpl. by rewrite lookup_empty.
Qed.

Lemma scheduled_run_is_admitted_witness :
  tables_ok (db RunHistory.sample_world) ∧
  schedule sample_composition sample_request RunHistory.sample_world = (Ok "run0", scheduled_world) ∧
  ∃ copy v w3, findRun "run0" scheduled_world = (Ok (Some copy), scheduled_world) ∧
    admit_run true (Some "host") copy scheduled_world = (Ok (Some v), w3) ∧ AgentRun.id v = "run0" ∧
    AgentRun.status v = AgentRun.preparing.
Proof.
  assert (schedule sample_composition sample_request RunHistory.sample_world =
    (Ok "run0", scheduled_world)) as Hs.
  { unfold scheduled_world. destruct (schedule _ _ _) as [r w] eqn:Hs.
    assert (r = Ok "run0") as -> by (change r with (r, w).1; rewrite <- Hs; by vm_compute).
    reflexivity. }
  split; [exact sample_tables_ok|]. split; [exact Hs|].
  refine (scheduled_run_is_admitted sample_composition sample_request RunHistory.sample_world "run0"
    scheduled_world scheduled_world (Some "host") sample_tables_ok eq_refl eq_refl Hs eq_refl _ _).
  - intros agent role stored _ _ _ pl s Hpl. by vm_compute in Hpl.
  - by vm_compute.
Defined.

End RunServices.
