(* ===== verification/PipelineServices.v ===== *)
(** The services that start pipeline runs and move them: which definition a run
    freezes, the operator's commands, the completion of a stage by its agent
    run, the authorization of an agent's operations by the current stage, the
    orchestration of a stage and the recovery of suspended pipelines.  Models
    [packages/application/src/pipeline/manage-pipeline-runs.ts],
    [pack-pipeline-definition.ts], [evaluate-pipeline-authorization.ts],
    [orchestrate-pipeline-stage.ts] and [recover-suspended-pipelines.ts].

    What other calls do to the database between a service's reads and its
    transaction is a parameter, [meanwhile]; so are the resolved configuration
    of the project's packs, which comes from the domain-pack component, and the
    collation of the host. *)
From S2P Require Import Prelude Errors TaskModel DependencyGraph PipelineModel Json AgentModel.
From S2P Require Import Store RunStore TaskServices OutboxModel PipelineStore RunServices.
Import Canonical PipelineRun RunStore.

Module PackPipeline.

(** * The resolved configuration, as far as a run's definition reads it *)

Inductive origin := pack_owned | project_owned.
#[global] Instance origin_eq_dec : EqDecision origin.
Proof. solve_decision. Defined.

Record ResolvedStage := {
  ws_id : string;
  ws_roleId : string;
  ws_title : option string;
  ws_objective : option string;
  ws_checks : option (list string)
}.

Record ResolvedWorkflow := {
  wk_workflowId : string;
  wk_origin : origin;
  wk_title : option string;
  wk_description : option string;
  wk_taskTypeId : string;
  wk_additionalTaskTypeIds : option (list string);
  wk_stages : list ResolvedStage
}.

Record PolicyStageClauses := {
  cl_stage : string;
  cl_requiresApproval : bool;
  cl_requiresIndependentApproval : bool;
  cl_requiresDifferentAgentFrom : list string;
  cl_operations : list string
}.

Record ResolvedPolicy := {
  rp_workflowId : string;
  rp_active : bool;
  rp_enforcement : enforcement;
  rp_stages : list PolicyStageClauses
}.

Record ResolvedProjectConfiguration := {
  rc_selectedPacks : list PackIdentity;
  rc_workflows : list ResolvedWorkflow;
  rc_policies : list ResolvedPolicy;
  rc_pin : ConfigurationPin
}.

(** * pack-pipeline-definition.ts *)

Definition slash : Ascii.ascii := Ascii.ascii_of_nat 47.

Fixpoint has_slash (s : string) : bool :=
  match s with
  | EmptyString => false
  | String c s' => bool_decide (c = slash) || has_slash s'
  end.

(** [stableId.slice(stableId.lastIndexOf("/") + 1)] *)
Fixpoint localDefinitionId (stableId : string) : string :=
  match stableId with
  | EmptyString => EmptyString
  | String c s' =>
      if has_slash s' then localDefinitionId s'
      else if bool_decide (c = slash) then s' else stableId
  end.

(** [/^pack:([^/]+)\//.exec(workflowId)?.[1]] *)
Definition pack_owner (workflowId : string) : option string :=
  if starts_with workflowId "pack:" then
    let rest := String.substring 5 (String.length workflowId - 5) workflowId in
    match String.index 0 "/" rest with
    | Some (S n) => Some (String.substring 0 (S n) rest)
    | _ => None
    end
  else None.

Definition isStartable (c : ResolvedProjectConfiguration) (w : ResolvedWorkflow) : bool :=
  match wk_origin w with
  | project_owned => true
  | pack_owned =>
      match pack_owner (wk_workflowId w) with
      | Some owner => existsb (λ p, bool_decide (pack_id p = owner)) (rc_selectedPacks c)
      | None => false
      end
  end.

Definition workflowsWithLocalId (c : ResolvedProjectConfiguration) (localId : string)
    : list ResolvedWorkflow :=
  List.filter (λ w, bool_decide (localDefinitionId (wk_workflowId w) = localId)) (rc_workflows c).

Definition findPackWorkflow (c : ResolvedProjectConfiguration) (localId : string)
    : outcome (option ResolvedWorkflow) :=
  let matches := List.filter (isStartable c) (workflowsWithLocalId c localId) in
  throw_if (1 <? length matches) (PackPipelineUnsupportedError localId
    ("more than one resolved workflow has this local ID " +:+
     "(a manifest pipeline can still be started with --source manifest)"));;
  Ok (head matches).

Definition isDependencyOnlyWorkflow (c : ResolvedProjectConfiguration) (localId : string) : bool :=
  let matches := workflowsWithLocalId c localId in
  (0 <? length matches) && forallb (λ w, negb (isStartable c w)) matches.

Definition activePolicy (c : ResolvedProjectConfiguration) (w : ResolvedWorkflow)
    : outcome (option ResolvedPolicy) :=
  let policies := List.filter (λ p, bool_decide (rp_workflowId p = wk_workflowId w) && rp_active p)
                    (rc_policies c) in
  throw_if (1 <? length policies) (PackPipelineUnsupportedError
    (localDefinitionId (wk_workflowId w)) "more than one active policy governs it");;
  Ok (head policies).

Definition pack_stage (clauses : gmap string PolicyStageClauses) (s : ResolvedStage)
    : OfficePipelineStage :=
  let clause := clauses !! ws_id s in
  {| st_id := ws_id s; st_name := default (ws_id s) (ws_title s);
     st_roleId := localDefinitionId (ws_roleId s); st_objective := default "" (ws_objective s);
     st_checks := default [] (ws_checks s);
     st_requiresApproval := default false (cl_requiresApproval <$> clause);
     st_requiresIndependentApproval :=
       Some (default false (cl_requiresIndependentApproval <$> clause));
     st_capabilities := Some (default [] (cl_operations <$> clause));
     st_requiresDifferentAgentFrom :=
       Some (default [] (cl_requiresDifferentAgentFrom <$> clause)) |}.

Definition packWorkflowPipeline (c : ResolvedProjectConfiguration) (w : ResolvedWorkflow)
    : outcome OfficePipeline :=
  let id := localDefinitionId (wk_workflowId w) in
  policy ← activePolicy c w;
  let clauses := map_of_pairs
    ((λ cl, (cl_stage cl, cl)) <$> default [] (rp_stages <$> policy)) in
  Ok {| pl_id := id; pl_name := default id (wk_title w);
        pl_description := default "" (wk_description w);
        pl_defaultFor := localDefinitionId <$>
          (wk_taskTypeId w :: default [] (wk_additionalTaskTypeIds w));
        pl_enforcement := Some (match policy with
                                | Some p => rp_enforcement p
                                | None => guidance
                                end);
        pl_stages := pack_stage clauses <$> wk_stages w |}.

Example local_ids :
  localDefinitionId "pack:core/workflow/feature" = "feature" ∧ localDefinitionId "feature" = "feature" ∧
  pack_owner "pack:core/workflow/feature" = Some "core" ∧ pack_owner "pack:/x" = None.
Proof. by vm_compute. Qed.

End PackPipeline.

Module Pipelines.
Import PackPipeline.

(** * Principals and composition *)

Record OperatorPrincipal := { op_kind : string; op_source : string; op_id : string }.

Definition localOperatorPrincipal : OperatorPrincipal :=
  {| op_kind := "operator"; op_source := "local_cli"; op_id := "local-operator" |}.

Record AgentExecutionPrincipal := {
  ap_agentRunId : string;
  ap_agentId : string;
  ap_projectId : string;
  ap_taskId : string;
  ap_pipelineRunId : string;
  ap_pipelineStageRunId : string
}.

Inductive PipelinePrincipal :=
| operator (p : OperatorPrincipal)
| agent_execution (p : AgentExecutionPrincipal).

(** [ReadProjectConfiguration], which reads the database. *)
Record ProjectConfiguration := {
  pc_selectsPacks : string → tables → outcome bool;
  pc_readPin : string → tables → outcome ResolvedProjectConfiguration
}.

(** The optional collaborators of [ManagePipelineRuns]. *)
Record Composition := {
  guarded : bool;
  with_outbox : bool;
  configuration : option ProjectConfiguration
}.

Inductive definition_source := from_manifest | from_pack.
#[global] Instance definition_source_eq_dec : EqDecision definition_source.
Proof. solve_decision. Defined.

(** What other calls make of the database before a transaction opens. *)
Class Meanwhile := meanwhile : tables → tables.

Section services.
  Context `{ShowNumber} `{Store.Environment} `{Meanwhile} (c : Composition).

Definition pause : command unit := λ w, (Ok tt, with_tables w (meanwhile (db w))).

Definition require_operator (actor : OperatorPrincipal) : command unit :=
  refuse_if (negb (bool_decide (op_kind actor = "operator") &&
                   bool_decide (op_source actor = "local_cli") &&
                   bool_decide (op_id actor = "local-operator")))
    (PipelineActorUnauthorizedError "administration").

Definition requireRun (runId projectId : string) : command Run :=
  run ← PipelineStore.findById runId projectId;
  match run with
  | Some p => mret p
  | None => mthrow (PipelineRunNotFoundError runId)
  end.

(** A method of the caller's object. *)
Definition on_pipeline {A} (p : Run) (m : method Run A) : command (A * Run) :=
  match m p with
  | (Ok a, p') => mret (a, p')
  | (Throw e, _) => mthrow e
  end.

(** [change]: the operation returns the object it was given, as it left it. *)
Definition change {A} (projectId runId : string) (operation : Run → command A) : command A :=
  RunStore.run (run ← requireRun runId projectId; operation run).

Definition persist (p : Run) (expectedVersion : Z) : command unit :=
  saved ← PipelineStore.save p expectedVersion;
  refuse_if (negb saved) (ConcurrentPipelineTransitionError (PipelineRun.id p)).

Definition actor_id (actor : PipelinePrincipal) : string :=
  match actor with operator p => op_id p | agent_execution p => ap_agentId p end.

Definition event (p : Run) (type : string) (actor : PipelinePrincipal)
    (payload : list (string * cjson)) : command unit :=
  on_base (TaskServices.record_audit_event
    {| TaskServices.ai_eventType := type;
       TaskServices.ai_actorType := match actor with operator _ => Store.cli | _ => Store.system end;
       TaskServices.ai_actorId := Some (actor_id actor);
       TaskServices.ai_aggregateType := Some "pipeline_run";
       TaskServices.ai_aggregateId := Some (PipelineRun.id p);
       TaskServices.ai_projectId := Some (PipelineRun.projectId p);
       TaskServices.ai_payload := Some payload |});;
  mret tt.

Definition label (actorLabel : option string) : list (string * cjson) :=
  match actorLabel with Some l => [("actorLabel", CStr l)] | None => [] end.

(** [snapshot.stages[snapshot.currentStageIndex]!.stageId] *)
Definition stage_id_of (p : Run) : command string :=
  match stages p !! currentStageIndex p with
  | Some s => mret (sr_stageId s)
  | None => mthrow undefined_read
  end.

(** [run.currentStage()!.stageId] *)
Definition current_stage_id (p : Run) : command string :=
  stage ← current_stage p;
  match stage with
  | Some s => mret (sr_stageId s)
  | None => mthrow undefined_read
  end.

Definition stage_intent (p : Run) (s : StageRun) (at_ : date) : Outbox.append_input :=
  {| Outbox.oi_id := "outbox:pipeline:" +:+ PipelineRun.id p +:+ ":" +:+ sr_id s +:+ ":"
                     +:+ show_Z (version p);
     Outbox.oi_projectId := PipelineRun.projectId p; Outbox.oi_jobType := orchestrate_pipeline;
     Outbox.oi_aggregateType := agg_pipeline_run; Outbox.oi_aggregateId := PipelineRun.id p;
     Outbox.oi_pipelineStageRunId := Some (sr_id s);
     Outbox.oi_dedupeKey := "pipeline:" +:+ PipelineRun.id p +:+ ":stage:" +:+ sr_id s +:+ ":v"
                            +:+ show_Z (version p);
     Outbox.oi_payload := [("projectId", CStr (PipelineRun.projectId p));
                           ("pipelineRunId", CStr (PipelineRun.id p));
                           ("pipelineStageRunId", CStr (sr_id s))];
     Outbox.oi_availableAt := at_; Outbox.oi_createdAt := at_ |}.

Definition enqueueCurrentStage (p : Run) : command unit :=
  stage ← current_stage p;
  match stage with
  | Some s =>
      if with_outbox c && stage_is_active s then
        at_ ← now;
        Outbox.append (stage_intent p s at_);; mret tt
      else mret tt
  | None => mret tt
  end.

Definition syncTaskTerminal (p : Run) : command unit :=
  match status p with
  | run_active => mret tt
  | st =>
      found ← on_base (Store.find_task (taskId p));
      task ← (match found with
              | Some t => if bool_decide (Task.projectId t = PipelineRun.projectId p) then mret t
                          else mthrow (TaskNotFoundError (taskId p))
              | None => mthrow (TaskNotFoundError (taskId p))
              end);
      moved ← (match st with
        | run_completed =>
            (if guarded c then
               on_base (TaskServices.assertTaskPrerequisitesComplete (PipelineRun.projectId p)
                          (taskId p) Dependency.at_completion)
             else mret tt);;
            at_ ← now; on_base (TaskServices.on_task task (Task.complete at_))
        | _ => at_ ← now; on_base (TaskServices.on_task task (Task.cancel at_))
        end);
      on_base (Store.save_task moved)
  end.

Definition afterAdvance (p before : Run) (actor : PipelinePrincipal) : command unit :=
  from ← stage_id_of before;
  event p "pipeline.stage_completed" actor [("stageId", CStr from)];;
  match status p with
  | run_completed => event p "pipeline.completed" actor []
  | _ => to ← stage_id_of p; event p "pipeline.stage_activated" actor [("stageId", CStr to)]
  end;;
  match status p with
  | run_active => enqueueCurrentStage p
  | _ => mret tt
  end.

(** * ManagePipelineRuns *)

(** [ORDER BY revision DESC LIMIT 1] *)
Definition findLatest (projectId : string) : command (option OfficeManifestRevision) :=
  read (λ d, head (sort_by (λ a b, (rv_revision b - rv_revision a)%Z)
    (filter (λ r, rv_projectId r = projectId) (manifests d)))).

(** [readActiveConfiguration]: only a project that selected a pack has one. *)
Definition readActiveConfiguration (projectId : string)
    : command (option ResolvedProjectConfiguration) :=
  match configuration c with
  | None => mret None
  | Some source =>
      answer ← read (pc_readPin source projectId);
      found ← lift answer;
      mret (if length (rc_selectedPacks found) =? 0 then None else Some found)
  end.

(** The definition a run freezes; with it the workflow, when it is a pack's. *)
Definition selected := (OfficePipeline * option string)%type.

Definition select_manifest (projectId pipelineId : string) (source : option definition_source)
    (found : option ResolvedProjectConfiguration) (manifestDefinition : option OfficePipeline)
    : outcome selected :=
  throw_if (match manifestDefinition, found with
            | None, Some cfg => negb (bool_decide (source = Some from_manifest)) &&
                                isDependencyOnlyWorkflow cfg pipelineId
            | _, _ => false
            end)
    (PackPipelineUnsupportedError pipelineId
       "it belongs to a dependency pack the project did not select");;
  match manifestDefinition with
  | None => Throw (OfficePipelineNotFoundError projectId pipelineId)
  | Some def =>
      throw_if (negb (bool_decide (pl_enforcement def = Some enforced)))
        (PipelineDefinitionNotEnforcedError (pl_id def));;
      Ok (def, None)
  end.

Definition missing_roles (known : list string) (def : OfficePipeline) : list string :=
  unique (List.filter (λ r, negb (includes r known)) (st_roleId <$> pl_stages def)).

Definition select_pack (projectId : string) (cfg : ResolvedProjectConfiguration)
    (workflow : ResolvedWorkflow) : command selected :=
  def ← lift (packWorkflowPipeline cfg workflow);
  refuse_if (negb (bool_decide (pl_enforcement def = Some enforced)))
    (PipelineDefinitionNotEnforcedError (pl_id def));;
  refuse_if (length (pl_stages def) =? 0)
    (PackPipelineUnsupportedError (pl_id def) "it has no stages");;
  known ← listRoles projectId;
  let missing := missing_roles (Role.key <$> known) def in
  refuse_if (0 <? length missing)
    (PipelineRoleUnavailableError (localDefinitionId (wk_workflowId workflow)) missing);;
  mret (def, Some (wk_workflowId workflow)).

Definition selectDefinition (projectId pipelineId : string) (source : option definition_source)
    (found : option ResolvedProjectConfiguration) (manifestDefinition : option OfficePipeline)
    : command selected :=
  workflow ← lift (match found with
                   | Some cfg => if bool_decide (source = Some from_manifest) then Ok None
                                 else findPackWorkflow cfg pipelineId
                   | None => Ok None
                   end);
  let manifestDefinition :=
    if bool_decide (source = Some from_pack) then None else manifestDefinition in
  match found, workflow with
  | Some cfg, Some wk =>
      match manifestDefinition with
      | Some _ => mthrow (PipelineDefinitionAmbiguousError pipelineId)
      | None => select_pack projectId cfg wk
      end
  | _, _ => lift (select_manifest projectId pipelineId source found manifestDefinition)
  end.

Record start_input := {
  si_projectId : string;
  si_taskId : string;
  si_pipelineId : string;
  si_source : option definition_source;
  si_principal : OperatorPrincipal;
  si_actorLabel : option string
}.

Definition check_prerequisites := RunServices.check_prerequisites.

(** The task of the project, which is read once. *)
Definition require_task (projectId taskId : string) : command Task.TaskProps :=
  found ← on_base (Store.find_task taskId);
  match found with
  | Some t => if bool_decide (Task.projectId t = projectId) then mret t
              else mthrow (TaskNotFoundError taskId)
  | None => mthrow (TaskNotFoundError taskId)
  end.

Definition selects_packs (projectId : string) : command bool :=
  match configuration c with
  | None => mret false
  | Some source => answer ← read (pc_selectsPacks source projectId); lift answer
  end.

(** What [start] decides before its transaction: the task, the revision and its
    pipeline of that name. *)
Definition start_checks (input : start_input)
    : command (Task.TaskProps * OfficeManifestRevision * option OfficePipeline) :=
  require_operator (si_principal input);;
  task ← require_task (si_projectId input) (si_taskId input);
  check_prerequisites (guarded c) (si_projectId input) (si_taskId input);;
  running ← findActiveByTask (si_taskId input) (si_projectId input);
  refuse_if (bool_decide (running ≠ None)) (ActivePipelineRunExistsError (si_taskId input));;
  latest ← findLatest (si_projectId input);
  revision ← (match latest with
              | Some r => mret r
              | None => mthrow (OfficeManifestNotFoundError (si_projectId input))
              end);
  let manifestDefinition :=
    List.find (λ p, bool_decide (pl_id p = si_pipelineId input))
      (om_pipelines (rv_manifest revision)) in
  packs ← (if bool_decide (si_source input = Some from_pack) then mret true
           else selects_packs (si_projectId input));
  (if negb packs then
     match manifestDefinition with
     | None => mthrow (OfficePipelineNotFoundError (si_projectId input) (si_pipelineId input))
     | Some def => refuse_if (negb (bool_decide (pl_enforcement def = Some enforced)))
                     (PipelineDefinitionNotEnforcedError (pl_id def))
     end
   else mret tt);;
  mret (task, revision, manifestDefinition).

Fixpoint generate_all (n : nat) : command (list string) :=
  match n with
  | 0 => mret []
  | S n => i ← generate; l ← generate_all n; mret (i :: l)
  end.

Definition started_payload (input : start_input) (revision : OfficeManifestRevision)
    (choice : selected) : list (string * cjson) :=
  [("taskId", CStr (si_taskId input)); ("pipelineId", CStr (pl_id choice.1));
   ("manifestRevision", CNum (NInt (rv_revision revision)))] ++
  match choice.2 with
  | Some workflowId => [("definitionSource", CStr "pack"); ("workflowId", CStr workflowId)]
  | None => []
  end ++ label (si_actorLabel input).

(** The body of [start]'s transaction; [task] and [revision] are the objects
    read before it opened. *)
Definition start_body (input : start_input) (task : Task.TaskProps)
    (revision : OfficeManifestRevision) (manifestDefinition : option OfficePipeline)
    : command Run :=
  let actor := operator (si_principal input) in
  check_prerequisites (guarded c) (si_projectId input) (si_taskId input);;
  at_ ← now;
  found ← readActiveConfiguration (si_projectId input);
  choice ← selectDefinition (si_projectId input) (si_pipelineId input) (si_source input)
             found manifestDefinition;
  stageRunIds ← generate_all (length (pl_stages choice.1));
  runId ← generate;
  p ← lift (create
    {| in_id := runId; in_projectId := si_projectId input; in_taskId := si_taskId input;
       in_manifestRevisionId := rv_id revision; in_manifestRevision := rv_revision revision;
       in_definition := choice.1; in_startedBy := op_id (si_principal input);
       in_stageRunIds := stageRunIds; in_configurationPin := rc_pin <$> found; in_now := at_ |});
  started ← on_base (TaskServices.on_task task (Task.start at_));
  on_base (Store.save_task started);;
  PipelineStore.insert p;;
  event p "pipeline.started" actor (started_payload input revision choice);;
  first ← current_stage_id p;
  event p "pipeline.stage_activated" actor [("stageId", CStr first)];;
  enqueueCurrentStage p;;
  mret p.

Definition start (input : start_input) : command Run :=
  read_before ← start_checks input;
  pause;;
  RunStore.run (start_body input read_before.1.1 read_before.1.2 read_before.2).

Record command_input := {
  ci_projectId : string;
  ci_pipelineRunId : string;
  ci_principal : OperatorPrincipal;
  ci_actorLabel : option string
}.

Definition on_command {A} (input : command_input) (operation : Run → command A) : command A :=
  change (ci_projectId input) (ci_pipelineRunId input) operation.

Definition assign_body (input : command_input) (agentId roleKey : string) (p : Run)
    : command Run :=
  at_ ← now;
  moved ← on_pipeline p (PipelineRun.assign agentId roleKey at_);
  persist moved.2 (version p);;
  stage ← current_stage_id moved.2;
  event moved.2 "pipeline.agent_assigned" (operator (ci_principal input))
    ([("stageId", CStr stage); ("agentId", CStr agentId)] ++ label (ci_actorLabel input));;
  mret moved.2.

Definition assign (input : command_input) (agentId : string) : command Run :=
  require_operator (ci_principal input);;
  agent ← RunServices.require_agent (ci_projectId input) agentId;
  found ← findRole (ag_roleId agent) (ci_projectId input);
  role ← (match found with
          | Some r => mret r
          | None => mthrow (AgentNotFoundError agentId)
          end);
  pause;;
  on_command input (assign_body input agentId (Role.key role)).

Definition text_field (name : string) (value : option string) : list (string * cjson) :=
  match value with Some v => [(name, CStr v)] | None => [] end.

Definition approve_body (input : command_input) (rationale : option string) (p : Run)
    : command Run :=
  let actor := operator (ci_principal input) in
  at_ ← now;
  moved ← on_pipeline p (PipelineRun.approveStage (op_id (ci_principal input)) rationale at_);
  persist moved.2 (version p);;
  syncTaskTerminal moved.2;;
  stage ← stage_id_of p;
  event moved.2 "pipeline.approval_granted" actor
    ([("stageId", CStr stage)] ++ label (ci_actorLabel input) ++ text_field "rationale" rationale);;
  afterAdvance moved.2 p actor;;
  mret moved.2.

Definition approveStage (input : command_input) (rationale : option string) : command Run :=
  require_operator (ci_principal input);;
  on_command input (approve_body input rationale).

Definition reject_body (input : command_input) (rationale : string) (p : Run) : command Run :=
  let actor := operator (ci_principal input) in
  at_ ← now;
  moved ← on_pipeline p (PipelineRun.rejectStage (op_id (ci_principal input)) rationale at_);
  persist moved.2 (version p);;
  syncTaskTerminal moved.2;;
  stage ← stage_id_of p;
  event moved.2 "pipeline.approval_rejected" actor
    ([("stageId", CStr stage); ("rationale", CStr rationale)] ++ label (ci_actorLabel input));;
  event moved.2 "pipeline.cancelled" actor [("reason", CStr "approval_rejected")];;
  mret moved.2.

Definition rejectStage (input : command_input) (rationale : string) : command Run :=
  require_operator (ci_principal input);;
  on_command input (reject_body input rationale).

Definition override_body (input : command_input) (reason : string) (p : Run)
    : command (Run * OverrideRecord) :=
  let actor := operator (ci_principal input) in
  oid ← generate;
  at_ ← now;
  moved ← on_pipeline p
            (PipelineRun.overrideCurrent oid (op_id (ci_principal input)) reason at_);
  let result : OverrideRecord := moved.1 in
  persist moved.2 (version p);;
  syncTaskTerminal moved.2;;
  PipelineStore.appendOverride result;;
  stage ← stage_id_of p;
  event moved.2 "pipeline.override_issued" actor
    ([("stageId", CStr stage); ("reason", CStr (ov_reason result));
      ("previousRule", CStr (ov_previousRule result));
      ("resultingAuthorization", CStr (ov_resultingAuthorization result))] ++
     label (ci_actorLabel input));;
  afterAdvance moved.2 p actor;;
  mret (moved.2, result).

Definition override (input : command_input) (reason : string) : command (Run * OverrideRecord) :=
  require_operator (ci_principal input);;
  on_command input (override_body input reason).

Definition cancel_body (input : command_input) (p : Run) : command Run :=
  at_ ← now;
  moved ← on_pipeline p (PipelineRun.cancel (op_id (ci_principal input)) at_);
  persist moved.2 (version p);;
  syncTaskTerminal moved.2;;
  event moved.2 "pipeline.cancelled" (operator (ci_principal input)) (label (ci_actorLabel input));;
  mret moved.2.

Definition cancel (input : command_input) : command Run :=
  require_operator (ci_principal input);;
  on_command input (cancel_body input).

Definition show (projectId pipelineRunId : string) : command Run :=
  requireRun pipelineRunId projectId.

Definition list_runs (projectId : string) : command (list Run) :=
  PipelineStore.listByProject projectId.

(** ** The completion of a stage by its agent run *)

Inductive resumption_trigger := task_completion | tick | orchestration_replay.

Definition trigger_name (t : resumption_trigger) : string :=
  match t with
  | task_completion => "task_completion" | tick => "tick"
  | orchestration_replay => "orchestration_replay"
  end.

Record PipelineResumption := { pr_trigger : resumption_trigger; pr_triggerTaskId : option string }.

Record completion_input := {
  co_projectId : string;
  co_agentRunId : string;
  co_expectedPipelineRunId : option string;
  co_resumption : option PipelineResumption
}.

Definition unauthorized : error := PipelineActorUnauthorizedError "stage completion".

(** The principal an agent run acts as: it is bound to a stage, to the expected
    pipeline when one is named, and its work is accepted or being reviewed. *)
Definition completing_run (input : completion_input) (found : option AgentRun.Props)
    : outcome AgentExecutionPrincipal :=
  match found with
  | None => Throw unauthorized
  | Some r =>
      match AgentRun.pipelineRunId r, AgentRun.pipelineStageRunId r with
      | Some pid, Some sid =>
          throw_if (negb (bool_decide (AgentRun.projectId r = co_projectId input))) unauthorized;;
          throw_if (negb (match co_expectedPipelineRunId input with
                          | Some e => bool_decide (e = pid)
                          | None => true
                          end)) unauthorized;;
          throw_if (negb (match AgentRun.status r with
                          | AgentRun.completed | AgentRun.running | AgentRun.reviewing => true
                          | _ => false
                          end)) unauthorized;;
          Ok {| ap_agentRunId := AgentRun.id r; ap_agentId := AgentRun.agentId r;
                ap_projectId := AgentRun.projectId r; ap_taskId := AgentRun.taskId r;
                ap_pipelineRunId := pid; ap_pipelineStageRunId := sid |}
      | _, _ => Throw unauthorized
      end
  end.

(** The stage is the run's, active, assigned to its agent, and the agent still
    has the role the stage asks for. *)
Definition stage_of_principal (input : completion_input) (who : AgentExecutionPrincipal) (p : Run)
    : command StageRun :=
  current ← current_stage p;
  stage ← (match current with
           | Some s =>
               if bool_decide (taskId p = ap_taskId who) &&
                  bool_decide (sr_id s = ap_pipelineStageRunId who) then mret s
               else mthrow unauthorized
           | None => mthrow unauthorized
           end);
  agent ← findAgent (ap_agentId who);
  role ← (match agent with
          | Some a => findRole (ag_roleId a) (co_projectId input)
          | None => mret None
          end);
  match agent, role with
  | Some a, Some r =>
      if bool_decide (ag_projectId a = co_projectId input) &&
         bool_decide (Role.key r = sr_roleId stage) && stage_is_active stage &&
         bool_decide (sr_assignedAgentId stage = Some (ap_agentId who))
      then mret stage else mthrow unauthorized
  | _, _ => mthrow unauthorized
  end.

Definition resumption_event (input : completion_input) (who : AgentExecutionPrincipal)
    (p moved : Run) : command unit :=
  match co_resumption input with
  | None => mret tt
  | Some r =>
      edges ← (if guarded c then on_base (Store.list_dependencies (co_projectId input))
               else mret []);
      stage ← stage_id_of p;
      event moved "pipeline.resumed" (agent_execution who)
        ([("stageId", CStr stage); ("agentRunId", CStr (ap_agentRunId who));
          ("trigger", CStr (trigger_name (pr_trigger r)))] ++
         text_field "triggerTaskId" (pr_triggerTaskId r) ++
         [("prerequisiteTaskIds",
           CArr (CStr <$> sort_by compare_text (TaskServices.prerequisites_of (taskId p) edges)))])
  end.

Definition awaits_approval (p : Run) : command bool :=
  stage ← current_stage p;
  mret (match stage with
        | Some s => bool_decide (sr_status s = stage_awaiting_approval)
        | None => false
        end).

Definition complete_body (input : completion_input) (who : AgentExecutionPrincipal) (p : Run)
    : command Run :=
  let actor := agent_execution who in
  stage_of_principal input who p;;
  at_ ← now;
  moved ← on_pipeline p (PipelineRun.completeStage (ap_agentId who) at_);
  let after := moved.2 in
  persist after (version p);;
  syncTaskTerminal after;;
  resumption_event input who p after;;
  waiting ← awaits_approval after;
  from ← stage_id_of p;
  event after (if waiting : bool then "pipeline.approval_requested" else "pipeline.stage_completed")
    actor [("stageId", CStr from)];;
  let advanced := negb (currentStageIndex after =? currentStageIndex p) in
  (match status after with
   | run_completed => event after "pipeline.completed" actor []
   | _ => if advanced then
            to ← stage_id_of after; event after "pipeline.stage_activated" actor [("stageId", CStr to)]
          else mret tt
   end);;
  (if run_is_active after && advanced then enqueueCurrentStage after else mret tt);;
  mret after.

Definition completeStageFromAgentRun (input : completion_input) : command Run :=
  found ← findRun (co_agentRunId input);
  who ← lift (completing_run input found);
  pause;;
  change (co_projectId input) (ap_pipelineRunId who) (complete_body input who).

(** ** The requests that move a run, as values *)

Inductive pipeline_request :=
| RAssign (input : command_input) (agentId : string)
| RComplete (input : completion_input)
| RApprove (input : command_input) (rationale : option string)
| RReject (input : command_input) (rationale : string)
| ROverride (input : command_input) (reason : string)
| RCancel (input : command_input).

Definition serve (r : pipeline_request) : command Run :=
  match r with
  | RAssign input agentId => assign input agentId
  | RComplete input => completeStageFromAgentRun input
  | RApprove input rationale => approveStage input rationale
  | RReject input rationale => rejectStage input rationale
  | ROverride input reason => result ← override input reason; mret result.1
  | RCancel input => cancel input
  end.

End services.

End Pipelines.

Module Authorization.

Inductive PipelineAuthorizationReason :=
| pipeline_run_required | pipeline_stage_not_active | pipeline_capability_denied
| pipeline_prerequisite_incomplete | pipeline_agent_not_assigned | pipeline_approval_required.

#[global] Instance reason_eq_dec : EqDecision PipelineAuthorizationReason.
Proof. solve_decision. Defined.

Inductive verdict := allow | deny.
#[global] Instance verdict_eq_dec : EqDecision verdict.
Proof. solve_decision. Defined.

Record PipelineAuthorizationDecision := {
  de_decision : verdict;
  de_reasons : list PipelineAuthorizationReason;
  de_pipelineRunId : option string;
  de_pipelineStageRunId : option string;
  de_pipelineStageId : option string
}.

Record authorization_input := {
  az_projectId : string;
  az_agentId : string;
  az_operation : string;
  az_pipelineRunId : option string
}.

Definition allowed : PipelineAuthorizationDecision :=
  {| de_decision := allow; de_reasons := []; de_pipelineRunId := None;
     de_pipelineStageRunId := None; de_pipelineStageId := None |}.

Definition denied (reason : PipelineAuthorizationReason) (runId : option string)
    : PipelineAuthorizationDecision :=
  {| de_decision := deny; de_reasons := [reason]; de_pipelineRunId := runId;
     de_pipelineStageRunId := None; de_pipelineStageId := None |}.

(** [{ decision, reasons, ...context }] *)
Definition in_context (p : Run) (stage : StageRun) (v : verdict)
    (reasons : list PipelineAuthorizationReason) : PipelineAuthorizationDecision :=
  {| de_decision := v; de_reasons := reasons; de_pipelineRunId := Some (PipelineRun.id p);
     de_pipelineStageRunId := Some (sr_id stage); de_pipelineStageId := Some (sr_stageId stage) |}.

Definition grants (operation : string) (d : OfficePipelineStage) : bool :=
  includes operation (default [] (st_capabilities d)).

Definition stage_decision (input : authorization_input) (p : Run) (stage : StageRun)
    : outcome PipelineAuthorizationDecision :=
  match sr_status stage with
  | stage_awaiting_approval => Ok (in_context p stage deny [pipeline_approval_required])
  | stage_active =>
      if negb (bool_decide (sr_assignedAgentId stage = Some (az_agentId input))) then
        Ok (in_context p stage deny [pipeline_agent_not_assigned])
      else
        match pl_stages (definition p) !! sr_stageIndex stage with
        | None => Throw undefined_read
        | Some d =>
            if negb (grants (az_operation input) d) then
              Ok (in_context p stage deny
                [if existsb (grants (az_operation input))
                      (drop (S (sr_stageIndex stage)) (pl_stages (definition p)))
                 then pipeline_prerequisite_incomplete else pipeline_capability_denied])
            else Ok (in_context p stage allow [])
        end
  | _ => Ok (in_context p stage deny [pipeline_stage_not_active])
  end.

Definition evaluate (input : authorization_input) : command PipelineAuthorizationDecision :=
  match az_pipelineRunId input with
  | None => mret allowed
  | Some runId =>
      found ← PipelineStore.findById runId (az_projectId input);
      match found with
      | None => mret (denied pipeline_stage_not_active None)
      | Some p =>
          if negb (run_is_active p) then mret (denied pipeline_stage_not_active (Some runId))
          else
            stage ← current_stage p;
            match stage with
            | None => mret (denied pipeline_stage_not_active (Some (PipelineRun.id p)))
            | Some s => lift (stage_decision input p s)
            end
      end
  end.

End Authorization.

Module Orchestration.
Import Pipelines.

(** [error.message.includes("task has incomplete prerequisites")] *)
Definition isPrerequisiteRefusal (e : error) : bool :=
  match e with
  | TaskPrerequisiteIncompleteError _ _ _ => true
  | _ => bool_decide (is_Some (String.index 0 "task has incomplete prerequisites" (error_message e)))
  end.

(** A transition that lost to another one. *)
Definition isSuperseded (e : error) : bool :=
  match e with
  | ConcurrentPipelineTransitionError _ | PipelineActorUnauthorizedError _ => true
  | _ => false
  end.

(** [left.localeCompare(right)] *)
Class Collation := locale_compare : string → string → Z.

Section services.
  Context `{ShowNumber} `{Store.Environment} `{Meanwhile} `{Collation}.
  Context (c : Composition) (sc : RunServices.Composition).

(** ** OrchestratePipelineStage *)

Definition bound_to (p : Run) (stage : StageRun) (r : AgentRun.Props) : bool :=
  bool_decide (AgentRun.pipelineRunId r = Some (PipelineRun.id p)) &&
  bool_decide (AgentRun.pipelineStageRunId r = Some (sr_id stage)).

Definition is_open_run (r : AgentRun.Props) : bool :=
  match AgentRun.status r with
  | AgentRun.queued | AgentRun.preparing | AgentRun.running | AgentRun.reviewing => true
  | _ => false
  end.

Definition has_status (s : AgentRun.AgentRunStatus) (r : AgentRun.Props) : bool :=
  bool_decide (AgentRun.status r = s).

(** The agents the stage keeps apart from [agentId]'s. *)
Definition kept_apart (p : Run) (stage : StageRun) (agentId : string) : bool :=
  existsb (λ predecessorId,
      bool_decide (find_stage (stages p) predecessorId ≫= sr_assignedAgentId = Some agentId))
    (default [] (pl_stages (definition p) !! sr_stageIndex stage ≫= st_requiresDifferentAgentFrom)).

Fixpoint eligible_agents (projectId : string) (p : Run) (stage : StageRun) (l : list Agent)
    : command (list Agent) :=
  match l with
  | [] => mret []
  | a :: l =>
      fits ← (if ag_enabled a then
                role ← findRole (ag_roleId a) projectId;
                mret (bool_decide (Role.key <$> role = Some (sr_roleId stage)) &&
                      negb (kept_apart p stage (ag_id a)))
              else mret false);
      rest ← eligible_agents projectId p stage l;
      mret (if fits : bool then a :: rest else rest)
  end.

Definition by_id (a b : Agent) : Z := locale_compare (ag_id a) (ag_id b).

Record stage_job := {
  sj_projectId : string;
  sj_pipelineRunId : string;
  sj_pipelineStageRunId : string
}.

(** [try { ... } catch (error) { if (...) return null; throw error; }] *)
Definition replay_completion (input : stage_job) (p : Run) (done : AgentRun.Props)
    : command unit := λ w,
  match completeStageFromAgentRun c
          {| co_projectId := sj_projectId input; co_agentRunId := AgentRun.id done;
             co_expectedPipelineRunId := Some (PipelineRun.id p);
             co_resumption := Some {| pr_trigger := orchestration_replay;
                                      pr_triggerTaskId := None |} |} w with
  | (Ok _, w') => (Ok tt, w')
  | (Throw e, w') =>
      if isPrerequisiteRefusal e || isSuperseded e then (Ok tt, w') else (Throw e, w')
  end.

Definition choose_agent (input : stage_job) (p : Run) (stage : StageRun) : command string :=
  match sr_assignedAgentId stage with
  | Some agentId => mret agentId
  | None =>
      all ← listAgents (sj_projectId input);
      candidates ← eligible_agents (sj_projectId input) p stage all;
      match sort_by by_id candidates with
      | [] => mthrow (PipelineStageOrchestrationError
                ("No enabled agent is eligible for role " +:+ sr_roleId stage))
      | a :: _ =>
          assign {| ci_projectId := sj_projectId input; ci_pipelineRunId := PipelineRun.id p;
                    ci_principal := localOperatorPrincipal;
                    ci_actorLabel := Some "queue-orchestrator" |} (ag_id a);;
          mret (ag_id a)
      end
  end.

Definition start_stage (input : stage_job) (p : Run) (stage : StageRun)
    : command (option string) :=
  agentId ← choose_agent input p stage;
  task ← on_base (Store.find_task (taskId p));
  refuse_if (match task with
             | Some t => negb (bool_decide (Task.projectId t = sj_projectId input))
             | None => true
             end) (PipelineStageOrchestrationError "Pipeline task is unavailable");;
  run ← RunServices.schedule sc
    {| RunServices.si_projectId := sj_projectId input; RunServices.si_taskId := taskId p;
       RunServices.si_agentId := agentId; RunServices.si_actionIntent := None |};
  mret (Some run).

(** The run that is open for the stage, the repair of a completed one, or a
    new one. *)
Definition settle_stage (input : stage_job) (p : Run) (stage : StageRun)
    (boundRuns : list AgentRun.Props) : command (option string) :=
  match List.find is_open_run boundRuns with
  | Some existing => mret (Some (AgentRun.id existing))
  | None =>
      match List.find (has_status AgentRun.completed) boundRuns with
      | Some done =>
          refuse_if (negb (bool_decide (sr_assignedAgentId stage = Some (AgentRun.agentId done))))
            (PipelineStageOrchestrationError
               "Completed AgentRun cannot reconcile the assigned pipeline stage");;
          replay_completion input p done;;
          mret None
      | None =>
          if existsb (λ r, has_status AgentRun.failed r || has_status AgentRun.cancelled r)
               boundRuns
          then mret None
          else start_stage input p stage
      end
  end.

Definition orchestrate (input : stage_job) : command (option string) :=
  found ← PipelineStore.findById (sj_pipelineRunId input) (sj_projectId input);
  match found with
  | None => mthrow (PipelineStageOrchestrationError "Pipeline run not found")
  | Some p =>
      current ← current_stage p;
      match current with
      | Some stage =>
          if run_is_active p && stage_is_active stage &&
             bool_decide (sr_id stage = sj_pipelineStageRunId input) then
            all ← listRuns (sj_projectId input);
            settle_stage input p stage (List.filter (bound_to p stage) all)
          else mret None
      | None => mret None
      end
  end.

(** ** RecoverSuspendedPipelines *)

Inductive PipelineRecoveryOutcome := resumed | awaiting_prerequisites | superseded.

Record SuspendedStageCandidate := {
  sc_pipelineRunId : string;
  sc_pipelineStageRunId : string;
  sc_agentRunId : string;
  sc_taskId : string
}.

(** The first completed run of each stage. *)
Definition completedRunByStage (agentRuns : list AgentRun.Props) : gmap string string :=
  foldl (λ m r,
    match AgentRun.pipelineStageRunId r with
    | Some s =>
        if has_status AgentRun.completed r && bool_decide (m !! s = None)
        then <[s := AgentRun.id r]> m else m
    | None => m
    end) ∅ agentRuns.

Definition candidate (completed : gmap string string) (p : Run)
    : outcome (list SuspendedStageCandidate) :=
  if negb (run_is_active p) then Ok []
  else
    current ← (PipelineRun.currentStage p).1;
    Ok (match current with
        | Some s =>
            if stage_is_active s then
              match completed !! sr_id s with
              | Some r => [{| sc_pipelineRunId := PipelineRun.id p; sc_pipelineStageRunId := sr_id s;
                              sc_agentRunId := r; sc_taskId := taskId p |}]
              | None => []
              end
            else []
        | None => []
        end).

Definition findSuspendedStageCandidates (l : list Run) (agentRuns : list AgentRun.Props)
    : outcome (list SuspendedStageCandidate) :=
  found ← map_result (candidate (completedRunByStage agentRuns)) l;
  Ok (sort_by (λ a b, locale_compare (sc_pipelineRunId a) (sc_pipelineRunId b)) (concat found)).

Record recovery_input := {
  rc_projectId : string;
  rc_trigger : resumption_trigger;
  rc_triggerTaskId : option string
}.

(** The database as the scan read it. *)
Record scan := {
  sn_tasks : list Task.TaskProps;
  sn_edges : list Dependency.edge
}.

Definition resume (input : recovery_input) (s : SuspendedStageCandidate)
    : command PipelineRecoveryOutcome := λ w,
  match completeStageFromAgentRun c
          {| co_projectId := rc_projectId input; co_agentRunId := sc_agentRunId s;
             co_expectedPipelineRunId := Some (sc_pipelineRunId s);
             co_resumption := Some {| pr_trigger := rc_trigger input;
                                      pr_triggerTaskId := rc_triggerTaskId input |} |} w with
  | (Ok _, w') => (Ok resumed, w')
  | (Throw e, w') =>
      if isPrerequisiteRefusal e then (Ok awaiting_prerequisites, w')
      else if isSuperseded e then (Ok superseded, w')
      else (Throw e, w')
  end.

Definition is_terminal_in (l : list Task.TaskProps) (taskId : string) : bool :=
  existsb (λ t, bool_decide (Task.id t = taskId) && Task.isTerminalTaskStatus (Task.status t)) l.

Definition recover_one (input : recovery_input) (seen : scan) (s : SuspendedStageCandidate)
    : command PipelineRecoveryOutcome :=
  if is_terminal_in (sn_tasks seen) (sc_taskId s) then mret superseded
  else
    blockedBy ← lift (Dependency.blockingPrerequisites
      (TaskServices.prerequisites_of (sc_taskId s) (sn_edges seen))
      (TaskServices.statuses_of (sn_tasks seen)) Dependency.at_completion);
    if 0 <? length blockedBy then mret awaiting_prerequisites else resume input s.

Fixpoint recover_all (input : recovery_input) (seen : scan) (l : list SuspendedStageCandidate)
    : command (list (SuspendedStageCandidate * PipelineRecoveryOutcome)) :=
  match l with
  | [] => mret []
  | s :: l =>
      o ← recover_one input seen s;
      rest ← recover_all input seen l;
      mret ((s, o) :: rest)
  end.

Definition recover (input : recovery_input)
    : command (list (SuspendedStageCandidate * PipelineRecoveryOutcome)) :=
  all ← PipelineStore.listByProject (rc_projectId input);
  agentRuns ← listRuns (rc_projectId input);
  allTasks ← on_base (Store.list_tasks (rc_projectId input));
  edges ← (if guarded c then on_base (Store.list_dependencies (rc_projectId input)) else mret []);
  candidates ← lift (findSuspendedStageCandidates all agentRuns);
  recover_all input {| sn_tasks := allTasks; sn_edges := edges |} candidates.

End services.

End Orchestration.
