(* ===== verification/RunRecovery.v ===== *)
(** Cancellation of agent runs and recovery of interrupted ones.  Models
    [packages/application/src/commands/manage-agent-runs.ts] and
    [packages/application/src/runtime/run-execution-control.ts].

    The database is that of [ActionStore], which holds the runs as well.  What
    runs are live is a map in the memory of the host: no transaction protects
    it.  So at every [await] outside a transaction the others may do anything to
    the database and the map, and inside one anything to the map. *)
From S2P Require Import Prelude Errors TaskModel Json ActionModel PolicyModel Dates AgentModel Store RunStore ActionStore TaskServices PipelineServices.
Import Canonical Policy Provenance Dates RunStore.

Module RunRecovery.

(** * RunExecutionControl *)

(** For each live run its task and whether its signal is aborted. *)
Record Control := { live : gmap string (string * bool); stopping : bool }.

Definition set_live (f : gmap string (string * bool) → gmap string (string * bool)) (c : Control)
    : Control := {| live := f (live c); stopping := stopping c |}.

(** [true] stands for the signal of the new controller, [false] for [null]. *)
Definition reserve (runId taskId : string) : method Control bool :=
  c ← get;
  refuse_if (stopping c) (DomainValidationError "Runtime is stopping");;
  if bool_decide (is_Some (live c !! runId)) then mret false
  else
    modify (set_live <[runId := (taskId, false)]>);;
    mret true.

Definition has (runId : string) (c : Control) : bool := bool_decide (is_Some (live c !! runId)).

Definition cancellationRequested (runId : string) (c : Control) : bool :=
  match live c !! runId with Some (_, aborted) => aborted | None => false end.

Definition cancel_live (runId : string) (c : Control) : bool * Control :=
  match live c !! runId with
  | None => (false, c)
  | Some (taskId, _) => (true, set_live <[runId := (taskId, true)]> c)
  end.

Definition release (runId : string) (c : Control) : Control := set_live (delete runId) c.

Definition stop (c : Control) : Control :=
  {| live := (λ v, (v.1, true)) <$> live c; stopping := true |}.

(** * Reports *)

Inductive classification := ambiguous | live_run | terminal | terminal_cleanup | queued | orphaned.

#[global] Instance classification_eq_dec : EqDecision classification.
Proof. solve_decision. Defined.

Definition classification_name (c : classification) : string :=
  match c with
  | ambiguous => "ambiguous" | live_run => "live" | terminal => "terminal"
  | terminal_cleanup => "terminal_cleanup" | queued => "queued" | orphaned => "orphaned"
  end.

Definition execution_status_name (s : ActionExecution.ActionExecutionStatus) : string :=
  match s with
  | ActionExecution.executing => "executing" | ActionExecution.completed => "completed"
  | ActionExecution.failed => "failed" | ActionExecution.execution_unknown => "execution_unknown"
  end.

(** An entry of [actions]. *)
Record ActionReport := {
  ap_id : string;
  ap_status : ActionRequest.ActionStatus;
  ap_payloadHash : string;
  ap_executionStatus : option ActionExecution.ActionExecutionStatus
}.

Record LockReport := { lr_runId : string; lr_expiresAt : string }.

Record Evidence := {
  ev_projectId : string;
  ev_runId : string;
  ev_taskId : string;
  ev_recordedStatus : AgentRun.AgentRunStatus;
  ev_updatedAt : string;
  ev_ownerId : option string;
  ev_classification : classification;
  ev_cancellationRequested : bool;
  ev_externalWorkerUnobserved : bool;
  ev_actions : list ActionReport;
  ev_lock : option LockReport;
  ev_reason : string;
  ev_available : bool;
  ev_resultingStatus : AgentRun.AgentRunStatus
}.

(** [{ ...evidence, planHash }] *)
Record Report := { evidence : Evidence; planHash : string }.

Definition text_or_null (v : option string) : cjson := from_option CStr CNull v.

Definition action_json (a : ActionReport) : cjson :=
  CObj [("id", CStr (ap_id a)); ("status", CStr (ActionRequest.status_name (ap_status a)));
        ("payloadHash", CStr (ap_payloadHash a));
        ("executionStatus", text_or_null (execution_status_name <$> ap_executionStatus a))].

Definition lock_json (l : LockReport) : cjson :=
  CObj [("runId", CStr (lr_runId l)); ("expiresAt", CStr (lr_expiresAt l))].

Definition evidence_json (e : Evidence) : cjson :=
  CObj [("schemaVersion", CNum (NInt 1)); ("projectId", CStr (ev_projectId e));
        ("runId", CStr (ev_runId e)); ("taskId", CStr (ev_taskId e));
        ("recordedStatus", CStr (AgentRun.status_name (ev_recordedStatus e)));
        ("updatedAt", CStr (ev_updatedAt e)); ("ownerId", text_or_null (ev_ownerId e));
        ("classification", CStr (classification_name (ev_classification e)));
        ("cancellationRequested", CBool (ev_cancellationRequested e));
        ("externalWorkerUnobserved", CBool (ev_externalWorkerUnobserved e));
        ("actions", CArr (action_json <$> ev_actions e));
        ("lock", from_option lock_json CNull (ev_lock e)); ("reason", CStr (ev_reason e));
        ("available", CBool (ev_available e));
        ("resultingStatus", CStr (AgentRun.status_name (ev_resultingStatus e)))].

(** An effect that may or may not have happened. *)
Definition undecided (a : ActionReport) : bool :=
  includes (ap_status a) [ActionRequest.executing; ActionRequest.execution_unknown] ||
  match ap_executionStatus a with
  | Some s => includes s [ActionExecution.executing; ActionExecution.execution_unknown]
  | None => false
  end.

Definition is_ended (s : AgentRun.AgentRunStatus) : bool :=
  includes s [AgentRun.completed; AgentRun.failed; AgentRun.cancelled].

Definition classify (run : AgentRun.Props) (actions : list ActionReport) (is_live : bool)
    (lock : option LockRow) : classification :=
  if existsb undecided actions then ambiguous
  else if is_live then live_run
  else if is_ended (AgentRun.status run) then
    if bool_decide (l_run_id <$> lock = Some (AgentRun.id run)) then terminal_cleanup else terminal
  else if bool_decide (AgentRun.status run = AgentRun.queued) then queued
  else orphaned.

Definition recoverable (c : classification) : bool :=
  includes c [orphaned; terminal_cleanup].

Definition resulting (s : AgentRun.AgentRunStatus) : AgentRun.AgentRunStatus :=
  if is_ended s then s else AgentRun.cancelled.

(** [execution?.kind === "worker"] *)
Definition by_worker (run : AgentRun.Props) : bool :=
  bool_decide (kind <$> AgentRun.execution run = Some worker).

Definition lock_report (l : LockRow) : LockReport :=
  {| lr_runId := l_run_id l; lr_expiresAt := toISOString (l_expires_at l) |}.

(** The object literal [evidence]; [updatedAt] is the one stored. *)
Definition evidence_of (projectId runId : string) (run : AgentRun.Props) (actions : list ActionReport)
    (ownerId : option string) (is_live requested : bool) (lock : option LockRow) (reason : string)
    : outcome Evidence :=
  let c := classify run actions is_live lock in
  updated ← iso (AgentRun.updatedAt run);
  normalized ← Task.normalizeTaskReason reason "Recovery reason";
  Ok {| ev_projectId := projectId; ev_runId := runId; ev_taskId := AgentRun.taskId run;
        ev_recordedStatus := AgentRun.status run; ev_updatedAt := toISOString updated;
        ev_ownerId := ownerId; ev_classification := c; ev_cancellationRequested := requested;
        ev_externalWorkerUnobserved :=
          by_worker run && negb is_live && negb (is_ended (AgentRun.status run));
        ev_actions := actions; ev_lock := lock_report <$> lock; ev_reason := normalized;
        ev_available := recoverable c; ev_resultingStatus := resulting (AgentRun.status run) |}.

(** * The host *)

Record host := { store : ActionStore.world; control : Control; waits : nat }.

Abbreviation command A := (method host A).

(** What the other calls on the host make of it at the n-th [await]. *)
Class Others := {
  on_database : nat → ActionStore.world → ActionStore.world;
  on_control : nat → Control → Control
}.

Definition set_store (s : ActionStore.world) (h : host) : host :=
  {| store := s; control := control h; waits := waits h |}.
Definition set_control (c : Control) (h : host) : host :=
  {| store := store h; control := c; waits := waits h |}.

Definition on_store {A} (m : ActionStore.command A) : command A := λ h,
  let '(r, s) := m (store h) in (r, set_store s h).

Definition on_runs {A} (m : RunStore.command A) : command A := on_store (ActionStore.on_runs m).

(** A synchronous call of the control. *)
Definition observe {A} (f : Control → A) : command A := λ h, (Ok (f (control h)), h).

(** [transactions.run(work)] *)
Definition transaction {A} (work : command A) : command A := λ h,
  if RunStore.active (ActionStore.host (store h)) then (Throw TransactionAlreadyActiveError, h)
  else
    match work (set_store (ActionStore.on_host (ActionStore.set_active true) (store h)) h) with
    | (Ok a, h') => (Ok a, set_store (ActionStore.on_host (ActionStore.set_active false) (store h')) h')
    | (Throw e, h') =>
        (Throw e, set_store
           {| ActionStore.host := ActionStore.set_active false
                (RunStore.with_tables (ActionStore.host (store h'))
                   (RunStore.db (ActionStore.host (store h))));
              ActionStore.caps := ActionStore.caps (store h);
              ActionStore.effects := ActionStore.effects (store h') |} h')
    end.

Section services.
  Context `{ShowNumber} `{Store.Environment} `{Others} `{Orchestration.Collation} (sha256 : string → string).

(** Where an [await] stands: [inside] a transaction or outside. *)
Definition wait (inside : bool) : command unit := λ h,
  (Ok tt, {| store := if inside then store h else on_database (waits h) (store h);
             control := on_control (waits h) (control h); waits := S (waits h) |}).

(** [await call()] *)
Definition await {A} (inside : bool) (m : command A) : command A :=
  a ← m; wait inside;; mret a.

Definition now : command date := on_runs RunStore.now.

(** * ManageAgentRuns *)

Definition requireRun (inside : bool) (projectId runId : string) : command AgentRun.Props :=
  found ← await inside (on_runs (findRun runId));
  match found with
  | Some run =>
      refuse_if (negb (bool_decide (AgentRun.projectId run = projectId)))
        (DomainValidationError "Agent run not found in project");;
      mret run
  | None => mthrow (DomainValidationError "Agent run not found in project")
  end.

(** The requests of the run, in the order of the report. *)
Definition own_requests (runId : string) (l : list ActionStore.Request) : list ActionStore.Request :=
  sort_by (λ a b, Orchestration.locale_compare (ActionRequest.id a) (ActionRequest.id b))
    (filter (λ p, ActionRequest.agentRunId p = Some runId) l).

(** [Promise.all]: the calls start one after another and none is waited for. *)
Fixpoint report_actions (projectId : string) (l : list ActionStore.Request)
    : ActionStore.command (list ActionReport) :=
  match l with
  | [] => mret []
  | p :: rest =>
      found ← ActionStore.findExecutionByAction (ActionRequest.id p) projectId;
      reports ← report_actions projectId rest;
      mret ({| ap_id := ActionRequest.id p; ap_status := ActionRequest.status p;
               ap_payloadHash := ActionRequest.payloadHash p;
               ap_executionStatus := ActionExecution.status <$> found |} :: reports)
  end.

(** [createHash("sha256").update(canonicalStringify(evidence)).digest("hex")] *)
Definition plan_hash (e : Evidence) : outcome string :=
  text ← canonicalStringify (embed 0 (evidence_json e)); Ok (sha256 text).

Definition default_reason : string := "Inspect interrupted execution".

Definition inspect (inside : bool) (projectId runId : string) (reason : option string)
    : command Report :=
  run ← await inside (requireRun inside projectId runId);
  requests ← await inside (on_store (ActionStore.listActionRequests projectId));
  actions ← await inside (on_store (report_actions projectId (own_requests runId requests)));
  ownerId ← await inside (on_runs (executionOwner runId));
  is_live ← observe (has runId);
  lock ← await inside (on_runs (findTaskLock (AgentRun.taskId run)));
  requested ← observe (cancellationRequested runId);
  e ← lift (evidence_of projectId runId run actions ownerId is_live requested lock
              (default default_reason reason));
  hash ← lift (plan_hash e);
  mret {| evidence := e; planHash := hash |}.

(** [audit.execute({ ... })] with the CLI as the actor and the run as the
    aggregate. *)
Definition run_audit (type actorId projectId runId : string) (payload : record)
    : TaskServices.audit_input :=
  {| TaskServices.ai_eventType := type; TaskServices.ai_actorType := Store.cli;
     TaskServices.ai_actorId := Some actorId; TaskServices.ai_aggregateType := Some "agent_run";
     TaskServices.ai_aggregateId := Some runId; TaskServices.ai_projectId := Some projectId;
     TaskServices.ai_payload := Some payload |}.

Definition audit_run (type actorId projectId runId : string) (payload : record) : command unit :=
  on_runs (RunStore.on_base (TaskServices.record_audit_event
    (run_audit type actorId projectId runId payload)));;
  mret tt.

Definition cancel_error (code message : string) : cjson :=
  CObj [("code", CStr code); ("message", CStr message)].

(** [run.transition("cancelled", now, { error: { code, message } })] *)
Definition cancelled_run (run : AgentRun.Props) (code message : string) : command AgentRun.Props :=
  at_ ← now;
  match AgentRun.transition AgentRun.cancelled at_
          {| AgentRun.det_worktreePath := None; AgentRun.det_result := None;
             AgentRun.det_error := Some (embed 0 (cancel_error code message));
             AgentRun.det_execution := None |} run with
  | (Ok _, run) => mret run
  | (Throw e, _) => mthrow e
  end.

Inductive cancel_answer := already_terminal | cancellation_requested | cancelled.

Record run_input := {
  ri_projectId : string; ri_runId : string; ri_actorId : string; ri_reason : string
}.

Definition ambiguous_error : error :=
  DomainValidationError "Run has an ambiguous controlled effect; inspect its action before recovery".
Definition reconcile_error : error :=
  DomainValidationError "Interrupted run requires run:reconcile with an approved plan".

(** The transaction that cancels a queued run. *)
Definition cancel_queued (input : run_input) (reason : string) : command unit :=
  current ← await true (requireRun true (ri_projectId input) (ri_runId input));
  is_live ← observe (has (ri_runId input));
  refuse_if (negb (bool_decide (AgentRun.status current = AgentRun.queued)) || is_live)
    (DomainValidationError "Run changed; inspect before cancelling");;
  current ← cancelled_run current "OPERATOR_CANCELLED" "Execution cancelled by operator";
  await true (on_runs (saveRun current));;
  await true (on_runs (releaseTaskLock (ri_runId input)));;
  await true (audit_run "run.cancelled" (ri_actorId input) (ri_projectId input) (ri_runId input)
    [("reason", CStr reason)]).

(** What is left to answer when the run went away before it could be told. *)
Definition undelivered (c : classification) : outcome cancel_answer :=
  match c with
  | terminal => Ok already_terminal
  | ambiguous => Throw ambiguous_error
  | orphaned | terminal_cleanup => Throw reconcile_error
  | _ => Throw (DomainValidationError
           "Run changed without cancellation delivery; inspect before cancelling")
  end.

Definition cancel_delivered (input : run_input) (reason : string) : command cancel_answer :=
  await false (audit_run "run.cancellation_requested" (ri_actorId input) (ri_projectId input)
    (ri_runId input) [("reason", CStr reason)]);;
  h ← get;
  let '(delivered, c) := cancel_live (ri_runId input) (control h) in
  modify (set_control c);;
  if delivered : bool then mret cancellation_requested
  else
    current ← await false (inspect false (ri_projectId input) (ri_runId input) (Some reason));
    lift (undelivered (ev_classification (evidence current))).

Definition cancel (input : run_input) : command cancel_answer :=
  reason ← lift (Task.normalizeTaskReason (ri_reason input) "Cancellation reason");
  report ← await false (inspect false (ri_projectId input) (ri_runId input) (Some reason));
  let c := ev_classification (evidence report) in
  if bool_decide (c = terminal) then mret already_terminal
  else if bool_decide (c = ambiguous) then mthrow ambiguous_error
  else
    is_live ← observe (has (ri_runId input));
    if is_live : bool then cancel_delivered input reason
    else
      refuse_if (negb (bool_decide (c = queued))) reconcile_error;;
      await false (transaction (cancel_queued input reason));;
      mret cancelled.

(** [{ ...plan, applied }] *)
Record Reconciled := { plan : Report; applied : bool }.

Definition stale_error : error :=
  DomainValidationError "Run recovery plan is stale or unavailable".

Definition reconcile_payload (fresh : Report) : record :=
  let e := evidence fresh in
  [("reason", CStr (ev_reason e)); ("planHash", CStr (planHash fresh));
   ("from", CStr (AgentRun.status_name (ev_recordedStatus e)));
   ("to", CStr (AgentRun.status_name (ev_resultingStatus e)));
   ("ownerId", text_or_null (ev_ownerId e))].

(** The transaction of [reconcile]. *)
Definition reconcile_body (input : run_input) (approve : string) : command unit :=
  fresh ← await true (inspect true (ri_projectId input) (ri_runId input) (Some (ri_reason input)));
  is_live ← observe (has (ri_runId input));
  refuse_if (negb (ev_available (evidence fresh)) ||
             negb (bool_decide (planHash fresh = approve)) || is_live) stale_error;;
  run ← await true (requireRun true (ri_projectId input) (ri_runId input));
  (if bool_decide (ev_classification (evidence fresh) = terminal_cleanup) then mret tt
   else
     run ← cancelled_run run "INTERRUPTED_RUN_RESOLVED"
             "Interrupted execution resolved without replay";
     await true (on_runs (saveRun run));; mret tt);;
  await true (on_runs (releaseTaskLock (ri_runId input)));;
  await true (audit_run "run.reconciled" (ri_actorId input) (ri_projectId input) (ri_runId input)
    (reconcile_payload fresh)).

Definition reconcile (input : run_input) (approve : option string) : command Reconciled :=
  p ← await false (inspect false (ri_projectId input) (ri_runId input) (Some (ri_reason input)));
  match approve with
  | None => mret {| plan := p; applied := false |}
  | Some approve =>
      await false (transaction (reconcile_body input approve));;
      mret {| plan := p; applied := true |}
  end.

(** The loop of [cancelTaskRuns] over the runs as they were listed. *)
Fixpoint cancel_each (taskId : string) (input : string → run_input) (l : list AgentRun.Props)
    : command unit :=
  match l with
  | [] => mret tt
  | r :: rest =>
      (if negb (bool_decide (AgentRun.taskId r = taskId)) || is_ended (AgentRun.status r)
       then mret tt
       else
         is_live ← observe (has (AgentRun.id r));
         if bool_decide (AgentRun.status r = AgentRun.queued) || is_live
         then await false (cancel (input (AgentRun.id r)));; mret tt
         else mret tt);;
      cancel_each taskId input rest
  end.

Definition cancelTaskRuns (projectId taskId actorId reason : string) : command unit :=
  l ← await false (on_runs (listRuns projectId));
  cancel_each taskId (λ runId, {| ri_projectId := projectId; ri_runId := runId;
    ri_actorId := actorId; ri_reason := reason |}) l.

End services.

End RunRecovery.
