(* ===== verification/ActionServices.v ===== *)
(** The services that register resources, grant and revoke capabilities,
    evaluate the policy on an action, request it and decide on it.  Models
    [register-resource.ts], [disable-resource.ts], [create-capability-grant.ts],
    [revoke-capability-grant.ts], [evaluate-action-policy.ts],
    [request-controlled-action.ts], [decide-controlled-action.ts],
    [list-capability-records.ts], [canonical-action.ts],
    [action-simulation-hash.ts], [action-approval-binding.ts] and
    [validation.ts] of [packages/application/src/capability/].

    The optional ports of the constructors are present and the hooks for tests
    absent, as in every command of the host.  SHA-256 is a parameter, and so is
    what the other calls on the host do while a service waits outside a
    transaction, [elsewhere]. *)
From S2P Require Import Prelude Errors PipelineModel Json ActionModel PolicyModel ConnectorModel AgentModel Store RunStore.
From S2P Require Import TaskServices PipelineStore PipelineServices ActionStore.
Import Canonical Policy ActionStore.

Module ActionServices.

(** What other calls on the host make of it at the n-th wait of a service. *)
Class Elsewhere := elsewhere : nat → world → world.

(** * validation.ts *)

Definition requiredText (value fieldName : string) : outcome string :=
  throw_if (String.length (trim value) =? 0)
    (CapabilityValidationError (fieldName +:+ " cannot be empty"));;
  Ok (trim value).

Definition canonicalRecord (value : js) (fieldName : string) : outcome record :=
  normalized ← normalizeCanonicalJson value;
  match normalized with
  | CObj members => assertNoSensitiveFields normalized fieldName;; Ok members
  | _ => Throw (CapabilityValidationError (fieldName +:+ " must be an object"))
  end.

(** The loop that requires each text to be there. *)
Fixpoint require_texts (l : list (string * string)) : outcome unit :=
  match l with
  | [] => Ok tt
  | (value, fieldName) :: rest => requiredText value fieldName;; require_texts rest
  end.

(** A [ResourceType] is one of [resourceTypes]. *)
Definition validateResource (r : Resource) (descriptor : PolicyConnectorDescriptor)
    : outcome unit :=
  require_texts [(res_id r, "resource id"); (res_projectId r, "project id");
                 (res_provider r, "provider"); (res_displayName r, "display name")];;
  throw_if (negb (includes (res_type r) (cd_supportedResourceTypes descriptor)))
    (UnsupportedConnectorResourceTypeError (cd_id descriptor) (resource_type_name (res_type r)));;
  canonicalRecord (embed 0 (CObj (res_configuration r))) "resource configuration";;
  Ok tt.

Fixpoint check_actions (descriptor : PolicyConnectorDescriptor) (actions : list string)
    : outcome unit :=
  match actions with
  | [] => Ok tt
  | action :: rest =>
      throw_if (negb (bool_decide (action = cd_id descriptor +:+ ".*")) &&
                negb (includes action (od_operation <$> cd_operations descriptor)))
        (CapabilityValidationError ("unsupported or unsafe action pattern: " +:+ action));;
      check_actions descriptor rest
  end.

Definition validateGrant (g : CapabilityGrant) (descriptor : PolicyConnectorDescriptor)
    : outcome unit :=
  require_texts [(gr_id g, "grant id"); (gr_projectId g, "project id");
                 (gr_principalId g, "principal id"); (gr_resourceId g, "resource id");
                 (gr_grantedBy g, "granted by"); (gr_reason g, "reason")];;
  throw_if (length (gr_actions g) =? 0)
    (CapabilityValidationError "at least one action is required");;
  throw_if (negb (valid_date (gr_validFrom g)))
    (CapabilityValidationError "grant validFrom must be a valid date");;
  throw_if (match gr_expiresAt g with Some e => negb (valid_date e) | None => false end)
    (CapabilityValidationError "grant expiresAt must be a valid date");;
  check_actions descriptor (gr_actions g);;
  throw_if (match gr_expiresAt g with Some e => date_leb e (gr_validFrom g) | None => false end)
    (CapabilityValidationError "grant expiry must be after validFrom").

(** * Hashes *)

Section hashes.
  Context `{ShowNumber} (sha256 : string → string).

(** [hashCanonicalActionPayload(payload).hash] *)
Definition hashCanonicalActionPayload (payload : record) : outcome string :=
  canonical ← canonicalStringify (embed 0 (CObj payload));
  Ok (sha256 canonical).

(** [CanonicalActionSimulationPayload] *)
Definition simulation_payload (p : Request) (preconditions : list ActionSimulation.FilePrecondition)
    (diffSha256 : string) : record :=
  [("schemaVersion", CNum (NInt 1)); ("actionRequestId", CStr (ActionRequest.id p));
   ("authorizationPayloadHash", CStr (ActionRequest.payloadHash p));
   ("connector", CStr (ActionRequest.connector p));
   ("connectorVersion", CStr (ActionRequest.connectorVersion p));
   ("operation", CStr (ActionRequest.operation p));
   ("preconditions", CArr (ActionSimulation.to_json <$> preconditions));
   ("diffSha256", CStr diffSha256)].

Definition hashActionSimulationArtifact (payload : record) : outcome string :=
  canonical ← canonicalStringify (embed 0 (CObj payload));
  Ok (sha256 canonical).

(** * action-approval-binding.ts *)

Definition assertSimulationIntegrity (p : Request) (s : Simulation) : outcome unit :=
  let diffSha256 := sha256 (ActionSimulation.diff s) in
  artifactSha256 ← hashActionSimulationArtifact
    (simulation_payload p (ActionSimulation.preconditions s) diffSha256);
  throw_if (negb (bool_decide (ActionSimulation.projectId s = ActionRequest.projectId p) &&
      bool_decide (ActionSimulation.actionRequestId s = ActionRequest.id p) &&
      bool_decide (ActionSimulation.authorizationPayloadHash s = ActionRequest.payloadHash p) &&
      bool_decide (ActionSimulation.connector s = ActionRequest.connector p) &&
      bool_decide (ActionSimulation.connectorVersion s = ActionRequest.connectorVersion p) &&
      bool_decide (ActionSimulation.operation s = ActionRequest.operation p) &&
      bool_decide (ActionSimulation.diffSha256 s = diffSha256) &&
      bool_decide (ActionSimulation.artifactSha256 s = artifactSha256)))
    StaleActionSimulationError.

Definition invalid_approval : error :=
  InvalidActionApprovalStateError "Action approval is not valid for this operation".

Definition assertApprovalBinding (p : Request) (s : Simulation) (a : Approval) : outcome unit :=
  assertSimulationIntegrity p s;;
  throw_if (negb (bool_decide (ActionApproval.projectId a = ActionRequest.projectId p) &&
      bool_decide (ActionApproval.actionRequestId a = ActionRequest.id p) &&
      bool_decide (ActionApproval.simulationId a = ActionSimulation.id s) &&
      bool_decide (ActionApproval.actionPayloadHash a = ActionRequest.payloadHash p) &&
      bool_decide (ActionApproval.simulationArtifactHash a = ActionSimulation.artifactSha256 s) &&
      bool_decide (ActionApproval.connector a = ActionRequest.connector p) &&
      bool_decide (ActionApproval.connectorVersion a = ActionRequest.connectorVersion p) &&
      bool_decide (ActionApproval.operation a = ActionRequest.operation p)))
    invalid_approval.

End hashes.

(** * The services *)

Section services.
  Context `{ShowNumber} `{Store.Environment} `{Elsewhere}.
  Context (sha256 : string → string) (connectors : Connector.ConnectorRegistry).

Definition await (n : nat) : command unit := λ w, (Ok tt, elsewhere n w).

Definition now : command date := on_runs RunStore.now.
Definition generate : command string := on_runs RunStore.generate.

(** [audit.execute({ ... })] *)
Definition audit (type : string) (actorType : Store.ActorType) (actorId : option string)
    (projectId aggregateType aggregateId : string) (payload : option record) : command unit :=
  on_runs (RunStore.on_base (TaskServices.record_audit_event
    {| TaskServices.ai_eventType := type; TaskServices.ai_actorType := actorType;
       TaskServices.ai_actorId := actorId; TaskServices.ai_aggregateType := Some aggregateType;
       TaskServices.ai_aggregateId := Some aggregateId;
       TaskServices.ai_projectId := Some projectId; TaskServices.ai_payload := payload |}));;
  mret tt.

Definition require_project (projectId : string) : command unit :=
  known ← on_runs (RunStore.on_base (Store.find_project projectId));
  refuse_if (negb known) (ProjectNotFoundError projectId).

(** [findResource], its absence and its project, as each service checks them. *)
Definition require_resource (resourceId projectId : string) : command Resource :=
  found ← findResource resourceId;
  match found with
  | None => mthrow (ResourceNotFoundError resourceId)
  | Some r =>
      refuse_if (negb (bool_decide (res_projectId r = projectId))) CapabilityProjectMismatchError;;
      mret r
  end.

(** ** RegisterResource *)

Record register_input := {
  rg_projectId : string;
  rg_type : ResourceType;
  rg_provider : string;
  rg_externalRef : option string;
  rg_displayName : string;
  rg_configuration : option js
}.

Definition empty_object : js := JObj 0 true false [].

Definition optional_text (v : option string) (fieldName : string) : outcome (option string) :=
  match v with
  | None => Ok None
  | Some s => t ← requiredText s fieldName; Ok (Some t)
  end.

Definition register_resource (input : register_input) : command Resource :=
  require_project (rg_projectId input);;
  provider ← lift (requiredText (rg_provider input) "provider");
  definition ← lift (Connector.requireDefinition connectors provider);
  externalRef ← lift (optional_text (rg_externalRef input) "external ref");
  configuration ← lift (canonicalRecord (default empty_object (rg_configuration input))
                          "resource configuration");
  n ← record_effect (prepared (rg_projectId input));
  prepared ← lift (Connector.cn_prepareResource definition n
    {| Connector.ri_type := rg_type input; Connector.ri_externalRef := externalRef;
       Connector.ri_configuration := configuration |});
  await 0;;
  at_ ← now;
  id ← generate;
  projectId ← lift (requiredText (rg_projectId input) "project id");
  displayName ← lift (requiredText (rg_displayName input) "display name");
  let resource :=
    {| res_id := id; res_projectId := projectId; res_type := rg_type input;
       res_provider := cd_id (Connector.cn_descriptor definition);
       res_externalRef := Connector.pr_externalRef prepared; res_displayName := displayName;
       res_configuration := Connector.pr_configuration prepared; res_credentialRef := None;
       res_status := active; res_createdAt := at_; res_updatedAt := at_ |} in
  lift (validateResource resource (Connector.cn_descriptor definition));;
  run (
    saveResource resource;;
    audit "resource.registered" Store.cli (Some "local-cli") projectId "resource" id
      (Some [("type", CStr (resource_type_name (rg_type input)));
             ("provider", CStr (res_provider resource))]));;
  mret resource.

(** ** DisableResource *)

Definition disable_resource (projectId resourceId : string) : command unit :=
  resource ← require_resource resourceId projectId;
  refuse_if (bool_decide (res_status resource = disabled)) (ResourceDisabledError (res_id resource));;
  await 0;;
  run (
    at_ ← now;
    disabled ← disableResource (res_id resource) projectId at_;
    refuse_if (negb disabled) (ResourceDisabledError (res_id resource));;
    audit "resource.disabled" Store.cli (Some "local-cli") projectId "resource"
      (res_id resource) None).

(** ** CreateCapabilityGrant *)

Record grant_input := {
  gi_projectId : string;
  gi_principalType : CapabilityPrincipalType;
  gi_principalId : string;
  gi_resourceId : string;
  gi_actions : list string;
  gi_constraints : option js;
  gi_validFrom : option date;
  gi_expiresAt : option date;
  gi_grantedBy : string;
  gi_reason : string
}.

Definition principal_name (t : CapabilityPrincipalType) : string :=
  match t with
  | principal_user => "user" | principal_agent => "agent" | principal_role => "role"
  | principal_workflow => "workflow" | principal_application => "application"
  end.

Definition require_principal (input : grant_input) : command unit :=
  match gi_principalType input with
  | principal_agent =>
      agent ← on_runs (RunStore.findAgent (gi_principalId input));
      refuse_if (match agent with
                 | Some a => negb (bool_decide (RunStore.ag_projectId a = gi_projectId input))
                 | None => true
                 end) (CapabilityPrincipalNotFoundError "agent" (gi_principalId input))
  | principal_role =>
      role ← on_runs (RunStore.findRole (gi_principalId input) (gi_projectId input));
      refuse_if (negb (ActionExecution.defined role))
        (CapabilityPrincipalNotFoundError "role" (gi_principalId input))
  | _ => mret tt
  end.

Definition create_capability_grant (input : grant_input) : command CapabilityGrant :=
  require_project (gi_projectId input);;
  resource ← require_resource (gi_resourceId input) (gi_projectId input);
  definition ← lift (Connector.requireDefinition connectors (res_provider resource));
  require_principal input;;
  await 0;;
  at_ ← now;
  id ← generate;
  principalId ← lift (requiredText (gi_principalId input) "principal id");
  given ← lift (canonicalRecord (default empty_object (gi_constraints input))
                  "grant constraints");
  constraints ← lift (Connector.cn_normalizeConstraints definition given);
  grantedBy ← lift (requiredText (gi_grantedBy input) "granted by");
  reason ← lift (requiredText (gi_reason input) "reason");
  let grant :=
    {| gr_id := id; gr_projectId := gi_projectId input;
       gr_principalType := gi_principalType input; gr_principalId := principalId;
       gr_resourceId := res_id resource; gr_actions := sorted_unique (trim <$> gi_actions input);
       gr_constraints := constraints; gr_validFrom := default at_ (gi_validFrom input);
       gr_expiresAt := gi_expiresAt input; gr_revokedAt := None; gr_grantedBy := grantedBy;
       gr_reason := reason; gr_createdAt := at_ |} in
  lift (validateGrant grant (Connector.cn_descriptor definition));;
  run (
    saveGrant grant;;
    audit "capability.granted" Store.cli (Some grantedBy) (gr_projectId grant) "capability_grant"
      id (Some [("principalType", CStr (principal_name (gr_principalType grant)));
                ("principalId", CStr principalId); ("resourceId", CStr (gr_resourceId grant));
                ("actions", CArr (CStr <$> gr_actions grant))]));;
  mret grant.

(** ** RevokeCapabilityGrant *)

Definition revoke_capability_grant (projectId grantId revokedBy : string) : command unit :=
  found ← findGrant grantId;
  match found with
  | None => mthrow (CapabilityGrantNotFoundError grantId)
  | Some grant =>
      refuse_if (negb (bool_decide (gr_projectId grant = projectId)))
        CapabilityProjectMismatchError;;
      refuse_if (negb (bool_decide (gr_revokedAt grant = None)))
        (CapabilityGrantRevokedError (gr_id grant));;
      await 0;;
      run (
        at_ ← now;
        revoked ← revokeGrant (gr_id grant) (gr_projectId grant) at_;
        refuse_if (negb revoked) (CapabilityGrantRevokedError (gr_id grant));;
        audit "capability.revoked" Store.cli (Some revokedBy) (gr_projectId grant)
          "capability_grant" (gr_id grant) (Some [("resourceId", CStr (gr_resourceId grant))]))
  end.

(** ** ListCapabilityRecords *)

Definition list_resources (projectId : string) := listResources projectId.
Definition list_grants (projectId : string) := listGrants projectId None.
Definition list_actions (projectId : string) := listActionRequests projectId.

Definition require_action (actionId projectId : string) : command Request :=
  found ← findActionRequest actionId;
  match found with
  | None => mthrow (ActionRequestNotFoundError actionId)
  | Some p =>
      refuse_if (negb (bool_decide (ActionRequest.projectId p = projectId)))
        CapabilityProjectMismatchError;;
      mret p
  end.

Definition show_action (actionId projectId : string) : command Request :=
  require_action actionId projectId.

(** ** EvaluateActionPolicy *)

Record EvaluatedActionPolicy := {
  ev_decision : PolicyDecision;
  ev_pipeline : Authorization.PipelineAuthorizationDecision;
  ev_resource : Resource;
  ev_normalizedArguments : record;
  ev_connector : PolicyConnectorDescriptor
}.

Record evaluate_input := {
  ei_projectId : string;
  ei_agentId : string;
  ei_resourceId : string;
  ei_operation : string;
  ei_arguments : js;
  ei_evaluatedAt : option date;
  ei_pipelineRunId : option string
}.

Definition pipeline_reason (r : Authorization.PipelineAuthorizationReason) : string :=
  match r with
  | Authorization.pipeline_run_required => "pipeline_run_required"
  | Authorization.pipeline_stage_not_active => "pipeline_stage_not_active"
  | Authorization.pipeline_capability_denied => "pipeline_capability_denied"
  | Authorization.pipeline_prerequisite_incomplete => "pipeline_prerequisite_incomplete"
  | Authorization.pipeline_agent_not_assigned => "pipeline_agent_not_assigned"
  | Authorization.pipeline_approval_required => "pipeline_approval_required"
  end.

Definition require_enabled_agent (agentId projectId : string) : command RunStore.Agent :=
  found ← on_runs (RunStore.findAgent agentId);
  match found with
  | Some a =>
      refuse_if (negb (bool_decide (RunStore.ag_projectId a = projectId)) ||
                 negb (RunStore.ag_enabled a)) (CapabilityPrincipalNotFoundError "agent" agentId);;
      mret a
  | None => mthrow (CapabilityPrincipalNotFoundError "agent" agentId)
  end.

(** What the pipeline makes of the policy's decision. *)
Definition combined_decision (base : PolicyDecision)
    (pipeline : Authorization.PipelineAuthorizationDecision) : PolicyDecision :=
  match Authorization.de_decision pipeline with
  | Authorization.allow => base
  | Authorization.deny =>
      {| pd_decision := deny; pd_riskLevel := pd_riskLevel base;
         pd_matchedGrantIds := pd_matchedGrantIds base;
         pd_effectiveConstraints := pd_effectiveConstraints base;
         pd_reasons := pd_reasons base ++ (pipeline_reason <$> Authorization.de_reasons pipeline) |}
  end.

Definition evaluate_policy (input : evaluate_input) : command EvaluatedActionPolicy :=
  let projectId := ei_projectId input in
  resource ← require_resource (ei_resourceId input) projectId;
  agent ← require_enabled_agent (ei_agentId input) projectId;
  found ← on_runs (RunStore.findRole (RunStore.ag_roleId agent) projectId);
  role ← match found with
         | Some r => mret r
         | None => mthrow (CapabilityPrincipalNotFoundError "role" (RunStore.ag_roleId agent))
         end;
  definition ← lift (Connector.requireDefinition connectors (res_provider resource));
  operation ← lift (requiredText (ei_operation input) "operation");
  given ← lift (canonicalRecord (ei_arguments input) "action arguments");
  normalizedArguments ← lift (Connector.cn_normalizeArguments definition operation given);
  grants ← listGrants projectId (Some (res_id resource));
  evaluatedAt ← match ei_evaluatedAt input with Some t => mret t | None => now end;
  base ← lift (evaluate (Connector.getPolicyDefinition connectors)
    {| pi_projectId := projectId; pi_agentId := RunStore.ag_id agent;
       pi_roleIds := [Role.id role]; pi_resource := resource; pi_operation := operation;
       pi_arguments := embed 0 (CObj normalizedArguments); pi_grants := grants |} evaluatedAt);
  pipeline ← on_runs (Authorization.evaluate
    {| Authorization.az_projectId := projectId; Authorization.az_agentId := ei_agentId input;
       Authorization.az_operation := operation;
       Authorization.az_pipelineRunId := ei_pipelineRunId input |});
  mret {| ev_decision := combined_decision base pipeline; ev_pipeline := pipeline;
          ev_resource := resource; ev_normalizedArguments := normalizedArguments;
          ev_connector := Connector.cn_descriptor definition |}.

(** ** RequestControlledAction *)

Inductive ControlledActionOutcome := out_allowed | out_denied | simulation_required | approval_required.

#[global] Instance outcome_eq_dec : EqDecision ControlledActionOutcome.
Proof. solve_decision. Defined.

Definition outcomes (d : PolicyDecisionKind) : ControlledActionOutcome :=
  match d with
  | allow => out_allowed
  | deny => out_denied
  | allow_simulation_only => simulation_required
  | allow_with_approval => approval_required
  end.

Definition decision_name (d : PolicyDecisionKind) : string :=
  match d with
  | allow => "allow" | deny => "deny" | allow_with_approval => "allow_with_approval"
  | allow_simulation_only => "allow_simulation_only"
  end.

Record action_input := {
  ac_projectId : string;
  ac_agentId : string;
  ac_resourceId : string;
  ac_operation : string;
  ac_arguments : js;
  ac_agentRunId : option string;
  ac_pipelineRunId : option string
}.

(** The object literal of type [CanonicalActionPayload], which the request and
    both fresh authorizations build. *)
Definition canonical_payload (projectId agentId operation : string)
    (e : EvaluatedActionPolicy) (agentRunId : option string) : record :=
  [("schemaVersion", CNum (NInt 1)); ("projectId", CStr projectId); ("agentId", CStr agentId);
   ("resourceId", CStr (res_id (ev_resource e))); ("connector", CStr (cd_id (ev_connector e)));
   ("connectorVersion", CStr (cd_version (ev_connector e))); ("operation", CStr operation);
   ("normalizedArguments", CObj (ev_normalizedArguments e));
   ("effectiveConstraints", CObj (pd_effectiveConstraints (ev_decision e)))]
  ++ ActionRequest.optional_member "agentRunId" agentRunId
  ++ ActionRequest.optional_member "pipelineRunId"
       (Authorization.de_pipelineRunId (ev_pipeline e))
  ++ ActionRequest.optional_member "pipelineStageRunId"
       (Authorization.de_pipelineStageRunId (ev_pipeline e)).

Definition with_pipeline (input : action_input) (pipelineRunId : option string) : action_input :=
  {| ac_projectId := ac_projectId input; ac_agentId := ac_agentId input;
     ac_resourceId := ac_resourceId input; ac_operation := ac_operation input;
     ac_arguments := ac_arguments input; ac_agentRunId := ac_agentRunId input;
     ac_pipelineRunId := pipelineRunId |}.

(** The two texts [canonicalStringify] makes of the intent's and the caller's
    arguments are the same. *)
Definition same_arguments (intent : cjson) (given : js) : outcome bool :=
  a ← canonicalStringify (embed 0 intent);
  b ← canonicalStringify given;
  Ok (bool_decide (a = b)).

Definition intent_mismatch : error :=
  AgentRunProvenanceError "Action input does not match the persisted AgentRun intent".
Definition invalid_provenance : error :=
  AgentRunProvenanceError "Agent-run provenance is invalid".

Definition resolveProvenance (input : action_input) : command action_input :=
  match ac_agentRunId input with
  | None =>
      refuse_if (negb (bool_decide (ac_pipelineRunId input = None)))
        (AgentRunProvenanceError "Pipeline context must come from an AgentRun");;
      mret input
  | Some runId =>
      found ← on_runs (RunStore.findRun runId);
      match found with
      | None => mthrow invalid_provenance
      | Some r =>
          match AgentRun.actionIntent r with
          | None => mthrow intent_mismatch
          | Some intent =>
              refuse_if (negb (bool_decide (AgentRun.projectId r = ac_projectId input) &&
                  bool_decide (AgentRun.agentId r = ac_agentId input) &&
                  bool_decide (AgentRun.intent_resourceId intent = trim (ac_resourceId input)) &&
                  bool_decide (AgentRun.intent_operation intent = trim (ac_operation input))))
                intent_mismatch;;
              same ← lift (same_arguments (AgentRun.intent_arguments intent) (ac_arguments input));
              refuse_if (negb same) intent_mismatch;;
              refuse_if (negb (bool_decide (ac_pipelineRunId input = None)) &&
                         negb (bool_decide (ac_pipelineRunId input = AgentRun.pipelineRunId r)))
                (AgentRunProvenanceError
                   "Pipeline context does not match the persisted AgentRun");;
              mret (match AgentRun.pipelineRunId r with
                    | None => input
                    | Some p => with_pipeline input (Some p)
                    end)
          end
      end
  end.

Definition strings (l : list string) : cjson := CArr (CStr <$> l).

(** The optional members [agentRunId], [pipelineRunId] and [pipelineStageId] of
    the audit payloads. *)
Definition provenance_members (agentRunId : option string) (e : EvaluatedActionPolicy) : record :=
  ActionRequest.optional_member "agentRunId" agentRunId ++
  ActionRequest.optional_member "pipelineRunId" (Authorization.de_pipelineRunId (ev_pipeline e)) ++
  ActionRequest.optional_member "pipelineStageId"
    (Authorization.de_pipelineStageId (ev_pipeline e)).

(** A method of the caller's object. *)
Definition on_object {P} (p : P) (m : method P unit) : command P :=
  match m p with
  | (Ok _, p') => mret p'
  | (Throw e, _) => mthrow e
  end.

Definition concurrent (p : Request) (from to : ActionRequest.ActionStatus) : error :=
  ConcurrentActionTransitionError (ActionRequest.id p) (ActionRequest.status_name from)
    (ActionRequest.status_name to).

(** [if (!(await transitionActionRequest(...))) throw new Concurrent...] *)
Definition move_request (p : Request) (projectId : string)
    (from to : ActionRequest.ActionStatus) (at_ : date) : command unit :=
  moved ← transitionActionRequest (ActionRequest.id p) projectId from to at_;
  refuse_if (negb moved) (concurrent p from to).

Definition new_request (input : action_input) (e : EvaluatedActionPolicy)
    (id payloadHash : string) : ActionRequest.ActionRequestProps js :=
  let d := ev_decision e in
  {| ActionRequest.id := id; ActionRequest.projectId := ac_projectId input;
     ActionRequest.agentId := ac_agentId input; ActionRequest.resourceId := res_id (ev_resource e);
     ActionRequest.connector := cd_id (ev_connector e);
     ActionRequest.connectorVersion := cd_version (ev_connector e);
     ActionRequest.operation := trim (ac_operation input);
     ActionRequest.normalizedArguments := embed 0 (CObj (ev_normalizedArguments e));
     ActionRequest.effectiveConstraints := embed 0 (CObj (pd_effectiveConstraints d));
     ActionRequest.agentRunId := ac_agentRunId input; ActionRequest.payloadHash := payloadHash;
     ActionRequest.decision := pd_decision d; ActionRequest.riskLevel := pd_riskLevel d;
     ActionRequest.matchedGrantIds := pd_matchedGrantIds d; ActionRequest.reasons := pd_reasons d;
     ActionRequest.pipelineRunId := Authorization.de_pipelineRunId (ev_pipeline e);
     ActionRequest.pipelineStageRunId := Authorization.de_pipelineStageRunId (ev_pipeline e);
     ActionRequest.status := ActionRequest.requested; ActionRequest.createdAt := None;
     ActionRequest.updatedAt := None |}.

Definition request_event (p : Request) (projectId type : string) (payload : record)
    : command unit :=
  audit type Store.system (Some (ActionRequest.agentId p)) projectId "action_request"
    (ActionRequest.id p) (Some payload).

(** The audit events of a request: [action.requested], then what was decided. *)
Definition audit_requested (p : Request) (resolved : action_input) (e : EvaluatedActionPolicy)
    : command unit :=
  request_event p (ac_projectId resolved) "action.requested"
    ([("resourceId", CStr (ActionRequest.resourceId p));
      ("operation", CStr (ActionRequest.operation p));
      ("riskLevel", CStr (risk_name (ActionRequest.riskLevel p)));
      ("payloadHash", CStr (ActionRequest.payloadHash p));
      ("reasons", strings (ActionRequest.reasons p))]
     ++ provenance_members (ac_agentRunId resolved) e).

Definition audit_decided (p : Request) (resolved : action_input) (e : EvaluatedActionPolicy)
    (next : ActionRequest.ActionStatus) : command unit :=
  request_event p (ac_projectId resolved)
    (if bool_decide (next = ActionRequest.denied) then "action.denied" else "action.authorized")
    ([("decision", CStr (decision_name (ActionRequest.decision p)));
      ("riskLevel", CStr (risk_name (ActionRequest.riskLevel p)));
      ("matchedGrantIds", strings (ActionRequest.matchedGrantIds p));
      ("payloadHash", CStr (ActionRequest.payloadHash p));
      ("reasons", strings (ActionRequest.reasons p))]
     ++ provenance_members (ac_agentRunId resolved) e);;
  match Authorization.de_decision (ev_pipeline e), Authorization.de_pipelineRunId (ev_pipeline e) with
  | Authorization.deny, Some runId =>
      if bool_decide (next = ActionRequest.denied) then
        audit "pipeline.action_denied" Store.system (Some (ac_agentId resolved))
          (ac_projectId resolved) "pipeline_run" runId
          (Some ([("actionRequestId", CStr (ActionRequest.id p));
                  ("operation", CStr (ActionRequest.operation p));
                  ("reasons", strings (pipeline_reason <$>
                                Authorization.de_reasons (ev_pipeline e)))]
                 ++ ActionRequest.optional_member "agentRunId" (ac_agentRunId resolved)
                 ++ ActionRequest.optional_member "stageId"
                      (Authorization.de_pipelineStageId (ev_pipeline e))))
      else mret tt
  | _, _ => mret tt
  end.

Definition next_status (d : PolicyDecisionKind) : ActionRequest.ActionStatus :=
  if bool_decide (d = deny) then ActionRequest.denied else ActionRequest.authorized.

Definition request_action (input : action_input) : command (Request * ControlledActionOutcome) :=
  resolved ← resolveProvenance input;
  await 0;;
  run (
    e ← evaluate_policy
      {| ei_projectId := ac_projectId resolved; ei_agentId := ac_agentId resolved;
         ei_resourceId := ac_resourceId resolved; ei_operation := ac_operation resolved;
         ei_arguments := ac_arguments resolved; ei_evaluatedAt := None;
         ei_pipelineRunId := ac_pipelineRunId resolved |};
    payloadHash ← lift (hashCanonicalActionPayload sha256
      (canonical_payload (ac_projectId resolved) (ac_agentId resolved)
         (trim (ac_operation resolved)) e (ac_agentRunId resolved)));
    requestedAt ← now;
    id ← generate;
    request ← lift (ActionRequest.create (new_request resolved e id payloadHash) requestedAt);
    insertActionRequest request;;
    audit_requested request resolved e;;
    let next := next_status (pd_decision (ev_decision e)) in
    transitionedAt ← now;
    move_request request (ac_projectId resolved) ActionRequest.requested next transitionedAt;;
    moved ← on_object request (ActionRequest.transition next transitionedAt None false);
    audit_decided moved resolved e next;;
    mret (moved, outcomes (pd_decision (ev_decision e)))).

Definition request_from_agent_run (agentRunId : string)
    : command (Request * ControlledActionOutcome) :=
  found ← on_runs (RunStore.findRun agentRunId);
  match found with
  | None => mthrow invalid_provenance
  | Some r =>
      match AgentRun.actionIntent r with
      | Some intent =>
          refuse_if (negb (includes (AgentRun.status r)
                             [AgentRun.running; AgentRun.reviewing; AgentRun.completed]))
            (AgentRunProvenanceError "Agent run is not executing an action intent");;
          await 1;;
          request_action
            {| ac_projectId := AgentRun.projectId r; ac_agentId := AgentRun.agentId r;
               ac_resourceId := AgentRun.intent_resourceId intent;
               ac_operation := AgentRun.intent_operation intent;
               ac_arguments := embed 0 (AgentRun.intent_arguments intent);
               ac_agentRunId := Some (AgentRun.id r); ac_pipelineRunId := None |}
      | None =>
          mthrow (AgentRunProvenanceError "Agent run is not executing an action intent")
      end
  end.

(** ** DecideControlledAction *)

Inductive DecidedStatus := decided_pending | decided_rejected.

Definition decide_action (approved : bool) (projectId actionRequestId who : string)
    : command (Approval * DecidedStatus) :=
  actor ← lift (requiredText who "approval actor");
  run (
    request ← require_action actionRequestId projectId;
    refuse_if (negb (bool_decide (ActionRequest.status request = ActionRequest.approval_pending)))
      invalid_approval;;
    foundSimulation ← findActionSimulationByAction actionRequestId projectId;
    foundApproval ← findApprovalByAction actionRequestId projectId;
    approval ← match foundApproval with
               | Some a => mret a
               | None => mthrow (ActionApprovalNotFoundError actionRequestId)
               end;
    simulation ← match foundSimulation with
                 | Some s => mret s
                 | None => mthrow invalid_approval
                 end;
    lift (assertApprovalBinding sha256 request simulation approval);;
    refuse_if (negb (bool_decide (ActionApproval.status approval = ActionApproval.pending)))
      (InvalidActionApprovalStateError "Action approval is already decided");;
    decidedAt ← now;
    decided ← on_object approval
      (if approved then ActionApproval.approve actor decidedAt
       else ActionApproval.reject actor decidedAt);
    stored ← transitionApproval (ActionApproval.id decided) projectId ActionApproval.pending
      (if approved then ActionApproval.approved else ActionApproval.rejected) decidedAt actor;
    refuse_if (negb stored)
      (InvalidActionApprovalStateError "Action approval changed concurrently");;
    (if approved then mret tt else
       on_object request (ActionRequest.transition ActionRequest.rejected decidedAt
                            (Some ActionRequest.mutation) true);;
       move_request request projectId ActionRequest.approval_pending ActionRequest.rejected
         decidedAt);;
    audit (if approved then "action_approved" else "action_rejected") Store.cli (Some actor)
      projectId "action_approval" (ActionApproval.id decided)
      (Some [("actionRequestId", CStr actionRequestId);
             ("simulationId", CStr (ActionSimulation.id simulation));
             ("artifactSha256", CStr (ActionSimulation.artifactSha256 simulation))]);;
    mret (decided, if approved then decided_pending else decided_rejected)).

Definition approve := decide_action true.
Definition reject := decide_action false.

End services.

End ActionServices.
