(* ===== verification/ActionInvocation.v ===== *)
(** The services that let a connector act: a read or a simulation under an
    authorization lease, and the execution of an approved mutation.  Models
    [invoke-controlled-connector-action.ts] and [execute-controlled-action.ts]
    of [packages/application/src/capability/].

    What a connector answers is the [cn_invoke] and [cn_executeMutation] of its
    definition; the host's other calls run at each wait outside a transaction,
    the connector's included. *)
From S2P Require Import Prelude Errors PipelineModel Json ActionModel PolicyModel ConnectorModel AgentModel Store RunStore.
From S2P Require Import TaskServices PipelineServices ActionStore ActionServices.
Import Canonical Policy ActionStore ActionServices.

Module ActionInvocation.

Section services.
  Context `{ShowNumber} `{Store.Environment} `{Elsewhere}.
  Context (sha256 : string → string) (connectors : Connector.ConnectorRegistry).

(** [try { m } catch (error) { handler(error) }] *)
Definition catch {A} (m : command A) (handler : error → command A) : command A := λ w,
  match m w with
  | (Ok a, w') => (Ok a, w')
  | (Throw e, w') => handler e w'
  end.

(** * Fresh authorization *)

(** [validateAgentRunBinding]: the run the request came from still is the one
    it names. *)
Definition require_run_binding (p : Request) : command unit :=
  match ActionRequest.agentRunId p with
  | None => mret tt
  | Some runId =>
      found ← on_runs (RunStore.findRun runId);
      refuse_if (match found with
                 | Some r =>
                     negb (bool_decide (AgentRun.projectId r = ActionRequest.projectId p) &&
                           bool_decide (AgentRun.agentId r = ActionRequest.agentId p) &&
                           bool_decide (AgentRun.pipelineRunId r = ActionRequest.pipelineRunId p))
                 | None => true
                 end) StaleActionAuthorizationError
  end.

Definition reevaluate (p : Request) (evaluatedAt : date) : command EvaluatedActionPolicy :=
  evaluate_policy connectors
    {| ei_projectId := ActionRequest.projectId p; ei_agentId := ActionRequest.agentId p;
       ei_resourceId := ActionRequest.resourceId p; ei_operation := ActionRequest.operation p;
       ei_arguments := embed 0 (ActionRequest.normalizedArguments p);
       ei_evaluatedAt := Some evaluatedAt;
       ei_pipelineRunId := ActionRequest.pipelineRunId p |}.

Definition current_payload_hash (p : Request) (e : EvaluatedActionPolicy) : outcome string :=
  hashCanonicalActionPayload sha256
    (canonical_payload (ActionRequest.projectId p) (ActionRequest.agentId p)
       (ActionRequest.operation p) e (ActionRequest.agentRunId p)).

(** The conditions both services put on the policy's current answer. *)
Definition unchanged (p : Request) (definition : Connector.ConnectorDefinition)
    (e : EvaluatedActionPolicy) (payloadHash : string) : bool :=
  let resource := ev_resource e in
  let descriptor := Connector.cn_descriptor definition in
  bool_decide (res_status resource = active) &&
  bool_decide (res_projectId resource = ActionRequest.projectId p) &&
  bool_decide (res_provider resource = cd_id descriptor) &&
  includes (res_type resource) (cd_supportedResourceTypes descriptor) &&
  bool_decide (cd_id (ev_connector e) = ActionRequest.connector p) &&
  bool_decide (cd_version (ev_connector e) = ActionRequest.connectorVersion p) &&
  bool_decide (pd_decision (ev_decision e) = ActionRequest.decision p) &&
  bool_decide (pd_riskLevel (ev_decision e) = ActionRequest.riskLevel p) &&
  bool_decide (Authorization.de_pipelineRunId (ev_pipeline e) = ActionRequest.pipelineRunId p) &&
  bool_decide (Authorization.de_pipelineStageRunId (ev_pipeline e) =
               ActionRequest.pipelineStageRunId p) &&
  bool_decide (pd_matchedGrantIds (ev_decision e) = ActionRequest.matchedGrantIds p) &&
  bool_decide (payloadHash = ActionRequest.payloadHash p).

(** [hashCanonicalActionPayload(request.canonicalPayload()).hash] is the one
    that is stored. *)
Definition require_payload_hash (p : Request) : outcome unit :=
  hash ← hashCanonicalActionPayload sha256 (ActionRequest.canonicalPayload p);
  throw_if (negb (bool_decide (hash = ActionRequest.payloadHash p))) StaleActionAuthorizationError.

Definition scope_of (r : Resource) : Connector.ConnectorResourceScope :=
  {| Connector.sc_id := res_id r; Connector.sc_type := res_type r;
     Connector.sc_provider := res_provider r; Connector.sc_externalRef := res_externalRef r;
     Connector.sc_configuration := res_configuration r |}.

(** The members of a canonical object. *)
Definition members (v : cjson) : record := match v with CObj l => l | _ => [] end.

Definition invocation (p : Request) (r : Resource) : Connector.ConnectorInvocation :=
  {| Connector.inv_resource := scope_of r; Connector.inv_operation := ActionRequest.operation p;
     Connector.inv_arguments := members (ActionRequest.normalizedArguments p);
     Connector.inv_effectiveConstraints := members (ActionRequest.effectiveConstraints p) |}.

(** * InvokeControlledConnectorAction *)

Record AuthorizationLease := {
  al_request : Request;
  al_definition : Connector.ConnectorDefinition;
  al_operation : PolicyOperationDescriptor;
  al_resource : Resource;
  al_outcome : ControlledActionOutcome
}.

(** [requireFreshAuthorization], whose request stays as it was. *)
Definition fresh_authorization (p : Request) (evaluatedAt : date) : command AuthorizationLease :=
  require_run_binding p;;
  refuse_if (negb (bool_decide (ActionRequest.status p = ActionRequest.authorized)))
    (InvalidConnectorInvocationStateError
       ("Action request must be authorized before invocation: " +:+
        ActionRequest.status_name (ActionRequest.status p)));;
  definition ← lift (Connector.requireDefinition connectors (ActionRequest.connector p));
  operation ← lift (Connector.requireOperation connectors (ActionRequest.connector p)
                      (ActionRequest.operation p));
  refuse_if (negb (bool_decide (cd_version (Connector.cn_descriptor definition) =
                                ActionRequest.connectorVersion p)))
    StaleActionAuthorizationError;;
  current ← reevaluate p evaluatedAt;
  hash ← lift (current_payload_hash p current);
  refuse_if (negb (unchanged p definition current hash) ||
             bool_decide (pd_decision (ev_decision current) = deny))
    StaleActionAuthorizationError;;
  lift (require_payload_hash p);;
  mret {| al_request := p; al_definition := definition; al_operation := operation;
          al_resource := ev_resource current;
          al_outcome := outcomes (pd_decision (ev_decision current)) |}.

Definition operation_mode (o : PolicyOperationDescriptor) : ActionRequest.ActionOperationMode :=
  match od_mode o with op_read => ActionRequest.read | op_mutation => ActionRequest.mutation end.

(** The status a request is leased in. *)
Definition target_status (o : PolicyOperationDescriptor) : ActionRequest.ActionStatus :=
  match od_mode o with
  | op_read => ActionRequest.executing
  | op_mutation => ActionRequest.simulating
  end.

Definition not_invocable (o : PolicyOperationDescriptor) (out : ControlledActionOutcome) : bool :=
  match od_mode o with
  | op_read => negb (od_supportsExecution o) || negb (bool_decide (out = out_allowed))
  | op_mutation => negb (od_supportsSimulation o)
  end.

Definition acquire_authorization_lease (actionRequestId projectId : string)
    : command AuthorizationLease :=
  run (
    request ← require_action actionRequestId projectId;
    leaseAt ← now;
    fresh ← fresh_authorization request leaseAt;
    refuse_if (negb (ActionExecution.defined (Connector.cn_invoke (al_definition fresh))))
      (ConnectorExecutionUnavailableError (ActionRequest.connector request));;
    refuse_if (not_invocable (al_operation fresh) (al_outcome fresh))
      (InvalidConnectorInvocationStateError
         "Action is not invocable in its current policy state");;
    let target := target_status (al_operation fresh) in
    leased ← on_object request
      (ActionRequest.transition target leaseAt (Some (operation_mode (al_operation fresh)))
         (od_requiresApproval (al_operation fresh)));
    move_request request (ActionRequest.projectId request) ActionRequest.authorized target leaseAt;;
    request_event request (ActionRequest.projectId request)
      (if bool_decide (target = ActionRequest.executing) then "action.executing"
       else "action.simulating") [];;
    mret {| al_request := leased; al_definition := al_definition fresh;
            al_operation := al_operation fresh; al_resource := al_resource fresh;
            al_outcome := al_outcome fresh |}).

(** [transition]: a transaction of its own, then the caller's object. *)
Definition transition_request (p : Request) (s : ActionRequest.ActionStatus)
    (mode : ActionRequest.ActionOperationMode) (eventType : string) (payload : record)
    : command Request :=
  updatedAt ← now;
  run (
    move_request p (ActionRequest.projectId p) (ActionRequest.status p) s updatedAt;;
    request_event p (ActionRequest.projectId p) eventType payload);;
  on_object p (ActionRequest.transition s updatedAt (Some mode) false).

Definition failure (e : error) : record := [("errorCode", CStr (error_name e))].

Record InvokedControlledAction := {
  ia_requestId : string;
  ia_outcome : ControlledActionOutcome;
  ia_status : ActionRequest.ActionStatus;
  ia_result : option record;
  ia_simulation : option Simulation
}.

Definition number_member (key : string) (v : option number) : record :=
  optional_field key (CNum <$> v).

Definition readAudit (a : Connector.ConnectorReadAudit) : record :=
  ActionRequest.optional_member "path" (Connector.ra_relativePath a) ++
  number_member "byteLength" (Connector.ra_byteLength a) ++
  number_member "resultCount" (Connector.ra_resultCount a) ++
  ActionRequest.optional_member "contentSha256" (Connector.ra_contentSha256 a) ++
  optional_field "truncated" (CBool <$> Connector.ra_truncated a).

(** [await definition.invoke({ ... })] *)
Definition call_connector (l : AuthorizationLease) : command Connector.ConnectorInvocationResult :=
  let p := al_request l in
  match Connector.cn_invoke (al_definition l) with
  | None => mthrow (ConnectorExecutionUnavailableError (ActionRequest.connector p))
  | Some invoke =>
      n ← record_effect (invoked (ActionRequest.id p));
      await 2;;
      lift (invoke n (invocation p (al_resource l)))
  end.

(** The branch for a read. *)
Definition invoke_read (l : AuthorizationLease) : command InvokedControlledAction :=
  let p := al_request l in
  catch (
    result ← call_connector l;
    match result with
    | Connector.read_result output a =>
        finished ← transition_request p ActionRequest.completed ActionRequest.read
                     "action.completed" (readAudit a);
        mret {| ia_requestId := ActionRequest.id finished; ia_outcome := al_outcome l;
                ia_status := ActionRequest.status finished; ia_result := Some output;
                ia_simulation := None |}
    | _ => mthrow (InvalidConnectorInvocationStateError
             "Read connector returned a simulation result")
    end)
    (λ e,
      (if bool_decide (ActionRequest.status p = ActionRequest.executing) then
         transition_request p ActionRequest.failed ActionRequest.read "action.failed" (failure e);;
         mret tt
       else mret tt);;
      mthrow e).

(** [filePreconditions] *)
Definition file_precondition (v : Connector.ConnectorFilePrecondition)
    : outcome ActionSimulation.FilePrecondition :=
  match Connector.fp_kind v, Connector.fp_sha256 v, Connector.fp_size v with
  | Connector.kind_absent, _, _ => Ok (ActionSimulation.absent (Connector.fp_path v))
  | Connector.kind_file, Some sha, Some size =>
      Ok (ActionSimulation.file (Connector.fp_path v) sha size)
  | _, _, _ => Throw (InvalidConnectorInvocationStateError
                 "Connector returned an incomplete file precondition")
  end.

Definition createSimulation (p : Request) (diff : string)
    (given : list Connector.ConnectorFilePrecondition) : command Simulation :=
  preconditions ← lift (map_result file_precondition given);
  let diffSha256 := sha256 diff in
  artifactSha256 ← lift (hashActionSimulationArtifact sha256
                           (simulation_payload p preconditions diffSha256));
  id ← generate;
  createdAt ← now;
  lift (ActionSimulation.create
    {| ActionSimulation.id := id; ActionSimulation.projectId := ActionRequest.projectId p;
       ActionSimulation.actionRequestId := ActionRequest.id p;
       ActionSimulation.authorizationPayloadHash := ActionRequest.payloadHash p;
       ActionSimulation.connector := ActionRequest.connector p;
       ActionSimulation.connectorVersion := ActionRequest.connectorVersion p;
       ActionSimulation.operation := ActionRequest.operation p;
       ActionSimulation.preconditions :=
         embed 0 (CArr (ActionSimulation.to_json <$> preconditions));
       ActionSimulation.diff := diff; ActionSimulation.diffSha256 := diffSha256;
       ActionSimulation.artifactSha256 := artifactSha256;
       ActionSimulation.createdAt := createdAt |}).

Definition requested_approval (p : Request) (s : Simulation) (id : string) : Approval :=
  {| ActionApproval.id := id; ActionApproval.projectId := ActionRequest.projectId p;
     ActionApproval.actionRequestId := ActionRequest.id p;
     ActionApproval.simulationId := ActionSimulation.id s;
     ActionApproval.actionPayloadHash := ActionRequest.payloadHash p;
     ActionApproval.simulationArtifactHash := ActionSimulation.artifactSha256 s;
     ActionApproval.connector := ActionRequest.connector p;
     ActionApproval.connectorVersion := ActionRequest.connectorVersion p;
     ActionApproval.operation := ActionRequest.operation p;
     ActionApproval.status := ActionApproval.pending; ActionApproval.requestedAt := None;
     ActionApproval.decidedAt := None; ActionApproval.actor := None |}.

(** The transaction that stores a simulation and asks for its approval. *)
Definition store_simulation (p : Request) (s : Simulation) (approval : option Approval)
    (simulatedAt approvalPendingAt : date) : command unit :=
  let project := ActionRequest.projectId p in
  run (
    inserted ← insertActionSimulation s;
    refuse_if (negb inserted) (ActionSimulationConflictError (ActionRequest.id p));;
    move_request p project ActionRequest.simulating ActionRequest.simulated simulatedAt;;
    request_event p project "action.simulated"
      [("simulationId", CStr (ActionSimulation.id s));
       ("diffSha256", CStr (ActionSimulation.diffSha256 s));
       ("artifactSha256", CStr (ActionSimulation.artifactSha256 s))];;
    match approval with
    | None => mret tt
    | Some a =>
        stored ← insertApproval a;
        refuse_if (negb stored) (ActionApprovalConflictError (ActionRequest.id p));;
        audit "action_approval_requested" Store.system (Some (ActionRequest.agentId p)) project
          "action_approval" (ActionApproval.id a)
          (Some [("actionRequestId", CStr (ActionRequest.id p));
                 ("simulationId", CStr (ActionSimulation.id s));
                 ("artifactSha256", CStr (ActionSimulation.artifactSha256 s))]);;
        move_request p project ActionRequest.simulated ActionRequest.approval_pending
          approvalPendingAt;;
        request_event p project "action.approval_pending"
          [("simulationId", CStr (ActionSimulation.id s))]
    end).

(** The branch for a mutation. *)
Definition invoke_mutation (l : AuthorizationLease) : command InvokedControlledAction :=
  let p := al_request l in
  let requiresApproval := od_requiresApproval (al_operation l) in
  catch (
    result ← call_connector l;
    match result with
    | Connector.simulation_result diff preconditions =>
        simulation ← createSimulation p diff preconditions;
        simulatedAt ← now;
        approvalPendingAt ← now;
        approval ← (if requiresApproval : bool then
            id ← generate;
            a ← lift (ActionApproval.request (requested_approval p simulation id)
                        approvalPendingAt);
            mret (Some a)
          else mret None);
        store_simulation p simulation approval simulatedAt approvalPendingAt;;
        simulated ← on_object p (ActionRequest.transition ActionRequest.simulated simulatedAt
                                   (Some ActionRequest.mutation) false);
        finished ← (if requiresApproval : bool then
            on_object simulated (ActionRequest.transition ActionRequest.approval_pending
              approvalPendingAt (Some ActionRequest.mutation) true)
          else mret simulated);
        mret {| ia_requestId := ActionRequest.id finished; ia_outcome := al_outcome l;
                ia_status := ActionRequest.status finished; ia_result := None;
                ia_simulation := Some simulation |}
    | _ => mthrow (InvalidConnectorInvocationStateError
             "Mutation connector returned a read result")
    end)
    (λ e,
      await 4;;
      persisted ← findActionRequest (ActionRequest.id p);
      match persisted with
      | Some q =>
          if bool_decide (ActionRequest.status q = ActionRequest.simulating) then
            transition_request q ActionRequest.failed ActionRequest.mutation "action.failed"
              (failure e);;
            mret tt
          else mret tt
      | None => mret tt
      end;;
      mthrow e).

Definition invoke_authorized (projectId actionRequestId : string)
    : command InvokedControlledAction :=
  lease ← acquire_authorization_lease actionRequestId projectId;
  await 8;;
  match od_mode (al_operation lease) with
  | op_read => invoke_read lease
  | op_mutation => invoke_mutation lease
  end.

(** [execute]: from an agent run, or from a caller's input. *)
Definition invoke_action (input : string + action_input) : command InvokedControlledAction :=
  requested ← match input with
              | inl agentRunId => request_from_agent_run sha256 connectors agentRunId
              | inr given => request_action sha256 connectors given
              end;
  let '(request, out) := requested in
  if bool_decide (out = out_denied) then
    mret {| ia_requestId := ActionRequest.id request; ia_outcome := out;
            ia_status := ActionRequest.status request; ia_result := None;
            ia_simulation := None |}
  else
    await 3;;
    invoke_authorized (ActionRequest.projectId request) (ActionRequest.id request).

(** * ExecuteControlledAction *)

Record ExecutionLease := {
  el_request : Request;
  el_simulation : Simulation;
  el_execution : Execution;
  el_definition : Connector.ConnectorDefinition;
  el_operation : PolicyOperationDescriptor;
  el_resource : Resource
}.

Definition not_executable : error :=
  InvalidActionExecutionStateError "Action request is not executable".

(** [requireFreshAuthorization] of this service. *)
Definition require_authorized (p : Request) (definition : Connector.ConnectorDefinition)
    (o : PolicyOperationDescriptor) : command unit :=
  require_run_binding p;;
  evaluatedAt ← now;
  current ← reevaluate p evaluatedAt;
  hash ← lift (current_payload_hash p current);
  refuse_if (negb (unchanged p definition current hash &&
                   bool_decide (od_operation o = ActionRequest.operation p) &&
                   bool_decide (pd_decision (ev_decision current) = allow_with_approval)))
    StaleActionAuthorizationError;;
  lift (require_payload_hash p).

Definition no_boundary (p : Request) (definition : Connector.ConnectorDefinition)
    (o : PolicyOperationDescriptor) : bool :=
  negb (bool_decide (cd_version (Connector.cn_descriptor definition) =
                     ActionRequest.connectorVersion p) &&
        bool_decide (ActionRequest.connector p = "filesystem") &&
        bool_decide (ActionRequest.connectorVersion p = "2") &&
        bool_decide (od_mode o = op_mutation) && od_supportsExecution o &&
        od_requiresApproval o &&
        ActionExecution.defined (Connector.cn_executeMutation definition)).

Definition new_execution (p : Request) (s : Simulation) (a : Approval) (id : string) : Execution :=
  {| ActionExecution.id := id; ActionExecution.projectId := ActionRequest.projectId p;
     ActionExecution.actionRequestId := ActionRequest.id p;
     ActionExecution.simulationId := ActionSimulation.id s;
     ActionExecution.approvalId := ActionApproval.id a;
     ActionExecution.status := ActionExecution.executing; ActionExecution.startedAt := None;
     ActionExecution.completedAt := None; ActionExecution.failureCode := None;
     ActionExecution.resultHash := None |}.

Definition require_current_resource (resourceId : string) : command Resource :=
  found ← findResource resourceId;
  match found with Some r => mret r | None => mthrow not_executable end.

Definition acquire_lease (projectId actionRequestId : string) : command ExecutionLease :=
  run (
    request ← require_action actionRequestId projectId;
    let project := ActionRequest.projectId request in
    let action := ActionRequest.id request in
    refuse_if (negb (bool_decide (ActionRequest.status request = ActionRequest.approval_pending)))
      not_executable;;
    definition ← lift (Connector.requireDefinition connectors (ActionRequest.connector request));
    operation ← lift (Connector.requireOperation connectors (ActionRequest.connector request)
                        (ActionRequest.operation request));
    refuse_if (no_boundary request definition operation)
      (ConnectorExecutionUnavailableError (ActionRequest.connector request));;
    foundSimulation ← findActionSimulationByAction action project;
    foundApproval ← findApprovalByAction action project;
    simulation ← match foundSimulation with
                 | Some s => mret s
                 | None => mthrow (InvalidActionExecutionStateError
                                     "Action simulation is unavailable")
                 end;
    approval ← match foundApproval with
               | Some a => mret a
               | None => mthrow (ActionApprovalNotFoundError action)
               end;
    lift (assertApprovalBinding sha256 request simulation approval);;
    refuse_if (negb (bool_decide (ActionApproval.status approval = ActionApproval.approved)))
      (InvalidActionApprovalStateError "Action is not approved");;
    require_authorized request definition operation;;
    existing ← findExecutionByAction action project;
    refuse_if (ActionExecution.defined existing) (ActionExecutionConflictError action);;
    startedAt ← now;
    id ← generate;
    execution ← lift (ActionExecution.start (new_execution request simulation approval id)
                        startedAt);
    inserted ← insertExecution execution;
    refuse_if (negb inserted) (ActionExecutionConflictError action);;
    leased ← on_object request (ActionRequest.transition ActionRequest.executing startedAt
                                  (Some ActionRequest.mutation) true);
    move_request request project ActionRequest.approval_pending ActionRequest.executing startedAt;;
    audit "action_execution_started" Store.system (ActionApproval.actor approval) project
      "action_execution" (ActionExecution.id execution)
      (Some [("actionRequestId", CStr action);
             ("simulationId", CStr (ActionSimulation.id simulation));
             ("approvalId", CStr (ActionApproval.id approval))]);;
    resource ← require_current_resource (ActionRequest.resourceId request);
    mret {| el_request := leased; el_simulation := simulation; el_execution := execution;
            el_definition := definition; el_operation := operation; el_resource := resource |}).

(** ** Outcomes *)

Inductive outcome_status := ended_completed | ended_failed | ended_unknown.

#[global] Instance outcome_status_eq_dec : EqDecision outcome_status.
Proof. solve_decision. Defined.

Definition request_outcome (s : outcome_status) : ActionRequest.ActionStatus :=
  match s with
  | ended_completed => ActionRequest.completed
  | ended_failed => ActionRequest.failed
  | ended_unknown => ActionRequest.execution_unknown
  end.

Definition execution_outcome (s : outcome_status) : ActionExecution.ActionExecutionStatus :=
  match s with
  | ended_completed => ActionExecution.completed
  | ended_failed => ActionExecution.failed
  | ended_unknown => ActionExecution.execution_unknown
  end.

Definition outcome_event (s : outcome_status) : string :=
  match s with
  | ended_completed => "action_execution_completed"
  | ended_failed => "action_execution_failed"
  | ended_unknown => "action_execution_unknown"
  end.

Definition outcomePersistenceFailureCode : string := "OutcomePersistenceFailed".

Definition result_hash (result : option Connector.ConnectorMutationExecutionResult)
    : option string := result ≫= Connector.me_resultHash.

Definition outcome_payload (p : Request) (failureCode : option string)
    (result : option Connector.ConnectorMutationExecutionResult) : record :=
  [("actionRequestId", CStr (ActionRequest.id p))] ++
  ActionRequest.optional_member "failureCode" failureCode ++
  ActionRequest.optional_member "resultHash" (result_hash result) ++
  ActionRequest.optional_member "path" (result ≫= Connector.me_relativePath) ++
  ActionRequest.optional_member "destinationPath" (result ≫= Connector.me_destinationPath) ++
  number_member "byteLength" (result ≫= Connector.me_byteLength).

(** The two rows and the audit event of an outcome, in one transaction. *)
Definition write_outcome (p : Request) (e : Execution) (s : outcome_status) (finishedAt : date)
    (failureCode resultHash : option string) (payload : record) : command unit :=
  stored ← transitionExecution (ActionExecution.id e) (ActionRequest.projectId p)
    ActionExecution.executing (execution_outcome s) finishedAt failureCode resultHash;
  refuse_if (negb stored)
    (InvalidActionExecutionStateError "Execution outcome changed concurrently");;
  move_request p (ActionRequest.projectId p) ActionRequest.executing (request_outcome s)
    finishedAt;;
  audit (outcome_event s) Store.system None (ActionRequest.projectId p) "action_execution"
    (ActionExecution.id e) (Some payload).

(** [execution.complete], [fail] or [markUnknown]; [failureCode!] is a string. *)
Definition finish_execution (s : outcome_status) (finishedAt : date)
    (failureCode resultHash : option string) : method Execution unit :=
  match s with
  | ended_completed => ActionExecution.complete finishedAt resultHash
  | ended_failed => ActionExecution.fail finishedAt (default "" failureCode)
  | ended_unknown => ActionExecution.markUnknown finishedAt (default "" failureCode)
  end.

Definition finish (l : ExecutionLease) (s : outcome_status) (failureCode : option string)
    (result : option Connector.ConnectorMutationExecutionResult) : command unit :=
  finishedAt ← now;
  execution ← lift (ActionExecution.restore (el_execution l));
  request ← lift (ActionRequest.restore (ActionRequest.stored (el_request l)));
  ended ← on_object execution (finish_execution s finishedAt failureCode (result_hash result));
  on_object request (ActionRequest.transition (request_outcome s) finishedAt
                       (Some ActionRequest.mutation) true);;
  run (write_outcome (el_request l) ended s finishedAt failureCode (result_hash result)
         (outcome_payload (el_request l) failureCode result)).

Definition unrecoverable : error :=
  InvalidActionExecutionStateError "Execution outcome cannot be recovered".

Definition persist_as_unknown (l : ExecutionLease) : command unit :=
  let leased := el_request l in
  run (
    foundRequest ← findActionRequest (ActionRequest.id leased);
    foundExecution ← findExecutionByAction (ActionRequest.id leased)
                       (ActionRequest.projectId leased);
    match foundRequest, foundExecution with
    | Some request, Some execution =>
        refuse_if (negb (bool_decide (ActionRequest.projectId request =
                                      ActionRequest.projectId leased) &&
                         bool_decide (ActionRequest.status request = ActionRequest.executing) &&
                         bool_decide (ActionExecution.status execution =
                                      ActionExecution.executing))) unrecoverable;;
        finishedAt ← now;
        ended ← on_object execution
                  (ActionExecution.markUnknown finishedAt outcomePersistenceFailureCode);
        on_object request (ActionRequest.transition ActionRequest.execution_unknown finishedAt
                             (Some ActionRequest.mutation) true);;
        write_outcome request ended ended_unknown finishedAt (Some outcomePersistenceFailureCode)
          None [("actionRequestId", CStr (ActionRequest.id request));
                ("failureCode", CStr outcomePersistenceFailureCode)]
    | _, _ => mthrow unrecoverable
    end).

(** [finishWithFallback]: what was persisted in the end. *)
Definition finish_with_fallback (l : ExecutionLease) (s : outcome_status)
    (failureCode : option string) (result : option Connector.ConnectorMutationExecutionResult)
    : command (outcome_status * option string) :=
  catch (finish l s failureCode result;; mret (s, failureCode))
    (λ e,
      if bool_decide (s = ended_failed) then mthrow e else
      await 6;;
      catch (persist_as_unknown l;; mret (ended_unknown, Some outcomePersistenceFailureCode))
        (λ _, mthrow e)).

Record ExecutedControlledAction := {
  xa_actionRequestId : string;
  xa_executionId : string;
  xa_status : outcome_status;
  xa_resultHash : option string;
  xa_failureCode : option string
}.

Definition executed (actionRequestId : string) (l : ExecutionLease)
    (persisted : outcome_status * option string) (hash : option string)
    : ExecutedControlledAction :=
  {| xa_actionRequestId := actionRequestId;
     xa_executionId := ActionExecution.id (el_execution l); xa_status := persisted.1;
     xa_resultHash := if bool_decide (persisted.1 = ended_completed) then hash else None;
     xa_failureCode := persisted.2 |}.

(** The certainty and code of what a connector threw. *)
Definition thrown_outcome (e : error) : outcome_status * string :=
  match e with
  | ConnectorMutationExecutionError code definite _ =>
      (if definite then ended_failed else ended_unknown, code)
  | _ => (ended_unknown, "UnexpectedConnectorError")
  end.

(** [await lease.definition.executeMutation!({ ... })], inside the [try]. *)
Definition mutate (l : ExecutionLease)
    : command (outcome Connector.ConnectorMutationExecutionResult) :=
  match Connector.cn_executeMutation (el_definition l) with
  | None => mret (Throw (TypeError "lease.definition.executeMutation is not a function"))
  | Some execute =>
      n ← record_effect (mutated (ActionRequest.id (el_request l)));
      await 5;;
      mret (execute n
        {| Connector.mi_invocation := invocation (el_request l) (el_resource l);
           Connector.mi_preconditions := ActionSimulation.preconditions (el_simulation l) |})
  end.

Definition execute_action (projectId actionRequestId : string) : command ExecutedControlledAction :=
  lease ← acquire_lease projectId actionRequestId;
  await 7;;
  answer ← mutate lease;
  match answer with
  | Ok result =>
      persisted ← finish_with_fallback lease ended_completed None (Some result);
      mret (executed actionRequestId lease persisted (Connector.me_resultHash result))
  | Throw e =>
      let '(s, code) := thrown_outcome e in
      persisted ← finish_with_fallback lease s (Some code) None;
      mret (executed actionRequestId lease persisted None)
  end.

End services.

End ActionInvocation.
