(* ===== verification/ActionSafety.v ===== *)
(** Controlled actions over every history of the host: what the services may
    make of the stored requests, simulations, approvals and executions, however
    they interleave, and what follows for the mutations connectors are asked
    to make.  The proof is by rely and guarantee: a service guarantees that
    the host evolves, and relies on the other calls for the same. *)
From S2P Require Import Prelude Errors PipelineModel Json ActionModel PolicyModel ConnectorModel AgentModel Store RunStore.
From S2P Require Import TaskServices PipelineServices ActionStore ActionServices ActionInvocation.
Import Canonical Policy ActionStore ActionServices ActionInvocation.

Module ActionSafety.

Import ActionRequest.

(** * What the host guarantees *)

(** The statuses a request that is [d] can go through, by the aggregate's
    transitions. *)
Definition advances (d : PolicyDecisionKind) : relation ActionStatus :=
  rtc (λ s s', edge_allowed d s s' = true).

(** A stored request later: only its status and time of change moved on. *)
Definition later_request (p p' : Request) : Prop :=
  p' = with_status p (status p') (updatedAt p') ∧ advances (decision p) (status p) (status p').

Definition later_approval (a a' : Approval) : Prop :=
  a' = a ∨
  ActionApproval.status a = ActionApproval.pending ∧
  ∃ s t who, s ≠ ActionApproval.pending ∧
    a' = ActionApproval.with_decision a s (ActionApproval.requestedAt a) t who.

Definition later_execution (e e' : Execution) : Prop :=
  e' = e ∨
  ActionExecution.status e = ActionExecution.executing ∧
  ∃ s t code hash, s ≠ ActionExecution.executing ∧
    e' = ActionExecution.with_outcome e s (ActionExecution.startedAt e) t code hash.

Definition persists {V} (R : relation V) (m m' : gmap string V) : Prop :=
  ∀ k v, m !! k = Some v → ∃ v', m' !! k = Some v' ∧ R v v'.

(** The rows of the four tables stay, and change only as their state machines
    allow. *)
Record grows (d d' : tables) : Prop := {
  grows_requests : persists later_request (requests d) (requests d');
  grows_simulations : persists eq (simulations d) (simulations d');
  grows_approvals : persists later_approval (approvals d) (approvals d');
  grows_executions : persists later_execution (executions d) (executions d')
}.

(** An approval binds the payload of its request and the artifact of its
    simulation. *)
Record bound (a : Approval) (p : Request) (s : Simulation) : Prop := {
  bound_request : id p = ActionApproval.actionRequestId a;
  bound_project : projectId p = ActionApproval.projectId a;
  bound_payload : payloadHash p = ActionApproval.actionPayloadHash a;
  bound_operation : operation p = ActionApproval.operation a;
  bound_decision : decision p = allow_with_approval;
  bound_simulation : ActionSimulation.actionRequestId s = id p;
  bound_artifact : ActionSimulation.artifactSha256 s = ActionApproval.simulationArtifactHash a
}.

(** The tables as the triggers keep them. *)
Record well (d : tables) : Prop := {
  well_request k p : requests d !! k = Some p →
    id p = k ∧ isDecisionStatusCompatible (decision p) (status p) = true;
  well_simulation k s : simulations d !! k = Some s → ActionSimulation.id s = k;
  well_approval k a : approvals d !! k = Some a →
    ActionApproval.id a = k ∧
    ∃ p s, requests d !! ActionApproval.actionRequestId a = Some p ∧
           simulations d !! ActionApproval.simulationId a = Some s ∧ bound a p s;
  well_execution k e : executions d !! k = Some e →
    ActionExecution.id e = k ∧
    ∃ p a, requests d !! ActionExecution.actionRequestId e = Some p ∧
           projectId p = ActionExecution.projectId e ∧
           approvals d !! ActionExecution.approvalId e = Some a ∧
           ActionApproval.status a = ActionApproval.approved ∧
           ActionApproval.actionRequestId a = ActionExecution.actionRequestId e;
  well_unique k e k' e' :
    executions d !! k = Some e → executions d !! k' = Some e' →
    ActionExecution.actionRequestId e = ActionExecution.actionRequestId e' → k = k'
}.

Definition has_execution (action : string) (d : tables) : Prop :=
  ∃ k e, executions d !! k = Some e ∧ ActionExecution.actionRequestId e = action.

(** The requests whose mutation a connector was asked to make. *)
Definition mutations (l : list effect) : list string :=
  omap (λ e, match e with mutated a => Some a | _ => None end) l.

(** Each further mutation goes with an execution that was not there before. *)
Definition acts (w w' : world) : Prop :=
  ∃ l, effects w' = effects w ++ l ∧ NoDup (mutations l) ∧
       ∀ a, a ∈ mutations l → ¬ has_execution a (caps w) ∧ has_execution a (caps w').

Definition evolves (w w' : world) : Prop :=
  well (caps w) → well (caps w') ∧ grows (caps w) (caps w') ∧ acts w w'.

(** ** Lemmas *)

#[export] Instance later_request_preorder : PreOrder later_request.
Proof.
  split.
  - intros p. split; [by destruct p|constructor].
  - intros p1 p2 p3 [H12 A12] [H23 A23]. split.
    + rewrite H23, H12. done.
    + assert (decision p2 = decision p1) as Hd by (by rewrite H12). rewrite Hd in A23.
      by etrans.
Qed.

#[export] Instance later_approval_preorder : PreOrder later_approval.
Proof.
  split; [by left|]. intros a b c [->|(Ha & s & t & who & Hs & ->)] Hc; [done|]. right.
  destruct Hc as [->|(Hp & _)]; [|by simpl in Hp]. split; [done|]. by exists s, t, who.
Qed.

#[export] Instance later_execution_preorder : PreOrder later_execution.
Proof.
  split; [by left|]. intros a b c [->|(Ha & s & t & f & h & Hs & ->)] Hc; [done|]. right.
  destruct Hc as [->|(Hp & _)]; [|by simpl in Hp]. split; [done|]. by exists s, t, f, h.
Qed.

Lemma persists_refl {V} (R : relation V) `{!Reflexive R} m : persists R m m.
Proof. intros k v Hk. eauto. Qed.

Lemma persists_trans {V} (R : relation V) `{!Transitive R} m1 m2 m3 :
  persists R m1 m2 → persists R m2 m3 → persists R m1 m3.
Proof.
  intros H12 H23 k v Hk. destruct (H12 k v Hk) as (v2 & Hk2 & H2).
  destruct (H23 k v2 Hk2) as (v3 & Hk3 & H3). eauto.
Qed.

Lemma persists_insert {V} (R : relation V) `{!Reflexive R} m k v :
  (∀ old, m !! k = Some old → R old v) → persists R m (<[k:=v]> m).
Proof.
  intros Hold k' v' Hk'. destruct (decide (k = k')) as [->|Hne].
  - exists v. rewrite lookup_insert_eq. auto.
  - exists v'. by rewrite lookup_insert_ne.
Qed.

#[export] Instance grows_preorder : PreOrder grows.
Proof.
  split.
  - intros d. split; apply persists_refl, _.
  - intros d1 d2 d3 [? ? ? ?] [? ? ? ?]. split; eapply persists_trans; eauto; apply _.
Qed.

Lemma grows_has_execution a d d' : grows d d' → has_execution a d → has_execution a d'.
Proof.
  intros Hg (k & e & Hk & Ha). destruct (grows_executions _ _ Hg k e Hk) as (e' & Hk' & He).
  exists k, e'. split; [done|]. destruct He as [->|(_ & s & t & c & h & _ & ->)]; done.
Qed.

Lemma mutations_app l l' : mutations (l ++ l') = mutations l ++ mutations l'.
Proof. apply omap_app. Qed.

#[export] Instance evolves_preorder : PreOrder evolves.
Proof.
  split.
  - intros w Hw. split; [done|]. split; [done|]. exists []. rewrite app_nil_r.
    split; [done|]. split; [constructor|]. set_solver.
  - intros w1 w2 w3 H12 H23 Hw. destruct (H12 Hw) as (Hw2 & G12 & l & E12 & N12 & A12).
    destruct (H23 Hw2) as (Hw3 & G23 & l' & E23 & N23 & A23).
    split; [done|]. split; [by etrans|]. exists (l ++ l').
    split; [by rewrite E23, E12, app_assoc|]. rewrite mutations_app. split.
    + apply NoDup_app. split_and!; [done| |done]. intros a Ha Ha'.
      apply A12 in Ha as [_ Ha]. by apply A23 in Ha' as [Hn _].
    + intros a [Ha|Ha]%elem_of_app.
      * apply A12 in Ha as [? ?]. split; [done|]. by eapply grows_has_execution.
      * apply A23 in Ha as [Hn ?]. split; [|done]. intros Hx. by eapply Hn, grows_has_execution.
Qed.

(** A step that asks no connector for a mutation. *)
Lemma evolves_quiet w w' l :
  (well (caps w) → well (caps w') ∧ grows (caps w) (caps w')) →
  effects w' = effects w ++ l → mutations l = [] → evolves w w'.
Proof.
  intros H He Hl Hw. destruct (H Hw) as [Hw' Hg]. split; [done|]. split; [done|].
  exists l. rewrite Hl. split; [done|]. split; [constructor|]. set_solver.
Qed.

(** * Commands *)

Definition steps {A} (m : command A) : Prop := ∀ w, evolves w (m w).2.

(** A command that asks no connector for anything. *)
Definition silent {A} (m : command A) : Prop := ∀ w, effects (m w).2 = effects w.

(** A command that leaves these tables alone. *)
Definition calm {A} (m : command A) : Prop :=
  ∀ w, caps (m w).2 = caps w ∧ effects (m w).2 = effects w.

Create HintDb act discriminated.
#[export] Hint Constants Opaque : act.

Lemma steps_calm {A} (m : command A) : calm m → steps m.
Proof.
  intros Hm w. destruct (Hm w) as [Hc He]. apply (evolves_quiet _ _ []); [|by rewrite app_nil_r|done].
  rewrite Hc. done.
Qed.

Lemma silent_calm {A} (m : command A) : calm m → silent m.
Proof. intros Hm w. apply Hm. Qed.

Lemma calm_readonly {A} (m : command A) : readonly m → calm m.
Proof. intros Hm w. by rewrite (Hm w). Qed.

Lemma calm_on_runs {A} (m : RunStore.command A) : calm (on_runs m).
Proof. intros w. unfold on_runs. by destruct (m (host w)). Qed.

Lemma steps_bind {A B} (m : command A) (k : A → command B) :
  steps m → (∀ a, steps (k a)) → steps (m ≫= k).
Proof.
  intros Hm Hk w. unfold mbind, action_bind. specialize (Hm w).
  destruct (m w) as [[a|e] w1]; simpl in *; [|done]. etrans; [exact Hm|apply Hk].
Qed.

Lemma silent_bind {A B} (m : command A) (k : A → command B) :
  silent m → (∀ a, silent (k a)) → silent (m ≫= k).
Proof.
  intros Hm Hk w. unfold mbind, action_bind. specialize (Hm w).
  destruct (m w) as [[a|e] w1]; simpl in *; [|done]. by rewrite Hk.
Qed.

Lemma calm_bind {A B} (m : command A) (k : A → command B) :
  calm m → (∀ a, calm (k a)) → calm (m ≫= k).
Proof.
  intros Hm Hk w. unfold mbind, action_bind. specialize (Hm w).
  destruct (m w) as [[a|e] w1]; simpl in *; [|done].
  destruct (Hk a w1) as [-> ->]. done.
Qed.

Lemma steps_catch {A} (m : command A) h : steps m → (∀ e, steps (h e)) → steps (catch m h).
Proof.
  intros Hm Hh w. unfold catch. specialize (Hm w). destruct (m w) as [[a|e] w1]; [done|].
  etrans; [exact Hm|apply Hh].
Qed.

Lemma steps_run {A} (m : command A) : steps m → silent m → steps (run m).
Proof.
  intros Hm Hs w. unfold run. destruct (RunStore.active (host w)); [done|].
  specialize (Hm (on_host (set_active true) w)). specialize (Hs (on_host (set_active true) w)).
  destruct (m (on_host (set_active true) w)) as [[a|e] w1]; simpl in *.
  - done.
  - apply (evolves_quiet _ _ []); simpl; [done| |done]. by rewrite Hs, app_nil_r.
Qed.

Lemma silent_run {A} (m : command A) : silent m → silent (run m).
Proof.
  intros Hs w. unfold run. destruct (RunStore.active (host w)); [done|].
  specialize (Hs (on_host (set_active true) w)).
  by destruct (m (on_host (set_active true) w)) as [[a|e] w1].
Qed.

Lemma calm_lift {A} (r : outcome A) : calm (lift r).
Proof. done. Qed.
Lemma calm_ret {A} (a : A) : calm (mret a).
Proof. done. Qed.
Lemma calm_throw {A} (e : error) : calm (mthrow e : command A).
Proof. done. Qed.
Lemma calm_refuse b e : calm (refuse_if b e).
Proof. done. Qed.
Lemma calm_get : calm (get : command world).
Proof. done. Qed.
Lemma calm_on_object {P} (p : P) m : calm (on_object p m).
Proof. unfold on_object. by destruct (m p) as [[]?]. Qed.

#[export] Hint Resolve calm_lift calm_ret calm_throw calm_refuse calm_get calm_on_object calm_on_runs
  : act.

(** Splits a command at its binds and branches. *)
Ltac calmly :=
  lazymatch goal with
  | |- calm (mbind _ _) => apply calm_bind; [calmly|intros ?; calmly]
  | |- calm (if ?b then _ else _) => destruct b; calmly
  | |- calm (match ?x with _ => _ end) => destruct x; calmly
  | |- _ => eauto 3 with act nocore
  end.

Lemma calm_findResource k : calm (findResource k).
Proof. unfold findResource. calmly. Qed.
Lemma calm_findGrant k : calm (findGrant k).
Proof. unfold findGrant. calmly. Qed.
Lemma calm_listGrants project r : calm (listGrants project r).
Proof. unfold listGrants. calmly. Qed.
Lemma calm_findActionRequest k : calm (findActionRequest k).
Proof. unfold findActionRequest. calmly. Qed.
Lemma calm_findSimulation a p : calm (findActionSimulationByAction a p).
Proof. unfold findActionSimulationByAction. calmly. Qed.
Lemma calm_findApproval a p : calm (findApprovalByAction a p).
Proof. unfold findApprovalByAction. calmly. Qed.
Lemma calm_findExecution a p : calm (findExecutionByAction a p).
Proof. unfold findExecutionByAction. calmly. Qed.

#[export] Hint Resolve calm_findResource calm_findGrant calm_listGrants calm_findActionRequest
  calm_findSimulation calm_findApproval calm_findExecution : act.

(** ** The statements that write *)

Lemma silent_write f : silent (write f).
Proof. done. Qed.

#[export] Hint Resolve silent_write : act.
#[export] Hint Extern 4 (silent _) => apply silent_calm; solve [calmly] : act.

Ltac silently :=
  lazymatch goal with
  | |- silent (mbind _ _) => apply silent_bind; [silently|intros ?; silently]
  | |- silent (if ?b then _ else _) => destruct b; silently
  | |- silent (match ?x with _ => _ end) => destruct x; silently
  | |- _ => eauto 3 with act nocore
  end.

(** A write that leaves the four tables alone. *)
Lemma steps_write_other f :
  (∀ d, requests (f d) = requests d ∧ simulations (f d) = simulations d ∧
        approvals (f d) = approvals d ∧ executions (f d) = executions d) →
  steps (write f).
Proof.
  intros Hf w. apply (evolves_quiet _ _ []); simpl; [|by rewrite app_nil_r|done].
  destruct (Hf (caps w)) as (H1 & H2 & H3 & H4). intros [R S A X U]. split.
  - constructor; rewrite ?H1, ?H2, ?H3, ?H4; auto.
  - constructor; rewrite ?H1, ?H2, ?H3, ?H4; apply persists_refl, _.
Qed.

Lemma steps_ret {A} (a : A) : steps (mret a).
Proof. apply steps_calm; calmly. Qed.

#[export] Hint Resolve steps_ret : act.
#[export] Hint Extern 4 (steps _) => apply steps_calm; solve [calmly] : act.

Ltac stepping :=
  lazymatch goal with
  | |- steps (mbind _ _) => apply steps_bind; [stepping|intros ?; stepping]
  | |- steps (if ?b then _ else _) => destruct b; stepping
  | |- steps (match ?x with _ => _ end) => destruct x; stepping
  | |- _ => eauto 3 with act nocore
  end.

#[export] Hint Extern 3 (steps (write (set_resources _))) => apply steps_write_other; done : act.
#[export] Hint Extern 3 (steps (write (set_grants _))) => apply steps_write_other; done : act.

Lemma steps_saveResource v : steps (saveResource v).
Proof. unfold saveResource. stepping. Qed.
Lemma steps_disableResource k p t : steps (disableResource k p t).
Proof. unfold disableResource. stepping. Qed.
Lemma steps_saveGrant v : steps (saveGrant v).
Proof. unfold saveGrant. stepping. Qed.
Lemma steps_revokeGrant k p t : steps (revokeGrant k p t).
Proof. unfold revokeGrant. stepping. Qed.

Lemma at_get {A} (k : world → command A) w : evolves w (k w w).2 → evolves w ((get ≫= k) w).2.
Proof. done. Qed.

Lemma at_refuse {A} b e (k : command A) w :
  (b = false → evolves w (k w).2) → evolves w ((refuse_if b e;; k) w).2.
Proof. unfold mbind, action_bind, refuse_if, lift. destruct b; simpl; [done|auto]. Qed.

Lemma at_write {A} f (a : A) w :
  (well (caps w) → well (f (caps w)) ∧ grows (caps w) (f (caps w))) →
  evolves w ((write f;; mret a) w).2.
Proof. intros Hf. by apply (evolves_quiet _ _ []); simpl; [|rewrite app_nil_r|]. Qed.

Lemma at_write_last f w :
  (well (caps w) → well (f (caps w)) ∧ grows (caps w) (f (caps w))) → evolves w (write f w).2.
Proof. intros Hf. by apply (evolves_quiet _ _ []); simpl; [|rewrite app_nil_r|]. Qed.

Lemma steps_get {A} (k : world → command A) : (∀ w, evolves w (k w w).2) → steps (get ≫= k).
Proof. intros Hk w. apply Hk. Qed.

Lemma bound_later a p p' s : later_request p p' → bound a p s → bound a p' s.
Proof. intros [-> _] []. by constructor. Qed.

Lemma later_request_project p p' : later_request p p' → projectId p' = projectId p.
Proof. by intros [-> _]. Qed.

(** The table of requests may grow on its own. *)
Lemma well_set_requests f d :
  well d → persists later_request (requests d) (f (requests d)) →
  (∀ k p, f (requests d) !! k = Some p →
     id p = k ∧ isDecisionStatusCompatible (decision p) (status p) = true) →
  well (set_requests f d) ∧ grows d (set_requests f d).
Proof.
  intros [R S A X U] Hp Hr. split.
  - constructor; simpl; [done|done| | |].
    + intros k a Ha. destruct (A k a Ha) as (Hid & p & s & Hk & Hs & Hb). split; [done|].
      destruct (Hp _ _ Hk) as (p' & Hk' & Hl). exists p', s. eauto using bound_later.
    + intros k e He. destruct (X k e He) as (Hid & p & a & Hk & Hpr & Ha & Hst & Hac).
      split; [done|]. destruct (Hp _ _ Hk) as (p' & Hk' & Hl). exists p', a. split_and!; try done.
      by rewrite (later_request_project _ _ Hl).
    + exact U.
  - constructor; simpl; [done|apply persists_refl, _..].
Qed.

Lemma steps_insertActionRequest v : steps (insertActionRequest v).
Proof.
  unfold insertActionRequest. apply steps_bind; [calmly; eauto with act|intros ?].
  apply steps_bind; [eauto with act|intros ?]. apply steps_get. intros w.
  apply at_refuse; intros _. apply at_refuse; intros Hst%negb_false_iff%bool_decide_eq_true.
  do 3 (apply at_refuse; intros _).
  apply at_refuse; intros Hfresh%bool_decide_eq_false%eq_None_not_Some.
  do 2 (apply at_refuse; intros _). apply at_write_last. intros Hw.
  apply well_set_requests; [done| |].
  - apply persists_insert; [apply _|]. congruence.
  - intros k p [[<- <-]|[_ Hk]]%lookup_insert_Some; [|by apply Hw]. split; [done|].
    rewrite Hst. by destruct (decision (request_row v)).
Qed.

(** What the schema's trigger lets through is a transition of the aggregate. *)
Lemma transition_allowed_edge p s d :
  isDecisionStatusCompatible (decision p) (status p) = true →
  transition_allowed p s d = true → edge_allowed (decision p) (status p) s = true.
Proof.
  unfold transition_allowed, edge_allowed.
  destruct (status p), s; intros Hc Ha; try discriminate Ha; revert Hc Ha;
    destruct (decision p); simpl; intros Hc Ha; try discriminate Hc; try discriminate Ha;
    rewrite ?andb_false_r, ?andb_false_l, ?orb_false_r in Ha; try discriminate Ha; try done.
Qed.

Lemma edge_allowed_compatible d s s' :
  edge_allowed d s s' = true → isDecisionStatusCompatible d s' = true.
Proof. unfold edge_allowed. intros H. by repeat apply andb_prop in H as [H ?]. Qed.

Lemma steps_transitionActionRequest k project from to t :
  steps (transitionActionRequest k project from to t).
Proof.
  unfold transitionActionRequest. apply steps_bind; [eauto with act|intros _].
  apply steps_get. intros w. destruct (requests (caps w) !! k) as [p|] eqn:Hk; [|apply steps_ret].
  destruct (_ && _); [|apply steps_ret].
  apply at_refuse; intros Hedge. do 2 (apply at_refuse; intros _).
  apply at_refuse; intros Ht. apply at_write. intros Hw.
  destruct (well_request _ Hw _ _ Hk) as [Hid Hc].
  assert (later_request p (with_status p to t) ∧
          isDecisionStatusCompatible (decision p) to = true) as [Hl Hc'].
  { destruct (decide (to = status p)) as [->|Hne].
    - split; [|done]. split; [by destruct p|constructor].
    - rewrite bool_decide_eq_false_2 in Hedge by done. simpl in Hedge.
      apply negb_false_iff, transition_allowed_edge in Hedge; [|done].
      split; [|by eapply edge_allowed_compatible]. split; [done|]. simpl. by apply rtc_once. }
  apply well_set_requests; [done| |].
  - apply persists_insert; [apply _|]. intros old Hold. simplify_eq. done.
  - intros k' p' [[<- <-]|[_ Hk']]%lookup_insert_Some; [done|]. by apply Hw.
Qed.

Lemma find_row_None {V} (p : V → bool) m k v :
  find_row p m = None → m !! k = Some v → p v = false.
Proof.
  unfold find_row. intros Hf Hk. apply fmap_None in Hf. apply elem_of_map_to_list in Hk.
  apply list_elem_of_In in Hk. by apply (find_none _ _ Hf) in Hk.
Qed.

Lemma find_row_Some {V} (p : V → bool) m v :
  find_row p m = Some v → ∃ k, m !! k = Some v ∧ p v = true.
Proof.
  unfold find_row. intros ([k v'] & Hf & ->)%fmap_Some.
  apply find_some in Hf as [Hin Hp]. exists k. split; [|done].
  by apply elem_of_map_to_list, list_elem_of_In.
Qed.

Lemma steps_insertActionSimulation s : steps (insertActionSimulation s).
Proof.
  unfold insertActionSimulation. apply steps_bind; [eauto with act|intros _].
  apply steps_get. intros w. apply at_refuse; intros _.
  destruct (bool_decide (is_Some _)) eqn:Hfresh; simpl; [reflexivity|].
  apply bool_decide_eq_false, eq_None_not_Some in Hfresh.
  destruct (bool_decide _); [reflexivity|]. apply at_write. intros [R S A X U].
  assert (persists eq (simulations (caps w)) (<[ActionSimulation.id s:=s]> (simulations (caps w))))
    as Hp by (apply persists_insert; [apply _|congruence]).
  split.
  - constructor; simpl; [exact R| | |exact X|exact U].
    + intros k s' [[<- <-]|[_ Hk]]%lookup_insert_Some; [done|]. by apply S.
    + intros k a Ha. destruct (A k a Ha) as (Hid & p & s' & Hk & Hs & Hb). split; [done|].
      destruct (Hp _ _ Hs) as (s2 & Hs2 & ->). eauto.
  - constructor; simpl; try apply persists_refl, _. done.
Qed.

Lemma approval_matches_bound a d : well d → approval_matches a d = true →
  ∃ p s, requests d !! ActionApproval.actionRequestId a = Some p ∧
         simulations d !! ActionApproval.simulationId a = Some s ∧ bound a p s.
Proof.
  unfold approval_matches. intros Hw.
  destruct (requests d !! _) as [p|] eqn:Hp; [|done].
  destruct (simulations d !! _) as [s|] eqn:Hs; [|done].
  intros H. repeat apply andb_prop in H as [H ?].
  repeat match goal with Hb : bool_decide _ = true |- _ => apply bool_decide_eq_true in Hb end.
  exists p, s. split; [done|]. split; [done|].
  destruct (well_request _ Hw _ _ Hp) as [Hid _]. constructor; congruence.
Qed.

(** The table of approvals may grow on its own. *)
Lemma well_set_approvals f d :
  well d → persists later_approval (approvals d) (f (approvals d)) →
  (∀ k a, f (approvals d) !! k = Some a →
     ActionApproval.id a = k ∧
     ∃ p s, requests d !! ActionApproval.actionRequestId a = Some p ∧
            simulations d !! ActionApproval.simulationId a = Some s ∧ bound a p s) →
  well (set_approvals f d) ∧ grows d (set_approvals f d).
Proof.
  intros [R S A X U] Hp Hr. split.
  - constructor; simpl; [done..| |exact U].
    intros k e He. destruct (X k e He) as (Hid & p & a & Hk & Hpr & Ha & Hst & Hac). split; [done|].
    destruct (Hp _ _ Ha) as (a' & Ha' & [->|[Hpend _]]); [|congruence].
    exists p, a. done.
  - constructor; simpl; try apply persists_refl, _. done.
Qed.

Lemma steps_insertApproval a : steps (insertApproval a).
Proof.
  unfold insertApproval. do 2 (apply steps_bind; [eauto with act|intros _]).
  apply steps_get. intros w. apply at_refuse; intros Hm%negb_false_iff.
  destruct (negb (approval_check a)); simpl; [reflexivity|].
  destruct (bool_decide (is_Some _)) eqn:Hfresh; simpl; [reflexivity|].
  apply bool_decide_eq_false, eq_None_not_Some in Hfresh.
  destruct (bool_decide _); [reflexivity|]. apply at_write. intros Hw.
  apply well_set_approvals; [done| |].
  - apply persists_insert; [apply _|congruence].
  - intros k b [[<- <-]|[_ Hk]]%lookup_insert_Some; [|by apply Hw].
    split; [done|]. by apply approval_matches_bound.
Qed.

Lemma steps_transitionApproval k project from to t who :
  steps (transitionApproval k project from to t who).
Proof.
  unfold transitionApproval. apply steps_bind; [eauto with act|intros _].
  apply steps_get. intros w. destruct (approvals (caps w) !! k) as [a|] eqn:Hk; [|apply steps_ret].
  destruct (_ && _); [|apply steps_ret]. apply at_refuse; intros Hd%negb_false_iff.
  apply at_write. intros Hw. unfold approval_decidable in Hd. repeat apply andb_prop in Hd as [Hd ?].
  apply bool_decide_eq_true in Hd.
  match goal with Hb : negb (bool_decide (to = _)) = true |- _ =>
    apply negb_true_iff, bool_decide_eq_false in Hb; rename Hb into Hto end.
  apply well_set_approvals; [done| |].
  - apply persists_insert; [apply _|]. intros old Hold. simplify_eq. right. split; [done|].
    by exists to, (Some t), (Some who).
  - intros k' b [[<- <-]|[_ Hk']]%lookup_insert_Some; [|by apply Hw].
    destruct (well_approval _ Hw _ _ Hk) as (Hid & p & s & Hp & Hs & []).
    split; [done|]. exists p, s. by split_and!.
Qed.

(** The table of executions may grow on its own. *)
Lemma well_set_executions f d :
  well d → persists later_execution (executions d) (f (executions d)) →
  (∀ k e, f (executions d) !! k = Some e →
     ActionExecution.id e = k ∧
     ∃ p a, requests d !! ActionExecution.actionRequestId e = Some p ∧
            projectId p = ActionExecution.projectId e ∧
            approvals d !! ActionExecution.approvalId e = Some a ∧
            ActionApproval.status a = ActionApproval.approved ∧
            ActionApproval.actionRequestId a = ActionExecution.actionRequestId e) →
  (∀ k e k' e', f (executions d) !! k = Some e → f (executions d) !! k' = Some e' →
     ActionExecution.actionRequestId e = ActionExecution.actionRequestId e' → k = k') →
  well (set_executions f d) ∧ grows d (set_executions f d).
Proof.
  intros [R S A X U] Hp Hr Hu. split; [by constructor|].
  constructor; simpl; try apply persists_refl, _. done.
Qed.

Lemma execution_matches_approved e d : well d → execution_matches e d = true →
  ∃ p a, requests d !! ActionExecution.actionRequestId e = Some p ∧
         projectId p = ActionExecution.projectId e ∧
         approvals d !! ActionExecution.approvalId e = Some a ∧
         ActionApproval.status a = ActionApproval.approved ∧
         ActionApproval.actionRequestId a = ActionExecution.actionRequestId e.
Proof.
  unfold execution_matches. intros Hw.
  destruct (requests d !! _) as [p|] eqn:Hp; [|done].
  destruct (approvals d !! _) as [a|] eqn:Ha; [|done].
  intros H. repeat apply andb_prop in H as [H ?].
  repeat match goal with Hb : bool_decide _ = true |- _ => apply bool_decide_eq_true in Hb end.
  destruct (well_request _ Hw _ _ Hp) as [Hid _]. exists p, a. split_and!; congruence.
Qed.

(** Both keys of a row name its request, so none of another key does. *)
Lemma no_execution_of e d :
  well d → execution_matches e d = true →
  execution_of (ActionExecution.actionRequestId e) (ActionExecution.projectId e) d = None →
  ¬ has_execution (ActionExecution.actionRequestId e) d.
Proof.
  intros Hw Hm Hnone (k & e' & Hk & Ha). apply (find_row_None _ _ _ _ Hnone) in Hk as Hno.
  destruct (execution_matches_approved _ _ Hw Hm) as (p & a & Hp & Hproj & _).
  destruct (well_execution _ Hw _ _ Hk) as (_ & p' & a' & Hp' & Hproj' & _).
  assert (p' = p) as -> by congruence. rewrite <- Hproj, Hproj', Ha in Hno.
  by rewrite !bool_decide_eq_true_2 in Hno.
Qed.

Lemma steps_insertExecution e : steps (insertExecution e).
Proof.
  unfold insertExecution. do 2 (apply steps_bind; [eauto with act|intros _]).
  apply steps_get. intros w. apply at_refuse; intros Hm%negb_false_iff.
  destruct (negb (execution_check e)); simpl; [reflexivity|].
  destruct (bool_decide (is_Some _)) eqn:Hfresh; simpl; [reflexivity|].
  apply bool_decide_eq_false, eq_None_not_Some in Hfresh.
  destruct (bool_decide _) eqn:Hnone; [reflexivity|].
  apply bool_decide_eq_false, eq_None_not_Some in Hnone.
  apply at_refuse; intros _. apply at_write. intros Hw.
  pose proof (no_execution_of _ _ Hw Hm Hnone) as Hno.
  apply well_set_executions; [done| | |].
  - apply persists_insert; [apply _|congruence].
  - intros k b [[<- <-]|[_ Hk]]%lookup_insert_Some; [|by apply Hw].
    split; [done|]. by apply execution_matches_approved.
  - intros k b k' b' [[<- <-]|[_ Hk]]%lookup_insert_Some [[<- <-]|[_ Hk']]%lookup_insert_Some Hab.
    + done.
    + destruct Hno. by exists k', b'.
    + destruct Hno. by exists k, b.
    + by eapply well_unique.
Qed.

Lemma steps_transitionExecution k project from to t code hash :
  steps (transitionExecution k project from to t code hash).
Proof.
  unfold transitionExecution. apply steps_bind; [eauto with act|intros _].
  apply steps_get. intros w. destruct (executions (caps w) !! k) as [e|] eqn:Hk; [|reflexivity].
  destruct (_ && _); [|reflexivity]. apply at_refuse; intros Hd%negb_false_iff.
  apply at_refuse; intros _. apply at_write. intros Hw.
  unfold execution_finishable in Hd. repeat apply andb_prop in Hd as [Hd ?].
  apply bool_decide_eq_true in Hd.
  apply well_set_executions; [done| | |].
  - apply persists_insert; [apply _|]. intros old Hold. simplify_eq. right. split; [done|].
    exists to, (Some t), code, hash. split; [|done]. intros ->. done.
  - intros k' b [[<- <-]|[_ Hk']]%lookup_insert_Some; [|by apply Hw].
    destruct (well_execution _ Hw _ _ Hk) as (Hid & p & a & Hp). split; [done|]. by exists p, a.
  - intros k1 b k2 b' [[<- <-]|[_ Hk1]]%lookup_insert_Some [[<- <-]|[_ Hk2]]%lookup_insert_Some Hab;
      by eapply well_unique.
Qed.

#[export] Hint Resolve steps_saveResource steps_disableResource steps_saveGrant steps_revokeGrant
  steps_insertActionRequest steps_transitionActionRequest steps_insertActionSimulation
  steps_insertApproval steps_transitionApproval steps_insertExecution steps_transitionExecution
  : act.

Lemma silent_saveResource v : silent (saveResource v).
Proof. unfold saveResource. silently. Qed.
Lemma silent_disableResource k p t : silent (disableResource k p t).
Proof. unfold disableResource. silently. Qed.
Lemma silent_saveGrant v : silent (saveGrant v).
Proof. unfold saveGrant. silently. Qed.
Lemma silent_revokeGrant k p t : silent (revokeGrant k p t).
Proof. unfold revokeGrant. silently. Qed.
Lemma silent_insertActionRequest v : silent (insertActionRequest v).
Proof. unfold insertActionRequest. silently. Qed.
Lemma silent_transitionActionRequest k p from to t : silent (transitionActionRequest k p from to t).
Proof. unfold transitionActionRequest. silently. Qed.
Lemma silent_insertActionSimulation s : silent (insertActionSimulation s).
Proof. unfold insertActionSimulation. silently. Qed.
Lemma silent_insertApproval a : silent (insertApproval a).
Proof. unfold insertApproval. silently. Qed.
Lemma silent_transitionApproval k p from to t who : silent (transitionApproval k p from to t who).
Proof. unfold transitionApproval. silently. Qed.
Lemma silent_insertExecution e : silent (insertExecution e).
Proof. unfold insertExecution. silently. Qed.
Lemma silent_transitionExecution k p from to t c h : silent (transitionExecution k p from to t c h).
Proof. unfold transitionExecution. silently. Qed.

#[export] Hint Resolve silent_saveResource silent_disableResource silent_saveGrant
  silent_revokeGrant silent_insertActionRequest silent_transitionActionRequest
  silent_insertActionSimulation silent_insertApproval silent_transitionApproval
  silent_insertExecution silent_transitionExecution : act.

(** ** An execution that was inserted was not there before *)

Lemma insertExecution_true e w w' :
  insertExecution e w = (Ok true, w') → well (caps w) →
  ¬ has_execution (ActionExecution.actionRequestId e) (caps w) ∧
  executions (caps w') !! ActionExecution.id e = Some e.
Proof.
  unfold insertExecution. intros (? & _ & H)%lift_bind_Ok Hw.
  apply lift_bind_Ok in H as (? & _ & H). rewrite get_bind in H.
  apply refuse_if_bind_Ok in H as [Hm%negb_false_iff H].
  destruct (negb (execution_check e)); simpl in H; [done|].
  destruct (bool_decide (is_Some (executions (caps w) !! _))); simpl in H; [done|].
  destruct (bool_decide _) eqn:Hnone; [done|].
  apply bool_decide_eq_false, eq_None_not_Some in Hnone.
  apply refuse_if_bind_Ok in H as [_ [= <-]]. split; [by apply no_execution_of|].
  apply lookup_insert_eq.
Qed.

End ActionSafety.
