(* ===== verification/ActionHistory.v ===== *)
(** Histories of controlled actions: the services of [ActionServices] and
    [ActionInvocation] called in any order and, at each wait outside a
    transaction, interleaved with each other to any depth.  Shows what holds of
    the stored records and of the mutations connectors were asked to make after
    every history. *)
From S2P Require Import Prelude Errors PipelineModel Json ActionModel PolicyModel ConnectorModel AgentModel Store RunStore.
From S2P Require Import RunHistory TaskServices PipelineServices ActionStore ActionServices ActionInvocation ActionSafety.
Import Canonical Policy ActionStore ActionServices ActionInvocation ActionSafety.

Module ActionHistory.

Import ActionRequest.

(** * What each service guarantees *)

Section services.
  Context {show : ShowNumber} {env : Store.Environment} {others : Elsewhere}.
  Context (sha256 : string → string) (connectors : Connector.ConnectorRegistry).
  Context (considerate : ∀ n w, evolves w (elsewhere n w)).

Lemma steps_await n : steps (await n).
Proof. intros w. apply considerate. Qed.

Lemma steps_effect e : (∀ a, e ≠ mutated a) → steps (record_effect e).
Proof.
  intros He w. apply (evolves_quiet _ _ [e]); simpl; [done|done|].
  destruct e; try done. by destruct (He actionRequestId).
Qed.

#[local] Hint Resolve steps_await : act.
#[local] Hint Extern 3 (steps (record_effect _)) => apply steps_effect; done : act.

Lemma calm_now : calm now.
Proof. apply calm_on_runs. Qed.
Lemma calm_generate : calm generate.
Proof. apply calm_on_runs. Qed.
Lemma calm_audit t at_ ai p gt gi pl : calm (audit t at_ ai p gt gi pl).
Proof. unfold audit. calmly. Qed.

#[local] Hint Resolve calm_now calm_generate calm_audit : act.

Lemma calm_require_project p : calm (require_project p).
Proof. unfold require_project. calmly. Qed.
Lemma calm_require_resource r p : calm (require_resource r p).
Proof. unfold require_resource. calmly. Qed.
Lemma calm_require_principal i : calm (require_principal i).
Proof. unfold require_principal. calmly. Qed.
Lemma calm_require_action a p : calm (require_action a p).
Proof. unfold require_action. calmly. Qed.
Lemma calm_require_enabled_agent a p : calm (require_enabled_agent a p).
Proof. unfold require_enabled_agent. calmly. Qed.

#[local] Hint Resolve calm_require_project calm_require_resource calm_require_principal
  calm_require_action calm_require_enabled_agent : act.

Lemma calm_evaluate_policy i : calm (evaluate_policy connectors i).
Proof. unfold evaluate_policy. calmly. Qed.
Lemma calm_resolveProvenance i : calm (resolveProvenance i).
Proof. unfold resolveProvenance. calmly. Qed.
Lemma calm_request_event p i t pl : calm (request_event p i t pl).
Proof. unfold request_event. calmly. Qed.

#[local] Hint Resolve calm_evaluate_policy calm_resolveProvenance calm_request_event : act.

Lemma calm_audit_requested p i e : calm (audit_requested p i e).
Proof. unfold audit_requested. calmly. Qed.
Lemma calm_audit_decided p i e n : calm (audit_decided p i e n).
Proof. unfold audit_decided. calmly. Qed.
Lemma calm_require_run_binding p : calm (require_run_binding p).
Proof. unfold require_run_binding. calmly. Qed.

#[local] Hint Resolve calm_audit_requested calm_audit_decided calm_require_run_binding : act.

Lemma calm_fresh_authorization p t : calm (fresh_authorization sha256 connectors p t).
Proof. unfold fresh_authorization, reevaluate. calmly. Qed.
Lemma calm_require_authorized p d o : calm (require_authorized sha256 connectors p d o).
Proof. unfold require_authorized, reevaluate. calmly. Qed.
Lemma calm_require_current r : calm (require_current_resource r).
Proof. unfold require_current_resource. calmly. Qed.
Lemma calm_createSimulation p d l : calm (createSimulation sha256 p d l).
Proof. unfold createSimulation. calmly. Qed.

#[local] Hint Resolve calm_fresh_authorization calm_require_authorized calm_require_current
  calm_createSimulation : act.

Lemma steps_move_request p project from to t : steps (move_request p project from to t).
Proof. unfold move_request. stepping. Qed.
Lemma silent_move_request p project from to t : silent (move_request p project from to t).
Proof. unfold move_request. silently. Qed.

#[local] Hint Resolve steps_move_request silent_move_request : act.

(** A transaction of the services. *)
Ltac transaction := apply steps_run; [stepping|silently].
#[local] Hint Extern 3 (steps (run _)) => transaction : act.

Lemma steps_register i : steps (register_resource connectors i).
Proof. unfold register_resource. stepping. Qed.
Lemma steps_disable p r : steps (disable_resource p r).
Proof. unfold disable_resource. stepping. Qed.
Lemma steps_create_grant i : steps (create_capability_grant connectors i).
Proof. unfold create_capability_grant. stepping. Qed.
Lemma steps_revoke p g who : steps (revoke_capability_grant p g who).
Proof. unfold revoke_capability_grant. stepping. Qed.

Lemma steps_request i : steps (request_action sha256 connectors i).
Proof. unfold request_action. stepping. Qed.

#[local] Hint Resolve steps_request : act.

Lemma steps_request_from_run r : steps (request_from_agent_run sha256 connectors r).
Proof. unfold request_from_agent_run. stepping. Qed.
Lemma steps_decide b p a who : steps (decide_action sha256 b p a who).
Proof. unfold decide_action. stepping. Qed.

Lemma steps_lease a p : steps (acquire_authorization_lease sha256 connectors a p).
Proof. unfold acquire_authorization_lease. stepping. Qed.
Lemma steps_transition p s m t pl : steps (transition_request p s m t pl).
Proof. unfold transition_request. stepping. Qed.
Lemma steps_call_connector l : steps (call_connector l).
Proof. unfold call_connector. stepping. Qed.
Lemma steps_store_simulation p s a t u : steps (store_simulation p s a t u).
Proof. unfold store_simulation. stepping. Qed.

#[local] Hint Resolve steps_request_from_run steps_lease steps_transition steps_call_connector
  steps_store_simulation : act.
#[local] Hint Extern 3 (steps (catch _ _)) => apply steps_catch; [|intros ?]; stepping : act.

Lemma steps_invoke_read l : steps (invoke_read l).
Proof. unfold invoke_read. stepping. Qed.
Lemma steps_invoke_mutation l : steps (invoke_mutation sha256 l).
Proof. unfold invoke_mutation. stepping. Qed.

#[local] Hint Resolve steps_invoke_read steps_invoke_mutation : act.

Lemma steps_invoke_authorized p a : steps (invoke_authorized sha256 connectors p a).
Proof. unfold invoke_authorized. stepping. Qed.

#[local] Hint Resolve steps_invoke_authorized : act.

Lemma steps_invoke i : steps (invoke_action sha256 connectors i).
Proof. unfold invoke_action. stepping. Qed.

(** ** Executions *)

Lemma steps_acquire p a : steps (acquire_lease sha256 connectors p a).
Proof. unfold acquire_lease. stepping. Qed.
Lemma silent_acquire p a : silent (acquire_lease sha256 connectors p a).
Proof. unfold acquire_lease. apply silent_run. silently. Qed.

Lemma steps_write_outcome p e s t c h pl : steps (write_outcome p e s t c h pl).
Proof. unfold write_outcome. stepping. Qed.
Lemma silent_write_outcome p e s t c h pl : silent (write_outcome p e s t c h pl).
Proof. unfold write_outcome. silently. Qed.

#[local] Hint Resolve steps_write_outcome silent_write_outcome : act.

Lemma steps_finish l s c r : steps (finish l s c r).
Proof. unfold finish. stepping. Qed.
Lemma steps_persist_as_unknown l : steps (persist_as_unknown l).
Proof. unfold persist_as_unknown. stepping. Qed.

#[local] Hint Resolve steps_finish steps_persist_as_unknown : act.

Lemma steps_finish_with_fallback l s c r : steps (finish_with_fallback l s c r).
Proof. unfold finish_with_fallback. stepping. Qed.

(** ** What a lease to execute stands on *)

Lemma require_action_Ok action project w p w' :
  require_action action project w = (Ok p, w') →
  w' = w ∧ projectId p = project ∧
  ∃ row, requests (caps w) !! action = Some row ∧ restored_request row = Ok p.
Proof.
  unfold require_action, findActionRequest. intros (found & w1 & Hf & H)%action_bind_Ok.
  rewrite get_bind in Hf. destruct (requests (caps w) !! action) as [row|] eqn:Hrow; [|by injection Hf as <- <-].
  apply lift_bind_Ok in Hf as (v & Hv & [= <- <-]).
  apply refuse_if_bind_Ok in H as [Hp%negb_false_iff%bool_decide_eq_true [= <- <-]]. eauto.
Qed.

Lemma findApproval_Some action project w a w' :
  findApprovalByAction action project w = (Ok (Some a), w') →
  w' = w ∧ approval_of action project (caps w) = Some a.
Proof.
  unfold findApprovalByAction. rewrite get_bind.
  destruct (approval_of action project (caps w)) as [row|]; [|done].
  intros (v & Hv%ActionApproval.approval_normalize_Ok & [= <- <-])%lift_bind_Ok. by subst.
Qed.

Lemma findSimulation_Some action project w s w' :
  findActionSimulationByAction action project w = (Ok (Some s), w') →
  w' = w ∧ ∃ row, simulation_of action project (caps w) = Some row ∧ restored_simulation row = Ok s.
Proof.
  unfold findActionSimulationByAction. rewrite get_bind.
  destruct (simulation_of action project (caps w)) as [row|]; [|done].
  intros (v & Hv & [= <- <-])%lift_bind_Ok. eauto.
Qed.

Lemma on_object_Ok {P} (m : method P unit) p w p' w' :
  on_object p m w = (Ok p', w') → w' = w ∧ m p = (Ok tt, p').
Proof. unfold on_object. destruct (m p) as [[[]|e] q]; [|done]. intros [= -> ->]. done. Qed.

Lemma calm_caps {A} (m : command A) w r w' : calm m → m w = (r, w') → caps w' = caps w.
Proof. intros Hm E. destruct (Hm w) as [Hc _]. by rewrite E in Hc. Qed.

Lemma calm_effects {A} (m : command A) w r w' : calm m → m w = (r, w') → effects w' = effects w.
Proof. intros Hm E. destruct (Hm w) as [_ He]. by rewrite E in He. Qed.

Lemma act_run_Ok {A} (m : command A) w a w' :
  run m w = (Ok a, w') → ∃ w1, m (on_host (set_active true) w) = (Ok a, w1) ∧ caps w' = caps w1 ∧
    effects w' = effects w1.
Proof.
  unfold run. destruct (RunStore.active (host w)); [done|].
  destruct (m _) as [[b|e] w1]; [|done]. intros [= -> <-]. by exists w1.
Qed.

(** The lease, and the rows it was read from. *)
Record lease_of (project action : string) (d : tables) (l : ExecutionLease)
    (row p : Request) (s : Simulation) (a : Approval) : Prop := {
  lo_row : requests d !! action = Some row;
  lo_request : restored_request row = Ok p;
  lo_project : projectId p = project;
  lo_pending : status p = approval_pending;
  lo_definition : Connector.requireDefinition connectors (connector p) = Ok (el_definition l);
  lo_operation : Connector.requireOperation connectors (connector p) (operation p)
                 = Ok (el_operation l);
  lo_boundary : no_boundary p (el_definition l) (el_operation l) = false;
  lo_simulation_row : simulation_of (id p) (projectId p) d = Some s;
  lo_simulation : restored_simulation s = Ok (el_simulation l);
  lo_approval : approval_of (id p) (projectId p) d = Some a;
  lo_binding : assertApprovalBinding sha256 p (el_simulation l) a = Ok tt;
  lo_approved : ActionApproval.status a = ActionApproval.approved;
  lo_authorized : ∃ w1 w2, caps w1 = d ∧
    require_authorized sha256 connectors p (el_definition l) (el_operation l) w1 = (Ok tt, w2);
  lo_leased : ∃ at_, el_request l =
    with_fields p (normalizedArguments p) (effectiveConstraints p) executing (createdAt p) at_;
  lo_execution : ∃ id at_, el_execution l =
    ActionExecution.with_outcome (new_execution p (el_simulation l) a id)
      ActionExecution.executing at_ None None None
}.

Lemma steps_Ok {A} (m : command A) w r w' : steps m → m w = (r, w') → evolves w w'.
Proof. intros Hm E. specialize (Hm w). by rewrite E in Hm. Qed.

Lemma evolves_same w w1 w2 :
  caps w2 = caps w1 → effects w2 = effects w1 → evolves w w1 → evolves w w2.
Proof. unfold evolves, acts. by intros -> ->. Qed.

Lemma execution_start_Ok e t e' :
  ActionExecution.start e t = Ok e' →
  e' = ActionExecution.with_outcome e ActionExecution.executing t None None None.
Proof. apply ActionExecution.execution_normalize_Ok. Qed.

Lemma acquire_lease_Ok project action w l w' :
  acquire_lease sha256 connectors project action w = (Ok l, w') →
  ∃ row p s a, lease_of project action (caps w) l row p s a ∧
    ∃ w1 w2, caps w1 = caps w ∧ insertExecution (el_execution l) w1 = (Ok true, w2) ∧
      evolves w2 w'.
Proof.
  unfold acquire_lease. intros (w0 & H & Hw' & Hew')%act_run_Ok.
  apply action_bind_Ok in H as (p & w1 & (-> & Hproj & row & Hrow & Hp)%require_action_Ok & H).
  apply refuse_if_bind_Ok in H as [Hst%negb_false_iff%bool_decide_eq_true H].
  apply lift_bind_Ok in H as (definition & Hdef & H).
  apply lift_bind_Ok in H as (o & Ho & H).
  apply refuse_if_bind_Ok in H as [Hb H].
  apply action_bind_Ok in H as (fs & w2 & Hs & H). apply action_bind_Ok in H as (fa & w3 & Ha & H).
  apply action_bind_Ok in H as (s' & w4 & Hs' & H).
  destruct fs as [s|]; [|done]. injection Hs' as <- <-.
  apply action_bind_Ok in H as (a' & w4 & Ha' & H).
  destruct fa as [a|]; [|done]. injection Ha' as <- <-.
  apply findSimulation_Some in Hs as (-> & srow & Hsrow & Hs).
  apply findApproval_Some in Ha as (-> & Ha).
  apply lift_bind_Ok in H as (? & Hbind & H).
  apply refuse_if_bind_Ok in H as [Happ%negb_false_iff%bool_decide_eq_true H].
  apply action_bind_Ok in H as ([] & w2 & Hauth & H).
  apply action_bind_Ok in H as (existing & w3 & Hex & H).
  apply refuse_if_bind_Ok in H as [_ H].
  apply action_bind_Ok in H as (startedAt & w4 & Hnow & H).
  apply action_bind_Ok in H as (eid & w5 & Hid & H).
  apply lift_bind_Ok in H as (e & He%execution_start_Ok & H).
  apply action_bind_Ok in H as (inserted & w6 & Hins & H).
  assert (evolves w6 w0) as Hrest by (eapply steps_Ok; [|exact H]; stepping).
  apply refuse_if_bind_Ok in H as [Htrue%negb_false_iff H]. subst inserted.
  apply action_bind_Ok in H as (leased & w7 & [-> Hl]%on_object_Ok & H).
  apply request_transition_Ok in Hl as (_ & _ & _ & _ & _ & Hl).
  do 3 apply action_bind_Ok in H as (? & ? & _ & H). injection H as <- _.
  apply calm_caps in Hauth as C2; [|eauto with act]. apply calm_caps in Hex as C3; [|eauto with act].
  apply calm_caps in Hnow as C4; [|eauto with act]. apply calm_caps in Hid as C5; [|eauto with act].
  exists row, p, srow, a. split; [constructor; simpl; eauto|].
  - by destruct x.
  - by exists (on_host (set_active true) w), w2.
  - exists w5, w6. simpl. split; [by rewrite C5, C4, C3, C2|]. split; [done|].
    by eapply evolves_same.
Qed.

Lemma restored_request_Ok row p :
  restored_request row = Ok p →
  ∃ arguments constraints,
    p = with_fields row arguments constraints (status row) (createdAt row) (updatedAt row).
Proof.
  unfold restored_request, restore. intros H. inv_ok.
  eauto.
Qed.

Lemma acquire_lease_inserts project action w l w' :
  acquire_lease sha256 connectors project action w = (Ok l, w') → well (caps w) →
  id (el_request l) = action ∧ projectId (el_request l) = project ∧
  ¬ has_execution action (caps w) ∧
  ∃ e, executions (caps w') !! ActionExecution.id (el_execution l) = Some e ∧
       ActionExecution.actionRequestId e = action.
Proof.
  intros (row & p & s & a & L & w1 & w2 & Hc & Hins & Hrest)%acquire_lease_Ok Hw.
  destruct (lo_leased _ _ _ _ _ _ _ _ L) as (at_ & ->). simpl.
  destruct (restored_request_Ok _ _ (lo_request _ _ _ _ _ _ _ _ L)) as (args & cons & Hp).
  destruct (well_request _ Hw _ _ (lo_row _ _ _ _ _ _ _ _ L)) as [Hid _].
  assert (id p = action) as Hpid by (by rewrite Hp).
  rewrite <- Hc in Hw. apply insertExecution_true in Hins as Hnew; [|done].
  destruct (lo_execution _ _ _ _ _ _ _ _ L) as (eid & t & He).
  assert (ActionExecution.actionRequestId (el_execution l) = action) as Ha by (by rewrite He).
  rewrite Ha, Hc in Hnew. destruct Hnew as [Hno Hyes].
  assert (well (caps w2)) as Hw2.
  { eapply (steps_Ok _ _ _ _ (steps_insertExecution _) Hins). done. }
  destruct (Hrest Hw2) as (_ & Hg & _).
  destruct (grows_executions _ _ Hg _ _ Hyes) as (e' & He' & Hl). split_and!; try done.
  - apply L.
  - exists e'. split; [done|]. destruct Hl as [->|(_ & ? & ? & ? & ? & _ & ->)]; done.
Qed.

(** A mutation between the commit of its lease and the answer. *)
Lemma evolves_leased action w w1 w2 w3 :
  evolves w w1 → effects w1 = effects w →
  (well (caps w) → ¬ has_execution action (caps w) ∧ has_execution action (caps w1)) →
  evolves w1 w2 → caps w3 = caps w2 → effects w3 = effects w2 ++ [mutated action] → evolves w w3.
Proof.
  intros H1 E1 Ha H2 C3 E3 Hw. destruct (H1 Hw) as (Hw1 & G1 & _). destruct (Ha Hw) as [Hno Hyes].
  destruct (H2 Hw1) as (Hw2 & G2 & l & E2 & N2 & A2). rewrite C3. split; [done|]. split; [by etrans|].
  exists (l ++ [mutated action]). rewrite E3, E2, E1, <- app_assoc. split; [done|].
  rewrite mutations_app. simpl. split.
  - apply NoDup_app. split_and!; [done| |apply NoDup_singleton].
    intros b Hb ->%list_elem_of_singleton. by apply A2 in Hb as [? _].
  - rewrite C3. intros b [Hb| ->%list_elem_of_singleton]%elem_of_app.
    + apply A2 in Hb as [Hb ?]. split; [|done]. intros Hx. by eapply Hb, grows_has_execution.
    + split; [done|]. by eapply grows_has_execution.
Qed.

Lemma bind_Ok_eq {A B} (m : command A) (k : A → command B) w a w1 :
  m w = (Ok a, w1) → (m ≫= k) w = k a w1.
Proof. unfold mbind, action_bind. by intros ->. Qed.

Lemma bind_Throw_eq {A B} (m : command A) (k : A → command B) w e w1 :
  m w = (Throw e, w1) → (m ≫= k) w = (Throw e, w1).
Proof. unfold mbind, action_bind. by intros ->. Qed.

(** A command from a world that evolved already. *)
Lemma evolves_bind {A B} (m : command A) (k : A → command B) w w1 :
  evolves w (m w1).2 → (∀ a, steps (k a)) → evolves w ((m ≫= k) w1).2.
Proof.
  intros Hm Hk. destruct (m w1) as [[a|e] w2] eqn:E.
  - rewrite (bind_Ok_eq _ _ _ _ _ E). etrans; [exact Hm|apply Hk].
  - by rewrite (bind_Throw_eq _ _ _ _ _ E).
Qed.

Lemma steps_execute project action : steps (execute_action sha256 connectors project action).
Proof.
  intros w. unfold execute_action.
  destruct (acquire_lease sha256 connectors project action w) as [[l|e] w1] eqn:Hl.
  2:{ rewrite (bind_Throw_eq _ _ _ _ _ Hl). eapply (steps_Ok _ _ _ _ (steps_acquire _ _) Hl). }
  rewrite (bind_Ok_eq _ _ _ _ _ Hl).
  pose proof (steps_Ok _ _ _ _ (steps_acquire _ _) Hl) as H1.
  assert (effects w1 = effects w) as E1.
  { pose proof (silent_acquire project action w) as Hs. by rewrite Hl in Hs. }
  pose proof (acquire_lease_inserts _ _ _ _ _ Hl) as Hnew.
  pose proof (considerate 7 w1) as H2.
  rewrite (bind_Ok_eq (await 7) _ w1 tt (elsewhere 7 w1)) by done.
  apply evolves_bind.
  - unfold mutate. destruct (Connector.cn_executeMutation (el_definition l)); [|by etrans].
    eapply evolves_bind; [|intros n; stepping].
    eapply evolves_leased; [exact H1|exact E1| |exact H2|done|done].
    intros Hw. destruct (Hnew Hw) as (-> & _ & ? & e & ? & ?). split; [done|]. by exists (ActionExecution.id (el_execution l)), e.
  - intros answer. pose proof steps_finish_with_fallback. stepping.
Qed.

(** ** What an outcome writes *)

Lemma transitionExecution_true k project from to t code hash w w' :
  transitionExecution k project from to t code hash w = (Ok true, w') →
  ∃ e, executions (caps w) !! k = Some e ∧ ActionExecution.status e = from ∧
    caps w' = set_executions <[k := ActionExecution.with_outcome e to
      (ActionExecution.startedAt e) (Some t) code hash]> (caps w).
Proof.
  unfold transitionExecution. intros (? & _ & H)%lift_bind_Ok. rewrite get_bind in H.
  destruct (executions (caps w) !! k) as [e|]; [|done].
  destruct (_ && _) eqn:Hc; [|done]. apply andb_prop in Hc as [_ Hst%bool_decide_eq_true].
  apply refuse_if_bind_Ok in H as [_ H]. apply refuse_if_bind_Ok in H as [_ [= <-]]. eauto.
Qed.

Lemma transitionActionRequest_true k project from to t w w' :
  transitionActionRequest k project from to t w = (Ok true, w') →
  ∃ p, requests (caps w) !! k = Some p ∧ projectId p = project ∧ status p = from ∧
    caps w' = set_requests <[k := with_status p to t]> (caps w).
Proof.
  unfold transitionActionRequest. intros (? & _ & H)%lift_bind_Ok. rewrite get_bind in H.
  destruct (requests (caps w) !! k) as [p|]; [|done].
  destruct (_ && _) eqn:Hc; [|done].
  apply andb_prop in Hc as [Hp%bool_decide_eq_true Hst%bool_decide_eq_true].
  do 4 apply refuse_if_bind_Ok in H as [_ H]. injection H as <-. eauto.
Qed.

Lemma move_request_Ok p project from to t w u w' :
  move_request p project from to t w = (Ok u, w') →
  ∃ q, requests (caps w) !! id p = Some q ∧ projectId q = project ∧ status q = from ∧
    caps w' = set_requests <[id p := with_status q to t]> (caps w).
Proof.
  unfold move_request. intros (moved & w1 & Hm & H)%action_bind_Ok.
  apply refuse_if_Ok in H as [Hmoved%negb_false_iff ->]. subst. by apply transitionActionRequest_true in Hm.
Qed.

(** The rows say how the request [action] and its execution ended. *)
Definition ended_as (project action executionId : string) (s : outcome_status)
    (code hash : option string) (d : tables) : Prop :=
  ∃ p e, requests d !! action = Some p ∧ projectId p = project ∧ status p = request_outcome s ∧
    executions d !! executionId = Some e ∧ ActionExecution.status e = execution_outcome s ∧
    ActionExecution.failureCode e = code ∧ ActionExecution.resultHash e = hash.

Lemma write_outcome_Ok p e s t code hash payload w u w' :
  write_outcome p e s t code hash payload w = (Ok u, w') →
  ended_as (projectId p) (id p) (ActionExecution.id e) s code hash (caps w').
Proof.
  unfold write_outcome. intros (stored & w1 & Hx & H)%action_bind_Ok.
  apply refuse_if_bind_Ok in H as [Hs%negb_false_iff H]. subst.
  apply transitionExecution_true in Hx as (row & Hrow & _ & C1).
  apply action_bind_Ok in H as (? & w2 & (q & Hq & Hproj & _ & C2)%move_request_Ok & H).
  apply calm_caps in H as C3; [|eauto with act]. rewrite C3, C2, C1. unfold ended_as. simpl.
  rewrite !lookup_insert_eq. eexists _, _. split; [done|]. by split_and!.
Qed.

Lemma finish_execution_id s t code hash e e' :
  finish_execution s t code hash e = (Ok tt, e') → ActionExecution.id e' = ActionExecution.id e.
Proof.
  assert (∀ s code hash, ActionExecution.finish s t code hash e = (Ok tt, e') →
    ActionExecution.id e' = ActionExecution.id e) as Hf.
  { intros s' code' hash'. unfold ActionExecution.finish. rewrite get_bind.
    intros [_ (p & Hp%ActionExecution.execution_normalize_Ok & [= <-])%lift_bind_Ok]%refuse_if_bind_Ok.
    by subst. }
  intros H. destruct s; exact (Hf _ _ _ H).
Qed.

Lemma finish_Ok l s code result w u w' :
  finish l s code result w = (Ok u, w') →
  ended_as (projectId (el_request l)) (id (el_request l)) (ActionExecution.id (el_execution l)) s
    code (result_hash result) (caps w').
Proof.
  unfold finish. intros (t & w1 & _ & H)%action_bind_Ok.
  apply lift_bind_Ok in H as (e & He%ActionExecution.execution_normalize_Ok & H). subst.
  apply lift_bind_Ok in H as (p & _ & H).
  apply action_bind_Ok in H as (e' & w2 & [-> He'%finish_execution_id]%on_object_Ok & H).
  apply action_bind_Ok in H as (? & w3 & _ & H).
  apply act_run_Ok in H as (w4 & Hw%write_outcome_Ok & C & _). rewrite C. by rewrite <- He'.
Qed.

Lemma findExecution_Some action project w e w' :
  findExecutionByAction action project w = (Ok (Some e), w') →
  w' = w ∧ execution_of action project (caps w) = Some e.
Proof.
  unfold findExecutionByAction. rewrite get_bind.
  destruct (execution_of action project (caps w)) as [row|]; [|done].
  intros (v & Hv%ActionExecution.execution_normalize_Ok & [= <- <-])%lift_bind_Ok. by subst.
Qed.

Lemma findActionRequest_Some k w p w' :
  findActionRequest k w = (Ok (Some p), w') →
  w' = w ∧ ∃ row, requests (caps w) !! k = Some row ∧ restored_request row = Ok p.
Proof.
  unfold findActionRequest. rewrite get_bind. destruct (requests (caps w) !! k) as [row|]; [|done].
  intros (v & Hv & [= <- <-])%lift_bind_Ok. eauto.
Qed.

Lemma persist_as_unknown_Ok l e w u w' :
  well (caps w) → executions (caps w) !! ActionExecution.id (el_execution l) = Some e →
  ActionExecution.actionRequestId e = id (el_request l) →
  persist_as_unknown l w = (Ok u, w') →
  ended_as (projectId (el_request l)) (id (el_request l)) (ActionExecution.id (el_execution l))
    ended_unknown (Some outcomePersistenceFailureCode) None (caps w').
Proof.
  intros Hw He Ha (w0 & H & C & _)%act_run_Ok. rewrite C. clear C.
  apply action_bind_Ok in H as (fr & w1 & Hr & H). apply action_bind_Ok in H as (fe & w2 & Hx & H).
  destruct fr as [p|]; [|done]. destruct fe as [e1|]; [|done].
  apply findActionRequest_Some in Hr as (-> & row & Hrow & Hp).
  apply findExecution_Some in Hx as (-> & Hx).
  apply refuse_if_bind_Ok in H as [Hc%negb_false_iff H].
  do 2 (apply andb_prop in Hc as [Hc _]). apply bool_decide_eq_true in Hc.
  apply action_bind_Ok in H as (t & w3 & _ & H).
  apply action_bind_Ok in H as (e2 & w4 & [-> He2%(finish_execution_id ended_unknown _ (Some _) None)]%on_object_Ok & H).
  apply action_bind_Ok in H as (? & w5 & _ & H).
  apply write_outcome_Ok in H. rewrite Hc, He2 in H.
  apply find_row_Some in Hx as (k & Hk & Hkey). apply andb_prop in Hkey as [Hka%bool_decide_eq_true _].
  assert (k = ActionExecution.id (el_execution l)) as ->.
  { eapply (well_unique _ Hw); [exact Hk|exact He|]. by rewrite Hka, Ha. }
  destruct (well_execution _ Hw _ _ Hk) as [Hid _]. rewrite Hid in H.
  destruct (restored_request_Ok _ _ Hp) as (args & cons & ->).
  destruct (well_request _ Hw _ _ Hrow) as [Hrid _].
  assert (id (with_fields row args cons (status row) (createdAt row) (updatedAt row)) =
          id (el_request l)) as Hpid by exact Hrid.
  by rewrite Hpid in H.
Qed.

Lemma catch_Ok {A} (m : command A) h w a w' :
  catch m h w = (Ok a, w') →
  m w = (Ok a, w') ∨ ∃ e w1, m w = (Throw e, w1) ∧ h e w1 = (Ok a, w').
Proof. unfold catch. destruct (m w) as [[b|e] w1]; [by left|]. eauto. Qed.

(** The lease's execution is among the rows. *)
Definition has_lease (l : ExecutionLease) (d : tables) : Prop :=
  ∃ e, executions d !! ActionExecution.id (el_execution l) = Some e ∧
       ActionExecution.actionRequestId e = id (el_request l).

Lemma has_lease_grows l d d' : grows d d' → has_lease l d → has_lease l d'.
Proof.
  intros Hg (e & He & Ha). destruct (grows_executions _ _ Hg _ _ He) as (e' & He' & Hl).
  exists e'. split; [done|]. by destruct Hl as [->|(_ & ? & ? & ? & ? & _ & ->)].
Qed.

Lemma finish_with_fallback_Ok l s code result w r w' :
  well (caps w) → has_lease l (caps w) →
  finish_with_fallback l s code result w = (Ok r, w') →
  (r = (s, code) ∧
   ended_as (projectId (el_request l)) (id (el_request l)) (ActionExecution.id (el_execution l)) s
     code (result_hash result) (caps w')) ∨
  (r = (ended_unknown, Some outcomePersistenceFailureCode) ∧
   ended_as (projectId (el_request l)) (id (el_request l)) (ActionExecution.id (el_execution l))
     ended_unknown (Some outcomePersistenceFailureCode) None (caps w')).
Proof.
  intros Hw Hl [H|(e & w1 & H1 & H)]%catch_Ok.
  - left. apply action_bind_Ok in H as (u & w1 & Hf%finish_Ok & [= <- <-]). done.
  - right. destruct (bool_decide (s = ended_failed)); [done|].
    apply action_bind_Ok in H as (u & w2 & Haw & H). injection Haw as <- <-.
    apply catch_Ok in H as [H|(? & ? & _ & H)]; [|done].
    apply action_bind_Ok in H as (? & w3 & Hp & [= <- <-]). split; [done|].
    assert (evolves w (elsewhere 6 w1)) as Hev.
    { etrans; [|apply considerate]. eapply steps_Ok; [|exact H1]. pose proof steps_finish. stepping. }
    destruct (Hev Hw) as (Hw2 & Hg & _).
    destruct (has_lease_grows _ _ _ Hg Hl) as (e' & He' & Ha'). by eapply persist_as_unknown_Ok.
Qed.

Lemma mutate_Ok l w r w' : mutate l w = (Ok r, w') → ∃ w1, caps w1 = caps w ∧ evolves w1 w'.
Proof.
  unfold mutate. destruct (Connector.cn_executeMutation (el_definition l)).
  - intros (n & w1 & [= <- <-] & (u & w2 & [= <- <-] & [= <- <-])%action_bind_Ok)%action_bind_Ok.
    eexists. split; [|apply considerate]. done.
  - intros [= <- <-]. by exists w.
Qed.

Lemma execute_action_Ok project action w x w' :
  well (caps w) → execute_action sha256 connectors project action w = (Ok x, w') →
  xa_actionRequestId x = action ∧
  ended_as project action (xa_executionId x) (xa_status x) (xa_failureCode x) (xa_resultHash x)
    (caps w').
Proof.
  intros Hw (l & w1 & Hl & H)%action_bind_Ok.
  apply action_bind_Ok in H as (u & w2 & [= <- <-] & H).
  apply action_bind_Ok in H as (answer & w3 & (w2 & C2 & H3)%mutate_Ok & H).
  destruct (acquire_lease_inserts _ _ _ _ _ Hl Hw) as (Hid & Hproj & _ & Hlease).
  rewrite <- Hid in Hlease.
  destruct (steps_Ok _ _ _ _ (steps_acquire _ _) Hl Hw) as (Hw1 & _).
  destruct (considerate 7 w1 Hw1) as (Hw2 & G2 & _). rewrite <- C2 in Hw2, G2.
  destruct (H3 Hw2) as (Hw3 & G3 & _).
  assert (has_lease l (caps w3)) as Hl3 by (eapply has_lease_grows; [transitivity (caps w2); [exact G2|exact G3]|exact Hlease]).
  assert (∀ s code result w'' r, s = ended_completed ∨ result = None →
    finish_with_fallback l s code result w3 = (Ok r, w'') →
    ended_as project action (ActionExecution.id (el_execution l)) r.1 r.2
      (if bool_decide (r.1 = ended_completed) then result_hash result else None) (caps w''))
    as Hfin.
  { intros s code result w'' r Hs Hf.
    apply finish_with_fallback_Ok in Hf as [[-> He]|[-> He]]; [| |done|done];
      rewrite Hid, Hproj in He; [|exact He]. simpl.
    destruct Hs as [->| ->]; [exact He|]. by destruct (bool_decide _). }
  destruct answer as [result|e].
  - apply action_bind_Ok in H as (r & w4 & Hf & [= <- <-]). split; [done|].
    apply Hfin in Hf; [|by left]. exact Hf.
  - destruct (thrown_outcome e) as [s code].
    apply action_bind_Ok in H as (r & w4 & Hf & [= <- <-]). split; [done|].
    apply Hfin in Hf; [|by right]. unfold executed. simpl in *. by destruct (bool_decide _).
Qed.

(** ** What a request decides and stores *)

Lemma insertActionRequest_Ok v w u w' :
  insertActionRequest v w = (Ok u, w') →
  requests (caps w) !! id v = None ∧
  caps w' = set_requests <[id v := request_row v]> (caps w).
Proof.
  unfold insertActionRequest. intros (? & _ & H)%lift_bind_Ok.
  apply lift_bind_Ok in H as (? & _ & H). rewrite get_bind in H.
  do 5 apply refuse_if_bind_Ok in H as [_ H].
  apply refuse_if_bind_Ok in H as [Hf%bool_decide_eq_false%eq_None_not_Some H].
  do 2 apply refuse_if_bind_Ok in H as [_ H]. injection H as <- <-. by split.
Qed.

Lemma evaluate_policy_Ok i w e w' :
  evaluate_policy connectors i w = (Ok e, w') →
  ∃ base, ev_decision e = combined_decision base (ev_pipeline e).
Proof.
  unfold evaluate_policy. intros H.
  repeat (apply action_bind_Ok in H as (? & ? & _ & H)). injection H as <- _. eauto.
Qed.

(** The request [p] as [request_action] makes it of its evaluation [e]. *)
Record decided_as (input : action_input) (e : EvaluatedActionPolicy) (p : Request) : Prop := {
  da_decision : decision p = pd_decision (ev_decision e);
  da_status : status p = next_status (decision p);
  da_risk : riskLevel p = pd_riskLevel (ev_decision e);
  da_grants : matchedGrantIds p = pd_matchedGrantIds (ev_decision e);
  da_reasons : reasons p = pd_reasons (ev_decision e);
  da_project : projectId p = ac_projectId input;
  da_agent : agentId p = ac_agentId input;
  da_run : agentRunId p = ac_agentRunId input;
  da_operation : operation p = trim (ac_operation input);
  da_hash : hashCanonicalActionPayload sha256
    (canonical_payload (projectId p) (agentId p) (operation p) e (agentRunId p)) = Ok (payloadHash p)
}.

(** The input of the evaluation a request is decided by. *)
Definition evaluation_of (input : action_input) : evaluate_input :=
  {| ei_projectId := ac_projectId input; ei_agentId := ac_agentId input;
     ei_resourceId := ac_resourceId input; ei_operation := ac_operation input;
     ei_arguments := ac_arguments input; ei_evaluatedAt := None;
     ei_pipelineRunId := ac_pipelineRunId input |}.

Lemma request_create_fields input now p :
  create input now = Ok p → ∃ a c, p = with_fields input a c requested now now.
Proof. unfold create. rewrite !throw_if_bind_Ok. intros (_ & _ & H). inv_ok. eauto. Qed.

Lemma request_action_Ok input w p out w' :
  request_action sha256 connectors input w = (Ok (p, out), w') →
  ∃ resolved w1 e,
    resolveProvenance input w = (Ok resolved, w1) ∧
    (∃ w2 w3, caps w2 = caps (elsewhere 0 w1) ∧
      evaluate_policy connectors
        (evaluation_of resolved) w2 = (Ok e, w3)) ∧
    decided_as resolved e p ∧ out = outcomes (decision p) ∧
    requests (caps (elsewhere 0 w1)) !! id p = None ∧
    ∃ row at_, row = with_status (request_row p) (status p) at_ ∧
      caps w' = set_requests <[id p := row]> (caps (elsewhere 0 w1)).
Proof.
  unfold request_action. intros (resolved & w1 & Hres & H)%action_bind_Ok.
  apply action_bind_Ok in H as (? & w2 & [= <- <-] & H).
  apply act_run_Ok in H as (w3 & H & C & _).
  apply action_bind_Ok in H as (e & w4 & He & H). apply lift_bind_Ok in H as (hash & Hhash & H).
  apply action_bind_Ok in H as (t & w5 & Ht & H). apply action_bind_Ok in H as (rid & w6 & Hid & H).
  apply lift_bind_Ok in H as (q & Hq & H). apply action_bind_Ok in H as (? & w7 & Hins & H).
  apply action_bind_Ok in H as (? & w8 & Hau & H). apply action_bind_Ok in H as (t' & w9 & Ht' & H).
  apply action_bind_Ok in H as (? & w10 & Hmv & H).
  apply action_bind_Ok in H as (moved & w11 & [-> Hmoved]%on_object_Ok & H).
  apply action_bind_Ok in H as (? & w12 & Had & H). injection H as <- <- <-.
  apply request_create_fields in Hq as (args & cons & Hq).
  apply request_transition_Ok in Hmoved as (_ & _ & _ & _ & _ & ->).
  apply insertActionRequest_Ok in Hins as [Hfresh C7].
  apply move_request_Ok in Hmv as (row & Hrow & _ & _ & C10).
  assert (∀ {A} (m : command A) v r v', calm m → m v = (r, v') → caps v' = caps v) as Hcalm
    by (intros; by eapply calm_caps).
  apply Hcalm in He as C4; [|eauto with act]. apply Hcalm in Ht as C5; [|eauto with act].
  apply Hcalm in Hid as C6; [|eauto with act]. apply Hcalm in Hau as C8; [|eauto with act].
  apply Hcalm in Ht' as C9; [|eauto with act]. apply Hcalm in Had as C12; [|eauto with act].
  assert (caps w6 = caps (elsewhere 0 w1)) as C6' by (by rewrite C6, C5, C4).
  rewrite C9, C8, C7 in Hrow, C10. simpl in Hrow. rewrite lookup_insert_eq in Hrow.
  injection Hrow as <-. rewrite C6' in Hfresh, C10.
  assert (decision q = pd_decision (ev_decision e)) as Hdec by (by rewrite Hq).
  exists resolved, w1, e. split; [done|]. split; [by exists (on_host (set_active true) (elsewhere 0 w1)), w4|].
  split; [by constructor; simpl; rewrite Hq|]. simpl. split; [by rewrite Hdec|].
  split; [done|]. eexists _, t'. split; [reflexivity|]. rewrite C, C12, C10. unfold set_requests. simpl.
  by rewrite insert_insert_eq.
Qed.

Lemma act_run_Throw {A} (m : command A) w e w' : run m w = (Throw e, w') → caps w' = caps w.
Proof.
  unfold run. destruct (RunStore.active (host w)); [by intros [= <- <-]|].
  destruct (m _) as [[b|e'] w1]; [done|]. by intros [= <- <-].
Qed.

Lemma request_action_Throw input w e w' :
  request_action sha256 connectors input w = (Throw e, w') →
  caps w' = caps w ∨
  ∃ resolved w1, resolveProvenance input w = (Ok resolved, w1) ∧ caps w' = caps (elsewhere 0 w1).
Proof.
  unfold request_action. intros [H|(resolved & w1 & Hres & H)]%action_bind_Throw.
  - left. eapply calm_caps; [|exact H]. eauto with act.
  - right. exists resolved, w1. split; [done|].
    apply action_bind_Throw in H as [H|(? & w2 & [= <- <-] & H)]; [done|].
    by apply act_run_Throw in H.
Qed.

(** ** What the checks of a lease make sure of *)

Lemma approval_binding_Ok p s a u :
  assertApprovalBinding sha256 p s a = Ok u →
  hashActionSimulationArtifact sha256
    (simulation_payload p (ActionSimulation.preconditions s) (sha256 (ActionSimulation.diff s)))
    = Ok (ActionApproval.simulationArtifactHash a) ∧
  ActionApproval.actionPayloadHash a = payloadHash p.
Proof.
  unfold assertApprovalBinding, assertSimulationIntegrity. intros ([] & H & Ha)%bind_Ok.
  apply bind_Ok in H as (hash & Hh & H).
  apply throw_if_Ok in Ha, H. apply negb_false_iff in Ha, H.
  repeat match goal with Hx : _ && _ = true |- _ => apply andb_prop in Hx as [? ?] end.
  repeat match goal with Hx : bool_decide _ = true |- _ => apply bool_decide_eq_true in Hx end.
  split; congruence.
Qed.

Lemma require_authorized_Ok p definition o w u w' :
  require_authorized sha256 connectors p definition o w = (Ok u, w') →
  ∃ w1 t e w2, caps w1 = caps w ∧ reevaluate connectors p t w1 = (Ok e, w2) ∧
    pd_decision (ev_decision e) = allow_with_approval ∧ res_status (ev_resource e) = active ∧
    current_payload_hash sha256 p e = Ok (payloadHash p) ∧
    hashCanonicalActionPayload sha256 (canonicalPayload p) = Ok (payloadHash p).
Proof.
  unfold require_authorized. intros (? & w1 & Hb & H)%action_bind_Ok.
  apply action_bind_Ok in H as (t & w2 & Ht & H). apply action_bind_Ok in H as (e & w3 & He & H).
  apply lift_bind_Ok in H as (hash & Hh & H). apply refuse_if_bind_Ok in H as [Hu H].
  injection H as H _. apply bind_Ok in H as (hash' & Hh' & H%throw_if_Ok).
  apply negb_false_iff, bool_decide_eq_true in H. subst hash'.
  apply negb_false_iff in Hu. unfold unchanged in Hu.
  repeat match goal with Hx : _ && _ = true |- _ => apply andb_prop in Hx as [? ?] end.
  repeat match goal with Hx : bool_decide _ = true |- _ => apply bool_decide_eq_true in Hx end.
  apply calm_caps in Hb as C1; [|eauto with act]. apply calm_caps in Ht as C2; [|eauto with act].
  exists w2, t, e, w3. split_and!; try done; congruence.
Qed.

Lemma no_boundary_false p definition o :
  no_boundary p definition o = false →
  od_mode o = op_mutation ∧ od_requiresApproval o = true.
Proof.
  unfold no_boundary. intros H%negb_false_iff.
  repeat match goal with Hx : _ && _ = true |- _ => apply andb_prop in Hx as [? ?] end.
  repeat match goal with Hx : bool_decide _ = true |- _ => apply bool_decide_eq_true in Hx end.
  done.
Qed.

End services.

(** * Histories *)

Inductive service :=
| do_register (input : register_input)
| do_disable (projectId resourceId : string)
| do_grant (input : grant_input)
| do_revoke (projectId grantId revokedBy : string)
| do_request (input : action_input)
| do_decide (approved : bool) (projectId actionRequestId who : string)
| do_invoke (input : string + action_input)
| do_execute (projectId actionRequestId : string).

Section histories.
  Context {show : ShowNumber} {env : Store.Environment}.
  Context (sha256 : string → string) (connectors : Connector.ConnectorRegistry).

Definition perform (others : Elsewhere) (s : service) (w : world) : world :=
  match s with
  | do_register i => (register_resource connectors i w).2
  | do_disable p r => (disable_resource p r w).2
  | do_grant i => (create_capability_grant connectors i w).2
  | do_revoke p g who => (revoke_capability_grant p g who w).2
  | do_request i => (request_action sha256 connectors i w).2
  | do_decide b p a who => (decide_action sha256 b p a who w).2
  | do_invoke i => (invoke_action sha256 connectors i w).2
  | do_execute p a => (execute_action sha256 connectors p a w).2
  end.

(** The worlds the host may reach: the rest of it changes its own tables, and
    services run, each with further calls at its waits. *)
Inductive calls : world → world → Prop :=
| idle w : calls w w
| host_changes f w w' : calls (on_host f w) w' → calls w w'
| serves others s w w' :
    (∀ n w, calls w (others n w)) → calls (perform others s w) w' → calls w w'.

Lemma steps_perform (others : Elsewhere) s w :
  (∀ n w, evolves w (others n w)) → evolves w (perform others s w).
Proof.
  intros Ho. destruct s; simpl.
  - by apply steps_register.
  - by apply steps_disable.
  - by apply steps_create_grant.
  - by apply steps_revoke.
  - by apply steps_request.
  - by apply steps_decide.
  - by apply steps_invoke.
  - by apply steps_execute.
Qed.

Lemma calls_evolves w w' : calls w w' → evolves w w'.
Proof.
  induction 1 as [w|f w w' _ IH|others s w w' _ IHo _ IH]; [done|exact IH|].
  etrans; [by apply (steps_perform others)|exact IH].
Qed.

Definition no_actions_yet (w : world) : Prop :=
  caps w = {| resources := ∅; grants := ∅; requests := ∅; simulations := ∅; approvals := ∅;
              executions := ∅ |} ∧ effects w = [].

Lemma no_actions_yet_well w : no_actions_yet w → well (caps w).
Proof. intros [-> _]. by constructor. Qed.

(** C8: whatever calls the host serves, in whatever interleaving, a connector
    is asked for the mutation of a request at most once; and each request whose
    mutation was asked for is stored with the decision that it needs an
    approval, with an approval that a person approved and that is bound to the
    hash of its payload and to the artifact of its stored simulation, and with
    an execution under that approval. *)
Theorem mutations_approved_once w w' :
  no_actions_yet w → calls w w' →
  NoDup (mutations (effects w')) ∧
  ∀ action, action ∈ mutations (effects w') →
    ∃ p s a k e,
      requests (caps w') !! action = Some p ∧ decision p = allow_with_approval ∧
      simulations (caps w') !! ActionApproval.simulationId a = Some s ∧
      executions (caps w') !! k = Some e ∧ ActionExecution.actionRequestId e = action ∧
      approvals (caps w') !! ActionExecution.approvalId e = Some a ∧
      ActionApproval.status a = ActionApproval.approved ∧
      ActionApproval.actionRequestId a = action ∧ bound a p s.
Proof.
  intros Hw Hc.
  destruct (calls_evolves _ _ Hc (no_actions_yet_well _ Hw)) as (Hwell & _ & l & He & Hnd & Hl).
  destruct Hw as [_ Hnil]. rewrite Hnil in He. simpl in He. rewrite He.
  split; [done|]. intros action Ha. apply Hl in Ha as [_ (k & e & Hk & Hae)].
  destruct (well_execution _ Hwell _ _ Hk) as (_ & p & a & Hp & _ & Happ & Hst & Hact).
  destruct (well_approval _ Hwell _ _ Happ) as (_ & p' & s & Hp' & Hs & Hb).
  rewrite Hact, Hae in Hp'. rewrite Hae in Hp, Hact. simplify_eq.
  exists p, s, a, k, e. split_and!; try done. by destruct Hb.
Qed.

(** C15: from any state the host can reach, further calls only move the stored
    records forward: a request keeps everything but its status, which moves
    along the transitions of the aggregate for its decision, and its time; a
    simulation stays as it is; an approval changes once, when it is decided,
    and an execution once, when it ends. *)
Theorem stored_records_only_advance w0 w w' :
  no_actions_yet w0 → calls w0 w → calls w w' → grows (caps w) (caps w').
Proof.
  intros H0 Hc0 Hc. destruct (calls_evolves _ _ Hc0 (no_actions_yet_well _ H0)) as [Hw _].
  by apply (calls_evolves _ _ Hc).
Qed.

(** C16: what [execute] answers is what is stored: in every history of the host,
    when the execution of an action returns, its request and its execution are
    stored with the status it reports, and the execution with the failure code
    and the result hash it reports; also when the outcome could not be written
    at first and was persisted as unknown. *)
Theorem execution_outcome_is_stored w0 w (others : Elsewhere) project action x w' :
  no_actions_yet w0 → calls w0 w → (∀ n w, calls w (others n w)) →
  execute_action sha256 connectors project action w = (Ok x, w') →
  xa_actionRequestId x = action ∧
  ended_as project action (xa_executionId x) (xa_status x) (xa_failureCode x) (xa_resultHash x)
    (caps w').
Proof.
  intros H0 Hc0 Ho Hx. destruct (calls_evolves _ _ Hc0 (no_actions_yet_well _ H0)) as [Hw _].
  eapply execute_action_Ok; [|exact Hw|exact Hx]. intros n v. by apply calls_evolves.
Qed.

(** C17: a lease to execute an action is handed out only for a stored request of
    the caller's project that awaits its approval, whose canonical payload
    hashes to the hash the approval was given for, whose simulation hashes to
    the approved artifact, and for which the policy, evaluated again on the
    current grants, still requires the approval under the very same payload
    hash; the connector gets the arguments, the constraints and the
    preconditions that were hashed. *)
Theorem execution_lease_authorized (others : Elsewhere) project action w l w' :
  acquire_lease sha256 connectors project action w = (Ok l, w') →
  ∃ row p a, requests (caps w) !! action = Some row ∧ restored_request row = Ok p ∧
    projectId p = project ∧ status p = approval_pending ∧
    approval_of (id p) project (caps w) = Some a ∧
    ActionApproval.status a = ActionApproval.approved ∧
    ActionApproval.actionPayloadHash a = payloadHash p ∧
    hashCanonicalActionPayload sha256 (canonicalPayload p) = Ok (payloadHash p) ∧
    hashActionSimulationArtifact sha256
      (simulation_payload p (ActionSimulation.preconditions (el_simulation l))
         (sha256 (ActionSimulation.diff (el_simulation l))))
      = Ok (ActionApproval.simulationArtifactHash a) ∧
    (∃ w1 t e w2, caps w1 = caps w ∧ reevaluate connectors p t w1 = (Ok e, w2) ∧
       pd_decision (ev_decision e) = allow_with_approval ∧
       res_status (ev_resource e) = active ∧
       current_payload_hash sha256 p e = Ok (payloadHash p)) ∧
    od_mode (el_operation l) = op_mutation ∧ od_requiresApproval (el_operation l) = true ∧
    normalizedArguments (el_request l) = normalizedArguments p ∧
    effectiveConstraints (el_request l) = effectiveConstraints p.
Proof.
  intros (row & p & s & a & L & _)%acquire_lease_Ok. exists row, p, a.
  destruct L as [Hrow Hp Hproj Hst _ _ Hb _ _ Ha Hbind Happ (w1 & w2 & Hc & Hauth) (t & Hl) _].
  apply approval_binding_Ok in Hbind as (Hhash & Hpay).
  apply require_authorized_Ok in Hauth as (w3 & t' & e & w4 & C3 & He & Hd & Hact & Hcur & Hown).
  apply no_boundary_false in Hb as (Hmode & Hreq). subst project.
  split_and!; try done; [|by rewrite Hl..]. exists w3, t', e, w4. split_and!; try done. congruence.
Qed.

(** A request of an action is decided by the policy as it stands inside the
    transaction that stores it: the stored request is new, has the decision,
    risk, grants and reasons of that evaluation and the hash of its payload,
    and the status that goes with the decision, [denied] or [authorized]; the
    caller is told the outcome of that decision.  A refused request leaves the
    stored records as they were. *)
Theorem requested_action_is_decided (others : Elsewhere) input w :
  match request_action sha256 connectors input w with
  | (Ok (p, out), w') =>
      ∃ resolved w1 e,
        resolveProvenance input w = (Ok resolved, w1) ∧
        (∃ w2 w3, caps w2 = caps (elsewhere 0 w1) ∧
          evaluate_policy connectors (evaluation_of resolved) w2 = (Ok e, w3)) ∧
        decided_as sha256 resolved e p ∧ out = outcomes (decision p) ∧
        requests (caps (elsewhere 0 w1)) !! id p = None ∧
        ∃ row at_, row = with_status (request_row p) (status p) at_ ∧
          caps w' = set_requests <[id p := row]> (caps (elsewhere 0 w1))
  | (Throw _, w') =>
      caps w' = caps w ∨
      ∃ resolved w1, resolveProvenance input w = (Ok resolved, w1) ∧
        caps w' = caps (elsewhere 0 w1)
  end.
Proof.
  destruct (request_action sha256 connectors input w) as [[[p out]|e] w'] eqn:E.
  - by apply request_action_Ok in E.
  - by apply request_action_Throw in E.
Qed.

End histories.

(** * A sample history *)

#[local] Existing Instance decimal_number.
#[local] Instance sample_environment : Store.Environment :=
  {| Store.clock_at := λ n, (1000 + Z.of_nat n)%Z;
     Store.id_at := λ n, "id-" +:+ show_Z (Z.of_nat n) |}.
#[local] Instance nobody_else : Elsewhere := λ _ w, w.

Definition sample_sha256 (_ : string) : string := ActionApproval.sample_hash.

Definition sample_connector : Connector.ConnectorDefinition :=
  {| Connector.cn_descriptor :=
       {| cd_id := "filesystem"; cd_version := "2";
          cd_supportedResourceTypes := [filesystem_scope];
          cd_operations :=
            [{| od_operation := "filesystem.delete"; od_mode := op_mutation;
                od_riskLevel := risk_high; od_supportsSimulation := true;
                od_supportsExecution := true; od_requiresApproval := true |}] |};
     Connector.cn_constraintHandler :=
       {| ch_connector := "filesystem";
          ch_combineAndValidate := λ _ _ _ _,
            Ok {| cr_ok := true; cr_effectiveConstraints := []; cr_reasons := [] |} |};
     Connector.cn_normalizeArguments := λ _ r, Ok r;
     Connector.cn_normalizeConstraints := λ r, Ok r;
     Connector.cn_prepareResource := λ _ i,
       Ok {| Connector.pr_externalRef := Some "/root";
             Connector.pr_configuration := Connector.ri_configuration i |};
     Connector.cn_invoke := Some (λ _ _,
       Ok (Connector.simulation_result "- a.txt"
             [{| Connector.fp_kind := Connector.kind_absent; Connector.fp_path := "b.txt";
                 Connector.fp_sha256 := None; Connector.fp_size := None |}]));
     Connector.cn_executeMutation := Some (λ _ _,
       Ok {| Connector.me_resultHash := Some ActionApproval.sample_hash;
             Connector.me_relativePath := Some "a.txt"; Connector.me_destinationPath := None;
             Connector.me_byteLength := None |}) |}.

Definition sample_connectors : Connector.ConnectorRegistry :=
  {| Connector.definitions := [sample_connector] |}.

Definition sample_world : world :=
  {| host := RunHistory.sample_world;
     caps := {| resources := ∅; grants := ∅; requests := ∅; simulations := ∅; approvals := ∅;
                executions := ∅ |};
     effects := [] |}.

Definition sample_action : action_input :=
  {| ac_projectId := "p1"; ac_agentId := "a1"; ac_resourceId := "id-0";
     ac_operation := "filesystem.delete";
     ac_arguments := JObj 0 true false [("path", plain (JStr "a.txt"))];
     ac_agentRunId := None; ac_pipelineRunId := None |}.

Definition sample_services : list service :=
  [do_register {| rg_projectId := "p1"; rg_type := filesystem_scope; rg_provider := "filesystem";
     rg_externalRef := Some "/root"; rg_displayName := "Files"; rg_configuration := None |};
   do_grant {| gi_projectId := "p1"; gi_principalType := principal_agent;
     gi_principalId := "a1"; gi_resourceId := "id-0"; gi_actions := ["filesystem.*"];
     gi_constraints := None; gi_validFrom := None; gi_expiresAt := None; gi_grantedBy := "owner";
     gi_reason := "r" |};
   do_invoke (inr sample_action); do_decide true "p1" "id-4" "owner"; do_execute "p1" "id-4"].

Definition perform_all (l : list service) (w : world) : world :=
  fold_left (λ w s, perform sample_sha256 sample_connectors nobody_else s w) l w.

Abbreviation sample_after n := (perform_all (take n sample_services) sample_world).

Lemma sample_calls l w : calls sample_sha256 sample_connectors w (perform_all l w).
Proof.
  revert w. induction l as [|s l IH]; intros w; simpl; [constructor|].
  apply (serves _ _ nobody_else s); [intros n v; constructor|apply IH].
Qed.

Lemma sample_fresh : no_actions_yet sample_world.
Proof. done. Qed.

Lemma mutations_approved_once_witness :
  no_actions_yet sample_world ∧ mutations (effects (sample_after 5)) = ["id-4"] ∧
  ∃ p, requests (caps (sample_after 5)) !! "id-4" = Some p ∧ decision p = allow_with_approval.
Proof.
  split; [exact sample_fresh|].
  assert (mutations (effects (sample_after 5)) = ["id-4"]) as Hm by (vm_compute; reflexivity).
  split; [exact Hm|].
  destruct (mutations_approved_once sample_sha256 sample_connectors sample_world (sample_after 5)
    sample_fresh (sample_calls (take 5 sample_services) sample_world)) as [_ Ha].
  destruct (Ha "id-4") as (p & _ & _ & _ & _ & Hp & Hd & _).
  { rewrite Hm. constructor. }
  exists p. split; [exact Hp|exact Hd].
Defined.

Definition status_at (w : world) (k : string) : option ActionStatus :=
  status <$> requests (caps w) !! k.

Lemma sample_resumed :
  calls sample_sha256 sample_connectors (sample_after 3) (sample_after 5).
Proof.
  replace (take 5 sample_services) with (take 3 sample_services ++ drop 3 sample_services)
    by reflexivity.
  unfold perform_all at 2. rewrite fold_left_app. apply sample_calls.
Qed.

Lemma stored_records_only_advance_witness :
  no_actions_yet sample_world ∧ status_at (sample_after 3) "id-4" = Some approval_pending ∧
  status_at (sample_after 5) "id-4" = Some completed ∧
  grows (caps (sample_after 3)) (caps (sample_after 5)).
Proof.
  split; [exact sample_fresh|]. split; [vm_compute; reflexivity|]. split; [vm_compute; reflexivity|].
  exact (stored_records_only_advance sample_sha256 sample_connectors sample_world (sample_after 3)
    (sample_after 5) sample_fresh (sample_calls (take 3 sample_services) sample_world)
    sample_resumed).
Defined.

Abbreviation sample_execution :=
  (execute_action sample_sha256 sample_connectors "p1" "id-4" (sample_after 4)).
Abbreviation sample_lease :=
  (acquire_lease sample_sha256 sample_connectors "p1" "id-4" (sample_after 4)).

Definition ok_of {A} (r : outcome A * world) : bool := is_ok r.1.

Lemma ok_of_true {A} (r : outcome A * world) : ok_of r = true → ∃ a, r = (Ok a, r.2).
Proof. destruct r as [[a|e] w]; [by exists a|done]. Qed.

Lemma execution_outcome_is_stored_witness :
  ∃ x, sample_execution = (Ok x, sample_execution.2) ∧ xa_actionRequestId x = "id-4" ∧
    ended_as "p1" "id-4" (xa_executionId x) (xa_status x) (xa_failureCode x) (xa_resultHash x)
      (caps sample_execution.2).
Proof.
  assert (ok_of sample_execution = true) as Hok by (vm_compute; reflexivity).
  apply ok_of_true in Hok as [x Hx]. exists x. split; [exact Hx|].
  exact (execution_outcome_is_stored sample_sha256 sample_connectors sample_world (sample_after 4)
    nobody_else "p1" "id-4" x _ sample_fresh (sample_calls (take 4 sample_services) sample_world)
    (λ n w, idle _ _ w) Hx).
Defined.

Lemma execution_lease_authorized_witness :
  ∃ l p, sample_lease = (Ok l, sample_lease.2) ∧ projectId p = "p1" ∧ status p = approval_pending ∧
    normalizedArguments (el_request l) = normalizedArguments p.
Proof.
  assert (ok_of sample_lease = true) as Hok by (vm_compute; reflexivity).
  apply ok_of_true in Hok as [l Hl]. exists l.
  destruct (execution_lease_authorized sample_sha256 sample_connectors nobody_else "p1" "id-4"
    (sample_after 4) l _ Hl) as (row & p & a & _ & _ & Hp & Hst & H).
  exists p. split; [exact Hl|]. split; [exact Hp|]. split; [exact Hst|]. apply H.
Defined.

End ActionHistory.
