(* ===== verification/RunExecution.v ===== *)
(** The execution of an admitted run, with the rest of the host going on at
    each of its awaits.  Models
    [packages/application/src/commands/execute-agent-run.ts], and the
    executors of [packages/agent-runtime/src/executor.ts] that are code of the
    repository.

    A worker, its worktree, the listener of changed runs and the abort signal
    are parameters: what they answer may be anything.  What other calls do to the database while this one
    waits, the worker's included, is a function of the await's number of which
    only one thing is assumed, that it is a history of the repository's calls
    in the sense of [RunHistory]. *)
From S2P Require Import Prelude Errors TaskModel PipelineModel Json AgentModel Store RunStore.
From S2P Require Import RunHistory.
Import Canonical Provenance RunStore.

Module RunExecution.

(** * Errors and results *)

(** What the [catch] tells apart of a thrown value. *)
Inductive thrown :=
| executor_not_configured (message : string)
| worker_error (code message : string)
| abort_error
| other_error.

#[global] Instance thrown_eq_dec : EqDecision thrown.
Proof. solve_decision. Defined.

Record AgentRunExecutionError := { ex_message : string; ex_code : string }.

Definition executionError (e : thrown) (fallbackCode : string) : AgentRunExecutionError :=
  match e with
  | executor_not_configured message =>
      {| ex_code := "WORKER_NOT_CONFIGURED"; ex_message := message |}
  | worker_error code message => {| ex_code := code; ex_message := message |}
  | _ =>
      {| ex_message :=
           if bool_decide (fallbackCode = "ABORTED") then "Execution cancelled"
           else if bool_decide (fallbackCode = "WORKTREE_RELEASE_FAILED") then
             "Worktree cleanup failed"
           else if bool_decide (fallbackCode = "TASK_LOCK_RELEASE_FAILED") then
             "Task lock cleanup failed"
           else "Agent execution failed";
         ex_code := fallbackCode |}
  end.

Definition error_js (e : AgentRunExecutionError) : js :=
  embed 0 (CObj [("message", CStr (ex_message e)); ("code", CStr (ex_code e))]).

(** * The ports *)

Record AgentExecutionResult {A : Type} := { res_value : js; res_actions : option (list A) }.
Arguments AgentExecutionResult : clear implicits.

(** The last argument of a port's function is the number of the await. *)
Record PreparedAgentExecution {A : Type} := {
  pr_provenance : AgentExecutionProvenance;
  pr_usesWorktree : bool;
  pr_execute : nat → result thrown (AgentExecutionResult A);
  pr_accept : option (AgentRun.Props → AgentExecutionResult A → nat → result thrown bool)
}.
Arguments PreparedAgentExecution : clear implicits.

Record AgentExecutor {A : Type} := {
  ae_prepare : option (AgentRun.Props → nat → result thrown (option (PreparedAgentExecution A)));
  ae_execute : AgentRun.Props → nat → result thrown (AgentExecutionResult A)
}.
Arguments AgentExecutor : clear implicits.

(** The worktree's path stands for the worktree. *)
Record WorktreeManager := {
  wm_prepare : string → nat → result thrown string;
  wm_release : string → nat → result thrown unit
}.

(** ** The executors of [executor.ts] *)

Definition not_configured_message : string :=
  "No real worker selected. Select a worker or explicitly request simulation.".

Definition UnconfiguredAgentExecutor {A} : AgentExecutor A :=
  {| ae_prepare := Some (λ _ _, Throw (executor_not_configured not_configured_message));
     ae_execute := λ _ _, Throw (executor_not_configured not_configured_message) |}.

(** [AuthoritativeWorkerAgentExecutor]: a delegate must prepare an execution
    with an acceptance fence and a worker's provenance. *)
Definition is_authoritative {A} (p : PreparedAgentExecution A) : bool :=
  match pr_accept p with
  | None => false
  | Some _ =>
      match parseAgentExecution (AgentRun.provenance_json (pr_provenance p)) with
      | Ok e => bool_decide (kind e = worker) && negb (bool_decide (inputHash e = None))
      | Throw _ => false
      end
  end.

Definition AuthoritativeWorkerAgentExecutor {A} (delegate : AgentExecutor A) : AgentExecutor A :=
  {| ae_prepare := Some (λ run n,
       match ae_prepare delegate with
       | None => Throw (executor_not_configured not_configured_message)
       | Some prepare =>
           prepared ← prepare run n;
           match prepared with
           | Some p => if is_authoritative p then Ok (Some p)
                       else Throw (executor_not_configured not_configured_message)
           | None => Throw (executor_not_configured not_configured_message)
           end
       end);
     ae_execute := λ _ _, Throw (executor_not_configured
       "Authoritative execution requires prepare() before execute().") |}.

(** The abort signal, when one is given, at each await. *)
Class AbortSignal := aborted : nat → bool.

(** What the other calls on the host make of the database at each await. *)
Class Interference := disturb : nat → tables → tables.

Definition simulated_execution {A} `{AbortSignal} (run : AgentRun.Props) (n : nat)
    : result thrown (AgentExecutionResult A) :=
  if aborted n then Throw abort_error
  else Ok {| res_value := embed 0 (CObj
               [("summary", CStr ("Simulated execution completed for run " +:+ AgentRun.id run));
                ("artifacts", CArr [])]);
             res_actions := None |}.

Definition SimulatedAgentExecutor {A} `{AbortSignal} : AgentExecutor A :=
  {| ae_prepare := Some (λ run _, Ok (Some
       {| pr_provenance := {| kind := simulation; adapterId := "simulated"; adapterVersion := "1";
                              inputHash := None |};
          pr_usesWorktree := false; pr_execute := simulated_execution run; pr_accept := None |}));
     ae_execute := simulated_execution |}.

(** * ExecuteAgentRun *)

Section execute.
  Context `{ShowNumber} `{Store.Environment} `{AbortSignal} `{Interference} {A : Type}.
  Context (executor : AgentExecutor A) (worktrees : WorktreeManager).
  Context (onRunChanged : nat → result thrown unit).

(** The host, the caller's run object, and the variables of [execute]. *)
Record state := {
  host : world;
  awaits : nat;
  run : AgentRun.Props;
  worktree : option string;
  primaryError : option AgentRunExecutionError;
  actions : list A;
  terminalPersisted : bool;
  persistenceInterrupted : bool;
  cleanupErrors : list AgentRunExecutionError
}.

Abbreviation exec B := (action thrown state B).

Definition set_host (w : world) (s : state) : state :=
  {| host := w; awaits := awaits s; run := run s; worktree := worktree s;
     primaryError := primaryError s; actions := actions s;
     terminalPersisted := terminalPersisted s;
     persistenceInterrupted := persistenceInterrupted s; cleanupErrors := cleanupErrors s |}.
Definition set_run (r : AgentRun.Props) (s : state) : state :=
  {| host := host s; awaits := awaits s; run := r; worktree := worktree s;
     primaryError := primaryError s; actions := actions s;
     terminalPersisted := terminalPersisted s;
     persistenceInterrupted := persistenceInterrupted s; cleanupErrors := cleanupErrors s |}.
Definition set_worktree (p : string) (s : state) : state :=
  {| host := host s; awaits := awaits s; run := run s; worktree := Some p;
     primaryError := primaryError s; actions := actions s;
     terminalPersisted := terminalPersisted s;
     persistenceInterrupted := persistenceInterrupted s; cleanupErrors := cleanupErrors s |}.
Definition set_primary (e : AgentRunExecutionError) (s : state) : state :=
  {| host := host s; awaits := awaits s; run := run s; worktree := worktree s;
     primaryError := Some e; actions := actions s; terminalPersisted := terminalPersisted s;
     persistenceInterrupted := persistenceInterrupted s; cleanupErrors := cleanupErrors s |}.
Definition set_actions (l : list A) (s : state) : state :=
  {| host := host s; awaits := awaits s; run := run s; worktree := worktree s;
     primaryError := primaryError s; actions := l; terminalPersisted := terminalPersisted s;
     persistenceInterrupted := persistenceInterrupted s; cleanupErrors := cleanupErrors s |}.
Definition set_terminal (s : state) : state :=
  {| host := host s; awaits := awaits s; run := run s; worktree := worktree s;
     primaryError := primaryError s; actions := actions s; terminalPersisted := true;
     persistenceInterrupted := persistenceInterrupted s; cleanupErrors := cleanupErrors s |}.
Definition set_interrupted (s : state) : state :=
  {| host := host s; awaits := awaits s; run := run s; worktree := worktree s;
     primaryError := primaryError s; actions := actions s;
     terminalPersisted := terminalPersisted s; persistenceInterrupted := true;
     cleanupErrors := cleanupErrors s |}.
Definition push_cleanup (e : AgentRunExecutionError) (s : state) : state :=
  {| host := host s; awaits := awaits s; run := run s; worktree := worktree s;
     primaryError := primaryError s; actions := actions s;
     terminalPersisted := terminalPersisted s;
     persistenceInterrupted := persistenceInterrupted s;
     cleanupErrors := cleanupErrors s ++ [e] |}.

(** The rest of the host runs before the awaited call's continuation does. *)
Definition resume (s : state) : state :=
  {| host := with_tables (host s) (disturb (awaits s) (db (host s))); awaits := S (awaits s);
     run := run s; worktree := worktree s; primaryError := primaryError s; actions := actions s;
     terminalPersisted := terminalPersisted s;
     persistenceInterrupted := persistenceInterrupted s; cleanupErrors := cleanupErrors s |}.

(** [await repository.call()] *)
Definition await_command {B} (m : command B) : exec B := λ s,
  match m (host s) with
  | (Ok b, w) => (Ok b, resume (set_host w s))
  | (Throw _, w) => (Throw other_error, resume (set_host w s))
  end.

(** [await port.call()] *)
Definition await_port {B} (f : nat → result thrown B) : exec B := λ s,
  (f (awaits s), resume s).

(** [this.clock.now()] *)
Definition clock_now : exec date := λ s,
  match now (host s) with
  | (Ok d, w) => (Ok d, set_host w s)
  | (Throw _, w) => (Throw other_error, set_host w s)
  end.

(** [run.transition(status, at, details)] on the caller's object. *)
Definition transition_at (st : AgentRun.AgentRunStatus) (at_ : date)
    (d : AgentRun.transition_details) : exec unit := λ s,
  match AgentRun.transition st at_ d (run s) with
  | (Ok _, r) => (Ok tt, set_run r s)
  | (Throw _, r) => (Throw other_error, set_run r s)
  end.

Definition transition_now (st : AgentRun.AgentRunStatus) (d : AgentRun.transition_details)
    : exec unit := at_ ← clock_now; transition_at st at_ d.

Definition notify : exec unit := λ s, (onRunChanged (awaits s), s).

Definition persist : exec unit :=
  s ← get;
  r ← await_command (saveRun (run s));
  modify (set_run r);;
  notify.

Definition with_error (e : AgentRunExecutionError) : AgentRun.transition_details :=
  {| AgentRun.det_worktreePath := None; AgentRun.det_result := None;
     AgentRun.det_error := Some (error_js e); AgentRun.det_execution := None |}.

Definition with_result (v : js) : AgentRun.transition_details :=
  {| AgentRun.det_worktreePath := None; AgentRun.det_result := Some v;
     AgentRun.det_error := None; AgentRun.det_execution := None |}.

Definition aborted_error : AgentRunExecutionError :=
  {| ex_message := "Execution cancelled"; ex_code := "ABORTED" |}.

Definition cancel_before_start : exec unit :=
  modify (set_primary aborted_error);;
  transition_now AgentRun.cancelled (with_error aborted_error);;
  persist;;
  modify set_terminal.

Definition prepare_executor : exec (option (PreparedAgentExecution A)) :=
  s ← get;
  match ae_prepare executor with
  | None => await_port (λ _, Ok None)
  | Some prepare => await_port (prepare (run s))
  end.

Definition prepare_worktree (prepared : option (PreparedAgentExecution A)) : exec unit :=
  if match prepared with Some p => pr_usesWorktree p | None => true end then
    s ← get;
    path ← await_port (wm_prepare worktrees (AgentRun.id (run s)));
    modify (set_worktree path)
  else mret tt.

Definition start_running (prepared : option (PreparedAgentExecution A)) : exec unit :=
  s ← get;
  transition_now AgentRun.running
    {| AgentRun.det_worktreePath := worktree s; AgentRun.det_result := None;
       AgentRun.det_error := None;
       AgentRun.det_execution := (λ p, AgentRun.provenance_json (pr_provenance p)) <$> prepared |};;
  persist.

Definition run_executor (prepared : option (PreparedAgentExecution A))
    : exec (AgentExecutionResult A) :=
  s ← get;
  result ← await_port (match prepared with
                       | None => ae_execute executor (run s)
                       | Some p => pr_execute p
                       end);
  modify (set_actions (default [] (res_actions result)));;
  s ← get;
  if aborted (awaits s) then mthrow abort_error else mret result.

Definition review (prepared : option (PreparedAgentExecution A)) (result : AgentExecutionResult A)
    : exec unit :=
  reviewingAt ← clock_now;
  match prepared ≫= pr_accept with
  | Some accept =>
      s ← get;
      acceptancePersisted ← await_port (accept (run s) result);
      transition_at AgentRun.reviewing reviewingAt (with_result (res_value result));;
      if acceptancePersisted : bool then modify (λ s, set_run (mark (run s)) s) else mret tt
  | None =>
      transition_at AgentRun.reviewing reviewingAt (with_result (res_value result));;
      persist
  end.

(** The [try] block. *)
Definition try_block : exec unit :=
  s ← get;
  if aborted (awaits s) then cancel_before_start
  else
    (if bool_decide (AgentRun.status (run s) = AgentRun.queued) then
       transition_now AgentRun.preparing AgentRun.no_details;; persist
     else mret tt);;
    prepared ← prepare_executor;
    prepare_worktree prepared;;
    start_running prepared;;
    result ← run_executor prepared;
    review prepared result;;
    transition_now AgentRun.completed (with_result (res_value result));;
    persist;;
    modify set_terminal.

(** [isCancelled] *)
Definition isCancelled (e : thrown) (s : state) : bool :=
  aborted (awaits s) || bool_decide (e = abort_error).

(** [try { await this.persist(run); terminalPersisted = true } catch { ... }] *)
Definition persist_or_interrupt : exec unit := λ s,
  match (persist;; modify set_terminal) s with
  | (Ok _, s') => (Ok tt, s')
  | (Throw _, s') => (Ok tt, set_interrupted s')
  end.

(** The [catch] block. *)
Definition catch_block (e : thrown) : exec unit :=
  s ← get;
  if negb (AgentRun.is_terminal (AgentRun.status (run s))) then
    let cancelled := isCancelled e s in
    let error := executionError e (if cancelled then "ABORTED" else "EXECUTION_FAILED") in
    modify (set_primary error);;
    transition_now (if cancelled then AgentRun.cancelled else AgentRun.failed) (with_error error);;
    persist_or_interrupt
  else if negb (terminalPersisted s) then modify set_interrupted
  else mret tt.

(** The [finally] block; both releases catch their own errors. *)
Definition release_worktree : exec unit := λ s,
  match worktree s with
  | None => (Ok tt, s)
  | Some path =>
      match await_port (wm_release worktrees path) s with
      | (Ok _, s') => (Ok tt, s')
      | (Throw e, s') => (Ok tt, push_cleanup (executionError e "WORKTREE_RELEASE_FAILED") s')
      end
  end.

Definition lock_not_released : AgentRunExecutionError :=
  {| ex_message := "Task lock was not released by its owning run";
     ex_code := "TASK_LOCK_RELEASE_FAILED" |}.

Definition release_lock : exec unit := λ s,
  if terminalPersisted s then
    match await_command (releaseTaskLock (AgentRun.id (run s))) s with
    | (Ok true, s') => (Ok tt, s')
    | (Ok false, s') => (Ok tt, push_cleanup lock_not_released s')
    | (Throw e, s') => (Ok tt, push_cleanup (executionError e "TASK_LOCK_RELEASE_FAILED") s')
    end
  else (Ok tt, s).

Definition finally_block : exec unit := release_worktree;; release_lock.

(** [try { ... } catch (error) { ... } finally { ... }] *)
Definition try_catch_finally : exec unit := λ s,
  let '(r, s1) := match try_block s with
                  | (Ok u, s1) => (Ok u, s1)
                  | (Throw e, s1) => catch_block e s1
                  end in
  match finally_block s1 with
  | (Ok _, s2) => (r, s2)
  | (Throw e, s2) => (Throw e, s2)
  end.

Inductive reported_status := reported_completed | reported_failed | reported_cancelled | interrupted.

Record AgentRunExecutionResult := {
  er_runId : string;
  er_status : reported_status;
  er_error : option AgentRunExecutionError;
  er_cleanupError : option AgentRunExecutionError;
  er_actions : list A
}.

Definition report (st : AgentRun.AgentRunStatus) : option reported_status :=
  match st with
  | AgentRun.completed => Some reported_completed
  | AgentRun.failed => Some reported_failed
  | AgentRun.cancelled => Some reported_cancelled
  | _ => None
  end.

Definition cleanup_error (s : state) : option AgentRunExecutionError :=
  match cleanupErrors s with
  | [] => None
  | l => Some {| ex_message := join "; " (ex_message <$> l); ex_code := "CLEANUP_FAILED" |}
  end.

Definition execution_result : exec AgentRunExecutionResult :=
  s ← get;
  if persistenceInterrupted s then
    mret {| er_runId := AgentRun.id (run s); er_status := interrupted;
            er_error := Some
              {| ex_code := "RUN_STATE_PERSISTENCE_FAILED";
                 ex_message := "Run state could not be persisted; inspect run:reconcile" |};
            er_cleanupError := cleanup_error s; er_actions := actions s |}
  else match report (AgentRun.status (run s)) with
       | None => mthrow other_error
       | Some st => mret {| er_runId := AgentRun.id (run s); er_status := st;
                            er_error := primaryError s; er_cleanupError := cleanup_error s;
                            er_actions := actions s |}
       end.

Definition initial_state (r : AgentRun.Props) (w : world) : state :=
  {| host := w; awaits := 0; run := r; worktree := None; primaryError := None; actions := [];
     terminalPersisted := false; persistenceInterrupted := false; cleanupErrors := [] |}.

Definition execute (r : AgentRun.Props) (w : world) : result thrown AgentRunExecutionResult * state :=
  (try_catch_finally;; execution_result) (initial_state r w).

(** * Lemmas *)

(** [m] from a state of [P] ends in [Q], or throws in a state of [E]. *)
Definition triple {B} (P : state → Prop) (m : exec B) (Q : B → state → Prop) (E : state → Prop)
    : Prop :=
  ∀ s, P s → match m s with (Ok b, s') => Q b s' | (Throw _, s') => E s' end.

Lemma triple_bind {B C} (P : state → Prop) (m : exec B) (k : B → exec C) Q R E :
  triple P m Q E → (∀ b, triple (Q b) (k b) R E) → triple P (m ≫= k) R E.
Proof.
  intros Hm Hk s Hs. specialize (Hm s Hs). unfold mbind, action_bind.
  destruct (m s) as [[b|e] s1]; [|done]. by apply Hk.
Qed.

Lemma triple_get {B} (P : state → Prop) (k : state → exec B) Q E :
  (∀ s, triple (λ s', s' = s ∧ P s) (k s) Q E) → triple P (get ≫= k) Q E.
Proof. intros Hk s Hs. rewrite get_bind. by apply Hk. Qed.

Lemma triple_weaken {B} (P P' : state → Prop) (m : exec B) (Q Q' : B → state → Prop)
    (E E' : state → Prop) :
  triple P' m Q' E' → (∀ s, P s → P' s) → (∀ b s, Q' b s → Q b s) → (∀ s, E' s → E s) →
  triple P m Q E.
Proof.
  intros Hm HP HQ HE s Hs. specialize (Hm s (HP s Hs)). destruct (m s) as [[b|e] s']; auto.
Qed.

Lemma triple_at {B} (P : state → Prop) (m : exec B) Q E s :
  triple P m Q E → triple (λ s', s' = s ∧ P s) m Q E.
Proof. intros Hm s' [-> Hs]. by apply Hm. Qed.

Context (id : string).

(** The run the caller passed, before anything terminal was persisted. *)
Record live (s : state) : Prop := {
  lv_id : AgentRun.id (run s) = id;
  lv_terminal : terminalPersisted s = false;
  lv_interrupted : persistenceInterrupted s = false
}.

Definition begun (s : state) : Prop := live s ∧ AgentRun.status (run s) ≠ AgentRun.queued.

(** A row that ended with [st]: it cannot change any more. *)
Definition ended (st : AgentRun.AgentRunStatus) (d : tables) : Prop :=
  AgentRun.is_terminal st = true ∧ ∃ row, runs d !! id = Some row ∧ r_status row = st.

Definition lockless (d : tables) : Prop := ∀ t l, locks d !! t = Some l → l_run_id l ≠ id.

Context (Hrely : ∀ n d, ∃ ls, RunHistory.trace (λ _, True) d ls (disturb n d)).

Lemma evolves_ended st old new :
  RunHistory.evolves old new → r_status old = st → AgentRun.is_terminal st = true →
  r_status new = st.
Proof. intros He <- Ht. by rewrite (RunHistory.evolves_terminal _ _ He Ht). Qed.

Lemma ended_step st d l d' : RunHistory.step d l d' → ended st d → ended st d'.
Proof.
  intros Hs (Ht & row & Hrow & Hst). destruct (RunHistory.step_row _ _ _ _ _ Hs Hrow) as (row' & Hrow' & He).
  split; [done|]. exists row'. split; [done|]. by eapply evolves_ended.
Qed.

Lemma ended_disturb st n d : ended st d → ended st (disturb n d).
Proof.
  destruct (Hrely n d) as (ls & Ht). induction Ht as [d' _|d1 l d2 ls d3 _ Hs _ IH]; [done|].
  intros He. by eapply IH, ended_step.
Qed.

Lemma lockless_step st d l d' :
  RunHistory.step d l d' → ended st d → lockless d → lockless d'.
Proof.
  intros Hs (Ht & row & Hrow & Hst) Hn.
  destruct Hs as [c w r w' Hc|d1 d2 (_ & _ & Hl)]; [|unfold lockless; by rewrite Hl].
  assert (includes (r_status row) active_run_statuses = false) as Hdead
    by (rewrite Hst; by destruct st).
  destruct r as [a|e]; [|by rewrite (RunHistory.perform_Throw _ _ _ _ Hc)].
  destruct c; simpl in Hc; apply action_bind_Ok in Hc as (x & w1 & Hc & Ha); injection Ha as <- <-.
  - apply RunHistory.saveRun_locks in Hc. unfold lockless. by rewrite Hc.
  - apply RunHistory.admitQueuedRun_Ok in Hc. destruct x as [v|]; [|by destruct Hc as [-> _]].
    destruct Hc as (row1 & accepted & at_ & completed & err & e & _ & _ & _ & _ & _ & _ & _ & _ & _ &
      _ & _ & w2 & -> & Hw).
    assert (∀ f e', lockless (RunHistory.add_event e' (set_runs f (db w)))) as Hadd.
    { intros f e'. unfold lockless. by rewrite RunHistory.locks_add_event. }
    destruct accepted; [subst w1; apply Hadd|].
    destruct Hw as (b & [_ ->]%RunHistory.releaseTaskLock_Ok). intros t l. simpl.
    intros [Hl _]%map_lookup_filter_Some. by eapply Hadd.
  - apply RunHistory.acceptWorkerResult_Ok in Hc. destruct x; [|by subst].
    destruct Hc as (? & ? & ? & ? & ? & ? & ? & ? & _ & _ & _ & _ & _ & ->). unfold lockless. simpl.
    by rewrite RunHistory.locks_add_event.
  - apply RunHistory.acquireTaskLock_Ok in Hc. destruct x; [|by subst].
    destruct Hc as (? & ? & row1 & _ & _ & Hrow1 & _ & Hal & -> & _). intros t l. simpl.
    rewrite lookup_insert_Some. intros [[_ <-]|[_ Hl]]; [|by eapply Hn]. simpl. intros ->.
    assert (row1 = row) as -> by congruence. congruence.
  - apply RunHistory.renewTaskLock_Ok in Hc. destruct x; [|by subst].
    destruct Hc as (t' & l' & ex & [Hl' Hr']%RunHistory.lock_of_Some & ->). intros t l. simpl.
    rewrite lookup_insert_Some. intros [[_ <-]|[_ Hl]]; [|by eapply Hn]. simpl. subst.
    by eapply Hn.
  - apply RunHistory.releaseTaskLock_Ok in Hc as [_ ->]. intros t l. simpl.
    intros [Hl _]%map_lookup_filter_Some. by eapply Hn.
Qed.

Lemma lockless_disturb st n d : ended st d → lockless d → lockless (disturb n d).
Proof.
  destruct (Hrely n d) as (ls & Ht). induction Ht as [d' _|d1 l d2 ls d3 _ Hs _ IH]; [done|].
  intros He Hn. eapply IH; [by eapply ended_step|by eapply lockless_step].
Qed.

(** A save that succeeds stores the status. *)
Lemma saveRun_stores v w v' w' :
  saveRun v w = (Ok v', w') → ∃ row, runs (db w') !! AgentRun.id v = Some row ∧
    r_status row = AgentRun.status v.
Proof.
  intros (_ & new & Hnew & _ & Hc)%RunHistory.saveRun_Ok.
  apply RunHistory.row_of_run_spec in Hnew as (_ & _ & _ & _ & _ & Hst & _).
  destruct (runs (db w) !! AgentRun.id v) as [old|] eqn:Hold.
  - destruct Hc as (_ & _ & _ & [[-> ?]|(e & _ & _ & _ & _ & _ & _ & _ & ->)]); [by exists old|].
    eexists. rewrite (RunHistory.runs_add_event e). simpl. rewrite lookup_insert_eq. by split.
  - destruct Hc as (_ & e & _ & _ & ->). exists new. rewrite (RunHistory.runs_add_event e). simpl.
    by rewrite lookup_insert_eq.
Qed.

Lemma transition_id st at_ d p r p' :
  AgentRun.transition st at_ d p = (r, p') → AgentRun.id p' = AgentRun.id p ∧
  match r with
  | Ok _ => AgentRun.status p' = st
  | Throw _ => p' = p
  end.
Proof.
  destruct r as [[]|e].
  - intros (_ & exec & _ & _ & ->)%AgentRun.run_transition_Ok. done.
  - intros Ht. assert (p' = p) as ->; [|done]. revert Ht. unfold AgentRun.transition. rewrite get_bind.
    intros [Ht|([] & p1 & Hr & Ht)]%action_bind_Throw; [by apply atomic_readonly in Ht; auto with ts|].
    unfold refuse_if, lift in Hr. injection Hr as _ <-.
    apply action_bind_Throw in Ht as [Ht|(x & p1 & Hr & Ht)].
    + unfold lift in Ht. by injection Ht as _ <-.
    + unfold lift in Hr. injection Hr as _ <-.
      apply action_bind_Throw in Ht as [Ht|(y & p1 & _ & Ht)]; [|done].
      unfold refuse_if, lift in Ht. by injection Ht as _ <-.
Qed.

(** The transitions to a terminal status and out of [queued] go through. *)
Lemma transition_allowed st at_ d p :
  AgentRun.det_execution d = None → st ∈ AgentRun.transitions (AgentRun.status p) →
  ∃ p', AgentRun.transition st at_ d p = (Ok tt, p').
Proof.
  intros Hd Hst. eexists. apply AgentRun.run_transition_Ok. split; [done|].
  exists (AgentRun.execution p). rewrite Hd. split; [done|]. by split; [right|].
Qed.

(** A predicate on the run object and the flags, which waiting leaves alone. *)
Definition quiet (P : state → Prop) : Prop :=
  ∀ s s', run s' = run s → terminalPersisted s' = terminalPersisted s →
    persistenceInterrupted s' = persistenceInterrupted s → P s → P s'.

Lemma quiet_live : quiet live.
Proof. intros s s' Hr Ht Hi [? ? ?]. constructor; congruence. Qed.

Lemma quiet_begun : quiet begun.
Proof. intros s s' Hr Ht Hi [Hl Hs]. split; [by eapply quiet_live|congruence]. Qed.

Lemma triple_quiet {B} (P : state → Prop) (m : exec B) :
  quiet P →
  (∀ s, let s' := (m s).2 in run s' = run s ∧ terminalPersisted s' = terminalPersisted s ∧
     persistenceInterrupted s' = persistenceInterrupted s) →
  triple P m (λ _, P) P.
Proof.
  intros HP Hm s Hs. destruct (Hm s) as (E1 & E2 & E3).
  destruct (m s) as [[b|e] s']; simpl in *; by eapply HP.
Qed.

Lemma clock_quiet P E : quiet P → triple P clock_now (λ _, P) E.
Proof. intros HP s Hs. simpl. eapply HP; [..|exact Hs]; done. Qed.

Lemma port_quiet {B} P (f : nat → result thrown B) : quiet P → triple P (await_port f) (λ _, P) P.
Proof. intros HP. by apply triple_quiet. Qed.

Lemma modify_quiet P E (f : state → state) :
  quiet P → (∀ s, run (f s) = run s ∧ terminalPersisted (f s) = terminalPersisted s ∧
    persistenceInterrupted (f s) = persistenceInterrupted s) →
  triple P (modify f) (λ _, P) E.
Proof. intros HP Hf s Hs. destruct (Hf s) as (E1 & E2 & E3). simpl. eapply HP; [..|exact Hs]; done. Qed.

Lemma begun_transition st d :
  st ≠ AgentRun.queued → ∀ at_, triple begun (transition_at st at_ d)
    (λ _ s, begun s ∧ AgentRun.status (run s) = st) begun.
Proof.
  intros Hq at_ s [[Hid Ht Hi] Hs]. unfold transition_at.
  destruct (AgentRun.transition st at_ d (run s)) as [r p] eqn:Htr.
  pose proof (transition_id _ _ _ _ _ _ Htr) as [Hpid Hr].
  destruct r; [split; [|done]|subst p]; (split; [constructor; simpl; congruence|]); simpl; congruence.
Qed.

Lemma begun_transition_now st d :
  st ≠ AgentRun.queued → triple begun (transition_now st d)
    (λ _ s, begun s ∧ AgentRun.status (run s) = st) begun.
Proof.
  intros Hq. eapply triple_bind; [apply clock_quiet, quiet_begun|]. intros at_.
  by apply begun_transition.
Qed.

Lemma begun_transition_any st at_ d :
  st ≠ AgentRun.queued → triple begun (transition_at st at_ d) (λ _, begun) begun.
Proof.
  intros Hq. eapply triple_weaken; [by apply (begun_transition st)|done|by intros ? ? [? _]|done].
Qed.

(** A save that goes through has stored the run's status. *)
Lemma begun_persist st :
  triple (λ s, begun s ∧ AgentRun.status (run s) = st) persist
    (λ _ s, begun s ∧ AgentRun.status (run s) = st ∧
            (AgentRun.is_terminal st = true → ended st (db (host s)))) begun.
Proof.
  intros s [Hb Hst]. unfold persist. rewrite get_bind. unfold mbind, action_bind, await_command.
  destruct (saveRun (run s) (host s)) as [[v|e] w] eqn:Hsave.
  - pose proof Hsave as (-> & _)%RunHistory.saveRun_Ok.
    pose proof (saveRun_stores _ _ _ _ Hsave) as (row & Hrow & Hrs).
    destruct Hb as [[Hid Ht Hi] Hq]. simpl.
    destruct (onRunChanged _); [|by split; [constructor|]].
    split_and!; [by split; [constructor|]|done|]. intros Hterm. apply ended_disturb. split; [done|]. exists row. split; congruence.
  - eapply quiet_begun; [..|exact Hb]; done.
Qed.

Lemma begun_persist_any : triple begun persist (λ _, begun) begun.
Proof.
  intros s Hb. specialize (begun_persist (AgentRun.status (run s)) s (conj Hb eq_refl)).
  destruct (persist s) as [[[]|e] s']; tauto.
Qed.

Definition finished (s : state) : Prop :=
  AgentRun.id (run s) = id ∧ terminalPersisted s = true ∧ persistenceInterrupted s = false ∧
  ended (AgentRun.status (run s)) (db (host s)).

Lemma persist_terminal st :
  AgentRun.is_terminal st = true →
  triple (λ s, begun s ∧ AgentRun.status (run s) = st) (persist;; modify set_terminal)
    (λ _, finished) begun.
Proof.
  intros Ht. eapply triple_bind; [apply begun_persist|]. intros _ s (Hb & Hst & He).
  destruct Hb as [[Hid _ Hi] _]. unfold finished. simpl. rewrite Hst. auto.
Qed.

Lemma cancel_before_start_spec :
  triple live cancel_before_start (λ _, finished) begun.
Proof.
  unfold cancel_before_start. eapply triple_bind; [by apply modify_quiet; [apply quiet_live|]|].
  intros []. eapply (triple_bind _ _ _ (λ _ s, begun s ∧ AgentRun.status (run s) = AgentRun.cancelled)).
  - eapply triple_bind; [apply clock_quiet, quiet_live|]. intros at_ s Hl. unfold transition_at.
    destruct (AgentRun.transition AgentRun.cancelled at_ _ (run s)) as [r p] eqn:Htr.
    pose proof (transition_id _ _ _ _ _ _ Htr) as [Hpid Hr]. destruct Hl as [Hid Ht Hi].
    destruct r as [u|e].
    + split; [|done]. split; [constructor; simpl; congruence|]. simpl. congruence.
    + subst p. split; [constructor; simpl; congruence|]. simpl. intros Hq.
      destruct (transition_allowed AgentRun.cancelled at_ (with_error aborted_error) (run s) eq_refl)
        as (p' & Hp'); [|congruence]. rewrite Hq. simpl. right. by left.
  - intros []. by apply persist_terminal.
Qed.

Lemma start_spec s :
  triple (λ s', s' = s ∧ live s)
    (if bool_decide (AgentRun.status (run s) = AgentRun.queued) then
       transition_now AgentRun.preparing AgentRun.no_details;; persist
     else mret tt) (λ _, begun) begun.
Proof.
  case_bool_decide as Hq; [|by intros s1 [-> Hl]].
  eapply (triple_bind _ _ _ (λ _, begun)); [|intros []; apply begun_persist_any].
  eapply (triple_bind _ _ _ (λ _ s', live s' ∧ AgentRun.status (run s') = AgentRun.queued)).
  - intros s1 [-> Hl]. simpl. split; [|done]. by eapply quiet_live; [..|exact Hl].
  - intros at_ s1 [Hl Hs]. unfold transition_at.
    destruct (transition_allowed AgentRun.preparing at_ AgentRun.no_details (run s1) eq_refl)
      as (p & Hp); [rewrite Hs; simpl; by left|].
    rewrite Hp. apply transition_id in Hp as [Hpid Hp]. destruct Hl.
    split; [constructor; simpl; congruence|]. simpl. congruence.
Qed.

Lemma prepare_executor_spec : triple begun prepare_executor (λ _, begun) begun.
Proof.
  unfold prepare_executor. apply triple_get. intros s.
  destruct (ae_prepare executor); apply triple_at, port_quiet, quiet_begun.
Qed.

Lemma prepare_worktree_spec prepared : triple begun (prepare_worktree prepared) (λ _, begun) begun.
Proof.
  unfold prepare_worktree. case_match; [|by intros s Hs]. apply triple_get. intros s.
  eapply triple_bind; [apply triple_at, port_quiet, quiet_begun|].
  intros path. by apply modify_quiet; [apply quiet_begun|].
Qed.

Lemma start_running_spec prepared : triple begun (start_running prepared) (λ _, begun) begun.
Proof.
  unfold start_running. apply triple_get. intros s.
  eapply (triple_bind _ _ _ (λ _, begun)); [|intros []; apply begun_persist_any].
  apply triple_at. eapply triple_bind; [apply clock_quiet, quiet_begun|]. intros at_.
  by apply begun_transition_any.
Qed.

Lemma run_executor_spec prepared : triple begun (run_executor prepared) (λ _, begun) begun.
Proof.
  unfold run_executor. apply triple_get. intros s.
  eapply triple_bind; [apply triple_at, port_quiet, quiet_begun|]. intros result.
  eapply triple_bind; [by apply (modify_quiet begun); [apply quiet_begun|]|]. intros [].
  apply triple_get. intros s'. apply triple_at. intros s1 Hb. by destruct (aborted _).
Qed.

Lemma review_spec prepared result : triple begun (review prepared result) (λ _, begun) begun.
Proof.
  unfold review. eapply triple_bind; [apply clock_quiet, quiet_begun|]. intros at_.
  destruct (prepared ≫= pr_accept) as [accept|].
  - apply triple_get. intros s. eapply triple_bind; [apply triple_at, port_quiet, quiet_begun|].
    intros ok. eapply triple_bind; [by apply begun_transition_any|]. intros [].
    destruct ok; [|by intros s1 Hs1]. intros s1 [[Hid Ht Hi] Hq]. by split.
  - eapply triple_bind; [by apply begun_transition_any|].
    intros []. apply begun_persist_any.
Qed.

Lemma try_block_spec : triple live try_block (λ _, finished) begun.
Proof.
  unfold try_block. apply triple_get. intros s. destruct (aborted (awaits s)).
  { apply triple_at, cancel_before_start_spec. }
  eapply triple_bind; [apply start_spec|]. intros [].
  eapply triple_bind; [apply prepare_executor_spec|]. intros prepared.
  eapply triple_bind; [apply prepare_worktree_spec|]. intros [].
  eapply triple_bind; [apply start_running_spec|]. intros [].
  eapply triple_bind; [apply run_executor_spec|]. intros result.
  eapply triple_bind; [apply review_spec|]. intros [].
  eapply triple_bind; [by apply (begun_transition_now AgentRun.completed)|]. intros [].
  by apply persist_terminal.
Qed.

(** Either the terminal status is stored, or the run is reported interrupted. *)
Definition settled (s : state) : Prop :=
  finished s ∨ AgentRun.id (run s) = id ∧ persistenceInterrupted s = true.

Lemma persist_or_interrupt_spec st :
  AgentRun.is_terminal st = true →
  triple (λ s, begun s ∧ AgentRun.status (run s) = st) persist_or_interrupt
    (λ _, settled) (λ _, False).
Proof.
  intros Ht s Hs. unfold persist_or_interrupt. pose proof (persist_terminal st Ht s Hs) as Hp.
  destruct ((persist;; modify set_terminal) s) as [[u|e] s']; [by left|].
  destruct Hp as [[Hid _ _] _]. by right.
Qed.

Definition unfinished (s : state) : Prop :=
  begun s ∧ AgentRun.is_terminal (AgentRun.status (run s)) = false.

Lemma quiet_unfinished : quiet unfinished.
Proof. intros s s' Hr Ht Hi [Hb Hn]. split; [by eapply quiet_begun|congruence]. Qed.

(** A failure or a cancellation of a run that has begun and not ended. *)
Lemma fail_spec st error :
  st = AgentRun.failed ∨ st = AgentRun.cancelled →
  triple unfinished
    (modify (set_primary error);; transition_now st (with_error error);; persist_or_interrupt)
    (λ _, settled) (λ _, False).
Proof.
  intros Hst. assert (AgentRun.is_terminal st = true) as Ht by by destruct Hst as [-> | ->].
  eapply triple_bind; [by apply (modify_quiet unfinished); [apply quiet_unfinished|]|]. intros [].
  eapply (triple_bind _ _ _ (λ _ s, begun s ∧ AgentRun.status (run s) = st));
    [|intros []; by apply persist_or_interrupt_spec].
  eapply triple_bind; [apply (clock_quiet unfinished), quiet_unfinished|].
  intros at_ s [[[Hid Hf Hi] Hq] Hn].
  assert (st ∈ AgentRun.transitions (AgentRun.status (run s))) as Hin.
  { apply includes_spec. destruct Hst as [-> | ->]; by destruct (AgentRun.status (run s)). }
  destruct (transition_allowed st at_ (with_error error) (run s) eq_refl Hin) as (p & Hp).
  unfold transition_at. rewrite Hp. apply transition_id in Hp as [Hpid Hp].
  split; [|done]. split; [constructor; simpl; congruence|]. simpl. intros Hq'.
  rewrite Hq' in Hp. by rewrite <- Hp in Ht.
Qed.

Lemma catch_block_spec e : triple begun (catch_block e) (λ _, settled) (λ _, False).
Proof.
  intros s Hb. unfold catch_block. rewrite get_bind.
  destruct (AgentRun.is_terminal (AgentRun.status (run s))) eqn:Hterm; simpl.
  - destruct Hb as [[Hid Ht _] _]. rewrite Ht. by right.
  - apply (fail_spec (if isCancelled e s then AgentRun.cancelled else AgentRun.failed));
      [destruct (isCancelled e s); auto|by split].
Qed.

Lemma release_worktree_spec : triple settled release_worktree (λ _, settled) (λ _, False).
Proof.
  intros s Hs. unfold release_worktree, await_port. destruct (worktree s) as [path|]; [|done].
  assert (settled (resume s)) as Hr.
  { destruct Hs as [(Hid & Ht & Hi & He)|[Hid Hi]]; [left|by right].
    split_and!; try done. by apply ended_disturb. }
  destruct (wm_release worktrees path (awaits s)) as [[]|e]; [done|].
  destruct Hr as [(Hid & Ht & Hi & He)|[Hid Hi]]; [by left|by right].
Qed.

(** What the caller may rely on when [execute] has returned. *)
Definition returned (s : state) : Prop :=
  finished s ∧ lockless (db (host s)) ∨
  AgentRun.id (run s) = id ∧ persistenceInterrupted s = true.

Lemma release_lock_spec : triple settled release_lock (λ _, returned) (λ _, False).
Proof.
  intros s Hs. unfold release_lock. destruct Hs as [(Hid & Ht & Hi & He)|[Hid Hi]].
  - rewrite Ht. unfold await_command, releaseTaskLock. rewrite RunStore.read_bind, RunStore.write_bind.
    rewrite Hid. set (w := with_tables (host s) _).
    assert (ended (AgentRun.status (run s)) (db w) ∧ lockless (db w)) as [He' Hn].
    { split; [done|]. intros t l. simpl. by intros [_ ?]%map_lookup_filter_Some. }
    assert (returned (resume (set_host w s))) as Hr.
    { left. split; [split_and!; try done; by apply ended_disturb|].
      by apply (lockless_disturb (AgentRun.status (run s))). }
    destruct (bool_decide _); [exact Hr|].
    destruct Hr as [[(? & ? & ? & ?) ?]|[? ?]]; [by left|by right].
  - destruct (terminalPersisted s); [|by right]. unfold await_command, releaseTaskLock.
    rewrite RunStore.read_bind, RunStore.write_bind. simpl. destruct (bool_decide _); by right.
Qed.

Lemma try_catch_finally_spec : triple live try_catch_finally (λ _, returned) (λ _, False).
Proof.
  intros s Hl. unfold try_catch_finally.
  assert (match (match try_block s with
                 | (Ok u, s1) => (Ok u, s1)
                 | (Throw e, s1) => catch_block e s1
                 end) with (Ok _, s1) => settled s1 | (Throw _, _) => False end) as Hc.
  { pose proof (try_block_spec s Hl) as Ht. destruct (try_block s) as [[u|e] s1]; [by left|].
    pose proof (catch_block_spec e s1 Ht) as Hc. by destruct (catch_block e s1) as [[u|e'] s2]. }
  destruct (match try_block s with (Ok u, s1) => _ | (Throw e, s1) => _ end) as [[u|e] s1]; [|done].
  assert (triple settled finally_block (λ _, returned) (λ _, False)) as Hf.
  { eapply triple_bind; [apply release_worktree_spec|]. intros []. apply release_lock_spec. }
  specialize (Hf s1 Hc). by destruct (finally_block s1) as [[u'|e] s2].
Qed.

End execute.

(** * Properties *)


(** ** Samples *)

#[local] Existing Instance decimal_number.
#[local] Instance sample_environment : Store.Environment :=
  {| Store.clock_at := λ n, (1000 + Z.of_nat n)%Z; Store.id_at := λ n, "id" |}.

Definition sample_worktrees : WorktreeManager :=
  {| wm_prepare := λ id _, Ok (".ai-office/worktrees/" +:+ id); wm_release := λ _ _, Ok tt |}.

(** Someone releases the run's lock at the second await. *)
Definition sample_interference : Interference := λ n d,
  if n =? 1 then
    db (RunHistory.play [RunHistory.CRelease "r1"]
          {| db := d; active := false; ticks := 0; generated := 0 |})
  else d.

Definition sample_copy : AgentRun.Props :=
  RunHistory.admitted_run (RunHistory.sample_admission "r1" 20) RunHistory.queued_world.

Definition no_listener : nat → result thrown unit := λ _, Ok tt.

Definition no_signal : AbortSignal := λ _, false.

Example sample_execution :
  let '(r, s) := execute (A := unit) (H1 := no_signal) (H2 := sample_interference)
    (@SimulatedAgentExecutor unit no_signal) sample_worktrees no_listener sample_copy RunHistory.admitted_world in
  match r with
  | Ok result => er_status result = reported_completed ∧ ex_code <$> er_cleanupError result = Some "CLEANUP_FAILED"
  | Throw _ => False
  end ∧ r_status <$> runs (db (host s)) !! "r1" = Some AgentRun.completed.
Proof. by vm_compute. Qed.


End RunExecution.
