(* ===== verification/TaskInvariants.v ===== *)
(** What the task services promise together: an abstract description of the
    changes they may make to the database, the proof that every request is
    one of them or changes nothing, and the invariants of a project's tasks,
    prerequisites and audit trail that follow. *)
From S2P Require Import Prelude Errors TaskModel DependencyGraph Json CostModel Store TaskServices.
Import Canonical Store TaskServices.

Module TaskInvariants.

(** * The abstract changes *)

(** Every prerequisite the project records for the task satisfies [r]. *)
Definition unblocked (r : Dependency.requirement) (projectId taskId : string) (d : database)
    : Prop :=
  ∀ dependsOn row, dependencies d !! (taskId, dependsOn) = Some row →
    dep_projectId row = projectId →
    ∃ t, tasks d !! dependsOn = Some t ∧ Dependency.satisfied r (Task.status t) = true.

(** The task may still change its prerequisites. *)
Definition editable (projectId taskId : string) (d : database) : Prop :=
  ∃ t, tasks d !! taskId = Some t ∧ Task.projectId t = projectId ∧
    Task.status t ∈ [Task.pending; Task.blocked] ∧
    ∀ row, history d !! taskId = Some row → h_projectId row ≠ projectId.

Definition about_task (e : AuditEventProps) (type projectId taskId : string) : Prop :=
  ae_eventType e = type ∧ ae_aggregateType e = Some "task" ∧
  ae_aggregateId e = Some taskId ∧ ae_projectId e = Some projectId.

(** The status an event says its task moved to. *)
Definition event_status (e : AuditEventProps) : option Task.TaskStatus :=
  if includes (ae_eventType e) ["task.status_changed"; "task.completion_recorded"] then
    match List.find (λ m, bool_decide (m.1 = "to")) (ae_payload e) with
    | Some (_, CStr s) => List.find (λ st, bool_decide (Task.status_name st = s))
        [Task.pending; Task.assigned; Task.running; Task.blocked; Task.waiting_review;
         Task.completed; Task.failed; Task.cancelled]
    | _ => None
    end
  else None.

(** A saved status, with the execution history the triggers keep. *)
Definition moved (t : Task.TaskProps) (to : Task.TaskStatus) (at_ : date) (d : database)
    : database :=
  let t' := Task.with_status t to at_ in
  let d' := set_tasks <[Task.id t := t']> d in
  if start_fires t t' then
    set_history (record_execution (Task.id t) (Task.projectId t) (started_at t')) d'
  else d'.

Definition append_audits (es : list AuditEventProps) (d : database) : database :=
  foldl (λ d e, append_audit e d) d es.

(** The label of a change is what it takes from the id generator: the task
    it creates, and the events it records. *)
Inductive change : option string → list string → database → database → Prop :=
| change_none d : change None [] d d
| change_create d input t :
    Task.create input = Ok t → tasks d !! Task.id t = None → Task.projectId t ∈ projects d →
    change (Some (Task.id t)) [] d (set_tasks <[Task.id t := t]> d)
| change_edit d t t' es :
    tasks d !! Task.id t = Some t → rtc Task.step t t' → Task.status t' = Task.status t →
    Forall (λ e, event_status e = None ∧ ae_eventType e ≠ "task.completion_recorded") es →
    NoDup (ae_id <$> es) → (∀ e, e ∈ es → ae_id e ∉ ae_id <$> audit d) →
    change None (ae_id <$> es) d (append_audits es (set_tasks <[Task.id t := t']> d))
| change_move d t op at_ e :
    tasks d !! Task.id t = Some t →
    Task.isTaskTransitionAllowed (Task.status t) (operation_to op) = true →
    (op = start → unblocked Dependency.at_start (Task.projectId t) (Task.id t) d) →
    (op = complete → unblocked Dependency.at_completion (Task.projectId t) (Task.id t) d) →
    about_task e "task.status_changed" (Task.projectId t) (Task.id t) →
    event_status e = Some (operation_to op) → ae_id e ∉ ae_id <$> audit d →
    change None [ae_id e] d (append_audit e (moved t (operation_to op) at_ d))
| change_record d t at_ e :
    tasks d !! Task.id t = Some t →
    Task.isHistoricalCompletionApplicable (Task.status t) = true →
    about_task e "task.completion_recorded" (Task.projectId t) (Task.id t) →
    event_status e = Some Task.completed → ae_id e ∉ ae_id <$> audit d →
    change None [ae_id e] d (append_audit e (moved t Task.completed at_ d))
| change_link d projectId a b at_ e :
    editable projectId a d → same_project projectId a b d = true →
    dependencies d !! (a, b) = None → ¬ rtc (Dependency.depends (all_edges d)) b a →
    event_status e = None → ae_eventType e ≠ "task.completion_recorded" →
    ae_id e ∉ ae_id <$> audit d →
    change None [ae_id e] d (append_audit e (set_dependencies
      <[(a, b) := {| dep_projectId := projectId; dep_createdAt := at_ |}]> d))
| change_unlink d projectId a b e :
    editable projectId a d → is_Some (dependencies d !! (a, b)) →
    event_status e = None → ae_eventType e ≠ "task.completion_recorded" →
    ae_id e ∉ ae_id <$> audit d →
    change None [ae_id e] d (append_audit e (set_dependencies (delete (a, b)) d))
| change_requirement d f e :
    event_status e = None → ae_eventType e ≠ "task.completion_recorded" →
    ae_id e ∉ ae_id <$> audit d →
    change None [ae_id e] d (append_audit e (set_task_requirements f d)).

(** * Refusals *)

Section refusals.
  Context `{Environment}.

Lemma append_event_atomic e : db_atomic (append_event e).
Proof. unfold append_event. eauto 15 with ts. Qed.

Lemma record_audit_event_atomic input : db_atomic (record_audit_event input).
Proof.
  unfold record_audit_event. apply db_atomic_bind; [auto with ts|]. intros id.
  apply db_atomic_bind; [auto with ts|]. intros at_.
  apply db_atomic_bind; [auto with ts|]. intros e.
  apply db_atomic_total; [apply append_event_atomic|]. by repeat eexists.
Qed.

Lemma save_task_atomic p : db_atomic (save_task p).
Proof.
  unfold save_task. apply db_atomic_bind; [unfold find_task; auto with ts|].
  intros [old|]; [|unfold find_project; eauto 10 with ts].
  apply db_atomic_bind; [auto with ts|]. intros d.
  apply db_atomic_bind; [auto with ts|]. intros _.
  apply db_atomic_bind; [auto with ts|]. intros _.
  apply db_atomic_total; [auto with ts|]. intros _ w. case_match; by repeat eexists.
Qed.

Lemma require_project_task_readonly projectId taskId :
  db_readonly (require_project_task projectId taskId).
Proof.
  unfold require_project_task, find_project, find_task.
  apply db_readonly_bind; [auto with ts|]. intros k.
  apply db_readonly_bind; [auto with ts|]. intros _.
  apply db_readonly_bind; [auto with ts|]. intros o. repeat case_match; auto with ts.
Qed.

Lemma requireBothEnds_readonly input : db_readonly (requireBothEnds input).
Proof.
  unfold requireBothEnds, requirement_status.
  apply db_readonly_bind; [apply require_project_task_readonly|]. intros _.
  apply db_readonly_bind; [auto with ts|]. intros o. case_match; auto with ts.
Qed.

Lemma create_task_atomic input : db_atomic (create_task input).
Proof.
  unfold create_task, find_project. apply db_atomic_bind; [auto with ts|]. intros k.
  apply db_atomic_bind; [auto with ts|]. intros _.
  apply db_atomic_bind; [auto with ts|]. intros id.
  apply db_atomic_bind; [auto with ts|]. intros at_.
  apply db_atomic_bind; [auto with ts|]. intros t.
  apply db_atomic_total; [apply save_task_atomic|]. by repeat eexists.
Qed.

Lemma ignoring_atomic {A} (m : command A) : db_atomic m → db_atomic (ignoring m).
Proof. intros Hm. apply db_atomic_total; [done|]. by repeat eexists. Qed.

Lemma serve_atomic `{ShowNumber} sha256 r : db_atomic (serve sha256 r).
Proof.
  destruct r; apply ignoring_atomic; try apply run_atomic.
  - apply create_task_atomic.
  - apply db_atomic_bind; [apply requireBothEnds_readonly|]. intros _. apply run_atomic.
  - apply db_atomic_bind; [apply requireBothEnds_readonly|]. intros _. apply run_atomic.
Qed.

End refusals.

(** * The invariant *)

(** The status of a task as its audit trail tells it. *)
Definition replay (taskId : string) (es : list AuditEventProps) : Task.TaskStatus :=
  foldl (λ st e, if bool_decide (ae_aggregateId e = Some taskId)
                 then default st (event_status e) else st) Task.pending es.

Record store_ok (d : database) : Prop := {
  ok_task k t : tasks d !! k = Some t →
    Task.id t = k ∧ Task.projectId t ∈ projects d ∧ Task.well_formed t;
  ok_edge a b row : dependencies d !! (a, b) = Some row →
    same_project (dep_projectId row) a b d = true;
  ok_acyclic : Dependency.acyclic (all_edges d);
  ok_completed k t : tasks d !! k = Some t → Task.status t = Task.completed →
    unblocked Dependency.at_completion (Task.projectId t) k d ∨
    ∃ e, e ∈ audit d ∧ about_task e "task.completion_recorded" (Task.projectId t) k;
  ok_replay k t : tasks d !! k = Some t → replay k (audit d) = Task.status t;
  ok_known e : e ∈ audit d → event_status e ≠ None →
    ∃ k, ae_aggregateId e = Some k ∧ is_Some (tasks d !! k);
  ok_ids : NoDup (ae_id <$> audit d);
  ok_history k row : history d !! k = Some row →
    ∃ t, tasks d !! k = Some t ∧ h_projectId row = Task.projectId t;
  ok_started k t : tasks d !! k = Some t → Task.status t ∈ [Task.running; Task.waiting_review] →
    is_Some (history d !! k)
}.

(** ** Reading the graph *)

Lemma all_edges_depends d a b :
  Dependency.depends (all_edges d) a b ↔ is_Some (dependencies d !! (a, b)).
Proof.
  unfold Dependency.depends, all_edges. rewrite list_elem_of_fmap. split.
  - intros ([[x y] row] & [= -> ->] & Hin%elem_of_map_to_list). by exists row.
  - intros [row Hrow]. exists ((a, b), row). split; [done|]. by apply elem_of_map_to_list.
Qed.

Lemma same_project_spec projectId a b d :
  same_project projectId a b d = true ↔
  ∃ s t, tasks d !! a = Some s ∧ tasks d !! b = Some t ∧
         Task.projectId s = projectId ∧ Task.projectId t = projectId.
Proof.
  unfold same_project. destruct (tasks d !! a), (tasks d !! b); simpl; try naive_solver.
  rewrite andb_true_iff, !bool_decide_eq_true. naive_solver.
Qed.

Lemma acyclic_insert d a b row :
  Dependency.acyclic (all_edges d) → ¬ rtc (Dependency.depends (all_edges d)) b a →
  Dependency.acyclic (all_edges (set_dependencies <[(a, b) := row]> d)).
Proof.
  intros Hac Hn. eapply Dependency.acyclic_subset; [|by apply Dependency.acyclic_cons].
  intros [x y] Hin. change (Dependency.depends (all_edges (set_dependencies <[(a, b):=row]> d)) x y)
    in Hin. apply all_edges_depends in Hin as [r Hr]. simpl in Hr.
  apply lookup_insert_Some in Hr as [[[= -> ->] _]|[_ Hr]]; [by left|]. right.
  apply all_edges_depends. by exists r.
Qed.

Lemma acyclic_delete d k :
  Dependency.acyclic (all_edges d) →
  Dependency.acyclic (all_edges (set_dependencies (delete k) d)).
Proof.
  apply Dependency.acyclic_subset. intros [x y] Hin.
  change (Dependency.depends (all_edges (set_dependencies (delete k) d)) x y) in Hin.
  apply all_edges_depends in Hin as [r Hr]. simpl in Hr. apply lookup_delete_Some in Hr as [_ Hr].
  apply all_edges_depends. by exists r.
Qed.

(** ** Frames *)

Lemma append_audits_fields es d :
  tasks (append_audits es d) = tasks d ∧ projects (append_audits es d) = projects d ∧
  dependencies (append_audits es d) = dependencies d ∧ history (append_audits es d) = history d ∧
  audit (append_audits es d) = audit d ++ es.
Proof.
  revert d. induction es as [|e es IH]; intros d; simpl; [by rewrite app_nil_r|].
  destruct (IH (append_audit e d)) as (-> & -> & -> & -> & ->); simpl.
  by rewrite <-(assoc_L (++)).
Qed.

Lemma moved_fields t to at_ d :
  tasks (moved t to at_ d) = <[Task.id t := Task.with_status t to at_]> (tasks d) ∧
  projects (moved t to at_ d) = projects d ∧ dependencies (moved t to at_ d) = dependencies d ∧
  audit (moved t to at_ d) = audit d.
Proof. unfold moved. by case_match. Qed.

Lemma moved_history t to at_ d :
  history (moved t to at_ d) =
  if start_fires t (Task.with_status t to at_)
  then record_execution (Task.id t) (Task.projectId t) (started_at (Task.with_status t to at_))
         (history d)
  else history d.
Proof. unfold moved. by case_match. Qed.

#[local] Opaque moved.

(** The history row of a task only gains evidence. *)
Lemma record_execution_lookup k p at_ rows k' row :
  record_execution k p at_ rows !! k' = Some row →
  (k' = k ∧ h_projectId row = p ∧ rows !! k = None) ∨
  ∃ old, rows !! k' = Some old ∧ h_projectId row = h_projectId old.
Proof.
  unfold record_execution. destruct (rows !! k) as [old|] eqn:Hk;
    intros [[<- <-]|[Hne Hr]]%lookup_insert_Some; simpl; eauto 10.
Qed.

Lemma record_execution_keeps k p at_ rows k' old :
  rows !! k' = Some old →
  ∃ row, record_execution k p at_ rows !! k' = Some row ∧ h_projectId row = h_projectId old.
Proof.
  intros Hold. unfold record_execution.
  destruct (decide (k = k')) as [<-|Hne].
  - rewrite Hold, lookup_insert_eq. by eexists.
  - case_match; rewrite lookup_insert_ne by done; eauto.
Qed.

Lemma record_execution_records k p at_ rows : is_Some (record_execution k p at_ rows !! k).
Proof. unfold record_execution. case_match; rewrite lookup_insert_eq; eauto. Qed.

(** The task a change leaves in the place of an old one. *)
Definition succeeds (t t' : Task.TaskProps) : Prop :=
  Task.id t' = Task.id t ∧ Task.projectId t' = Task.projectId t ∧
  (Task.isTerminalTaskStatus (Task.status t) = true → Task.status t' = Task.status t).

Lemma succeeds_refl t : succeeds t t.
Proof. done. Qed.

Lemma steps_keep t t' : rtc Task.step t t' →
  Task.id t' = Task.id t ∧ Task.projectId t' = Task.projectId t ∧
  (Task.well_formed t → Task.well_formed t').
Proof.
  induction 1 as [|t u v Htu _ (-> & -> & IH)]; [done|].
  destruct (Task.step_title _ _ Htu) as (-> & -> & _). split_and!; [done..|].
  intros Hw. by eapply IH, Task.step_well_formed.
Qed.

Lemma allowed_not_terminal s to :
  Task.isTaskTransitionAllowed s to = true → Task.isTerminalTaskStatus s = false.
Proof. by destruct s, to. Qed.

Lemma historical_not_terminal s :
  Task.isHistoricalCompletionApplicable s = true → Task.isTerminalTaskStatus s = false.
Proof. by destruct s. Qed.

Lemma insert_succeeds (m : gmap string Task.TaskProps) t t' :
  m !! Task.id t = Some t → succeeds t t' →
  ∀ k u, m !! k = Some u → ∃ u', <[Task.id t := t']> m !! k = Some u' ∧ succeeds u u'.
Proof.
  intros Ht Hs k u Hu. destruct (decide (Task.id t = k)) as [<-|Hne].
  - rewrite lookup_insert_eq. exists t'. split; [done|]. congruence.
  - rewrite lookup_insert_ne by done. eauto using succeeds_refl.
Qed.

Lemma change_tasks c i d d' :
  change c i d d' →
  projects d' = projects d ∧
  ∀ k t, tasks d !! k = Some t → ∃ t', tasks d' !! k = Some t' ∧ succeeds t t'.
Proof.
  destruct 1 as [|d input t Hc Hn Hp|d t t' es Ht Hs Hst|d t op at_ e Ht Ha|d t at_ e Ht Ha| | |];
    simpl; try (split; [done|]; eauto using succeeds_refl).
  - intros k u Hu. exists u. split; [|done]. by rewrite lookup_insert_ne by congruence.
  - destruct (append_audits_fields es (set_tasks <[Task.id t := t']> d)) as (-> & -> & _).
    simpl. split; [done|]. apply insert_succeeds; [done|].
    destruct (steps_keep _ _ Hs) as (? & ? & _). done.
  - destruct (moved_fields t (operation_to op) at_ d) as (-> & -> & _). split; [done|].
    apply insert_succeeds; [done|]. split_and!; [done..|].
    intros Hter. apply allowed_not_terminal in Ha. congruence.
  - rewrite (proj1 (moved_fields _ _ _ _)).
    apply insert_succeeds; [done|]. split_and!; [done..|].
    intros Hter. apply historical_not_terminal in Ha. congruence.
Qed.

Lemma change_dom c i d d' k :
  change c i d d' → is_Some (tasks d' !! k) → is_Some (tasks d !! k) ∨ c = Some k.
Proof.
  assert (∀ t t' (m : gmap string Task.TaskProps), m !! Task.id t = Some t →
    is_Some (<[Task.id t := t']> m !! k) → is_Some (m !! k) ∨ None = Some k) as Hins.
  { intros t t' m Ht [u Hu]. apply lookup_insert_Some in Hu as [[<- _]|[_ ?]]; left; eauto. }
  destruct 1 as [|d input t Hc Hn Hp|d t t' es Ht|d t op at_ e Ht|d t at_ e Ht| | |]; simpl;
    rewrite ?(proj1 (moved_fields _ _ _ _)), ?(proj1 (append_audits_fields _ _)); simpl; eauto.
  intros [u Hu]. apply lookup_insert_Some in Hu as [[<- _]|[_ ?]]; eauto.
Qed.

(** Only a task that may still change them gets other prerequisites. *)
Lemma change_dependencies c i d d' k :
  change c i d d' →
  (∃ projectId, editable projectId k d) ∨
  ∀ b, dependencies d' !! (k, b) = dependencies d !! (k, b).
Proof.
  destruct 1 as [|d input t Hc Hn Hp|d t t' es|d t op at_ e|d t at_ e|d p a b at_ e He|d p a b e He|];
    simpl; try (by right); try (right; intros b; by rewrite ?(proj1 (proj2 (proj2 (moved_fields _ _ _ _))))).
  - right. intros b.
    by rewrite (proj1 (proj2 (proj2 (append_audits_fields es (set_tasks <[Task.id t := t']> d))))).
  - destruct (decide (a = k)) as [->|Hne]; [left; eauto|right]. intros b'.
    by rewrite lookup_insert_ne by congruence.
  - destruct (decide (a = k)) as [->|Hne]; [left; eauto|right]. intros b'.
    by rewrite lookup_delete_ne by congruence.
Qed.

(** ** Preservation *)

(** The task a change puts under [k], when it is not one of the old ones. *)
Lemma change_new_tasks c i d d' k t' :
  change c i d d' → tasks d' !! k = Some t' →
  tasks d !! k = Some t' ∨
  (∃ input, Task.create input = Ok t' ∧ tasks d !! k = None ∧ Task.id t' = k ∧
            Task.projectId t' ∈ projects d ∧ audit d' = audit d) ∨
  ∃ t, tasks d !! k = Some t ∧ Task.id t = k ∧ rtc Task.step t t'.
Proof.
  destruct 1 as [|d input t Hc Hn Hp|d t u es Ht Hs Hst|d t op at_ e Ht Ha|d t at_ e Ht Ha| | |];
    simpl; auto.
  - rewrite lookup_insert_Some. intros [[<- <-]|[? ?]]; eauto 10.
  - rewrite (proj1 (append_audits_fields es _)). simpl. rewrite lookup_insert_Some.
    intros [[<- <-]|[? ?]]; eauto 10.
  - rewrite (proj1 (moved_fields _ _ _ _)), lookup_insert_Some.
    intros [[<- <-]|[? ?]]; [|by left]. right; right. exists t. split_and!; [done..|].
    assert (∃ c, Task.run_call c = Task.transition (operation_to op)) as [c Hc].
    { destruct op; [by exists Task.CStart|by exists Task.CSubmitForReview|by exists Task.CComplete
        |by exists Task.CBlock|by exists Task.CUnblock|by exists Task.CFail|by exists Task.CCancel]. }
    apply rtc_once, (Task.step_call c at_). rewrite Hc. by apply Task.transition_Ok.
  - rewrite (proj1 (moved_fields _ _ _ _)), lookup_insert_Some.
    intros [[<- <-]|[? ?]]; [|by left]. right; right. exists t. split_and!; [done..|].
    apply rtc_once, (Task.step_call Task.CRecordHistoricalCompletion at_).
    by apply Task.recordHistoricalCompletion_Ok.
Qed.

Lemma change_ok_task c i d d' k t' :
  change c i d d' → store_ok d → tasks d' !! k = Some t' →
  Task.id t' = k ∧ Task.projectId t' ∈ projects d' ∧ Task.well_formed t'.
Proof.
  intros Hch Hok Ht'. destruct (change_tasks _ _ _ _ Hch) as [-> _].
  destruct (change_new_tasks _ _ _ _ _ _ Hch Ht') as [Ht|[(input & Hc & _ & ? & ? & _)|(t & Ht & _ & Hs)]].
  - by eapply ok_task.
  - split_and!; [done..|]. by eapply Task.create_well_formed.
  - destruct (ok_task _ Hok _ _ Ht) as (? & ? & ?).
    destruct (steps_keep _ _ Hs) as (-> & -> & Hw). auto.
Qed.

Lemma same_project_change c i d d' p a b :
  change c i d d' → same_project p a b d = true → same_project p a b d' = true.
Proof.
  rewrite !same_project_spec. intros [_ Hts]%change_tasks (s & t & Hs & Ht & <- & Hp).
  destruct (Hts _ _ Hs) as (s' & Hs' & _ & Hps & _), (Hts _ _ Ht) as (t' & Ht' & _ & Hpt & _).
  exists s', t'. split_and!; congruence.
Qed.

(** The edges after a change: an old one, or the one it linked. *)
Lemma change_edges c i d d' a b row :
  change c i d d' → dependencies d' !! (a, b) = Some row →
  dependencies d !! (a, b) = Some row ∨ same_project (dep_projectId row) a b d = true.
Proof.
  destruct 1 as [| |d t u es| | |d p x y at_ e He Hs| |]; simpl; auto.
  - rewrite (proj1 (proj2 (proj2 (append_audits_fields es _)))). auto.
  - rewrite (proj1 (proj2 (proj2 (moved_fields _ _ _ _)))). auto.
  - rewrite lookup_insert_Some. intros [[[= -> ->] <-]|[_ ?]]; auto.
  - rewrite lookup_delete_Some. intros [_ ?]; auto.
Qed.

Lemma change_ok_edge c i d d' a b row :
  change c i d d' → store_ok d → dependencies d' !! (a, b) = Some row →
  same_project (dep_projectId row) a b d' = true.
Proof.
  intros Hch Hok Hrow. eapply same_project_change; [done|].
  destruct (change_edges _ _ _ _ _ _ _ Hch Hrow) as [?|?]; [|done]. by eapply ok_edge.
Qed.

Lemma change_ok_acyclic c i d d' :
  change c i d d' → store_ok d → Dependency.acyclic (all_edges d').
Proof.
  intros Hch Hok. pose proof (ok_acyclic _ Hok) as Hac. revert Hac.
  assert (∀ d1 d2, dependencies d1 = dependencies d2 →
            Dependency.acyclic (all_edges d1) → Dependency.acyclic (all_edges d2)) as Hsame.
  { intros d1 d2 Heq. unfold all_edges. by rewrite Heq. }
  destruct Hch as [|d input t Hc Hn Hp|d t u es|d t op at_ e|d t at_ e|d p x y at_ e He Hs Hn Hr|
    d p x y e|];
    try (apply Hsame; simpl; by rewrite ?(proj1 (proj2 (proj2 (moved_fields _ _ _ _)))),
      ?(proj1 (proj2 (proj2 (append_audits_fields _ _))))).
  - intros Hac. eapply Hsame; [|by apply acyclic_insert]. done.
  - intros Hac. eapply Hsame; [|by apply acyclic_delete]. done.
Qed.

(** What a change appends to the trail. *)
Lemma change_audit c i d d' :
  change c i d d' → ∃ es, audit d' = audit d ++ es ∧ ae_id <$> es = i ∧ NoDup (ae_id <$> es) ∧
    ∀ e, e ∈ es → ae_id e ∉ ae_id <$> audit d.
Proof.
  assert (∀ e : AuditEventProps, NoDup (ae_id <$> [e])) as H1.
  { intros e. apply NoDup_singleton. }
  assert (∀ (d : database) e, ae_id e ∉ ae_id <$> audit d →
    ∀ e', e' ∈ [e] → ae_id e' ∉ ae_id <$> audit d) as H2.
  { by intros ? e He e' ->%list_elem_of_singleton. }
  destruct 1 as [d| |d t u es|d t op at_ e|d t at_ e|d ? ? ? ? e|d ? ? ? e|d f e];
    try (exists [e]; simpl; rewrite ?(proj2 (proj2 (proj2 (moved_fields _ _ _ _)))); by eauto).
  - exists []. rewrite app_nil_r. split_and!; [done..|constructor|]. by intros ? ?%elem_of_nil.
  - exists []. rewrite app_nil_r. split_and!; [done..|constructor|]. by intros ? ?%elem_of_nil.
  - exists es. rewrite (proj2 (proj2 (proj2 (proj2 (append_audits_fields es _))))). done.
Qed.

Lemma change_ok_ids c i d d' : change c i d d' → store_ok d → NoDup (ae_id <$> audit d').
Proof.
  intros (es & -> & _ & Hnd & Hfresh)%change_audit Hok. rewrite fmap_app, NoDup_app.
  split_and!; [by apply ok_ids| |done]. intros x Hx (e & -> & He)%list_elem_of_fmap.
  by destruct (Hfresh e He).
Qed.

Lemma replay_app k es es' :
  replay k (es ++ es') =
  foldl (λ st e, if bool_decide (ae_aggregateId e = Some k)
                 then default st (event_status e) else st) (replay k es) es'.
Proof. apply foldl_app. Qed.

(** Events that move nothing. *)
Lemma replay_silent k es es' :
  Forall (λ e, event_status e = None) es' → replay k (es ++ es') = replay k es.
Proof.
  rewrite replay_app. generalize (replay k es). intros st. revert st.
  induction es' as [|e es' IH]; intros st; [done|].
  intros [He Hes]%Forall_cons. simpl. rewrite He. case_bool_decide; simpl; auto.
Qed.

Lemma replay_snoc k es e type p t to :
  about_task e type p t → event_status e = Some to →
  replay k (es ++ [e]) = if bool_decide (t = k) then to else replay k es.
Proof.
  intros (_ & _ & Ha & _) Hs. rewrite replay_app. simpl. rewrite Ha, Hs. simpl.
  by repeat case_bool_decide; simplify_eq.
Qed.

Lemma replay_unknown d k :
  store_ok d → tasks d !! k = None → replay k (audit d) = Task.pending.
Proof.
  intros Hok Hk.
  assert (∀ es, (∀ e, e ∈ es → e ∈ audit d) → replay k es = Task.pending) as H; [|by apply H].
  induction es as [|e es IH] using rev_ind; [done|]. intros Hsub. rewrite replay_app. simpl.
  rewrite IH by (intros; apply Hsub; set_solver). case_bool_decide as Ha; [|done].
  destruct (event_status e) as [st|] eqn:He; [|done].
  destruct (ok_known _ Hok e) as (k' & Ha' & [t Ht]); [apply Hsub; set_solver|congruence|].
  congruence.
Qed.

Lemma change_ok_replay c i d d' k t' :
  change c i d d' → store_ok d → tasks d' !! k = Some t' → replay k (audit d') = Task.status t'.
Proof.
  intros Hch Hok. pose proof (ok_replay _ Hok k) as Hr. pose proof (replay_unknown d k Hok) as Hu.
  destruct Hch as [d|d input t Hc Hn Hp|d t u es Ht Hs Hst Hes|d t op at_ e Ht Ha _ _ He Hev|
    d t at_ e Ht Ha He Hev|d p x y at_ e _ _ _ _ Hev|d p x y e _ _ Hev|d f e Hev]; simpl;
    rewrite ?(proj1 (moved_fields _ _ _ _)), ?(proj2 (proj2 (proj2 (moved_fields _ _ _ _))));
    rewrite ?replay_silent by (by repeat constructor); auto.
  - rewrite lookup_insert_Some. intros [[<- <-]|[_ ?]]; [|auto]. rewrite Hu by done.
    apply Task.create_Ok in Hc as (_ & v & _ & ->). done.
  - destruct (append_audits_fields es (set_tasks <[Task.id t := u]> d)) as (-> & _ & _ & _ & ->).
    simpl. rewrite replay_silent by (eapply Forall_impl; [done|]; by intros ? [? _]).
    rewrite lookup_insert_Some. intros [[<- <-]|[_ ?]]; [|auto]. rewrite Hst. auto.
  - rewrite (replay_snoc _ _ _ _ _ _ _ He Hev), lookup_insert_Some.
    intros [[<- <-]|[? ?]]; case_bool_decide; done || auto.
  - rewrite (replay_snoc _ _ _ _ _ _ _ He Hev), lookup_insert_Some.
    intros [[<- <-]|[? ?]]; case_bool_decide; done || auto.
Qed.

Lemma unblocked_change c i d d' p k :
  change c i d d' → (∀ b, dependencies d' !! (k, b) = dependencies d !! (k, b)) →
  unblocked Dependency.at_completion p k d → unblocked Dependency.at_completion p k d'.
Proof.
  intros [_ Hts]%change_tasks Hdep Hu b row Hrow Hp. rewrite Hdep in Hrow.
  destruct (Hu _ _ Hrow Hp) as (t & Ht & Hs%Dependency.satisfied_completion).
  destruct (Hts _ _ Ht) as (t' & Ht' & _ & _ & Hst). exists t'. split; [done|].
  apply Dependency.satisfied_completion. rewrite Hst; by rewrite ?Hs.
Qed.

Lemma change_not_editable c i d d' k t :
  change c i d d' → tasks d !! k = Some t → Task.status t ∉ [Task.pending; Task.blocked] →
  ∀ b, dependencies d' !! (k, b) = dependencies d !! (k, b).
Proof.
  intros Hch Ht Hs. destruct (change_dependencies _ _ _ _ k Hch) as [(p & u & Hu & _ & Hin & _)|]; [|done].
  congruence.
Qed.

Lemma completed_not_editable t :
  Task.status t = Task.completed → Task.status t ∉ [Task.pending; Task.blocked].
Proof. intros ->. by rewrite <-includes_false. Qed.

(** How a task became completed. *)
Lemma change_completes c i d d' k t' :
  change c i d d' → tasks d' !! k = Some t' → Task.status t' = Task.completed →
  ∃ t, Task.projectId t' = Task.projectId t ∧
    ((tasks d !! k = Some t ∧ Task.status t = Task.completed) ∨
     (Task.id t = k ∧ dependencies d' = dependencies d ∧
      (unblocked Dependency.at_completion (Task.projectId t) k d ∨
       ∃ e, e ∈ audit d' ∧ about_task e "task.completion_recorded" (Task.projectId t) k))).
Proof.
  destruct 1 as [|d input t Hc Hn Hp|d t u es Ht Hs Hst|d t op at_ e Ht Ha _ Hco|d t at_ e Ht Ha He| | |];
    simpl; rewrite ?(proj1 (moved_fields _ _ _ _)); eauto 10.
  - rewrite lookup_insert_Some. intros [[<- <-]|[_ Hk]] Hst; [|eauto 10].
    apply Task.create_Ok in Hc as (_ & v & _ & ->). done.
  - rewrite (proj1 (append_audits_fields es _)). simpl. rewrite lookup_insert_Some.
    intros [[<- <-]|[_ Hk]] Hcs; [|eauto 10]. exists t.
    destruct (steps_keep _ _ Hs) as (_ & -> & _). split; [done|]. left. by rewrite <-Hst.
  - rewrite lookup_insert_Some. intros [[<- <-]|[_ Hk]] Hcs; [|eauto 10]. exists t. split; [done|].
    right. split_and!; [done|by destruct (moved_fields t (operation_to op) at_ d) as (_ & _ & -> & _)|].
    left. apply Hco. by destruct op.
  - rewrite lookup_insert_Some. intros [[<- <-]|[_ Hk]] Hcs; [|eauto 10]. exists t. split; [done|].
    right. split_and!; [done|by destruct (moved_fields t Task.completed at_ d) as (_ & _ & -> & _)|].
    right. exists e. split; [|done]. apply elem_of_app. right. by left.
Qed.

Lemma change_ok_completed c i d d' k t' :
  change c i d d' → store_ok d → tasks d' !! k = Some t' → Task.status t' = Task.completed →
  unblocked Dependency.at_completion (Task.projectId t') k d' ∨
  ∃ e, e ∈ audit d' ∧ about_task e "task.completion_recorded" (Task.projectId t') k.
Proof.
  intros Hch Hok Ht' Hs.
  destruct (change_completes _ _ _ _ _ _ Hch Ht' Hs) as (t & -> & [[Ht Hst]|(Hid & Hdep & [Hu|He])]).
  - destruct (ok_completed _ Hok _ _ Ht Hst) as [Hu|(e & He & Hab)].
    + left. eapply unblocked_change; [done| |done].
      eapply change_not_editable; eauto using completed_not_editable.
    + right. exists e. split; [|done]. destruct (change_audit _ _ _ _ Hch) as (es & -> & _).
      apply elem_of_app. by left.
  - left. eapply unblocked_change; [done| |done]. intros b. by rewrite Hdep.
  - by right.
Qed.

(** The events a change appends speak of tasks that exist. *)
Lemma change_events c i d d' e :
  change c i d d' → e ∈ audit d' → event_status e ≠ None →
  e ∈ audit d ∨ ∃ t, tasks d !! Task.id t = Some t ∧ ae_aggregateId e = Some (Task.id t).
Proof.
  destruct 1 as [|d input t Hc Hn Hp|d t u es Ht Hs Hst Hes|d t op at_ e' Ht Ha _ _ He|
    d t at_ e' Ht Ha He|d p x y at_ e' _ _ _ _ He|d p x y e' _ _ He|d f e' He]; simpl; auto;
    rewrite ?(proj2 (proj2 (proj2 (moved_fields _ _ _ _)))),
      ?(proj2 (proj2 (proj2 (proj2 (append_audits_fields _ _)))));
    intros [Hin|Hin]%elem_of_app Hev; auto;
    try apply list_elem_of_singleton in Hin as ->; try done.
  - rewrite Forall_forall in Hes. by destruct (Hes _ Hin).
  - right. exists t. by destruct He as (_ & _ & -> & _).
  - right. exists t. by destruct He as (_ & _ & -> & _).
Qed.

Lemma change_ok_known c i d d' e :
  change c i d d' → store_ok d → e ∈ audit d' → event_status e ≠ None →
  ∃ k, ae_aggregateId e = Some k ∧ is_Some (tasks d' !! k).
Proof.
  intros Hch Hok He Hev. destruct (change_tasks _ _ _ _ Hch) as [_ Hts].
  destruct (change_events _ _ _ _ _ Hch He Hev) as [Hin|(t & Ht & Ha)].
  - destruct (ok_known _ Hok _ Hin Hev) as (k & Ha & [t Ht]).
    destruct (Hts _ _ Ht) as (t' & Ht' & _). eauto.
  - destruct (Hts _ _ Ht) as (t' & Ht' & _). eauto.
Qed.

(** ** Execution history *)

Lemma change_history c i d d' k row :
  change c i d d' → history d' !! k = Some row →
  (∃ old, history d !! k = Some old ∧ h_projectId row = h_projectId old) ∨
  ∃ t, tasks d !! k = Some t ∧ Task.id t = k ∧ h_projectId row = Task.projectId t.
Proof.
  destruct 1 as [|d input t Hc Hn Hp|d t u es|d t op at_ e Ht|d t at_ e Ht| | |]; simpl; eauto;
    rewrite ?moved_history.
  - destruct (append_audits_fields es (set_tasks <[Task.id t:=u]> d)) as (_ & _ & _ & -> & _).
    simpl. eauto.
  - case_match; [|eauto]. intros [(-> & Hp & _)|?]%record_execution_lookup; eauto 10.
Qed.

Lemma change_keeps_history c i d d' k row :
  change c i d d' → history d !! k = Some row →
  ∃ row', history d' !! k = Some row' ∧ h_projectId row' = h_projectId row.
Proof.
  destruct 1 as [|d input t Hc Hn Hp|d t u es|d t op at_ e Ht|d t at_ e Ht| | |]; simpl; eauto;
    rewrite ?moved_history.
  - destruct (append_audits_fields es (set_tasks <[Task.id t:=u]> d)) as (_ & _ & _ & -> & _).
    simpl. eauto.
  - case_match; [apply record_execution_keeps|eauto].
Qed.

Lemma change_ok_history c i d d' k row :
  change c i d d' → store_ok d → history d' !! k = Some row →
  ∃ t, tasks d' !! k = Some t ∧ h_projectId row = Task.projectId t.
Proof.
  intros Hch Hok Hrow. destruct (change_tasks _ _ _ _ Hch) as [_ Hts].
  assert (∃ t, tasks d !! k = Some t ∧ h_projectId row = Task.projectId t) as (t & Ht & ->).
  { destruct (change_history _ _ _ _ _ _ Hch Hrow) as [(old & Hold & ->)|(t & ? & _ & ?)]; [|eauto].
    by eapply ok_history. }
  destruct (Hts _ _ Ht) as (t' & Ht' & _ & Hp & _). eauto.
Qed.

(** A task a change leaves running was running before, or the change records
    its execution. *)
Lemma change_ok_started c i d d' k t' :
  change c i d d' → store_ok d → tasks d' !! k = Some t' →
  Task.status t' ∈ [Task.running; Task.waiting_review] → is_Some (history d' !! k).
Proof.
  intros Hch Hok Ht' Hs.
  assert (∀ t, tasks d !! k = Some t → Task.status t = Task.status t' → is_Some (history d' !! k))
    as Hold.
  { intros t Ht Hst. rewrite <-Hst in Hs. destruct (ok_started _ Hok _ _ Ht Hs) as [row Hrow].
    destruct (change_keeps_history _ _ _ _ _ _ Hch Hrow) as (row' & ? & _). eauto. }
  assert (∀ t to at_, tasks d !! Task.id t = Some t → Task.id t = k →
    t' = Task.with_status t to at_ → history d' = history (moved t to at_ d) →
    is_Some (history d' !! k)) as Hmv.
  { intros t to at_ Ht <- -> Hh. rewrite Hh, moved_history. unfold start_fires.
    apply includes_spec in Hs. rewrite Hs.
    destruct (decide (Task.status t = to)) as [Heq|Hne].
    - rewrite bool_decide_eq_true_2 by done. simpl. eapply ok_started; [done..|].
      rewrite Heq. by apply includes_spec in Hs.
    - rewrite bool_decide_eq_false_2 by done. apply record_execution_records. }
  revert Ht'. destruct Hch as [|d input t Hc Hn Hp|d t u es Ht _ Hst|d t op at_ e Ht|d t at_ e Ht| | |];
    simpl in *; rewrite ?(proj1 (moved_fields _ _ _ _)), ?(proj1 (append_audits_fields _ _)); simpl;
    eauto; intros [[Hk <-]|[_ ?]]%lookup_insert_Some; eauto.
  - apply Task.create_Ok in Hc as (_ & v & _ & ->). by apply includes_spec in Hs.
  - apply (Hold t); [by rewrite <-Hk|done].
Qed.

Lemma change_ok c i d d' : change c i d d' → store_ok d → store_ok d'.
Proof.
  intros Hch Hok. split; intros.
  - by eapply change_ok_task.
  - by eapply change_ok_edge.
  - by eapply change_ok_acyclic.
  - by eapply change_ok_completed.
  - by eapply change_ok_replay.
  - by eapply change_ok_known.
  - by eapply change_ok_ids.
  - by eapply change_ok_history.
  - by eapply change_ok_started.
Qed.

End TaskInvariants.
