(* ===== verification/TaskRefinement.v ===== *)
(** The refinement between the task services and the changes of
    TaskInvariants, and what follows for every sequence of requests. *)
From S2P Require Import Prelude Errors TaskModel DependencyGraph.
From S2P Require Import Json CostModel Store TaskServices TaskInvariants.
Import Canonical Store TaskServices TaskInvariants.

Module TaskRefinement.

#[local] Opaque moved.

(** Identifiers are never generated twice ([crypto.randomUUID]). *)
Class EnvironmentLaws `{Environment} : Prop := id_at_inj :: Inj eq eq id_at.

(** No identifier still to come is in use. *)
Definition fresh_world `{Environment} (w : world) : Prop :=
  ∀ n, generated w ≤ n → tasks (db w) !! id_at n = None ∧ id_at n ∉ ae_id <$> audit (db w).

(** A labelled change of the database whose label was generated meanwhile. *)
Definition changes `{Environment} (w w' : world) : Prop :=
  ∃ c i, change c i (db w) (db w') ∧ generated w ≤ generated w' ∧
    ∀ x, c = Some x ∨ x ∈ i → ∃ n, generated w ≤ n < generated w' ∧ x = id_at n.

Section services.
  Context `{Environment}.

Lemma changes_none w w' : db w' = db w → generated w ≤ generated w' → changes w w'.
Proof.
  intros Hdb Hg. exists None, []. rewrite Hdb. split_and!; [constructor|done|].
  by intros x [?|?%elem_of_nil].
Qed.

Lemma changes_event w w' d e n :
  db w' = append_audit e d → change None [ae_id e] (db w) (append_audit e d) →
  ae_id e = id_at n → generated w ≤ n < generated w' → changes w w'.
Proof.
  intros Hdb Hc He Hn. exists None, [ae_id e]. rewrite Hdb. split_and!; [done|lia|].
  intros y [?| ->%list_elem_of_singleton]; [done|eauto].
Qed.

(** * The queries *)

Lemma require_project_task_Ok p k w t w' :
  require_project_task p k w = (Ok t, w') ↔
  w' = w ∧ p ∈ projects (db w) ∧ tasks (db w) !! k = Some t ∧ Task.projectId t = p.
Proof.
  unfold require_project_task, find_project, find_task, read, mbind, action_bind, refuse_if, lift.
  simpl. case_bool_decide as Hp; simpl; [|naive_solver].
  destruct (tasks (db w) !! k) as [u|]; simpl; [|naive_solver].
  case_bool_decide; unfold mret, action_ret, mthrow, action_throw; naive_solver.
Qed.

Lemma require_dependency_task_Ok p k w t w' :
  require_dependency_task p k w = (Ok t, w') ↔
  w' = w ∧ p ∈ projects (db w) ∧ tasks (db w) !! k = Some t ∧ Task.projectId t = p.
Proof.
  unfold require_dependency_task, find_project, find_task, read, mbind, action_bind, refuse_if, lift.
  simpl. case_bool_decide as Hp; simpl; [|naive_solver].
  destruct (tasks (db w) !! k) as [u|]; simpl; [|naive_solver].
  case_bool_decide; unfold mret, action_ret, mthrow, action_throw; naive_solver.
Qed.

Lemma hasExecutionHistory_Ok p k w b w' :
  hasExecutionHistory p k w = (Ok b, w') →
  w' = w ∧ (b = false ↔ ∀ row, history (db w) !! k = Some row → h_projectId row ≠ p).
Proof.
  unfold hasExecutionHistory, read. intros [= <- <-]. split; [done|].
  destruct (history (db w) !! k) as [row|]; [|by split].
  rewrite bool_decide_eq_false. split; [by intros Hn ? [= <-]|auto].
Qed.

Lemma assertEditable_Ok p k w w' :
  assertEditable p k w = (Ok tt, w') → w' = w ∧ p ∈ projects (db w) ∧ editable p k (db w).
Proof.
  unfold assertEditable. intros (t & w1 & Ht & Hrest)%action_bind_Ok.
  apply require_dependency_task_Ok in Ht as (-> & Hp & Ht & Htp).
  apply refuse_if_bind_Ok in Hrest as [Hs%negb_false_iff%includes_spec Hrest].
  apply action_bind_Ok in Hrest as (ran & w1 & Hran & Hrest).
  apply hasExecutionHistory_Ok in Hran as [-> Hran].
  inv_store. split_and!; [done..|]. exists t. split_and!; [done..|]. by apply Hran.
Qed.

Lemma project_tasks_elem p d t :
  t ∈ project_tasks p d ↔ Task.projectId t = p ∧ ∃ k, tasks d !! k = Some t.
Proof.
  unfold project_tasks. rewrite sort_by_elem_of, list_elem_of_filter, list_elem_of_fmap.
  split; intros [Hp Hin]; split; try done.
  - destruct Hin as ([k u] & -> & Hk%elem_of_map_to_list). by exists k.
  - destruct Hin as [k Hk]. exists (k, t). split; [done|]. by apply elem_of_map_to_list.
Qed.

Lemma project_edges_elem p d a b :
  {| Dependency.taskId := a; Dependency.dependsOnTaskId := b |} ∈ project_edges p d ↔
  ∃ row, dependencies d !! (a, b) = Some row ∧ dep_projectId row = p.
Proof.
  unfold project_edges. rewrite sort_by_elem_of, list_elem_of_fmap. split.
  - intros ([[x y] row] & [= <- <-] & [Hp Hin%elem_of_map_to_list]%list_elem_of_filter). by exists row.
  - intros (row & Hrow & Hp). exists ((a, b), row). split; [done|].
    apply list_elem_of_filter. split; [done|]. by apply elem_of_map_to_list.
Qed.

Lemma prerequisites_of_elem p d a b :
  b ∈ prerequisites_of a (project_edges p d) ↔
  ∃ row, dependencies d !! (a, b) = Some row ∧ dep_projectId row = p.
Proof.
  unfold prerequisites_of. rewrite list_elem_of_fmap. rewrite <-project_edges_elem. split.
  - intros ([x y] & -> & [Hx Hin]%list_elem_of_filter). simpl in Hx. by subst x.
  - intros Hin. eexists {| Dependency.taskId := a; Dependency.dependsOnTaskId := b |}.
    split; [done|]. by apply list_elem_of_filter.
Qed.

(** Tasks are stored under their own id. *)
Definition keyed (d : database) : Prop := ∀ k t, tasks d !! k = Some t → Task.id t = k.

Lemma statuses_of_lookup p d k s :
  keyed d →
  statuses_of (project_tasks p d) !! k = Some s ↔
  ∃ t, tasks d !! k = Some t ∧ Task.projectId t = p ∧ Task.status t = s.
Proof.
  intros Hk. unfold statuses_of. split.
  - intros Hl%map_of_pairs_Some. apply list_elem_of_fmap in Hl as (t & [= -> ->] & Ht).
    apply project_tasks_elem in Ht as (Hp & k & Ht). rewrite (Hk _ _ Ht). eauto.
  - intros (t & Ht & Hp & <-).
    destruct (map_of_pairs ((λ t, (Task.id t, Task.status t)) <$> project_tasks p d) !! k)
      as [s'|] eqn:Hs.
    + apply map_of_pairs_Some, list_elem_of_fmap in Hs as (u & [= Hku ->] & Hu).
      apply project_tasks_elem in Hu as (Hpu & k' & Hu).
      rewrite (Hk _ _ Hu) in Hku. subst k'. congruence.
    + destruct (map_of_pairs_dom ((λ t, (Task.id t, Task.status t)) <$> project_tasks p d) k)
        as [_ Hd].
      rewrite Hs in Hd. destruct Hd as [? [=]]. apply list_elem_of_fmap.
      exists (k, Task.status t). split; [done|]. apply list_elem_of_fmap.
      exists t. rewrite (Hk _ _ Ht). split; [done|]. apply project_tasks_elem. eauto.
Qed.

Lemma prerequisites_complete_Ok p k r w :
  keyed (db w) →
  assertTaskPrerequisitesComplete p k r w = (Ok tt, w) ↔
  ∀ b row, dependencies (db w) !! (k, b) = Some row → dep_projectId row = p →
    ∃ t, tasks (db w) !! b = Some t ∧ Task.projectId t = p ∧
         Dependency.satisfied r (Task.status t) = true.
Proof.
  intros Hk. unfold assertTaskPrerequisitesComplete, list_tasks, list_dependencies, read.
  unfold mbind, action_bind, lift, refuse_if. simpl.
  set (pre := prerequisites_of k _). set (st := statuses_of _).
  assert (∀ b, b ∈ pre ↔ ∃ row, dependencies (db w) !! (k, b) = Some row ∧ dep_projectId row = p)
    as Hpre by apply prerequisites_of_elem.
  assert (∀ b s, st !! b = Some s ↔
    ∃ t, tasks (db w) !! b = Some t ∧ Task.projectId t = p ∧ Task.status t = s) as Hst
    by (intros; by apply statuses_of_lookup).
  clearbody pre st. destruct (Dependency.blockingPrerequisites pre st r) as [l|e] eqn:Hb; simpl.
  - apply Dependency.blockingPrerequisites_Ok in Hb as [Hall Hl]. split.
    + destruct l as [|x l]; [|done]. intros _ b row Hrow Hp.
      destruct (Hall b) as [s Hs]; [apply Hpre; eauto|].
      pose proof Hs as (t & Ht & Htp & <-)%Hst. exists t. split_and!; [done..|].
      destruct (Dependency.satisfied r (Task.status t)) eqn:Hsat; [done|].
      exfalso. eapply (elem_of_nil {| Dependency.blockerId := b;
                                      Dependency.blockerStatus := Task.status t |}), Hl.
      simpl. split_and!; [apply Hpre; eauto|done|done].
    + intros Hu. destruct l as [|x l]; [done|]. exfalso.
      destruct (proj1 (Hl x)) as (Hx & Hxs & Hns); [by left|].
      apply Hpre in Hx as (row & Hrow & Hp). apply Hst in Hxs as (t & Ht & _ & Hxs).
      destruct (Hu _ _ Hrow Hp) as (t' & Ht' & _ & Hsat). congruence.
  - split; [done|]. intros Hu. exfalso.
    destruct (Dependency.blockingPrerequisites_total pre st r) as [l Hl]; [|congruence].
    intros b (row & Hrow & Hp)%Hpre. destruct (Hu _ _ Hrow Hp) as (t & Ht & Htp & _).
    exists (Task.status t). apply Hst. eauto.
Qed.

Lemma prerequisites_complete_readonly p k r : readonly (assertTaskPrerequisitesComplete p k r).
Proof. unfold assertTaskPrerequisitesComplete, list_tasks, list_dependencies. intros w.
  unfold mbind, action_bind, read, lift, refuse_if. simpl. by case_match.
Qed.

(** * The writes *)

(** The event a service records, given its id and time. *)
Definition event_of (id : string) (at_ : date) (input : audit_input) : AuditEventProps :=
  {| ae_id := id; ae_eventType := ai_eventType input; ae_actorType := ai_actorType input;
     ae_actorId := ai_actorId input; ae_aggregateType := ai_aggregateType input;
     ae_aggregateId := ai_aggregateId input; ae_projectId := ai_projectId input;
     ae_payload := default [] (ai_payload input); ae_occurredAt := at_ |}.

Lemma create_audit_event_Ok e :
  canonical (ae_eventType e) = true → create_audit_event e = Ok e.
Proof.
  intros [Ht Hne]%canonical_spec. unfold create_audit_event. rewrite Ht.
  destruct e as [? type]; simpl in *. by destruct type.
Qed.

Lemma append_event_Ok e w w' :
  append_event e w = (Ok tt, w') →
  w' = with_db w (append_audit e (db w)) ∧ ae_id e ∉ ae_id <$> audit (db w).
Proof.
  unfold append_event. intros (d & w1 & [= <- <-] & Hrest)%action_bind_Ok.
  apply refuse_if_bind_Ok in Hrest as [Hf%includes_false Hrest].
  apply refuse_if_bind_Ok in Hrest as [_ Hrest]. by injection Hrest as <-.
Qed.

Lemma record_audit_event_Ok input w id w' :
  canonical (ai_eventType input) = true →
  record_audit_event input w = (Ok id, w') →
  ∃ at_, let e := event_of (id_at (generated w)) at_ input in
    db w' = append_audit e (db w) ∧ generated w' = S (generated w) ∧
    ae_id e ∉ ae_id <$> audit (db w).
Proof.
  unfold record_audit_event. intros Hc (i & w1 & [= <- <-] & Hrest)%action_bind_Ok.
  apply action_bind_Ok in Hrest as (at_ & w2 & [= <- <-] & Hrest).
  rewrite create_audit_event_Ok in Hrest by done.
  apply action_bind_Ok in Hrest as (e & w3 & [= <- <-] & Hrest).
  apply action_bind_Ok in Hrest as ([] & w4 & Happ & [= _ <-]).
  apply append_event_Ok in Happ as [-> Hf]. by eexists.
Qed.

Lemma save_new_Ok t w w' :
  tasks (db w) !! Task.id t = None → save_task t w = (Ok tt, w') →
  w' = with_db w (set_tasks <[Task.id t := t]> (db w)) ∧ Task.projectId t ∈ projects (db w).
Proof.
  intros Hn. unfold save_task. intros (old & w1 & [= Hold <-] & Hrest)%action_bind_Ok.
  rewrite Hn in Hold. subst old.
  apply action_bind_Ok in Hrest as (known & w2 & [= <- <-] & Hrest).
  apply refuse_if_bind_Ok in Hrest as [Hp%negb_false_iff%bool_decide_eq_true Hrest].
  by injection Hrest as <-.
Qed.

(** A task that keeps what ON CONFLICT keeps. *)
Lemma updated_task_same old t :
  Task.id t = Task.id old → Task.projectId t = Task.projectId old →
  Task.createdAt t = Task.createdAt old → updated_task old t = t.
Proof. destruct t, old. unfold updated_task. simpl. by intros -> -> ->. Qed.

Lemma save_existing_Ok old t w w' :
  tasks (db w) !! Task.id t = Some old → updated_task old t = t →
  save_task t w = (Ok tt, w') →
  completion_trigger old t (db w) = false ∧
  (start_fires old t = true → start_refuses t (db w) = false) ∧
  w' = with_db w (if start_fires old t
    then set_history (record_execution (Task.id t) (Task.projectId t) (started_at t))
           (set_tasks <[Task.id t := t]> (db w))
    else set_tasks <[Task.id t := t]> (db w)).
Proof.
  intros Hold Hup. unfold save_task. intros (o & w1 & [= Ho <-] & Hrest)%action_bind_Ok.
  rewrite Hold in Ho. subst o. rewrite Hup in Hrest.
  apply action_bind_Ok in Hrest as (d & w2 & [= <- <-] & Hrest).
  apply refuse_if_bind_Ok in Hrest as [Hc Hrest].
  apply refuse_if_bind_Ok in Hrest as [Hs Hrest].
  apply action_bind_Ok in Hrest as ([] & w3 & [= <-] & Hrest). split; [done|]. split.
  - intros Hf. by rewrite Hf in Hs.
  - destruct (start_fires old t); by injection Hrest as <-.
Qed.

Lemma save_moved_Ok t to at_ w w' :
  tasks (db w) !! Task.id t = Some t →
  save_task (Task.with_status t to at_) w = (Ok tt, w') →
  w' = with_db w (moved t to at_ (db w)).
Proof.
  intros Ht Hs. apply (save_existing_Ok t) in Hs as (_ & _ & ->); [done..|].
  by apply updated_task_same.
Qed.

(** * The requests *)

Lemma on_task_Ok t m w t' w' :
  on_task t m w = (Ok t', w') → w' = w ∧ m t = (Ok tt, t').
Proof. unfold on_task. destruct (m t) as [[[]|] ?]; [by intros [= <- <-]|done]. Qed.

Lemma create_task_change input w id w' :
  (∀ n, generated w ≤ n → tasks (db w) !! id_at n = None) → create_task input w = (Ok id, w') → changes w w'.
Proof.
  intros Hfresh. unfold create_task. intros (k & w1 & [= <- <-] & Hrest)%action_bind_Ok.
  apply refuse_if_bind_Ok in Hrest as [_ Hrest].
  apply action_bind_Ok in Hrest as (i & w2 & [= <- <-] & Hrest).
  apply action_bind_Ok in Hrest as (at_ & w3 & [= <- <-] & Hrest).
  apply action_bind_Ok in Hrest as (t & w4 & [= Ht <-] & Hrest).
  apply action_bind_Ok in Hrest as ([] & w5 & Hs & [= _ <-]).
  assert (Task.id t = id_at (generated w)) as Hid.
  { by apply Task.create_Ok in Ht as (_ & v & _ & ->). }
  apply save_new_Ok in Hs as [-> Hp]; simpl in *; [|rewrite Hid; by apply Hfresh].
  exists (Some (Task.id t)), []. split_and!; simpl; [|lia|].
  - eapply change_create; [done| |done]. rewrite Hid. by apply Hfresh.
  - intros x [[= <-]|?%elem_of_nil]; [|done]. exists (generated w). split; [lia|done].
Qed.

Lemma status_payload_event op from to reason e :
  ae_payload e = status_payload op from to reason →
  ae_eventType e = "task.status_changed" → event_status e = Some to.
Proof. intros Hp Ht. unfold event_status. rewrite Hp, Ht. by destruct to. Qed.

Lemma mutation_Ok op at_ t t' :
  lifecycleMutations op at_ t = (Ok tt, t') ↔
  Task.isTaskTransitionAllowed (Task.status t) (operation_to op) = true ∧
  t' = Task.with_status t (operation_to op) at_.
Proof. destruct op; apply Task.transition_Ok. Qed.

Lemma perform_change request w st w' :
  keyed (db w) → perform true request w = (Ok st, w') → changes w w'.
Proof.
  intros Hk. unfold perform. intros (reason & w1 & [= _ <-] & Hrest)%action_bind_Ok.
  apply action_bind_Ok in Hrest as (t & w2 & Ht & Hrest).
  apply require_project_task_Ok in Ht as (-> & Hp & Ht & Htp).
  apply action_bind_Ok in Hrest as ([] & w3 & Hpre & Hrest).
  assert (w3 = w) as ->.
  { revert Hpre. simpl. case_match; [|by intros [= <-]]. intros Hpre.
    pose proof (prerequisites_complete_readonly (lr_projectId request) (lr_taskId request)
      (if bool_decide (lr_operation request = start) then Dependency.at_start
       else Dependency.at_completion) w) as Hr. by rewrite Hpre in Hr. }
  apply action_bind_Ok in Hrest as (at_ & w4 & [= <- <-] & Hrest).
  apply action_bind_Ok in Hrest as (t' & w5 & Hm & Hrest).
  apply on_task_Ok in Hm as [-> [Hal ->]%mutation_Ok].
  apply action_bind_Ok in Hrest as ([] & w6 & Hs & Hrest).
  apply save_moved_Ok in Hs as ->; [|simpl; by rewrite (Hk _ _ Ht)].
  apply action_bind_Ok in Hrest as (i & w7 & Hev & [= _ <-]).
  apply record_audit_event_Ok in Hev as (at2 & Hdb & Hg & Hf); [|done]. simpl in *.
  rewrite (proj2 (proj2 (proj2 (moved_fields _ _ _ _)))) in Hf.
  assert (∀ r, assertTaskPrerequisitesComplete (lr_projectId request) (lr_taskId request) r w
      = (Ok tt, w) → unblocked r (Task.projectId t) (Task.id t) (db w)) as Hun.
  { intros r Hr b row Hrow Hrp. rewrite (Hk _ _ Ht) in Hrow.
    destruct (proj1 (prerequisites_complete_Ok _ _ _ _ Hk) Hr b row Hrow) as (u & ? & _ & ?); [congruence|]. eauto. }
  eapply changes_event; [exact Hdb| |reflexivity|lia]. apply change_move; try done.
  - by rewrite (Hk _ _ Ht).
  - intros Ho. apply Hun. rewrite Ho in Hpre. exact Hpre.
  - intros Ho. apply Hun. rewrite Ho in Hpre. exact Hpre.
  - by eapply status_payload_event.
Qed.

(** An edit: the aggregate's calls that leave the status alone. *)
Definition edits (t t' : Task.TaskProps) : Prop :=
  rtc Task.step t t' ∧ Task.status t' = Task.status t ∧ updated_task t t' = t' ∧
  Task.id t' = Task.id t.

Lemma edits_refl t : edits t t.
Proof. split_and!; [done..|by destruct t|done]. Qed.

Lemma edits_step c at_ t u v :
  edits t u → Task.run_call c at_ u = (Ok tt, v) →
  match c with Task.CUpdateDescription _ | Task.CUpdatePriority _ => True | _ => False end →
  edits t v.
Proof.
  intros (Htu & Hst & Hup & Hid) Hc Hk.
  assert (Task.step u v) as Huv by by eapply Task.step_call.
  assert (Task.status v = Task.status u) as Hs.
  { destruct c; try done; simpl in Hc; unfold Task.updateDescription in Hc.
    - by inv_store.
    - by apply Task.updatePriority_Ok in Hc as (? & _ & ->). }
  destruct (Task.step_title _ _ Huv) as (Hi & Hp & _ & Hcr). split_and!.
  - by eapply rtc_r.
  - congruence.
  - apply updated_task_same; rewrite ?Hi, ?Hp, ?Hcr; by rewrite <-Hup.
  - congruence.
Qed.

Lemma save_edited_Ok t t' w w' :
  tasks (db w) !! Task.id t = Some t → edits t t' → save_task t' w = (Ok tt, w') →
  w' = with_db w (set_tasks <[Task.id t := t']> (db w)).
Proof.
  intros Ht (_ & Hst & Hup & Hid) Hs.
  apply (save_existing_Ok t) in Hs as (_ & _ & ->); [|by rewrite Hid|done].
  unfold start_fires. rewrite Hst, bool_decide_eq_true_2 by done. simpl.
  by rewrite andb_false_r, Hid.
Qed.

(** An optional event of [UpdateTask]. *)
Lemma optional_event_Ok (o : option audit_input) w w' :
  (∀ input, o = Some input → canonical (ai_eventType input) = true) →
  (match o with
   | Some input => record_audit_event input;; mret tt
   | None => mret tt
   end) w = (Ok tt, w') →
  ∃ es, db w' = append_audits es (db w) ∧ generated w ≤ generated w' ∧ NoDup (ae_id <$> es) ∧
    ∀ e, e ∈ es → ae_id e ∉ ae_id <$> audit (db w) ∧
      ∃ input n at_, o = Some input ∧ generated w ≤ n < generated w' ∧
        e = event_of (id_at n) at_ input.
Proof.
  intros Hc. destruct o as [input|].
  - intros (i & w1 & Hev & [= <-])%action_bind_Ok.
    apply record_audit_event_Ok in Hev as (at_ & Hdb & Hg & Hf); [|by apply Hc].
    exists [event_of (id_at (generated w)) at_ input]. split_and!; [done|lia|apply NoDup_singleton|].
    intros e ->%list_elem_of_singleton. split; [done|].
    exists input, (generated w), at_. split_and!; [done|lia..|done].
  - intros [= <-]. exists []. split_and!; [done|lia|constructor|]. by intros e ?%elem_of_nil.
Qed.

Lemma append_audits_app es es' d :
  append_audits (es ++ es') d = append_audits es' (append_audits es d).
Proof. apply foldl_app. Qed.

Lemma update_task_change input w r w' :
  keyed (db w) → update_task input w = (Ok r, w') → changes w w'.
Proof.
  intros Hk. unfold update_task.
  intros (Hact & w1 & Hrun & ->)%run_Ok. revert Hk Hrun.
  change (changes w (closed w1)) with (changes (opened w) w1).
  change (db w) with (db (opened w)).
  generalize (opened w). clear w Hact. intros w Hk.
  intros (t & w2 & Ht & Hrest)%action_bind_Ok.
  apply require_project_task_Ok in Ht as (-> & Hp & Ht & Htp).
  apply action_bind_Ok in Hrest as (at_ & w3 & [= <- <-] & Hrest).
  apply action_bind_Ok in Hrest as (u & w4 & Hu & Hrest).
  assert (edits t u ∧ db w4 = db w ∧ generated w4 = generated w) as (Hedu & Hdb4 & Hg4).
  { destruct (ut_priority input) as [p|]; [|by injection Hu as <- <-; split; [apply edits_refl|]].
    apply on_task_Ok in Hu as [-> Hu]. split; [|done].
    by eapply (edits_step (Task.CUpdatePriority p)); [apply edits_refl|exact Hu|]. }
  apply action_bind_Ok in Hrest as (v & w5 & Hv & Hrest).
  assert (edits t v ∧ db w5 = db w ∧ generated w5 = generated w) as (Hedv & Hdb5 & Hg5).
  { destruct (ut_description input) as [d|]; [|by injection Hv as <- <-].
    apply on_task_Ok in Hv as [-> Hv]. split; [|done].
    by eapply (edits_step (Task.CUpdateDescription d)); [exact Hedu|exact Hv|]. }
  apply action_bind_Ok in Hrest as ([] & w6 & Hs & Hrest).
  apply (save_edited_Ok t) in Hs as ->; [|by rewrite Hdb5, (Hk _ _ Ht)|done].
  apply action_bind_Ok in Hrest as ([] & w7 & He1 & Hrest).
  apply action_bind_Ok in Hrest as ([] & w8 & He2 & [= _ <-]).
  set (i1 := (λ _ : string, task_event "task.description_updated" (ut_actorId input)
    (Task.projectId (Task.snapshot v)) (Task.id (Task.snapshot v)) [("descriptionUpdated", CBool true)])
    <$> ut_description input).
  set (i2 := (λ _ : number, task_event "task.priority_updated" (ut_actorId input)
    (Task.projectId (Task.snapshot v)) (Task.id (Task.snapshot v))
    [("from", CNum (Task.priority t)); ("to", CNum (Task.priority (Task.snapshot v)))])
    <$> ut_priority input).
  destruct (optional_event_Ok i1 (with_db w5 (set_tasks <[Task.id t:=v]> (db w5))) w7)
    as (es1 & Hdb7 & Hg7 & Hnd1 & Hes1).
  { by destruct (ut_description input); intros ? [= <-]. }
  { destruct (ut_description input); exact He1. }
  destruct (optional_event_Ok i2 w7 w8) as (es2 & Hdb8 & Hg8 & Hnd2 & Hes2).
  { by destruct (ut_priority input); intros ? [= <-]. }
  { destruct (ut_priority input); exact He2. }
  exists None, (ae_id <$> (es1 ++ es2)). simpl in Hg7. split_and!; [|lia|].
  2: { intros x [?|(e & -> & He)%list_elem_of_fmap]; [done|]. apply elem_of_app in He as [He|He].
       - destruct (Hes1 _ He) as (_ & ? & n & ? & _ & ? & ->). simpl in *. exists n. split; [lia|done].
       - destruct (Hes2 _ He) as (_ & ? & n & ? & _ & ? & ->). simpl in *. exists n. split; [lia|done]. }
  rewrite Hdb8, Hdb7, <-append_audits_app. simpl. rewrite Hdb5.
  rewrite Hdb7, (proj2 (proj2 (proj2 (proj2 (append_audits_fields es1 _))))) in Hes2.
  simpl in Hes1, Hes2. rewrite Hdb5 in Hes1, Hes2.
  apply change_edit; [by rewrite (Hk _ _ Ht)|apply Hedv..| | |].
  - apply Forall_app. split; apply Forall_forall.
    + intros e (_ & ? & ? & ? & Hi & _ & ->)%Hes1. unfold i1 in Hi.
      destruct (ut_description input); by simplify_eq/=.
    + intros e (_ & ? & ? & ? & Hi & _ & ->)%Hes2. unfold i2 in Hi.
      destruct (ut_priority input); by simplify_eq/=.
  - rewrite fmap_app. apply NoDup_app. split_and!; [done| |done].
    intros x Hx (e & -> & He)%list_elem_of_fmap. destruct (Hes2 _ He) as [Hn _].
    apply Hn. rewrite fmap_app. apply elem_of_app. by right.
  - intros e [He|He]%elem_of_app; [by apply Hes1|]. destruct (Hes2 _ He) as [Hn _].
    intros Hin. apply Hn. rewrite fmap_app. apply elem_of_app. by left.
Qed.

Lemma link_dependency_Ok p a b at_ w w' :
  link_dependency p a b at_ w = (Ok true, w') →
  same_project p a b (db w) = true ∧ dependencies (db w) !! (a, b) = None ∧
  w' = with_db w (set_dependencies
    <[(a, b) := {| dep_projectId := p; dep_createdAt := at_ |}]> (db w)).
Proof.
  unfold link_dependency. intros (d & w1 & [= <- <-] & Hrest)%action_bind_Ok.
  destruct (same_project p a b (db w)); [|done]. simpl in Hrest.
  apply refuse_if_bind_Ok in Hrest as [_ Hrest].
  apply action_bind_Ok in Hrest as (ran & w1 & [= <- <-] & Hrest).
  apply refuse_if_bind_Ok in Hrest as [_ Hrest].
  apply refuse_if_bind_Ok in Hrest as [_ Hrest].
  destruct (dependencies (db w) !! (a, b)); [done|]. by injection Hrest as <-.
Qed.

Lemma unlink_dependency_Ok p a b w r w' :
  unlink_dependency p a b w = (Ok r, w') →
  (r = false ∧ w' = w) ∨
  (r = true ∧ is_Some (dependencies (db w) !! (a, b)) ∧
   w' = with_db w (set_dependencies (delete (a, b)) (db w))).
Proof.
  unfold unlink_dependency. intros (d & w1 & [= <- <-] & Hrest)%action_bind_Ok.
  destruct (dependencies (db w) !! (a, b)) as [row|]; [|injection Hrest as <- <-; by left].
  case_bool_decide; [|injection Hrest as <- <-; by left].
  apply action_bind_Ok in Hrest as (ran & w1 & [= <- <-] & Hrest).
  apply refuse_if_bind_Ok in Hrest as [_ Hrest]. injection Hrest as <- <-.
  right. split_and!; [done|by eexists|done].
Qed.

(** Paths of the whole table stay inside the project of their ends. *)
Lemma project_path d p a b :
  (∀ x y row, dependencies d !! (x, y) = Some row → same_project (dep_projectId row) x y d = true) →
  rtc (Dependency.depends (all_edges d)) a b →
  ∀ t, tasks d !! b = Some t → Task.projectId t = p →
  rtc (Dependency.depends (project_edges p d)) a b.
Proof.
  intros Hedge. induction 1 as [b|a c b Hac _ IH]; intros t Ht Hp; [apply rtc_refl|].
  - pose proof (IH _ Ht Hp) as Hr. clear IH.
    apply all_edges_depends in Hac as [row Hrow].
    pose proof (Hedge _ _ _ Hrow) as (s & u & Hs & Hu & Hps & Hpu)%same_project_spec.
    eapply rtc_l; [|exact Hr]. apply project_edges_elem. exists row. split; [done|].
    enough (Task.projectId u = p) by congruence.
    apply rtc_inv in Hr as [<-|(e & Hce & _)]; [congruence|].
    apply project_edges_elem in Hce as (row' & Hrow' & <-).
    apply Hedge, same_project_spec in Hrow' as (u' & _ & Hu' & _ & Hpu' & _). congruence.
Qed.

Lemma link_change input w r w' :
  store_ok (db w) → link input w = (Ok r, w') → changes w w'.
Proof.
  intros Hok [Hact (w1 & Hrun & ->)]%run_Ok. change (store_ok (db (opened w))) in Hok.
  change (changes (opened w) w1). revert Hok Hrun. generalize (opened w). clear w Hact.
  intros w Hok Hrun.
  apply action_bind_Ok in Hrun as ([] & w2 & Hed & Hrest).
  apply assertEditable_Ok in Hed as (-> & _ & Hed).
  apply action_bind_Ok in Hrest as (u & w3 & Hu & Hrest).
  apply require_dependency_task_Ok in Hu as (-> & _ & Hu & Hup).
  apply action_bind_Ok in Hrest as (edges & w4 & [= <- <-] & Hrest).
  destruct (includes _ _); [injection Hrest as <- <-; by apply changes_none|].
  apply action_bind_Ok in Hrest as ([] & w5 & [= Hac <-] & Hrest).
  apply Dependency.assertAcyclicDependency_Ok in Hac.
  apply action_bind_Ok in Hrest as (at_ & w6 & [= <- <-] & Hrest).
  apply action_bind_Ok in Hrest as (created & w7 & Hl & Hrest).
  apply refuse_if_bind_Ok in Hrest as [Hc%negb_false_iff Hrest]. subst created.
  apply link_dependency_Ok in Hl as (Hs & Hn & ->); simpl in *.
  apply action_bind_Ok in Hrest as (i & w8 & Hev & [= _ <-]).
  apply record_audit_event_Ok in Hev as (at2 & Hdb & Hg & Hf); [|done]. simpl in *.
  eapply changes_event; [exact Hdb| |reflexivity|lia]. eapply change_link; try done.
  destruct Hed as (t & Ht & Htp & _). intros Hr. apply Hac.
  by eapply (project_path _ (di_projectId input)) in Hr; [|apply ok_edge|..].
Qed.

(** A link leaves the tasks alone, whatever else holds of the tables. *)
Lemma link_tasks input w r w' : link input w = (Ok r, w') → tasks (db w') = tasks (db w).
Proof.
  intros [_ (w1 & Hrun & ->)]%run_Ok. change (tasks (db w1) = tasks (db (opened w))).
  revert Hrun. generalize (opened w). clear w. intros w Hrun.
  apply action_bind_Ok in Hrun as ([] & w2 & (-> & _)%assertEditable_Ok & Hrest).
  apply action_bind_Ok in Hrest as (u & w3 & (-> & _)%require_dependency_task_Ok & Hrest).
  apply action_bind_Ok in Hrest as (edges & w4 & [= <- <-] & Hrest).
  destruct (includes _ _); [by injection Hrest as <- <-|].
  apply action_bind_Ok in Hrest as ([] & w5 & [= _ <-] & Hrest).
  apply action_bind_Ok in Hrest as (at_ & w6 & [= <- <-] & Hrest).
  apply action_bind_Ok in Hrest as (created & w7 & Hl & Hrest).
  apply refuse_if_bind_Ok in Hrest as [Hc%negb_false_iff Hrest]. subst created.
  apply link_dependency_Ok in Hl as (_ & _ & ->).
  apply action_bind_Ok in Hrest as (i & w8 & Hev & [= _ <-]).
  by apply record_audit_event_Ok in Hev as (at2 & -> & _).
Qed.

Lemma unlink_change input w r w' :
  unlink input w = (Ok r, w') → changes w w'.
Proof.
  intros [Hact (w1 & Hrun & ->)]%run_Ok. change (changes (opened w) w1). revert Hrun.
  generalize (opened w). clear w Hact. intros w Hrun.
  apply action_bind_Ok in Hrun as ([] & w2 & Hed & Hrest).
  apply assertEditable_Ok in Hed as (-> & _ & Hed).
  apply action_bind_Ok in Hrest as (u & w3 & Hu & Hrest).
  apply require_dependency_task_Ok in Hu as (-> & _ & Hu & Hup).
  apply action_bind_Ok in Hrest as (removed & w4 & Hun & Hrest).
  apply unlink_dependency_Ok in Hun as [[-> ->]|(-> & Hs & ->)];
    apply action_bind_Ok in Hrest as ([] & w5 & Hev & [= _ <-]).
  - injection Hev as <-. by apply changes_none.
  - apply action_bind_Ok in Hev as (i & w6 & Hev & [= <-]).
    apply record_audit_event_Ok in Hev as (at_ & Hdb & Hg & Hf); [|done]. simpl in *.
    eapply changes_event; [exact Hdb| |reflexivity|lia]. by eapply change_unlink.
Qed.

Lemma requirement_event_change f type input w i w1 :
  canonical type = true → includes type ["task.status_changed"; "task.completion_recorded"] = false →
  record_audit_event (requirement_event type input) w = (Ok i, w1) →
  ∀ w0, db w = set_task_requirements f (db w0) → generated w = generated w0 → changes w0 w1.
Proof.
  intros Hc Ht Hev w0 Hd Hg0. apply record_audit_event_Ok in Hev as (at_ & Hdb & Hg & Hf); [|done].
  rewrite Hd in Hf, Hdb. eapply changes_event; [exact Hdb| |reflexivity|lia].
  apply change_requirement; [|simpl|done].
  - unfold event_status. simpl. by rewrite Ht.
  - intros ->. by vm_compute in Ht.
Qed.

Lemma requireBothEnds_Ok input w w' : requireBothEnds input w = (Ok tt, w') → w' = w.
Proof.
  unfold requireBothEnds. intros (t & w1 & Ht & Hrest)%action_bind_Ok.
  apply require_project_task_Ok in Ht as (-> & _).
  apply action_bind_Ok in Hrest as (st & w2 & [= <- <-] & Hrest).
  destruct (requirements _ !! _) as [row|]; [|done]. case_bool_decide; [|done]. by injection Hrest.
Qed.

Lemma link_requirement_change input w r w' :
  link_to_requirement input w = (Ok r, w') → changes w w'.
Proof.
  unfold link_to_requirement. intros ([] & w1 & Hb & Hrun)%action_bind_Ok.
  apply requireBothEnds_Ok in Hb as ->.
  apply run_Ok in Hrun as [Hact (w3 & Hrun & ->)]. change (changes (opened w) w3). revert Hrun.
  generalize (opened w). clear w Hact. intros w Hrun.
  apply action_bind_Ok in Hrun as (at_ & w4 & [= <- <-] & Hrest).
  apply action_bind_Ok in Hrest as (created & w5 & Hl & Hrest).
  apply action_bind_Ok in Hrest as ([] & w6 & Hev & [= _ <-]).
  revert Hl. unfold link_requirement. intros (d & w7 & [= <- <-] & Hl)%action_bind_Ok.
  case_match; injection Hl as <- <-; [|injection Hev as <-; by apply changes_none].
  apply action_bind_Ok in Hev as (i & w8 & Hev & [= <-]).
  by eapply requirement_event_change in Hev.
Qed.

Lemma unlink_requirement_change input w r w' :
  unlink_from_requirement input w = (Ok r, w') → changes w w'.
Proof.
  unfold unlink_from_requirement. intros ([] & w1 & Hb & Hrun)%action_bind_Ok.
  apply requireBothEnds_Ok in Hb as ->.
  apply run_Ok in Hrun as [Hact (w3 & Hrun & ->)]. change (changes (opened w) w3). revert Hrun.
  generalize (opened w). clear w Hact. intros w Hrun.
  apply action_bind_Ok in Hrun as (removed & w5 & Hl & Hrest).
  apply action_bind_Ok in Hrest as ([] & w6 & Hev & [= _ <-]).
  revert Hl. unfold unlink_requirement. intros (d & w7 & [= <- <-] & Hl)%action_bind_Ok.
  case_match; injection Hl as <- <-; [|injection Hev as <-; by apply changes_none].
  apply action_bind_Ok in Hev as (i & w8 & Hev & [= <-]).
  by eapply requirement_event_change in Hev.
Qed.

(** * Recording a completion *)

Section completion.
  Context `{ShowNumber} (sha256 : string → string).

(** The evidence [buildPlan] reads. *)
Definition evidence_of (projectId taskId : string) (d : database) : RequirementProgress :=
  requirementProgress (lr_status <$> linked_requirements projectId taskId d).

Lemma buildPlan_Ok input w p t w' :
  buildPlan sha256 input w = (Ok (p, t), w') →
  w' = w ∧ tasks (db w) !! ci_taskId input = Some t ∧ Task.projectId t = ci_projectId input ∧
  cp_projectId p = ci_projectId input ∧ cp_taskId p = Task.id t ∧ cp_status p = Task.status t ∧
  cp_evidence p = evidence_of (ci_projectId input) (ci_taskId input) (db w) ∧
  Task.normalizeTaskReason (ci_reason input) "completion record reason" = Ok (cp_reason p) ∧
  ∀ h, cp_planHash p = Some h →
    Task.isHistoricalCompletionApplicable (Task.status t) = true ∧
    completionPlanHash sha256 (cp_projectId p) (cp_taskId p) (cp_status p) (cp_reason p)
      (cp_evidence p) = Ok h.
Proof.
  unfold buildPlan. intros (reason & w1 & [= Hreason <-] & Hrest)%action_bind_Ok.
  apply action_bind_Ok in Hrest as (u & w2 & Ht & Hrest).
  apply require_project_task_Ok in Ht as (-> & _ & Ht & Htp).
  apply action_bind_Ok in Hrest as (linked & w3 & [= <- <-] & Hrest).
  apply action_bind_Ok in Hrest as (h & w4 & [= Hh <-] & Hrest).
  injection Hrest as <- <- <-. simpl. split_and!; try done.
  intros h' ->. revert Hh. unfold Task.snapshot, Task.isHistoricalCompletionApplicable.
  unfold Task.historicalCompletionRefusal.
  destruct (Task.isTerminalTaskStatus _), (Task.isTaskTransitionAllowed _ _); try done.
  unfold evidence_of. destruct (completionPlanHash _ _ _ _ _ _) eqn:Hc; [|done].
  by intros [= <-].
Qed.

Lemma completion_payload_event p h e :
  ae_payload e = completion_payload p h → ae_eventType e = "task.completion_recorded" →
  event_status e = Some Task.completed.
Proof. intros Hp Ht. unfold event_status. by rewrite Hp, Ht. Qed.

Lemma record_change input approved w r w' :
  keyed (db w) → record sha256 input approved w = (Ok r, w') → changes w w'.
Proof.
  intros Hk [Hact (w1 & Hrun & ->)]%run_Ok. change (keyed (db (opened w))) in Hk.
  change (changes (opened w) w1). revert Hk Hrun. generalize (opened w). clear w Hact.
  intros w Hk Hrun.
  apply action_bind_Ok in Hrun as ([p t] & w2 & Hb & Hrest).
  apply buildPlan_Ok in Hb as (-> & Ht & Htp & Hpp & Hpt & Hps & _ & _ & Hh). simpl in Hrest.
  destruct (cp_planHash p) as [h|]; [|done]. destruct (Hh h eq_refl) as [Happ _].
  apply refuse_if_bind_Ok in Hrest as [_ Hrest].
  apply action_bind_Ok in Hrest as (at_ & w3 & [= <- <-] & Hrest).
  apply action_bind_Ok in Hrest as (t' & w4 & Hm & Hrest).
  apply on_task_Ok in Hm as [-> [_ ->]%Task.recordHistoricalCompletion_Ok].
  apply action_bind_Ok in Hrest as ([] & w5 & Hs & Hrest).
  apply save_moved_Ok in Hs as ->; [|simpl; by rewrite (Hk _ _ Ht)].
  apply action_bind_Ok in Hrest as (i & w6 & Hev & [= _ <-]).
  apply record_audit_event_Ok in Hev as (at2 & Hdb & Hg & Hf); [|done]. simpl in *.
  rewrite (proj2 (proj2 (proj2 (moved_fields _ _ _ _)))) in Hf.
  eapply changes_event; [exact Hdb| |reflexivity|lia]. apply change_record; try done.
  - by rewrite (Hk _ _ Ht).
  - by rewrite Hpp, Hpt, <-Htp.
Qed.

(** * Every request *)

Lemma ok_keyed d : store_ok d → keyed d.
Proof. intros Hok k t Ht. by destruct (ok_task _ Hok _ _ Ht). Qed.

Lemma ignoring_Ok {A} (m : command A) w w' u :
  ignoring m w = (Ok u, w') → ∃ a, m w = (Ok a, w').
Proof. unfold ignoring. intros (a & w1 & Hm & [= _ <-])%action_bind_Ok. eauto. Qed.

Lemma serve_Ok_change r w u w' :
  store_ok (db w) → fresh_world w → serve sha256 r w = (Ok u, w') → changes w w'.
Proof.
  intros Hok Hfresh. pose proof (ok_keyed _ Hok) as Hk.
  destruct r; simpl; intros [a Hm]%ignoring_Ok.
  - eapply create_task_change; [|done]. intros n Hn. by apply Hfresh.
  - by eapply update_task_change.
  - apply run_Ok in Hm as [Hact (w1 & Hm & ->)]. change (changes (opened w) w1).
    by eapply perform_change.
  - by eapply link_change.
  - by eapply unlink_change.
  - by eapply record_change.
  - by eapply link_requirement_change.
  - by eapply unlink_requirement_change.
Qed.

End completion.

(** ** What every request keeps of the tasks, on tables of which only the keys
    of the tasks are known *)

Lemma change_keyed x i d d' : change x i d d' → keyed d → keyed d'.
Proof.
  intros Hc Hk k t Ht.
  destruct (change_new_tasks _ _ _ _ _ _ Hc Ht) as [Ht'|[(? & _ & _ & Hid & _)|(u & _ & <- & Hs)]].
  - by apply Hk.
  - done.
  - by destruct (steps_keep _ _ Hs) as (? & _).
Qed.

Section tasks.
  Context `{ShowNumber} (sha256 : string → string).

Lemma serve_tasks r w u w' :
  keyed (db w) → (∀ n, generated w ≤ n → tasks (db w) !! id_at n = None) →
  serve sha256 r w = (Ok u, w') →
  keyed (db w') ∧
  (∀ k t, tasks (db w) !! k = Some t → ∃ t', tasks (db w') !! k = Some t' ∧ succeeds t t') ∧
  (∀ k, is_Some (tasks (db w') !! k) →
     is_Some (tasks (db w) !! k) ∨ ∃ n, generated w ≤ n < generated w' ∧ k = id_at n).
Proof.
  intros Hk Hfresh Hs.
  assert (changes w w' ∨ tasks (db w') = tasks (db w)) as [(x & i & Hc & _ & Hl)|Heq].
  { destruct r; simpl in Hs; apply ignoring_Ok in Hs as [a Hm]; [left..| |left|left|left|left].
    - by eapply create_task_change.
    - by eapply update_task_change.
    - apply run_Ok in Hm as [Hact (w1 & Hm & ->)]. change (changes (opened w) w1).
      by eapply perform_change.
    - right. by eapply link_tasks.
    - by eapply unlink_change.
    - by eapply record_change.
    - by eapply link_requirement_change.
    - by eapply unlink_requirement_change. }
  - split_and!.
    + by eapply change_keyed.
    + by destruct (change_tasks _ _ _ _ Hc).
    + intros k [?|Hx]%(change_dom _ _ _ _ k Hc); [by left|right].
      destruct (Hl k) as (n & ? & ?); [by left|]. eauto.
  - unfold keyed. rewrite Heq. split_and!; [done| |by left].
    intros k t Ht. eauto using succeeds_refl.
Qed.

End tasks.

(** * Identifiers stay fresh *)

(** Nothing gives a generated identifier back. *)
Definition monotone {A} (m : command A) : Prop := ∀ w, generated w ≤ generated (m w).2.

Lemma monotone_readonly {A} (m : command A) : readonly m → monotone m.
Proof. intros Hm w. by rewrite (Hm w). Qed.

Lemma monotone_read {A} (f : database → A) : monotone (read f).
Proof. by intros w. Qed.

Lemma monotone_write f : monotone (write f).
Proof. by intros w. Qed.

Lemma monotone_now : monotone now.
Proof. by intros w. Qed.

Lemma monotone_generate : monotone generate.
Proof. intros w. simpl. lia. Qed.

Lemma monotone_bind {A B} (m : command A) (k : A → command B) :
  monotone m → (∀ a, monotone (k a)) → monotone (m ≫= k).
Proof.
  intros Hm Hk w. unfold mbind, action_bind. specialize (Hm w).
  destruct (m w) as [[a|e] w1]; simpl in *; [|done]. specialize (Hk a w1). lia.
Qed.

Lemma monotone_run {A} (m : command A) : monotone m → monotone (run m).
Proof.
  intros Hm w. unfold run. destruct (active w); [done|]. specialize (Hm (opened w)).
  unfold opened in *. by destruct (m _) as [[]].
Qed.

Create HintDb mono.
#[local] Hint Resolve monotone_read monotone_write monotone_now monotone_generate monotone_run
  monotone_readonly : mono.
#[local] Hint Extern 2 (monotone (_ ≫= _)) => apply monotone_bind; [|intros ?] : mono.
#[local] Hint Extern 2 (readonly (mret _)) => apply readonly_ret : mono.
#[local] Hint Extern 2 (readonly (lift _)) => apply readonly_lift : mono.
#[local] Hint Extern 2 (readonly (refuse_if _ _)) => apply readonly_refuse_if : mono.
#[local] Hint Extern 2 (readonly (mthrow _)) => apply readonly_throw : mono.
#[local] Hint Extern 3 (monotone (if ?b then _ else _)) => destruct b : mono.
#[local] Hint Extern 3 (monotone match ?o with None => _ | Some _ => _ end) => destruct o : mono.

Lemma monotone_record input : monotone (record_audit_event input).
Proof. unfold record_audit_event, append_event. eauto 20 with mono. Qed.

Lemma monotone_save t : monotone (save_task t).
Proof. unfold save_task, find_task, find_project. eauto 20 with mono. Qed.

Lemma monotone_require p k : monotone (require_project_task p k).
Proof. unfold require_project_task, find_task, find_project. eauto 20 with mono. Qed.

Lemma monotone_dependency_require p k : monotone (require_dependency_task p k).
Proof. unfold require_dependency_task, find_task, find_project. eauto 20 with mono. Qed.

Lemma monotone_editable p k : monotone (assertEditable p k).
Proof.
  unfold assertEditable, hasExecutionHistory.
  eauto 20 using monotone_dependency_require with mono.
Qed.

Lemma monotone_on_task t m : monotone (on_task t m).
Proof. unfold on_task. destruct (m t) as [[]]; auto with mono. Qed.

Lemma monotone_ends input : monotone (requireBothEnds input).
Proof. unfold requireBothEnds, requirement_status. eauto 20 using monotone_require with mono. Qed.

#[local] Hint Resolve monotone_record monotone_save monotone_require monotone_dependency_require
  monotone_editable monotone_on_task monotone_ends prerequisites_complete_readonly : mono.

Lemma serve_monotone `{ShowNumber} sha256 r : monotone (serve sha256 r).
Proof.
  destruct r; simpl; unfold ignoring.
  - unfold create_task, find_project. eauto 20 with mono.
  - unfold update_task. eauto 30 with mono.
  - unfold apply, perform. eauto 30 with mono.
  - unfold link, list_dependencies, link_dependency, hasExecutionHistory. eauto 30 with mono.
  - unfold unlink, unlink_dependency, hasExecutionHistory. eauto 30 with mono.
  - unfold record, buildPlan, list_for_task. eauto 40 with mono.
  - unfold link_to_requirement, link_requirement. eauto 30 with mono.
  - unfold unlink_from_requirement, unlink_requirement. eauto 30 with mono.
Qed.

Lemma changes_fresh `{!EnvironmentLaws} w w' :
  changes w w' → fresh_world w → fresh_world w'.
Proof.
  intros (c & i & Hc & Hg & Hlabel) Hf n Hn. destruct (Hf n) as [Ht Ha]; [lia|].
  assert (∀ m, id_at n = id_at m → generated w ≤ m < generated w' → False) as Hne.
  { intros m ->%id_at_inj. lia. }
  split.
  - destruct (tasks (db w') !! id_at n) as [t|] eqn:Heq; [exfalso|done].
    destruct (change_dom _ _ _ _ (id_at n) Hc) as [[? ?]|Hs]; [by rewrite Heq|congruence|].
    destruct (Hlabel (id_at n)) as (m & ? & ?); [by left|]. by apply (Hne m).
  - destruct (change_audit _ _ _ _ Hc) as (es & -> & <- & _).
    rewrite fmap_app. intros [?|Hin]%elem_of_app; [done|].
    destruct (Hlabel (id_at n)) as (m & ? & ?); [by right|]. by apply (Hne m).
Qed.

Section host.
  Context `{!EnvironmentLaws} `{ShowNumber} (sha256 : string → string).

Lemma serve_changes r w :
  store_ok (db w) → fresh_world w → changes w (serve sha256 r w).2.
Proof.
  intros Hok Hf. destruct (serve sha256 r w) as [[u|e] w'] eqn:Hs.
  - by eapply serve_Ok_change.
  - pose proof (serve_monotone sha256 r w) as Hg. rewrite Hs in Hg.
    apply serve_atomic in Hs. by apply changes_none.
Qed.

Lemma serve_all_ok l w :
  store_ok (db w) → fresh_world w →
  store_ok (db (serve_all sha256 l w)) ∧ fresh_world (serve_all sha256 l w).
Proof.
  revert w. induction l as [|r l IH]; intros w Hok Hf; [done|]. simpl.
  pose proof (serve_changes r w Hok Hf) as Hc. apply IH; [|by eapply changes_fresh].
  destruct Hc as (c & i & Hc & _). by eapply change_ok.
Qed.

End host.

End services.

End TaskRefinement.
