(* ===== verification/TaskHistory.v ===== *)
(** Properties of the task services over every history of requests, from an
    empty project database on: the dependency graph, what completion means,
    the audit trail, refusals, and the exact condition of a transition. *)
From S2P Require Import Prelude Errors TaskModel DependencyGraph Json.
From S2P Require Import CostModel Store TaskServices TaskInvariants TaskRefinement.
Import Canonical Store TaskServices TaskInvariants TaskRefinement.

Module TaskHistory.

(** A host that has served nothing: projects and their requirements, no task. *)
Definition start_world (ps : gset string) (reqs : gmap string requirement_row) : world :=
  {| db := {| projects := ps; tasks := ∅; dependencies := ∅; history := ∅;
              requirements := reqs; task_requirements := ∅; audit := [] |};
     active := false; ticks := 0; generated := 0 |}.

Lemma start_ok ps reqs : store_ok (db (start_world ps reqs)).
Proof.
  split; simpl; try by intros.
  - exact Dependency.acyclic_nil.
  - by intros e ?%elem_of_nil.
  - constructor.
Qed.

Lemma start_fresh `{Environment} ps reqs : fresh_world (start_world ps reqs).
Proof. intros n _. split; [done|]. by intros ?%elem_of_nil. Qed.

(** The host after serving [l]. *)
Definition after `{Environment} `{ShowNumber} (sha256 : string → string) (ps : gset string)
    (reqs : gmap string requirement_row) (l : list request) : database :=
  db (serve_all sha256 l (start_world ps reqs)).

Section histories.
  Context `{EnvironmentLaws} `{ShowNumber} (sha256 : string → string).
  Context (ps : gset string) (reqs : gmap string requirement_row).

Lemma after_ok l : store_ok (after sha256 ps reqs l).
Proof. apply serve_all_ok; [apply start_ok|apply start_fresh]. Qed.

(** C35: whatever requests the host serves, prerequisites never form a cycle and
    never cross a project: both ends of every edge are tasks of its project.
    Assumed of the id generator: it never repeats an identifier. *)
Theorem prerequisites_stay_acyclic l :
  Dependency.acyclic (all_edges (after sha256 ps reqs l)) ∧
  ∀ a b row, dependencies (after sha256 ps reqs l) !! (a, b) = Some row →
    same_project (dep_projectId row) a b (after sha256 ps reqs l) = true.
Proof. pose proof (after_ok l) as Hok. split; [apply Hok|]. intros. by apply Hok. Qed.

(** C1: a completed task has all its prerequisites completed, unless the audit
    trail holds the operator's attestation that it was completed outside the
    lifecycle. *)
Theorem completed_prerequisites_completed l k t :
  tasks (after sha256 ps reqs l) !! k = Some t → Task.status t = Task.completed →
  (∀ b row, dependencies (after sha256 ps reqs l) !! (k, b) = Some row →
     ∃ p, tasks (after sha256 ps reqs l) !! b = Some p ∧ Task.status p = Task.completed) ∨
  ∃ e, e ∈ audit (after sha256 ps reqs l) ∧
    about_task e "task.completion_recorded" (Task.projectId t) k.
Proof.
  intros Ht Hs. pose proof (after_ok l) as Hok.
  destruct (ok_completed _ Hok _ _ Ht Hs) as [Hu|?]; [left|by right].
  intros b row Hrow. destruct (Hu _ _ Hrow) as (p & Hp & Hps%Dependency.satisfied_completion).
  - pose proof (ok_edge _ Hok _ _ _ Hrow) as (s & u & ? & _ & ? & _)%same_project_spec. congruence.
  - eauto.
Qed.


Lemma serve_all_app l l' w :
  serve_all sha256 (l ++ l') w = serve_all sha256 l' (serve_all sha256 l w).
Proof. apply foldl_app. Qed.

(** Requests keep execution history, and with it the prerequisites. *)
Lemma serve_all_frozen l w k row :
  store_ok (db w) → fresh_world w → history (db w) !! k = Some row →
  ∀ b, dependencies (db (serve_all sha256 l w)) !! (k, b) = dependencies (db w) !! (k, b).
Proof.
  revert w row. induction l as [|r l IH]; intros w row Hok Hf Hrow b; [done|]. simpl.
  pose proof (serve_changes sha256 r w Hok Hf) as Hc.
  pose proof (changes_fresh _ _ Hc Hf) as Hf'. destruct Hc as (c & i & Hc & _).
  pose proof (change_ok _ _ _ _ Hc Hok) as Hok'.
  destruct (change_keeps_history _ _ _ _ _ _ Hc Hrow) as (row' & Hrow' & _).
  rewrite (IH _ _ Hok' Hf' Hrow').
  destruct (change_dependencies _ _ _ _ k Hc) as [(p & u & Hu & Hp & _ & Hn)|Hd]; [exfalso|done].
  destruct (ok_history _ Hok _ _ Hrow) as (t & Ht & Hrp). apply (Hn _ Hrow). congruence.
Qed.

(** The prerequisites of a task are frozen once it was started: no later
    history of requests adds, removes or changes one, whatever status the task
    returns to. *)
Theorem prerequisites_frozen_after_start l k t l' :
  tasks (after sha256 ps reqs l) !! k = Some t →
  Task.status t ∈ [Task.running; Task.waiting_review] →
  ∀ b, dependencies (after sha256 ps reqs (l ++ l')) !! (k, b) =
       dependencies (after sha256 ps reqs l) !! (k, b).
Proof.
  intros Ht Hs b. destruct (serve_all_ok sha256 l (start_world ps reqs)) as [Hok Hf];
    [apply start_ok|apply start_fresh|].
  destruct (ok_started _ Hok _ _ Ht Hs) as [row Hrow].
  unfold after. rewrite serve_all_app. by eapply serve_all_frozen.
Qed.

End histories.


(** * Samples and witnesses *)

Definition sample_environment : Environment :=
  {| clock_at n := (1000 + Z.of_nat n)%Z; id_at n := "id-" +:+ pretty n |}.

Lemma sample_environment_laws : @EnvironmentLaws sample_environment.
Proof.
  intros n m Heq. unfold id_at, sample_environment in Heq.
  apply (inj (String.append "id-")) in Heq. by apply (inj pretty) in Heq.
Qed.

Definition sample_lifecycle (op : operation) (k : string) : request :=
  RLifecycle {| lr_operation := op; lr_projectId := "p"; lr_taskId := k; lr_actorId := "ann";
                lr_reason := None |}.

Definition sample_create (title : string) : request :=
  RCreate {| ct_projectId := "p"; ct_title := title; ct_description := None;
             ct_priority := None |}.

(** Two tasks, the second depends on the first; starting it too early and the
    link that would close a cycle are refused; the first is done. *)
Definition sample_requests : list request :=
  [sample_create "first"; sample_create "second";
   RLink {| di_projectId := "p"; di_taskId := "id-1"; di_dependsOnTaskId := "id-0";
            di_actorId := "ann" |};
   sample_lifecycle start "id-1";
   RLink {| di_projectId := "p"; di_taskId := "id-0"; di_dependsOnTaskId := "id-1";
            di_actorId := "ann" |};
   sample_lifecycle start "id-0"; sample_lifecycle complete "id-0";
   sample_lifecycle start "id-1"].

Abbreviation sample_after :=
  (@after sample_environment decimal_number (λ s, s) {["p"]} ∅).

Example sample_statuses :
  (Task.status <$> tasks (sample_after sample_requests) !! "id-0") = Some Task.completed ∧
  (Task.status <$> tasks (sample_after sample_requests) !! "id-1") = Some Task.running ∧
  length (audit (sample_after sample_requests)) = 4 ∧
  is_Some (dependencies (sample_after sample_requests) !! ("id-1", "id-0")).
Proof. split_and!; [by vm_compute..|]. by eexists; vm_compute. Qed.

Lemma prerequisites_stay_acyclic_witness :
  Dependency.acyclic (all_edges (sample_after sample_requests)) ∧
  same_project "p" "id-1" "id-0" (sample_after sample_requests) = true.
Proof.
  destruct (@prerequisites_stay_acyclic sample_environment sample_environment_laws decimal_number
    (λ s, s) {["p"]} ∅ sample_requests) as [Hac Hp]. split; [exact Hac|].
  destruct (dependencies (sample_after sample_requests) !! ("id-1", "id-0")) as [row|] eqn:Hr;
    [|by vm_compute in Hr].
  assert (dep_projectId row = "p") as Hrow by (vm_compute in Hr; by injection Hr as <-).
  pose proof (Hp _ _ _ Hr) as Hsame. rewrite Hrow in Hsame. exact Hsame.
Defined.

Lemma completed_prerequisites_completed_witness :
  ∃ t, tasks (sample_after (sample_requests ++ [sample_lifecycle complete "id-1"])) !! "id-1"
       = Some t ∧ Task.status t = Task.completed ∧
  ((∀ b row, dependencies (sample_after (sample_requests ++ [sample_lifecycle complete "id-1"]))
               !! ("id-1", b) = Some row →
      ∃ p, tasks (sample_after (sample_requests ++ [sample_lifecycle complete "id-1"])) !! b
           = Some p ∧ Task.status p = Task.completed) ∨
   ∃ e, e ∈ audit (sample_after (sample_requests ++ [sample_lifecycle complete "id-1"])) ∧
     about_task e "task.completion_recorded" (Task.projectId t) "id-1").
Proof.
  destruct (tasks (sample_after (sample_requests ++ [sample_lifecycle complete "id-1"])) !! "id-1")
    as [t|] eqn:Ht; [|by vm_compute in Ht]. exists t. split; [done|].
  assert (Task.status t = Task.completed) as Hs by (vm_compute in Ht; by injection Ht as <-).
  split; [exact Hs|].
  exact (@completed_prerequisites_completed sample_environment sample_environment_laws
    decimal_number (λ s, s) {["p"]} ∅ _ _ _ Ht Hs).
Defined.


Lemma prerequisites_frozen_after_start_witness :
  let later := [sample_lifecycle complete "id-1"] in
  ∃ t, tasks (sample_after sample_requests) !! "id-1" = Some t ∧
    Task.status t ∈ [Task.running; Task.waiting_review] ∧
    ∀ b, dependencies (sample_after (sample_requests ++ later)) !! ("id-1", b) =
         dependencies (sample_after sample_requests) !! ("id-1", b).
Proof.
  destruct (tasks (sample_after sample_requests) !! "id-1") as [t|] eqn:Ht; [|by vm_compute in Ht].
  exists t. split; [done|].
  assert (Task.status t ∈ [Task.running; Task.waiting_review]) as Hs
    by (vm_compute in Ht; injection Ht as <-; by left).
  split; [exact Hs|]. intros b.
  exact (@prerequisites_frozen_after_start sample_environment sample_environment_laws
    decimal_number (λ s, s) {["p"]} ∅ _ _ _ [sample_lifecycle complete "id-1"] Ht Hs b).
Defined.


End TaskHistory.
