(* ===== verification/TaskGuards.v ===== *)
(** The exact conditions under which the task services accept a request: the
    lifecycle operation against the introspection report and the storage
    triggers, the dependency link against the cycle trigger, and the recorded
    completion against the plan its operator approved. *)
From S2P Require Import Prelude Errors TaskModel DependencyGraph Json.
From S2P Require Import CostModel Store TaskServices TaskInvariants TaskRefinement TaskHistory.
Import Canonical Store TaskServices TaskInvariants TaskRefinement TaskHistory.

Module TaskGuards.

#[local] Opaque moved.

(** * Triggers *)

Lemma prerequisite_outside_false accepted p k d :
  has_prerequisite_outside accepted p k d = false ↔
  ∀ b row t, dependencies d !! (k, b) = Some row → dep_projectId row = p →
    tasks d !! b = Some t → Task.status t ∈ accepted.
Proof.
  unfold has_prerequisite_outside. rewrite <-not_true_iff_false, existsb_exists. split.
  - intros Hn b row t Hrow Hp Ht. destruct (includes (Task.status t) accepted) eqn:Hi;
      [by apply includes_spec|]. destruct Hn. exists ((k, b), row). split.
    + by apply list_elem_of_In, elem_of_map_to_list.
    + simpl. rewrite !bool_decide_eq_true_2, Ht by done. simpl. by rewrite Hi.
  - intros Hall ([[k' b] row] & Hin%list_elem_of_In%elem_of_map_to_list & Hc). simpl in Hc.
    apply andb_true_iff in Hc as [[->%bool_decide_eq_true Hp%bool_decide_eq_true]%andb_true_iff Hc].
    destruct (tasks d !! b) as [t|] eqn:Ht; [|done].
    apply negb_true_iff, includes_false in Hc. by destruct (Hc (Hall _ _ _ Hin Hp Ht)).
Qed.

Section guards.
  Context `{Environment}.

(** The service's check implies the trigger's. *)
Lemma checked_prerequisites r accepted p k w :
  keyed (db w) → assertTaskPrerequisitesComplete p k r w = (Ok tt, w) →
  (∀ s, Dependency.satisfied r s = true → s ∈ accepted) →
  has_prerequisite_outside accepted p k (db w) = false.
Proof.
  intros Hk Hr Hacc. apply prerequisite_outside_false. intros b row t Hrow Hp Ht.
  destruct (proj1 (prerequisites_complete_Ok _ _ _ _ Hk) Hr b row Hrow Hp) as (u & Hu & _ & Hs).
  apply Hacc. congruence.
Qed.

Lemma save_existing_succeeds old t w :
  tasks (db w) !! Task.id t = Some old → updated_task old t = t →
  completion_trigger old t (db w) = false →
  (start_fires old t = true → start_refuses t (db w) = false) →
  ∃ d, save_task t w = (Ok tt, with_db w d) ∧ audit d = audit (db w) ∧ projects d = projects (db w).
Proof.
  intros Ht Hup Hc Hs. unfold save_task, find_task, read, refuse_if, lift, mbind, action_bind.
  rewrite Ht, Hup, Hc. cbn -[start_fires start_refuses].
  destruct (start_fires old t); [rewrite Hs by done|]; by eexists.
Qed.

Lemma record_audit_event_succeeds input p w :
  canonical (ai_eventType input) = true → ai_projectId input = Some p →
  p ∈ projects (db w) → id_at (generated w) ∉ ae_id <$> audit (db w) →
  is_ok (record_audit_event input w).1 = true.
Proof.
  intros Hc Hp Hin Hf. unfold record_audit_event, generate, now. unfold mbind, action_bind, lift.
  simpl. rewrite create_audit_event_Ok by done. unfold append_event, read. unfold mbind, action_bind.
  simpl. unfold refuse_if, lift. apply includes_false in Hf. rewrite Hf, Hp. simpl.
  by rewrite bool_decide_eq_true_2.
Qed.

(** * The lifecycle *)

(** The report lists exactly the operations the aggregate accepts. *)
Lemma available_transitions s :
  ∃ l, map_result available_transition (Task.allowedTaskTransitions s) = Ok l ∧
  ∀ op, op ∈ at_operation <$> l ↔ Task.isTaskTransitionAllowed s (operation_to op) = true.
Proof.
  destruct s; (eexists; split; [vm_compute; reflexivity|]);
    intros op; rewrite <-includes_spec; by destruct op; vm_compute.
Qed.

Lemma transitions_report p k w report w' :
  transitions p k w = (Ok report, w') →
  w' = w ∧ ∃ t, tasks (db w) !! k = Some t ∧ Task.projectId t = p ∧ p ∈ projects (db w) ∧
  ∀ op, op ∈ at_operation <$> tr_allowed report ↔
        Task.isTaskTransitionAllowed (Task.status t) (operation_to op) = true.
Proof.
  unfold transitions. intros (t & w1 & Ht & Hrest)%action_bind_Ok.
  apply require_project_task_Ok in Ht as (-> & Hp & Ht & Htp).
  apply action_bind_Ok in Hrest as (l & w2 & [= Hl <-] & [= <- <-]). split; [done|].
  exists t. split_and!; [done..|]. simpl.
  destruct (available_transitions (Task.status t)) as (l' & Hl' & Hop). unfold Task.snapshot in Hl.
  rewrite Hl in Hl'. by injection Hl' as ->.
Qed.

Lemma transitions_succeeds p k w t :
  p ∈ projects (db w) → tasks (db w) !! k = Some t → Task.projectId t = p →
  ∃ report, transitions p k w = (Ok report, w).
Proof.
  intros Hp Ht Htp. unfold transitions. unfold mbind, action_bind.
  rewrite (proj2 (require_project_task_Ok p k w t w)) by done.
  unfold lift, Task.snapshot. destruct (available_transitions (Task.status t)) as (l & -> & _).
  by eexists.
Qed.

(** The prerequisite check only reads the database. *)
Lemma check_reads p k r w :
  assertTaskPrerequisitesComplete p k r w =
  (blockedBy ← Dependency.blockingPrerequisites (prerequisites_of k (project_edges p (db w)))
                 (statuses_of (project_tasks p (db w))) r;
   throw_if (0 <? length blockedBy)
     (TaskPrerequisiteIncompleteError k
       ((λ b, (Dependency.blockerId b, Task.status_name (Dependency.blockerStatus b)))
        <$> blockedBy) (is_completion r)), w).
Proof.
  unfold assertTaskPrerequisitesComplete, list_tasks, list_dependencies, read.
  unfold mbind, action_bind, lift, refuse_if. by destruct (Dependency.blockingPrerequisites _ _ _).
Qed.

(** The prerequisite check of an operation. *)
Definition prerequisite_check (request : TaskLifecycleRequest) : command unit :=
  assertTaskPrerequisitesComplete (lr_projectId request) (lr_taskId request)
    (if bool_decide (lr_operation request = start) then Dependency.at_start
     else Dependency.at_completion).

Lemma perform_accepts request w st w' :
  perform true request w = (Ok st, w') →
  is_ok (resolveReason (lr_operation request) (lr_reason request)) = true ∧
  (lr_operation request ∈ [start; complete] → prerequisite_check request w = (Ok tt, w)) ∧
  ∃ t, tasks (db w) !! lr_taskId request = Some t ∧ Task.projectId t = lr_projectId request ∧
    lr_projectId request ∈ projects (db w) ∧
    Task.isTaskTransitionAllowed (Task.status t) (operation_to (lr_operation request)) = true.
Proof.
  unfold perform. intros (reason & w1 & [= Hr <-] & Hrest)%action_bind_Ok.
  apply action_bind_Ok in Hrest as (t & w2 & Ht & Hrest).
  apply require_project_task_Ok in Ht as (-> & Hp & Ht & Htp).
  apply action_bind_Ok in Hrest as ([] & w3 & Hpre & Hrest). simpl in Hpre.
  split; [by rewrite Hr|]. split.
  { intros Hop%includes_spec. rewrite Hop in Hpre. unfold prerequisite_check.
    pose proof (prerequisites_complete_readonly (lr_projectId request) (lr_taskId request)
      (if bool_decide (lr_operation request = start) then Dependency.at_start
       else Dependency.at_completion) w) as Hro. rewrite Hpre in Hro. simpl in Hro. by subst. }
  exists t. split_and!; [done..|].
  apply action_bind_Ok in Hrest as (at_ & w4 & _ & Hrest).
  apply action_bind_Ok in Hrest as (t' & w5 & Hm & _).
  by apply on_task_Ok in Hm as [_ [Hal _]%mutation_Ok].
Qed.

(** The triggers agree with a checked operation. *)
Lemma checked_triggers request t at_ w :
  keyed (db w) → tasks (db w) !! lr_taskId request = Some t →
  Task.projectId t = lr_projectId request →
  (lr_operation request ∈ [start; complete] → prerequisite_check request w = (Ok tt, w)) →
  let t' := Task.with_status t (operation_to (lr_operation request)) at_ in
  completion_trigger t t' (db w) = false ∧
  (start_fires t t' = true → start_refuses t' (db w) = false).
Proof.
  intros Hk Ht Hp Hpre t'. unfold completion_trigger, start_refuses. simpl.
  rewrite (Hk _ _ Ht), Hp. split.
  - case_bool_decide as Hc; [|done]. assert (lr_operation request = complete) as Hop
      by (destruct (lr_operation request); done).
    unfold prerequisite_check in Hpre. rewrite Hop in Hpre. simpl in Hpre.
    rewrite (checked_prerequisites Dependency.at_completion); [apply andb_false_r|done| |].
    + apply Hpre. right. by left.
    + intros s ->%Dependency.satisfied_completion. by left.
  - intros _. case_bool_decide as Hc; [|done]. assert (lr_operation request = start) as Hop
      by (destruct (lr_operation request); done).
    unfold prerequisite_check in Hpre. rewrite Hop in Hpre. simpl in Hpre.
    rewrite (checked_prerequisites Dependency.at_start); [done|done| |].
    + apply Hpre. by left.
    + intros [] Hs; try discriminate Hs; apply includes_spec; reflexivity.
Qed.

Lemma perform_succeeds request w t :
  store_ok (db w) → fresh_world w →
  is_ok (resolveReason (lr_operation request) (lr_reason request)) = true →
  (lr_operation request ∈ [start; complete] → prerequisite_check request w = (Ok tt, w)) →
  tasks (db w) !! lr_taskId request = Some t → Task.projectId t = lr_projectId request →
  lr_projectId request ∈ projects (db w) →
  Task.isTaskTransitionAllowed (Task.status t) (operation_to (lr_operation request)) = true →
  is_ok (perform true request w).1 = true.
Proof.
  intros Hok Hf [reason Hr]%is_ok_spec Hpre Ht Htp Hp Hal. pose proof (ok_keyed _ Hok) as Hk.
  unfold perform. unfold mbind, action_bind, lift. rewrite Hr.
  rewrite (proj2 (require_project_task_Ok _ _ w t w)) by done.
  assert ((if true && includes (lr_operation request) [start; complete]
    then assertTaskPrerequisitesComplete (lr_projectId request) (lr_taskId request)
           (if bool_decide (lr_operation request = start) then Dependency.at_start
            else Dependency.at_completion)
    else mret tt) w = (Ok tt, w)) as ->.
  { simpl. destruct (includes (lr_operation request) [start; complete]) eqn:Hi; [|done].
    by apply Hpre, includes_spec. }
  unfold now, on_task. destruct (lifecycleMutations _ _ t) as [r t'] eqn:Hm.
  assert (lifecycleMutations (lr_operation request) (Some (clock_at (ticks w))) t =
    (Ok tt, Task.with_status t (operation_to (lr_operation request)) (Some (clock_at (ticks w)))))
    as Hm' by by apply mutation_Ok.
  rewrite Hm in Hm'. injection Hm' as -> ->. simpl.
  destruct (checked_triggers request t (Some (clock_at (ticks w))) w) as [Hct Hst]; try done.
  set (w1 := {| db := db w; active := active w; ticks := S (ticks w); generated := generated w |}).
  destruct (save_existing_succeeds t (Task.with_status t (operation_to (lr_operation request))
    (Some (clock_at (ticks w)))) w1) as (d & -> & Ha & Hpr); try done.
  { simpl. by rewrite (Hk _ _ Ht). }
  assert (is_ok (record_audit_event (task_event "task.status_changed" (lr_actorId request)
    (Task.projectId t) (Task.id t) (status_payload (lr_operation request) (Task.status t)
      (operation_to (lr_operation request)) reason)) (with_db w1 d)).1 = true) as Hrec.
  { eapply record_audit_event_succeeds; [done|done|..].
    - simpl. by rewrite Hpr, Htp.
    - simpl. rewrite Ha. by apply Hf. }
  unfold Task.snapshot. simpl.
  destruct (record_audit_event _ _) as [[]]; [done|discriminate Hrec].
Qed.

(** C6: a lifecycle operation succeeds exactly when the introspection report
    lists it for the task, its rationale is acceptable, and, to start or to
    complete, the prerequisite check passes.  In particular nothing the report
    offers is refused by the aggregate, and the storage triggers never refuse
    what the service has checked. *)
Theorem lifecycle_succeeds_exactly request w :
  store_ok (db w) → fresh_world w → active w = false →
  is_ok (apply true request w).1 = true ↔
  is_ok (resolveReason (lr_operation request) (lr_reason request)) = true ∧
  (∃ report, transitions (lr_projectId request) (lr_taskId request) w = (Ok report, w) ∧
     lr_operation request ∈ at_operation <$> tr_allowed report) ∧
  (lr_operation request ∈ [start; complete] → prerequisite_check request w = (Ok tt, w)).
Proof.
  intros Hok Hf Hact.
  assert (∀ u, prerequisite_check request (opened w) = (Ok u, opened w) ↔
               prerequisite_check request w = (Ok u, w)) as Hopen.
  { intros u. unfold prerequisite_check. rewrite !check_reads. simpl. split; by intros [= ->]. }
  assert (is_ok (apply true request w).1 = is_ok (perform true request (opened w)).1) as ->.
  { unfold apply, run. rewrite Hact. fold (opened w). by destruct (perform _ _ _) as [[]]. }
  split.
  - destruct (perform true request (opened w)) as [[st|e] w'] eqn:Hperf; [|done]. intros _.
    apply perform_accepts in Hperf as (Hr & Hpre & t & Ht & Htp & Hp & Hal).
    split; [done|]. split; [|intros Hin; by apply Hopen, Hpre].
    destruct (transitions_succeeds _ _ w _ Hp Ht Htp) as [report Hrep]. exists report.
    split; [done|]. apply transitions_report in Hrep as (_ & u & Hu & _ & _ & Hops).
    apply Hops. simpl in Ht. congruence.
  - intros (Hr & (report & Hrep & Hop) & Hpre).
    apply transitions_report in Hrep as (_ & t & Ht & Htp & Hp & Hops).
    eapply perform_succeeds; try done; [|by apply Hops]. intros Hin. by apply Hopen, Hpre.
Qed.

(** * Linking a prerequisite *)

Lemma cycle_trigger_false a b d :
  ¬ rtc (Dependency.depends (all_edges d)) b a → cycle_trigger a b d = false.
Proof.
  intros Hn. unfold cycle_trigger. apply negb_false_iff, bool_decide_eq_true.
  set (edges := all_edges d) in *. set (queue := default [] _).
  assert (length queue ≤ length edges) as Hq.
  { unfold queue, Dependency.outgoing. rewrite index_lookup, length_fmap.
    etrans; [apply length_filter|]. by rewrite length_fmap. }
  assert (length (Dependency.unexpanded ∅ edges) ≤ length edges) as Hu by apply length_filter.
  destruct (Dependency.search_terminates (2 * Dependency.search_fuel edges) b edges ∅ queue)
    as [[] Hs]; [unfold Dependency.search_fuel; lia| |done].
  apply Dependency.search_sound in Hs as (x & Hx & Hr). destruct Hn.
  apply Dependency.outgoing_elem_of in Hx. by eapply rtc_r.
Qed.

Lemma project_edges_includes p a b d :
  store_ok d → (∃ t, tasks d !! a = Some t ∧ Task.projectId t = p) →
  includes {| Dependency.taskId := a; Dependency.dependsOnTaskId := b |} (project_edges p d) = true
  ↔ is_Some (dependencies d !! (a, b)).
Proof.
  intros Hok (t & Ht & Hp). rewrite includes_spec, project_edges_elem. split.
  - intros (row & Hrow & _). by exists row.
  - intros [row Hrow]. exists row. split; [done|].
    pose proof (ok_edge _ Hok _ _ _ Hrow) as (u & ? & ? & _ & ? & _)%same_project_spec. congruence.
Qed.

Lemma rtc_project_edges p d a b :
  rtc (Dependency.depends (project_edges p d)) a b → rtc (Dependency.depends (all_edges d)) a b.
Proof.
  apply rtc_subrel. intros x y (row & Hrow & _)%project_edges_elem. apply all_edges_depends.
  by exists row.
Qed.

Lemma editable_history p k w :
  editable p k (db w) → hasExecutionHistory p k w = (Ok false, w).
Proof.
  intros (t & _ & _ & _ & Hn). unfold hasExecutionHistory, read. do 2 f_equal.
  destruct (history (db w) !! k) as [row|] eqn:Hrow; [|done].
  apply bool_decide_eq_false. by apply Hn.
Qed.

Lemma assertEditable_succeeds p k w :
  p ∈ projects (db w) → editable p k (db w) → assertEditable p k w = (Ok tt, w).
Proof.
  intros Hp Hed. pose proof Hed as (t & Ht & Htp & Hs & _). unfold assertEditable.
  unfold mbind, action_bind. rewrite (proj2 (require_dependency_task_Ok p k w t w)) by done.
  unfold refuse_if, lift. apply includes_spec in Hs. rewrite Hs. cbn -[hasExecutionHistory].
  by rewrite editable_history.
Qed.

(** What the transaction of [link] checks before it writes. *)
Definition link_accepted (input : dependency_input) (d : database) : Prop :=
  di_projectId input ∈ projects d ∧ editable (di_projectId input) (di_taskId input) d ∧
  (∃ t, tasks d !! di_dependsOnTaskId input = Some t ∧ Task.projectId t = di_projectId input) ∧
  (is_Some (dependencies d !! (di_taskId input, di_dependsOnTaskId input)) ∨
   ¬ rtc (Dependency.depends (all_edges d)) (di_dependsOnTaskId input) (di_taskId input)).

Lemma link_dependency_succeeds p a b at_ w :
  editable p a (db w) → same_project p a b (db w) = true →
  dependencies (db w) !! (a, b) = None → ¬ rtc (Dependency.depends (all_edges (db w))) b a →
  link_dependency p a b at_ w = (Ok true, with_db w (set_dependencies
    <[(a, b) := {| dep_projectId := p; dep_createdAt := at_ |}]> (db w))).
Proof.
  intros Hed Hs Hn Hr. unfold link_dependency, read, refuse_if, lift, mbind, action_bind.
  rewrite Hs. cbn -[cycle_trigger hasExecutionHistory].
  rewrite cycle_trigger_false by done. cbn -[hasExecutionHistory].
  rewrite editable_history by done. simpl.
  rewrite bool_decide_eq_false_2 by (intros ->; apply Hr, rtc_refl). simpl. by rewrite Hn.
Qed.

Lemma link_accepts input w r w' :
  store_ok (db w) → link input w = (Ok r, w') → link_accepted input (db w).
Proof.
  intros Hok (_ & w1 & Hrun & _)%run_Ok. change (db w) with (db (opened w)) in Hok |- *.
  revert Hok Hrun. generalize (opened w). clear w. intros w Hok.
  intros ([] & w2 & Hed & Hrest)%action_bind_Ok.
  apply assertEditable_Ok in Hed as (-> & Hp & Hed).
  apply action_bind_Ok in Hrest as (u & w3 & Hu & Hrest).
  apply require_dependency_task_Ok in Hu as (-> & _ & Hu & Hup).
  apply action_bind_Ok in Hrest as (edges & w4 & [= <- <-] & Hrest).
  pose proof Hed as (t & Ht & Htp & _). split_and!; [done..|by eauto|].
  destruct (includes _ _) eqn:Hi.
  - left. eapply project_edges_includes; eauto.
  - apply action_bind_Ok in Hrest as ([] & w5 & [= Hac <-] & _).
    apply Dependency.assertAcyclicDependency_Ok in Hac. right. intros Hr. apply Hac.
    eapply project_path; [apply Hok|done|done|done].
Qed.

Lemma link_succeeds input w :
  store_ok (db w) → fresh_world w → active w = false → link_accepted input (db w) →
  is_ok (link input w).1 = true.
Proof.
  intros Hok Hf Hact (Hp & Hed & (u & Hu & Hup) & Hor). unfold link, run. rewrite Hact.
  fold (opened w). change (db w) with (db (opened w)) in *.
  change (fresh_world (opened w)) in Hf. revert Hok Hf Hp Hed Hu Hor. generalize (opened w).
  clear w Hact. intros w Hok Hf Hp Hed Hu Hor. pose proof Hed as (t & Ht & Htp & _).
  unfold mbind, action_bind. rewrite assertEditable_succeeds by done.
  rewrite (proj2 (require_dependency_task_Ok _ _ w u w)) by done.
  unfold list_dependencies, read. simpl. destruct (includes _ _) eqn:Hi; [done|].
  assert (dependencies (db w) !! (di_taskId input, di_dependsOnTaskId input) = None) as Hn.
  { rewrite <-not_true_iff_false, project_edges_includes in Hi by eauto.
    by apply eq_None_not_Some. }
  destruct Hor as [[? Hs]|Hr]; [congruence|]. unfold lift.
  rewrite (proj2 (Dependency.assertAcyclicDependency_Ok _ _ _)) by
    (intros Hr'; by apply Hr, (rtc_project_edges _ _ _ _ Hr')).
  simpl. rewrite link_dependency_succeeds; [|done|apply same_project_spec; eauto 10|done..].
  simpl.
  assert (is_ok (record_audit_event (task_event "task.dependency_linked" (di_actorId input)
    (di_projectId input) (di_taskId input) (dependency_payload (di_dependsOnTaskId input)))
    (with_db {| db := db w; active := active w; ticks := S (ticks w); generated := generated w |}
      (set_dependencies <[(di_taskId input, di_dependsOnTaskId input) :=
        {| dep_projectId := di_projectId input; dep_createdAt := Some (clock_at (ticks w)) |}]>
        (db w)))).1 = true) as Hrec.
  { eapply record_audit_event_succeeds; [done|done|done|]. by apply Hf. }
  destruct (record_audit_event _ _) as [[]]; [done|discriminate Hrec].
Qed.

(** A prerequisite is linked exactly when both tasks belong to the named
    project, the dependent task is still pending or blocked and has no
    execution history there, and the edge exists already or closes no cycle.
    In particular the service's search over the project's edges decides the
    same as the storage trigger's query over the whole table. *)
Theorem link_succeeds_exactly input w :
  store_ok (db w) → fresh_world w → active w = false →
  is_ok (link input w).1 = true ↔ link_accepted input (db w).
Proof.
  intros Hok Hf Hact. split; [|by apply link_succeeds].
  destruct (link input w) as [[r|e] w'] eqn:Hl; [|done]. intros _. by eapply link_accepts.
Qed.

End guards.

(** * Recording a completion *)

(** The canonical form of the attestation: its members in code-unit order. *)
Definition normal_attestation (projectId taskId : string) (from : Task.TaskStatus)
    (reason : string) (ev : RequirementProgress) : cjson :=
  CObj [("evidence", CObj [("open", CNum (NInt (rp_open ev)));
          ("terminal", CNum (NInt (rp_terminal ev))); ("total", CNum (NInt (rp_total ev)));
          ("verified", CNum (NInt (rp_verified ev)))]);
        ("from", CStr (Task.status_name from)); ("kind", CStr "task_completion_record");
        ("projectId", CStr projectId); ("reason", CStr reason); ("taskId", CStr taskId);
        ("to", CStr "completed")].

Lemma attestation_normal p k from reason ev :
  normalizeCanonicalJson (embed 0 (completion_attestation p k from reason ev)) =
  Ok (normal_attestation p k from reason ev).
Proof. vm_compute. reflexivity. Qed.

Lemma status_name_inj s s' : Task.status_name s = Task.status_name s' → s = s'.
Proof. by destruct s, s'. Qed.

Section approval.
  Context `{Environment} `{ShowNumberLaws} (sha256 : string → string).
  (** No two hashed texts collide. *)
  Hypothesis collision_free : Inj eq eq sha256.

Lemma completionPlanHash_inj p k st reason ev p' k' st' reason' ev' h :
  completionPlanHash sha256 p k st reason ev = Ok h →
  completionPlanHash sha256 p' k' st' reason' ev' = Ok h →
  p = p' ∧ k = k' ∧ st = st' ∧ reason = reason' ∧ ev = ev'.
Proof.
  unfold completionPlanHash, canonicalStringify. rewrite !attestation_normal. simpl.
  intros [= <-] [= Heq]. apply (inj sha256) in Heq.
  change (stringify (normal_attestation p' k' st' reason' ev') =
          stringify (normal_attestation p k st reason ev)) in Heq.
  apply (f_equal (λ s, s +:+ "")) in Heq.
  apply stringify_inj in Heq as [Heq _]; [|done..].
  injection Heq as Ho Hte Hto Hv Hst Hp Hr Hk. apply status_name_inj in Hst.
  split_and!; [done..|]. destruct ev, ev'; simpl in *. congruence.
Qed.

Lemma record_plan input approved w r w' :
  record sha256 input approved w = (Ok r, w') →
  ∃ p t, buildPlan sha256 input (opened w) = (Ok (p, t), opened w) ∧
    cp_planHash p = Some approved ∧ cr_planHash r = approved.
Proof.
  intros (_ & w1 & Hrun & _)%run_Ok.
  apply action_bind_Ok in Hrun as ([p t] & w2 & Hb & Hrest).
  pose proof Hb as (-> & _)%buildPlan_Ok. simpl in Hrest.
  destruct (cp_planHash p) as [h|] eqn:Hh; [|done].
  apply refuse_if_bind_Ok in Hrest as [->%negb_false_iff%bool_decide_eq_true Hrest].
  exists p, t. split_and!; [done..|].
  apply action_bind_Ok in Hrest as (at_ & w3 & _ & Hrest).
  apply action_bind_Ok in Hrest as (t' & w4 & _ & Hrest).
  apply action_bind_Ok in Hrest as ([] & w5 & _ & Hrest).
  by apply action_bind_Ok in Hrest as (i & w6 & _ & [= <- _]).
Qed.

(** An approved plan hash authorises one attestation only.  If a plan was
    shown with hash [h] in one state, and a completion is later recorded
    against [h] in any state and for any input, then the project, the task, the
    status it is corrected from, the rationale and the requirement evidence
    are at that moment exactly those of the plan.  Assumed: SHA-256 does not
    collide, and the laws of [Number::toString]. *)
Theorem recorded_completion_matches_plan input w p w1 h input' v r v' :
  plan sha256 input w = (Ok p, w1) → cp_planHash p = Some h →
  record sha256 input' h v = (Ok r, v') →
  ci_projectId input' = cp_projectId p ∧
  Task.normalizeTaskReason (ci_reason input') "completion record reason" = Ok (cp_reason p) ∧
  evidence_of (ci_projectId input') (ci_taskId input') (db v) = cp_evidence p ∧
  ∃ t, tasks (db v) !! ci_taskId input' = Some t ∧ Task.id t = cp_taskId p ∧
       Task.status t = cp_status p.
Proof.
  unfold plan. intros ([q u] & w2 & Hb & [= <- <-])%action_bind_Ok Hh Hrec. simpl in Hh |- *.
  apply buildPlan_Ok in Hb as (_ & _ & _ & _ & _ & _ & _ & _ & Hhash).
  destruct (Hhash h Hh) as [_ Hq].
  apply record_plan in Hrec as (p' & t & Hb & Hp' & _).
  apply buildPlan_Ok in Hb as (_ & Ht & Htp & Hpp & Hpt & Hps & Hev & Hreason & Hhash').
  destruct (Hhash' h Hp') as [_ Hq'].
  destruct (completionPlanHash_inj _ _ _ _ _ _ _ _ _ _ _ Hq Hq') as (-> & -> & -> & -> & ->).
  simpl in *. rewrite Hev. split_and!; [by rewrite Hpp|done|done|]. exists t. done.
Qed.

End approval.

(** * Samples and witnesses *)

#[local] Existing Instances sample_environment decimal_number.

Abbreviation sample_world l :=
  (@serve_all sample_environment decimal_number (λ s, s) l (start_world {["p"]} ∅)).

Lemma sample_world_ok l : store_ok (db (sample_world l)) ∧ fresh_world (sample_world l).
Proof.
  apply (@serve_all_ok sample_environment sample_environment_laws); [apply start_ok|apply start_fresh].
Qed.

Definition sample_start : TaskLifecycleRequest :=
  {| lr_operation := start; lr_projectId := "p"; lr_taskId := "id-0"; lr_actorId := "ann";
     lr_reason := None |}.

Lemma lifecycle_succeeds_exactly_witness :
  let w := sample_world (firstn 3 sample_requests) in
  active w = false ∧ is_ok (apply true sample_start w).1 = true ∧
  is_ok (resolveReason start None) = true ∧
  ∃ report, transitions "p" "id-0" w = (Ok report, w) ∧ start ∈ at_operation <$> tr_allowed report.
Proof.
  intros w. destruct (sample_world_ok (firstn 3 sample_requests)) as [Hok Hf].
  assert (active w = false) as Hact by by vm_compute.
  assert (is_ok (apply true sample_start w).1 = true) as Hs by by vm_compute.
  split; [exact Hact|]. split; [exact Hs|].
  destruct (proj1 (lifecycle_succeeds_exactly sample_start w Hok Hf Hact) Hs) as (Hr & Hrep & _).
  split; [exact Hr|exact Hrep].
Defined.

Definition sample_link : dependency_input :=
  {| di_projectId := "p"; di_taskId := "id-1"; di_dependsOnTaskId := "id-0"; di_actorId := "ann" |}.

Lemma link_succeeds_exactly_witness :
  let w := sample_world (firstn 2 sample_requests) in
  is_ok (link sample_link w).1 = true ∧ link_accepted sample_link (db w).
Proof.
  intros w. destruct (sample_world_ok (firstn 2 sample_requests)) as [Hok Hf].
  assert (active w = false) as Hact by by vm_compute.
  assert (is_ok (link sample_link w).1 = true) as Hs by by vm_compute.
  split; [exact Hs|]. exact (proj1 (link_succeeds_exactly sample_link w Hok Hf Hact) Hs).
Defined.

Definition sample_completion (reason : string) : completion_input :=
  {| ci_projectId := "p"; ci_taskId := "id-0"; ci_actorId := "ann"; ci_reason := reason |}.

Lemma identity_collision_free : Inj eq eq (λ s : string, s).
Proof. by intros s t. Qed.

(** The plan is approved with another spelling of the same rationale. *)
Lemma recorded_completion_matches_plan_witness :
  let w := sample_world (firstn 1 sample_requests) in
  ∃ p w1 h r w2,
    plan (λ s, s) (sample_completion "done elsewhere") w = (Ok p, w1) ∧ cp_planHash p = Some h ∧
    record (λ s, s) (sample_completion " done elsewhere ") h w = (Ok r, w2) ∧
    ∃ t, tasks (db w) !! "id-0" = Some t ∧ Task.status t = cp_status p.
Proof.
  intros w. destruct (plan (λ s, s) (sample_completion "done elsewhere") w) as [[p|e] w1] eqn:Hp;
    [|by vm_compute in Hp].
  destruct (cp_planHash p) as [h|] eqn:Hh; [|by vm_compute in Hp; injection Hp as <- <-].
  destruct (record (λ s, s) (sample_completion " done elsewhere ") h w) as [[r|e] w2] eqn:Hr.
  2: { vm_compute in Hp. injection Hp as <- <-. simpl in Hh. injection Hh as <-.
       by vm_compute in Hr. }
  exists p, w1, h, r, w2. split_and!; [done..|].
  destruct (recorded_completion_matches_plan (λ s, s) identity_collision_free _ _ _ _ _ _ _ _ _
    Hp Hh Hr) as (_ & _ & _ & t & Ht & _ & Hs).
  exists t. split; [exact Ht|exact Hs].
Defined.

End TaskGuards.
