(* ===== verification/PipelineCommands.v ===== *)
(** What a request that moves a pipeline run commits: one transition of the
    aggregate, made by whoever may make it, stored whole and settled with the
    run's task, or nothing. *)
From S2P Require Import Prelude Errors TaskModel DependencyGraph PipelineModel Json AgentModel.
From S2P Require Import Store RunStore TaskServices TaskInvariants TaskRefinement RunHistory.
From S2P Require Import TaskHistory TaskGuards OutboxModel PipelineStore RunServices PipelineServices.
Import TaskInvariants TaskRefinement Canonical PipelineRun RunStore PipelineStore Pipelines.

Module PipelineCommands.

Create HintDb quiet.

(** * Commands that leave the work alone *)

(** The same tasks, prerequisites and runs; the trail, the outbox and the
    overrides may have grown. *)
Record same_work (d d' : tables) : Prop := {
  sw_tasks : Store.tasks (base d') = Store.tasks (base d);
  sw_dependencies : Store.dependencies (base d') = Store.dependencies (base d);
  sw_pipelines : pipelines d' = pipelines d;
  sw_runs : runs d' = runs d;
  sw_agents : agents d' = agents d ∧ roles d' = roles d ∧ locks d' = locks d ∧
    manifests d' = manifests d
}.

#[export] Instance same_work_refl : Reflexive same_work.
Proof. by constructor. Qed.

#[export] Instance same_work_trans : Transitive same_work.
Proof.
  intros d1 d2 d3 [T1 D1 P1 R1 (A1 & O1 & L1 & M1)] [T2 D2 P2 R2 (A2 & O2 & L2 & M2)].
  constructor; try (by etrans). by rewrite A2, O2, L2, M2.
Qed.

Definition quiet {A} (m : command A) : Prop :=
  ∀ w a w', m w = (Ok a, w') → same_work (db w) (db w').

Lemma quiet_then {A B} (m : command A) (k : A → command B) :
  quiet m → (∀ a, quiet (k a)) → quiet (m ≫= k).
Proof.
  intros Hm Hk w b w' (a & w1 & H1 & H2)%action_bind_Ok. etrans; [by eapply Hm|by eapply Hk].
Qed.

Lemma quiet_keeps {A} (m : command A) : RunServices.keeps m → quiet m.
Proof. intros Hm w a w' H. by rewrite (RunServices.keeps_Ok _ _ _ _ Hm H). Qed.

Section services.
  Context `{ShowNumber} `{Store.Environment} `{Meanwhile} (c : Composition).

Lemma append_event_quiet input : quiet (on_base (TaskServices.record_audit_event input)).
Proof.
  intros w a w' Hr. unfold on_base in Hr.
  destruct (TaskServices.record_audit_event input (store_world w)) as [r s] eqn:Hs.
  injection Hr as -> <-.
  unfold TaskServices.record_audit_event in Hs.
  apply action_bind_Ok in Hs as (i & w1 & [= <- <-] & Hs).
  apply action_bind_Ok in Hs as (at_ & w2 & [= <- <-] & Hs).
  apply action_bind_Ok in Hs as (e & w3 & [= He <-] & Hs).
  apply action_bind_Ok in Hs as ([] & w4 & Happ & [= _ <-]).
  apply TaskRefinement.append_event_Ok in Happ as [-> _]. by constructor.
Qed.

Lemma event_quiet p type actor payload : quiet (event p type actor payload).
Proof. apply quiet_then; [apply append_event_quiet|]. intros _. by apply quiet_keeps. Qed.

Lemma stage_id_quiet p : quiet (stage_id_of p).
Proof. apply quiet_keeps. unfold stage_id_of. by case_match. Qed.

Lemma current_stage_id_quiet p : quiet (current_stage_id p).
Proof. apply quiet_keeps, RunServices.keeps_bind; [done|]. by intros []. Qed.

Lemma append_quiet i : quiet (Outbox.append i).
Proof. intros w b w' Ha. apply RunServices.append_Ok in Ha as ->. by constructor. Qed.

Lemma enqueue_quiet p : quiet (enqueueCurrentStage c p).
Proof.
  apply quiet_then; [by apply quiet_keeps|]. intros [s|]; [|by apply quiet_keeps].
  case_match; [|by apply quiet_keeps]. apply quiet_then; [by apply quiet_keeps|]. intros at_.
  apply quiet_then; [apply append_quiet|]. intros _. by apply quiet_keeps.
Qed.

Lemma afterAdvance_quiet p q actor : quiet (afterAdvance c p q actor).
Proof.
  apply quiet_then; [apply stage_id_quiet|]. intros from.
  apply quiet_then; [apply event_quiet|]. intros _.
  apply quiet_then; [|intros _; case_match; try apply enqueue_quiet; by apply quiet_keeps].
  case_match; try apply event_quiet;
    (apply quiet_then; [apply stage_id_quiet|]; intros; apply event_quiet).
Qed.

Lemma appendOverride_quiet r : quiet (appendOverride r).
Proof.
  intros w a w' Ha. unfold appendOverride in Ha. apply lift_bind_Ok in Ha as (z & _ & Ha).
  rewrite RunStore.read_bind in Ha. rewrite !refuse_if_bind_Ok in Ha.
  destruct Ha as (_ & _ & Ha). injection Ha as _ <-. by constructor.
Qed.

Lemma resumption_quiet input who p q : quiet (resumption_event c input who p q).
Proof.
  unfold resumption_event. case_match; [|by apply quiet_keeps].
  apply quiet_then; [destruct (guarded c); [|by apply quiet_keeps]|].
  - apply quiet_keeps, RunServices.keeps_on_base, Store.db_readonly_read.
  - intros edges. apply quiet_then; [apply stage_id_quiet|]. intros. apply event_quiet.
Qed.

End services.

(** * What a save stores *)

(** The statements of a save, when every stage keeps its place: the rows
    become the stages that were saved. *)
Lemma update_stages_exact runId projectId w w' p pre os ns :
  pipelines (db w) !! runId = Some p → stages p = pre ++ os → NoDup (sr_id <$> stages p) →
  Forall2 (λ o n, updated_stage o n = n) os ns →
  update_stages runId projectId ns w = (Ok tt, w') →
  db w' = set_pipelines <[runId := with_stages p (pre ++ ns)]> (db w).
Proof.
  intros Hp Hl Hnd Hs. revert w p pre Hp Hl Hnd.
  induction Hs as [|o n os ns Hon Hs IH]; intros w p pre Hp Hl Hnd Hu.
  - injection Hu as <-. rewrite <- Hl, with_stages_same. unfold set_pipelines.
    rewrite insert_id by done. by destruct (db w).
  - simpl in Hu. apply action_bind_Ok in Hu as ([] & w1 & Hu1 & Hu).
    unfold update_stage in Hu1. apply lift_bind_Ok in Hu1 as ([] & _ & Hu1).
    rewrite RunStore.read_bind in Hu1.
    assert (sr_id n = sr_id o) as Hid by by rewrite <- Hon.
    assert ((pipelines (db w) !! runId ≫= λ p, stage_named (sr_id n) (stages p)) = Some o) as Hn.
    { rewrite Hp. simpl. rewrite Hid. apply stage_named_known; [done|]. rewrite Hl. set_solver. }
    rewrite Hn, Hon, !refuse_if_bind_Ok in Hu1. destruct Hu1 as (_ & _ & _ & _ & _ & Hu1).
    injection Hu1 as <-. rewrite Hl in Hnd.
    eapply (IH _ (with_stages p (pre ++ n :: os)) (pre ++ [n])) in Hu.
    + rewrite Hu. unfold set_pipelines. simpl. erewrite alter_known by exact Hp.
      rewrite insert_insert_eq, <- app_assoc. by destruct p.
    + simpl. erewrite alter_known by exact Hp.
      by rewrite lookup_insert_eq, Hl, (put_stage_app _ _ _ _ Hnd Hid).
    + simpl. by rewrite <- app_assoc.
    + simpl. rewrite fmap_app in Hnd |- *. simpl in *. by rewrite Hid.
Qed.

(** A save of a transition that answers [true] stored the transition. *)
Lemma save_exact p now c p' w w' :
  row_ok p → pipelines (db w) !! id p = Some p → transition p now c p' →
  save p' (version p) w = (Ok true, w') →
  db w' = set_pipelines <[id p := p']> (db w) ∧ row_ok p' ∧
  date_leb (updatedAt p) (updatedAt p') = true.
Proof.
  intros Hok Hp Ht Hs. unfold save in Hs. apply lift_bind_Ok in Hs as (z & Hz & Hs).
  destruct (transition_frame _ _ _ _ Ht) as (Ha & Hv & Hu & Hlen & _ & Hf).
  assert (now = Some z) as ->.
  { unfold snapshot in Hz. rewrite Hu in Hz. by destruct now; [injection Hz as ->|]. }
  apply lift_bind_Ok in Hs as (? & _ & Hs). apply lift_bind_Ok in Hs as (? & _ & Hs).
  pose proof (transition_stage_steps _ _ _ _ Hok Ht) as Hss.
  pose proof (transition_row_ok _ _ _ _ Hok Ht) as Hok'.
  pose proof (transition_updated _ _ _ _ Ht) as Hupd. injection Hf as Hid Hpid _ _ _ _ _ _ _.
  rewrite RunStore.read_bind in Hs. unfold snapshot in Hs. rewrite Hid, Hp in Hs.
  case_match; [|done]. apply refuse_if_bind_Ok in Hs as [(_ & _ & Hd)%run_not_refused Hs].
  rewrite write_bind in Hs. apply action_bind_Ok in Hs as ([] & w1 & Hs & [= <-]).
  eapply (update_stages_exact _ _ _ _ (updated_run p p') [] (stages p)) in Hs.
  - rewrite Hs. split; [|done]. unfold set_pipelines. simpl. rewrite insert_insert_eq.
    by rewrite Hupd.
  - simpl. by rewrite lookup_insert_eq.
  - done.
  - by destruct Hok.
  - eapply Forall2_impl; [exact Hss|]. by intros ? ? [].
Qed.

(** * What a command commits *)

(** The status in which a run that ended leaves its task. *)
Definition task_end (st : PipelineRunStatus) : Task.TaskStatus :=
  match st with run_completed => Task.completed | _ => Task.cancelled end.

(** Every prerequisite the project records for the task is completed. *)
Definition prerequisites_done (projectId taskId : string) (d : tables) : Prop :=
  ∀ b row t, Store.dependencies (base d) !! (taskId, b) = Some row →
    Store.dep_projectId row = projectId → Store.tasks (base d) !! b = Some t →
    Task.status t = Task.completed.

(** What becomes of the tasks when the run [p'] is stored: nothing while it is
    active; the end of its own task, which was open to it, when it ended. *)
Definition task_settled (p' : Run) (d d' : tables) : Prop :=
  match status p' with
  | run_active => Store.tasks (base d') = Store.tasks (base d)
  | st => ∃ t at_,
      Store.tasks (base d) !! taskId p' = Some t ∧ Task.projectId t = projectId p' ∧
      Task.isTaskTransitionAllowed (Task.status t) (task_end st) = true ∧
      Store.tasks (base d') =
        <[taskId p' := Task.with_status t (task_end st) at_]> (Store.tasks (base d)) ∧
      (st = run_completed → prerequisites_done (projectId p') (taskId p') d)
  end.

Record settled (p' : Run) (d d' : tables) : Prop := {
  st_pipelines : pipelines d' = <[id p' := p']> (pipelines d);
  st_task : task_settled p' d d';
  st_dependencies : Store.dependencies (base d') = Store.dependencies (base d);
  st_runs : runs d' = runs d;
  st_rest : agents d' = agents d ∧ roles d' = roles d ∧ locks d' = locks d ∧
    manifests d' = manifests d
}.

Lemma settled_then p' d d1 d2 : settled p' d d1 → same_work d1 d2 → settled p' d d2.
Proof.
  intros [P T D R (A & O & L & M)] [T' D' P' R' (A' & O' & L' & M')]. constructor.
  - by etrans.
  - unfold task_settled in *. rewrite T'. exact T.
  - by etrans.
  - by etrans.
  - by rewrite A', O', L', M'.
Qed.

Lemma on_base_Ok {A} (m : Store.command A) w a w' :
  on_base m w = (Ok a, w') →
  ∃ s, m (store_world w) = (Ok a, s) ∧ db w' = set_base (λ _, Store.db s) (db w).
Proof.
  unfold on_base. destruct (m (store_world w)) as [r s]. intros [= -> <-]. by exists s.
Qed.

Lemma keyed_moved t to at_ d :
  keyed d → Store.tasks d !! Task.id t = Some t → keyed (moved t to at_ d).
Proof.
  intros Hk Ht k u. rewrite (proj1 (moved_fields _ _ _ _)).
  intros [[<- <-]|[_ Hu]]%lookup_insert_Some; [done|by apply Hk].
Qed.

Section commands.
  Context `{ShowNumber} `{Store.Environment} `{Meanwhile} (c : Composition).

Lemma complete_needs_prerequisites t at_ d :
  Store.tasks d !! Task.id t = Some t →
  Task.isTaskTransitionAllowed (Task.status t) Task.completed = true →
  Store.completion_trigger t (Task.with_status t Task.completed at_) d = false →
  ∀ b row u, Store.dependencies d !! (Task.id t, b) = Some row →
    Store.dep_projectId row = Task.projectId t → Store.tasks d !! b = Some u →
    Task.status u = Task.completed.
Proof.
  intros Ht Ha Hc b row u Hrow Hp Hu. unfold Store.completion_trigger in Hc. simpl in Hc.
  assert (includes (Task.status t) [Task.running; Task.waiting_review] = true) as Hi
    by by destruct (Task.status t).
  rewrite Hi in Hc. simpl in Hc. eapply TaskGuards.prerequisite_outside_false in Hc; [|done..].
  by apply list_elem_of_singleton in Hc.
Qed.

(** The task is loaded, moved and saved in one go. *)
Lemma save_end_Ok t to at_ w w' :
  keyed (base (db w)) → Store.tasks (base (db w)) !! Task.id t = Some t →
  Task.isTaskTransitionAllowed (Task.status t) to = true →
  on_base (Store.save_task (Task.with_status t to at_)) w = (Ok tt, w') →
  db w' = set_base (λ _, moved t to at_ (base (db w))) (db w) ∧
  (to = Task.completed → prerequisites_done (Task.projectId t) (Task.id t) (db w)).
Proof.
  intros Hk Ht Ha (s & Hs & Hdb)%on_base_Ok. rewrite Hdb.
  assert (Store.tasks (Store.db (store_world w)) !! Task.id t = Some t) as Ht' by done.
  pose proof Hs as Hs'. apply (save_moved_Ok _ _ _ _ _ Ht') in Hs' as ->. split; [done|].
  intros ->. apply (save_existing_Ok t) in Hs as (Hc & _); [|done|by apply updated_task_same].
  exact (complete_needs_prerequisites t at_ (base (db w)) Ht Ha Hc).
Qed.

Lemma sync_Ok p w w' :
  keyed (base (db w)) → syncTaskTerminal c p w = (Ok tt, w') →
  task_settled p (db w) (db w') ∧
  db w' = set_base (λ _, base (db w')) (db w) ∧
  Store.dependencies (base (db w')) = Store.dependencies (base (db w)).
Proof.
  intros Hk Hs. unfold syncTaskTerminal in Hs. unfold task_settled.
  destruct (status p) eqn:Hst; [injection Hs as <-; by destruct (db w)|..].
  all: apply action_bind_Ok in Hs as (found & w1 & Hf & Hs);
    apply on_base_Ok in Hf as (s & [= Hf <-] & Hdb); simpl in Hf, Hdb.
  all: assert (db w1 = db w) as E by (rewrite Hdb; by destruct (db w)); clear Hdb.
  all: apply action_bind_Ok in Hs as (t & w2 & Ht & Hs);
    destruct found as [t'|]; [|done]; case_bool_decide as Hp; [|done]; injection Ht as <- <-.
  all: pose proof (Hk _ _ Hf) as Hid.
  all: apply action_bind_Ok in Hs as (moved & w3 & Hm & Hs).
  - apply action_bind_Ok in Hm as ([] & w4 & Hc & Hm).
    assert (db w4 = db w1) as E4.
    { destruct (guarded c); [|by injection Hc as <-]. eapply RunServices.keeps_Ok, Hc.
      apply RunServices.keeps_on_base, RunServices.prerequisites_readonly. }
    apply action_bind_Ok in Hm as (at_ & w5 & Hn & Hm). injection Hn as <- <-.
    apply on_base_Ok in Hm as (s & (-> & [Ha ->]%Task.transition_Ok)%on_task_Ok & Hdb).
    simpl in Hdb. assert (db w3 = db w) as E3 by (rewrite Hdb, <- E, <- E4; by destruct (db w4)).
    apply save_end_Ok in Hs as [Hd Hpre]; [|by rewrite E3|by rewrite E3, Hid|done].
    rewrite E3 in Hd, Hpre. rewrite Hd. simpl.
    destruct (moved_fields t' Task.completed (Some (Store.clock_at (ticks w4))) (base (db w)))
      as (Htasks & _ & Hdeps & _).
    split; [|split; [by destruct (db w)|done]].
    exists t', (Some (Store.clock_at (ticks w4))). split_and!; [done|done|done| |].
    + by rewrite Hid.
    + intros _. rewrite <- Hp, <- Hid. by apply Hpre.
  - apply action_bind_Ok in Hm as (at_ & w5 & Hn & Hm). injection Hn as <- <-.
    apply on_base_Ok in Hm as (s & (-> & [Ha ->]%Task.transition_Ok)%on_task_Ok & Hdb).
    simpl in Hdb. assert (db w3 = db w) as E3 by (rewrite Hdb, <- E; by destruct (db w1)).
    apply save_end_Ok in Hs as [Hd _]; [|by rewrite E3|by rewrite E3, Hid|done].
    rewrite E3 in Hd. rewrite Hd. simpl.
    destruct (moved_fields t' Task.cancelled (Some (Store.clock_at (ticks w1))) (base (db w)))
      as (Htasks & _ & Hdeps & _).
    split; [|split; [by destruct (db w)|done]].
    exists t', (Some (Store.clock_at (ticks w1))). split_and!; [done|done|done| |done].
    by rewrite Hid.
Qed.

End commands.

(** What holds of the stored runs and tasks. *)
Record rows_ok (d : tables) : Prop := {
  rk_run i p : pipelines d !! i = Some p → id p = i ∧ row_ok p;
  rk_keyed : keyed (base d)
}.

(** The operator's commands name a run of their project. *)
Definition by_operator (input : command_input) (p : Run) : Prop :=
  ci_principal input = localOperatorPrincipal ∧ id p = ci_pipelineRunId input ∧
  projectId p = ci_projectId input.

(** The agent run [r] may complete the current stage of [p]: it is bound to it,
    its agent is the assigned one and still has the role of the stage. *)
Record may_complete (input : completion_input) (r : AgentRun.Props) (p : Run) (d : tables)
    : Prop := {
  mc_bound : AgentRun.pipelineRunId r = Some (id p) ∧ AgentRun.taskId r = taskId p ∧
    projectId p = co_projectId input;
  mc_status : AgentRun.status r ∈ [AgentRun.completed; AgentRun.running; AgentRun.reviewing];
  mc_stage : ∃ s, (currentStage p).1 = Ok (Some s) ∧ sr_status s = stage_active ∧
    AgentRun.pipelineStageRunId r = Some (sr_id s) ∧
    sr_assignedAgentId s = Some (AgentRun.agentId r) ∧
    ∃ a stored role, agents d !! AgentRun.agentId r = Some a ∧
      ag_projectId a = co_projectId input ∧ roles d !! ag_roleId a = Some stored ∧
      restoreRole stored = Ok role ∧ Role.key role = sr_roleId s
}.

(** The call of the aggregate a request asks for, of the run [p]; [d0] is what
    the request read before its transaction, [d] what the transaction finds. *)
Definition asks (r : pipeline_request) (d0 d : tables) (p : Run) (x : call) : Prop :=
  match r with
  | RAssign input agentId =>
      by_operator input p ∧ ∃ a stored role, agents d0 !! agentId = Some a ∧
        ag_projectId a = ci_projectId input ∧ ag_enabled a = true ∧
        roles d0 !! ag_roleId a = Some stored ∧ restoreRole stored = Ok role ∧
        x = CAssign agentId (Role.key role)
  | RComplete input =>
      ∃ row v, runs d0 !! co_agentRunId input = Some row ∧
        run_of_row (co_agentRunId input) row = Ok v ∧ may_complete input v p d ∧
        x = CCompleteStage (AgentRun.agentId v)
  | RApprove input rationale =>
      by_operator input p ∧ x = CApproveStage (op_id localOperatorPrincipal) rationale
  | RReject input rationale =>
      by_operator input p ∧ x = CRejectStage (op_id localOperatorPrincipal) rationale
  | ROverride input reason =>
      by_operator input p ∧ ∃ oid, x = COverride oid (op_id localOperatorPrincipal) reason
  | RCancel input => by_operator input p ∧ x = CCancel (op_id localOperatorPrincipal)
  end.

Section moves.
  Context `{ShowNumber} `{Store.Environment} `{Meanwhile} (c : Composition).

Lemma require_operator_Ok actor w u w' :
  require_operator actor w = (Ok u, w') → w' = w ∧ actor = localOperatorPrincipal.
Proof.
  unfold require_operator, refuse_if, throw_if, lift. destruct (_ && _ && _) eqn:Hc; [|done].
  apply andb_true_iff in Hc as [[Ek%bool_decide_eq_true Es%bool_decide_eq_true]%andb_true_iff
    Ei%bool_decide_eq_true]. simpl. intros [= _ <-]. split; [done|].
  destruct actor. simpl in *. by subst.
Qed.

Lemma requireRun_Ok runId projectId_ w p w' :
  requireRun runId projectId_ w = (Ok p, w') →
  w' = w ∧ pipelines (db w) !! runId = Some p ∧ projectId p = projectId_.
Proof.
  unfold requireRun, findById. rewrite RunStore.read_bind.
  destruct (pipelines (db w) !! runId) as [q|]; [|done]. case_bool_decide; [|done].
  by intros [= <- <-].
Qed.

Lemma on_pipeline_Ok {A} p (m : method Run A) w a p' w' :
  on_pipeline p m w = (Ok (a, p'), w') → w' = w ∧ m p = (Ok a, p').
Proof. unfold on_pipeline. destruct (m p) as [[b|e] q]; [|done]. by intros [= -> -> <-]. Qed.

Lemma persist_Ok p now x p' w u w' :
  row_ok p → pipelines (db w) !! id p = Some p → transition p now x p' →
  persist p' (version p) w = (Ok u, w') →
  db w' = set_pipelines <[id p' := p']> (db w) ∧ row_ok p'.
Proof.
  intros Hok Hp Ht Hs. unfold persist in Hs. apply action_bind_Ok in Hs as (b & w1 & Hs & Hr).
  unfold refuse_if, throw_if, lift in Hr. destruct b; [|done]. injection Hr as _ <-.
  destruct (save_exact _ _ _ _ _ _ Hok Hp Ht Hs) as (Hdb & Hok' & _).
  destruct (transition_frame _ _ _ _ Ht) as (_ & _ & _ & _ & _ & [= -> _ _ _ _ _ _ _ _]).
  done.
Qed.

(** The stored run and its task, whatever quiet commands follow. *)
Lemma settle_Ok p now x p' {A} (k : command A) w a w' :
  row_ok p → keyed (base (db w)) → pipelines (db w) !! id p = Some p → transition p now x p' →
  quiet k → (persist p' (version p);; syncTaskTerminal c p';; k) w = (Ok a, w') →
  settled p' (db w) (db w') ∧ row_ok p'.
Proof.
  intros Hok Hk Hp Ht Hq Hs. apply action_bind_Ok in Hs as ([] & w1 & Hp1 & Hs).
  apply action_bind_Ok in Hs as ([] & w2 & Hp2 & Hp3).
  destruct (persist_Ok _ _ _ _ _ _ _ Hok Hp Ht Hp1) as [E1 Hok']. split; [|done].
  apply sync_Ok in Hp2 as (Htask & E2 & Hdep); [|by rewrite E1].
  eapply settled_then; [|by eapply Hq]. rewrite E1 in Htask, E2, Hdep.
  constructor; [by rewrite E2|exact Htask|exact Hdep|by rewrite E2|by rewrite E2].
Qed.

Lemma override_call p oid actor reason now r p' :
  overrideCurrent oid actor reason now p = (Ok r, p') →
  run_call (COverride oid actor reason) now p = (Ok tt, p').
Proof. simpl. intros Ho. unfold mbind, action_bind. by rewrite Ho. Qed.

(** A command that can only answer [a]. *)
Definition returns {A} (a : A) (m : command A) : Prop := ∀ w b w', m w = (Ok b, w') → b = a.

Lemma returns_ret {A} (a : A) : returns a (mret a).
Proof. by intros w b w' [= <- _]. Qed.

Lemma returns_bind {A B} (a : A) (m : command B) (k : B → command A) :
  (∀ b, returns a (k b)) → returns a (m ≫= k).
Proof. intros Hk w b w' (x & w1 & _ & Hx)%action_bind_Ok. by eapply Hk. Qed.

(** The shape of the operator's commands on a stored run. *)
Lemma moved_Ok {A B} (f : A → Run) p (m : date → method Run B) (x : call) (k : B * Run → command A)
    w a w' :
  row_ok p → keyed (base (db w)) → pipelines (db w) !! id p = Some p →
  (∀ z b p', m z p = (Ok b, p') → run_call x z p = (Ok tt, p')) →
  (∀ q, quiet (k q)) → (∀ q w a w', k q w = (Ok a, w') → f a = q.2) →
  (at_ ← now; q ← on_pipeline p (m at_);
   persist q.2 (version p);; syncTaskTerminal c q.2;; k q) w = (Ok a, w') →
  ∃ z, run_call x (Some z) p = (Ok tt, f a) ∧ transition p (Some z) x (f a) ∧
    settled (f a) (db w) (db w') ∧ row_ok (f a).
Proof.
  intros Hok Hk Hp Hm Hq Hf Hs. apply action_bind_Ok in Hs as (at_ & w1 & Hn & Hs).
  injection Hn as <- <-. apply action_bind_Ok in Hs as ([b p'] & w2 & (-> & Hb)%on_pipeline_Ok & Hs).
  pose proof Hs as (u1 & w3 & _ & (u2 & w4 & _ & Hr)%action_bind_Ok)%action_bind_Ok.
  apply Hf in Hr as ->. simpl. apply Hm in Hb.
  pose proof Hb as Ht. eapply run_call_transition in Ht; [|by destruct Hok].
  exists (Store.clock_at (ticks w)). split; [done|]. split; [done|].
  by eapply (settle_Ok p _ x p' (k (b, p'))) in Hs.
Qed.

Lemma change_Ok {A} projectId_ runId (op : Run → command A) w a w' :
  change projectId_ runId op w = (Ok a, w') →
  ∃ p w1 w2, pipelines (db w) !! runId = Some p ∧ projectId p = projectId_ ∧ db w1 = db w ∧
    op p w1 = (Ok a, w2) ∧ db w' = db w2.
Proof.
  unfold change. intros (_ & w2 & Hb & Hdb)%RunServices.commit_Ok.
  apply action_bind_Ok in Hb as (p & w1 & (-> & Hp & Hpid)%requireRun_Ok & Hb).
  exists p, {| db := db w; active := true; ticks := ticks w; generated := generated w |}, w2.
  by split_and!.
Qed.

#[local] Hint Resolve event_quiet stage_id_quiet current_stage_id_quiet enqueue_quiet afterAdvance_quiet
  appendOverride_quiet resumption_quiet : quiet.
#[local] Hint Resolve returns_ret : quiet.
#[local] Hint Extern 2 (quiet (mret _)) => by apply quiet_keeps : quiet.
#[local] Hint Extern 2 (quiet (_ ≫= _)) => apply quiet_then; [|intros ?] : quiet.
#[local] Hint Extern 2 (returns _ (_ ≫= _)) => apply returns_bind; intros ? : quiet.

Lemma awaits_quiet p : quiet (awaits_approval p).
Proof. apply quiet_keeps, RunServices.keeps_bind; [done|]. intros. done. Qed.

#[local] Hint Resolve awaits_quiet : quiet.

(** A command of the operator on the run it names. *)
Lemma operator_Ok {A} input (op : Run → command A) w a w' :
  rows_ok (db w) → (require_operator (ci_principal input);; on_command input op) w = (Ok a, w') →
  ∃ p w1 w2, pipelines (db w) !! id p = Some p ∧ row_ok p ∧ by_operator input p ∧ db w1 = db w ∧
    op p w1 = (Ok a, w2) ∧ db w' = db w2.
Proof.
  intros Hok Hs. apply action_bind_Ok in Hs as (u & w1 & (-> & Hact)%require_operator_Ok & Hs).
  apply change_Ok in Hs as (p & w1 & w2 & Hp & Hpid & E1 & Hop & E2).
  destruct (rk_run _ Hok _ _ Hp) as [Hid Hrow]. exists p, w1, w2. rewrite Hid.
  split_and!; done.
Qed.

Definition committed (r : pipeline_request) (d0 d : tables) (p' : Run) (d' : tables) : Prop :=
  ∃ p x z, pipelines d !! id p = Some p ∧ asks r d0 d p x ∧ run_call x (Some z) p = (Ok tt, p') ∧
    transition p (Some z) x p' ∧ settled p' d d' ∧ row_ok p'.

(** The commands that move the run and settle its task first thing. *)
Lemma operator_commits {A B} (f : A → Run) r input (m : date → method Run B) x
    (k : Run → B * Run → command A) w a w' d0 :
  rows_ok (db w) → (∀ p, by_operator input p → asks r d0 (db w) p x) →
  (∀ z p b p', m z p = (Ok b, p') → run_call x z p = (Ok tt, p')) →
  (∀ p q, quiet (k p q)) → (∀ p q w a w', k p q w = (Ok a, w') → f a = q.2) →
  (require_operator (ci_principal input);;
   on_command input (λ p, at_ ← now; q ← on_pipeline p (m at_);
     persist q.2 (version p);; syncTaskTerminal c q.2;; k p q)) w = (Ok a, w') →
  committed r d0 (db w) (f a) (db w').
Proof.
  intros Hok Hasks Hm Hq Hf (p & w1 & w2 & Hp & Hrow & Hop & E1 & Hb & E2)%operator_Ok; [|done].
  eapply (moved_Ok f _ _ x) in Hb as (z & Hcall & Ht & Hst & Hrow').
  - rewrite E1, <- E2 in Hst. exists p, x, z. split_and!; auto.
  - done.
  - rewrite E1. by destruct Hok.
  - by rewrite E1.
  - by intros; eapply Hm.
  - done.
  - apply Hf.
Qed.

Lemma approve_Ok input rationale w p' w' d0 :
  rows_ok (db w) → approveStage c input rationale w = (Ok p', w') →
  committed (RApprove input rationale) d0 (db w) p' (db w').
Proof.
  intros Hok. eapply (operator_commits (λ q, q) (RApprove input rationale) input
    _ (CApproveStage (op_id (ci_principal input)) rationale)); [done| | | |].
  - intros p Hop. split; [done|]. by rewrite (proj1 Hop).
  - by intros z p [] q ?.
  - auto 20 with quiet.
  - intros p q w3 b w4 Hq. revert w3 b w4 Hq. apply (returns_bind q.2). auto with quiet.
Qed.

Lemma reject_Ok input rationale w p' w' d0 :
  rows_ok (db w) → rejectStage c input rationale w = (Ok p', w') →
  committed (RReject input rationale) d0 (db w) p' (db w').
Proof.
  intros Hok. eapply (operator_commits (λ q, q) (RReject input rationale) input
    _ (CRejectStage (op_id (ci_principal input)) rationale)); [done| | | |].
  - intros p Hop. split; [done|]. by rewrite (proj1 Hop).
  - by intros z p [] q ?.
  - auto 20 with quiet.
  - intros p q w3 b w4 Hq. revert w3 b w4 Hq. apply (returns_bind q.2). auto with quiet.
Qed.

Lemma cancel_Ok input w p' w' d0 :
  rows_ok (db w) → cancel c input w = (Ok p', w') →
  committed (RCancel input) d0 (db w) p' (db w').
Proof.
  intros Hok. eapply (operator_commits (λ q, q) (RCancel input) input
    _ (CCancel (op_id (ci_principal input))) (λ _ q, _;; mret q.2)); [done| | | |].
  - intros p Hop. split; [done|]. by rewrite (proj1 Hop).
  - by intros z p [] q ?.
  - auto 20 with quiet.
  - intros p q w3 b w4 Hq. revert w3 b w4 Hq. apply (returns_bind q.2). auto with quiet.
Qed.

Lemma override_Ok input reason w p' w' d0 :
  rows_ok (db w) → serve c (ROverride input reason) w = (Ok p', w') →
  committed (ROverride input reason) d0 (db w) p' (db w').
Proof.
  intros Hok Hs. apply action_bind_Ok in Hs as (res & w3 & Hs & [= <- <-]).
  apply operator_Ok in Hs as (p & w1 & w2 & Hp & Hrow & Hop & E1 & Hb & E2); [|done].
  apply action_bind_Ok in Hb as (oid & w4 & Hg & Hb). unfold generate in Hg. injection Hg as Hg <-.
  eapply (moved_Ok fst _ _ (COverride oid (op_id (ci_principal input)) reason)) in Hb
    as (z & Hcall & Ht & Hst & Hrow').
  - simpl in Hst. rewrite E1, <- E2 in Hst. exists p, (COverride oid (op_id (ci_principal input)) reason), z.
    split_and!; [done| |exact Hcall|exact Ht|done|done]. split; [done|]. exists oid. by rewrite (proj1 Hop).
  - done.
  - simpl. rewrite E1. by destruct Hok.
  - simpl. by rewrite E1.
  - intros z b q Hov. by eapply override_call.
  - auto 20 with quiet.
  - intros [b q] w5 d w6 Hq. enough (d = (q, b)) as -> by done. revert w5 d w6 Hq.
    apply (returns_bind (q, b)). auto with quiet.
Qed.

Lemma assign_Ok input agentId w p' w' :
  rows_ok (meanwhile (db w)) → assign input agentId w = (Ok p', w') →
  committed (RAssign input agentId) (db w) (meanwhile (db w)) p' (db w').
Proof.
  intros Hok Hs. unfold assign in Hs.
  apply action_bind_Ok in Hs as (u & w1 & (-> & Hact)%require_operator_Ok & Hs).
  apply action_bind_Ok in Hs as (a & w1 & (-> & Ha & Hap & Hen)%RunServices.require_agent_Ok & Hs).
  apply action_bind_Ok in Hs as (found & w1 & (-> & Hro)%RunServices.findRole_Ok & Hs).
  destruct found as [role|]; [|done]. apply action_bind_Ok in Hs as (? & ? & [= <- <-] & Hs).
  apply action_bind_Ok in Hs as ([] & w1 & [= <-] & Hs).
  apply change_Ok in Hs as (p & w1 & w2 & Hp & Hpid & E1 & Hb & E2). simpl in Hp, E1.
  destruct (rk_run _ Hok _ _ Hp) as [Hid Hrow].
  apply action_bind_Ok in Hb as (at_ & w3 & Hn & Hb). injection Hn as <- <-.
  apply action_bind_Ok in Hb as ([b q] & w3 & (-> & Hm)%on_pipeline_Ok & Hb).
  destruct b. simpl in Hb.
  assert (transition p (Some (Store.clock_at (ticks w1))) (CAssign agentId (Role.key role)) q) as Ht
    by (eapply run_call_transition; [by destruct Hrow|exact Hm]).
  apply action_bind_Ok in Hb as ([] & w3 & Hper & Hb).
  eapply persist_Ok in Hper as [E3 Hrow']; [|done| |exact Ht].
  2:{ simpl. by rewrite E1, Hid. }
  simpl in E3. rewrite E1 in E3.
  assert (p' = q ∧ same_work (db w3) (db w2)) as [-> Hsw].
  { split.
    - revert Hb. apply (returns_bind q). auto with quiet.
    - revert Hb. assert (quiet (stage ← current_stage_id q;
        event q "pipeline.agent_assigned" (operator (ci_principal input))
          ([("stageId", CStr stage); ("agentId", CStr agentId)] ++ label (ci_actorLabel input));;
        mret q)) as Hq by auto with quiet. apply Hq. }
  exists p, (CAssign agentId (Role.key role)), (Store.clock_at (ticks w1)).
  split_and!; [by rewrite Hid| |exact Hm|done| |done].
  - split; [by split_and!|]. destruct Hro as (stored & Hst & _ & Hre). by exists a, stored, role.
  - rewrite E2. eapply settled_then; [|exact Hsw]. rewrite E3. constructor; try done.
    unfold task_settled. inversion Ht as [? ? ? Hat| | | | | |]; subst. simpl.
    by rewrite (ac_active _ _ _ Hat).
Qed.

Lemma findRun_Ok runId w o w' :
  findRun runId w = (Ok o, w') →
  w' = w ∧ ∀ v, o = Some v → ∃ row, runs (db w) !! runId = Some row ∧ run_of_row runId row = Ok v.
Proof.
  unfold findRun. rewrite RunStore.read_bind. destruct (runs (db w) !! runId) as [row|].
  - intros (v & Hv & Hs)%lift_bind_Ok. injection Hs as <- <-. split; [done|].
    intros v' [= <-]. by exists row.
  - by intros [= <- <-].
Qed.

Lemma completing_run_Ok input found who :
  completing_run input found = Ok who →
  ∃ r pid sid, found = Some r ∧ AgentRun.pipelineRunId r = Some pid ∧
    AgentRun.pipelineStageRunId r = Some sid ∧ AgentRun.projectId r = co_projectId input ∧
    AgentRun.status r ∈ [AgentRun.completed; AgentRun.running; AgentRun.reviewing] ∧
    who = {| ap_agentRunId := AgentRun.id r; ap_agentId := AgentRun.agentId r;
             ap_projectId := AgentRun.projectId r; ap_taskId := AgentRun.taskId r;
             ap_pipelineRunId := pid; ap_pipelineStageRunId := sid |}.
Proof.
  unfold completing_run. destruct found as [r|]; [|done].
  destruct (AgentRun.pipelineRunId r) as [pid|] eqn:Hp; [|done].
  destruct (AgentRun.pipelineStageRunId r) as [sid|] eqn:Hs; [|done].
  rewrite !throw_if_bind_Ok, !negb_false_iff. intros (Hpr%bool_decide_eq_true & _ & Hst & [= <-]).
  exists r, pid, sid. split_and!; try done. destruct (AgentRun.status r); set_solver.
Qed.

Lemma stage_of_principal_Ok input who p w s w' :
  stage_of_principal input who p w = (Ok s, w') →
  w' = w ∧ (currentStage p).1 = Ok (Some s) ∧ taskId p = ap_taskId who ∧
  sr_id s = ap_pipelineStageRunId who ∧ sr_status s = stage_active ∧
  sr_assignedAgentId s = Some (ap_agentId who) ∧
  ∃ a stored role, agents (db w) !! ap_agentId who = Some a ∧ ag_projectId a = co_projectId input ∧
    roles (db w) !! ag_roleId a = Some stored ∧ restoreRole stored = Ok role ∧
    Role.key role = sr_roleId s.
Proof.
  intros (current & Hc & Hs)%lift_bind_Ok.
  apply action_bind_Ok in Hs as (s' & w1 & Hst & Hs). destruct current as [s1|]; [|done].
  destruct (bool_decide _ && _) eqn:Hb in Hst; [|done]. injection Hst as <- <-.
  apply andb_true_iff in Hb as [Ht%bool_decide_eq_true Hsid%bool_decide_eq_true].
  unfold findAgent in Hs. rewrite RunStore.read_bind in Hs.
  apply action_bind_Ok in Hs as (o & w1 & Hro & Hs).
  destruct (agents (db w) !! ap_agentId who) as [a|] eqn:Ha; [|by injection Hro as <- <-].
  apply RunServices.findRole_Ok in Hro as [-> Hro]. destruct o as [role|]; [|done].
  destruct (_ && _ && _ && _) eqn:Hb in Hs; [|done]. injection Hs as <- <-.
  apply andb_true_iff in Hb as [[[Hap%bool_decide_eq_true Hk%bool_decide_eq_true]%andb_true_iff
    Hact]%andb_true_iff Has%bool_decide_eq_true].
  destruct Hro as (stored & Hstored & _ & Hre). split_and!; try done.
  - unfold stage_is_active in Hact. by destruct (sr_status s1).
  - by exists a, stored, role.
Qed.

Lemma complete_Ok input w p' w' :
  rows_ok (meanwhile (db w)) → completeStageFromAgentRun c input w = (Ok p', w') →
  committed (RComplete input) (db w) (meanwhile (db w)) p' (db w').
Proof.
  intros Hok Hs. apply action_bind_Ok in Hs as (found & w1 & (-> & Hf)%findRun_Ok & Hs).
  apply lift_bind_Ok in Hs as (who & Hw & Hs).
  apply completing_run_Ok in Hw as (r & pid & sid & -> & Hpid & Hsid & Hrp & Hst & ->).
  destruct (Hf r eq_refl) as (row & Hrow & Hre).
  apply action_bind_Ok in Hs as ([] & w1 & [= <-] & Hs).
  apply change_Ok in Hs as (p & w1 & w2 & Hp & Hpp & E1 & Hb & E2). simpl in Hp, E1.
  destruct (rk_run _ Hok _ _ Hp) as [Hid Hok']. unfold complete_body in Hb.
  apply action_bind_Ok in Hb as (s & w3 & (-> & Hcs & Ht & Hs & Ha & Has & Hag)%stage_of_principal_Ok
    & Hb). rewrite E1 in Hag.
  eapply (moved_Ok (λ q, q) p _ (CCompleteStage (AgentRun.agentId r))) in Hb as (z & Hcall & Htr & Hset & Hr').
  - rewrite E1, <- E2 in Hset. exists p, (CCompleteStage (AgentRun.agentId r)), z.
    split_and!; [by rewrite Hid| |done..]. exists row, r. split_and!; [done..| |done].
    constructor; [by rewrite Hid|done|]. exists s. split_and!; try done. by rewrite Hs.
  - done.
  - rewrite E1. by destruct Hok.
  - by rewrite E1, Hid.
  - by intros z [] q ?.
  - intros q. apply quiet_then; [auto with quiet|]. intros _.
    apply quiet_then; [auto with quiet|]. intros b. apply quiet_then; [auto with quiet|]. intros from.
    apply quiet_then; [auto with quiet|]. intros _. apply quiet_then; [|intros _].
    { repeat case_match; auto with quiet. }
    apply quiet_then; [|auto with quiet]. case_match; auto with quiet.
  - intros q w3 b w4 Hq. revert w3 b w4 Hq. apply (returns_bind q.2). auto 10 with quiet.
Qed.

(** What the transaction of a request finds, after what others did since the
    request began. *)
Definition before (r : pipeline_request) (d : tables) : tables :=
  match r with RAssign _ _ | RComplete _ => meanwhile d | _ => d end.

Lemma change_Throw {A} projectId_ runId (op : Run → command A) w e w' :
  change projectId_ runId op w = (Throw e, w') → db w' = db w.
Proof. apply RunServices.run_Throw. Qed.

Lemma keeps_Throw {A} (m : command A) w e w' :
  RunServices.keeps m → m w = (Throw e, w') → db w' = db w.
Proof. intros Hm Hw. specialize (Hm w). by rewrite Hw in Hm. Qed.

Lemma operator_Throw {A} input (op : Run → command A) w e w' :
  (require_operator (ci_principal input);; on_command input op) w = (Throw e, w') →
  db w' = db w.
Proof.
  intros [Hs|(u & w1 & (-> & _)%require_operator_Ok & Hs)]%action_bind_Throw.
  - by apply keeps_Throw in Hs.
  - by apply change_Throw in Hs.
Qed.

Lemma assign_Throw input agentId w e w' :
  assign input agentId w = (Throw e, w') → db w' = db w ∨ db w' = meanwhile (db w).
Proof.
  unfold assign. intros [Hs|(u & w1 & (-> & _)%require_operator_Ok & Hs)]%action_bind_Throw.
  { left. by apply keeps_Throw in Hs. }
  apply action_bind_Throw in Hs as [Hs|(a & w1 & (-> & _)%RunServices.require_agent_Ok & Hs)].
  { left. apply keeps_Throw in Hs; [done|apply RunServices.keeps_require_agent]. }
  apply action_bind_Throw in Hs as [Hs|(o & w1 & (-> & _)%RunServices.findRole_Ok & Hs)].
  { left. apply keeps_Throw in Hs; [done|apply RunServices.keeps_findRole]. }
  apply action_bind_Throw in Hs as [Hs|(role & w1 & Hs1 & Hs)].
  { left. destruct o; [done|]. by injection Hs as _ <-. }
  destruct o; [|done]. injection Hs1 as _ <-.
  apply action_bind_Throw in Hs as [Hs|([] & w1 & [= <-] & Hs)]; [done|right].
  by apply change_Throw in Hs.
Qed.

Lemma keeps_findRun runId : RunServices.keeps (findRun runId).
Proof.
  apply RunServices.keeps_bind; [done|]. intros [row|]; [|done].
  by apply RunServices.keeps_bind.
Qed.

Lemma complete_Throw input w e w' :
  completeStageFromAgentRun c input w = (Throw e, w') →
  db w' = db w ∨ db w' = meanwhile (db w).
Proof.
  intros [Hs|(found & w1 & (-> & _)%findRun_Ok & Hs)]%action_bind_Throw.
  { left. apply keeps_Throw in Hs; [done|apply keeps_findRun]. }
  apply action_bind_Throw in Hs as [Hs|(who & w1 & Hw & Hs)].
  { left. by injection Hs as _ <-. }
  injection Hw as _ <-. apply action_bind_Throw in Hs as [Hs|([] & w1 & [= <-] & Hs)]; [done|].
  right. by apply change_Throw in Hs.
Qed.

Lemma serve_Ok r w p' w' :
  rows_ok (before r (db w)) → serve c r w = (Ok p', w') →
  committed r (db w) (before r (db w)) p' (db w').
Proof.
  destruct r; simpl.
  - apply assign_Ok.
  - apply complete_Ok.
  - intros. by apply approve_Ok.
  - intros. by apply reject_Ok.
  - intros. by apply override_Ok.
  - intros. by apply cancel_Ok.
Qed.

Lemma serve_Throw r w e w' :
  serve c r w = (Throw e, w') → db w' = db w ∨ db w' = before r (db w).
Proof.
  destruct r; simpl.
  - apply assign_Throw.
  - apply complete_Throw.
  - intros. left. by eapply operator_Throw.
  - intros. left. by eapply operator_Throw.
  - intros [Hs|(? & ? & _ & Hs)]%action_bind_Throw; [|done]. left. by eapply operator_Throw.
  - intros. left. by eapply operator_Throw.
Qed.

End moves.

End PipelineCommands.
