(* ===== verification/PipelineHistory.v ===== *)
(** Histories of requests: what [start] stores, and, for every sequence of
    requests on a project, that the stored runs are runs the aggregate reaches,
    that a task has one active run at most and that a run that ended ended its
    task. *)
From S2P Require Import Prelude Errors TaskModel DependencyGraph PipelineModel Json AgentModel.
From S2P Require Import Store RunStore TaskServices TaskInvariants TaskRefinement RunHistory.
From S2P Require Import TaskHistory TaskGuards OutboxModel PipelineStore RunServices PipelineServices.
From S2P Require Import PipelineCommands.
Import TaskInvariants TaskRefinement Canonical PipelineRun RunStore PipelineStore PackPipeline Pipelines.
Import PipelineCommands.

Module PipelineHistory.

(** * What [insert] stores *)

(** The run of the input, with the pin [pin]. *)
Definition with_pin (p : Run) (pin : option ConfigurationPin) : Run :=
  {| id := id p; projectId := projectId p; taskId := taskId p;
     manifestRevisionId := manifestRevisionId p; manifestRevision := manifestRevision p;
     definition := definition p; status := status p; currentStageIndex := currentStageIndex p;
     stages := stages p; startedBy := startedBy p; version := version p; createdAt := createdAt p;
     updatedAt := updatedAt p; completedAt := completedAt p; cancelledAt := cancelledAt p;
     configurationPin := pin |}.

(** What the tables read back of a new run: the packs of its pin in order. *)
Definition stored_run (p : Run) : Run := with_pin p (stored_pin <$> configurationPin p).

Lemma create_stored input p :
  create input = Ok p →
  create {| in_id := in_id input; in_projectId := in_projectId input; in_taskId := in_taskId input;
            in_manifestRevisionId := in_manifestRevisionId input;
            in_manifestRevision := in_manifestRevision input; in_definition := in_definition input;
            in_startedBy := in_startedBy input; in_stageRunIds := in_stageRunIds input;
            in_configurationPin := stored_pin <$> in_configurationPin input;
            in_now := in_now input |} = Ok (stored_run p).
Proof.
  unfold create. simpl. rewrite !throw_if_bind_Ok. intros (-> & -> & -> & Hc).
  split_and!; [done..|]. revert Hc. destruct (map_result _ _); [|done]. simpl.
  destruct (required (in_id input) _); [|done]. simpl.
  destruct (required (in_projectId input) _); [|done]. simpl.
  destruct (required (in_taskId input) _); [|done]. simpl.
  destruct (required (in_manifestRevisionId input) _); [|done]. simpl.
  destruct (required (in_startedBy input) _); [|done]. simpl.
  destruct (in_configurationPin input) as [v|]; simpl; [|by intros [= <-]].
  unfold requiredConfigurationPin. simpl. destruct (required (configurationDigest v) _); [|done].
  by intros [= <-].
Qed.

(** Stages numbered from [k] on are in order. *)
Lemma numbered_sorted k l :
  (∀ i s, l !! i = Some s → sr_stageIndex s = k + i) →
  StronglySorted (cmp_le compare_stages) l.
Proof.
  revert k. induction l as [|s l IH]; intros k Hl; [constructor|]. constructor.
  - apply (IH (S k)). intros i t Ht. rewrite (Hl (S i)) by done. lia.
  - apply Forall_forall. intros t [i Ht]%list_elem_of_lookup.
    unfold cmp_le, compare_stages. rewrite (Hl 0 s eq_refl), (Hl (S i) t Ht). lia.
Qed.

Definition numbered (l : list StageRun) : Prop := ∀ i s, l !! i = Some s → sr_stageIndex s = i.

Lemma numbered_app pre s l : numbered (pre ++ s :: l) → numbered (pre ++ [s]).
Proof.
  intros Hn i t Ht. apply Hn. apply lookup_app_Some in Ht as [Ht|[Hi Ht]].
  - by apply lookup_app_l_Some.
  - rewrite lookup_app_r by done. by destruct (i - length pre) as [|[|]].
Qed.

Section services.
  Context `{ShowNumber} `{Store.Environment} `{Meanwhile} (c : Composition).

Lemma stage_exists_false i d j q :
  stage_exists i d = false → pipelines d !! j = Some q → i ∉ sr_id <$> stages q.
Proof.
  intros He Hq (s & -> & Hs)%list_elem_of_fmap. apply not_true_iff_false in He. apply He.
  unfold stage_exists. apply existsb_exists. exists (j, q). split.
  - by apply list_elem_of_In, elem_of_map_to_list.
  - apply existsb_exists. exists s. split; [by apply list_elem_of_In|]. apply bool_decide_refl.
Qed.

Lemma insert_stages_Ok runId projectId_ l w w' q :
  pipelines (db w) !! runId = Some q → numbered (stages q ++ l) → NoDup (sr_id <$> stages q) →
  insert_stages runId projectId_ l w = (Ok tt, w') →
  db w' = set_pipelines <[runId := with_stages q (stages q ++ l)]> (db w) ∧
  NoDup (sr_id <$> stages q ++ l) ∧ Forall (λ s, check_stage_dates s = Ok tt) l.
Proof.
  revert w q. induction l as [|s l IH]; intros w q Hq Hn Hnd Hi.
  - injection Hi as <-. rewrite app_nil_r, with_stages_same. split; [|done].
    unfold set_pipelines. rewrite insert_id by done. by destruct (db w).
  - simpl in Hi. apply action_bind_Ok in Hi as ([] & w1 & Hs & Hi).
    apply lift_bind_Ok in Hs as ([] & Hd & Hs). rewrite RunStore.read_bind in Hs.
    rewrite !refuse_if_bind_Ok in Hs. destruct Hs as (Hcl & _ & Hs). injection Hs as <-.
    apply orb_false_iff in Hcl as [Hex _].
    pose proof (stage_exists_false _ _ _ _ Hex Hq) as Hnew.
    assert (sort_by compare_stages (stages q ++ [s]) = stages q ++ [s]) as Hsort.
    { apply sort_by_id, (numbered_sorted 0). intros i t Ht. by apply (numbered_app _ _ _ Hn). }
    apply (IH _ (with_stages q (stages q ++ [s]))) in Hi.
    + destruct Hi as (-> & Hnd' & Hds). simpl in *. split_and!.
      * unfold set_pipelines. simpl. erewrite alter_known by exact Hq.
        rewrite insert_insert_eq, <- app_assoc. done.
      * by rewrite <- app_assoc in Hnd'.
      * by constructor.
    + simpl. erewrite alter_known by exact Hq. by rewrite lookup_insert_eq, Hsort.
    + simpl. by rewrite <- app_assoc.
    + simpl. rewrite fmap_app. apply NoDup_app. split_and!; [done| |by apply NoDup_singleton].
      intros x Hx ->%list_elem_of_singleton. by apply Hnew.
Qed.

Lemma create_fields input p :
  create input = Ok p →
  status p = run_active ∧ completedAt p = None ∧ cancelledAt p = None ∧
  updatedAt p = createdAt p ∧ createdAt p = in_now input ∧ definition p = in_definition input ∧
  version p = 1%Z ∧ currentStageIndex p = 0 ∧ numbered (stages p).
Proof.
  intros Hc. pose proof (create_wf _ _ Hc) as Hwf. revert Hc. unfold create.
  rewrite !throw_if_bind_Ok. intros (_ & _ & _ & Hc). inv_ok. simpl in *. split_and!; try done.
  intros i s Hs. by destruct (wf_stage _ Hwf _ _ Hs).
Qed.

Lemma iso_valid d z : iso d = Ok z → valid_date d = true.
Proof. by destruct d. Qed.

Lemma insert_run_row_Ok p w w' :
  insert_run_row p w = (Ok tt, w') →
  pipelines (db w) !! id p = None ∧ active_for_task p (db w) = false ∧
  is_Some (Store.tasks (base (db w)) !! taskId p) ∧ manifest_known p (db w) = true ∧
  valid_date (createdAt p) = true ∧ valid_date (updatedAt p) = true ∧
  ∃ z, db w' = set_base (record_pipeline_start p z)
                 (set_pipelines <[id p := run_row p None]> (db w)).
Proof.
  unfold insert_run_row. intros (created & Hc & Hs)%lift_bind_Ok.
  apply lift_bind_Ok in Hs as (? & Hu & Hs). apply lift_bind_Ok in Hs as (? & _ & Hs).
  apply lift_bind_Ok in Hs as (? & _ & Hs). rewrite RunStore.read_bind in Hs.
  rewrite !refuse_if_bind_Ok in Hs. destruct Hs as (Hm & _ & Hnew & Hact & Hfk & Hs).
  rewrite RunStore.write_bind in Hs. rewrite !refuse_if_bind_Ok in Hs.
  destruct Hs as [_ Hs]. injection Hs as <-.
  apply bool_decide_eq_false, eq_None_not_Some in Hnew. apply negb_false_iff in Hm.
  apply orb_false_iff in Hfk as [_ Ht%negb_false_iff%bool_decide_eq_true].
  split_and!; try done; [by eapply iso_valid..|]. by exists created.
Qed.

Lemma insert_pin_Ok p w w' :
  pipelines (db w) !! id p = Some (run_row p None) → insert_pin p w = (Ok tt, w') →
  db w' = set_pipelines <[id p := run_row p (stored_pin <$> configurationPin p)]> (db w).
Proof.
  unfold insert_pin. intros Hp. destruct (configurationPin p) as [pin|].
  - intros Hs. apply action_bind_Ok in Hs as ([] & w1 & Hp1 & Hs).
    apply action_bind_Ok in Hs as ([] & w2 & Hp2 & Hs). unfold insert_packs in Hp1, Hp2.
    apply refuse_if_bind_Ok in Hp1 as [_ [_ ->]%refuse_if_Ok].
    apply refuse_if_bind_Ok in Hp2 as [_ [_ ->]%refuse_if_Ok]. by injection Hs as <-.
  - intros [= <-]. unfold set_pipelines. simpl. rewrite insert_id by done. by destruct (db w).
Qed.

(** A new run is stored as it was created, on a task that has none active. *)
Lemma insert_Ok input p w w' :
  create input = Ok p → PipelineStore.insert p w = (Ok tt, w') →
  pipelines (db w) !! id p = None ∧ active_for_task p (db w) = false ∧
  is_Some (Store.tasks (base (db w)) !! taskId p) ∧ manifest_known p (db w) = true ∧
  row_ok (stored_run p) ∧
  ∃ z, db w' = set_base (record_pipeline_start p z)
                 (set_pipelines <[id p := stored_run p]> (db w)).
Proof.
  intros Hc Hs. destruct (create_fields _ _ Hc) as (_ & Hco & Hca & _ & _ & _ & _ & _ & Hnum).
  unfold PipelineStore.insert, snapshot in Hs. apply action_bind_Ok in Hs as ([] & w1 & Hs1 & Hs).
  apply action_bind_Ok in Hs as ([] & w2 & Hs2 & Hs3).
  apply insert_run_row_Ok in Hs1 as (Hnew & Hact & Ht & Hm & Hcr & Hup & z & E1).
  assert (pipelines (db w1) !! id p = Some (run_row p None)) as Hp1
    by by rewrite E1; simpl; rewrite lookup_insert_eq.
  apply insert_pin_Ok in Hs2 as E2; [|done].
  assert (pipelines (db w2) !! id p = Some (run_row p (stored_pin <$> configurationPin p))) as Hp2
    by by rewrite E2; simpl; rewrite lookup_insert_eq.
  apply (insert_stages_Ok _ _ _ _ _ _ Hp2) in Hs3 as (E3 & Hids & Hds); [|done|constructor].
  split_and!; try done.
  - pose proof (create_wf _ _ (create_stored _ _ Hc)) as Hwf.
    constructor; simpl; try done; [by rewrite Hco|by rewrite Hca].
  - exists z. rewrite E3, E2, E1. unfold set_pipelines, set_base. simpl.
    rewrite !insert_insert_eq. done.
Qed.

(** * What [start] stores *)

Lemma require_task_Ok projectId_ taskId_ w t w' :
  require_task projectId_ taskId_ w = (Ok t, w') →
  db w' = db w ∧ Store.tasks (base (db w)) !! taskId_ = Some t ∧ Task.projectId t = projectId_.
Proof.
  unfold require_task. intros (found & w1 & (s & [= Hf <-] & Hdb)%on_base_Ok & Ht)%action_bind_Ok.
  simpl in Hf, Hdb. destruct found as [u|]; [|done]. case_bool_decide; [|done].
  injection Ht as <- <-. split_and!; [|done..]. rewrite Hdb. by destruct (db w).
Qed.

(** The pipeline of the manifest a request names. *)
Definition manifest_pipeline (revision : OfficeManifestRevision) (pipelineId : string)
    : option OfficePipeline :=
  List.find (λ p, bool_decide (pl_id p = pipelineId)) (om_pipelines (rv_manifest revision)).

Lemma keeps_selects_packs projectId_ : RunServices.keeps (selects_packs c projectId_).
Proof.
  unfold selects_packs. destruct (configuration c); [|done].
  by apply RunServices.keeps_bind; [|intros ?].
Qed.

Lemma start_checks_Ok input w task revision def w' :
  start_checks c input w = (Ok (task, revision, def), w') →
  db w' = db w ∧ si_principal input = localOperatorPrincipal ∧
  Store.tasks (base (db w)) !! si_taskId input = Some task ∧
  Task.projectId task = si_projectId input ∧ revision ∈ manifests (db w) ∧
  rv_projectId revision = si_projectId input ∧ def = manifest_pipeline revision (si_pipelineId input).
Proof.
  unfold start_checks. intros (u & w1 & (-> & Hop)%require_operator_Ok & Hs)%action_bind_Ok.
  apply action_bind_Ok in Hs as (t & w1 & (E1 & Ht & Htp)%require_task_Ok & Hs).
  apply action_bind_Ok in Hs as ([] & w2 & Hchk & Hs).
  apply RunServices.keeps_Ok in Hchk as E2; [|apply RunServices.keeps_check].
  apply action_bind_Ok in Hs as (running & w3 & [= _ <-] & Hs).
  apply refuse_if_bind_Ok in Hs as [_ Hs].
  apply action_bind_Ok in Hs as (latest & w3 & [= Hl <-] & Hs).
  apply action_bind_Ok in Hs as (r & w3 & Hr & Hs). destruct latest as [r'|]; [|done].
  injection Hr as <- <-. apply action_bind_Ok in Hs as (packs & w3 & Hp & Hs).
  assert (db w3 = db w2) as E3.
  { eapply RunServices.keeps_Ok, Hp. destruct (bool_decide _); [done|apply keeps_selects_packs]. }
  apply action_bind_Ok in Hs as ([] & w4 & Hm & Hs). injection Hs as <- <- <- <-.
  assert (db w4 = db w3) as E4.
  { eapply RunServices.keeps_Ok, Hm. case_match; [|done]. by case_match. }
  apply head_Some_elem_of, sort_by_elem_of, list_elem_of_filter in Hl as [Hrp Hin].
  split_and!; try done; try congruence.
Qed.

Lemma keeps_generate_all n : RunServices.keeps (generate_all n).
Proof.
  induction n; [done|]. apply RunServices.keeps_bind; [done|]. intros i.
  by apply RunServices.keeps_bind; [|intros ?].
Qed.

Lemma keeps_select projectId_ pipelineId source found def :
  RunServices.keeps (selectDefinition projectId_ pipelineId source found def).
Proof.
  unfold selectDefinition. apply RunServices.keeps_bind; [done|]. intros wk.
  destruct found as [cfg|], wk as [k|]; try done.
  destruct (if bool_decide _ then None else def); [done|]. unfold select_pack.
  apply RunServices.keeps_bind; [done|]. intros d.
  apply RunServices.keeps_bind; [done|]. intros _.
  apply RunServices.keeps_bind; [done|]. intros _.
  apply RunServices.keeps_bind; [|intros known; by apply RunServices.keeps_bind; [|intros ?]].
  unfold listRoles. by apply RunServices.keeps_bind; [|intros ?].
Qed.

Lemma keeps_readActive projectId_ : RunServices.keeps (readActiveConfiguration c projectId_).
Proof.
  unfold readActiveConfiguration. destruct (configuration c); [|done].
  apply RunServices.keeps_bind; [done|]. intros. by apply RunServices.keeps_bind; [|intros ?].
Qed.

(** What becomes of a task that is saved over whatever row there is. *)
Definition saved_task (t : Task.TaskProps) (d : Store.database) : Task.TaskProps :=
  match Store.tasks d !! Task.id t with
  | Some old => Store.updated_task old t
  | None => t
  end.

Lemma save_task_Ok t w w' :
  Store.save_task t w = (Ok tt, w') →
  Store.tasks (Store.db w') = <[Task.id t := saved_task t (Store.db w)]> (Store.tasks (Store.db w)) ∧
  Store.dependencies (Store.db w') = Store.dependencies (Store.db w).
Proof.
  unfold Store.save_task, saved_task.
  intros (old & w1 & [= Ho <-] & Hs)%action_bind_Ok. rewrite Ho. destruct old as [old|].
  - apply action_bind_Ok in Hs as (d & w1 & [= <- <-] & Hs). rewrite !refuse_if_bind_Ok in Hs.
    destruct Hs as (_ & _ & Hs). apply action_bind_Ok in Hs as ([] & w1 & [= <-] & Hs).
    by case_match; injection Hs as <-.
  - apply action_bind_Ok in Hs as (known & w1 & [= _ <-] & Hs). apply refuse_if_bind_Ok in Hs as [_ Hs].
    by injection Hs as <-.
Qed.

(** Where the definition a run freezes comes from: the manifest's pipeline of
    that name, or the one startable workflow of that name in the configuration
    of the project, every role of which the Runtime has. *)
Inductive definition_origin (projectId_ pipelineId : string) (source : option definition_source)
    (found : option ResolvedProjectConfiguration) (def : option OfficePipeline) (d : tables)
    : selected → Prop :=
| origin_manifest p :
    source ≠ Some from_pack → def = Some p →
    (source = None → ∀ cfg, found = Some cfg → findPackWorkflow cfg pipelineId = Ok None) →
    definition_origin projectId_ pipelineId source found def d (p, None)
| origin_pack cfg wk p :
    source ≠ Some from_manifest → (source = None → def = None) → found = Some cfg →
    wk ∈ rc_workflows cfg → localDefinitionId (wk_workflowId wk) = pipelineId →
    isStartable cfg wk = true → packWorkflowPipeline cfg wk = Ok p →
    (∀ stage, stage ∈ pl_stages p → ∃ role, role ∈ (map_to_list (roles d)).*2 ∧
       Role.projectId role = projectId_ ∧ ∃ r, restoreRole role = Ok r ∧
       Role.key r = st_roleId stage) →
    definition_origin projectId_ pipelineId source found def d (p, Some (wk_workflowId wk)).

Lemma findPackWorkflow_Ok cfg pipelineId wk :
  findPackWorkflow cfg pipelineId = Ok (Some wk) →
  wk ∈ rc_workflows cfg ∧ localDefinitionId (wk_workflowId wk) = pipelineId ∧
  isStartable cfg wk = true.
Proof.
  unfold findPackWorkflow, workflowsWithLocalId. rewrite throw_if_bind_Ok. intros [_ [= Hh]].
  apply head_Some_elem_of, list_elem_of_In, filter_In in Hh as [[Hin Hid]%filter_In Hs].
  split_and!; [by apply list_elem_of_In|by apply bool_decide_eq_true in Hid|done].
Qed.

Lemma unique_from_nil seen (l : list string) :
  unique_from seen l = [] → ∀ x, x ∈ l → x ∈ seen.
Proof.
  induction l as [|y l IH]; simpl; [by intros _ x ?%elem_of_nil|].
  destruct (includes y seen) eqn:Hi; [|done]. intros Hu x [->|Hx]%elem_of_cons; [|by apply IH].
  by apply includes_spec in Hi.
Qed.

Lemma missing_roles_nil known def :
  missing_roles known def = [] → ∀ s, s ∈ pl_stages def → st_roleId s ∈ known.
Proof.
  intros Hm s Hs. destruct (includes (st_roleId s) known) eqn:Hi; [by apply includes_spec|exfalso].
  apply (elem_of_nil (st_roleId s)), (unique_from_nil _ _ Hm).
  apply list_elem_of_In, filter_In. split.
  - apply list_elem_of_In, list_elem_of_fmap. eauto.
  - by rewrite Hi.
Qed.

Lemma listRoles_Ok projectId_ w l w' :
  listRoles projectId_ w = (Ok l, w') →
  w' = w ∧ ∀ r, r ∈ l → ∃ role, role ∈ (map_to_list (roles (db w))).*2 ∧
    Role.projectId role = projectId_ ∧ restoreRole role = Ok r.
Proof.
  unfold listRoles. rewrite RunStore.read_bind. intros Hl. injection Hl as Hl <-.
  split; [done|]. intros r Hr. apply map_result_Ok in Hl.
  apply list_elem_of_lookup in Hr as [i Hi].
  destruct (Forall2_lookup_r _ _ _ _ _ Hl Hi) as (role & Hrole & Hre).
  apply list_elem_of_lookup_2, sort_by_elem_of, list_elem_of_filter in Hrole as [Hp Hin].
  by exists role.
Qed.

Lemma selectDefinition_Ok projectId_ pipelineId source found def w choice w' :
  selectDefinition projectId_ pipelineId source found def w = (Ok choice, w') →
  definition_origin projectId_ pipelineId source found def (db w) choice ∧
  pl_enforcement choice.1 = Some enforced.
Proof.
  unfold selectDefinition. intros (wk & Hwk & Hs)%lift_bind_Ok.
  assert (select_manifest projectId_ pipelineId source found
            (if bool_decide (source = Some from_pack) then None else def) = Ok choice →
    wk = None → definition_origin projectId_ pipelineId source found def (db w) choice ∧
                pl_enforcement choice.1 = Some enforced) as Hman.
  { unfold select_manifest. rewrite throw_if_bind_Ok. intros [_ Hc] ->.
    case_bool_decide as Hsrc; [done|]. destruct def as [q|]; [|done].
    rewrite throw_if_bind_Ok in Hc. destruct Hc as [He%negb_false_iff%bool_decide_eq_true [= <-]].
    split; [|done]. apply origin_manifest; [done..|]. intros -> cfg ->. done. }
  destruct found as [cfg|]; [|destruct wk; [done|]; injection Hs as Hs _; auto].
  destruct wk as [k|]; [|injection Hs as Hs _; auto]. clear Hman.
  destruct (bool_decide (source = Some from_manifest)) eqn:Hsrc; [done|].
  apply bool_decide_eq_false in Hsrc. apply findPackWorkflow_Ok in Hwk as (Hin & Hid & Hst).
  destruct (if bool_decide _ then None else def) as [q|] eqn:Hd; [done|].
  unfold select_pack in Hs. apply lift_bind_Ok in Hs as (p & Hp & Hs).
  rewrite !refuse_if_bind_Ok in Hs. destruct Hs as (He%negb_false_iff%bool_decide_eq_true & _ & Hs).
  apply action_bind_Ok in Hs as (known & w1 & (-> & Hk)%listRoles_Ok & Hs).
  apply refuse_if_bind_Ok in Hs as [Hm Hs]. injection Hs as <- _. split; [|done].
  eapply origin_pack; try done.
  - intros ->. by rewrite bool_decide_false in Hd.
  - intros stage Hstage. destruct (missing_roles (Role.key <$> known) p) eqn:Hmr; [|done].
    apply (missing_roles_nil _ _ Hmr), list_elem_of_fmap in Hstage as (r & -> & Hr).
    destruct (Hk _ Hr) as (role & ? & ? & ?). exists role. split_and!; eauto.
Qed.

(** What a start leaves in the tables; [d0] is what it read before its
    transaction, [d] what the transaction found. *)
Record started (input : start_input) (d0 d : tables) (p : Run) (d' : tables) : Prop := {
  sd_operator : si_principal input = localOperatorPrincipal;
  sd_run : ∃ revision found choice ids runId at_,
    revision ∈ manifests d0 ∧ rv_projectId revision = si_projectId input ∧
    (configuration c = None → found = None) ∧
    definition_origin (si_projectId input) (si_pipelineId input) (si_source input) found
      (manifest_pipeline revision (si_pipelineId input)) d choice ∧
    create {| in_id := runId; in_projectId := si_projectId input; in_taskId := si_taskId input;
              in_manifestRevisionId := rv_id revision;
              in_manifestRevision := rv_revision revision; in_definition := choice.1;
              in_startedBy := op_id localOperatorPrincipal; in_stageRunIds := ids;
              in_configurationPin := rc_pin <$> found; in_now := at_ |} = Ok p;
  sd_row : pipelines d !! id p = None ∧ active_for_task p d = false ∧
    pipelines d' = <[id p := stored_run p]> (pipelines d) ∧ row_ok (stored_run p);
  sd_task : ∃ task at_, Store.tasks (base d0) !! si_taskId input = Some task ∧
    Task.projectId task = si_projectId input ∧
    Task.isTaskTransitionAllowed (Task.status task) Task.running = true ∧
    let t := Task.with_status task Task.running at_ in
    Store.tasks (base d') = <[Task.id task := saved_task t (base d)]> (Store.tasks (base d));
  sd_known : is_Some (Store.tasks (base d') !! taskId p);
  sd_same : Store.dependencies (base d') = Store.dependencies (base d) ∧ runs d' = runs d ∧
    agents d' = agents d ∧ roles d' = roles d ∧ locks d' = locks d ∧ manifests d' = manifests d
}.

Lemma start_body_Ok input task revision def w p w' d0 :
  si_principal input = localOperatorPrincipal →
  Store.tasks (base d0) !! si_taskId input = Some task → Task.projectId task = si_projectId input →
  revision ∈ manifests d0 → rv_projectId revision = si_projectId input →
  def = manifest_pipeline revision (si_pipelineId input) →
  start_body c input task revision def w = (Ok p, w') →
  started input d0 (db w) p (db w').
Proof.
  intros Hop Htask Htp Hrev Hrevp -> Hs. unfold start_body in Hs.
  apply action_bind_Ok in Hs as ([] & w1 & Hchk & Hs).
  apply RunServices.keeps_Ok in Hchk as E1; [|apply RunServices.keeps_check]. clear Hchk.
  apply action_bind_Ok in Hs as (at_ & w2 & Hn & Hs).
  apply RunServices.keeps_Ok in Hn as E2; [|apply RunServices.keeps_now]. clear Hn.
  apply action_bind_Ok in Hs as (found & w3 & Hf & Hs).
  apply RunServices.keeps_Ok in Hf as E3; [|apply keeps_readActive].
  assert (configuration c = None → found = None) as Hnone.
  { intros Hc. unfold readActiveConfiguration in Hf. rewrite Hc in Hf. by injection Hf as <-. }
  clear Hf. apply action_bind_Ok in Hs as (choice & w4 & Hch & Hs).
  apply RunServices.keeps_Ok in Hch as E4; [|apply keeps_select].
  apply selectDefinition_Ok in Hch as [Horigin _].
  assert (db w3 = db w) as E by congruence. rewrite E in Horigin, E4. clear E E1 E2 E3 w1 w2.
  apply action_bind_Ok in Hs as (ids & w5 & Hids & Hs).
  apply RunServices.keeps_Ok in Hids as E5; [|apply keeps_generate_all]. clear Hids.
  apply action_bind_Ok in Hs as (runId & w6 & Hid & Hs).
  apply RunServices.keeps_Ok in Hid as E6; [|apply RunServices.keeps_generate]. clear Hid.
  apply lift_bind_Ok in Hs as (q & Hq & Hs).
  apply action_bind_Ok in Hs as (moved & w7 & (s & (-> & [Ha ->]%Task.transition_Ok)%on_task_Ok & E7)%on_base_Ok & Hs).
  assert (db w7 = db w) as E by (rewrite E7; simpl; rewrite <- E4, <- E5, <- E6; by destruct (db w6)).
  clear E4 E5 E6 E7.
  apply action_bind_Ok in Hs as ([] & w8 & (s & (Htasks & Hdeps)%save_task_Ok & E8)%on_base_Ok & Hs).
  simpl in Htasks, Hdeps. rewrite E in Htasks, Hdeps, E8.
  apply action_bind_Ok in Hs as ([] & w9 & Hins & Hs).
  apply (insert_Ok _ _ _ _ Hq) in Hins as (Hnew & Hact & Hknown & _ & Hok & z & E9).
  assert (p = q ∧ same_work (db w9) (db w')) as [-> [T D P R (A & O & L & M)]].
  { split.
    - revert Hs. apply (returns_bind q). intros _. apply (returns_bind q). intros first.
      apply (returns_bind q). intros _. apply (returns_bind q). intros _. apply returns_ret.
    - revert Hs. generalize (started_payload input revision choice). intros payload Hs.
      assert (quiet (event q "pipeline.started" (operator (si_principal input)) payload;;
        first ← current_stage_id q;
        event q "pipeline.stage_activated" (operator (si_principal input)) [("stageId", CStr first)];;
        enqueueCurrentStage c q;; mret q)) as Hquiet; [|by eapply Hquiet].
      apply quiet_then; [apply event_quiet|]. intros _.
      apply quiet_then; [apply current_stage_id_quiet|]. intros first.
      apply quiet_then; [apply event_quiet|]. intros _.
      apply quiet_then; [apply enqueue_quiet|]. intros _. by apply quiet_keeps. }
  rewrite E8 in Hnew, Hact, Hknown, E9. simpl in *.
  constructor; simpl.
  - done.
  - exists revision, found, choice, ids, runId, at_. rewrite Hop in Hq. done.
  - split_and!; [done|done|by rewrite P, E9|done].
  - exists task, at_. split_and!; [done..|]. by rewrite T, E9.
  - by rewrite T, E9.
  - by rewrite D, R, A, O, L, M, E9.
Qed.

Lemma start_Ok input w p w' :
  start c input w = (Ok p, w') → started input (db w) (meanwhile (db w)) p (db w').
Proof.
  unfold start. intros ([[task revision] def] & w1 & Hc & Hs)%action_bind_Ok.
  apply start_checks_Ok in Hc as (E & Hop & Ht & Htp & Hrev & Hrp & Hdef).
  apply action_bind_Ok in Hs as ([] & w2 & [= <-] & (_ & w3 & Hb & E3)%RunServices.commit_Ok).
  rewrite E3. rewrite <- E. eapply start_body_Ok in Hb; simpl in *; try done; by rewrite E.
Qed.

End services.

(** * The invariant *)

Record runs_ok (d : tables) : Prop := {
  ro_rows : rows_ok d;
  ro_reached i p : pipelines d !! i = Some p → reachable (λ _, True) p;
  ro_ended i p : pipelines d !! i = Some p → status p ≠ run_active →
    ∃ t, Store.tasks (base d) !! taskId p = Some t ∧ Task.status t = task_end (status p);
  ro_one i j p q : pipelines d !! i = Some p → pipelines d !! j = Some q →
    status p = run_active → status q = run_active → projectId p = projectId q →
    taskId p = taskId q → i = j
}.

Lemma task_end_terminal st : Task.isTerminalTaskStatus (task_end st) = true.
Proof. by destruct st. Qed.

(** A task whose status may change is not the task of a run that ended. *)
Lemma open_task_not_ended d i p t to :
  runs_ok d → pipelines d !! i = Some p → status p ≠ run_active →
  Store.tasks (base d) !! taskId p = Some t → Task.isTaskTransitionAllowed (Task.status t) to = false.
Proof.
  intros Hok Hp Hst Ht. destruct (ro_ended _ Hok _ _ Hp Hst) as (u & Hu & Hus).
  assert (u = t) as -> by congruence. rewrite Hus. by destruct (status p), to.
Qed.

Lemma row_of_task d k t : rows_ok d → Store.tasks (base d) !! k = Some t → Task.id t = k.
Proof. intros [_ Hk]. apply Hk. Qed.

(** A run of the aggregate whose task was settled with it. *)
Lemma settled_ok d d' p x z p' :
  runs_ok d → pipelines d !! id p = Some p → run_call x (Some z) p = (Ok tt, p') →
  transition p (Some z) x p' → settled p' d d' → row_ok p' → runs_ok d'.
Proof.
  intros Hok Hp Hcall Ht [P T _ _ _] Hrow.
  destruct (transition_frame _ _ _ _ Ht) as (Hact & _ & _ & _ & _ & Hf).
  injection Hf as Hid Hpid Htid _ _ _ _ _ _. rewrite Hid in P.
  assert (∀ k t, Store.tasks (base d) !! k = Some t → (k ≠ taskId p' ∨ status p' = run_active) →
    Store.tasks (base d') !! k = Some t) as Hkeep.
  { intros k t Hk Hor. unfold task_settled in T. destruct (status p').
    - by rewrite T.
    - destruct T as (u & at_ & _ & _ & _ & -> & _). destruct Hor; [|done]. by rewrite lookup_insert_ne.
    - destruct T as (u & at_ & _ & _ & _ & -> & _). destruct Hor; [|done]. by rewrite lookup_insert_ne. }
  constructor.
  - constructor.
    + intros i q. rewrite P. intros [[<- <-]|[_ Hq]]%lookup_insert_Some.
      * by rewrite Hid.
      * by destruct (rk_run _ (ro_rows _ Hok) _ _ Hq).
    + intros k t. pose proof (rk_keyed _ (ro_rows _ Hok)) as Hk. unfold task_settled in T.
      destruct (status p'); [rewrite T; apply Hk|..];
        destruct T as (u & at_ & Hu & _ & _ & -> & _);
        intros [[<- <-]|[_ Ht']]%lookup_insert_Some; try (by apply Hk); by apply (Hk _ _ Hu).
  - intros i q. rewrite P. intros [[<- <-]|[_ Hq]]%lookup_insert_Some.
    + eapply reachable_step; [by eapply ro_reached|]. by exists x, (Some z).
    + by eapply ro_reached.
  - intros i q. rewrite P. intros [[<- <-]|[_ Hq]]%lookup_insert_Some Hst.
    + unfold task_settled in T. destruct (status p'); [done|..];
        destruct T as (u & at_ & _ & _ & _ & -> & _); rewrite lookup_insert_eq;
        by eexists; split.
    + destruct (ro_ended _ Hok _ _ Hq Hst) as (u & Hu & Hus). exists u. split; [|done].
      apply Hkeep; [done|]. destruct (status p') eqn:Hs'; [by right|left..]; intros He;
        unfold task_settled in T; rewrite Hs' in T;
        destruct T as (t & at_ & Ht' & _ & Ha & _); rewrite <- He in Ht';
        by rewrite (open_task_not_ended _ _ _ _ _ Hok Hq Hst Ht') in Ha.
  - intros i j q r. rewrite P. intros Hq Hr Hqa Hra Hpp Htt.
    apply lookup_insert_Some in Hq as [[<- <-]|[Hi Hq]];
      apply lookup_insert_Some in Hr as [[<- <-]|[Hj Hr]]; try done.
    + eapply (ro_one _ Hok); [exact Hp|exact Hr|done..| |]; congruence.
    + eapply (ro_one _ Hok); [exact Hq|exact Hp|done..| |]; congruence.
    + by eapply (ro_one _ Hok).
Qed.

Lemma active_for_task_false p d i q :
  active_for_task p d = false → status p = run_active → pipelines d !! i = Some q →
  status q = run_active → projectId q = projectId p → taskId q ≠ taskId p.
Proof.
  unfold active_for_task, run_is_active. intros Ha Hpa; rewrite Hpa in Ha; intros Hq Hqa Hpp Htt. simpl in Ha.
  apply not_true_iff_false in Ha. apply Ha, existsb_exists. exists (i, q). split.
  - by apply list_elem_of_In, elem_of_map_to_list.
  - simpl. by rewrite Hqa, Hpp, Htt, !bool_decide_refl.
Qed.

Lemma started_ok `{Store.Environment} c input d p d' :
  runs_ok d → started c input d d p d' → runs_ok d'.
Proof.
  intros Hok [_ (revision & found & choice & ids & runId & at_ & _ & _ & _ & _ & Hc)
    (Hnew & Hact & P & Hrow) (t & at2 & Ht & _ & Ha & T) _ _].
  pose proof (row_of_task _ _ _ (ro_rows _ Hok) Ht) as Hid.
  destruct (create_fields _ _ Hc) as (Hpa & _). rewrite Hid in T.
  assert (Task.id (saved_task (Task.with_status t Task.running at2) (base d)) = si_taskId input) as Hsid
    by (unfold saved_task; simpl; by rewrite Hid, Ht).
  constructor.
  - constructor.
    + intros i q. rewrite P. intros [[<- <-]|[_ Hq]]%lookup_insert_Some; [done|].
      by destruct (rk_run _ (ro_rows _ Hok) _ _ Hq).
    + intros k u. rewrite T. intros [[<- <-]|[_ Hu]]%lookup_insert_Some; [done|].
      by apply (rk_keyed _ (ro_rows _ Hok)).
  - intros i q. rewrite P. intros [[<- <-]|[_ Hq]]%lookup_insert_Some; [|by eapply ro_reached].
    by eapply reachable_create, create_stored.
  - intros i q. rewrite P. intros [[<- <-]|[_ Hq]]%lookup_insert_Some Hst; [done|].
    destruct (ro_ended _ Hok _ _ Hq Hst) as (u & Hu & Hus). exists u. split; [|done].
    rewrite T, lookup_insert_ne; [done|]. intros He. rewrite <- He in Hu.
    assert (u = t) as -> by congruence.
    rewrite He in Ht. rewrite (open_task_not_ended _ _ _ _ _ Hok Hq Hst Ht) in Ha. done.
  - intros i j q r. rewrite P. intros Hq Hr Hqa Hra Hpp Htt.
    apply lookup_insert_Some in Hq as [[<- <-]|[Hi Hq]];
      apply lookup_insert_Some in Hr as [[<- <-]|[Hj Hr]]; try done.
    + by destruct (active_for_task_false _ _ _ _ Hact Hpa Hr Hra (eq_sym Hpp)).
    + by destruct (active_for_task_false _ _ _ _ Hact Hpa Hq Hqa Hpp).
    + by eapply (ro_one _ Hok).
Qed.

(** Changes that leave the pipelines alone and the ended tasks as they are. *)
Lemma tasks_ok d d' :
  runs_ok d → pipelines d' = pipelines d → keyed (base d') →
  (∀ k t, Store.tasks (base d) !! k = Some t →
     ∃ t', Store.tasks (base d') !! k = Some t' ∧ succeeds t t') →
  runs_ok d'.
Proof.
  intros Hok P Hk T. constructor.
  - constructor; [|done]. rewrite P. apply Hok.
  - rewrite P. apply Hok.
  - intros i p. rewrite P. intros Hp Hst. destruct (ro_ended _ Hok _ _ Hp Hst) as (t & Ht & Hts).
    destruct (T _ _ Ht) as (t' & Ht' & _ & _ & Hter). exists t'. split; [done|].
    rewrite Hter; [done|]. rewrite Hts. apply task_end_terminal.
  - rewrite P. apply Hok.
Qed.

(** * Identifiers are not given back *)

Create HintDb grow.

Definition grows {A} (m : command A) : Prop := ∀ w, generated w ≤ generated (m w).2.

Lemma grows_bind {A B} (m : command A) (k : A → command B) :
  grows m → (∀ a, grows (k a)) → grows (m ≫= k).
Proof.
  intros Hm Hk w. unfold mbind, action_bind. specialize (Hm w).
  destruct (m w) as [[a|e] w1]; simpl in *; [|done]. etrans; [done|]. apply Hk.
Qed.

Lemma grows_run {A} (m : command A) : grows m → grows (RunStore.run m).
Proof.
  intros Hm w. unfold RunStore.run. destruct (active w); [done|].
  specialize (Hm {| db := db w; active := true; ticks := ticks w; generated := generated w |}).
  by destruct (m _) as [[a|e] w1].
Qed.

Lemma grows_on_base {A} (m : Store.command A) : monotone m → grows (on_base m).
Proof.
  intros Hm w. unfold on_base. specialize (Hm (store_world w)).
  by destruct (m (store_world w)) as [r s].
Qed.

Lemma grows_savepoint {A} (m : command A) : grows m → grows (savepoint m).
Proof.
  intros Hm w. unfold savepoint. specialize (Hm w). by destruct (m w) as [[a|e] w1].
Qed.

#[local] Ltac unfold_head m :=
  match m with
  | ?f _ => unfold_head f
  | ?f => unfold f
  end.

#[local] Ltac grow :=
  repeat match goal with
  | |- grows (mret _) => intros ?; apply Nat.le_refl
  | |- grows (mthrow _) => intros ?; apply Nat.le_refl
  | |- grows (lift _) => intros ?; apply Nat.le_refl
  | |- grows (refuse_if _ _) => intros ?; apply Nat.le_refl
  | |- grows (read _) => intros ?; apply Nat.le_refl
  | |- grows (write _) => intros ?; apply Nat.le_refl
  | |- grows pause => intros ?; apply Nat.le_refl
  | |- grows now => intros ?; apply Nat.le_refl
  | |- grows generate => intros ?; apply Nat.le_succ_diag_r
  | |- grows (mbind _ _) => apply grows_bind; [|intros ?]
  | |- grows (RunStore.run _) => apply grows_run
  | |- grows (savepoint _) => apply grows_savepoint
  | |- grows (on_base _) => apply grows_on_base
  | |- grows (match ?x with _ => _ end) => destruct x
  | H : _ |- grows _ => solve [apply H]
  | |- grows ?m => progress unfold_head m
  | |- monotone _ => solve [eauto 20 with grow]
  end.

#[local] Hint Resolve monotone_record monotone_save monotone_on_task monotone_read : grow.
#[local] Hint Extern 1 (monotone (Store.find_task _)) => apply monotone_read : grow.
#[local] Hint Extern 1 (monotone (Store.list_dependencies _)) => apply monotone_read : grow.
#[local] Hint Extern 1 (monotone (TaskServices.assertTaskPrerequisitesComplete _ _ _)) =>
  apply monotone_readonly, prerequisites_complete_readonly : grow.

Section services.
  Context `{ShowNumber} `{Store.Environment} `{Meanwhile} (c : Composition).

Lemma grows_insert_stages runId projectId_ l : grows (insert_stages runId projectId_ l).
Proof. induction l; simpl; grow. Qed.

Lemma grows_update_stages runId projectId_ l : grows (update_stages runId projectId_ l).
Proof. induction l; simpl; grow. Qed.

Lemma grows_generate_all n : grows (generate_all n).
Proof. induction n; simpl; grow. Qed.

Lemma grows_event p type actor payload : grows (event p type actor payload).
Proof. grow. Qed.

Lemma grows_enqueue p : grows (enqueueCurrentStage c p).
Proof. grow. Qed.

Lemma grows_afterAdvance p q actor : grows (afterAdvance c p q actor).
Proof. pose proof grows_event. pose proof grows_enqueue. grow. Qed.

Lemma grows_sync p : grows (syncTaskTerminal c p).
Proof. grow. Qed.

Lemma grows_save p v : grows (PipelineStore.save p v).
Proof. pose proof grows_update_stages. grow. Qed.

Lemma grows_serve r : grows (serve c r).
Proof.
  pose proof grows_event. pose proof grows_enqueue. pose proof grows_afterAdvance.
  pose proof grows_sync. pose proof grows_save.
  destruct r; simpl; grow.
Qed.

Lemma grows_insert p : grows (PipelineStore.insert p).
Proof. pose proof grows_insert_stages. grow. Qed.

Lemma grows_start input : grows (start c input).
Proof.
  pose proof grows_event. pose proof grows_enqueue. pose proof grows_insert.
  pose proof grows_generate_all. grow.
Qed.

Context `{Orchestration.Collation} (sc : RunServices.Composition).

Lemma grows_schedule input : grows (RunServices.schedule sc input).
Proof. grow. Qed.

(** * Every request keeps the invariant *)

(** A request is served to its end before the next one begins. *)
Hypothesis sequential : ∀ d, meanwhile d = d.

(** No task has an identifier that is still to come. *)
Definition world_ok (w : world) : Prop :=
  runs_ok (db w) ∧ ∀ n, generated w ≤ n → Store.tasks (base (db w)) !! Store.id_at n = None.

Definition safe {A} (m : command A) : Prop := ∀ w, world_ok w → world_ok (m w).2.

Lemma safe_bind {A B} (m : command A) (k : A → command B) :
  safe m → (∀ a, safe (k a)) → safe (m ≫= k).
Proof.
  intros Hm Hk w Hw. unfold mbind, action_bind. specialize (Hm w Hw).
  destruct (m w) as [[a|e] w1]; simpl in *; [by apply Hk|done].
Qed.

(** The tables after a command that asks for no new task. *)
Lemma world_ok_next w w' :
  world_ok w → generated w ≤ generated w' → runs_ok (db w') →
  (∀ k, is_Some (Store.tasks (base (db w')) !! k) → is_Some (Store.tasks (base (db w)) !! k)) →
  world_ok w'.
Proof.
  intros [_ Hf] Hg Hok Hd. split; [done|]. intros n Hn. apply eq_None_not_Some. intros Hs.
  apply Hd in Hs as [t Ht]. rewrite Hf in Ht; [done|lia].
Qed.

Lemma safe_keeps {A} (m : command A) : RunServices.keeps m → grows m → safe m.
Proof.
  intros Hk Hg w Hw. apply (world_ok_next w); [done|apply Hg|..]; rewrite Hk; [by apply Hw|done].
Qed.

Lemma settled_tasks p d d' k :
  settled p d d' → is_Some (Store.tasks (base d') !! k) → is_Some (Store.tasks (base d) !! k).
Proof.
  intros [_ T _ _ _]. unfold task_settled in T.
  destruct (status p); [by rewrite T|..]; destruct T as (t & at_ & Ht & _ & _ & -> & _);
    intros [u [[<- _]|[_ Hu]]%lookup_insert_Some]; eauto.
Qed.

Lemma safe_serve r : safe (serve c r).
Proof.
  intros w Hw. pose proof (grows_serve r w) as Hg.
  assert (before r (db w) = db w) as Eb by by destruct r; simpl; rewrite ?sequential.
  destruct (serve c r w) as [[p'|e] w'] eqn:Hs; simpl in *.
  - apply serve_Ok in Hs; rewrite Eb in *; [|apply Hw].
    destruct Hs as (p & x & z & Hp & _ & Hcall & Ht & Hset & Hrow). destruct Hw as [Hok Hf].
    apply (world_ok_next w); [done..| |].
    + by eapply settled_ok.
    + intros k. by eapply settled_tasks.
  - assert (db w' = db w) as E by (apply serve_Throw in Hs; rewrite Eb in Hs; tauto).
    apply (world_ok_next w); [done..| |]; rewrite E; [by apply Hw|done].
Qed.

Lemma keeps_start_checks input : RunServices.keeps (start_checks c input).
Proof.
  unfold start_checks. apply RunServices.keeps_bind; [done|]. intros _.
  apply RunServices.keeps_bind.
  { apply RunServices.keeps_bind; [by apply RunServices.keeps_on_base|]. intros [t|]; [|done].
    by destruct (bool_decide _). }
  intros task. apply RunServices.keeps_bind; [apply RunServices.keeps_check|]. intros _.
  apply RunServices.keeps_bind; [done|]. intros running.
  apply RunServices.keeps_bind; [done|]. intros _.
  apply RunServices.keeps_bind; [done|]. intros latest.
  apply RunServices.keeps_bind; [by destruct latest|]. intros revision.
  apply RunServices.keeps_bind; [destruct (bool_decide _); [done|apply keeps_selects_packs]|].
  intros packs. apply RunServices.keeps_bind; [|done].
  destruct (negb packs); [|done]. by destruct (List.find _ _).
Qed.

Lemma start_Throw input w e w' : start c input w = (Throw e, w') → db w' = db w.
Proof.
  unfold start. intros [Hs|(x & w1 & Hc & Hs)]%action_bind_Throw.
  { by apply keeps_Throw in Hs; [|apply keeps_start_checks]. }
  apply RunServices.keeps_Ok in Hc; [|apply keeps_start_checks].
  apply action_bind_Throw in Hs as [Hs|([] & w2 & [= <-] & Hs)]; [done|].
  apply RunServices.run_Throw in Hs. rewrite Hs. simpl. by rewrite sequential.
Qed.

Lemma safe_start input : safe (start c input).
Proof.
  intros w Hw. pose proof (grows_start input w) as Hg.
  destruct (start c input w) as [[p|e] w'] eqn:Hs; simpl in *.
  - apply start_Ok in Hs. rewrite sequential in Hs. apply (world_ok_next w); [done..| |].
    + eapply started_ok; [|done]. apply Hw.
    + destruct Hs as [_ _ _ (t & at_ & Ht & _ & _ & ->) _ _]. intros k [u Hu].
      apply lookup_insert_Some in Hu as [[<- _]|[_ Hu]]; [|eauto].
      rewrite (row_of_task _ _ _ (ro_rows _ (proj1 Hw)) Ht). eauto.
  - apply start_Throw in Hs. apply (world_ok_next w); [done..| |]; rewrite Hs; [by apply Hw|done].
Qed.

Lemma record_run_start_tasks row d : Store.tasks (record_run_start row d) = Store.tasks d.
Proof. unfold record_run_start. by repeat case_match. Qed.

Lemma safe_schedule input : safe (RunServices.schedule sc input).
Proof.
  intros w Hw. pose proof (grows_schedule input w) as Hg.
  destruct (RunServices.schedule sc input w) as [[i|e] w'] eqn:Hs; simpl in *.
  - apply RunServices.schedule_Ok in Hs as (_ & _ & _ & _ & agent & role & stage & p & row & Hsch & _).
    destruct Hsch. destruct sc_same as (_ & _ & Hpl).
    apply (world_ok_next w); [done..| |].
    + eapply tasks_ok; [apply Hw|done|..]; unfold keyed; rewrite sc_base, record_run_start_tasks.
      * apply (rk_keyed _ (ro_rows _ (proj1 Hw))).
      * intros k t Ht. eauto using succeeds_refl.
    + intros k. by rewrite sc_base, record_run_start_tasks.
  - apply RunServices.schedule_Throw in Hs.
    apply (world_ok_next w); [done..| |]; rewrite Hs; [by apply Hw|done].
Qed.

(** The command of the scrutinee, when what it throws is caught. *)
#[local] Ltac caught Hw :=
  match goal with
  | |- context [completeStageFromAgentRun ?x ?i ?w] =>
      pose proof (safe_serve (RComplete i) w Hw : world_ok (completeStageFromAgentRun x i w).2);
      destruct (completeStageFromAgentRun x i w) as [[?|?] ?]; simpl in *
  end.

Lemma safe_replay job p run : safe (Orchestration.replay_completion c job p run).
Proof.
  intros w Hw. unfold Orchestration.replay_completion. caught Hw; [done|]. by destruct (_ || _).
Qed.

Lemma safe_resume input s : safe (Orchestration.resume c input s).
Proof.
  intros w Hw. unfold Orchestration.resume. caught Hw; [done|].
  destruct (Orchestration.isPrerequisiteRefusal _); [done|].
  by destruct (Orchestration.isSuperseded _).
Qed.

Lemma keeps_eligible projectId_ p stage l :
  RunServices.keeps (Orchestration.eligible_agents projectId_ p stage l).
Proof.
  induction l as [|a l IH]; [done|]. apply RunServices.keeps_bind.
  - destruct (ag_enabled a); [|done].
    apply RunServices.keeps_bind; [apply RunServices.keeps_findRole|done].
  - intros fits. by apply RunServices.keeps_bind.
Qed.

Lemma grows_eligible projectId_ p stage l :
  grows (Orchestration.eligible_agents projectId_ p stage l).
Proof. induction l; simpl; grow. Qed.

Lemma safe_done {A} (r : result error A) : safe (lift r).
Proof. by intros w Hw. Qed.

Lemma keeps_find_task k : RunServices.keeps (on_base (Store.find_task k)).
Proof. apply RunServices.keeps_on_base, Store.db_readonly_read. Qed.

Lemma keeps_restored (f : tables → list (string * RunRow)) :
  RunServices.keeps (rows ← read f; lift (restore_runs rows)).
Proof. by apply RunServices.keeps_bind; [|intros ?]. Qed.

Lemma safe_choose job p stage : safe (Orchestration.choose_agent job p stage).
Proof.
  unfold Orchestration.choose_agent. destruct (sr_assignedAgentId stage); [apply safe_done|].
  apply safe_bind; [by apply safe_keeps; [|grow]|]. intros all.
  apply safe_bind; [by apply safe_keeps; [apply keeps_eligible|apply grows_eligible]|].
  intros l. destruct (sort_by _ _) as [|a l']; [by intros w Hw|].
  apply safe_bind; [apply (safe_serve (RAssign _ _))|]. intros. by intros w Hw.
Qed.

Lemma safe_orchestrate job : safe (Orchestration.orchestrate c sc job).
Proof.
  apply safe_bind; [by apply safe_keeps; [|grow]|]. intros [p|]; [|by intros w Hw].
  apply safe_bind; [by apply safe_keeps; [|grow]|]. intros [stage|]; [|by intros w Hw].
  destruct (_ && _); [|by intros w Hw].
  apply safe_bind; [by apply safe_keeps; [apply keeps_restored|grow]|]. intros all.
  unfold Orchestration.settle_stage. destruct (List.find Orchestration.is_open_run _); [by intros w Hw|].
  destruct (List.find _ _) as [r|].
  { apply safe_bind; [by apply safe_keeps; [|grow]|]. intros _.
    apply safe_bind; [apply safe_replay|]. intros. by intros w Hw. }
  destruct (existsb _ _); [by intros w Hw|]. unfold Orchestration.start_stage.
  apply safe_bind; [apply safe_choose|]. intros agentId.
  apply safe_bind; [by apply safe_keeps; [apply keeps_find_task|grow]|]. intros task.
  apply safe_bind; [by apply safe_keeps; [|grow]|]. intros _.
  apply safe_bind; [apply safe_schedule|]. intros. by intros w Hw.
Qed.

Lemma safe_recover input : safe (Orchestration.recover c input).
Proof.
  apply safe_bind; [by apply safe_keeps; [|grow]|]. intros all.
  apply safe_bind; [by apply safe_keeps; [apply keeps_restored|grow]|]. intros agentRuns.
  apply safe_bind.
  { apply safe_keeps; [apply RunServices.keeps_on_base, Store.db_readonly_read|].
    apply grows_on_base, monotone_read. }
  intros allTasks. apply safe_bind.
  { apply safe_keeps; [|grow]. destruct (guarded c); [|done].
    apply RunServices.keeps_on_base, Store.db_readonly_read. }
  intros edges. apply safe_bind; [apply safe_done|]. intros l.
  induction l as [|s l IH]; [by intros w Hw|]. simpl. apply safe_bind.
  - unfold Orchestration.recover_one. destruct (Orchestration.is_terminal_in _ _); [by intros w Hw|].
    apply safe_bind; [apply safe_done|]. intros blockedBy.
    destruct (0 <? _); [by intros w Hw|apply safe_resume].
  - intros o. apply safe_bind; [exact IH|]. intros. by intros w Hw.
Qed.

Context `{!EnvironmentLaws} (sha256 : string → string).

Lemma safe_task r : safe (on_base (TaskServices.serve sha256 r)).
Proof.
  intros w [Hok Hf]. unfold on_base.
  pose proof (serve_monotone sha256 r (store_world w)) as Hg.
  destruct (TaskServices.serve sha256 r (store_world w)) as [[u|e] s] eqn:Hs; simpl in *.
  - apply serve_tasks in Hs as (Hk & Hts & Hd); simpl in *; [|by apply Hok|done]. split; simpl.
    + eapply tasks_ok; [exact Hok|done|done|done].
    + intros n Hn. apply eq_None_not_Some. intros Hx.
      apply Hd in Hx as [Hx|(m & Hm & Heq)].
      * rewrite Hf in Hx; [by destruct Hx|lia].
      * apply id_at_inj in Heq. lia.
  - apply serve_atomic in Hs. simpl in Hs.
    apply (world_ok_next w); simpl; [done|done|..]; rewrite Hs; [|done].
    by destruct (db w).
Qed.

(** * Histories *)

(** What the host is asked for, of the services of this library that touch a
    project's tasks and pipeline runs. *)
Inductive office_request :=
| ReqTask (r : TaskServices.request)
| ReqStart (input : start_input)
| ReqPipeline (r : pipeline_request)
| ReqSchedule (input : RunServices.schedule_input)
| ReqOrchestrate (job : Orchestration.stage_job)
| ReqRecover (input : Orchestration.recovery_input).

Definition serve_office (r : office_request) : command unit :=
  match r with
  | ReqTask r => on_base (TaskServices.serve sha256 r)
  | ReqStart input => start c input;; mret tt
  | ReqPipeline r => serve c r;; mret tt
  | ReqSchedule input => RunServices.schedule sc input;; mret tt
  | ReqOrchestrate job => Orchestration.orchestrate c sc job;; mret tt
  | ReqRecover input => Orchestration.recover c input;; mret tt
  end.

Fixpoint serve_office_all (l : list office_request) (w : world) : world :=
  match l with
  | [] => w
  | r :: l => serve_office_all l (serve_office r w).2
  end.

(** A database on which no pipeline has run. *)
Definition no_runs_yet (w : world) : Prop :=
  pipelines (db w) = ∅ ∧ keyed (base (db w)) ∧
  ∀ n, generated w ≤ n → Store.tasks (base (db w)) !! Store.id_at n = None.

Lemma no_runs_ok w : no_runs_yet w → world_ok w.
Proof.
  intros (Hp & Hk & Hf). split; [|done]. constructor; [constructor; [|done]|..]; rewrite Hp.
  - by intros i p ?%lookup_empty_Some.
  - by intros i p ?%lookup_empty_Some.
  - by intros i p ?%lookup_empty_Some.
  - by intros i j p q ?%lookup_empty_Some.
Qed.

Lemma safe_office r : safe (serve_office r).
Proof.
  destruct r; simpl; [apply safe_task|..]; (apply safe_bind; [|by intros ? w Hw]).
  - apply safe_start.
  - apply safe_serve.
  - apply safe_schedule.
  - apply safe_orchestrate.
  - apply safe_recover.
Qed.

Lemma serve_office_ok l w : world_ok w → world_ok (serve_office_all l w).
Proof. revert w. induction l as [|r l IH]; intros w Hw; [done|]. by apply IH, safe_office. Qed.

(** * Properties of histories *)

(** C14: whatever requests a project's host serves, one after the other, every
    stored pipeline run is filed under its identifier and is a run the
    aggregate reaches from a creation by its own calls: the repository, its
    triggers and the services add no state to those the aggregate has, so all
    that holds of its reachable runs (well-formed stages, agents kept apart,
    approvals where the definition demands them) holds of the database. *)
Theorem stored_runs_reached l w i p :
  no_runs_yet w → pipelines (db (serve_office_all l w)) !! i = Some p →
  id p = i ∧ reachable (λ _, True) p ∧ wf p.
Proof.
  intros Hw Hp. destruct (serve_office_ok l w (no_runs_ok _ Hw)) as [Hok _].
  destruct (rk_run _ (ro_rows _ Hok) _ _ Hp) as [Hid []]. split_and!; [done| |done].
  by eapply ro_reached.
Qed.


(** At most one run of a task is active at any time, in every history. *)
Theorem one_active_run_per_task l w i j p q :
  no_runs_yet w → pipelines (db (serve_office_all l w)) !! i = Some p →
  pipelines (db (serve_office_all l w)) !! j = Some q → status p = run_active →
  status q = run_active → projectId p = projectId q → taskId p = taskId q → i = j.
Proof.
  intros Hw. destruct (serve_office_ok l w (no_runs_ok _ Hw)) as [Hok _]. by eapply ro_one.
Qed.

End services.

(** * Properties of single requests *)

Section requests.
  Context `{ShowNumber} `{Store.Environment} `{Meanwhile} (c : Composition).

(** C13: a request that moves a run is one call of the aggregate on the stored
    row, made by whoever may make it (the local operator, on a run of the named
    project; for the completion of a stage, a completed or running agent run
    bound to that stage whose agent is assigned to it and has its role), and the
    whole of the call is stored. With it, in the same transaction, the task of a
    run that ended is ended, from a status that allows it and, when it is
    completed, with every prerequisite completed; nothing else of the work
    changes. A request that is refused leaves what its transaction found. *)
Theorem pipeline_command_commits r w :
  rows_ok (before r (db w)) →
  match serve c r w with
  | (Ok p', w') => committed r (db w) (before r (db w)) p' (db w')
  | (Throw _, w') => db w' = db w ∨ db w' = before r (db w)
  end.
Proof.
  intros Hok. destruct (serve c r w) as [[p'|e] w'] eqn:Hs; [by apply (serve_Ok c)|].
  by eapply (serve_Throw c).
Qed.

(** [start] saves the task it read before its transaction: whatever others
    did to the task in between, after a successful start its title, description
    and priority are those read, and it is running. *)
Theorem start_saves_the_task_it_read input w p w' task row :
  start c input w = (Ok p, w') → keyed (base (db w)) →
  Store.tasks (base (db w)) !! si_taskId input = Some task →
  Store.tasks (base (meanwhile (db w))) !! si_taskId input = Some row →
  ∃ t, Store.tasks (base (db w')) !! si_taskId input = Some t ∧ Task.status t = Task.running ∧
    (Task.title t, Task.description t, Task.priority t) =
    (Task.title task, Task.description task, Task.priority task).
Proof.
  intros Hs Hk Ht Hrow. apply (start_Ok c) in Hs as [_ _ _ (u & at_ & Hu & _ & _ & T) _ _].
  assert (u = task) as -> by congruence. pose proof (Hk _ _ Ht) as Hid. rewrite Hid in T.
  unfold saved_task in T. simpl in T. rewrite Hid, Hrow in T.
  eexists. rewrite T, lookup_insert_eq. by split_and!.
Qed.

Lemma stage_decision_exact input p s d :
  at_current p s d →
  ∃ de, Authorization.stage_decision input p s = Ok de ∧
    (Authorization.de_decision de = Authorization.allow ↔
     sr_status s = stage_active ∧ sr_assignedAgentId s = Some (Authorization.az_agentId input) ∧
     Authorization.az_operation input ∈ default [] (st_capabilities d)) ∧
    length (Authorization.de_reasons de) =
      match Authorization.de_decision de with Authorization.allow => 0 | Authorization.deny => 1 end.
Proof.
  intros [_ _ Hd Hi]. unfold Authorization.stage_decision. rewrite Hi, Hd.
  destruct (sr_status s); try (eexists; split; [done|]; naive_solver).
  case_bool_decide as Ha; simpl; [|eexists; split; [done|]; naive_solver].
  unfold Authorization.grants at 1. destruct (includes _ _) eqn:Hg; simpl.
  - apply includes_spec in Hg. eexists. split; [done|]. naive_solver.
  - apply includes_false in Hg. eexists. split; [done|]. naive_solver.
Qed.

(** C33: an agent's operation under a pipeline is allowed exactly when the run
    is active, its current stage is active and assigned to that agent, and the
    definition the run froze grants the operation to that stage; the evaluation
    always answers, changes nothing, and gives one reason for every refusal. *)
Theorem authorization_exact input runId w :
  rows_ok (db w) → Authorization.az_pipelineRunId input = Some runId →
  ∃ de, Authorization.evaluate input w = (Ok de, w) ∧
    (Authorization.de_decision de = Authorization.allow ↔
     ∃ p s d, pipelines (db w) !! runId = Some p ∧ projectId p = Authorization.az_projectId input ∧
       at_current p s d ∧ sr_status s = stage_active ∧
       sr_assignedAgentId s = Some (Authorization.az_agentId input) ∧
       Authorization.az_operation input ∈ default [] (st_capabilities d)) ∧
    length (Authorization.de_reasons de) =
      match Authorization.de_decision de with Authorization.allow => 0 | Authorization.deny => 1 end.
Proof.
  intros Hok Hrun. unfold Authorization.evaluate, findById. rewrite Hrun, RunStore.read_bind.
  destruct (pipelines (db w) !! runId) as [p|] eqn:Hp; [|eexists; split; [done|]; naive_solver].
  case_bool_decide as Hpp; [|eexists; split; [done|]; naive_solver].
  destruct (run_is_active (restore p)) eqn:Ha; simpl.
  2:{ eexists; split; [done|]. split; [|done]. split; [done|].
      intros (q & s & d & [= <-] & _ & [Hact _ _ _] & _).
      unfold run_is_active, restore in Ha. by rewrite Hact in Ha. }
  assert (status p = run_active) as Hact
    by (unfold run_is_active, restore in Ha; by destruct (status p)).
  destruct (rk_run _ Hok _ _ Hp) as [_ [Hwf _ _ _ _ _ _]].
  destruct (wf_at_current _ Hwf Hact) as (s & d & Hat & _ & _).
  unfold current_stage, restore. rewrite (currentStage_at _ _ _ Hat).
  destruct (stage_decision_exact input p s d Hat) as (de & Hde & Hiff & Hlen).
  exists de. unfold mbind, action_bind, lift. simpl. rewrite Hde. split_and!; [done| |done].
  rewrite Hiff. split.
  - intros (? & ? & ?). by exists p, s, d.
  - intros (q & s' & d' & [= <-] & _ & Hat' & Hrest).
    destruct (at_current_inj _ _ _ _ _ Hat Hat') as [<- <-]. done.
Qed.

End requests.

(** * Samples and witnesses *)

#[local] Existing Instance decimal_number.
#[local] Existing Instance TaskHistory.sample_environment.
#[local] Existing Instance TaskHistory.sample_environment_laws.
#[local] Instance alone : Meanwhile := λ d, d.
#[local] Instance code_units : Orchestration.Collation := compare_text.

Definition sample_composition : Composition :=
  {| guarded := true; with_outbox := true; configuration := None |}.

Definition sample_stage (sid : string) : OfficePipelineStage :=
  {| st_id := sid; st_name := sid; st_roleId := "engineer"; st_objective := "work";
     st_checks := []; st_requiresApproval := false; st_requiresIndependentApproval := None;
     st_capabilities := Some ["edit"]; st_requiresDifferentAgentFrom := None |}.

Definition sample_manifest : OfficeManifestRevision :=
  {| rv_id := "m1"; rv_projectId := "p1"; rv_revision := 1;
     rv_manifest :=
       {| om_schemaVersion := 1;
          om_provenance := {| mp_host := "h"; mp_skill := "s"; mp_skillVersion := "1" |};
          om_project := {| pm_mission := "m"; pm_goals := []; pm_constraints := [];
                           pm_preferences := []; pm_permissionPreferences := [] |};
          om_office := {| vo_name := "o"; vo_roles := [] |};
          om_pipelines := [{| pl_id := "feature"; pl_name := "F"; pl_description := "";
            pl_defaultFor := []; pl_enforcement := Some enforced;
            pl_stages := [sample_stage "build"; sample_stage "ship"] |}] |};
     rv_appliedAt := Some 0%Z |}.

Definition sample_world : world :=
  {| db := let d := RunHistory.sample_tables in
           {| base := base d; roles := roles d; agents := agents d; runs := ∅; run_events := [];
              locks := ∅; pipelines := ∅; overrides := []; outbox := [];
              manifests := [sample_manifest] |};
     active := false; ticks := 0; generated := 0 |}.

Definition sample_start (taskId : string) : start_input :=
  {| si_projectId := "p1"; si_taskId := taskId; si_pipelineId := "feature"; si_source := None;
     si_principal := localOperatorPrincipal; si_actorLabel := None |}.

Definition sample_command (runId : string) : command_input :=
  {| ci_projectId := "p1"; ci_pipelineRunId := runId; ci_principal := localOperatorPrincipal;
     ci_actorLabel := None |}.

Definition sample_job (runId stageId : string) : Orchestration.stage_job :=
  {| Orchestration.sj_projectId := "p1"; Orchestration.sj_pipelineRunId := runId;
     Orchestration.sj_pipelineStageRunId := stageId |}.

(** One run is orchestrated and overridden to its end, a second start on its
    task is refused; the run of another task is cancelled. *)
Definition sample_history : list office_request :=
  [ReqTask (TaskServices.RCreate {| TaskServices.ct_projectId := "p1";
     TaskServices.ct_title := "second"; TaskServices.ct_description := None;
     TaskServices.ct_priority := None |});
   ReqStart (sample_start "t1"); ReqStart (sample_start "t1");
   ReqOrchestrate (sample_job "id-3" "id-1");
   ReqPipeline (ROverride (sample_command "id-3") "late");
   ReqPipeline (ROverride (sample_command "id-3") "later")].

Abbreviation sample_after l :=
  (serve_office_all sample_composition RunServices.sample_composition (λ s, s) l sample_world).

Lemma sample_starts : no_runs_yet sample_world.
Proof.
  split_and!; [done| |].
  - intros k t Ht. by apply (lookup_singleton_Some "t1" k RunHistory.sample_task t) in Ht as [<- <-].
  - intros n _. by apply lookup_singleton_ne.
Qed.

Lemma sample_ok l : world_ok (sample_after l).
Proof.
  apply serve_office_ok; [done|exact TaskHistory.sample_environment_laws|].
  apply no_runs_ok, sample_starts.
Qed.

Definition run_at (w : world) (runId : string) : Run :=
  default PipelineRun.sample_final (pipelines (db w) !! runId).

Lemma alone_sequential d : alone d = d.
Proof. done. Qed.

Lemma stored_runs_reached_witness :
  no_runs_yet sample_world ∧
  ∃ p, pipelines (db (sample_after sample_history)) !! "id-3" = Some p ∧
    id p = "id-3" ∧ reachable (λ _, True) p ∧ wf p.
Proof.
  split; [exact sample_starts|].
  destruct (pipelines (db (sample_after sample_history)) !! "id-3") as [p|] eqn:Hp.
  - exists p. split; [reflexivity|].
    exact (stored_runs_reached sample_composition RunServices.sample_composition alone_sequential
      (λ s, s) sample_history sample_world "id-3" p sample_starts Hp).
  - exfalso. revert Hp. by vm_compute.
Defined.


Lemma one_active_run_per_task_witness :
  ∃ p, pipelines (db (sample_after (take 3 sample_history))) !! "id-3" = Some p ∧
  status p = run_active ∧
  ∀ j q, pipelines (db (sample_after (take 3 sample_history))) !! j = Some q →
    status q = run_active → projectId q = projectId p → taskId q = taskId p → j = "id-3".
Proof.
  assert (status <$> pipelines (db (sample_after (take 3 sample_history))) !! "id-3" =
    Some run_active) as Hs by by vm_compute.
  destruct (pipelines (db (sample_after (take 3 sample_history))) !! "id-3") as [p|] eqn:Hp; [|done].
  injection Hs as Hs. exists p. split; [reflexivity|]. split; [exact Hs|].
  intros j q Hq Hqs Hqp Hqt.
  exact (one_active_run_per_task sample_composition RunServices.sample_composition alone_sequential
    (λ s, s) (take 3 sample_history) sample_world j "id-3" q p sample_starts Hq Hp Hqs Hs Hqp Hqt).
Defined.

(** An override of the first stage moves the run on. *)
Lemma pipeline_command_commits_witness :
  rows_ok (db (sample_after (take 3 sample_history))) ∧
  ∃ p' w', serve sample_composition (ROverride (sample_command "id-3") "late")
             (sample_after (take 3 sample_history)) = (Ok p', w') ∧ currentStageIndex p' = 1 ∧
    committed (ROverride (sample_command "id-3") "late") (db (sample_after (take 3 sample_history)))
      (db (sample_after (take 3 sample_history))) p' (db w').
Proof.
  pose proof (ro_rows _ (proj1 (sample_ok (take 3 sample_history)))) as Hok. split; [exact Hok|].
  pose proof ((λ w (Hw : rows_ok (db w)), pipeline_command_commits sample_composition
    (ROverride (sample_command "id-3") "late") w Hw) _ Hok) as Hc. cbn [before] in Hc.
  assert (match (serve sample_composition (ROverride (sample_command "id-3") "late")
             (sample_after (take 3 sample_history))).1 with
    | Ok p' => currentStageIndex p' =? 1 | Throw _ => false end = true) as Hs
    by (vm_compute; reflexivity).
  destruct (serve sample_composition (ROverride (sample_command "id-3") "late")
             (sample_after (take 3 sample_history))) as [[p'|e] w'] eqn:He; [|discriminate Hs].
  apply Nat.eqb_eq in Hs. exists p', w'. split; [reflexivity|]. split; [exact Hs|exact Hc].
Defined.

(** A task that is cancelled while [start] is on its way runs again. *)
Definition cancelled_meanwhile : Meanwhile := λ d,
  db (on_base (TaskServices.serve (λ s, s)
        (TaskServices.RLifecycle
           {| TaskServices.lr_operation := TaskServices.cancel; TaskServices.lr_projectId := "p1";
              TaskServices.lr_taskId := "t1"; TaskServices.lr_actorId := "ann";
              TaskServices.lr_reason := None |}))
      {| db := d; active := false; ticks := 0; generated := 100 |}).2.

Lemma start_saves_the_task_it_read_witness :
  (∃ row, Store.tasks (base (cancelled_meanwhile (db sample_world))) !! "t1" = Some row ∧
     Task.status row = Task.cancelled) ∧
  ∃ p w' t, start (H1 := cancelled_meanwhile) sample_composition (sample_start "t1") sample_world =
      (Ok p, w') ∧
    Store.tasks (base (db w')) !! "t1" = Some t ∧ Task.status t = Task.running.
Proof.
  destruct (Store.tasks (base (cancelled_meanwhile (db sample_world))) !! "t1") as [row|] eqn:Hrow;
    [|exfalso; revert Hrow; by vm_compute].
  split.
  { exists row. split; [reflexivity|].
    assert (Task.status <$> Store.tasks (base (cancelled_meanwhile (db sample_world))) !! "t1" =
      Some Task.cancelled) as Hs by by vm_compute.
    rewrite Hrow in Hs. by injection Hs. }
  assert (is_ok (start (H1 := cancelled_meanwhile) sample_composition (sample_start "t1")
    sample_world).1 = true) as Hok by by vm_compute.
  destruct (start (H1 := cancelled_meanwhile) sample_composition (sample_start "t1") sample_world)
    as [[p|e] w'] eqn:Hs; [|done].
  destruct (start_saves_the_task_it_read (H1 := cancelled_meanwhile) sample_composition
    (sample_start "t1") sample_world p w' RunHistory.sample_task row Hs (proj1 (proj2 sample_starts))
    ltac:(by vm_compute) Hrow) as (t & Ht & Hst & _).
  exists p, w', t. split; [reflexivity|]. split; [exact Ht|exact Hst].
Defined.

Definition sample_authorization (operation : string) : Authorization.authorization_input :=
  {| Authorization.az_projectId := "p1"; Authorization.az_agentId := "a1";
     Authorization.az_operation := operation; Authorization.az_pipelineRunId := Some "id-3" |}.

Lemma authorization_exact_witness :
  ∃ de, Authorization.evaluate (sample_authorization "edit") (sample_after (take 4 sample_history)) =
    (Ok de, sample_after (take 4 sample_history)) ∧
  Authorization.de_decision de = Authorization.allow ∧
  ∃ p s d, pipelines (db (sample_after (take 4 sample_history))) !! "id-3" = Some p ∧
    at_current p s d ∧ "edit" ∈ default [] (st_capabilities d).
Proof.
  destruct (authorization_exact (sample_authorization "edit") "id-3"
    (sample_after (take 4 sample_history)) (ro_rows _ (proj1 (sample_ok (take 4 sample_history))))
    eq_refl) as (de & Hde & Hiff & _).
  exists de. split; [exact Hde|].
  assert (Authorization.de_decision de = Authorization.allow) as Hal.
  { assert (match (Authorization.evaluate (sample_authorization "edit")
      (sample_after (take 4 sample_history))).1 with
      | Ok x => bool_decide (Authorization.de_decision x = Authorization.allow)
      | Throw _ => false end = true) as Hx by (vm_compute; reflexivity).
    rewrite Hde in Hx. exact (bool_decide_eq_true_1 _ Hx). }
  split; [exact Hal|]. apply Hiff in Hal as (p & s & d & Hp & _ & Hat & _ & _ & Hop).
  exists p, s, d. split; [exact Hp|]. split; [exact Hat|exact Hop].
Defined.

End PipelineHistory.
