(* ===== verification/GatewayModel.v ===== *)
(** The metered model gateway: it reserves the worst-case cost of a request in
    every configured budget, asks the provider once, and settles the
    reservations by what came back.  Models
    [packages/llm-gateway/src/metered-gateway.ts] and the response validation
    of [packages/llm-gateway/src/provider.ts], against the [CostRepository]
    interface of BudgetModel. *)
From S2P Require Import Prelude Errors Json CostModel BudgetModel Store.
Import Canonical Cost Budget.
Import Store(Environment, clock_at, id_at).

Module Gateway.

(** * Providers *)

(** The fields of a provider's usage report, or something that is no object. *)
Inductive raw_usage :=
| usage_missing
| usage_fields (inputTokens cachedInputTokens outputTokens reasoningTokens : js).

(** [ModelResponse] as it arrives: the types of its fields are only checked by
    [validateModelResponse]. *)
Record ModelResponse := {
  rs_providerId : js;
  rs_model : js;
  rs_text : js;
  rs_usage : raw_usage;
  rs_providerRequestId : js;
  rs_latencyMs : js;
  rs_providerMetadata : js
}.

Record ModelRequest := {
  rq_model : string;
  rq_messages : list (string * string);
  rq_reasoningEffort : option string;
  rq_maxOutputTokens : option number
}.

(** What the gateway and its provider throw. *)
Inductive gateway_error :=
| failure (e : error)
| invalid_provider_response (providerId message : string)
| model_mismatch (providerId : string) (response : option ModelResponse)
| provider_error (code : string) (retryable : bool).

(** [LlmProvider]; [complete] may answer each call differently. *)
Record LlmProvider := {
  provider_id : string;
  pricingCandidates : ModelRequest → list (string * string);
  provider_complete : nat → ModelRequest → result gateway_error ModelResponse
}.

(** [typeof value === "string" && value.trim() !== ""] *)
Definition text_value (v : js) : option string :=
  match v with JStr s => if bool_decide (trim s = "") then None else Some s | _ => None end.

Definition string_of (v : js) : string := match v with JStr s => s | _ => "" end.
Definition number_of (v : js) : number := match v with JNum n => n | _ => NNaN end.

Definition is_count (v : js) : bool :=
  match v with JNum n => is_safe_integer n && negb (num_lt n 0) | _ => false end.

Definition usage_checks (u : raw_usage) : list (bool * string) :=
  match u with
  | usage_missing => [(true, "usage is required")]
  | usage_fields i c o r =>
      [(negb (is_count i), "usage.inputTokens must be a non-negative safe integer");
       (negb (is_count c), "usage.cachedInputTokens must be a non-negative safe integer");
       (negb (is_count o), "usage.outputTokens must be a non-negative safe integer");
       (negb (is_count r), "usage.reasoningTokens must be a non-negative safe integer");
       (num_greater (number_of c) (number_of i),
        "usage.cachedInputTokens must not exceed usage.inputTokens");
       (num_greater (number_of r) (number_of o),
        "usage.reasoningTokens must not exceed usage.outputTokens")]
  end.

(** The conditions of [validateModelResponse] in the order of its throws. *)
Definition response_checks (response : ModelResponse) : list (bool * string) :=
  let missing v := match text_value v with None => true | Some _ => false end in
  [(missing (rs_providerId response), "providerId is required");
   (missing (rs_model response), "model is required");
   (match rs_text response with JStr _ => false | _ => true end, "text must be a string");
   (match rs_providerRequestId response with
    | JUndefined => false
    | v => missing v
    end, "providerRequestId must be a non-empty string");
   (match rs_latencyMs response with
    | JUndefined => false
    | JNum n => negb (is_finite n) || num_lt n 0
    | _ => true
    end, "latencyMs must be a non-negative finite number");
   (match rs_providerMetadata response with
    | JUndefined | JObj _ _ _ _ => false
    | _ => true
    end, "providerMetadata must be an object")] ++ usage_checks (rs_usage response).

Definition validateModelResponse (response : ModelResponse) (fallbackProviderId : string)
    : result gateway_error unit :=
  let providerId := default fallbackProviderId (text_value (rs_providerId response)) in
  match List.find (λ check, check.1) (response_checks response) with
  | Some (_, message) => Throw (invalid_provider_response providerId message)
  | None => Ok tt
  end.

(** [response.usage] once validated. *)
Definition usage_of (u : raw_usage) : ModelUsage :=
  match u with
  | usage_fields i c o r =>
      {| inputTokens := number_of i; cachedInputTokens := number_of c;
         outputTokens := number_of o; reasoningTokens := number_of r |}
  | usage_missing =>
      {| inputTokens := NInt 0; cachedInputTokens := NInt 0; outputTokens := NInt 0;
         reasoningTokens := NInt 0 |}
  end.

Definition no_usage : ModelUsage :=
  {| inputTokens := NInt 0; cachedInputTokens := NInt 0; outputTokens := NInt 0;
     reasoningTokens := NInt 0 |}.

(** [undefined], an answer without a usable response, or the response. *)
Abbreviation received := (option (option ModelResponse)).

Definition rejectedProviderResponse (e : gateway_error) : received :=
  match e with
  | model_mismatch _ (Some response) => Some (Some response)
  | model_mismatch _ None => None
  | invalid_provider_response _ _ => Some None
  | _ => None
  end.

(** [v === s] *)
Definition is_text (v : js) (s : string) : bool :=
  match v with JStr t => bool_decide (t = s) | _ => false end.

(** [ExactModelProvider]: the answer must name the required provider and
    model. *)
Definition ExactModelProvider (provider : LlmProvider) (required_provider required_model : string)
    : LlmProvider :=
  {| provider_id := provider_id provider;
     pricingCandidates := pricingCandidates provider;
     provider_complete n request :=
       if negb (bool_decide (rq_model request = required_model)) ||
          negb (bool_decide (provider_id provider = required_provider))
       then Throw (model_mismatch (provider_id provider) None)
       else match provider_complete provider n request with
            | Throw e => Throw e
            | Ok response =>
                if is_text (rs_providerId response) required_provider &&
                   is_text (rs_model response) required_model
                then Ok response
                else Throw (model_mismatch (provider_id provider) (Some response))
            end |}.

(** * Requests *)

Definition price (p : PricingVersion) : ModelPrice :=
  {| mp_currency := pv_currency p; inputPerMillionMicros := pv_inputPerMillionMicros p;
     cachedInputPerMillionMicros := pv_cachedInputPerMillionMicros p;
     outputPerMillionMicros := pv_outputPerMillionMicros p;
     reasoningPerMillionMicros := pv_reasoningPerMillionMicros p |}.

Record BudgetScope := { bs_scopeType : BudgetScopeType; bs_scopeId : string }.

#[global] Instance BudgetScope_eq_dec : EqDecision BudgetScope.
Proof. solve_decision. Defined.

Record MeteredRequestContext := {
  mc_usage : UsageContext;
  mc_usageBound : ModelUsageBound;
  mc_budgetScopeType : option BudgetScopeType;
  mc_budgetScopeId : option string;
  mc_budgetScopes : option (list BudgetScope);
  mc_reservationTtlMs : option Z;
  mc_useProjectBudgetIfConfigured : bool
}.

Record GatewayMetering := {
  gm_currency : Currency;
  gm_pricingVersionId : string;
  gm_reservedMicros : option Z;
  gm_estimatedMicros : Z;
  gm_actualMicros : Z;
  gm_budgetScopeType : option BudgetScopeType;
  gm_budgetScopeId : option string;
  gm_recording : recording
}.

(** The host: the storage, the readings of the clock and the id generator,
    and the calls the provider has received. *)
Record gworld {S : Type} := {
  store : S;
  ticks : nat;
  generated : nat;
  calls : nat
}.
Arguments gworld : clear implicits.

Section gateway.
  Context {S : Type} `{CostRepository S} `{Environment}.
  Context (provider : LlmProvider).

Abbreviation gaction A := (action gateway_error (gworld S) A).

(** * Access to the host *)

Definition stored {A} (m : method S A) : gaction A := λ w,
  match m (store w) with
  | (Ok a, s) =>
      (Ok a, {| store := s; ticks := ticks w; generated := generated w; calls := calls w |})
  | (Throw e, s) =>
      (Throw (failure e),
       {| store := s; ticks := ticks w; generated := generated w; calls := calls w |})
  end.

Definition now : gaction Z := λ w,
  (Ok (clock_at (ticks w)),
   {| store := store w; ticks := Datatypes.S (ticks w); generated := generated w;
      calls := calls w |}).

Definition generate : gaction string := λ w,
  (Ok (id_at (generated w)),
   {| store := store w; ticks := ticks w; generated := Datatypes.S (generated w);
      calls := calls w |}).

Definition call_provider (request : ModelRequest) : gaction ModelResponse := λ w,
  (provider_complete provider (calls w) request,
   {| store := store w; ticks := ticks w; generated := generated w;
      calls := Datatypes.S (calls w) |}).

Definition fails {A} (e : error) : gaction A := mthrow (failure e).
Definition of_outcome {A} (r : outcome A) : gaction A :=
  match r with Ok a => mret a | Throw e => fails e end.

(** [for (const x of l) await f(x)] *)
Definition for_each {A} (f : A → gaction unit) : list A → gaction unit :=
  fix go l := match l with [] => mret tt | x :: l => f x;; go l end.

Definition catch {A} (m : gaction A) (handler : gateway_error → gaction A) : gaction A := λ w,
  match m w with
  | (Ok a, w') => (Ok a, w')
  | (Throw e, w') => handler e w'
  end.

(** [await Promise.all(l.map(f))]: every call runs, the first rejection is
    thrown. *)
Definition all_settled {A} (f : A → gaction unit) : list A → gaction unit :=
  fix go l :=
    match l with
    | [] => mret tt
    | x :: l => λ w,
        match f x w with
        | (Ok _, w') => go l w'
        | (Throw e, w') => (Throw e, (go l w').2)
        end
    end.

(** * Prices *)

Definition candidate_key (providerId model : string) : string :=
  providerId +:+ String Ascii.zero model.

(** [map.set(key, value)] on a [Map] in insertion order. *)
Fixpoint map_set {A} (key : string) (value : A) (m : list (string * A)) : list (string * A) :=
  match m with
  | [] => [(key, value)]
  | (k, v) :: m => if bool_decide (k = key) then (k, value) :: m else (k, v) :: map_set key value m
  end.

Definition map_get {A} (key : string) (m : list (string * A)) : option A :=
  snd <$> List.find (λ p, bool_decide (p.1 = key)) m.

Definition priced (at_ : Z) : list (string * string) → list (string * PricingVersion) →
    gaction (list (string * PricingVersion)) :=
  fix go candidates prices :=
    match candidates with
    | [] => mret prices
    | (providerId, model) :: candidates =>
        found ← stored (findPricing providerId model at_);
        match found with
        | None => fails (PricingNotFoundError providerId model)
        | Some p => go candidates (map_set (candidate_key providerId model) p prices)
        end
    end.

Record envelope := { env_pricing : PricingVersion; env_micros : Z }.

(** The dearest candidate, the first of equals. *)
Definition dearest (bound : ModelUsageBound) : PricingVersion → Z → list PricingVersion →
    outcome envelope :=
  fix go best best_micros rest :=
    match rest with
    | [] => Ok {| env_pricing := best; env_micros := best_micros |}
    | p :: rest =>
        maximum ← calculateMaximumCost bound (price p);
        if (best_micros <? micros maximum)%Z then go p (micros maximum) rest
        else go best best_micros rest
    end.

(** * Scopes and reservations *)

Definition scope_name (s : BudgetScopeType) : string :=
  match s with
  | scope_project => "project" | scope_task => "task" | scope_agent => "agent"
  | scope_agent_run => "agent_run"
  end.

Definition scope_key (s : BudgetScope) : string :=
  scope_name (bs_scopeType s) +:+ "\0" +:+ bs_scopeId s.

Definition currencies_of (projectId : string) (s : BudgetScope) : gaction (list Currency) :=
  stored (listBudgetCurrencies projectId (bs_scopeType s) (bs_scopeId s)).

(** The keys of the scopes that have a budget in [currency]. *)
Definition configured_scopes (projectId : string) (c : Currency)
    : list BudgetScope → list string → gaction (list string) :=
  fix go scopes keys :=
    match scopes with
    | [] => mret keys
    | s :: scopes =>
        currencies ← currencies_of projectId s;
        if (0 <? length currencies) && negb (includes c currencies)
        then fails PricingCurrencyMismatchError
        else go scopes (if includes c currencies then scope_key s :: keys else keys)
    end.

(** [scopes.map((scope) => ({ id: this.ids.generate(), ... }))] *)
Definition reservation_inputs (context : MeteredRequestContext) (c : Currency) (amount at_ : Z)
    : list BudgetScope → gaction (list AuthorizeReservationInput) :=
  fix go scopes :=
    match scopes with
    | [] => mret []
    | s :: scopes =>
        id ← generate;
        rest ← go scopes;
        mret ({| ar_id := id; ar_projectId := uc_projectId (mc_usage context);
                 ar_scopeType := bs_scopeType s; ar_scopeId := bs_scopeId s;
                 ar_currency := c; ar_amountMicros := amount;
                 ar_agentRunId := uc_agentRunId (mc_usage context); ar_now := at_;
                 ar_expiresAt := at_ + default (15 * 60000) (mc_reservationTtlMs context) |}%Z
              :: rest)
    end.

(** [(id) => this.costs.releaseReservation(id, this.clock.now())] *)
Definition release_one (id : string) : gaction unit :=
  at_ ← now; stored (releaseReservation id at_);; mret tt.

(** Without the atomic operation: one by one, and the ones created are
    released when a later one fails. *)
Definition reserve_each : list string → list AuthorizeReservationInput → gaction unit :=
  fix go created inputs :=
    match inputs with
    | [] => mret tt
    | input :: inputs => λ w,
        match stored (authorizeAndReserve input) w with
        | (Ok _, w') => go (created ++ [ar_id input]) inputs w'
        | (Throw e, w') =>
            match all_settled release_one created w' with
            | (Ok _, w'') => (Throw e, w'')
            | (Throw e', w'') => (Throw e', w'')
            end
        end
    end.

Definition reserve (inputs : list AuthorizeReservationInput) : gaction unit :=
  match inputs with
  | [] => mret tt
  | _ =>
      match authorizeAndReserveMany with
      | Some many => stored (many inputs)
      | None =>
          if 1 <? length inputs then fails AtomicReservationUnavailableError
          else reserve_each [] inputs
      end
  end.

(** [releaseReservations(reservationIds)] *)
Definition release (ids : list string) : gaction unit :=
  match ids with
  | [] => mret tt
  | _ =>
      match releaseReservations with
      | Some many => at_ ← now; stored (many ids at_)
      | None => all_settled release_one ids
      end
  end.

(** * Settlement *)

(** What the settlement of a request needs of its preparation. *)
Record prepared := {
  pr_prices : list (string * PricingVersion);
  pr_envelope : envelope;
  pr_currency : Currency;
  pr_scopeType : option BudgetScopeType;
  pr_scopeId : option string;
  pr_ids : list string;
  pr_primary : option string
}.

(** [reservationFields()]: the primary and all co-reservations. *)
Definition reservation_fields (p : prepared) : outcome (option string * option (list string)) :=
  match pr_ids p with
  | [] => Ok (None, None)
  | ids => match pr_primary p with
           | Some id => Ok (Some id, Some ids)
           | None => Throw BudgetNotFoundError
           end
  end.

Definition chargeRejectedResponse (request : ModelRequest) (context : MeteredRequestContext)
    (p : prepared) (response : option ModelResponse) : gaction unit :=
  let usage := match response with
    | Some r => if is_ok (validateModelResponse r (provider_id provider))
                then usage_of (rs_usage r) else no_usage
    | None => no_usage
    end in
  let charge := {| micros := env_micros (pr_envelope p); currency := pr_currency p |} in
  fields ← of_outcome (reservation_fields p);
  usageId ← generate;
  costEventId ← generate;
  at_ ← now;
  result ← stored (recordUsageAndCost
    {| ru_usageId := usageId; ru_costEventId := costEventId; ru_context := mc_usage context;
       ru_provider := default (provider_id provider) (response ≫= λ r, text_value (rs_providerId r));
       ru_model := default (rq_model request) (response ≫= λ r, text_value (rs_model r));
       ru_providerRequestId := response ≫= λ r, text_value (rs_providerRequestId r);
       ru_usage := usage; ru_pricingVersionId := pv_id (env_pricing (pr_envelope p));
       ru_reservationId := fields.1; ru_reservationIds := fields.2;
       ru_estimated := charge; ru_actual := charge; ru_chargeBasis := Some reserved_envelope;
       ru_occurredAt := at_ |});
  if bool_decide (result = duplicate) then release (pr_ids p) else mret tt.

(** [validateModelResponse(response, this.provider.id)] *)
Definition validated (response : ModelResponse) : gaction unit :=
  lift (validateModelResponse response (provider_id provider)).

(** The [try] block from the provider's answer to its record. *)
Definition settle (context : MeteredRequestContext) (p : prepared) (response : ModelResponse)
    : gaction (PricingVersion * CostAmount * CostAmount * recording) :=
  validated response;;
  match map_get (candidate_key (string_of (rs_providerId response)) (string_of (rs_model response)))
          (pr_prices p) with
  | None => fails (PricingNotFoundError (string_of (rs_providerId response))
                     (string_of (rs_model response)))
  | Some pricing =>
      actual ← of_outcome (calculateCost (usage_of (rs_usage response)) (price pricing));
      estimated ← of_outcome (calculateMaximumCost (mc_usageBound context) (price pricing));
      usageId ← generate;
      costEventId ← generate;
      fields ← of_outcome (reservation_fields p);
      at_ ← now;
      result ← stored (recordUsageAndCost
        {| ru_usageId := usageId; ru_costEventId := costEventId; ru_context := mc_usage context;
           ru_provider := string_of (rs_providerId response);
           ru_model := string_of (rs_model response);
           ru_providerRequestId := text_value (rs_providerRequestId response);
           ru_usage := usage_of (rs_usage response); ru_pricingVersionId := pv_id pricing;
           ru_reservationId := fields.1; ru_reservationIds := fields.2;
           ru_estimated := estimated; ru_actual := actual;
           ru_chargeBasis := Some reported_usage; ru_occurredAt := at_ |});
      mret (pricing, actual, estimated, result)
  end.

(** * The request *)

(** [providerId] and [model] of each candidate once, priced. *)
Definition price_candidates (request : ModelRequest) (at_ : Z)
    : gaction (list (string * PricingVersion)) :=
  prices ← priced at_ (unique (pricingCandidates provider request)) [];
  match prices with
  | [] => fails (PricingNotFoundError (provider_id provider) (rq_model request))
  | _ => mret prices
  end.

(** One currency for all candidates, and the dearest worst case. *)
Definition worst_case (bound : ModelUsageBound) (prices : list PricingVersion)
    : outcome (envelope * Currency) :=
  match prices with
  | [] => Throw (TypeError "prices[0] is undefined")
  | first :: rest =>
      throw_if (existsb (λ p, negb (bool_decide (pv_currency p = pv_currency first))) prices)
        PricingCurrencyMismatchError;;
      maximum ← calculateMaximumCost bound (price first);
      e ← dearest bound first (micros maximum) rest;
      Ok (e, pv_currency first)
  end.

(** Both fields of the explicit scope, or none. *)
Definition check_scope (context : MeteredRequestContext) : outcome unit :=
  throw_if (negb (Bool.eqb (bool_decide (is_Some (mc_budgetScopeType context)))
                           (bool_decide (is_Some (mc_budgetScopeId context)))))
    BudgetNotFoundError.

Record scoping := {
  sc_scopes : list BudgetScope;
  sc_type : option BudgetScopeType;
  sc_id : option string
}.

Definition given_scopes (context : MeteredRequestContext) : list BudgetScope :=
  match mc_budgetScopes context, mc_budgetScopeType context, mc_budgetScopeId context with
  | Some scopes, _, _ => scopes
  | None, Some t, Some i => [{| bs_scopeType := t; bs_scopeId := i |}]
  | None, _, _ => []
  end.

(** The scopes of the request: the given ones, or the project if it has a
    budget and the request asks for it. *)
Definition choose_scopes (context : MeteredRequestContext) (c : Currency) : gaction scoping :=
  let given := {| sc_scopes := given_scopes context; sc_type := mc_budgetScopeType context;
                  sc_id := mc_budgetScopeId context |} in
  if (length (given_scopes context) =? 0) && mc_useProjectBudgetIfConfigured context then
    let projectId := uc_projectId (mc_usage context) in
    let project := {| bs_scopeType := scope_project; bs_scopeId := projectId |} in
    currencies ← currencies_of projectId project;
    if (0 <? length currencies) && negb (includes c currencies)
    then fails PricingCurrencyMismatchError
    else if includes c currencies
    then mret {| sc_scopes := [project]; sc_type := Some scope_project; sc_id := Some projectId |}
    else mret given
  else mret given.

Definition is_primary (t : BudgetScopeType) (i : string) (v : AuthorizeReservationInput) : bool :=
  bool_decide (ar_scopeType v = t) && bool_decide (ar_scopeId v = i).

Definition primary_reservation (s : scoping) (inputs : list AuthorizeReservationInput)
    : option string :=
  match sc_type s, sc_id s with
  | Some t, Some i => ar_id <$> List.find (is_primary t i) inputs
  | _, _ => None
  end.

(** What has to be reserved for the scopes. *)
Definition plan_reservations (context : MeteredRequestContext) (e : envelope) (c : Currency)
    (at_ : Z) : gaction (scoping * list AuthorizeReservationInput * option string) :=
  s ← choose_scopes context c;
  keys ← match mc_budgetScopes context with
         | Some _ => configured_scopes (uc_projectId (mc_usage context)) c (sc_scopes s) []
         | None => mret []
         end;
  inputs ← reservation_inputs context c (env_micros e) at_
    (filter (λ scope, mc_budgetScopes context = None ∨ scope_key scope ∈ keys ∨
                      bs_scopeType scope = scope_agent_run) (sc_scopes s));
  let primary := primary_reservation s inputs in
  if (0 <? length inputs) && negb (bool_decide (is_Some primary)) then fails BudgetNotFoundError
  else mret (s, inputs, primary).

(** [completeMetered] up to the [try]. *)
Definition prepare (request : ModelRequest) (context : MeteredRequestContext)
    : gaction prepared :=
  at_ ← now;
  prices ← price_candidates request at_;
  worst ← of_outcome (worst_case (mc_usageBound context) prices.*2);
  of_outcome (check_scope context);;
  planned ← plan_reservations context worst.1 worst.2 at_;
  let '(s, inputs, primary) := planned in
  reserve inputs;;
  mret {| pr_prices := prices; pr_envelope := worst.1; pr_currency := worst.2;
          pr_scopeType := sc_type s; pr_scopeId := sc_id s; pr_ids := ar_id <$> inputs;
          pr_primary := primary |}.

(** The outer [catch] block: [r] is the variable [received]. *)
Definition failed {A} (request : ModelRequest) (context : MeteredRequestContext) (p : prepared)
    (r : received) (e : gateway_error) : gaction A :=
  match r, e with
  | None, _ | _, failure (DuplicateProviderUsageError _ _) => release (pr_ids p);; mthrow e
  | Some response, _ =>
      catch (chargeRejectedResponse request context p response) (λ _, mret tt);; mthrow e
  end.

Definition metering_of (p : prepared) (pricing : PricingVersion) (actual estimated : CostAmount)
    (result : recording) : GatewayMetering :=
  {| gm_currency := currency actual; gm_pricingVersionId := pv_id pricing;
     gm_reservedMicros := match pr_ids p with
       | [] => None | _ => Some (env_micros (pr_envelope p)) end;
     gm_estimatedMicros := micros estimated; gm_actualMicros := micros actual;
     gm_budgetScopeType := pr_scopeType p; gm_budgetScopeId := pr_scopeId p;
     gm_recording := result |}.

(** The [try] statement; once recorded, [received] is [undefined] again. *)
Definition attempt (request : ModelRequest) (context : MeteredRequestContext) (p : prepared)
    : gaction (ModelResponse * GatewayMetering) := λ w,
  match call_provider request w with
  | (Throw e, w1) => failed request context p (rejectedProviderResponse e) e w1
  | (Ok response, w1) =>
      match settle context p response w1 with
      | (Throw e, w2) => failed request context p (Some (Some response)) e w2
      | (Ok (pricing, actual, estimated, result), w2) =>
          match (if bool_decide (result = duplicate) then release (pr_ids p) else mret tt) w2 with
          | (Ok _, w3) => (Ok (response, metering_of p pricing actual estimated result), w3)
          | (Throw e, w3) => failed request context p None e w3
          end
      end
  end.

Definition completeMetered (request : ModelRequest) (context : MeteredRequestContext)
    : gaction (ModelResponse * GatewayMetering) :=
  p ← prepare request context; attempt request context p.

(** [complete] *)
Definition complete_request (request : ModelRequest) (context : MeteredRequestContext)
    : gaction ModelResponse :=
  r ← completeMetered request context; mret r.1.

End gateway.

End Gateway.
