(* ===== verification/GatewaySafety.v ===== *)
(** The metered gateway against the [CostRepository] contract: what becomes of
    the reservations of a request, how often the provider is asked, and what
    is charged, on every outcome of the request. *)
From S2P Require Import Prelude Errors Json CostModel BudgetModel Store.
From S2P Require Import GatewayModel BudgetLaws.
Import Canonical Cost Budget BudgetLaws Gateway.
Import Store(Environment, clock_at, id_at).

Module GatewaySafety.

Section proofs.
  Context {S : Type} `{CostRepositoryLaws S} `{Environment}.
  Context (provider : LlmProvider).

Abbreviation gaction A := (action gateway_error (gworld S) A).

(** * Steps that leave the storage and the provider alone *)

Definition quiet {A} (m : gaction A) : Prop :=
  ∀ w, store (m w).2 = store w ∧ calls (m w).2 = calls w.

Lemma quiet_Ok {A} (m : gaction A) w r w' :
  quiet m → m w = (r, w') → store w' = store w ∧ calls w' = calls w.
Proof. intros Hm Hw. specialize (Hm w). by rewrite Hw in Hm. Qed.

Lemma bind_cases {A B} (m : gaction A) (k : A → gaction B) w r w' :
  (m ≫= k) w = (r, w') →
  (∃ a w1, m w = (Ok a, w1) ∧ k a w1 = (r, w')) ∨ ∃ e, m w = (Throw e, w') ∧ r = Throw e.
Proof. unfold mbind, action_bind. destruct (m w) as [[]]; [eauto|]. intros [= <- <-]. eauto. Qed.

Lemma quiet_readonly {A} (m : gaction A) : readonly m → quiet m.
Proof. intros Hm w. by rewrite (Hm w). Qed.

Lemma quiet_bind {A B} (m : gaction A) (k : A → gaction B) :
  quiet m → (∀ a, quiet (k a)) → quiet (m ≫= k).
Proof.
  intros Hm Hk w. specialize (Hm w). unfold mbind, action_bind.
  destruct (m w) as [[a|e] w1]; [|done]. destruct (Hk a w1) as [-> ->]. done.
Qed.

Lemma quiet_stored {A} (m : method S A) : readonly m → quiet (stored m).
Proof.
  intros Hm w. specialize (Hm (store w)). unfold stored.
  destruct (m (store w)) as [[]]; simpl in *; by subst.
Qed.

Lemma quiet_now : quiet (now : gaction Z).
Proof. done. Qed.

Lemma quiet_generate : quiet (generate : gaction string).
Proof. done. Qed.

Lemma quiet_ret {A} (a : A) : quiet (mret a : gaction A).
Proof. done. Qed.

Lemma quiet_fails {A} e : quiet (fails e : gaction A).
Proof. done. Qed.

Lemma quiet_of_outcome {A} (r : outcome A) : quiet (of_outcome r : gaction A).
Proof. by destruct r. Qed.

#[local] Hint Resolve quiet_bind quiet_stored quiet_now quiet_generate quiet_ret quiet_fails
  quiet_of_outcome law_pricing law_currencies : ts.

Lemma quiet_priced at_ l prices : quiet (priced at_ l prices : gaction _).
Proof.
  revert prices. induction l as [|[p m] l IH]; intros prices; [done|]. cbn [priced].
  apply quiet_bind; [auto with ts|]. intros [v|]; [apply IH|done].
Qed.

Lemma quiet_currencies p s : quiet (currencies_of p s : gaction _).
Proof. unfold currencies_of. auto with ts. Qed.

Lemma quiet_configured p c l keys : quiet (configured_scopes p c l keys : gaction _).
Proof.
  revert keys. induction l as [|s l IH]; intros keys; [done|]. cbn [configured_scopes].
  apply quiet_bind; [apply quiet_currencies|]. intros cs. case_match; [done|apply IH].
Qed.

Lemma quiet_inputs ctx c amount at_ l : quiet (reservation_inputs ctx c amount at_ l : gaction _).
Proof.
  induction l as [|s l IH]; [done|]. cbn [reservation_inputs].
  apply quiet_bind; [done|]. intros id. apply quiet_bind; [done|]. done.
Qed.

Lemma quiet_plan ctx e c at_ : quiet (plan_reservations ctx e c at_ : gaction _).
Proof.
  unfold plan_reservations, choose_scopes. apply quiet_bind.
  { case_match; [|done]. apply quiet_bind; [apply quiet_currencies|]. intros cs.
    repeat case_match; done. }
  intros s. apply quiet_bind; [case_match; [apply quiet_configured|done]|]. intros keys.
  apply quiet_bind; [apply quiet_inputs|]. intros inputs. case_match; done.
Qed.

Lemma quiet_prices request at_ : quiet (price_candidates provider request at_ : gaction _).
Proof.
  unfold price_candidates. apply quiet_bind; [apply quiet_priced|]. by intros [].
Qed.

(** * Reserving and releasing *)

Lemma stored_spec {A} (m : method S A) w r w' :
  stored m w = (r, w') →
  calls w' = calls w ∧ ∃ r0, m (store w) = (r0, store w') ∧
    r = match r0 with Ok a => Ok a | Throw e => Throw (failure e) end.
Proof. unfold stored. destruct (m (store w)) as [[a|e] s]; intros [= <- <-]; eauto. Qed.

(** [reserve_contract] for the gateway's own errors. *)
Definition reserved (ids : list string) (s : S) (r : result gateway_error unit) (s' : S) : Prop :=
  match r with
  | Ok _ => absent ids s ∧ statuses_become ids active s s' ∧ events_of s' = events_of s
  | Throw _ => s' = s
  end.

Lemma reserved_nil s : reserved [] s (Ok tt) s.
Proof.
  split_and!; [by intros id ?%elem_of_nil| |done]. intros id.
  by case_decide as Hid; [apply elem_of_nil in Hid|].
Qed.

Lemma reserve_spec inputs w r w' :
  reserve inputs w = (r, w') →
  calls w' = calls w ∧ reserved (ar_id <$> inputs) (store w) r (store w').
Proof.
  unfold reserve. destruct inputs as [|v inputs]; [by intros [= <- <-]; split; [|apply reserved_nil]|].
  destruct authorizeAndReserveMany as [many|] eqn:Hmany.
  - intros (Hc & r0 & Hr & ->)%stored_spec. split; [done|].
    pose proof (law_reserve_many many (v :: inputs) _ _ _ Hmany Hr) as Hlaw. by destruct r0.
  - destruct inputs as [|v' inputs]; [|by intros [= <- <-]]. cbn [Nat.ltb Nat.leb length].
    cbn [reserve_each]. destruct (stored (authorizeAndReserve v) w) as [r1 w1] eqn:Hr.
    apply stored_spec in Hr as (Hc & r0 & Hr & ->).
    pose proof (law_reserve v _ _ _ Hr) as Hlaw. destruct r0; intros [= <- <-]; by split.
Qed.

Lemma release_contract_nil (s : S) : release_contract [] s s.
Proof.
  split; [done|]. intros id. case_decide as Hid; [|done]. by destruct Hid as [?%elem_of_nil _].
Qed.

Lemma release_contract_cons id ids (s s1 s2 : S) :
  release_contract [id] s s1 → release_contract ids s1 s2 → release_contract (id :: ids) s s2.
Proof.
  intros [He1 Hs1] [He2 Hs2]. split; [congruence|]. intros id'. rewrite Hs2, Hs1.
  destruct (decide (id' = id)) as [->|Hne]; repeat case_decide; set_solver.
Qed.

Lemma release_one_spec id (w : gworld S) :
  ∃ w', release_one id w = (Ok tt, w') ∧ calls w' = calls w ∧
        release_contract [id] (store w) (store w').
Proof.
  destruct (law_release id (clock_at (Gateway.ticks w)) (store w)) as (r & s' & Hs & Hc).
  unfold release_one, now, mbind, action_bind, stored. cbn. rewrite Hs. cbn.
  eexists. split; [done|]. by split.
Qed.

Lemma release_each_spec ids (w : gworld S) :
  ∃ w', all_settled release_one ids w = (Ok tt, w') ∧ calls w' = calls w ∧
        release_contract ids (store w) (store w').
Proof.
  revert w. induction ids as [|i ids IH]; intros w;
    [exists w; split_and!; [done..|apply release_contract_nil]|].
  cbn [all_settled]. destruct (release_one_spec i w) as (w1 & -> & Hc1 & Hr1).
  destruct (IH w1) as (w2 & Hw2 & Hc2 & Hr2). exists w2.
  split_and!; [done|congruence|by eapply release_contract_cons].
Qed.

Lemma release_spec ids (w : gworld S) :
  ∃ w', release ids w = (Ok tt, w') ∧ calls w' = calls w ∧
        release_contract ids (store w) (store w').
Proof.
  unfold release. destruct ids as [|i ids];
    [exists w; split_and!; [done..|apply release_contract_nil]|].
  destruct releaseReservations as [many|] eqn:Hmany; [|apply release_each_spec].
  destruct (law_release_many many (i :: ids) (clock_at (Gateway.ticks w)) (store w) Hmany)
    as (s' & Hs & Hc).
  unfold now, mbind, action_bind, stored. cbn. rewrite Hs. cbn. eexists. split; [done|]. by split.
Qed.

(** * Preparing *)

Lemma plan_primary ctx e c at_ (w : gworld S) s inputs primary w' :
  plan_reservations ctx e c at_ w = (Ok (s, inputs, primary), w') →
  inputs ≠ [] → is_Some primary.
Proof.
  unfold plan_reservations.
  intros (sc & w1 & _ & (keys & w2 & _ & (l & w3 & _ & Hret)%action_bind_Ok)%action_bind_Ok)%action_bind_Ok Hne.
  revert Hret. case_match eqn:Hif; [done|]. intros [= <- <- <- <-].
  apply andb_false_iff in Hif as [Hlen|Hp%negb_false_iff%bool_decide_eq_true]; [|done].
  destruct l; [done|discriminate].
Qed.

(** Nothing is reserved, or everything the plan asks for. *)
Lemma prepare_spec request ctx (w : gworld S) r w' :
  prepare provider request ctx w = (r, w') →
  calls w' = calls w ∧
  match r with
  | Ok p => reserved (pr_ids p) (store w) (Ok tt) (store w') ∧
            (pr_ids p ≠ [] → is_Some (pr_primary p))
  | Throw _ => store w' = store w
  end.
Proof.
  unfold prepare. set (k := λ at_ : Z, _ ≫= _). intros Hp.
  assert (∃ at_ w0, k at_ w0 = (r, w') ∧ store w0 = store w ∧ calls w0 = calls w)
    as (at_ & w0 & Hk & <- & <-).
  { eexists _, _. split; [exact Hp|done]. }
  clear Hp w. subst k. cbn beta in Hk.
  apply bind_cases in Hk as [(prices & w1 & Hq & Hk)|(e & Hq & ->)];
    apply quiet_Ok in Hq as [<- <-]; try apply quiet_prices; [|done].
  apply bind_cases in Hk as [(worst & w2 & Hq & Hk)|(e & Hq & ->)];
    apply quiet_Ok in Hq as [<- <-]; try apply quiet_of_outcome; [|done].
  apply bind_cases in Hk as [(u & w3 & Hq & Hk)|(e & Hq & ->)];
    apply quiet_Ok in Hq as [<- <-]; try apply quiet_of_outcome; [|done].
  apply bind_cases in Hk as [([[s inputs] primary] & w4 & Hplan & Hk)|(e & Hq & ->)];
    [|apply quiet_Ok in Hq as [<- <-]; [done|apply quiet_plan]].
  pose proof Hplan as [<- <-]%quiet_Ok; [|apply quiet_plan].
  apply bind_cases in Hk as [(u' & w5 & Hres & Hk)|(e & Hres & ->)];
    apply reserve_spec in Hres as [<- Hres]; [|by split].
  injection Hk as <- <-. split; [done|]. split; [exact Hres|]. simpl. intros Hne.
  apply plan_primary in Hplan; [done|]. by intros ->.
Qed.

(** * Recording *)

Lemma stored_record v (w : gworld S) r w' :
  stored (recordUsageAndCost v) w = (r, w') →
  calls w' = calls w ∧
  match r with
  | Ok r0 => recordUsageAndCost v (store w) = (Ok r0, store w') ∧
             record_contract v (store w) (Ok r0) (store w')
  | Throw _ => store w' = store w ∧ ∃ e, recordUsageAndCost v (store w') = (Throw e, store w')
  end.
Proof.
  intros (Hc & r0 & Hr & ->)%stored_spec. split; [done|].
  pose proof (law_record _ _ _ _ Hr) as Hlaw. destruct r0 as [r0|e]; [by split|].
  simpl in Hlaw. rewrite <- Hlaw in Hr. split; [done|]. eauto.
Qed.

Lemma reservation_fields_spec p r :
  (pr_ids p ≠ [] → is_Some (pr_primary p)) → reservation_fields p = r →
  ∃ primary, r = Ok (primary, match pr_ids p with [] => None | ids => Some ids end) ∧
    (primary = None ↔ pr_ids p = []).
Proof.
  unfold reservation_fields. intros Hp <-. destruct (pr_ids p) as [|i ids]; [by exists None|].
  destruct Hp as [primary ->]; [done|]. by exists (Some primary).
Qed.

(** A usage that charges the reservations [ids]. *)
Definition charges (ids : list string) (basis : CostChargeBasis) (v : RecordUsageAndCostInput)
    : Prop :=
  reservation_ids v = ids ∧ ru_chargeBasis v = Some basis.

Lemma fields_ids (p : prepared) primary v :
  (primary = None ↔ pr_ids p = []) → ru_reservationId v = primary →
  ru_reservationIds v = match pr_ids p with [] => None | ids => Some ids end →
  reservation_ids v = pr_ids p.
Proof.
  unfold reservation_ids. intros Hpr -> ->. destruct (pr_ids p) eqn:Hids; [|done].
  by rewrite (proj2 Hpr eq_refl).
Qed.

(** The usage could not be recorded; or it was; or it was already there. *)
Definition charge_outcome (p : prepared) (s s' : S) : Prop :=
  (s' = s ∧ ∃ v e, charges (pr_ids p) reserved_envelope v ∧ recordUsageAndCost v s' = (Throw e, s')) ∨
  (∃ v, charges (pr_ids p) reserved_envelope v ∧ micros (ru_actual v) = env_micros (pr_envelope p) ∧
        record_contract v s (Ok recorded) s') ∨
  (∃ v, charges (pr_ids p) reserved_envelope v ∧ recordUsageAndCost v s = (Ok duplicate, s)) ∧
    release_contract (pr_ids p) s s'.

Lemma charge_spec request ctx p response (w : gworld S) r w' :
  (pr_ids p ≠ [] → is_Some (pr_primary p)) →
  chargeRejectedResponse provider request ctx p response w = (r, w') →
  calls w' = calls w ∧ charge_outcome p (store w) (store w').
Proof.
  intros Hp. unfold chargeRejectedResponse.
  destruct (reservation_fields_spec p _ Hp eq_refl) as (primary & -> & Hpr). cbn [of_outcome].
  intros [(fields & w1 & [= <- <-] & Hr)|(e & [=] & _)]%bind_cases. cbn [fst snd] in Hr.
  apply bind_cases in Hr as [(usageId & w1 & Hg & Hr)|(e & [=] & _)]. injection Hg as _ <-.
  apply bind_cases in Hr as [(costId & w1 & Hg & Hr)|(e & [=] & _)]. injection Hg as _ <-.
  apply bind_cases in Hr as [(at_ & w1 & Hg & Hr)|(e & [=] & _)]. injection Hg as _ <-.
  unfold charge_outcome. revert Hr. set (v := Build_RecordUsageAndCostInput _ _ _ _ _ _ _ _ _ _ _ _ _ _).
  assert (charges (pr_ids p) reserved_envelope v) as Hv.
  { split; [|done]. by apply (fields_ids p primary). }
  intros [([] & w1 & [Hc [Hrec Hlaw]]%stored_record & Hr)
         |(e & (Hc & Hs & e0 & He)%stored_record & _)]%bind_cases.
  - rewrite bool_decide_false in Hr by done. injection Hr as <- <-. split; [done|].
    right. left. by exists v.
  - rewrite bool_decide_true in Hr by done. simpl in Hlaw, Hrec.
    destruct (release_spec (pr_ids p) w1) as (w2 & Hw2 & Hc2 & Hrel).
    rewrite Hw2 in Hr. injection Hr as <- <-. split; [simpl in *; congruence|]. rewrite Hlaw in *.
    right. right. eauto.
  - split; [done|]. left. simpl in Hs. split; [done|]. eauto.
Qed.

(** What [settle] leaves: without a record, the storage as it was. *)
Lemma settle_spec ctx p response (w : gworld S) r w' :
  (pr_ids p ≠ [] → is_Some (pr_primary p)) →
  settle provider ctx p response w = (r, w') →
  calls w' = calls w ∧
  match r with
  | Throw _ => store w' = store w
  | Ok (pricing, actual, estimated, result) =>
      validateModelResponse response (provider_id provider) = Ok tt ∧
      map_get (candidate_key (string_of (rs_providerId response))
                             (string_of (rs_model response))) (pr_prices p) = Some pricing ∧
      calculateCost (usage_of (rs_usage response)) (price pricing) = Ok actual ∧
      calculateMaximumCost (mc_usageBound ctx) (price pricing) = Ok estimated ∧
      ∃ v, charges (pr_ids p) reported_usage v ∧ ru_actual v = actual ∧
           recordUsageAndCost v (store w) = (Ok result, store w') ∧
           record_contract v (store w) (Ok result) (store w')
  end.
Proof.
  intros Hp. unfold settle, validated.
  intros [([] & w1 & [= Hv <-] & Hr)|(e & [= _ <-] & ->)]%bind_cases; [|done].
  destruct (map_get _ _) as [pricing|] eqn:Hget; [|by injection Hr as <- <-].
  apply bind_cases in Hr as [(actual & w1 & Ha & Hr)|(e & [<- <-]%quiet_Ok & ->)];
    [|done|apply quiet_of_outcome].
  pose proof Ha as [<- <-]%quiet_Ok; [|apply quiet_of_outcome].
  destruct (calculateCost _ _) as [actual'|] eqn:Hcost; [injection Ha as -> ->|discriminate].
  apply bind_cases in Hr as [(estimated & w2 & He & Hr)|(e & [<- <-]%quiet_Ok & ->)];
    [|done|apply quiet_of_outcome].
  pose proof He as [<- <-]%quiet_Ok; [|apply quiet_of_outcome].
  destruct (calculateMaximumCost _ _) as [estimated'|] eqn:Hmax;
    [injection He as -> ->|discriminate].
  apply bind_cases in Hr as [(usageId & w3 & Hg & Hr)|(e & [=] & _)]. injection Hg as _ <-.
  apply bind_cases in Hr as [(costId & w3 & Hg & Hr)|(e & [=] & _)]. injection Hg as _ <-.
  destruct (reservation_fields_spec p _ Hp eq_refl) as (primary & Hf & Hpr). rewrite Hf in Hr.
  apply bind_cases in Hr as [(fields & w3 & [= <- <-] & Hr)|(e & [=] & _)]. cbn [fst snd] in Hr.
  apply bind_cases in Hr as [(at_ & w3 & Hg & Hr)|(e & [=] & _)]. injection Hg as _ <-.
  revert Hr. set (v := Build_RecordUsageAndCostInput _ _ _ _ _ _ _ _ _ _ _ _ _ _).
  assert (charges (pr_ids p) reported_usage v) as Hch.
  { split; [|done]. by apply (fields_ids p primary). }
  intros [(result & w4 & [Hc Hlaw]%stored_record & Hr)
         |(e & (Hc & Hs & _)%stored_record & ->)]%bind_cases; [|by split].
  injection Hr as <- <-. split; [done|]. destruct Hlaw as [Hrec Hlaw]. split_and!; [done..|].
  by exists v.
Qed.

(** * What becomes of a request *)

(** The reservations are new, and now have the status; no other changed. *)
Definition all_became (ids : list string) (st : reservation_status) (s s' : S) : Prop :=
  absent ids s ∧ statuses_become ids st s s'.

Lemma became_released ids (s s1 s2 : S) :
  all_became ids active s s1 → release_contract ids s1 s2 → all_became ids released s s2.
Proof.
  intros [Ha Hs] [_ Hr]. split; [done|]. intros id. rewrite Hr, Hs.
  repeat case_decide; naive_solver.
Qed.

Lemma became_consumed ids (s s1 s2 : S) :
  all_became ids active s s1 → statuses_become ids consumed s1 s2 →
  all_became ids consumed s s2.
Proof.
  intros [Ha Hs] Hc. split; [done|]. intros id. rewrite Hc, Hs. by repeat case_decide.
Qed.

(** The provider answered, usably or not: its work may be billed. *)
Definition answered (a : result gateway_error ModelResponse) : bool :=
  match a with
  | Ok _ => true
  | Throw e => match rejectedProviderResponse e with Some _ => true | None => false end
  end.

(** The storage holds the usage already. *)
Definition already_recorded (ids : list string) (e : gateway_error) : Prop :=
  (∃ providerId id, e = failure (DuplicateProviderUsageError providerId id)) ∨
  ∃ v s, reservation_ids v = ids ∧ recordUsageAndCost v s = (Ok duplicate, s).

(** A request that the provider was asked and that failed with [e]. *)
Definition failure_outcome (ids : list string) (a : result gateway_error ModelResponse)
    (e : gateway_error) (s s' : S) : Prop :=
  (all_became ids released s s' ∧ events_of s' = events_of s ∧
     (answered a = false ∨ already_recorded ids e)) ∨
  (answered a = true ∧ all_became ids consumed s s' ∧
     ∃ ev, events_of s' = events_of s ++ [ev] ∧ ce_charge_basis ev = reserved_envelope) ∨
  (answered a = true ∧ all_became ids active s s' ∧ events_of s' = events_of s ∧
     ∃ v e', charges ids reserved_envelope v ∧ recordUsageAndCost v s' = (Throw e', s')).

Lemma failed_spec {A} request ctx p (rc : received) e (a : result gateway_error ModelResponse)
    (s : S) (w : gworld S) (r : result gateway_error A) w' :
  (pr_ids p ≠ [] → is_Some (pr_primary p)) →
  all_became (pr_ids p) active s (store w) → events_of (store w) = events_of s →
  answered a = match rc with Some _ => true | None => false end →
  failed provider request ctx p rc e w = (r, w') →
  r = Throw e ∧ calls w' = calls w ∧ failure_outcome (pr_ids p) a e s (store w').
Proof.
  intros Hp Hact Hev Hans Hf.
  assert (∀ w1, release (pr_ids p) w = (Ok tt, w1) → calls w1 = calls w →
            release_contract (pr_ids p) (store w) (store w1) →
            answered a = false ∨ already_recorded (pr_ids p) e →
            failure_outcome (pr_ids p) a e s (store w1)) as Hrel.
  { intros w1 _ _ Hc Hor. left. split_and!; [by eapply became_released|destruct Hc; congruence|done]. }
  destruct (release_spec (pr_ids p) w) as (w1 & Hw1 & Hc1 & Hr1). unfold failed in Hf.
  assert (∀ resp,
    (catch (chargeRejectedResponse provider request ctx p resp) (λ _, mret tt);; mthrow e) w
      = (r, w') → answered a = true →
    r = Throw e ∧ calls w' = calls w ∧ failure_outcome (pr_ids p) a e s (store w')) as Hcharge.
  { intros resp Hc Ha. unfold catch in Hc. apply bind_cases in Hc as [([] & w2 & Hc & [= <- <-])|(e' & Hc & _)];
      [|by destruct (chargeRejectedResponse _ _ _ _ _ _) as [[]]].
    destruct (chargeRejectedResponse _ _ _ _ _ _) as [rc' w3] eqn:Hch.
    assert (w3 = w2) as -> by (by destruct rc'; injection Hc).
    apply charge_spec in Hch as [Hcalls Hout]; [|done]. split; [done|]. split; [done|].
    destruct Hout as [[Hs (v & e' & Hv & He)]|[(v & Hv & _ & _ & Hst & ev & Hevent & Hevs)
                     |[(v & Hv & Hdup) Hrc]]].
    - right. right. rewrite Hs in *. split_and!; [done..|]. by exists v, e'.
    - right. left. split; [done|]. destruct Hv as [Hids Hb]. rewrite Hids in Hst.
      split; [by eapply became_consumed|]. exists ev. split; [congruence|].
      destruct Hevent as (_ & _ & _ & _ & _ & _ & _ & ->). by rewrite Hb.
    - left. split; [by eapply became_released|]. split; [destruct Hrc; congruence|].
      right. right. exists v, (store w). destruct Hv. by split. }
  assert ((release (pr_ids p);; mthrow e) w = (r, w') →
    answered a = false ∨ already_recorded (pr_ids p) e →
    r = Throw e ∧ calls w' = calls w ∧ failure_outcome (pr_ids p) a e s (store w')) as Hfree.
  { intros Hc Hor. unfold mbind, action_bind in Hc. rewrite Hw1 in Hc. injection Hc as <- <-. eauto. }
  destruct rc as [resp|]; [|by apply Hfree; [|left]].
  destruct e as [e'| | |]; [destruct e'|..]; try (by apply (Hcharge resp)).
  apply Hfree; [done|]. right. left. eauto.
Qed.

(** A request that succeeded. *)
Definition success_outcome (ids : list string) (response : ModelResponse)
    (metering : GatewayMetering) (s s' : S) : Prop :=
  validateModelResponse response (provider_id provider) = Ok tt ∧
  match gm_recording metering with
  | recorded => all_became ids consumed s s' ∧
      ∃ ev, events_of s' = events_of s ++ [ev] ∧ ce_charge_basis ev = reported_usage ∧
        ce_actual_micros ev = gm_actualMicros metering
  | duplicate => all_became ids released s s' ∧ events_of s' = events_of s
  end.

Lemma attempt_spec request ctx p (s : S) (w : gworld S) r w' :
  (pr_ids p ≠ [] → is_Some (pr_primary p)) →
  all_became (pr_ids p) active s (store w) → events_of (store w) = events_of s →
  attempt provider request ctx p w = (r, w') →
  calls w' = Datatypes.S (calls w) ∧
  let a := provider_complete provider (calls w) request in
  match r with
  | Ok (response, metering) =>
      a = Ok response ∧ success_outcome (pr_ids p) response metering s (store w')
  | Throw e => failure_outcome (pr_ids p) a e s (store w')
  end.
Proof.
  intros Hp Hact Hev. unfold attempt, call_provider.
  set (w1 := Build_gworld _ _ _ _ _).
  assert (calls w1 = Datatypes.S (calls w) ∧ store w1 = store w) as [<- Hw1] by done.
  clearbody w1. rewrite <- Hw1 in Hact, Hev.
  destruct (provider_complete provider (calls w) request) as [response|e].
  - destruct (settle provider ctx p response w1) as [r2 w2] eqn:Hs.
    apply settle_spec in Hs as [Hc2 Hs]; [|done].
    destruct r2 as [[[[pricing actual] estimated] result]|e].
    + destruct Hs as (Hv & _ & _ & _ & v & [Hids Hb] & Hact' & _ & Hlaw).
      destruct result.
      * rewrite bool_decide_false by done. intros [= <- <-]. split; [done|]. split; [done|].
        destruct Hlaw as (_ & Hst & ev & Hevent & Hevs). rewrite Hids in Hst.
        split; [done|]. cbn. split; [by eapply became_consumed|]. exists ev.
        split; [congruence|]. destruct Hevent as (_ & _ & _ & _ & _ & Hmicros & _ & Hbasis).
        rewrite Hbasis, Hb, Hmicros, Hact'. done.
      * rewrite bool_decide_true by done.
        destruct (release_spec (pr_ids p) w2) as (w3 & -> & Hc3 & Hrel). intros [= <- <-].
        rewrite Hlaw in Hrel.
        split; [congruence|]. split; [done|]. split; [done|]. cbn.
        split; [by eapply became_released|destruct Hrel; congruence].
    + intros Hf. eapply (failed_spec _ _ _ _ _ (Ok response) s) in Hf as (-> & Hc & Hout); try done.
      * split; [congruence|done].
      * by rewrite Hs.
      * by rewrite Hs.
  - intros Hf. eapply (failed_spec _ _ _ _ _ (Throw e) s) in Hf as (-> & Hc & Hout); done.
Qed.

(** The three ways a request ends. *)
Definition request_outcome (request : ModelRequest) (w : gworld S)
    (r : result gateway_error (ModelResponse * GatewayMetering)) (w' : gworld S) : Prop :=
  (calls w' = calls w ∧ store w' = store w ∧ is_ok r = false) ∨
  calls w' = Datatypes.S (calls w) ∧ ∃ ids,
    let a := provider_complete provider (calls w) request in
    match r with
    | Ok (response, metering) =>
        a = Ok response ∧ success_outcome ids response metering (store w) (store w')
    | Throw e => failure_outcome ids a e (store w) (store w')
    end.


(** * What is charged *)

Definition priced_ok (prices : list (string * PricingVersion)) : Prop :=
  Forall (λ p, pricing_ok p.2) prices.

Lemma priced_in prices p : priced_ok prices → p ∈ prices.*2 → rates_ok (price p).
Proof.
  unfold priced_ok. rewrite Forall_forall.
  intros Hok (kv & -> & Hin)%list_elem_of_fmap. by apply Hok.
Qed.

Lemma map_set_ok key p prices : pricing_ok p → priced_ok prices → priced_ok (map_set key p prices).
Proof.
  intros Hp. induction 1 as [|[k v] l Hv Hl IH]; simpl; [by apply Forall_singleton|].
  case_bool_decide; by apply Forall_cons.
Qed.

Lemma priced_rates at_ l prices (w : gworld S) r w' :
  priced_ok prices → priced at_ l prices w = (Ok r, w') → priced_ok r.
Proof.
  revert prices w. induction l as [|[p m] l IH]; intros prices w Hp; cbn [priced];
    [by intros [= <- <-]|].
  intros (found & w1 & (_ & [[v|]|e] & Hf & [= ->])%stored_spec & Hk)%action_bind_Ok; [|done].
  eapply IH, Hk. apply map_set_ok; [|done]. by eapply law_rates.
Qed.

Lemma map_get_elem {A} key (l : list (string * A)) v : map_get key l = Some v → v ∈ l.*2.
Proof.
  unfold map_get. intros ([k v'] & Hf & ->)%fmap_Some_1. apply List.find_some in Hf as [Hin _].
  apply list_elem_of_fmap. exists (k, v'). split; [done|]. by apply list_elem_of_In.
Qed.

Lemma dearest_ge bound best best_micros l e :
  dearest bound best best_micros l = Ok e →
  (best_micros <= env_micros e)%Z ∧
  ∀ p m, p ∈ l → calculateMaximumCost bound (price p) = Ok m → (micros m <= env_micros e)%Z.
Proof.
  revert best best_micros. induction l as [|q l IH]; intros best bm; cbn [dearest].
  - intros [= <-]. split; [done|]. by intros p m ?%elem_of_nil.
  - intros (m & Hm & Hrest)%bind_Ok. revert Hrest.
    destruct (bm <? micros m)%Z eqn:Hlt; intros [Hle Hall]%IH.
    + split; [lia|]. intros p m' [->|Hp]%elem_of_cons Hm'; [|by eapply Hall].
      rewrite Hm in Hm'. injection Hm' as <-. done.
    + split; [done|]. intros p m' [->|Hp]%elem_of_cons Hm'; [|by eapply Hall].
      rewrite Hm in Hm'. injection Hm' as <-. lia.
Qed.

(** The envelope covers the worst case of every candidate. *)
Lemma worst_case_covers bound prices e c p m :
  worst_case bound prices = Ok (e, c) → p ∈ prices →
  calculateMaximumCost bound (price p) = Ok m →
  (micros m <= env_micros e)%Z ∧ pv_currency p = c.
Proof.
  unfold worst_case. destruct prices as [|first rest]; [done|].
  intros [Hcur (m0 & Hm0 & (e0 & He & [= <- <-])%bind_Ok)%bind_Ok]%throw_if_bind_Ok Hp Hm.
  apply dearest_ge in He as [Hfirst Hrest]. split.
  - apply elem_of_cons in Hp as [->|Hp]; [|by eapply Hrest].
    rewrite Hm0 in Hm. by injection Hm as <-.
  - apply not_true_iff_false in Hcur. destruct (decide (pv_currency p = pv_currency first)); [done|].
    destruct Hcur. apply List.existsb_exists. exists p. split; [by apply list_elem_of_In|].
    by rewrite bool_decide_false.
Qed.

(** What a preparation holds of its prices. *)
Lemma prepare_prices request ctx (w : gworld S) p w' :
  prepare provider request ctx w = (Ok p, w') →
  priced_ok (pr_prices p) ∧
  worst_case (mc_usageBound ctx) (pr_prices p).*2 = Ok (pr_envelope p, pr_currency p).
Proof.
  unfold prepare.
  intros (at_ & w1 & _ & (prices & w2 & Hprices & Hk)%action_bind_Ok)%action_bind_Ok.
  apply action_bind_Ok in Hk as ([e c] & w3 & Hworst & Hk).
  apply action_bind_Ok in Hk as (u & w4 & _ & Hk).
  apply action_bind_Ok in Hk as ([[sc inputs] primary] & w5 & _ & Hk).
  apply action_bind_Ok in Hk as (u' & w6 & _ & [= <- _]). simpl. split.
  - unfold price_candidates in Hprices.
    apply action_bind_Ok in Hprices as (l & w7 & Hl%priced_rates & Hret); [|constructor].
    destruct l; [done|]. by injection Hret as <- _.
  - destruct (worst_case _ _); [|done]. by injection Hworst as <- _.
Qed.

(** A reservation covers the bill.  If the provider reports usage within
    the token bound of the request, the amount charged is not negative and at
    most the estimate, which is at most what was reserved in every budget. *)
Theorem charge_within_reservation request ctx (w : gworld S) response metering w' :
  completeMetered provider request ctx w = (Ok (response, metering), w') →
  within_bound (usage_of (rs_usage response)) (mc_usageBound ctx) →
  (0 <= gm_actualMicros metering <= gm_estimatedMicros metering)%Z ∧
  ∀ reserved, gm_reservedMicros metering = Some reserved →
    (gm_estimatedMicros metering <= reserved)%Z.
Proof.
  intros (p & w1 & Hprep & Hatt)%action_bind_Ok Hbound.
  pose proof (prepare_prices _ _ _ _ _ Hprep) as [Hrates Hworst].
  apply prepare_spec in Hprep as [_ [_ Hp]]. unfold attempt, call_provider in Hatt.
  assert (∀ rc e (w2 : gworld S), failed provider request ctx p rc e w2 ≠ (Ok (response, metering), w'))
    as Hfailed.
  { intros rc e w2 Hf. unfold failed in Hf.
    repeat case_match; by apply action_bind_Ok in Hf as (? & ? & _ & ?). }
  revert Hatt. destruct (provider_complete _ _ _) as [response'|e]; [|by intros ?%Hfailed].
  destruct (settle _ _ _ _ _) as [[[[[pricing actual] estimated] result]|e] w2] eqn:Hs;
    [|by intros ?%Hfailed].
  apply settle_spec in Hs as (_ & _ & Hget & Hcost & Hmax & _); [|done].
  destruct ((if bool_decide (result = duplicate) then release (pr_ids p) else mret tt) w2)
    as [[u|e] w3]; [|by intros ?%Hfailed].
  intros [= <- <- <-]. simpl. apply map_get_elem in Hget as Hin.
  split; [eapply cost_le_maximum; [|done..]; by eapply priced_in|].
  intros reserved. destruct (pr_ids p); [done|]. intros [= <-]. by eapply worst_case_covers.
Qed.

End proofs.

(** * Samples and witnesses *)

Definition sample_pricing : PricingVersion :=
  {| pv_id := "price-1"; pv_provider := "openai"; pv_model := "gpt"; pv_currency := EUR;
     pv_inputPerMillionMicros := 3000000; pv_cachedInputPerMillionMicros := 300000;
     pv_outputPerMillionMicros := 15000000; pv_reasoningPerMillionMicros := 15000000;
     pv_effectiveFrom := Some 0%Z; pv_effectiveTo := None |}.

Definition sample_costs : cost_db :=
  {| pricing := [sample_pricing];
     budgets := [{| b_id := "budget"; b_project_id := "p"; b_scope_type := scope_project;
                    b_scope_id := "p"; b_currency := EUR; b_limit_micros := 20000 |}];
     reservations := ∅; usages := []; events := [] |}.

Definition sample_gateway_world : gworld cost_db :=
  {| store := sample_costs; Gateway.ticks := 0; Gateway.generated := 0; calls := 0 |}.

Definition sample_response : ModelResponse :=
  {| rs_providerId := JStr "openai"; rs_model := JStr "gpt"; rs_text := JStr "hello";
     rs_usage := usage_fields (JNum (NInt 900)) (JNum (NInt 400)) (JNum (NInt 300)) (JNum (NInt 0));
     rs_providerRequestId := JStr "request-1"; rs_latencyMs := JUndefined;
     rs_providerMetadata := JUndefined |}.

Definition sample_provider : LlmProvider :=
  {| provider_id := "openai"; pricingCandidates request := [("openai", rq_model request)];
     provider_complete _ _ := Ok sample_response |}.

Definition sample_request : ModelRequest :=
  {| rq_model := "gpt"; rq_messages := [("user", "hello?")]; rq_reasoningEffort := None;
     rq_maxOutputTokens := None |}.

Definition sample_context : MeteredRequestContext :=
  {| mc_usage := {| uc_projectId := "p"; uc_taskId := None; uc_agentId := None;
                    uc_agentRunId := None; uc_purpose := "demo" |};
     mc_usageBound := sample_bound; mc_budgetScopeType := None; mc_budgetScopeId := None;
     mc_budgetScopes := None; mc_reservationTtlMs := None;
     mc_useProjectBudgetIfConfigured := true |}.

Definition sample_clock : Environment :=
  {| clock_at n := Z.of_nat n; id_at n := "id-" +:+ pretty n |}.

Definition sample_run :=
  @completeMetered _ (SqliteCostRepository (λ _, true)) sample_clock sample_provider
    sample_request sample_context sample_gateway_world.

(** The reservation lives 15 minutes; no record is accepted after that.  An
    answer that takes longer is charged nowhere, and its expired reservation
    holds no capacity any more. *)
Definition slow_clock : Environment :=
  {| clock_at n := (Z.of_nat n * 20 * 60000)%Z; id_at n := "id-" +:+ pretty n |}.

Lemma late_answer_is_free :
  let out := @completeMetered _ (SqliteCostRepository (λ _, true)) slow_clock sample_provider
    sample_request sample_context sample_gateway_world in
  out.1 = Throw (failure (ReservationExpiredError "id-0")) ∧ calls out.2 = 1 ∧
  events (store out.2) = [] ∧
  reserved_sum "budget" (@clock_at slow_clock (Gateway.ticks out.2)) (store out.2) = 0%Z.
Proof. by vm_compute. Qed.


Lemma charge_within_reservation_witness :
  ∃ response metering w', sample_run = (Ok (response, metering), w') ∧
    gm_reservedMicros metering = Some 7500%Z ∧
    (0 <= gm_actualMicros metering <= gm_estimatedMicros metering)%Z ∧
    ∀ reserved, gm_reservedMicros metering = Some reserved →
      (gm_estimatedMicros metering <= reserved)%Z.
Proof.
  destruct sample_run as [[[response metering]|e] w'] eqn:Hrun; [|by vm_compute in Hrun].
  exists response, metering, w'. split; [done|].
  pose proof (@charge_within_reservation _ _ (sqlite_cost_laws _) sample_clock sample_provider
    sample_request sample_context sample_gateway_world response metering w' Hrun) as Hout.
  vm_compute in Hrun. injection Hrun as <- <- <-. split; [done|]. apply Hout. by vm_compute.
Defined.

End GatewaySafety.
