(* ===== verification/RecoverySteps.v ===== *)
(** What the operations of [RunRecovery] do to the database, as abstract steps:
    the others run, a run is recovered, a queued run is cancelled, a wish to stop
    is noted. *)
From S2P Require Import Prelude Errors TaskModel Json ActionModel PolicyModel Dates AgentModel Store RunStore ActionStore TaskServices PipelineServices RunRecovery Arranged RunHistory TaskInvariants TaskRefinement ActionSafety ActionHistory.
Import Canonical Policy Provenance Dates Arranged RunStore RunHistory RunRecovery.

Module RecoverySteps.

(** * What is stored *)

(** The tables, without the clock and the generated identifiers. *)
Abbreviation content := (RunStore.tables * ActionStore.tables)%type.

Definition content_of (s : ActionStore.world) : content :=
  (db (ActionStore.host s), ActionStore.caps s).

Definition stored (h : host) : content := content_of (store h).

Section steps.
  Context `{ShowNumber} `{Store.Environment} `{Others} `{Orchestration.Collation}.
  Context (sha256 : string → string).

(** * The abstract steps *)

(** The others, at some wait, from some clock. *)
Inductive others_step : content → content → Prop :=
| others n s : others_step (content_of s) (content_of (on_database n s)).

Definition others_run : relation content := rtc others_step.

(** One audit event more, of the operator about the run. *)
Definition audited (type : string) (input : run_input) (payload : record) (d d' : tables) : Prop :=
  ∃ id at_, d' = set_base (Store.append_audit (TaskRefinement.event_of id at_
    (run_audit type (ri_actorId input) (ri_projectId input) (ri_runId input) payload))) d.

(** The stored run ends as cancelled, for the reason given; the stage it is
    bound to, if any, is still the current one of its pipeline. *)
Definition run_ends (input : run_input) (code message : string) (d d' : tables) : Prop :=
  ∃ row row' e, runs d !! ri_runId input = Some row ∧ r_project_id row = ri_projectId input ∧
    binding_valid row d = true ∧ RunHistory.advances row row' ∧ r_status row' = AgentRun.cancelled ∧
    r_error_json row' = Some (cancel_error code message) ∧
    ev_run_id e = ri_runId input ∧ ev_status e = AgentRun.cancelled ∧
    d' = RunHistory.add_event e (set_runs <[ri_runId input := row']> d).

Definition unlocked (runId : string) : tables → tables :=
  set_locks (filter (λ p, l_run_id p.2 ≠ runId)).

(** What a report says, read from one state of the store. *)
Definition seen (projectId runId : string) (reason : option string) (s : ActionStore.world)
    (rep : Report) : Prop :=
  ∃ run requests actions ownerId is_live requested lock,
    (findRun runId (ActionStore.host s)).1 = Ok (Some run) ∧
    AgentRun.projectId run = projectId ∧
    (ActionStore.listActionRequests projectId s).1 = Ok requests ∧
    (report_actions projectId (own_requests runId requests) s).1 = Ok actions ∧
    (executionOwner runId (ActionStore.host s)).1 = Ok ownerId ∧
    lock = locks (db (ActionStore.host s)) !! AgentRun.taskId run ∧
    evidence_of projectId runId run actions ownerId is_live requested lock
      (default default_reason reason) = Ok (evidence rep) ∧
    plan_hash sha256 (evidence rep) = Ok (planHash rep).

(** The recovery that was approved: what it found had the approved hash and
    could be recovered; the run ended unless it had already; nobody holds a lock
    for it; and the audit trail says so. *)
Definition resolves (input : run_input) (approve : string) (c c' : content) : Prop :=
  ∃ s fresh d,
    content_of s = c ∧
    seen (ri_projectId input) (ri_runId input) (Some (ri_reason input)) s fresh ∧
    planHash fresh = approve ∧ recoverable (ev_classification (evidence fresh)) = true ∧
    (if bool_decide (ev_classification (evidence fresh) = terminal_cleanup) then d = c.1
     else run_ends input "INTERRUPTED_RUN_RESOLVED"
            "Interrupted execution resolved without replay" c.1 d) ∧
    audited "run.reconciled" input (reconcile_payload fresh) (unlocked (ri_runId input) d) c'.1 ∧
    c'.2 = c.2.

(** A queued run is cancelled before it starts. *)
Definition cancels (input : run_input) (reason : string) (c c' : content) : Prop :=
  ∃ d row, runs c.1 !! ri_runId input = Some row ∧ r_status row = AgentRun.queued ∧
    run_ends input "OPERATOR_CANCELLED" "Execution cancelled by operator" c.1 d ∧
    audited "run.cancelled" input [("reason", CStr reason)] (unlocked (ri_runId input) d) c'.1 ∧
    c'.2 = c.2.

(** ** Waits *)

Lemma others_run_refl c : others_run c c.
Proof. apply rtc_refl. Qed.

Lemma others_run_trans c1 c2 c3 : others_run c1 c2 → others_run c2 c3 → others_run c1 c3.
Proof. unfold others_run. intros. by etrans. Qed.

Definition resumed (inside : bool) (h : host) : host :=
  {| store := if inside then store h else on_database (waits h) (store h);
     control := on_control (waits h) (control h); waits := S (waits h) |}.

Lemma await_spec {A} inside (m : RunRecovery.command A) h r h' :
  await inside m h = (r, h') →
  ∃ h1, m h = (r, h1) ∧ h' = if is_ok r then resumed inside h1 else h1.
Proof.
  unfold await, mbind, action_bind. destruct (m h) as [[a|e] h1]; cbn; intros [= <- <-]; eauto.
Qed.

Lemma await_Ok {A} inside (m : RunRecovery.command A) h a h' :
  await inside m h = (Ok a, h') → ∃ h1, m h = (Ok a, h1) ∧ h' = resumed inside h1.
Proof. by intros (h1 & Hm & ->)%await_spec; eauto. Qed.

(** A command that leaves the tables alone, outside a transaction up to what
    the others do. *)
Definition idle {A} (m : RunRecovery.command A) : Prop :=
  ∀ h, others_run (stored h) (stored (m h).2).

Definition still {A} (m : RunRecovery.command A) : Prop := ∀ h, store (m h).2 = store h.

Lemma still_idle {A} (m : RunRecovery.command A) : still m → idle m.
Proof. intros Hm h. unfold stored. rewrite Hm. apply others_run_refl. Qed.

Lemma idle_bind {A B} (m : RunRecovery.command A) (k : A → RunRecovery.command B) :
  idle m → (∀ a, idle (k a)) → idle (m ≫= k).
Proof.
  intros Hm Hk h. unfold mbind, action_bind. specialize (Hm h).
  destruct (m h) as [[a|e] h1]; cbn in *; [|done]. by eapply others_run_trans; [|apply Hk].
Qed.

Lemma still_bind {A B} (m : RunRecovery.command A) (k : A → RunRecovery.command B) :
  still m → (∀ a, still (k a)) → still (m ≫= k).
Proof.
  intros Hm Hk h. unfold mbind, action_bind. specialize (Hm h).
  destruct (m h) as [[a|e] h1]; cbn in *; [|done]. by rewrite Hk.
Qed.

Lemma still_lift {A} (r : outcome A) : still (lift r).
Proof. done. Qed.

Lemma still_ret {A} (a : A) : still (mret a).
Proof. done. Qed.

Lemma still_observe {A} (f : Control → A) : still (observe f).
Proof. done. Qed.

Lemma still_refuse b e : still (refuse_if b e).
Proof. by destruct b. Qed.

Lemma still_store {A} (m : ActionStore.command A) : readonly m → still (on_store m).
Proof. intros Hm h. unfold on_store. specialize (Hm (store h)). by destruct (m (store h)). Qed.

Lemma still_runs {A} (m : RunStore.command A) : readonly m → still (on_runs m).
Proof.
  intros Hm. apply still_store. intros s. unfold ActionStore.on_runs.
  specialize (Hm (ActionStore.host s)). destruct (m (ActionStore.host s)) as [r w]. cbn in *.
  subst. by destruct s.
Qed.

Lemma idle_await {A} (m : RunRecovery.command A) : idle m → idle (await false m).
Proof.
  intros Hm. apply idle_bind; [done|]. intros a. apply idle_bind; [|by intros; apply still_idle].
  intros h. apply rtc_once. constructor.
Qed.

Lemma still_await {A} (m : RunRecovery.command A) : still m → still (await true m).
Proof. intros Hm. apply still_bind; [done|]. intros a. by apply still_bind. Qed.

(** ** Inspection *)

Lemma on_store_Ok {A} (m : ActionStore.command A) h a h' :
  on_store m h = (Ok a, h') → ∃ s, m (store h) = (Ok a, s) ∧ h' = set_store s h.
Proof. unfold on_store. destruct (m (store h)) as [r s]. intros [= -> <-]. eauto. Qed.

Lemma on_runs_Ok {A} (m : RunStore.command A) h a h' :
  on_runs m h = (Ok a, h') →
  ∃ w, m (ActionStore.host (store h)) = (Ok a, w) ∧
    h' = set_store (ActionStore.on_host (λ _, w) (store h)) h.
Proof.
  unfold on_runs. intros (s & Hs & ->)%on_store_Ok. unfold ActionStore.on_runs in Hs.
  destruct (m _) as [r w]. injection Hs as -> <-. eauto.
Qed.

Lemma readonly_findRun id : readonly (findRun id).
Proof. intros w. unfold findRun. rewrite read_bind. by destruct (runs (db w) !! id) as [r|];
  [destruct (run_of_row id r)|]. Qed.

Lemma readonly_report projectId l : readonly (report_actions projectId l).
Proof.
  induction l as [|p l IH]; [done|]. cbn [report_actions]. apply readonly_bind.
  - intros w. unfold ActionStore.findExecutionByAction. rewrite get_bind.
    destruct (ActionStore.execution_of _ _ _) as [e|]; [|done]. by destruct (ActionExecution.restore e).
  - intros found. by apply readonly_bind.
Qed.

Lemma readonly_requests projectId : readonly (ActionStore.listActionRequests projectId).
Proof. intros w. unfold ActionStore.listActionRequests. rewrite get_bind. by destruct (map_result _ _). Qed.

(** An idle read at a wait: [await inside (on_runs m)], where [m] only reads. *)
Lemma await_runs_Ok {A} inside (m : RunStore.command A) h a h' :
  readonly m → await inside (on_runs m) h = (Ok a, h') →
  (m (ActionStore.host (store h))).1 = Ok a ∧ h' = resumed inside h.
Proof.
  intros Hm (h1 & E1 & ->)%await_Ok. pose proof (still_runs m Hm h) as Hs.
  apply on_runs_Ok in E1 as Hr. destruct Hr as (w & Hw & Hh). rewrite E1 in Hs. cbn in Hs.
  split; [by rewrite Hw|]. f_equal. subst h1. destruct h. cbn in *. by rewrite Hs.
Qed.

Lemma await_store_Ok {A} inside (m : ActionStore.command A) h a h' :
  readonly m → await inside (on_store m) h = (Ok a, h') →
  (m (store h)).1 = Ok a ∧ h' = resumed inside h.
Proof.
  intros Hm (h1 & E1 & ->)%await_Ok. pose proof (still_store m Hm h) as Hs.
  apply on_store_Ok in E1 as Hr. destruct Hr as (w & Hw & Hh). rewrite E1 in Hs. cbn in Hs.
  split; [by rewrite Hw|]. f_equal. subst h1. destruct h. cbn in *. by rewrite Hs.
Qed.

Lemma required_run_Ok inside projectId runId h run h' :
  requireRun inside projectId runId h = (Ok run, h') →
  (findRun runId (ActionStore.host (store h))).1 = Ok (Some run) ∧
  AgentRun.projectId run = projectId ∧ h' = resumed inside h.
Proof.
  unfold requireRun. intros (found & h1 & Hf & Hr)%action_bind_Ok.
  apply await_runs_Ok in Hf as [Hf ->]; [|apply readonly_findRun].
  destruct found as [r|]; [|done]. apply refuse_if_bind_Ok in Hr as [Hp Hr].
  apply negb_false_iff, bool_decide_eq_true in Hp. injection Hr as -> <-. done.
Qed.

Lemma observe_bind {A B} (f : Control → A) (k : A → RunRecovery.command B) h :
  (observe f ≫= k) h = k (f (control h)) h.
Proof. done. Qed.

(** In a transaction a report is what one state of the store holds. *)
Lemma inspect_inside projectId runId reason h rep h' :
  inspect sha256 true projectId runId reason h = (Ok rep, h') →
  store h' = store h ∧ seen projectId runId reason (store h) rep.
Proof.
  unfold inspect. intros (run & h1 & E1 & Hk)%action_bind_Ok.
  apply await_Ok in E1 as (h0 & E1 & ->). apply required_run_Ok in E1 as (Hrun & Hp & ->).
  apply action_bind_Ok in Hk as (requests & h2 & E2 & Hk).
  apply await_store_Ok in E2 as [E2 ->]; [|apply readonly_requests].
  apply action_bind_Ok in Hk as (acts & h3 & E3 & Hk).
  apply await_store_Ok in E3 as [E3 ->]; [|apply readonly_report].
  apply action_bind_Ok in Hk as (owner & h4 & E4 & Hk).
  apply await_runs_Ok in E4 as [E4 ->]; [|done].
  rewrite observe_bind in Hk.
  apply action_bind_Ok in Hk as (lock & h5 & E5 & Hk).
  apply await_runs_Ok in E5 as [E5 ->]; [|done].
  rewrite observe_bind in Hk.
  apply lift_bind_Ok in Hk as (e & He & Hk). apply lift_bind_Ok in Hk as (hash & Hh & Hk).
  injection Hk as <- <-. cbn in *. split; [done|].
  eexists run, requests, acts, owner, _, _, lock. split_and!; try done. by injection E5.
Qed.

(** ** Changes *)

Lemma host_transaction_Ok {A} (work : RunRecovery.command A) h a h' :
  RunRecovery.transaction work h = (Ok a, h') →
  ∃ h1 h2, stored h1 = stored h ∧ work h1 = (Ok a, h2) ∧ stored h' = stored h2.
Proof.
  unfold RunRecovery.transaction. destruct (RunStore.active _); [done|].
  destruct (work _) as [[b|e] h2] eqn:Hw; [|done]. intros [= -> <-].
  eexists _, h2. split_and!; [|exact Hw|]; done.
Qed.

Lemma host_transaction_Throw {A} (work : RunRecovery.command A) h e h' :
  RunRecovery.transaction work h = (Throw e, h') → stored h' = stored h.
Proof.
  unfold RunRecovery.transaction. destruct (RunStore.active _); [by intros [= _ <-]|].
  destruct (work _) as [[b|e'] h2]; [done|]. by intros [= _ <-].
Qed.

Lemma ended_spec s : is_ended s = AgentRun.is_terminal s.
Proof. done. Qed.

Lemma transition_fields st at_ d run u run' :
  AgentRun.transition st at_ d run = (Ok u, run') →
  AgentRun.status run' = st ∧ AgentRun.id run' = AgentRun.id run ∧
  AgentRun.error run' = AgentRun.or_keep (AgentRun.det_error d) (AgentRun.error run).
Proof.
  unfold AgentRun.transition. rewrite get_bind. intros [_ Ht]%refuse_if_bind_Ok.
  apply lift_bind_Ok in Ht as (x & _ & Ht). apply refuse_if_bind_Ok in Ht as [_ Ht].
  by injection Ht as _ <-.
Qed.

Lemma cancelled_run_Ok run code message h run' h' :
  cancelled_run run code message h = (Ok run', h') →
  stored h' = stored h ∧ AgentRun.status run' = AgentRun.cancelled ∧
  AgentRun.id run' = AgentRun.id run ∧
  AgentRun.error run' = Some (embed 0 (cancel_error code message)).
Proof.
  unfold cancelled_run. intros (at_ & h1 & Hn & Hk)%action_bind_Ok.
  apply on_runs_Ok in Hn as (w & [= <- <-] & ->).
  destruct (AgentRun.transition _ _ _ _) as [[u|e] r] eqn:Ht; [|done]. injection Hk as <- <-.
  by apply transition_fields in Ht as (Hs & Hi & He).
Qed.

Lemma row_of_run_error v row :
  row_of_run v = Ok row → json_column (AgentRun.error v) = Ok (r_error_json row).
Proof.
  unfold row_of_run. rewrite bind_Ok. intros (? & _ & He).
  apply bind_Ok in He as (err & Herr & He). apply bind_Ok in He as (? & _ & He).
  apply bind_Ok in He as (? & _ & He). apply bind_Ok in He as (? & _ & He).
  apply bind_Ok in He as (? & _ & He). by injection He as <-.
Qed.

Lemma stored_run_Ok id w run :
  (findRun id w).1 = Ok (Some run) → ∃ row, runs (db w) !! id = Some row ∧ run_of_row id row = Ok run.
Proof.
  unfold findRun. rewrite read_bind. destruct (runs (db w) !! id) as [row|]; [|done].
  destruct (run_of_row id row) as [r|e] eqn:Hr; [|done]. intros [= ->]. eauto.
Qed.

(** Saving the cancelled object ends the stored run. *)
Lemma save_cancelled input code message run run' w0 w w' v :
  (findRun (ri_runId input) w0).1 = Ok (Some run) → AgentRun.projectId run = ri_projectId input →
  db w = db w0 → AgentRun.status run' = AgentRun.cancelled → AgentRun.id run' = AgentRun.id run →
  AgentRun.error run' = Some (embed 0 (cancel_error code message)) →
  is_ended (AgentRun.status run) = false →
  saveRun run' w = (Ok v, w') → run_ends input code message (db w0) (db w').
Proof.
  intros (row & Hrow & Hrun)%stored_run_Ok Hp Hdb Hst Hid Herr Hend Hs.
  apply run_of_row_spec in Hrun as (Ei & Epr & _ & _ & _ & _ & Es & _).
  apply saveRun_Ok in Hs as (_ & new & Hnew & Hbi & Hc). rewrite Hdb, Hid, Ei, Hrow in Hc.
  destruct Hc as (current & Hcur & Hident & [[_ Hsame]|(e & He1 & He2 & Hne & _ & Hcan & Hex & _ & Hdb')]).
  { rewrite Hst in Hsame. rewrite Es, <- Hsame in Hend. done. }
  pose proof (row_of_run_error _ _ Hnew) as He. rewrite Herr in He.
  assert (binding_valid row (db w0) = true) as Hbind.
  { rewrite <- (same_identity_binding run' current row new _ ltac:(by rewrite Hid, Ei) Hnew Hident), <- Hdb.
    unfold before_insert in Hbi. apply throw_if_bind_Ok in Hbi as [_ Hbi].
    by apply throw_if_Ok, negb_false_iff in Hbi. }
  apply row_of_run_spec in Hnew as (_ & _ & _ & _ & _ & Hns & _).
  exists row, (advanced_row row new), e. split_and!; try done; try congruence.
  - constructor; try done; cbn; [rewrite Hns; apply can_persist_advances; congruence|].
    by apply execution_kept.
  - cbn. congruence.
  - cbn. by injection He as <-.
Qed.

Lemma audit_run_Ok type input payload h u h' :
  canonical type = true →
  audit_run type (ri_actorId input) (ri_projectId input) (ri_runId input) payload h = (Ok u, h') →
  audited type input payload (stored h).1 (stored h').1 ∧ (stored h').2 = (stored h).2.
Proof.
  intros Hc. unfold audit_run. intros (? & h1 & Ha & Hk)%action_bind_Ok. injection Hk as _ <-.
  apply on_runs_Ok in Ha as (w & Hw & ->). unfold on_base in Hw.
  destruct (TaskServices.record_audit_event _ _) as [[id|e] sw] eqn:Hr; [|done].
  injection Hw as _ <-. apply TaskRefinement.record_audit_event_Ok in Hr as (at_ & Hdb & _); [|done].
  cbn in *. split; [|done]. exists (Store.id_at (generated (ActionStore.host (store h)))), at_.
  unfold set_base. cbn. by rewrite Hdb.
Qed.

Lemma release_Ok runId h b h' :
  on_runs (releaseTaskLock runId) h = (Ok b, h') →
  stored h' = (unlocked runId (stored h).1, (stored h).2).
Proof. by intros (w & [_ ->]%releaseTaskLock_Ok & ->)%on_runs_Ok. Qed.

Lemma stored_resumed h : stored (resumed true h) = stored h.
Proof. done. Qed.

(** ** The transactions *)

Lemma orphaned_not_ended run acts is_live lock :
  recoverable (classify run acts is_live lock) = true →
  classify run acts is_live lock ≠ terminal_cleanup → is_ended (AgentRun.status run) = false.
Proof.
  unfold classify. destruct (existsb undecided acts); [done|]. destruct is_live; [done|].
  destruct (is_ended _); [|done]. by case_bool_decide.
Qed.

Lemma evidence_fields projectId runId run acts owner is_live requested lock reason e :
  evidence_of projectId runId run acts owner is_live requested lock reason = Ok e →
  ev_classification e = classify run acts is_live lock ∧
  ev_available e = recoverable (classify run acts is_live lock) ∧ ev_actions e = acts.
Proof.
  unfold evidence_of. rewrite bind_Ok. intros (? & _ & He). apply bind_Ok in He as (? & _ & He).
  by injection He as <-.
Qed.

Lemma end_run_Ok input code message run h u h' :
  (findRun (ri_runId input) (ActionStore.host (store h))).1 = Ok (Some run) →
  AgentRun.projectId run = ri_projectId input → is_ended (AgentRun.status run) = false →
  (run ← cancelled_run run code message; await true (on_runs (saveRun run));; mret tt) h = (Ok u, h') →
  run_ends input code message (stored h).1 (stored h').1 ∧ (stored h').2 = (stored h).2.
Proof.
  intros Hf Hp Hend (run' & h1 & Hc & Hk)%action_bind_Ok.
  apply cancelled_run_Ok in Hc as (Hst & Hs & Hi & He).
  apply action_bind_Ok in Hk as (v & h2 & Hsave & Hk). injection Hk as _ <-.
  apply await_Ok in Hsave as (h3 & Hsave & ->). apply on_runs_Ok in Hsave as (w & Hsave & ->).
  rewrite stored_resumed. cbn. unfold stored, content_of in Hst. injection Hst as Hdb Hcaps.
  split; [by eapply save_cancelled|done].
Qed.

Lemma unlock_and_audit_Ok type input payload h u h' :
  canonical type = true →
  (await true (on_runs (releaseTaskLock (ri_runId input)));;
   await true (audit_run type (ri_actorId input) (ri_projectId input) (ri_runId input) payload)) h =
    (Ok u, h') →
  audited type input payload (unlocked (ri_runId input) (stored h).1) (stored h').1 ∧
  (stored h').2 = (stored h).2.
Proof.
  intros Hc (b & h1 & Hr & Hk)%action_bind_Ok. apply await_Ok in Hr as (h2 & Hr & ->).
  apply release_Ok in Hr. apply await_Ok in Hk as (h3 & Hk & ->).
  apply audit_run_Ok in Hk as [Ha Hcaps]; [|done]. rewrite stored_resumed in *.
  rewrite Hr in Ha, Hcaps. done.
Qed.

Lemma reconcile_body_Ok input approve h u h' :
  reconcile_body sha256 input approve h = (Ok u, h') → resolves input approve (stored h) (stored h').
Proof.
  unfold reconcile_body. intros (fresh & h1 & Hi & Hk)%action_bind_Ok.
  apply await_Ok in Hi as (h0 & Hi & ->). apply inspect_inside in Hi as [Hst Hseen].
  rewrite observe_bind in Hk. apply refuse_if_bind_Ok in Hk as [Hg Hk].
  apply orb_false_iff in Hg as [[Hav%negb_false_iff Hh%negb_false_iff]%orb_false_iff _].
  apply bool_decide_eq_true in Hh.
  apply action_bind_Ok in Hk as (run & h2 & Hr & Hk). apply await_Ok in Hr as (h3 & Hr & ->).
  apply required_run_Ok in Hr as (Hf & Hp & ->). cbn in Hf. rewrite Hst in Hf.
  apply action_bind_Ok in Hk as (u' & h4 & Hend & Hk).
  apply unlock_and_audit_Ok in Hk as [Ha Hcaps]; [|done].
  set (g := resumed true (resumed true (resumed true h0))) in *.
  assert (store g = store h) as Hg by done.
  assert (stored g = stored h) as Hsg by (unfold stored; by rewrite Hg).
  pose proof Hseen as (run0 & requests & acts & owner & is_live & requested & lock & Hf0 & Hp0 & _ &
    _ & _ & _ & He & _).
  assert (run0 = run) as -> by congruence.
  apply evidence_fields in He as (Hclass & Hav' & _).
  exists (store h), fresh, (stored h4).1. split_and!; [done|done|done|congruence| |done|].
  - case_bool_decide as Ht; [by injection Hend as _ <-; rewrite Hsg|].
    rewrite <- Hsg. eapply end_run_Ok; [by rewrite Hg|done| |exact Hend].
    eapply orphaned_not_ended; rewrite <- ?Hav', <- ?Hclass; done.
  - rewrite Hcaps. case_bool_decide as Ht; [by injection Hend as _ <-; rewrite Hsg|].
    rewrite <- Hsg. eapply end_run_Ok; [by rewrite Hg|done| |exact Hend].
    eapply orphaned_not_ended; rewrite <- ?Hav', <- ?Hclass; done.
Qed.

Lemma cancel_queued_Ok input reason h u h' :
  cancel_queued input reason h = (Ok u, h') → cancels input reason (stored h) (stored h').
Proof.
  unfold cancel_queued. intros (run & h1 & Hr & Hk)%action_bind_Ok.
  apply await_Ok in Hr as (h0 & Hr & ->). apply required_run_Ok in Hr as (Hf & Hp & ->).
  rewrite observe_bind in Hk. apply refuse_if_bind_Ok in Hk as [Hg Hk].
  apply orb_false_iff in Hg as [Hq%negb_false_iff%bool_decide_eq_true _].
  set (g := resumed true (resumed true h)) in *.
  apply action_bind_Ok in Hk as (run' & h2 & Hc & Hk).
  apply action_bind_Ok in Hk as (v & h3 & Hs & Hk).
  assert ((run ← cancelled_run run "OPERATOR_CANCELLED" "Execution cancelled by operator";
           await true (on_runs (saveRun run));; mret tt) g = (Ok tt, h3)) as Hend.
  { apply action_bind_Ok. exists run', h2. split; [done|]. apply action_bind_Ok. by exists v, h3. }
  apply (end_run_Ok input) in Hend as [Hend Hcaps]; [|done|done|by rewrite Hq].
  apply unlock_and_audit_Ok in Hk as [Ha Hcaps']; [|done].
  apply stored_run_Ok in Hf as (row & Hrow & Hrun).
  apply run_of_row_spec in Hrun as (_ & _ & _ & _ & _ & _ & Es & _).
  exists (stored h3).1, row. split_and!; [done|congruence|done|done|by rewrite Hcaps'].
Qed.

(** ** Reports read while the others run *)

Lemma idle_requireRun projectId runId : idle (requireRun false projectId runId).
Proof.
  apply idle_bind; [apply idle_await, still_idle, still_runs, readonly_findRun|].
  intros [run|]; [|by apply still_idle]. apply still_idle, still_bind; [apply still_refuse|done].
Qed.

Lemma idle_inspect projectId runId reason : idle (inspect sha256 false projectId runId reason).
Proof.
  unfold inspect. apply idle_bind; [apply idle_await, idle_requireRun|]. intros run.
  apply idle_bind; [apply idle_await, still_idle, still_store, readonly_requests|]. intros requests.
  apply idle_bind; [apply idle_await, still_idle, still_store, readonly_report|]. intros acts.
  apply idle_bind; [by apply idle_await, still_idle, still_runs|]. intros owner.
  apply idle_bind; [by apply still_idle|]. intros is_live.
  apply idle_bind; [by apply idle_await, still_idle, still_runs|]. intros lock.
  apply still_idle, still_bind; [done|]. intros requested.
  apply still_bind; [done|]. intros e. by apply still_bind.
Qed.

Lemma idle_Ok {A} (m : RunRecovery.command A) h r h' :
  idle m → m h = (r, h') → others_run (stored h) (stored h').
Proof. intros Hm Hr. specialize (Hm h). by rewrite Hr in Hm. Qed.

Lemma resumed_others h : others_run (stored h) (stored (resumed false h)).
Proof. apply rtc_once. constructor. Qed.

(** ** What a recoverable report says of the actions *)

(** The effect of the request may or may not have happened. *)
Definition effect_undecided (p : ActionStore.Request) (d : ActionStore.tables) : Prop :=
  includes (ActionRequest.status p) [ActionRequest.executing; ActionRequest.execution_unknown] = true ∨
  ∃ e, ActionStore.execution_of (ActionRequest.id p) (ActionRequest.projectId p) d = Some e ∧
    includes (ActionExecution.status e)
      [ActionExecution.executing; ActionExecution.execution_unknown] = true.

Lemma report_actions_Ok projectId l s acts :
  (report_actions projectId l s).1 = Ok acts →
  ∀ p, p ∈ l → ActionRequest.projectId p = projectId →
    effect_undecided p (ActionStore.caps s) → existsb undecided acts = true.
Proof.
  revert s acts. induction l as [|q l IH]; intros s acts.
  { intros _ p Hp. by apply elem_of_nil in Hp. }
  destruct (report_actions projectId (q :: l) s) as [[r|e] s'] eqn:Hr; [|done]. intros [= ->].
  cbn [report_actions] in Hr.
  apply action_bind_Ok in Hr as (found & s1 & Hf & Hr). apply action_bind_Ok in Hr as (more & s2 & Hm & Hr).
  injection Hr as <- <-. unfold ActionStore.findExecutionByAction in Hf. rewrite get_bind in Hf.
  assert (s1 = s ∧ found = ActionStore.execution_of (ActionRequest.id q) projectId (ActionStore.caps s))
    as [-> Hfound].
  { destruct (ActionStore.execution_of _ _ _) as [e|]; [|by injection Hf as <- <-].
    apply lift_bind_Ok in Hf as (v & Hv & Hf). injection Hf as <- <-. split; [done|].
    unfold ActionExecution.restore, ActionExecution.normalize in Hv. f_equal.
    repeat (apply throw_if_bind_Ok in Hv as [_ Hv]). apply bind_Ok in Hv as (_ & _ & Hv). congruence. }
  intros p Hp Hproj Hu. cbn [existsb]. apply elem_of_cons in Hp as [->|Hp].
  - apply orb_true_iff. left. unfold undecided. cbn. apply orb_true_iff.
    destruct Hu as [Hs|(e & He & Hs)]; [by left|]. right. subst found projectId. by rewrite He.
  - apply orb_true_iff. right. eapply IH; [by rewrite Hm|done..].
Qed.

Lemma project_requests_elem project d p :
  p ∈ ActionStore.project_requests project d ↔
  ActionRequest.projectId p = project ∧ ∃ k, ActionStore.requests d !! k = Some p.
Proof.
  unfold ActionStore.project_requests. rewrite sort_by_elem_of, list_elem_of_filter.
  setoid_rewrite list_elem_of_fmap. split.
  - intros [Hp ([k q] & -> & Hk)]. split; [done|]. exists k. by apply elem_of_map_to_list in Hk.
  - intros [Hp [k Hk]]. split; [done|]. exists (k, p). split; [done|]. by apply elem_of_map_to_list.
Qed.

(** A report that can be recovered from leaves no effect in doubt. *)
Lemma seen_decided projectId runId reason s rep k p :
  seen projectId runId reason s rep → recoverable (ev_classification (evidence rep)) = true →
  ActionStore.requests (ActionStore.caps s) !! k = Some p → ActionRequest.projectId p = projectId →
  ActionRequest.agentRunId p = Some runId → ¬ effect_undecided p (ActionStore.caps s).
Proof.
  intros (run & requests & acts & owner & is_live & requested & lock & _ & _ & Hl & Ha & _ & _ & He & _)
    Hrec Hk Hp Hrun Hu.
  apply evidence_fields in He as (Hc & _ & _). rewrite Hc in Hrec.
  assert (existsb undecided acts = true) as Hx.
  2: { unfold classify in Hrec. by rewrite Hx in Hrec. }
  unfold ActionStore.listActionRequests in Hl. rewrite get_bind in Hl.
  unfold lift in Hl. cbn in Hl. apply map_result_Ok in Hl.
  assert (p ∈ ActionStore.project_requests projectId (ActionStore.caps s)) as Hin
    by (apply project_requests_elem; eauto).
  apply list_elem_of_lookup in Hin as [i Hi].
  destruct (Forall2_lookup_l _ _ _ _ _ Hl Hi) as (q & Hq & Hres).
  apply ActionHistory.restored_request_Ok in Hres as (args & cons & Hfields).
  apply (report_actions_Ok _ _ _ _ Ha q); subst q.
  - unfold own_requests. rewrite sort_by_elem_of, list_elem_of_filter.
    split; [exact Hrun|]. by eapply list_elem_of_lookup_2.
  - exact Hp.
  - destruct Hu as [Hu|Hu]; [by left|by right].
Qed.

Lemma unlocked_lock runId d t l : locks (unlocked runId d) !! t = Some l → l_run_id l ≠ runId.
Proof. unfold unlocked. cbn. by intros [_ Hl]%map_lookup_filter_Some. Qed.

Lemma audited_runs type input payload d d' :
  audited type input payload d d' → runs d' = runs d ∧ locks d' = locks d.
Proof. by intros (id & at_ & ->). Qed.

Lemma run_ends_row input code message d d' :
  run_ends input code message d d' →
  ∃ row, runs d' !! ri_runId input = Some row ∧ AgentRun.is_terminal (r_status row) = true.
Proof.
  intros (row & row' & e & _ & _ & _ & _ & Hs & _ & _ & _ & ->). exists row'.
  rewrite RunHistory.runs_add_event. cbn. rewrite lookup_insert_eq, Hs. done.
Qed.

Lemma cleanup_ended run acts is_live lock :
  classify run acts is_live lock = terminal_cleanup → is_ended (AgentRun.status run) = true.
Proof.
  unfold classify. destruct (existsb undecided acts); [done|]. destruct is_live; [done|].
  destruct (is_ended _); [done|]. by case_bool_decide.
Qed.

(** The recovered run has ended. *)
Lemma resolves_ended input approve c c' :
  resolves input approve c c' →
  ∃ row, runs c'.1 !! ri_runId input = Some row ∧ AgentRun.is_terminal (r_status row) = true.
Proof.
  intros (s & fresh & d & Hs & Hseen & _ & _ & Hd & Ha & _).
  apply audited_runs in Ha as [-> _]. cbn. case_bool_decide as Ht; [|by eapply run_ends_row].
  destruct Hseen as (run & ? & ? & ? & ? & ? & ? & Hf & _ & _ & _ & _ & _ & He & _).
  apply stored_run_Ok in Hf as (row & Hrow & Hrun).
  apply run_of_row_spec in Hrun as (_ & _ & _ & _ & _ & _ & Es & _).
  exists row. subst d c. split; [done|]. rewrite <- Es.
  apply evidence_fields in He as (Hc & _). rewrite Hc in Ht. by apply cleanup_ended in Ht.
Qed.

(** ** What the hash of a plan determines *)

Lemma action_name_inj s t : ActionRequest.status_name s = ActionRequest.status_name t → s = t.
Proof. by destruct s, t. Qed.

Lemma run_name_inj s t : AgentRun.status_name s = AgentRun.status_name t → s = t.
Proof. by destruct s, t. Qed.

Lemma text_or_null_inj a b : text_or_null a = text_or_null b → a = b.
Proof. destruct a, b; cbn; congruence. Qed.

Lemma action_json_inj a b : arranged (action_json a) = arranged (action_json b) → a = b.
Proof.
  destruct a as [i s p x], b as [j t q y]. intros Heq.
  assert (∀ k v w, (k, v) ∈ [("id", CStr i); ("status", CStr (ActionRequest.status_name s));
      ("payloadHash", CStr p); ("executionStatus", text_or_null (execution_status_name <$> x))] →
    (k, w) ∈ [("id", CStr j); ("status", CStr (ActionRequest.status_name t));
      ("payloadHash", CStr q); ("executionStatus", text_or_null (execution_status_name <$> y))] →
    arranged v = arranged w) as Hf.
  { intros k v w. apply arranged_field; [by destruct x|exact Heq]. }
  f_equal.
  - specialize (Hf "id" (CStr i) (CStr j) ltac:(left) ltac:(left)). cbn in Hf. congruence.
  - specialize (Hf "status" _ _ ltac:(do 1 right; left) ltac:(do 1 right; left)).
    apply action_name_inj. cbn in Hf. congruence.
  - specialize (Hf "payloadHash" _ _ ltac:(do 2 right; left) ltac:(do 2 right; left)).
    cbn in Hf. congruence.
  - specialize (Hf "executionStatus" _ _ ltac:(do 3 right; left) ltac:(do 3 right; left)).
    by destruct x as [[]|], y as [[]|].
Qed.

Lemma cons_eq {A} (a b : A) l k : a :: l = b :: k → a = b ∧ l = k.
Proof. by intros [= -> ->]. Qed.

Lemma actions_json_inj l l' :
  map arranged (action_json <$> l) = map arranged (action_json <$> l') → l = l'.
Proof.
  revert l'. induction l as [|a l IH]; intros [|b l']; try done.
  rewrite !fmap_cons. cbn [map]. intros [Ha Hl]%cons_eq.
  f_equal; [by apply action_json_inj|by apply IH].
Qed.

Lemma lock_json_inj a b :
  arranged (from_option lock_json CNull a) = arranged (from_option lock_json CNull b) → a = b.
Proof. destruct a as [[i u]|], b as [[j v]|]; try done. vm_compute. congruence. Qed.

Lemma harmless_actions l : forallb harmless (action_json <$> l) = true.
Proof.
  induction l as [|a l IH]; [done|]. rewrite fmap_cons. cbn [forallb]. rewrite IH.
  by destruct a as [? ? ? [[]|]].
Qed.

(** The members of an evidence: every field and how it is written. *)
Lemma evidence_harmless e : harmless (evidence_json e) = true.
Proof.
  destruct e as [p r t s u o c q x l k m a z]. unfold evidence_json. cbn [harmless].
  apply andb_true_iff. split; [vm_compute; reflexivity|].
  cbn [forallb fst snd ev_actions harmless]. rewrite harmless_actions. by destruct o, k.
Qed.

Definition members_of (v : cjson) : record := match v with CObj l => l | _ => [] end.

Lemma evidence_json_inj e e' : arranged (evidence_json e) = arranged (evidence_json e') → e = e'.
Proof.
  intros Heq. pose proof (evidence_harmless e) as Hh.
  assert (∀ i k v w, members_of (evidence_json e) !! i = Some (k, v) →
    members_of (evidence_json e') !! i = Some (k, w) → arranged v = arranged w) as Hf.
  { intros i k v w Hv Hw. eapply (arranged_field _ _ k); [exact Hh|exact Heq|..];
      by eapply list_elem_of_lookup_2. }
  clear Heq Hh. destruct e as [p r t s u o c q x l k m a z], e' as [p' r' t' s' u' o' c' q' x' l' k' m' a' z'].
  pose proof (Hf 1 _ _ _ eq_refl eq_refl) as F1. pose proof (Hf 2 _ _ _ eq_refl eq_refl) as F2.
  pose proof (Hf 3 _ _ _ eq_refl eq_refl) as F3. pose proof (Hf 4 _ _ _ eq_refl eq_refl) as F4.
  pose proof (Hf 5 _ _ _ eq_refl eq_refl) as F5. pose proof (Hf 6 _ _ _ eq_refl eq_refl) as F6.
  pose proof (Hf 7 _ _ _ eq_refl eq_refl) as F7. pose proof (Hf 8 _ _ _ eq_refl eq_refl) as F8.
  pose proof (Hf 9 _ _ _ eq_refl eq_refl) as F9. pose proof (Hf 10 _ _ _ eq_refl eq_refl) as F10.
  pose proof (Hf 11 _ _ _ eq_refl eq_refl) as F11. pose proof (Hf 12 _ _ _ eq_refl eq_refl) as F12.
  pose proof (Hf 13 _ _ _ eq_refl eq_refl) as F13. pose proof (Hf 14 _ _ _ eq_refl eq_refl) as F14.
  clear Hf. apply lock_json_inj in F11. cbn in *. assert (l = l') as -> by (apply actions_json_inj; congruence).
  assert (s = s') as -> by (apply run_name_inj; congruence).
  assert (z = z') as -> by (apply run_name_inj; congruence).
  assert (o = o') as -> by (destruct o, o'; cbn in *; congruence).
  assert (c = c') as -> by (by destruct c, c').
  congruence.
Qed.

(** ** Reconciliation *)

Lemma reconcile_spec input approve h r h' :
  reconcile sha256 input approve h = (r, h') →
  match r, approve with
  | Ok res, Some hash => applied res = true ∧
      ∃ c c', others_run (stored h) c ∧ resolves input hash c c' ∧ others_run c' (stored h')
  | Ok res, None => applied res = false ∧ others_run (stored h) (stored h')
  | Throw _, _ => others_run (stored h) (stored h')
  end.
Proof.
  unfold reconcile, mbind, action_bind.
  destruct (await false _ h) as [[p|e] h1] eqn:Hi;
    (apply idle_Ok in Hi; [|apply idle_await, idle_inspect]); [|by intros [= <- <-]].
  destruct approve as [hash|]; [|by intros [= <- <-]].
  destruct (await false _ h1) as [[u|e] h2] eqn:Ht; apply await_spec in Ht as (h3 & Ht & ->);
    intros [= <- <-].
  - apply host_transaction_Ok in Ht as (a & b & Ha & Hb & Hst). split; [done|].
    apply reconcile_body_Ok in Hb. rewrite Ha, <- Hst in Hb. exists (stored h1), (stored h3).
    split_and!; [done|done|apply resumed_others].
  - by apply host_transaction_Throw in Ht as ->.
Qed.

Lemma reconcile_Ok input approve h res h' :
  reconcile sha256 input (Some approve) h = (Ok res, h') →
  ∃ c c', others_run (stored h) c ∧ resolves input approve c c' ∧ others_run c' (stored h').
Proof. by intros [_ Hr]%reconcile_spec. Qed.

Lemma inspect_hash inside projectId runId reason h rep h' :
  inspect sha256 inside projectId runId reason h = (Ok rep, h') →
  plan_hash sha256 (evidence rep) = Ok (planHash rep).
Proof.
  unfold inspect. intros (run & h1 & _ & Hk)%action_bind_Ok.
  do 3 apply action_bind_Ok in Hk as (? & ? & _ & Hk). rewrite observe_bind in Hk.
  apply action_bind_Ok in Hk as (? & ? & _ & Hk). rewrite observe_bind in Hk.
  apply lift_bind_Ok in Hk as (e & _ & Hk). apply lift_bind_Ok in Hk as (hash & Hh & Hk).
  by injection Hk as <- <-.
Qed.

Lemma plan_hash_text e hash :
  plan_hash sha256 e = Ok hash → hash = sha256 (stringify (arranged (evidence_json e))).
Proof. unfold plan_hash. rewrite canonical_text by apply evidence_harmless. by intros [= <-]. Qed.

(** ** Cancellation *)

(** The operator's wish to stop a live run is noted. *)
Definition notes (input : run_input) (reason : string) (c c' : content) : Prop :=
  audited "run.cancellation_requested" input [("reason", CStr reason)] c.1 c'.1 ∧ c'.2 = c.2.

(** What a call of [cancel] does to the tables, by its answer. *)
Definition cancel_effect (input : run_input) (r : outcome cancel_answer) (c c' : content) : Prop :=
  match r with
  | Ok cancelled => ∃ reason c1 c2,
      others_run c c1 ∧ cancels input reason c1 c2 ∧ others_run c2 c'
  | Ok cancellation_requested => ∃ reason c1 c2,
      others_run c c1 ∧ notes input reason c1 c2 ∧ others_run c2 c'
  | _ => others_run c c' ∨
      ∃ reason c1 c2, others_run c c1 ∧ notes input reason c1 c2 ∧ others_run c2 c'
  end.

Lemma cancel_live_spec runId c :
  match cancel_live runId c with
  | (true, c') => cancellationRequested runId c' = true
  | (false, c') => c' = c ∧ has runId c = false
  end.
Proof.
  unfold cancel_live, cancellationRequested, has.
  destruct (live c !! runId) as [[t a]|] eqn:Hl; cbn; [by rewrite lookup_insert_eq|done].
Qed.

Lemma audit_run_Throw type input payload h e h' :
  audit_run type (ri_actorId input) (ri_projectId input) (ri_runId input) payload h = (Throw e, h') →
  stored h' = stored h.
Proof.
  unfold audit_run. intros [Ha|(? & ? & _ & Ha)]%action_bind_Throw; [|done].
  unfold on_runs, on_store, ActionStore.on_runs, on_base in Ha.
  destruct (TaskServices.record_audit_event _ _) as [[id|e'] sw] eqn:Hr; [done|].
  injection Ha as _ <-. apply TaskInvariants.record_audit_event_atomic in Hr.
  unfold stored, content_of, set_base. cbn. rewrite Hr. cbn.
  by destruct (db (ActionStore.host (store h))).
Qed.

Lemma cancel_delivered_spec input reason h r h' :
  cancel_delivered sha256 input reason h = (r, h') →
  r ≠ Ok cancelled ∧
  (r = Ok cancellation_requested → cancellationRequested (ri_runId input) (control h') = true) ∧
  (r = Ok cancellation_requested →
     ∃ c, notes input reason (stored h) c ∧ others_run c (stored h')) ∧
  (others_run (stored h) (stored h') ∨
   ∃ c, notes input reason (stored h) c ∧ others_run c (stored h')).
Proof.
  unfold cancel_delivered. unfold mbind at 1, action_bind at 1.
  destruct (await false _ h) as [[u|e] h1] eqn:Ha; apply await_spec in Ha as (h0 & Ha & ->).
  2: { intros [= <- <-]. apply audit_run_Throw in Ha. cbn.
       split_and!; try done. left. by rewrite Ha. }
  apply audit_run_Ok in Ha as [Ha Hcaps]; [|done]. cbn [is_ok].
  assert (notes input reason (stored h) (stored h0)) as Hn by done.
  rewrite get_bind. pose proof (cancel_live_spec (ri_runId input) (control (resumed false h0))) as Hl.
  destruct (cancel_live _ _) as [delivered c].
  assert (∀ k : RunRecovery.command cancel_answer,
    (modify (set_control c);; k) (resumed false h0) = k (set_control c (resumed false h0))) as -> by done.
  destruct delivered.
  - intros [= <- <-]. split_and!; try done.
    + intros _. exists (stored h0). split; [done|]. apply resumed_others.
    + right. exists (stored h0). split; [done|]. apply resumed_others.
  - destruct Hl as [-> _]. unfold mbind, action_bind.
    destruct (await false _ _) as [[rep|e] h2] eqn:Hi;
      (apply idle_Ok in Hi; [|apply idle_await, idle_inspect]); intros [= <- <-].
    + assert (undelivered (ev_classification (evidence rep)) ≠ Ok cancelled ∧
        undelivered (ev_classification (evidence rep)) ≠ Ok cancellation_requested) as [Hx Hy]
        by (by destruct (ev_classification (evidence rep))).
      split_and!; try done. right. exists (stored h0). split; [done|].
      eapply others_run_trans; [apply resumed_others|exact Hi].
    + split_and!; try done. right. exists (stored h0). split; [done|].
      eapply others_run_trans; [apply resumed_others|exact Hi].
Qed.

Lemma cancel_spec input h r h' :
  cancel sha256 input h = (r, h') →
  cancel_effect input r (stored h) (stored h') ∧
  (r = Ok cancellation_requested → cancellationRequested (ri_runId input) (control h') = true).
Proof.
  unfold cancel. unfold mbind at 1, action_bind at 1.
  destruct (lift _ h) as [[reason|e] h1] eqn:Hn; unfold lift in Hn.
  2: { injection Hn as _ <-. intros [= <- <-]. split; [left; apply others_run_refl|done]. }
  injection Hn as _ <-. unfold mbind at 1, action_bind at 1.
  destruct (await false _ h) as [[rep|e] h1] eqn:Hi;
    (apply idle_Ok in Hi; [|apply idle_await, idle_inspect]).
  2: { intros [= <- <-]. split; [by left|done]. }
  case_bool_decide as Ht; [intros [= <- <-]; split; [by left|done]|].
  case_bool_decide as Ha; [intros [= <- <-]; split; [by left|done]|].
  rewrite observe_bind. destruct (has _ _).
  { intros (Hc & Hreq & Hnote & Hany)%cancel_delivered_spec. split; [|done].
    assert (others_run (stored h) (stored h') ∨ ∃ reason c1 c2, others_run (stored h) c1 ∧
      notes input reason c1 c2 ∧ others_run c2 (stored h')) as Hall.
    { destruct Hany as [Hany|(k & Hk & Hany)]; [left; by eapply others_run_trans|].
      right. by exists reason, (stored h1), k. }
    destruct r as [[]|e]; [exact Hall| |done|exact Hall].
    destruct (Hnote eq_refl) as (k & Hk & Hany'). by exists reason, (stored h1), k. }
  unfold mbind at 1, action_bind at 1. destruct (refuse_if _ _ h1) as [[u|e] h2] eqn:Hr.
  2: { unfold refuse_if, lift in Hr. injection Hr as _ <-. intros [= <- <-]. split; [by left|done]. }
  unfold refuse_if, lift in Hr. injection Hr as _ <-. unfold mbind, action_bind.
  destruct (await false _ h1) as [[v|e] h2] eqn:Hq; apply await_spec in Hq as (h3 & Hq & ->);
    intros [= <- <-]; (split; [|done]).
  - apply host_transaction_Ok in Hq as (a & b & Hsa & Hb & Hst). apply cancel_queued_Ok in Hb.
    rewrite Hsa, <- Hst in Hb. exists reason, (stored h1), (stored h3).
    split_and!; [done|done|apply resumed_others].
  - apply host_transaction_Throw in Hq. left. cbn [is_ok]. by rewrite Hq.
Qed.

(** Only a run whose stage is current can be recovered from an interruption. *)
Lemma resolves_in_place input approve c c' :
  resolves input approve c c' →
  (∃ row, runs c.1 !! ri_runId input = Some row ∧ AgentRun.is_terminal (r_status row) = true) ∨
  ∃ row, runs c.1 !! ri_runId input = Some row ∧ binding_valid row c.1 = true.
Proof.
  intros (s & fresh & d & Hs & Hseen & _ & _ & Hd & _).
  case_bool_decide as Ht.
  - left. destruct Hseen as (run & ? & ? & ? & ? & ? & ? & Hf & _ & _ & _ & _ & _ & He & _).
    apply stored_run_Ok in Hf as (row & Hrow & Hrun).
    apply run_of_row_spec in Hrun as (_ & _ & _ & _ & _ & _ & Es & _).
    exists row. subst c. split; [done|]. rewrite <- Es.
    apply evidence_fields in He as (Hc & _). rewrite Hc in Ht. by apply cleanup_ended in Ht.
  - right. destruct Hd as (row & ? & ? & Hrow & _ & Hb & _). eauto.
Qed.

(** ** When nobody interferes *)

Definition quiet : Prop :=
  (∀ n s, on_database n s = s) ∧ (∀ n c, on_control n c = c).

Definition keeps_control {A} (m : RunRecovery.command A) : Prop :=
  ∀ h, control (m h).2 = control h.

Lemma keeps_control_bind {A B} (m : RunRecovery.command A) (k : A → RunRecovery.command B) :
  keeps_control m → (∀ a, keeps_control (k a)) → keeps_control (m ≫= k).
Proof.
  intros Hm Hk h. unfold mbind, action_bind. specialize (Hm h).
  destruct (m h) as [[a|e] h1]; cbn in *; [|done]. by rewrite Hk.
Qed.

Lemma keeps_control_store {A} (m : ActionStore.command A) : keeps_control (on_store m).
Proof. intros h. unfold on_store. by destruct (m (store h)). Qed.

Lemma keeps_control_runs {A} (m : RunStore.command A) : keeps_control (on_runs m).
Proof. apply keeps_control_store. Qed.

Lemma keeps_control_lift {A} (r : outcome A) : keeps_control (lift r).
Proof. done. Qed.

Lemma keeps_control_refuse b e : keeps_control (refuse_if b e).
Proof. by destruct b. Qed.

Lemma keeps_control_await {A} inside (m : RunRecovery.command A) :
  quiet → keeps_control m → keeps_control (await inside m).
Proof.
  intros [_ Hq] Hm. apply keeps_control_bind; [done|]. intros a.
  apply keeps_control_bind; [intros h; apply Hq|done].
Qed.

Lemma keeps_control_transaction {A} (m : RunRecovery.command A) :
  keeps_control m → keeps_control (RunRecovery.transaction m).
Proof.
  intros Hm h. unfold RunRecovery.transaction. destruct (RunStore.active _); [done|].
  specialize (Hm (set_store (ActionStore.on_host (ActionStore.set_active true) (store h)) h)).
  by destruct (m _) as [[a|e] h1].
Qed.

Lemma keeps_control_requireRun inside projectId runId :
  quiet → keeps_control (requireRun inside projectId runId).
Proof.
  intros Hq. apply keeps_control_bind; [apply keeps_control_await, keeps_control_runs; done|].
  intros [run|]; [|done]. by apply keeps_control_bind; [apply keeps_control_refuse|].
Qed.

Lemma keeps_control_inspect inside projectId runId reason :
  quiet → keeps_control (inspect sha256 inside projectId runId reason).
Proof.
  intros Hq. unfold inspect.
  apply keeps_control_bind; [by apply keeps_control_await, keeps_control_requireRun|]. intros run.
  do 2 (apply keeps_control_bind; [by apply keeps_control_await, keeps_control_store|]; intros ?).
  apply keeps_control_bind; [by apply keeps_control_await, keeps_control_runs|]. intros owner.
  apply keeps_control_bind; [done|]. intros is_live.
  apply keeps_control_bind; [by apply keeps_control_await, keeps_control_runs|]. intros lock.
  apply keeps_control_bind; [done|]. intros requested.
  apply keeps_control_bind; [done|]. intros e. by apply keeps_control_bind.
Qed.

Lemma keeps_control_cancelled run code message : keeps_control (cancelled_run run code message).
Proof.
  apply keeps_control_bind; [apply keeps_control_runs|]. intros at_.
  by destruct (AgentRun.transition _ _ _ _) as [[]].
Qed.

Lemma keeps_control_audit type actor project runId payload :
  keeps_control (audit_run type actor project runId payload).
Proof. by apply keeps_control_bind; [apply keeps_control_runs|]. Qed.

Lemma keeps_control_cancel_queued input reason : quiet → keeps_control (cancel_queued input reason).
Proof.
  intros Hq. apply keeps_control_bind; [by apply keeps_control_await, keeps_control_requireRun|].
  intros run. apply keeps_control_bind; [done|]. intros is_live.
  apply keeps_control_bind; [apply keeps_control_refuse|]. intros _.
  apply keeps_control_bind; [apply keeps_control_cancelled|]. intros run'.
  do 2 (apply keeps_control_bind; [by apply keeps_control_await, keeps_control_runs|]; intros ?).
  by apply keeps_control_await, keeps_control_audit.
Qed.

Lemma others_quiet c c' : quiet → others_run c c' → c' = c.
Proof.
  intros [Hq _]. induction 1 as [|c1 c2 c3 Hs _ IH]; [done|]. rewrite IH.
  destruct Hs as [n s]. by rewrite Hq.
Qed.

(** Quiet reports leave everything as it is. *)
Lemma inspect_quiet projectId runId reason h rep h' :
  quiet → await false (inspect sha256 false projectId runId reason) h = (Ok rep, h') →
  stored h' = stored h ∧ control h' = control h ∧
  ∃ row, runs (stored h).1 !! runId = Some row ∧
    (ev_classification (evidence rep) = terminal → AgentRun.is_terminal (r_status row) = true).
Proof.
  intros Hq Hi. split_and!.
  - apply idle_Ok in Hi; [|apply idle_await, idle_inspect]. by apply others_quiet.
  - pose proof (keeps_control_await false _ Hq (keeps_control_inspect false projectId runId reason Hq) h)
      as Hc. by rewrite Hi in Hc.
  - apply await_Ok in Hi as (h1 & Hi & _). unfold inspect in Hi.
    apply action_bind_Ok in Hi as (run & h2 & Hr & Hk).
    apply await_Ok in Hr as (h3 & Hr & _). apply required_run_Ok in Hr as (Hf & _ & _).
    apply stored_run_Ok in Hf as (row & Hrow & Hrun). exists row. split; [done|].
    apply run_of_row_spec in Hrun as (_ & _ & _ & _ & _ & _ & Es & _). rewrite <- Es.
    do 3 apply action_bind_Ok in Hk as (? & ? & _ & Hk). rewrite observe_bind in Hk.
    apply action_bind_Ok in Hk as (lock & ? & _ & Hk). rewrite observe_bind in Hk.
    apply lift_bind_Ok in Hk as (e & He & Hk). apply lift_bind_Ok in Hk as (hash & _ & Hk).
    injection Hk as <- _. cbn. apply evidence_fields in He as (-> & _). unfold classify.
    destruct (existsb undecided _); [done|]. destruct (has _ _); [done|].
    rewrite ended_spec. destruct (AgentRun.is_terminal _); [done|]. by case_bool_decide.
Qed.

(** ** Cancelling the runs of a task *)

(** The run does not wait to start, and does not run unasked. *)
Definition settled (id : string) (h : host) : Prop :=
  ∀ row, runs (stored h).1 !! id = Some row →
    AgentRun.is_terminal (r_status row) = true ∨
    (r_status row ≠ AgentRun.queued ∧ has id (control h) = false) ∨
    cancellationRequested id (control h) = true.

(** Nothing but the run [id] may have changed, and no run its project or task. *)
Definition only_run (id : string) (h h' : host) : Prop :=
  (∀ k, k ≠ id → runs (stored h').1 !! k = runs (stored h).1 !! k ∧
     live (control h') !! k = live (control h) !! k) ∧
  (∀ k row', runs (stored h').1 !! k = Some row' → ∃ row, runs (stored h).1 !! k = Some row ∧
     r_project_id row' = r_project_id row ∧ r_task_id row' = r_task_id row).

Lemma settled_kept id k h h' : only_run id h h' → k ≠ id → settled k h → settled k h'.
Proof.
  intros [Hk _] Hne Hs row Hrow. destruct (Hk k Hne) as [Hr Hl]. rewrite Hr in Hrow.
  specialize (Hs row Hrow). unfold has, cancellationRequested in *. by rewrite Hl.
Qed.

Lemma only_run_same id h h' : runs (stored h').1 = runs (stored h).1 → control h' = control h → only_run id h h'.
Proof. intros Hr Hc. split; rewrite Hr; [by rewrite Hc|eauto]. Qed.

Lemma cancel_live_other runId c k :
  k ≠ runId → live (cancel_live runId c).2 !! k = live c !! k.
Proof.
  intros Hne. unfold cancel_live. destruct (live c !! runId) as [[t a]|]; [|done]. cbn.
  by rewrite lookup_insert_ne.
Qed.

Lemma notes_runs input reason c c' : notes input reason c c' → runs c'.1 = runs c.1.
Proof. by intros [[-> _]%audited_runs _]. Qed.

Lemma terminal_settled id h row :
  runs (stored h).1 !! id = Some row → AgentRun.is_terminal (r_status row) = true → settled id h.
Proof. intros Hr Ht row' Hr'. left. congruence. Qed.

Lemma cancel_delivered_quiet input reason h a h' :
  quiet → cancel_delivered sha256 input reason h = (Ok a, h') →
  settled (ri_runId input) h' ∧ only_run (ri_runId input) h h'.
Proof.
  intros Hq. unfold cancel_delivered. intros (u & h1 & Ha & Hk)%action_bind_Ok.
  pose proof (keeps_control_await false _ Hq (keeps_control_audit "run.cancellation_requested"
    (ri_actorId input) (ri_projectId input) (ri_runId input) [("reason", CStr reason)]) h) as Hc1.
  rewrite Ha in Hc1. cbn in Hc1. apply await_Ok in Ha as (h0 & Ha & ->).
  apply audit_run_Ok in Ha as [Ha _]; [|done]. apply audited_runs in Ha as [Ha _].
  assert (runs (stored (resumed false h0)).1 = runs (stored h).1) as Hr1.
  { rewrite <- Ha. by rewrite <- (others_quiet _ _ Hq (resumed_others h0)). }
  set (g := resumed false h0) in *. rewrite get_bind in Hk.
  pose proof (cancel_live_spec (ri_runId input) (control g)) as Hl.
  pose proof (λ k, cancel_live_other (ri_runId input) (control g) k) as Ho.
  destruct (cancel_live _ _) as [delivered c]. cbn [snd] in Ho.
  change ((if delivered then mret cancellation_requested
     else current ← await false (inspect sha256 false (ri_projectId input) (ri_runId input) (Some reason));
          lift (undelivered (ev_classification (evidence current)))) (set_control c g) = (Ok a, h')) in Hk.
  destruct delivered.
  - injection Hk as _ <-. split; [intros row _; by right; right|].
    unfold only_run. change (stored (set_control c g)) with (stored g). split; rewrite Hr1; [|eauto].
    intros k Hne. split; [done|]. cbn. by rewrite Ho, Hc1.
  - destruct Hl as [-> _]. apply action_bind_Ok in Hk as (rep & h2 & Hi & Hk).
    apply inspect_quiet in Hi as (Hs & Hc & row & Hrow & Ht); [|done].
    unfold lift in Hk. injection Hk as Hu <-. split.
    + eapply terminal_settled; [by rewrite Hs|]. apply Ht.
      by destruct (ev_classification (evidence rep)).
    + apply only_run_same; [by rewrite Hs, <- Hr1|by rewrite Hc, <- Hc1].
Qed.

Lemma cancels_only input reason h h' :
  cancels input reason (stored h) (stored h') → control h' = control h →
  settled (ri_runId input) h' ∧ only_run (ri_runId input) h h'.
Proof.
  intros (d & row & Hrow & _ & Hend & Ha & _) Hc. apply audited_runs in Ha as [Ha _].
  change (runs (unlocked (ri_runId input) d)) with (runs d) in Ha.
  pose proof Hend as (row1 & row' & e & Hrow1 & _ & _ & Hadv & Hs & _ & _ & _ & Hd).
  assert (runs (stored h').1 = <[ri_runId input := row']> (runs (stored h).1)) as Hr.
  { rewrite Ha, Hd. by rewrite RunHistory.runs_add_event. }
  split.
  - eapply (terminal_settled _ _ row'); [by rewrite Hr, lookup_insert_eq|by rewrite Hs].
  - split.
    + intros k Hne. by rewrite Hr, lookup_insert_ne, Hc.
    + intros k r. rewrite Hr. intros [[<- <-]|[_ Hk]]%lookup_insert_Some; [|eauto].
      exists row1. destruct Hadv. by split_and!.
Qed.

Lemma cancel_quiet input h a h' :
  quiet → cancel sha256 input h = (Ok a, h') →
  settled (ri_runId input) h' ∧ only_run (ri_runId input) h h'.
Proof.
  intros Hq. unfold cancel. intros (reason & _ & Hk)%lift_bind_Ok.
  apply action_bind_Ok in Hk as (rep & h1 & Hi & Hk).
  apply inspect_quiet in Hi as (Hs & Hc & row & Hrow & Ht); [|done].
  assert (∀ g, settled (ri_runId input) g ∧ only_run (ri_runId input) h1 g →
    settled (ri_runId input) g ∧ only_run (ri_runId input) h g) as Hfrom.
  { intros g [Hset [Hg1 Hg2]]. split; [done|]. split; [intros k Hne|intros k r Hr].
    - destruct (Hg1 k Hne) as [-> ->]. by rewrite Hs, Hc.
    - rewrite <- Hs. by apply Hg2. }
  case_bool_decide as Hterm.
  { injection Hk as _ <-. apply Hfrom. split; [|by apply only_run_same].
    eapply terminal_settled; [by rewrite Hs|by apply Ht]. }
  case_bool_decide as Hamb; [done|]. rewrite observe_bind in Hk. apply Hfrom.
  destruct (has _ _); [by eapply cancel_delivered_quiet|].
  apply refuse_if_bind_Ok in Hk as [_ Hk]. apply action_bind_Ok in Hk as (u & h2 & Hcq & Hk).
  injection Hk as _ <-.
  pose proof (keeps_control_await false _ Hq (keeps_control_transaction _
    (keeps_control_cancel_queued input reason Hq)) h1) as Hc2. rewrite Hcq in Hc2. cbn in Hc2.
  apply await_Ok in Hcq as (h3 & Hcq & ->). apply host_transaction_Ok in Hcq as (x & y & Hx & Hy & Hst).
  apply cancel_queued_Ok in Hy. rewrite Hx, <- Hst in Hy.
  eapply cancels_only; [|done]. by rewrite (others_quiet _ _ Hq (resumed_others h3)).
Qed.

Lemma readonly_listRuns projectId : readonly (listRuns projectId).
Proof. intros w. unfold listRuns. rewrite read_bind. by destruct (restore_runs _). Qed.

(** The runs of a project, each once. *)
Lemma listRuns_Ok projectId w l :
  (listRuns projectId w).1 = Ok l →
  NoDup (AgentRun.id <$> l) ∧
  (∀ r, r ∈ l → ∃ row, runs (db w) !! AgentRun.id r = Some row ∧ r_status row = AgentRun.status r) ∧
  (∀ id row, runs (db w) !! id = Some row → r_project_id row = projectId →
     ∃ r, r ∈ l ∧ AgentRun.id r = id ∧ AgentRun.taskId r = r_task_id row).
Proof.
  unfold listRuns. rewrite read_bind. unfold lift. cbn. unfold restore_runs. intros Hl.
  apply map_result_Ok in Hl. set (rows := sort_by compare_created (project_runs projectId (db w))) in *.
  assert (AgentRun.id <$> l = rows.*1) as Hids.
  { clear -Hl. induction Hl as [|[i row] r rs l Hr _ IH]; [done|]. rewrite !fmap_cons, IH.
    by apply run_of_row_spec in Hr as (-> & _). }
  assert (∀ i row, (i, row) ∈ rows ↔ r_project_id row = projectId ∧ runs (db w) !! i = Some row) as Hrows.
  { intros i row. unfold rows, project_runs.
    by rewrite sort_by_elem_of, list_elem_of_filter, elem_of_map_to_list. }
  split_and!.
  - rewrite Hids. unfold rows, project_runs. rewrite sort_by_perm.
    apply NoDup_fmap_2_strong; [|apply NoDup_filter, NoDup_map_to_list].
    intros [i x] [j y] [_ Hi%elem_of_map_to_list]%list_elem_of_filter
      [_ Hj%elem_of_map_to_list]%list_elem_of_filter Heq. cbn in Heq. subst j. congruence.
  - intros r Hr. apply list_elem_of_lookup in Hr as [k Hk].
    destruct (Forall2_lookup_r _ _ _ _ _ Hl Hk) as ([i row] & Hi & Hrun). cbn in Hrun.
    apply run_of_row_spec in Hrun as (-> & _ & _ & _ & _ & _ & Hs & _).
    apply list_elem_of_lookup_2, Hrows in Hi as [_ Hi]. eauto.
  - intros i row Hi Hp. assert ((i, row) ∈ rows) as Hin by by apply Hrows.
    apply list_elem_of_lookup in Hin as [k Hk].
    destruct (Forall2_lookup_l _ _ _ _ _ Hl Hk) as (r & Hr & Hrun). cbn in Hrun.
    apply run_of_row_spec in Hrun as (Hid & _ & Ht & _). exists r.
    split_and!; [by eapply list_elem_of_lookup_2|done|done].
Qed.

(** The loop settles every run it was given. *)
Lemma cancel_each_quiet taskId input l h h' :
  quiet → (∀ id, ri_runId (input id) = id) → NoDup (AgentRun.id <$> l) →
  (∀ r, r ∈ l → ∃ row, runs (stored h).1 !! AgentRun.id r = Some row ∧
     r_status row = AgentRun.status r) →
  cancel_each sha256 taskId input l h = (Ok tt, h') →
  (∀ r, r ∈ l → AgentRun.taskId r = taskId → settled (AgentRun.id r) h') ∧
  (∀ k, k ∉ AgentRun.id <$> l → settled k h → settled k h') ∧
  (∀ k row', runs (stored h').1 !! k = Some row' → ∃ row, runs (stored h).1 !! k = Some row ∧
     r_project_id row' = r_project_id row ∧ r_task_id row' = r_task_id row).
Proof.
  intros Hq Hin. revert h. induction l as [|r l IH]; intros h Hnd Hl Hk.
  { injection Hk as <-. split_and!; [by intros r ?%elem_of_nil|done|eauto]. }
  rewrite fmap_cons in Hnd. apply NoDup_cons in Hnd as [Hr Hnd].
  cbn [cancel_each] in Hk. apply action_bind_Ok in Hk as ([] & h1 & Hstep & Hk).
  assert ((AgentRun.taskId r = taskId → settled (AgentRun.id r) h1) ∧ only_run (AgentRun.id r) h h1)
    as [Hset Honly].
  { destruct (Hl r (list_elem_of_here _ _)) as (row & Hrow & Hst).
    destruct (_ || _) eqn:Hskip in Hstep.
    { injection Hstep as <-. split; [|by apply only_run_same]. intros Ht.
      rewrite Ht, bool_decide_eq_true_2 in Hskip by done. cbn in Hskip.
      eapply terminal_settled; [done|]. by rewrite Hst. }
    rewrite observe_bind in Hstep. destruct (_ || _) eqn:Hdo in Hstep.
    - apply action_bind_Ok in Hstep as (a & h2 & Hc & Hstep). injection Hstep as <-.
      apply await_Ok in Hc as (h3 & Hc & ->). apply cancel_quiet in Hc as [Hs [Ho1 Ho2]]; [|done].
      rewrite Hin in *. pose proof (others_quiet _ _ Hq (resumed_others h3)) as Hres.
      assert (control (resumed false h3) = control h3) as Hcc by apply Hq.
      split; [intros _|split]; unfold settled; rewrite ?Hres, ?Hcc; done.
    - injection Hstep as <-. apply orb_false_iff in Hdo as [Hnq%bool_decide_eq_false Hnl].
      split; [|by apply only_run_same]. intros _ row' Hrow'. right. left.
      split; [|done]. congruence. }
  destruct (IH h1) as (Hall & Hkeep & Hsame); [done| |done|].
  { intros q Hq'. destruct (Hl q) as (row & Hrow & Hst); [by right|]. exists row.
    split; [|done]. assert (AgentRun.id q ≠ AgentRun.id r) as Hne.
    { intros Heq. destruct Hr. rewrite <- Heq. by apply list_elem_of_fmap_2. }
    by rewrite (proj1 (proj1 Honly _ Hne)). }
  split_and!.
  - intros q [->|Hq']%elem_of_cons Ht; [|by apply Hall]. apply Hkeep; [done|by apply Hset].
  - intros k Hkn Hs. rewrite fmap_cons, not_elem_of_cons in Hkn. destruct Hkn as [Hne Hkn].
    apply Hkeep; [done|]. by eapply settled_kept.
  - intros k row' Hrow'. destruct (Hsame k row' Hrow') as (row1 & Hrow1 & E1 & E2).
    destruct (proj2 Honly k row1 Hrow1) as (row & Hrow & E3 & E4). exists row.
    split_and!; [done|congruence..].
Qed.

End steps.

End RecoverySteps.
