(* ===== verification/RecoverySafety.v ===== *)
(** What cancelling and reconciling runs guarantees, whatever the others do at
    the waits: a recovery applies the plan that was approved, never guesses at an
    effect, and ends the run for good; a cancellation answers truly. *)
From S2P Require Import Prelude Errors TaskModel Json ActionModel PolicyModel Dates AgentModel Store RunStore ActionStore TaskServices PipelineServices RunRecovery Arranged RunHistory RecoverySteps.
Import Canonical Policy Provenance Dates Arranged RunStore RunHistory RunRecovery RecoverySteps.

Module RecoverySafety.

Section properties.
  Context `{ShowNumber} `{Store.Environment} `{Others} `{Orchestration.Collation}.
  Context (sha256 : string → string).

(** C18: reconciling a run applies only the plan that was approved.  Without
    an approval nothing is written.  With one, a success is one transaction in
    which the report, read again, has the approved hash and is recoverable, the
    run ends unless it had ended, its lock goes, and the audit trail says so;
    every failure writes nothing.  Before and after it only the others write. *)
Theorem reconcile_resolves input approve h r h' :
  reconcile sha256 input approve h = (r, h') →
  match r, approve with
  | Ok res, Some hash => applied res = true ∧
      ∃ c c', others_run (stored h) c ∧ resolves sha256 input hash c c' ∧ others_run c' (stored h')
  | Ok res, None => applied res = false ∧ others_run (stored h) (stored h')
  | Throw _, _ => others_run (stored h) (stored h')
  end.
Proof.
  apply reconcile_spec.
Qed.

(** C9: recovery never guesses.  When a recovery is applied, every controlled
    effect the run asked for is decided; afterwards the run has ended and holds
    no lock, and in every later history of the runtime's calls its row stays
    the same. *)
Theorem recovery_never_guesses input approve h res h' :
  reconcile sha256 input (Some approve) h = (Ok res, h') →
  ∃ c c' row, others_run (stored h) c ∧ resolves sha256 input approve c c' ∧ others_run c' (stored h') ∧
    (∀ k p, ActionStore.requests c.2 !! k = Some p →
       ActionRequest.projectId p = ri_projectId input →
       ActionRequest.agentRunId p = Some (ri_runId input) → ¬ effect_undecided p c.2) ∧
    (∀ t l, locks c'.1 !! t = Some l → l_run_id l ≠ ri_runId input) ∧
    runs c'.1 !! ri_runId input = Some row ∧ AgentRun.is_terminal (r_status row) = true ∧
    ∀ ls d, RunHistory.history c'.1 ls d → runs d !! ri_runId input = Some row.
Proof.
  intros Hr. apply reconcile_Ok in Hr as (c & c' & Ho & Hres & Ho').
  destruct (resolves_ended _ _ _ _ _ Hres) as (row & Hrow & Ht). exists c, c', row.
  split_and!; try done.
  - destruct Hres as (s & fresh & d & <- & Hseen & _ & Hrec & _). intros k p. by eapply seen_decided.
  - destruct Hres as (s & fresh & d & _ & _ & _ & _ & _ & Ha & _).
    apply audited_runs in Ha as [_ ->]. apply unlocked_lock.
  - intros ls d Hh. destruct (RunHistory.trace_row _ _ _ _ _ _ Hh Hrow) as (row' & Hrow' & He).
    by rewrite (RunHistory.evolves_terminal _ _ He Ht) in Hrow'.
Qed.

(** C10: an approval binds the facts.  If a report was inspected, at any time,
    and a recovery is applied with its hash, then the report read in the
    transaction states exactly the same facts: the run's status and time, its
    owner, its actions and theirs, its lock.  The hash has no collision with the
    text of the report. *)
Theorem approval_binds_facts `{!ShowNumberLaws} inside reason input h0 rep h0' h res h' :
  inspect sha256 inside (ri_projectId input) (ri_runId input) reason h0 = (Ok rep, h0') →
  reconcile sha256 input (Some (planHash rep)) h = (Ok res, h') →
  (∀ e text text', canonicalStringify (embed 0 (evidence_json (evidence rep))) = Ok text →
     canonicalStringify (embed 0 (evidence_json e)) = Ok text' →
     sha256 text = sha256 text' → text = text') →
  ∃ s c' fresh, others_run (stored h) (content_of s) ∧
    seen sha256 (ri_projectId input) (ri_runId input) (Some (ri_reason input)) s fresh ∧
    evidence fresh = evidence rep ∧
    resolves sha256 input (planHash rep) (content_of s) c' ∧ others_run c' (stored h').
Proof.
  intros Hi (c & c' & Ho & Hres & Ho')%reconcile_Ok Hsha.
  pose proof Hres as (s & fresh & d & Hs & Hseen & Hh & _).
  exists s, c', fresh. rewrite Hs. split_and!; try done.
  apply inspect_hash, plan_hash_text in Hi.
  pose proof Hseen as (? & ? & ? & ? & ? & ? & ? & _ & _ & _ & _ & _ & _ & _ & Hf).
  apply plan_hash_text in Hf. apply evidence_json_inj.
  pose proof (evidence_harmless (evidence rep)) as H1r. pose proof (evidence_harmless (evidence fresh)) as H1f.
  apply arranged_text_inj; [done|done|]. symmetry.
  apply (Hsha (evidence fresh)); [by apply canonical_text..|]. congruence.
Qed.

(** C19: cancelling answers truly.  [cancelled]: one transaction ended a run
    that was queued, with its lock and an audit event.  [cancellation_requested]:
    the wish was noted and the signal of the live run is aborted.  Otherwise
    nothing but that note was written.  All other changes are the others'. *)
Theorem cancel_answers input h r h' :
  cancel sha256 input h = (r, h') →
  cancel_effect input r (stored h) (stored h') ∧
  (r = Ok cancellation_requested → cancellationRequested (ri_runId input) (control h') = true).
Proof. apply cancel_spec. Qed.

(** C37: an interrupted run whose pipeline stage has been left can never be
    recovered.  As long as the others leave it in flight and behind, every
    recovery of it fails, whatever plan is approved. *)
Theorem displaced_run_is_stuck input approve h :
  let stuck (c : content) := RunHistory.left_behind (ri_runId input) c.1 ∧
    ∃ row, runs c.1 !! ri_runId input = Some row ∧ RunHistory.in_flight (r_status row) = true in
  stuck (stored h) →
  (∀ n s, stuck (content_of s) → stuck (content_of (on_database n s))) →
  ∃ e, (reconcile sha256 input (Some approve) h).1 = Throw e.
Proof.
  intros stuck Hh Hothers.
  destruct (reconcile sha256 input (Some approve) h) as [[res|e] h'] eqn:Hr; [|by exists e].
  exfalso. apply reconcile_Ok in Hr as (c & c' & Ho & Hres & _).
  assert (stuck c) as [(row & Hrow & Hb) (row1 & Hrow1 & Hf)].
  { clear Hres. unfold others_run in Ho. revert Hh. induction Ho as [c|c1 c2 c3 Hs _ IH]; [done|].
    intros Hc. apply IH. destruct Hs as [n s]. by apply Hothers. }
  destruct (resolves_in_place _ _ _ _ _ Hres) as [(row2 & Hrow2 & Ht)|(row2 & Hrow2 & Hv)].
  - assert (row1 = row2) as -> by congruence. by destruct (r_status row2).
  - congruence.
Qed.

(** C36: cancelling the runs of a task leaves none of them waiting.  When nobody
    interferes and the call returns, every run of the task has ended, or has
    been asked to stop, or is one that had started and that this host does not
    run. *)
Theorem cancelTaskRuns_settles projectId taskId actorId reason h h' id row :
  quiet → cancelTaskRuns sha256 projectId taskId actorId reason h = (Ok tt, h') →
  runs (stored h').1 !! id = Some row → r_project_id row = projectId → r_task_id row = taskId →
  AgentRun.is_terminal (r_status row) = true ∨
  (r_status row ≠ AgentRun.queued ∧ has id (control h') = false) ∨
  cancellationRequested id (control h') = true.
Proof.
  intros Hq. unfold cancelTaskRuns. intros (l & h1 & Hlist & Hk)%action_bind_Ok.
  apply await_runs_Ok in Hlist as [Hlist ->]; [|apply readonly_listRuns].
  assert (stored (resumed false h) = stored h) as Hst by exact (others_quiet _ _ Hq (resumed_others h)).
  apply listRuns_Ok in Hlist as (Hnd & Hl & Hall).
  apply cancel_each_quiet in Hk as (Hset & _ & Hsame); [|done..|].
  2: { intros r Hr. rewrite Hst. by apply Hl. }
  intros Hrow Hp Ht. destruct (Hsame _ _ Hrow) as (row0 & Hrow0 & Ep & Et).
  rewrite Hst in Hrow0. destruct (Hall id row0) as (r & Hr & Hid & Htask); [done|congruence|].
  rewrite <- Hid in *. by apply (Hset r); [|congruence|].
Qed.

End properties.

(** * Witnesses *)

#[local] Existing Instance decimal_number.

#[local] Instance sample_clock : Store.Environment :=
  {| Store.clock_at n := (1000 + Z.of_nat n)%Z; Store.id_at n := "id-" +:+ show_Z (Z.of_nat n) |}.
#[local] Instance nobody : Others := {| on_database _ s := s; on_control _ c := c |}.
#[local] Instance by_code_unit : Orchestration.Collation := compare_text.

Definition sample_host (w : RunStore.world) : host :=
  {| store := {| ActionStore.host := w;
       ActionStore.caps := {| ActionStore.resources := ∅; ActionStore.grants := ∅;
         ActionStore.requests := ∅; ActionStore.simulations := ∅; ActionStore.approvals := ∅;
         ActionStore.executions := ∅ |};
       ActionStore.effects := [] |};
     control := {| live := ∅; stopping := false |}; waits := 0 |}.

(** Run r1 was being prepared when its host stopped. *)
Definition interrupted : host := sample_host admitted_world.

Definition sample_input : run_input :=
  {| ri_projectId := "p1"; ri_runId := "r1"; ri_actorId := "ops"; ri_reason := "host restarted" |}.

(** A call that answers, with what is known of the answer. *)
Definition answers {A} (P : A → host → Prop) (r : outcome A * host) : Prop :=
  match r with (Ok a, h) => P a h | (Throw _, _) => False end.

Lemma answered {A} (P : A → host → Prop) r : answers P r → ∃ a h, r = (Ok a, h) ∧ P a h.
Proof. destruct r as [[a|e] h]; [by eauto|done]. Qed.

Definition sample_plan (rep : Report) (h : host) : Prop :=
  ev_classification (evidence rep) = orphaned ∧
  is_ok (reconcile (λ s, s) sample_input (Some (planHash rep)) interrupted).1 = true.

Lemma sample_inspects :
  answers sample_plan (inspect (λ s, s) false "p1" "r1" (Some "host restarted") interrupted).
Proof. vm_compute. by split. Qed.

Lemma is_ok_answer {A} (r : outcome A * host) : is_ok r.1 = true → ∃ a h, r = (Ok a, h).
Proof. destruct r as [[a|e] h]; [by eauto|done]. Qed.

Lemma sample_recovery : ∃ rep h0 res h',
  inspect (λ s, s) false "p1" "r1" (Some "host restarted") interrupted = (Ok rep, h0) ∧
  ev_classification (evidence rep) = orphaned ∧
  reconcile (λ s, s) sample_input (Some (planHash rep)) interrupted = (Ok res, h').
Proof.
  destruct (answered sample_plan
    (inspect (λ s, s) false "p1" "r1" (Some "host restarted") interrupted) sample_inspects)
    as (rep & h0 & Hi & Hc & Hr).
  destruct (is_ok_answer (reconcile (λ s, s) sample_input (Some (planHash rep)) interrupted) Hr)
    as (res & h' & Hrec).
  exists rep, h0, res, h'. exact (conj Hi (conj Hc Hrec)).
Qed.

Lemma reconcile_resolves_witness : ∃ hash c c',
  resolves (λ s, s) sample_input hash c c'.
Proof.
  destruct sample_recovery as (rep & h0 & res & h' & _ & _ & Hr).
  destruct (reconcile_resolves (λ s, s) _ _ _ _ _ Hr) as (_ & c & c' & _ & Hres & _).
  exists (planHash rep), c, c'. exact Hres.
Defined.

Lemma recovery_never_guesses_witness : ∃ c row,
  runs c !! "r1" = Some row ∧ AgentRun.is_terminal (r_status row) = true ∧
  ∀ ls d, RunHistory.history c ls d → runs d !! "r1" = Some row.
Proof.
  destruct sample_recovery as (rep & h0 & res & h' & _ & _ & Hr).
  destruct (recovery_never_guesses (λ s, s) _ _ _ _ _ Hr)
    as (c & c' & row & _ & _ & _ & _ & _ & Hrow & Ht & Hall).
  exists c'.1, row. exact (conj Hrow (conj Ht Hall)).
Defined.

Lemma approval_binds_facts_witness : ∃ rep fresh,
  ev_classification (evidence rep) = orphaned ∧ evidence fresh = evidence rep.
Proof.
  destruct sample_recovery as (rep & h0 & res & h' & Hi & Hc & Hr).
  destruct (approval_binds_facts (λ s, s) false (Some "host restarted") sample_input interrupted
    rep h0 interrupted res h' Hi Hr (λ e t u _ _ Heq, Heq)) as (s & c' & fresh & _ & _ & He & _).
  exists rep, fresh. exact (conj Hc He).
Defined.

(** Run r1 waits in the queue. *)
Definition waiting : host := sample_host queued_world.

Lemma sample_cancels : answers (λ a _, a = cancelled) (cancel (λ s, s) sample_input waiting).
Proof. by vm_compute. Qed.

Lemma cancel_answers_witness : ∃ reason c c', cancels sample_input reason c c'.
Proof.
  destruct (answered (λ a _, a = cancelled) (cancel (λ s, s) sample_input waiting) sample_cancels) as (a & h' & Hr & ->).
  destruct (cancel_answers (λ s, s) _ _ _ _ Hr) as [(reason & c & c' & _ & Hx & _) _].
  exists reason, c, c'. exact Hx.
Defined.

Lemma sample_displaced : RunHistory.left_behind "r1" (db displaced_world) ∧
  ∃ row, runs (db displaced_world) !! "r1" = Some row ∧ RunHistory.in_flight (r_status row) = true.
Proof.
  destruct (runs (db displaced_world) !! "r1") as [row|] eqn:Hrow; [|by vm_compute in Hrow].
  assert (in_flight (r_status row) = true ∧ binding_valid row (db displaced_world) = false) as [Hfl Hb]
    by (vm_compute in Hrow; injection Hrow as <-; by vm_compute).
  exact (conj (ex_intro _ row (conj Hrow Hb)) (ex_intro _ row (conj eq_refl Hfl))).
Qed.

Lemma displaced_run_is_stuck_witness : ∃ e,
  (reconcile (λ s, s) sample_input (Some "h") (sample_host displaced_world)).1 = Throw e.
Proof.
  exact (displaced_run_is_stuck (λ s, s) sample_input "h" (sample_host displaced_world)
    sample_displaced (λ n s Hs, Hs)).
Defined.

(** The row of r1 is one of the task. *)
Definition sample_row (u : unit) (h : host) : Prop :=
  match runs (stored h).1 !! "r1" with
  | Some row => r_project_id row = "p1" ∧ r_task_id row = "t1"
  | None => False
  end.

Lemma sample_stops :
  answers sample_row (cancelTaskRuns (λ s, s) "p1" "t1" "ops" "task withdrawn" waiting).
Proof. by vm_compute. Qed.

Lemma cancelTaskRuns_settles_witness : ∃ h' row,
  runs (stored h').1 !! "r1" = Some row ∧
  (AgentRun.is_terminal (r_status row) = true ∨
   (r_status row ≠ AgentRun.queued ∧ has "r1" (control h') = false) ∨
   cancellationRequested "r1" (control h') = true).
Proof.
  destruct (answered sample_row
    (cancelTaskRuns (λ s, s) "p1" "t1" "ops" "task withdrawn" waiting) sample_stops) as ([] & h' & Hr & Hrow). unfold sample_row in Hrow.
  destruct (runs (stored h').1 !! "r1") as [row|] eqn:Hl; [|by destruct Hrow].
  exists h', row. refine (conj Hl _).
  exact (cancelTaskRuns_settles (λ s, s) _ _ _ _ _ _ _ _
    (conj (λ _ _, eq_refl) (λ _ _, eq_refl)) Hr Hl (proj1 Hrow) (proj2 Hrow)).
Defined.

End RecoverySafety.
